(* ===== verification/_CoqProject ===== *)
-Q . S2P
Prelude.v
RlcPdu.v
RlcSdu.v
TimeStat.v
RlcCommon.v
HashTable.v
F1apIds.v
RlcConfig.v
RlcRxManager.v
RlcTm.v
RlcUm.v
RlcUmTx.v
RlcReassembly.v
RlcUmRx.v
RlcUmLink.v
RlcAm.v
RlcAmRx.v
RlcAmTx.v
RlcApi.v
RlcApiSpec.v
RlcChannel.v
Snow3g.v
Snow3gSpec.v
Snow3gLfsr.v
Snow3gMul.v
Snow3gMac.v
Secu.v
PdcpSecurity.v
PdcpSdu.v
PdcpEntity.v
PdcpRx.v
PdcpLink.v
PdcpContexts.v
Sdap.v
SdapSpec.v
MacList.v
HarqDl.v
HarqDlSpec.v
MacPdu.v
MacRlc.v
MacDl.v
MacDlUe.v
MacDlSpec.v
MacUmLink.v
MacRaSpec.v
NrTimer.v
MacBsr.v
MacUlLc.v
MacUl.v
MacUlGnb.v
MacUlLcp.v
MacUlParse.v
MacUlSpec.v
MacUlLimits.v
Slices.v
SlicesInv.v
SliceUe.v
SliceUeSpec.v
Tbs.v
TbsSpec.v
SliceSched.v
SliceBudget.v
SliceAlloc.v
DlRetx.v
DlRetxSpec.v
E2Agent.v
E2AgentSpec.v
E2Schedule.v
