(* ===== verification/Prelude.v ===== *)
(** * Verification of the NR layer-2 user plane of the OAI gNB

    The program is the OpenAirInterface 5G base station (gNB) with an agent
    for an external controller (E2) and RAN slicing added to it.  This
    development models the data path of a user packet through layer 2 with
    the interfaces between the layers, the security library under it, the
    decisions of the MAC on which slice and which UE gets how many resource
    blocks, the transport blocks that carry the data and the messages of
    random access, and the agent through which a controller reads and changes
    the policies.

    ** The parts and how they interact

    Downlink, a packet enters SDAP, which finds the DRB of its QoS flow, adds
    a header and calls PDCP; PDCP numbers, protects and ciphers it and calls
    RLC; RLC queues it, segments it into the grants of the MAC, and (in AM)
    retransmits it until it is acknowledged.  The MAC asks RLC how many bytes
    each channel has waiting, assigns the channels to slices, selects a slice
    for each UE, computes a budget of resource blocks for each slice from the
    ratios of its policy, and gives blocks to the UEs; the number of blocks of
    a UE comes from a search over transport block sizes.  It fills the
    transport block with control elements and the SDUs that RLC gives it, and
    keeps it in a HARQ process until the UE has acknowledged it.  Uplink, the
    MAC of the UE reports the bytes waiting of its logical channels, divides a
    grant among them by priority and by a token bucket for each, and fills the
    transport block, which the gNB parses.  The policies
    come from the configuration, from policy files, and from the messages of
    the E2 agent.  The receiving side runs the layers in the opposite order.

    Every operation is a function from a state (a [Record] with the fields of
    the C struct) to a [res] of a state: an access outside an array, a failed
    assertion, a read of freed memory, a division by zero or undefined
    behaviour of an arithmetic conversion is a value of [err], so that a
    theorem that says [Ok] says that none of them happens.  Callbacks of
    upper layers are recorded in a trace in the order of the calls.  Integers
    are [Z] with the wrap-around of their C type written out ([u8], [u16],
    [u32], [i32] below).

    ** Where each part is modelled (directories under src/oai_ran)

    Radio link control, openair2/LAYER2/nr_rlc:
    - [RlcPdu]: nr_rlc_pdu.c, bit codec and the sorted list of received PDUs;
    - [RlcSdu]: nr_rlc_sdu.c, SDUs shared by their segments, in a heap;
    - [RlcCommon]: nr_rlc_entity.h, statistics, buffer status, callbacks;
    - [RlcRxManager]: nr_rlc_rx_manager.c, the ring of the AM receiver;
    - [RlcTm]: nr_rlc_entity_tm.c;  [RlcUm]: nr_rlc_entity_um.c;  [RlcAm]:
      nr_rlc_entity_am.c; each with its share of nr_rlc_entity.c;
    - [TimeStat]: common/utils/time_stat.c, the average the entities keep of
      the time an SDU waits;
    - [RlcConfig]: asn1_utils.c and nr_rlc_configuration.h, the configured
      values;
    - [RlcApi]: nr_rlc_ue_manager.c and nr_rlc_oai_api.c, the entities of all
      UEs and the functions that MAC, PDCP and RRC call.

    Tables of UEs, common/utils/hashtable and openair2/F1AP:
    - [HashTable]: hashtable.c;  [F1apIds]: f1ap_ids.c, through which the RLC
      and others find the identity of a UE on the other side of F1.

    Security, openair3/SECU:
    - [Snow3g]: snow3g.c;  [Secu]: secu_defs.c, nas_stream_eea0/1/2.c,
      nas_stream_eia1/2.c, aes_128_ctr.c, aes_128_cbc_cmac.c.

    Packet data convergence, openair2/LAYER2/nr_pdcp:
    - [PdcpSecurity]: nr_pdcp_security_nea1/2.c, nr_pdcp_integrity_nia1/2.c;
    - [PdcpSdu]: nr_pdcp_sdu.c;  [PdcpEntity]: nr_pdcp_entity.c.

    Service data adaptation, openair2/SDAP/nr_sdap:
    - [Sdap]: nr_sdap_entity.c and nr_sdap.c.

    Medium access, openair2/LAYER2/NR_MAC_gNB, NR_MAC_UE and NR_MAC_COMMON:
    - [MacList]: the lists of numbers of gNB_scheduler_primitives.c;
    - [HarqDl]: the downlink HARQ processes of a UE (gNB_scheduler_dlsch.c,
      gNB_scheduler_uci.c, gNB_scheduler_primitives.c);
    - [MacPdu]: the packed structures and the subheaders of nr_mac.h;
      [MacRlc]: the interface through which the MAC fetches SDUs;
    - [MacDl]: control elements, transport blocks and messages of random
      access at the gNB (gNB_scheduler_dlsch.c, gNB_scheduler_RA.c);
      [MacDlUe]: their parsers at the UE (nr_ue_procedures.c,
      nr_ra_procedures.c);
    - [Slices]: nr_mac_slice_cfg.c, the table of slices and their policies;
    - [SliceUe]: the passes of gNB_scheduler_dlsch.c over the UEs and the
      selection of nr_mac_slice_sched_utils.c;
    - [Tbs]: nr_compute_tbs_common.c, the MCS tables of nr_mac_common.c, and
      the search of gNB_scheduler_primitives.c;
    - [SliceSched]: the budgets of nr_mac_slice_sched_utils.c and the cap and
      the allocation loop of gNB_scheduler_dlsch.c;  [DlRetx]: the allocation
      of a retransmission in the same file.

    - [NrTimer]: the timers of common/utils/nr/nr_common.c;  [MacBsr]: the
      tables, indices and octets of buffer status reports on both sides;
    - [MacUlLc]: the logical channels of the UE with their buckets, timers,
      scheduling requests and configuration (config_ue.c, main_ue_nr.c,
      nr_ue_scheduler.c);  [MacUl]: logical channel prioritization and the
      transport block of the UE (nr_ue_scheduler.c, nr_ue_procedures.c);
      [MacUlGnb]: the parser of the gNB (gNB_scheduler_ulsch.c) and its list of
      channels (gNB_scheduler_primitives.c).

    E2 agent, openair2/E2_AGENT:
    - [E2Agent]: e2_message_handlers.c.

    ** What the theorems show

    - RLC.  [RlcRxManager] implements a map from SN to PDU lists inside the
      window.  [RlcTm.tm_refines_queue]: the TM entity is a bounded queue.
      [RlcUmTx]: the invariant of the UM transmitter under any operations.
      [RlcUmRx], [RlcUmLink]: over a link without loss the receiver delivers
      what was sent, and delivers all of it when there are enough grants.
      [RlcAmRx]: whatever order PDUs arrive in and however often, SDUs are
      delivered complete and at most once.  [RlcAmTx]: segmentation is exact
      and PDUs are read back as they were written.  [TimeStat]: the ring
      buffer is a sliding window.
    - RLC of all UEs.  [RlcApiSpec]: whatever the calls, every channel leads
      to a slot with an entity of the right kind, and what some UEs see does
      not depend on the calls for the others; the process ends when SRB3 is
      acknowledged.  [HashTable]: a finite map.  [RlcChannel]: the calls
      for a channel that a UM entity serves.
    - Security.  [Snow3gSpec], [Snow3gLfsr], [Snow3gMul], [Snow3gMac]: tables,
      key stream and MAC are those of the ETSI specification, stated with
      shifts and field arithmetic only.
    - PDCP.  [PdcpRx], [PdcpLink]: the receiver reconstructs COUNT and delivers
      in order and at most once under loss, repetition and reordering.
      [PdcpContexts]: security contexts follow the keys stored last and are
      never used or freed twice.
    - SDAP.  [SdapSpec]: the list of entities is a finite map; packets are
      transferred with their QFI and RQI; flows go to the DRB configured last.
    - MAC PDUs.  [MacDlSpec]: the UE parses from the transport block of the
      gNB exactly the SDUs that the RLC handed over.  [MacRaSpec]: the same for
      the messages of random access, and a field that the UE does not apply.
      [MacUmLink] composes RLC, MAC, MAC and RLC for a DRB: PDCP of the UE
      gets the SDUs of PDCP of the gNB, all of them with enough blocks, or
      with SNs of 12 bits not all.
    - Uplink MAC.  [MacUlLcp]: the passes over the channels end and account
      for every byte, whatever the RLC answers.  [MacUlParse], [MacUlSpec]: the
      gNB parses what the UE builds into the same SDUs, and with room for the
      report it believes that at least the bytes left are waiting.
      [MacUlLimits]: a small grant, the bit rate 0 and the default
      configuration of an SRB break that, the service, or the program.
    - HARQ.  [MacList]: the array of links is a list.  [HarqDlSpec]: a
      process is in the list of its state and repeats one block.
      [DlRetxSpec]: blocks for a retransmission are found when there are any,
      and then not marked.
    - Slices.  [SlicesInv]: the table stays consistent.  [SliceUeSpec]: every
      byte waiting is assigned to one slice, and a UE with data gets a slice
      with data.  [TbsSpec]: the size grows with the blocks, and the search
      finds the least number of blocks.  [SliceBudget], [SliceAlloc]: budgets
      and allocation respect the ratios, and no block is given out twice.
    - E2.  [E2AgentSpec]: no sequence of messages makes the policies
      inconsistent.  [E2Schedule] composes the agent, the table and the
      scheduler: after any run of them the schedule is safe.

    ** Interfaces

    [PdcpCrypto] (what the PDCP entity calls) with [PdcpCryptoLaws] (what its
    theorems use) is implemented in [PdcpSecurity] from [Snow3g] and [Secu].
    [RlcData] (what the MAC calls to fetch an SDU) with [RlcDataLaws] is
    implemented in [MacUmLink] from [RlcApi]; [RlcStatus] is the call that
    asks for the bytes waiting.  [Openssl] with [OpensslLaws]
    stands for the OpenSSL calls, [Stack] for the bytes of uninitialised local
    arrays, [Json] for json-c.

    ** Fuel

    A loop whose end the data bounds is structural.  The others have a
    fuel, and the theorems that say [Ok] or give the result say that it is
    enough: [strip_factor] divides a 16-bit number by a factor of at least
    2, at most 16 times, with a fuel of 17; the search for the number of blocks
    halves an interval of 16-bit numbers; [find_rb_start] and [grow_rb_size]
    walk over the blocks of the bandwidth part, with its size as fuel; the
    parsers of MAC PDUs advance by at least a byte per subheader and have the
    length of the PDU; the loop of the MAC over a channel asks the RLC for
    smaller and smaller sizes and has the size of the block; the passes of
    the UE over its channels are fewer than 256 for blocks of at most 160000
    bytes and 16 channels of a priority, since each pass finds a channel empty
    or takes a 64th of the room, and have the fuel 300; the search for an
    index in a report has the size of the table; the loops of the
    AM entity over the SN space and over status reports have the window size
    and the length of the report; the generator of SNOW 3G runs once per word
    of the message.  Running out of fuel is the error [No_fuel], which [Ok]
    excludes.

    ** Not modelled

    - Locks and threads: every function of the slice table and of the RLC
      holds its lock from its first to its last access.  The manager of the
      UEs of PDCP (nr_pdcp_ue_manager.c, nr_pdcp_oai_api.c): queues between
      threads, sockets and ASN.1 configuration around the entities.
    - From the MAC: proportional-fair coefficients (floating point), beams,
      control channels, and the resources of the uplink; what the allocation of
      blocks takes from them is its input, and its theorems hold for all of
      it.
    - In the E2 agent: sockets, threads, the protobuf coding (the decoded
      message is the input) and failing allocations.
    - Coding over types that the build generates (RRC, F1AP, E1AP, NGAP, the
      E2 simulator), and the signal processing of the physical layer. *)
From stdpp Require Export base list gmap.
From Stdlib Require Export ZArith Lia.

#[export] Set Default Proof Using "Type".
Global Open Scope Z_scope.

(** ** Outcomes of C code

    [Ok] is a normal return.  The errors are the ways the C code leaves its
    defined behaviour or stops the process. *)
Inductive err :=
  | Exit            (** [exit(1)], [AssertFatal], [DevAssert] *)
  | Null_deref      (** a NULL pointer is dereferenced *)
  | Bad_ptr         (** a freed or unknown object is dereferenced *)
  | Out_of_bounds   (** an array or buffer access outside its object *)
  | Undefined       (** an operation C leaves undefined *)
  | No_fuel.        (** the loop did not end within the given fuel *)

Inductive res (A : Type) :=
  | Ok (a : A)
  | Err (e : err).
Arguments Ok {A} _.
Arguments Err {A} _.

Definition res_bind {A B} (m : res A) (k : A -> res B) : res B :=
  match m with Ok a => k a | Err e => Err e end.

Declare Scope c_scope.
Delimit Scope c_scope with c.
Notation "'let*' x ':=' m 'in' k" := (res_bind m (fun x => k))
  (at level 10, x name, m at level 100, k at level 200) : c_scope.
Notation "'let*' ' p ':=' m 'in' k" :=
  (res_bind m (fun x => match x with p => k end))
  (at level 10, p strict pattern, m at level 100, k at level 200) : c_scope.
Open Scope c_scope.

#[export] Instance err_eq_dec : EqDecision err.
Proof. intros x y. unfold Decision. decide equality. Defined.

Definition is_ok {A} (m : res A) : bool := match m with Ok _ => true | Err _ => false end.

(** an option read as a result with the given error for [None] *)
Definition of_option {A} (e : err) (o : option A) : res A :=
  match o with Some a => Ok a | None => Err e end.

Lemma res_bind_ok {A B} (m : res A) (k : A -> res B) b :
  res_bind m k = Ok b <-> exists a, m = Ok a /\ k a = Ok b.
Proof. destruct m; cbn; naive_solver. Qed.

(** ** C integers

    [int] values are kept in [Z]; signed overflow is undefined behaviour in
    C, so the model does not wrap them and the bounds theorems show the
    ranges.  Unsigned types wrap.  The operator [%] truncates: it is
    [Z.rem], written [a `rem` b]. *)
Definition u8 (x : Z) : Z := x mod 256.
Definition u16 (x : Z) : Z := x mod 65536.
Definition u32 (x : Z) : Z := x mod 4294967296.
Definition u64 (x : Z) : Z := x mod 18446744073709551616.
(** [(int)] of a wider integer *)
Definition i32 (x : Z) : Z := (x + 2147483648) mod 4294967296 - 2147483648.

(** the ranges of the conversions *)
Create HintDb c_ranges.
Lemma u8_range x : 0 <= u8 x < 256.
Proof. apply Z.mod_pos_bound. lia. Qed.
Lemma u16_range x : 0 <= u16 x < 65536.
Proof. apply Z.mod_pos_bound. lia. Qed.
Lemma u32_range x : 0 <= u32 x < 4294967296.
Proof. apply Z.mod_pos_bound. lia. Qed.
#[export] Hint Resolve u8_range u16_range u32_range : c_ranges.
Lemma i32_id x : -2147483648 <= x < 2147483648 -> i32 x = x.
Proof. intros. unfold i32. rewrite Z.mod_small; lia. Qed.

Lemma rem_small a b : 0 <= a < b -> a `rem` b = a.
Proof. intros. apply Z.rem_small. lia. Qed.
Lemma rem_mod a b : 0 <= a -> 0 < b -> a `rem` b = a mod b.
Proof. intros. apply Z.rem_mod_nonneg; lia. Qed.
Lemma rem_bound a b : 0 <= a -> 0 < b -> 0 <= a `rem` b < b.
Proof. intros. apply Z.rem_bound_pos; lia. Qed.

(** an index of a ring of [m] slots moved by less than a turn *)
Lemma mod_ring_succ a k m : 0 <= a < m -> 0 <= k < m ->
  (a + k) mod m = if a + k <? m then a + k else a + k - m.
Proof.
  intros. destruct (_ <? _) eqn:E; [apply Z.mod_small; lia|].
  rewrite <- (Z.mod_small (a + k - m) m) by lia.
  rewrite <- (Z_mod_plus_full (a + k - m) 1 m). f_equal. lia.
Qed.

(** a shift and a value below it, and a mask of low bits *)
Lemma lor_shiftl_add a b k : 0 <= k -> 0 <= b < 2 ^ k -> Z.lor (Z.shiftl a k) b = a * 2 ^ k + b.
Proof.
  intros Hk Hb. rewrite <- Z.add_lor_land, Z.shiftl_mul_pow2 by lia.
  assert (Z.land (a * 2 ^ k) b = 0) as ->; [|lia].
  rewrite <- Z.shiftl_mul_pow2 by lia. apply Z.bits_inj'. intros i Hi.
  rewrite Z.land_spec, Z.bits_0. destruct (Z.ltb_spec i k).
  - by rewrite Z.shiftl_spec_low.
  - rewrite <- (Z.mod_small b (2 ^ k)) by lia. rewrite Z.mod_pow2_bits_high by lia.
    apply andb_false_r.
Qed.

Lemma land_low a k : 0 <= k -> Z.land a (2 ^ k - 1) = a mod 2 ^ k.
Proof. intros. rewrite <- Z.land_ones by lia. f_equal. rewrite Z.ones_equiv. lia. Qed.

(** ** Record updates: [r <| field := v |>]

    A record type registers the eta expansion of its values in [Eta]; the
    update of a field replaces the projection in that expansion. *)
Class Eta (R : Type) := eta : R -> R.
Class Update {R T : Type} (proj : R -> T) := update : (T -> T) -> R -> R.
Arguments update {R T} proj {_} _ _ /.

Ltac solve_update :=
  lazymatch goal with
  | |- @Update ?R ?T ?proj =>
    let e := constr:(ltac:(let i := constr:(_ : Eta R) in exact i)) in
    let e := eval red in e in
    lazymatch eval pattern proj in e with
    | ?F _ =>
      let f := eval cbv beta in (fun (g : T -> T) (r : R) => F (fun x => g (proj x)) r) in
      exact f
    end
  end.
#[export] Hint Extern 1 (Update _) => solve_update : typeclass_instances.
Notation "r <| f := v |>" := (update f (fun _ => v) r)
  (at level 12, f at next level, left associativity) : c_scope.

(** ** Memory blocks as byte lists *)

(** [memcpy(out, src + off, len)]: the bytes read; [len] is converted to
    [size_t], so a negative one is out of bounds as well. *)
Definition mem_read (src : list Z) (off len : Z) : res (list Z) :=
  if (off <? 0) || (len <? 0) || (Z.of_nat (length src) <? off + len)
  then Err Out_of_bounds
  else Ok (take (Z.to_nat len) (drop (Z.to_nat off) src)).

(** [memcpy(dst + off, src, len)] with [len] the length of [src] *)
Definition mem_write (dst : list Z) (off : Z) (src : list Z) : res (list Z) :=
  if (off <? 0) || (Z.of_nat (length dst) <? off + Z.of_nat (length src))
  then Err Out_of_bounds
  else Ok (take (Z.to_nat off) dst ++ src
           ++ drop (Z.to_nat off + length src) dst).

Definition is_byte (b : Z) : Prop := 0 <= b < 256.

Lemma mem_read_ok src off len l :
  mem_read src off len = Ok l ->
  0 <= off /\ 0 <= len /\ off + len <= Z.of_nat (length src) /\
  l = take (Z.to_nat len) (drop (Z.to_nat off) src) /\ Z.of_nat (length l) = len.
Proof.
  unfold mem_read. intros H. case_match eqn:E; [done|]. simplify_eq.
  apply orb_false_elim in E as [[E1 E2]%orb_false_elim E3].
  rewrite length_take, length_drop. repeat split; lia.
Qed.

Lemma mem_read_total src off len :
  0 <= off -> 0 <= len -> off + len <= Z.of_nat (length src) ->
  mem_read src off len = Ok (take (Z.to_nat len) (drop (Z.to_nat off) src)).
Proof.
  intros. unfold mem_read.
  destruct (off <? 0) eqn:?, (len <? 0) eqn:?, (_ <? off + len) eqn:?; try lia; done.
Qed.

Lemma mem_read_mid (a b c : list Z) off len :
  off = Z.of_nat (length a) -> len = Z.of_nat (length b) -> mem_read (a ++ b ++ c) off len = Ok b.
Proof.
  intros -> ->. rewrite mem_read_total by (rewrite ?length_app; lia).
  by rewrite !Nat2Z.id, drop_app_length, take_app_length.
Qed.

Lemma mem_write_total dst off src :
  0 <= off -> off + Z.of_nat (length src) <= Z.of_nat (length dst) ->
  mem_write dst off src =
    Ok (take (Z.to_nat off) dst ++ src ++ drop (Z.to_nat off + length src) dst).
Proof.
  intros. unfold mem_write.
  destruct (off <? 0) eqn:?, (_ <? off + _) eqn:?; try lia; done.
Qed.

Lemma mem_write_length dst off src l :
  mem_write dst off src = Ok l -> length l = length dst.
Proof.
  unfold mem_write. intros H. case_match eqn:E; [done|]. simplify_eq.
  apply orb_false_elim in E as [E1 E2]. rewrite !length_app, length_take, length_drop. lia.
Qed.

(** ** Arrays and loops *)

(** reading and writing an array element *)
Definition arr_get {A} (l : list A) (i : nat) : res A := of_option Out_of_bounds (l !! i).
Definition arr_set {A} (l : list A) (i : nat) (x : A) : res (list A) :=
  if Nat.ltb i (length l) then Ok (<[i := x]> l) else Err Out_of_bounds.

(** a loop that stops at the first error *)
Fixpoint fold_res {A B} (f : A -> B -> res A) (l : list B) (a : A) : res A :=
  match l with
  | [] => Ok a
  | x :: l => let* a := f a x in fold_res f l a
  end.

Lemma fold_res_app {A B} (f : A -> B -> res A) l l' a :
  fold_res f (l ++ l') a = let* a := fold_res f l a in fold_res f l' a.
Proof. revert a. induction l as [|x l IH]; intros a; [done|]. cbn. destruct (f a x); cbn; auto. Qed.

Lemma arr_get_ok {A} (l : list A) i x : l !! i = Some x -> arr_get l i = Ok x.
Proof. unfold arr_get. by intros ->. Qed.
Lemma arr_set_ok {A} (l : list A) i x : (i < length l)%nat -> arr_set l i x = Ok (<[i := x]> l).
Proof. unfold arr_set. intros ?%Nat.ltb_lt. by case_match. Qed.
Lemma arr_get_lt {A} (l : list A) i : (i < length l)%nat -> exists x, l !! i = Some x /\ arr_get l i = Ok x.
Proof. intros [x Hx]%lookup_lt_is_Some. exists x. split; [done|by apply arr_get_ok]. Qed.

(** ** Automation *)

(** case analysis on the matches of the goal and the hypotheses *)
Ltac case_all :=
  repeat (case_match; simplify_eq/=; try done).

(** split a chain of [let*] known to return [Ok] *)
Ltac res_inv :=
  repeat match goal with
  | H : res_bind ?m _ = Ok _ |- _ =>
    let E := fresh "E" in
    destruct m eqn:E; cbn [res_bind] in H; [|discriminate H]
  | H : Ok _ = Ok _ |- _ => injection H as H; try subst
  | H : Err _ = Ok _ |- _ => discriminate H
  end.

(** name the arguments of a call by convertible terms *)
Ltac as_call1 f a :=
  lazymatch goal with |- context [f ?x] => change (f x) with (f a) end.
Ltac as_call2 f a b :=
  lazymatch goal with |- context [f ?x ?y] => change (f x y) with (f a b) end.
Ltac as_call3 f a b c :=
  lazymatch goal with |- context [f ?x ?y ?z] => change (f x y z) with (f a b c) end.
