(* ===== verification/RlcPdu.v ===== *)
(** * RLC PDUs: the received PDU list and the bit codec

    Models [openair2/LAYER2/nr_rlc/nr_rlc_pdu.c] and [nr_rlc_pdu.h].  A
    buffer and its size are one list of bytes ([Z] in 0..255). *)
From S2P Require Export Prelude.

(** ** RX PDU management *)

Record nr_rlc_pdu_t := Mk_pdu {
  p_sn : Z;
  p_data : option (list Z);   (** [None] is the NULL left after delivery *)
  p_size : Z;
  p_so : Z;
  p_is_first : bool;
  p_is_last : bool
}.
#[export] Instance eta_pdu : Eta nr_rlc_pdu_t := fun p =>
  Mk_pdu (p_sn p) (p_data p) (p_size p) (p_so p) (p_is_first p) (p_is_last p).

Definition nr_rlc_new_pdu (sn so : Z) (is_first is_last : bool) (data : list Z)
  : nr_rlc_pdu_t :=
  Mk_pdu sn (Some data) (Z.of_nat (length data)) so is_first is_last.

(** insertion by [sn] (compared with [sn_compare]), then by [so] *)
Fixpoint nr_rlc_pdu_list_add (sn_compare : Z -> Z -> Z)
    (l : list nr_rlc_pdu_t) (pdu : nr_rlc_pdu_t) : list nr_rlc_pdu_t :=
  match l with
  | [] => [pdu]
  | cur :: next =>
    if (0 <? sn_compare (p_sn cur) (p_sn pdu))
       || ((p_sn cur =? p_sn pdu) && (p_so pdu <? p_so cur))
    then pdu :: cur :: next
    else cur :: nr_rlc_pdu_list_add sn_compare next pdu
  end.

(** ** PDU decoder *)

Record nr_rlc_pdu_decoder_t := Mk_decoder {
  d_error : Z;
  d_byte : Z;
  d_bit : Z;
  d_buffer : list Z;
  d_size : Z
}.
#[export] Instance eta_decoder : Eta nr_rlc_pdu_decoder_t := fun d =>
  Mk_decoder (d_error d) (d_byte d) (d_bit d) (d_buffer d) (d_size d).

Definition nr_rlc_pdu_decoder_init (buffer : list Z) : nr_rlc_pdu_decoder_t :=
  Mk_decoder 0 0 0 buffer (Z.of_nat (length buffer)).

Definition nr_rlc_pdu_decoder_in_error (d : nr_rlc_pdu_decoder_t) : bool :=
  d_error d =? 1.

(** The read is below [size], which is the length of the buffer.  The C
    type is a signed [char]; shifting it by at most 7 and keeping one bit
    gives the same bit of the unsigned byte. *)
Definition get_bit (d : nr_rlc_pdu_decoder_t) : Z * nr_rlc_pdu_decoder_t :=
  if d_size d <=? d_byte d then (0, d <| d_error := 1 |>)
  else
    let b := nth (Z.to_nat (d_byte d)) (d_buffer d) 0 in
    let ret := Z.land (Z.shiftr b (7 - d_bit d)) 1 in
    let d := d <| d_bit := d_bit d + 1 |> in
    (ret, if d_bit d =? 8 then d <| d_bit := 0 |> <| d_byte := d_byte d + 1 |> else d).

Fixpoint get_bits_loop (count : nat) (ret : Z) (d : nr_rlc_pdu_decoder_t)
  : Z * nr_rlc_pdu_decoder_t :=
  match count with
  | O => (ret, d)
  | S n =>
    let '(b, d) := get_bit d in
    let ret := Z.lor (Z.shiftl ret 1) b in
    if nr_rlc_pdu_decoder_in_error d then (-1, d) else get_bits_loop n ret d
  end.

(** every call of the code has a [count] of at most 18, so the fatal exit
    for [count > 31] is not reached and the counter is a [nat] *)
Definition nr_rlc_pdu_decoder_get_bits (d : nr_rlc_pdu_decoder_t) (count : nat)
  : Z * nr_rlc_pdu_decoder_t :=
  get_bits_loop count 0 d.

(** [get_bits] followed by the macro [R(decoder)]: [None] is [goto err] *)
Definition get_bits_R (d : nr_rlc_pdu_decoder_t) (count : nat)
  : option (Z * nr_rlc_pdu_decoder_t) :=
  let '(x, d) := nr_rlc_pdu_decoder_get_bits d count in
  if nr_rlc_pdu_decoder_in_error d then None else Some (x, d).

(** ** PDU encoder *)

Record nr_rlc_pdu_encoder_t := Mk_encoder {
  e_byte : Z;
  e_bit : Z;
  e_buffer : list Z;
  e_size : Z
}.
#[export] Instance eta_encoder : Eta nr_rlc_pdu_encoder_t := fun e =>
  Mk_encoder (e_byte e) (e_bit e) (e_buffer e) (e_size e).

Definition nr_rlc_pdu_encoder_init (buffer : list Z) : nr_rlc_pdu_encoder_t :=
  Mk_encoder 0 0 buffer (Z.of_nat (length buffer)).

Definition put_bit (e : nr_rlc_pdu_encoder_t) (bit : Z) : res nr_rlc_pdu_encoder_t :=
  if e_byte e =? e_size e then Err Exit
  else
    let b := nth (Z.to_nat (e_byte e)) (e_buffer e) 0 in
    let b := u8 (Z.shiftl b 1) in
    let b := if bit =? 0 then b else Z.lor b 1 in
    let e := e <| e_buffer := <[Z.to_nat (e_byte e) := b]> (e_buffer e) |>
               <| e_bit := e_bit e + 1 |> in
    Ok (if e_bit e =? 8 then e <| e_bit := 0 |> <| e_byte := e_byte e + 1 |> else e).

(** [x] is the mask of the current bit *)
Fixpoint put_bits_loop (e : nr_rlc_pdu_encoder_t) (value x : Z) (count : nat)
  : res nr_rlc_pdu_encoder_t :=
  match count with
  | O => Ok e
  | S n =>
    let* e := put_bit e (Z.land value x) in
    put_bits_loop e value (Z.shiftr x 1) n
  end.

Definition nr_rlc_pdu_encoder_put_bits (e : nr_rlc_pdu_encoder_t) (value : Z) (count : nat)
  : res nr_rlc_pdu_encoder_t :=
  if Nat.ltb 31 count then Err Exit
  else put_bits_loop e value (Z.shiftl 1 (Z.of_nat count - 1)) count.

(** ** Theory of the codec

    [bit_at l i] is the [i]-th bit of the buffer, most significant first;
    [bits_val l i n] is the number coded by the [n] bits from position [i]. *)
Definition bit_at (l : list Z) (i : Z) : bool :=
  Z.testbit (nth (Z.to_nat (i / 8)) l 0) (7 - i mod 8).

Fixpoint bits_val_from (acc : Z) (l : list Z) (i : Z) (n : nat) : Z :=
  match n with
  | O => acc
  | S m => bits_val_from (2 * acc + Z.b2z (bit_at l i)) l (i + 1) m
  end.
Definition bits_val := bits_val_from 0.

(** the decoder that has read the first [i] bits *)
Definition dec_pos (l : list Z) (i : Z) : nr_rlc_pdu_decoder_t :=
  Mk_decoder 0 (i / 8) (i mod 8) l (Z.of_nat (length l)).

Lemma land_1_testbit b k : 0 <= k -> Z.land (Z.shiftr b k) 1 = Z.b2z (Z.testbit b k).
Proof.
  intros Hk. change 1 with (Z.ones 1) at 1. rewrite Z.land_ones by lia.
  rewrite Z.shiftr_div_pow2 by lia. rewrite Z.testbit_spec' by lia. done.
Qed.

Lemma lor_shift_b2z a c : Z.lor (Z.shiftl a 1) (Z.b2z c) = 2 * a + Z.b2z c.
Proof.
  rewrite Z.shiftl_mul_pow2 by lia. change (2 ^ 1) with 2.
  rewrite (Z.mul_comm a 2). rewrite <- Z.add_lor_land.
  assert (Z.land (2 * a) (Z.b2z c) = 0) as ->; [|lia].
  apply Z.bits_inj'. intros n Hn. rewrite Z.land_spec, Z.bits_0.
  destruct (decide (n = 0)) as [->|].
  - rewrite Z.testbit_even_0. done.
  - replace (Z.testbit (Z.b2z c) n) with false; [apply andb_false_r|].
    symmetry. destruct c; [|apply Z.bits_0].
    change (Z.b2z true) with (2 ^ 0). apply Z.pow2_bits_false. lia.
Qed.

Lemma div8_succ i : 0 <= i ->
  ((i + 1) / 8, (i + 1) mod 8) =
  if i mod 8 + 1 =? 8 then (i / 8 + 1, 0) else (i / 8, i mod 8 + 1).
Proof.
  intros. destruct (i mod 8 + 1 =? 8) eqn:E; f_equal;
    Z.div_mod_to_equations; lia.
Qed.

Lemma get_bit_spec l i :
  0 <= i < 8 * Z.of_nat (length l) ->
  get_bit (dec_pos l i) = (Z.b2z (bit_at l i), dec_pos l (i + 1)).
Proof.
  intros Hi. unfold get_bit, dec_pos; cbn.
  destruct (_ <=? _) eqn:E; [Z.div_mod_to_equations; lia|].
  pose proof (Z.mod_pos_bound i 8). rewrite land_1_testbit by lia.
  f_equal. pose proof (div8_succ i ltac:(lia)) as D.
  destruct (i mod 8 + 1 =? 8); injection D as -> ->; done.
Qed.

Lemma get_bit_end l i :
  8 * Z.of_nat (length l) <= i ->
  get_bit (dec_pos l i) = (0, dec_pos l i <| d_error := 1 |>).
Proof.
  intros Hi. unfold get_bit, dec_pos; cbn.
  destruct (_ <=? _) eqn:E; [done|]. Z.div_mod_to_equations; lia.
Qed.

Lemma get_bits_loop_spec l n : forall i acc,
  0 <= i -> i + Z.of_nat n <= 8 * Z.of_nat (length l) ->
  get_bits_loop n acc (dec_pos l i) =
    (bits_val_from acc l i n, dec_pos l (i + Z.of_nat n)).
Proof.
  induction n as [|n IH]; intros i acc Hi Hn.
  - cbn. rewrite Z.add_0_r. done.
  - cbn [get_bits_loop]. rewrite get_bit_spec by lia. cbn -[Z.mul Z.of_nat].
    rewrite lor_shift_b2z, IH by lia. do 2 f_equal; lia.
Qed.

(** reading [n] bits inside the buffer gives their value and advances *)
Lemma get_bits_spec l i n :
  0 <= i -> i + Z.of_nat n <= 8 * Z.of_nat (length l) ->
  nr_rlc_pdu_decoder_get_bits (dec_pos l i) n =
    (bits_val l i n, dec_pos l (i + Z.of_nat n)).
Proof. apply get_bits_loop_spec. Qed.

Lemma get_bits_R_spec l i n :
  0 <= i -> i + Z.of_nat n <= 8 * Z.of_nat (length l) ->
  get_bits_R (dec_pos l i) n = Some (bits_val l i n, dec_pos l (i + Z.of_nat n)).
Proof. intros. unfold get_bits_R. rewrite get_bits_spec by done. done. Qed.

Lemma get_bits_loop_end l n : forall i acc,
  0 <= i <= 8 * Z.of_nat (length l) -> 8 * Z.of_nat (length l) < i + Z.of_nat n ->
  nr_rlc_pdu_decoder_in_error (get_bits_loop n acc (dec_pos l i)).2 = true.
Proof.
  induction n as [|n IH]; intros i acc Hi Hn; [lia|].
  cbn [get_bits_loop]. destruct (decide (i = 8 * Z.of_nat (length l))) as [->|].
  - rewrite get_bit_end by lia. done.
  - rewrite get_bit_spec by lia. cbn -[Z.mul Z.of_nat].
    apply IH; lia.
Qed.

(** reading past the end puts the decoder in error *)
Lemma get_bits_R_end l i n :
  0 <= i <= 8 * Z.of_nat (length l) -> 8 * Z.of_nat (length l) < i + Z.of_nat n ->
  get_bits_R (dec_pos l i) n = None.
Proof.
  intros. unfold get_bits_R, nr_rlc_pdu_decoder_get_bits.
  pose proof (get_bits_loop_end l n i 0 H H0) as E.
  destruct (get_bits_loop _ _ _) as [x d]. cbn in E. rewrite E. done.
Qed.

Lemma decoder_init_pos l : nr_rlc_pdu_decoder_init l = dec_pos l 0.
Proof. done. Qed.

Lemma bits_val_from_bound l n : forall i acc,
  0 <= acc -> acc * 2 ^ Z.of_nat n <= bits_val_from acc l i n
              < (acc + 1) * 2 ^ Z.of_nat n.
Proof.
  induction n as [|n IH]; intros i acc Ha; cbn [bits_val_from].
  - change (2 ^ Z.of_nat 0) with 1. lia.
  - specialize (IH (i + 1) (2 * acc + Z.b2z (bit_at l i))).
    rewrite Nat2Z.inj_succ, Z.pow_succ_r by lia.
    destruct (bit_at l i); cbn [Z.b2z] in *; nia.
Qed.

Lemma bits_val_bound l i n : 0 <= bits_val l i n < 2 ^ Z.of_nat n.
Proof. pose proof (bits_val_from_bound l n i 0). unfold bits_val. lia. Qed.

(** the value read is the number whose binary digits are in the buffer *)
Lemma bits_val_from_eq l v n : forall i acc,
  0 <= v < 2 ^ Z.of_nat n ->
  (forall k, 0 <= k < Z.of_nat n -> bit_at l (i + k) = Z.testbit v (Z.of_nat n - 1 - k)) ->
  bits_val_from acc l i n = acc * 2 ^ Z.of_nat n + v.
Proof.
  revert v. induction n as [|n IH]; intros v i acc Hv Hk; cbn [bits_val_from].
  - change (2 ^ Z.of_nat 0) with 1 in *. lia.
  - rewrite Nat2Z.inj_succ in *.
    rewrite Z.pow_succ_r in Hv by lia. rewrite Z.pow_succ_r by lia.
    assert (0 < 2 ^ Z.of_nat n) by (apply Z.pow_pos_nonneg; lia).
    rewrite (IH (v mod 2 ^ Z.of_nat n)).
    + specialize (Hk 0 ltac:(lia)). rewrite Z.add_0_r in Hk. rewrite Hk.
      replace (Z.succ (Z.of_nat n) - 1 - 0) with (Z.of_nat n) by lia.
      rewrite Z.testbit_spec' by lia.
      rewrite (Z.mod_small (v / _) 2).
      * pose proof (Z.div_mod v (2 ^ Z.of_nat n)). lia.
      * split; [apply Z.div_pos; lia|]. apply Z.div_lt_upper_bound; lia.
    + apply Z.mod_pos_bound; lia.
    + intros k Hk'. specialize (Hk (k + 1) ltac:(lia)).
      replace (i + 1 + k) with (i + (k + 1)) by lia. rewrite Hk.
      rewrite Z.mod_pow2_bits_low by lia. f_equal. lia.
Qed.

Lemma bits_val_eq l i n v :
  0 <= v < 2 ^ Z.of_nat n ->
  (forall k, 0 <= k < Z.of_nat n -> bit_at l (i + k) = Z.testbit v (Z.of_nat n - 1 - k)) ->
  bits_val l i n = v.
Proof. intros. unfold bits_val. rewrite (bits_val_from_eq l v); [lia|done|done]. Qed.

(** [enc_rep ws e]: the encoder has written exactly the bits [ws]; in the
    byte under construction the bits are the low ones, in order. *)
Record enc_rep (ws : list bool) (e : nr_rlc_pdu_encoder_t) : Prop := {
  enc_size : e_size e = Z.of_nat (length (e_buffer e));
  enc_byte : e_byte e = Z.of_nat (length ws) / 8;
  enc_bit : e_bit e = Z.of_nat (length ws) mod 8;
  enc_bits : forall i, 0 <= i < Z.of_nat (length ws) ->
    nth (Z.to_nat i) ws false =
    if i / 8 <? e_byte e then bit_at (e_buffer e) i
    else Z.testbit (nth (Z.to_nat (e_byte e)) (e_buffer e) 0) (e_bit e - 1 - i mod 8)
}.

Fixpoint Z_to_bits (v : Z) (n : nat) : list bool :=
  match n with O => [] | S m => Z.testbit v (Z.of_nat m) :: Z_to_bits v m end.

Lemma length_Z_to_bits v n : length (Z_to_bits v n) = n.
Proof. induction n; cbn; auto. Qed.

Lemma nth_Z_to_bits v n k :
  0 <= k < Z.of_nat n ->
  nth (Z.to_nat k) (Z_to_bits v n) false = Z.testbit v (Z.of_nat n - 1 - k).
Proof.
  revert k. induction n as [|n IH]; intros k Hk; [lia|]. cbn [Z_to_bits].
  destruct (decide (k = 0)) as [->|].
  - cbn -[Z.of_nat]. f_equal. lia.
  - replace (Z.to_nat k) with (S (Z.to_nat (k - 1))) by lia. cbn [nth].
    rewrite IH by lia. f_equal. lia.
Qed.

Lemma enc_rep_init buffer : enc_rep [] (nr_rlc_pdu_encoder_init buffer).
Proof. split; try done. cbn. lia. Qed.

Lemma shift_in_testbit b c j : 0 <= j < 8 ->
  Z.testbit (if c : bool then Z.lor (u8 (Z.shiftl b 1)) 1 else u8 (Z.shiftl b 1)) j =
  if j =? 0 then c else Z.testbit b (j - 1).
Proof.
  intros Hj. assert (Z.testbit (u8 (Z.shiftl b 1)) j =
                     if j =? 0 then false else Z.testbit b (j - 1)) as E.
  { unfold u8. change 256 with (2 ^ 8). rewrite Z.mod_pow2_bits_low by lia.
    rewrite Z.shiftl_spec by lia. destruct (j =? 0) eqn:Ej.
    { apply Z.testbit_neg_r. lia. }
    done. }
  destruct c; [|done]. rewrite Z.lor_spec, E. destruct (j =? 0) eqn:Ej.
  - assert (j = 0) as -> by lia. done.
  - assert (Z.testbit 1 j = false) as ->.
    { change 1 with (2 ^ 0). apply Z.pow2_bits_false. lia. }
    apply orb_false_r.
Qed.

Lemma nth_insert_eq (l : list Z) i x d : (i < length l)%nat -> nth i (<[i := x]> l) d = x.
Proof. revert i. induction l; intros [|i] H; cbn in *; try lia; auto with lia. Qed.
Lemma nth_insert_ne (l : list Z) i j x d : i <> j -> nth i (<[j := x]> l) d = nth i l d.
Proof. revert i j. induction l; intros [|i] [|j] H; cbn in *; try done; auto with lia. Qed.

Lemma nth_snoc {A} (l : list A) x d i : 0 <= i <= Z.of_nat (length l) ->
  nth (Z.to_nat i) (l ++ [x]) d =
  if i =? Z.of_nat (length l) then x else nth (Z.to_nat i) l d.
Proof.
  intros. destruct (i =? _) eqn:E.
  - rewrite app_nth2 by lia. replace (_ - _)%nat with O by lia. done.
  - rewrite app_nth1 by lia. done.
Qed.

(** shifting one bit in, seen through the fields of the encoder *)
Lemma put_bit_rep ws e v :
  enc_rep ws e -> Z.of_nat (length ws) < 8 * e_size e ->
  exists e', put_bit e v = Ok e' /\ enc_rep (ws ++ [negb (v =? 0)]) e' /\
             e_size e' = e_size e.
Proof.
  intros [Hs Hby Hbi Hb] Hlt. unfold put_bit.
  set (n := Z.of_nat (length ws)) in *.
  assert (0 <= n) by lia. pose proof (Z.mod_pos_bound n 8 ltac:(lia)).
  assert (0 <= e_byte e < e_size e) by (rewrite Hby; Z.div_mod_to_equations; lia).
  destruct (_ =? _) eqn:E; [lia|].
  set (b := nth _ _ _) in *.
  set (b' := if v =? 0 then _ else _).
  assert (forall j, 0 <= j < 8 -> Z.testbit b' j =
            if j =? 0 then negb (v =? 0) else Z.testbit b (j - 1)) as Hb'.
  { intros j Hj. rewrite <- (shift_in_testbit b (negb (v =? 0)) j Hj).
    unfold b'. destruct (v =? 0); done. }
  clearbody b'. eexists. split; [reflexivity|].
  pose proof (div8_succ n ltac:(lia)) as D. cbn [e_bit] in *. cbn.
  rewrite Hbi in *.
  assert (forall i, 0 <= i <= n ->
    nth (Z.to_nat i) (ws ++ [negb (v =? 0)]) false =
    if i / 8 <? e_byte e then bit_at (e_buffer e) i
    else Z.testbit b' (n mod 8 - i mod 8)) as Hnew.
  { intros i Hi. rewrite nth_snoc by lia. fold n.
    destruct (i =? n) eqn:Ei.
    - assert (i = n) as -> by lia. rewrite Hby, Z.ltb_irrefl, Z.sub_diag.
      rewrite Hb' by lia. done.
    - rewrite Hb by lia. destruct (i / 8 <? e_byte e) eqn:El; [done|].
      assert (0 < n mod 8 - i mod 8 < 8) by (rewrite Hby in El; Z.div_mod_to_equations; lia).
      rewrite Hb' by lia. destruct (n mod 8 - i mod 8 =? 0) eqn:?; [lia|]. unfold b. f_equal. lia. }
  assert (forall i, 0 <= i -> i / 8 < e_byte e ->
    bit_at (<[Z.to_nat (e_byte e):=b']> (e_buffer e)) i = bit_at (e_buffer e) i) as Hfr.
  { intros i Hi Hl. unfold bit_at. rewrite nth_insert_ne; [done|].
    assert (0 <= i / 8) by (apply Z.div_pos; lia). lia. }
  destruct (n mod 8 + 1 =? 8) eqn:E8; injection D as D1 D2.
  all: split; [split|done]; cbn; rewrite ?length_insert, ?length_app; cbn [length]; try done.
  all: rewrite ?Nat2Z.inj_add; change (Z.of_nat 1) with 1; fold n; try lia.
  - intros i Hi. rewrite Hnew by lia.
    assert (i / 8 <= e_byte e) by (rewrite Hby; Z.div_mod_to_equations; lia).
    destruct (i / 8 <? e_byte e) eqn:El.
    + destruct (i / 8 <? e_byte e + 1) eqn:?; [|lia]. by rewrite Hfr by lia.
    + destruct (_ <? e_byte e + 1) eqn:?; [|lia]. unfold bit_at.
      replace (i / 8) with (e_byte e) by lia. rewrite nth_insert_eq by lia. f_equal. lia.
  - intros i Hi. rewrite Hnew by lia.
    destruct (i / 8 <? e_byte e) eqn:El.
    + rewrite Hfr by lia. done.
    + rewrite nth_insert_eq by lia. f_equal. lia.
Qed.

Lemma land_pow2_eqb v m : 0 <= m ->
  negb (Z.land v (2 ^ m) =? 0) = Z.testbit v m.
Proof.
  intros. assert (Z.land v (2 ^ m) = if Z.testbit v m then 2 ^ m else 0) as ->.
  { apply Z.bits_inj'. intros n Hn. rewrite Z.land_spec, Z.pow2_bits_eqb by lia.
    destruct (m =? n) eqn:E.
    - assert (m = n) as -> by lia. rewrite andb_true_r. destruct (Z.testbit v n) eqn:T.
      + symmetry. apply Z.pow2_bits_true. lia.
      + by rewrite Z.bits_0.
    - rewrite andb_false_r. destruct (Z.testbit v m).
      + symmetry. apply Z.pow2_bits_false. lia.
      + by rewrite Z.bits_0. }
  assert (0 < 2 ^ m) by (apply Z.pow_pos_nonneg; lia).
  destruct (Z.testbit v m); [|done].
  destruct (2 ^ m =? 0) eqn:E; [lia|done].
Qed.

Lemma put_bits_loop_rep v n : forall ws e,
  enc_rep ws e -> Z.of_nat (length ws) + Z.of_nat n <= 8 * e_size e ->
  exists e', put_bits_loop e v (Z.shiftl 1 (Z.of_nat n - 1)) n = Ok e' /\
             enc_rep (ws ++ Z_to_bits v n) e' /\ e_size e' = e_size e.
Proof.
  induction n as [|n IH]; intros ws e He Hn.
  - exists e. cbn. rewrite app_nil_r. done.
  - cbn [put_bits_loop Z_to_bits].
    replace (Z.of_nat (S n) - 1) with (Z.of_nat n) by lia.
    destruct (put_bit_rep ws e (Z.land v (Z.shiftl 1 (Z.of_nat n))) He) as (e1 & -> & H1 & S1);
      [lia|]. cbn [res_bind].
    rewrite Z.shiftl_1_l, land_pow2_eqb in H1 by lia.
    rewrite Z.shiftr_shiftl_r by lia.
    replace (Z.shiftr 1 (1 - Z.of_nat n)) with (Z.shiftl 1 (Z.of_nat n - 1)).
    2: { rewrite <- Z.shiftl_opp_r. f_equal. lia. }
    destruct (IH (ws ++ [Z.testbit v (Z.of_nat n)]) e1) as (e2 & -> & H2 & S2); [done| |].
    { rewrite length_app. cbn. lia. }
    exists e2. rewrite <- app_assoc in H2. cbn in H2. split; [done|]. split; [done|lia].
Qed.

(** writing a field of at most 31 bits that fits appends its binary digits *)
Lemma put_bits_rep ws e v n :
  enc_rep ws e -> (n <= 31)%nat -> Z.of_nat (length ws) + Z.of_nat n <= 8 * e_size e ->
  exists e', nr_rlc_pdu_encoder_put_bits e v n = Ok e' /\
             enc_rep (ws ++ Z_to_bits v n) e' /\ e_size e' = e_size e.
Proof.
  intros He Hn Hl. unfold nr_rlc_pdu_encoder_put_bits.
  replace (Nat.ltb 31 n) with false by (symmetry; apply Nat.ltb_ge; lia).
  by apply put_bits_loop_rep.
Qed.

(** [reads buf ws]: the buffer starts with the bits [ws] *)
Definition reads (buf : list Z) (ws : list bool) : Prop :=
  Z.of_nat (length ws) <= 8 * Z.of_nat (length buf) /\
  forall i, 0 <= i < Z.of_nat (length ws) -> bit_at buf i = nth (Z.to_nat i) ws false.

Lemma enc_rep_reads ws e :
  enc_rep ws e -> Z.of_nat (length ws) <= 8 * e_size e -> e_bit e = 0 ->
  reads (e_buffer e) ws.
Proof.
  intros [Hs Hby Hbi Hb] Hl H0. split; [lia|]. intros i Hi. rewrite Hb by lia.
  destruct (_ <? _) eqn:E; [done|]. rewrite Hby in E. rewrite Hbi in H0.
  Z.div_mod_to_equations; lia.
Qed.

(** the bits read do not depend on what follows the header *)
Lemma reads_prefix buf buf' ws k :
  reads buf ws -> Z.of_nat (length ws) = 8 * Z.of_nat k -> (k <= length buf)%nat ->
  take k buf' = take k buf -> (k <= length buf')%nat -> reads buf' ws.
Proof.
  intros [Hl Hr] Hk Hkl Ht Hl'. split; [lia|]. intros i Hi. rewrite <- Hr by done.
  unfold bit_at. assert (Z.to_nat (i / 8) < k)%nat by (Z.div_mod_to_equations; lia).
  rewrite <- (take_drop k buf), <- (take_drop k buf'), Ht.
  rewrite !app_nth1 by (rewrite length_take; lia). done.
Qed.

Lemma reads_field buf a v n b :
  reads buf (a ++ Z_to_bits v n ++ b) -> 0 <= v < 2 ^ Z.of_nat n ->
  bits_val buf (Z.of_nat (length a)) n = v.
Proof.
  intros [Hl Hr] Hv. rewrite !length_app, length_Z_to_bits in *.
  apply bits_val_eq; [done|]. intros k Hk. rewrite Hr by lia.
  rewrite app_nth2 by lia.
  replace (_ - _)%nat with (Z.to_nat k) by lia.
  rewrite app_nth1 by (rewrite length_Z_to_bits; lia). by apply nth_Z_to_bits.
Qed.

(** one step of decoding a header known to start with the bits of a list of
    fields: the field is read and the decoder moves behind it *)
Lemma get_bits_R_field buf a v n b :
  reads buf (a ++ Z_to_bits v n ++ b) -> 0 <= v < 2 ^ Z.of_nat n ->
  get_bits_R (dec_pos buf (Z.of_nat (length a))) n =
    Some (v, dec_pos buf (Z.of_nat (length a) + Z.of_nat n)).
Proof.
  intros Hr Hv. pose proof Hr as [Hl _].
  rewrite !length_app, length_Z_to_bits in Hl.
  rewrite get_bits_R_spec by lia. by rewrite (reads_field buf a v n b).
Qed.

(** ** Field lists *)

Definition field : Type := Z * nat.
Definition field_ok (f : field) : Prop := 0 <= f.1 < 2 ^ Z.of_nat f.2 /\ (f.2 <= 31)%nat.
Definition fields_bits (fs : list field) : list bool :=
  concat ((fun f => Z_to_bits f.1 f.2) <$> fs).

Fixpoint put_fields (e : nr_rlc_pdu_encoder_t) (fs : list field) : res nr_rlc_pdu_encoder_t :=
  match fs with
  | [] => Ok e
  | (v, n) :: fs => let* e := nr_rlc_pdu_encoder_put_bits e v n in put_fields e fs
  end.

Fixpoint get_fields (d : nr_rlc_pdu_decoder_t) (ns : list nat)
  : option (list Z * nr_rlc_pdu_decoder_t) :=
  match ns with
  | [] => Some ([], d)
  | n :: ns =>
    '(v, d) ← get_bits_R d n;
    '(vs, d) ← get_fields d ns;
    Some (v :: vs, d)
  end.

Lemma put_fields_rep fs : forall ws e,
  enc_rep ws e -> Forall (fun f => (f.2 <= 31)%nat) fs ->
  Z.of_nat (length ws) + Z.of_nat (length (fields_bits fs)) <= 8 * e_size e ->
  exists e', put_fields e fs = Ok e' /\ enc_rep (ws ++ fields_bits fs) e' /\
             e_size e' = e_size e.
Proof.
  induction fs as [|[v n] fs IH]; intros ws e He Hf Hl.
  - exists e. cbn. by rewrite app_nil_r.
  - inversion Hf as [|?? Hn Hf']; subst. cbn in Hn.
    unfold fields_bits in *. cbn in *. rewrite length_app, length_Z_to_bits in Hl.
    destruct (put_bits_rep ws e v n) as (e1 & -> & H1 & S1); [done|done|lia|]. cbn.
    destruct (IH _ e1 H1) as (e2 & -> & H2 & S2); [done| |].
    { rewrite length_app, length_Z_to_bits. lia. }
    exists e2. rewrite <- app_assoc in H2. split; [done|]. split; [done|lia].
Qed.

Lemma get_fields_reads buf fs : forall a b,
  reads buf (a ++ fields_bits fs ++ b) -> Forall field_ok fs ->
  get_fields (dec_pos buf (Z.of_nat (length a))) (snd <$> fs) =
    Some (fst <$> fs, dec_pos buf (Z.of_nat (length a + length (fields_bits fs)))).
Proof.
  induction fs as [|[v n] fs IH]; intros a b Hr Hf.
  - cbn. do 3 f_equal. lia.
  - inversion Hf as [|?? [Hv Hn] Hf']; subst. cbn in Hv, Hn.
    unfold fields_bits in *. cbn in *. rewrite <- app_assoc in Hr.
    rewrite (get_bits_R_field _ _ _ _ _ Hr) by done. cbn.
    specialize (IH (a ++ Z_to_bits v n) b). rewrite <- !app_assoc in IH.
    specialize (IH Hr Hf'). rewrite length_app, length_Z_to_bits, Nat2Z.inj_add in IH.
    rewrite IH. cbn. rewrite length_app, length_Z_to_bits. do 3 f_equal. lia.
Qed.

(** the bit codec is a round trip: fields of at most 31 bits, each value
    in its range, that fill a whole number of bytes and fit the buffer, are
    read back by the decoder in the same order, from a buffer that may
    have been overwritten behind the header. *)
Theorem rlc_codec_roundtrip fs buffer k tail :
  Forall field_ok fs ->
  length (fields_bits fs) = (8 * k)%nat -> (k <= length buffer)%nat ->
  exists e, put_fields (nr_rlc_pdu_encoder_init buffer) fs = Ok e /\
    e_byte e = Z.of_nat k /\ e_bit e = 0 /\ length (e_buffer e) = length buffer /\
    get_fields (nr_rlc_pdu_decoder_init (take k (e_buffer e) ++ tail)) (snd <$> fs) =
      Some (fst <$> fs, dec_pos (take k (e_buffer e) ++ tail) (8 * Z.of_nat k)).
Proof.
  intros Hf Hl Hk.
  destruct (put_fields_rep fs [] (nr_rlc_pdu_encoder_init buffer)) as (e & E & He & Hs).
  - apply enc_rep_init.
  - eapply Forall_impl; [apply Hf|]. intros ? [_ ?]. done.
  - cbn. lia.
  - cbn [app] in He. exists e. pose proof He as [H1 H2 H3 _].
    cbn in Hs. assert (e_bit e = 0) as H0.
    { rewrite H3, Hl, Nat2Z.inj_mul. change (Z.of_nat 8) with 8. Z.div_mod_to_equations; lia. }
    assert (length (e_buffer e) = length buffer) as Hb by lia.
    repeat split; [done| |done|done|].
    { rewrite H2, Hl, Nat2Z.inj_mul. change (Z.of_nat 8) with 8. Z.div_mod_to_equations; lia. }
    assert (reads (e_buffer e) (fields_bits fs)) as Hr by (apply enc_rep_reads; [done|lia|done]).
    assert (reads (take k (e_buffer e) ++ tail) (fields_bits fs)) as Hr'.
    { eapply (reads_prefix _ _ _ k); [done|lia|lia| |rewrite length_app, length_take; lia].
      rewrite take_app_le by (rewrite length_take; lia). by rewrite take_take, Nat.min_id. }
    pose proof (get_fields_reads _ fs [] [] ltac:(by rewrite app_nil_r) Hf) as G.
    cbn [length app] in G. rewrite decoder_init_pos. change (Z.of_nat 0) with 0 in G.
    rewrite G. do 3 f_equal. rewrite Hl. lia.
Qed.

(** a status PDU header with one NACK: 12-bit SN format *)
Lemma rlc_codec_roundtrip_witness :
  exists e, put_fields (nr_rlc_pdu_encoder_init [0;0;0;0;0;9])
      [(0,1%nat);(0,3%nat);(5,12%nat);(1,1%nat);(0,7%nat);(4,12%nat);(0,1%nat);(0,1%nat);(0,1%nat);(0,1%nat)] = Ok e /\
    e_byte e = Z.of_nat 5 /\ e_bit e = 0 /\ length (e_buffer e) = 6%nat /\
    get_fields (nr_rlc_pdu_decoder_init (take 5 (e_buffer e) ++ [7]))
      [1;3;12;1;7;12;1;1;1;1]%nat =
      Some ([0;0;5;1;0;4;0;0;0;0], dec_pos (take 5 (e_buffer e) ++ [7]) (8 * Z.of_nat 5)).
Proof.
  apply (rlc_codec_roundtrip
    [(0,1%nat);(0,3%nat);(5,12%nat);(1,1%nat);(0,7%nat);(4,12%nat);(0,1%nat);(0,1%nat);(0,1%nat);(0,1%nat)]
    [0;0;0;0;0;9] 5 [7]).
  - repeat constructor; cbn; lia.
  - reflexivity.
  - cbn; lia.
Defined.

(** ** A header followed by data, as the serialisers build a PDU *)
Lemma serialize_fields fs buf data k :
  Forall (fun f : field => (f.2 <= 31)%nat) fs ->
  length (fields_bits fs) = (8 * k)%nat -> (k + length data <= length buf)%nat ->
  exists enc buf' hdr,
    put_fields (nr_rlc_pdu_encoder_init buf) fs = Ok enc /\ e_byte enc = Z.of_nat k /\
    mem_write (e_buffer enc) (e_byte enc) data = Ok buf' /\ length buf' = length buf /\
    length hdr = k /\ take (k + length data) buf' = hdr ++ data /\
    reads (hdr ++ data) (fields_bits fs).
Proof.
  intros Hf Hl Hk.
  destruct (put_fields_rep fs [] (nr_rlc_pdu_encoder_init buf)) as (e & E & He & Hs).
  - apply enc_rep_init.
  - done.
  - cbn. lia.
  - cbn [app] in He. exists e. pose proof He as [H1 H2 H3 _].
    cbn in Hs. assert (e_bit e = 0) as H0.
    { rewrite H3, Hl, Nat2Z.inj_mul. change (Z.of_nat 8) with 8. Z.div_mod_to_equations; lia. }
    assert (length (e_buffer e) = length buf) as Hb by lia.
    assert (e_byte e = Z.of_nat k) as Hby.
    { rewrite H2, Hl, Nat2Z.inj_mul. change (Z.of_nat 8) with 8. Z.div_mod_to_equations; lia. }
    rewrite mem_write_total by lia. rewrite Hby, Nat2Z.id.
    eexists _, (take k (e_buffer e)). split; [done|]. split; [done|]. split; [done|].
    rewrite !length_app, length_take, length_drop. split; [lia|]. split; [lia|].
    split.
    + rewrite app_assoc, take_app_le by (rewrite length_app, length_take; lia).
      apply take_ge. rewrite length_app, length_take. lia.
    + eapply (reads_prefix (e_buffer e) _ _ k); [|lia|lia| |rewrite length_app, length_take; lia].
      * apply enc_rep_reads; [done|lia|done].
      * rewrite take_app_le by (rewrite length_take; lia). by rewrite take_take, Nat.min_id.
Qed.

(** reading a known header field by field *)
Lemma get_bits_R_next buf ws v n b i :
  reads buf (ws ++ Z_to_bits v n ++ b) -> 0 <= v < 2 ^ Z.of_nat n ->
  i = Z.of_nat (length ws) ->
  get_bits_R (dec_pos buf i) n =
    Some (v, dec_pos buf (Z.of_nat (length (ws ++ Z_to_bits v n)))) /\
  reads buf ((ws ++ Z_to_bits v n) ++ b).
Proof.
  intros Hr Hv ->. rewrite (get_bits_R_field _ _ _ _ _ Hr Hv).
  rewrite length_app, length_Z_to_bits, Nat2Z.inj_add. rewrite <- app_assoc. done.
Qed.

(** decode the next field of a buffer known to start with a list of fields *)
#[global] Arguments Z_to_bits : simpl never.
Ltac read_field Hr :=
  lazymatch type of Hr with
  | reads ?buf (?ws ++ Z_to_bits ?v ?n ++ ?b) =>
    let E := fresh "E" in let Hr' := fresh "Hr" in
    destruct (get_bits_R_next buf ws v n b (Z.of_nat (length ws)) Hr ltac:(done) eq_refl)
      as [E Hr'];
    lazymatch goal with |- context [get_bits_R (dec_pos buf ?i) n] =>
      change (get_bits_R (dec_pos buf i) n)
        with (get_bits_R (dec_pos buf (Z.of_nat (length ws))) n) end;
    rewrite E; clear E; cbn [mbind option_bind]; clear Hr; rename Hr' into Hr
  end.
(** two fields of one bit read as one of two bits *)
Ltac join_bits Hr :=
  lazymatch type of Hr with
  | reads ?buf (Z_to_bits ?x 1 ++ Z_to_bits ?y 1 ++ ?r) =>
    let si := eval cbv in (2 * x + y) in
    change (reads buf ([] ++ Z_to_bits si 2 ++ r)) in Hr
  | reads ?buf (?ws ++ Z_to_bits ?x 1 ++ Z_to_bits ?y 1 ++ ?r) =>
    let si := eval cbv in (2 * x + y) in
    change (reads buf (ws ++ Z_to_bits si 2 ++ r)) in Hr
  end.

Lemma get_bits_of_R l i n v j :
  get_bits_R (dec_pos l i) n = Some (v, dec_pos l j) ->
  nr_rlc_pdu_decoder_get_bits (dec_pos l i) n = (v, dec_pos l j).
Proof.
  unfold get_bits_R. destruct (nr_rlc_pdu_decoder_get_bits _ _) as [x d].
  case_match; [done|]. by intros [= -> ->].
Qed.
(** the same for a field read without a check behind it *)
Ltac read_field_unchecked Hr :=
  lazymatch type of Hr with
  | reads ?buf (?ws ++ Z_to_bits ?v ?n ++ ?b) =>
    let E := fresh "E" in let Hr' := fresh "Hr" in
    destruct (get_bits_R_next buf ws v n b (Z.of_nat (length ws)) Hr ltac:(done) eq_refl)
      as [E Hr'];
    apply get_bits_of_R in E;
    lazymatch goal with |- context [nr_rlc_pdu_decoder_get_bits (dec_pos buf ?i) n] =>
      change (nr_rlc_pdu_decoder_get_bits (dec_pos buf i) n)
        with (nr_rlc_pdu_decoder_get_bits (dec_pos buf (Z.of_nat (length ws))) n) end;
    rewrite E; clear E; clear Hr; rename Hr' into Hr
  end.
