(* ===== verification/RlcSdu.v ===== *)
(** * RLC SDUs and SDU segments

    Models [openair2/LAYER2/nr_rlc/nr_rlc_sdu.c] and [nr_rlc_sdu.h].  The
    segments of one SDU share its [nr_rlc_sdu_t]; the model keeps the SDUs
    in a heap indexed by address, so that a change of [sn], [retx_count] or
    [ref_count] through one segment is seen by the others, and a freed SDU
    is not in the heap any more.  A linked list of segments is a list; the
    address of a segment stands for the pointers to it ([tx_end],
    [wait_end]). *)
From S2P Require Export Prelude.

Record nr_rlc_sdu_t := Mk_sdu {
  sdu_sn : Z;
  sdu_upper_layer_id : Z;
  sdu_data : list Z;
  sdu_size : Z;
  sdu_retx_count : Z;
  sdu_ref_count : Z;
  sdu_free_count : Z;
  sdu_time_of_arrival : Z
}.
#[export] Instance eta_sdu : Eta nr_rlc_sdu_t := fun s =>
  Mk_sdu (sdu_sn s) (sdu_upper_layer_id s) (sdu_data s) (sdu_size s)
    (sdu_retx_count s) (sdu_ref_count s) (sdu_free_count s) (sdu_time_of_arrival s).

Record nr_rlc_sdu_segment_t := Mk_seg {
  s_addr : Z;      (** address of the segment itself *)
  s_sdu : Z;       (** pointer to the shared SDU *)
  s_size : Z;
  s_so : Z;
  s_is_first : bool;
  s_is_last : bool
}.
#[export] Instance eta_seg : Eta nr_rlc_sdu_segment_t := fun s =>
  Mk_seg (s_addr s) (s_sdu s) (s_size s) (s_so s) (s_is_first s) (s_is_last s).

(** the allocator: live SDUs and the next unused address *)
Record heap := Mk_heap { h_sdus : gmap Z nr_rlc_sdu_t; h_next : Z }.
#[export] Instance eta_heap : Eta heap := fun h => Mk_heap (h_sdus h) (h_next h).

(** [p->field] for an SDU pointer *)
Definition get_sdu (h : heap) (a : Z) : res nr_rlc_sdu_t :=
  of_option Bad_ptr (h_sdus h !! a).
Definition set_sdu (h : heap) (a : Z) (s : nr_rlc_sdu_t) : heap :=
  h <| h_sdus := <[a := s]> (h_sdus h) |>.

Definition nr_rlc_new_sdu (h : heap) (buffer : list Z) (upper_layer_id : Z)
  : heap * nr_rlc_sdu_segment_t :=
  let size := Z.of_nat (length buffer) in
  let a := h_next h in
  let sdu := Mk_sdu (-1) upper_layer_id buffer size (-1) 1 0 0 in
  (Mk_heap (<[a := sdu]> (h_sdus h)) (h_next h + 2),
   Mk_seg (a + 1) a size 0 true true).

(** the result tells whether the SDU has been freed too *)
Definition nr_rlc_free_sdu_segment (h : heap) (seg : nr_rlc_sdu_segment_t)
  : res (heap * bool) :=
  let* sdu := get_sdu h (s_sdu seg) in
  let sdu := sdu <| sdu_free_count := sdu_free_count sdu + 1 |> in
  if sdu_free_count sdu =? sdu_ref_count sdu
  then Ok (h <| h_sdus := delete (s_sdu seg) (h_sdus h) |>, true)
  else Ok (set_sdu h (s_sdu seg) sdu, false).

(** [( *end)->next = sdu]: the node pointed to by [end] is found in the list
    and what was linked behind it is dropped *)
Fixpoint link_after (a : Z) (l : list nr_rlc_sdu_segment_t) (seg : nr_rlc_sdu_segment_t)
  : res (list nr_rlc_sdu_segment_t) :=
  match l with
  | [] => Err Bad_ptr
  | x :: l' =>
    if s_addr x =? a then Ok [x; seg]
    else let* l' := link_after a l' seg in Ok (x :: l')
  end.

Definition nr_rlc_sdu_segment_list_append
    (l : list nr_rlc_sdu_segment_t) (tail : option Z) (seg : nr_rlc_sdu_segment_t)
  : res (list nr_rlc_sdu_segment_t * option Z) :=
  match l with
  | [] => Ok ([seg], Some (s_addr seg))
  | _ =>
    match tail with
    | None => Err Null_deref
    | Some a => let* l := link_after a l seg in Ok (l, Some (s_addr seg))
    end
  end.

Fixpoint nr_rlc_free_sdu_segment_list (h : heap) (l : list nr_rlc_sdu_segment_t) : res heap :=
  match l with
  | [] => Ok h
  | cur :: l =>
    let* '(h, _) := nr_rlc_free_sdu_segment h cur in
    nr_rlc_free_sdu_segment_list h l
  end.

(** the loop of the discard operations over the transmission list: what
    precedes the SDU with the given upper layer id, its segment, what follows *)
Fixpoint find_upper_id (h : heap) (l : list nr_rlc_sdu_segment_t) (sdu_id : Z)
  : res (option (list nr_rlc_sdu_segment_t * nr_rlc_sdu_segment_t * list nr_rlc_sdu_segment_t)) :=
  match l with
  | [] => Ok None
  | cur :: next =>
    let* s := get_sdu h (s_sdu cur) in
    if sdu_upper_layer_id s =? sdu_id then Ok (Some ([], cur, next))
    else
      let* r := find_upper_id h next sdu_id in
      Ok (match r with
          | None => None
          | Some (before, g, after) => Some (cur :: before, g, after)
          end)
  end.

(** ** Invariant of the heap

    [segs] are the segments owned by an entity, in any order.  Every
    segment points to a live SDU and lies inside it; every live SDU is
    referenced, and its counters give the number of its segments. *)
Definition refs (a : Z) (segs : list nr_rlc_sdu_segment_t) : Z :=
  Z.of_nat (length (filter (fun g => s_sdu g = a) segs)).

Definition seg_in_sdu (g : nr_rlc_sdu_segment_t) (s : nr_rlc_sdu_t) : Prop :=
  0 <= s_so g /\ 0 <= s_size g /\ s_so g + s_size g <= sdu_size s /\
  (s_is_first g = true -> s_so g = 0) /\
  (s_is_last g = true <-> s_so g + s_size g = sdu_size s).

Record heap_wf (segs : list nr_rlc_sdu_segment_t) (h : heap) : Prop := {
  hw_refs : forall a s, h_sdus h !! a = Some s ->
    sdu_ref_count s - sdu_free_count s = refs a segs /\ 0 < refs a segs /\
    0 <= sdu_free_count s /\ sdu_size s = Z.of_nat (length (sdu_data s)) /\
    sdu_size s <= 16000 /\ a < h_next h;
  hw_segs : forall g, g ∈ segs -> exists s, h_sdus h !! s_sdu g = Some s /\ seg_in_sdu g s;
  hw_addr : forall g, g ∈ segs -> s_addr g < h_next h;
  hw_nodup : NoDup (s_addr <$> segs)
}.

#[export] Instance refs_perm a : Proper (Permutation ==> eq) (refs a).
Proof. intros l1 l2 E. unfold refs. by rewrite E. Qed.

#[export] Instance heap_wf_perm : Proper (Permutation ==> eq ==> iff) heap_wf.
Proof.
  assert (forall l1 l2 h, l1 ≡ₚ l2 -> heap_wf l1 h -> heap_wf l2 h) as I.
  { intros l1 l2 h E [H1 H2 H3 H4]. split.
    - intros a s Hs. rewrite <- E. by apply H1.
    - intros g Hg. apply H2. by rewrite E.
    - intros g Hg. apply H3. by rewrite E.
    - by rewrite <- E. }
  intros l1 l2 E h ? <-. split; apply I; [done|by symmetry].
Qed.

Lemma refs_cons a g segs :
  refs a (g :: segs) = (if decide (s_sdu g = a) then 1 else 0) + refs a segs.
Proof. unfold refs. rewrite filter_cons. case_decide; cbn; lia. Qed.
Lemma refs_nonneg a segs : 0 <= refs a segs.
Proof. unfold refs. lia. Qed.
Lemma refs_elem a g segs : g ∈ segs -> s_sdu g = a -> 0 < refs a segs.
Proof.
  intros Hg Ha. unfold refs. destruct (filter _ _) eqn:E; cbn; [|lia].
  assert (g ∈ filter (fun g => s_sdu g = a) segs) as H by (by apply list_elem_of_filter).
  rewrite E in H. by apply not_elem_of_nil in H.
Qed.

Lemma refs_pos_elem a segs : 0 < refs a segs -> exists g, g ∈ segs /\ s_sdu g = a.
Proof.
  unfold refs. destruct (filter _ segs) as [|g l] eqn:E; cbn; [lia|]. intros _. exists g.
  assert (g ∈ filter (fun g => s_sdu g = a) segs) as H by (rewrite E; left).
  apply list_elem_of_filter in H. tauto.
Qed.

Lemma get_sdu_ok segs h g :
  heap_wf segs h -> g ∈ segs ->
  exists s, get_sdu h (s_sdu g) = Ok s /\ h_sdus h !! s_sdu g = Some s /\ seg_in_sdu g s.
Proof. intros W Hg. destruct (hw_segs _ _ W g Hg) as (s & E & I). exists s.
  unfold get_sdu. rewrite E. done. Qed.

Lemma new_sdu_wf segs h buffer id h' g :
  heap_wf segs h -> Z.of_nat (length buffer) <= 16000 ->
  nr_rlc_new_sdu h buffer id = (h', g) ->
  heap_wf (g :: segs) h' /\
  h_sdus h !! s_sdu g = None /\
  h_sdus h' = <[s_sdu g := Mk_sdu (-1) id buffer (Z.of_nat (length buffer)) (-1) 1 0 0]> (h_sdus h).
Proof.
  intros [H1 H2 H3 H4] Hlen. unfold nr_rlc_new_sdu. intros [= <- <-]. cbn.
  assert (h_sdus h !! h_next h = None) as Hf.
  { destruct (h_sdus h !! h_next h) eqn:E; [|done]. apply H1 in E. lia. }
  assert (forall g, g ∈ segs -> s_sdu g <> h_next h) as Hne.
  { intros g Hg E. destruct (H2 g Hg) as (s & Hs & _). congruence. }
  assert (refs (h_next h) segs = 0) as Hr.
  { pose proof (refs_nonneg (h_next h) segs).
    destruct (decide (refs (h_next h) segs = 0)); [done|].
    unfold refs in *. destruct (filter _ segs) as [|g l] eqn:E; [cbn in *; lia|].
    assert (g ∈ filter (fun g => s_sdu g = h_next h) segs) as Hg by (rewrite E; left).
    apply list_elem_of_filter in Hg as [? Hg]. by apply Hne in Hg. }
  split; [split; cbn|split; done].
  - intros a s Hs. rewrite refs_cons. cbn. destruct (decide (h_next h = a)) as [<-|Hn].
    + rewrite lookup_insert_eq in Hs. injection Hs as <-. cbn. rewrite Hr. lia.
    + rewrite lookup_insert_ne in Hs by done. apply H1 in Hs. lia.
  - intros g [->|Hg]%elem_of_cons; cbn.
    + rewrite lookup_insert_eq. eexists. split; [done|]. unfold seg_in_sdu; cbn; split_and!; lia.
    + destruct (H2 g Hg) as (s & Hs & I). exists s. split; [|done].
      rewrite lookup_insert_ne by (symmetry; by apply Hne). done.
  - intros g [->|Hg]%elem_of_cons; cbn; [lia|]. apply H3 in Hg. lia.
  - apply NoDup_cons. split; [|done]. intros Hg%list_elem_of_fmap.
    destruct Hg as (g & E & Hg). apply H3 in Hg. lia.
Qed.

(** freeing one segment: the SDU goes exactly when it was the last one *)
Lemma free_sdu_segment_wf g segs h :
  heap_wf (g :: segs) h ->
  exists h' b, nr_rlc_free_sdu_segment h g = Ok (h', b) /\ heap_wf segs h' /\
    (b = true <-> refs (s_sdu g) segs = 0) /\
    (if b then h_sdus h' = delete (s_sdu g) (h_sdus h)
     else exists s, h_sdus h !! s_sdu g = Some s /\
          h_sdus h' = <[s_sdu g := s <| sdu_free_count := sdu_free_count s + 1 |>]> (h_sdus h)).
Proof.
  intros W. destruct (get_sdu_ok _ _ g W ltac:(left)) as (s & Eg & Es & I).
  unfold nr_rlc_free_sdu_segment. rewrite Eg. cbn.
  destruct W as [H1 H2 H3 H4].
  pose proof (H1 _ _ Es) as (Hc & Hp & Hfc & Hd & Hm & Hn). rewrite refs_cons in Hc.
  destruct (decide (s_sdu g = s_sdu g)) as [_|]; [|done].
  pose proof (refs_nonneg (s_sdu g) segs) as Hnn.
  assert (NoDup (s_addr <$> segs)) as Hnd by (by apply NoDup_cons_1_2 in H4).
  assert (forall a s', h_sdus h !! a = Some s' -> s_sdu g <> a ->
     sdu_ref_count s' - sdu_free_count s' = refs a segs /\ 0 < refs a segs /\
    0 <= sdu_free_count s' /\ sdu_size s' = Z.of_nat (length (sdu_data s')) /\
    sdu_size s' <= 16000 /\ a < h_next h) as Ho.
  { intros a s' Hs' Hne. apply H1 in Hs'. rewrite refs_cons in Hs'.
    destruct (decide (s_sdu g = a)); [done|lia]. }
  destruct (_ =? _) eqn:E; eexists _, _; (split; [done|]).
  - assert (refs (s_sdu g) segs = 0) as Hz by lia.
    split; [|done]. split; cbn; [| | |done].
    + intros a s' [Hne Hs']%lookup_delete_Some. by apply Ho.
    + intros g' Hg'. destruct (H2 g') as (s' & Hs' & I'); [by right|].
      exists s'. split; [|done]. rewrite lookup_delete_ne; [done|].
      intros Eq. pose proof (refs_elem _ _ _ Hg' (eq_sym Eq)). lia.
    + intros g' Hg'. apply H3. by right.
  - assert (0 < refs (s_sdu g) segs) as Hz by lia.
    split; [|split; [lia|eauto]]. split; cbn; [| | |done].
    + intros a s' Hs'. destruct (decide (s_sdu g = a)) as [<-|Hne].
      * rewrite lookup_insert_eq in Hs'. injection Hs' as <-. cbn. lia.
      * rewrite lookup_insert_ne in Hs' by done. by apply Ho.
    + intros g' Hg'. destruct (H2 g') as (s' & Hs' & I'); [by right|].
      destruct (decide (s_sdu g = s_sdu g')) as [Eq|Hne].
      * rewrite Eq, lookup_insert_eq. eexists. split; [done|].
        assert (s' = s) as -> by congruence. done.
      * rewrite lookup_insert_ne by done. eauto.
    + intros g' Hg'. apply H3. by right.
Qed.

Lemma free_list_wf l : forall segs h,
  heap_wf (l ++ segs) h ->
  exists h', nr_rlc_free_sdu_segment_list h l = Ok h' /\ heap_wf segs h'.
Proof.
  induction l as [|g l IH]; intros segs h W; cbn.
  - eauto.
  - destruct (free_sdu_segment_wf g (l ++ segs) h W) as (h1 & b & -> & W1 & _). cbn. eauto.
Qed.

Lemma heap_wf_nil h : heap_wf [] h -> h_sdus h = ∅.
Proof.
  intros W. apply map_empty. intros a. destruct (h_sdus h !! a) as [s|] eqn:E; [|done].
  apply (hw_refs _ _ W) in E. unfold refs in E. cbn in E. lia.
Qed.

(** replacing the contents of a live SDU without touching its counters and
    size, as the assignments to [sn], [retx_count] and [time_of_arrival] do *)
Lemma set_sdu_wf segs h a s s' :
  heap_wf segs h -> h_sdus h !! a = Some s ->
  sdu_ref_count s' = sdu_ref_count s -> sdu_free_count s' = sdu_free_count s ->
  sdu_size s' = sdu_size s -> sdu_data s' = sdu_data s ->
  heap_wf segs (set_sdu h a s').
Proof.
  intros [H1 H2 H3 H4] Hs E1 E2 E3 E4. split; cbn; [| |done|done].
  - intros b t. destruct (decide (a = b)) as [<-|Hne].
    + rewrite lookup_insert_eq. intros [= <-]. apply H1 in Hs. rewrite E1, E2, E3, E4. done.
    + rewrite lookup_insert_ne by done. apply H1.
  - intros g Hg. destruct (H2 g Hg) as (t & Ht & I).
    destruct (decide (a = s_sdu g)) as [->|Hne].
    + rewrite lookup_insert_eq. eexists. split; [done|]. assert (t = s) as -> by congruence.
      unfold seg_in_sdu in *. by rewrite E3.
    + rewrite lookup_insert_ne by done. eauto.
Qed.

(** splitting a segment in two, with one more reference to the SDU *)
Lemma split_segment_wf g g1 g2 segs h s :
  heap_wf (g :: segs) h -> h_sdus h !! s_sdu g = Some s ->
  s_sdu g1 = s_sdu g -> s_sdu g2 = s_sdu g ->
  s_addr g1 = s_addr g -> s_addr g2 = h_next h ->
  seg_in_sdu g1 s -> seg_in_sdu g2 s ->
  heap_wf (g1 :: g2 :: segs)
    (set_sdu h (s_sdu g) (s <| sdu_ref_count := sdu_ref_count s + 1 |>)
       <| h_next := h_next h + 1 |>).
Proof.
  intros [H1 H2 H3 H4] Hs E1 E2 E3 E4 I1 I2. split; cbn.
  - intros a t. rewrite !refs_cons, E1, E2. destruct (decide (s_sdu g = a)) as [<-|Hne].
    + rewrite lookup_insert_eq. intros [= <-]. apply H1 in Hs. rewrite refs_cons in Hs.
      destruct (decide (s_sdu g = s_sdu g)); [|done]. cbn. lia.
    + rewrite lookup_insert_ne by done. intros Ht%H1. rewrite refs_cons in Ht.
      destruct (decide (s_sdu g = a)); [done|lia].
  - intros g' [->|[->|Hg]%elem_of_cons]%elem_of_cons.
    + rewrite E1, lookup_insert_eq. eauto.
    + rewrite E2, lookup_insert_eq. eauto.
    + destruct (H2 g') as (t & Ht & I); [by right|].
      destruct (decide (s_sdu g = s_sdu g')) as [Eq|Hne].
      * rewrite Eq, lookup_insert_eq. eexists. split; [done|].
        assert (t = s) as -> by congruence. done.
      * rewrite lookup_insert_ne by done. eauto.
  - intros g' [->|[->|Hg]%elem_of_cons]%elem_of_cons.
    + rewrite E3. pose proof (H3 g ltac:(left)). lia.
    + lia.
    + pose proof (H3 g' ltac:(by right)). lia.
  - cbn in H4. apply NoDup_cons in H4 as [Hn Hd]. rewrite E3, E4.
    apply NoDup_cons. split; [|apply NoDup_cons; split; [|done]].
    + intros [Eq|Hi]%elem_of_cons; [|done]. pose proof (H3 g ltac:(left)). lia.
    + intros (g' & Eq & Hg')%list_elem_of_fmap. pose proof (H3 g' ltac:(by right)). lia.
Qed.

(** ** Bytes held by the live SDUs *)
Definition live_size (h : heap) : Z :=
  map_fold (fun _ s acc => sdu_size s + acc) 0 (h_sdus h).

Lemma live_size_insert m a s :
  m !! a = None ->
  map_fold (fun (_ : Z) s acc => sdu_size s + acc) 0 (<[a := s]> m) =
  sdu_size s + map_fold (fun _ s acc => sdu_size s + acc) 0 m.
Proof. intros. rewrite map_fold_insert_L; [done|intros; lia|done]. Qed.

Lemma live_size_delete m a s :
  m !! a = Some s ->
  map_fold (fun (_ : Z) s acc => sdu_size s + acc) 0 m =
  sdu_size s + map_fold (fun _ s acc => sdu_size s + acc) 0 (delete a m).
Proof. intros. rewrite (map_fold_delete_L _ _ a s m); [done|intros; lia|done]. Qed.

Lemma live_size_update m a s s' :
  m !! a = Some s -> sdu_size s' = sdu_size s ->
  map_fold (fun (_ : Z) s acc => sdu_size s + acc) 0 (<[a := s']> m) =
  map_fold (fun _ s acc => sdu_size s + acc) 0 m.
Proof.
  intros Hs E. rewrite <- insert_delete_eq, live_size_insert by apply lookup_delete_eq.
  rewrite (live_size_delete m a s) by done. lia.
Qed.

(** ** Append at the tail pointer *)

(** the tail pointer of a list: its last node *)
Definition tail_of (l : list nr_rlc_sdu_segment_t) : option Z := s_addr <$> last l.

Lemma link_after_last l x seg :
  NoDup (s_addr <$> (l ++ [x])) -> link_after (s_addr x) (l ++ [x]) seg = Ok (l ++ [x; seg]).
Proof.
  induction l as [|y l IH]; cbn; intros Hn.
  - by rewrite Z.eqb_refl.
  - apply NoDup_cons in Hn as [Hy Hn]. destruct (s_addr y =? s_addr x) eqn:E.
    + exfalso. apply Hy. apply Z.eqb_eq in E as ->. rewrite fmap_app. set_solver.
    + by rewrite IH.
Qed.

Lemma list_append_ok l seg :
  NoDup (s_addr <$> l) ->
  nr_rlc_sdu_segment_list_append l (tail_of l) seg = Ok (l ++ [seg], tail_of (l ++ [seg])).
Proof.
  intros Hn. unfold tail_of. rewrite last_snoc. cbn.
  destruct l as [|y l' _] using rev_ind; [done|].
  pose proof (link_after_last l' y seg Hn) as L.
  rewrite last_snoc. unfold nr_rlc_sdu_segment_list_append. cbn.
  destruct (l' ++ [y]) eqn:E; [by destruct l'|]. rewrite <- E in *.
  rewrite L. cbn. by rewrite <- app_assoc.
Qed.

(** ** Sums over segments *)
Definition sum_seg (f : nr_rlc_sdu_segment_t -> Z) (l : list nr_rlc_sdu_segment_t) : Z :=
  foldr (fun g acc => f g + acc) 0 l.

Lemma sum_seg_cons f g l : sum_seg f (g :: l) = f g + sum_seg f l.
Proof. done. Qed.
Lemma sum_seg_app f l k : sum_seg f (l ++ k) = sum_seg f l + sum_seg f k.
Proof. induction l as [|g l IH]; [done|]. cbn [app]. rewrite !sum_seg_cons, IH. lia. Qed.
Lemma sum_seg_nonneg f l : (forall g, g ∈ l -> 0 <= f g) -> 0 <= sum_seg f l.
Proof.
  induction l as [|g l IH]; intros H; [done|]. rewrite sum_seg_cons. pose proof (H g ltac:(left)).
  assert (0 <= sum_seg f l) by (apply IH; intros; apply H; by right). lia.
Qed.
Lemma sum_seg_ext f f' l : (forall g, g ∈ l -> f g = f' g) -> sum_seg f l = sum_seg f' l.
Proof.
  induction l as [|g l IH]; intros H; [done|]. rewrite !sum_seg_cons, H by left.
  rewrite IH; [done|]. intros. apply H. by right.
Qed.
#[export] Instance sum_seg_perm f : Proper (Permutation ==> eq) (sum_seg f).
Proof.
  intros l k P. induction P; rewrite ?sum_seg_cons; [done|by rewrite IHP|lia|congruence].
Qed.

(** ** Bytes of a segment *)
Definition seg_bytes (h : heap) (g : nr_rlc_sdu_segment_t) : list Z :=
  match h_sdus h !! s_sdu g with
  | Some s => take (Z.to_nat (s_size g)) (drop (Z.to_nat (s_so g)) (sdu_data s))
  | None => []
  end.

Lemma seg_bytes_length segs h g :
  heap_wf segs h -> g ∈ segs -> Z.of_nat (length (seg_bytes h g)) = s_size g.
Proof.
  intros W Hg. destruct (hw_segs _ _ W g Hg) as (s & Hs & I).
  pose proof (hw_refs _ _ W _ _ Hs) as (_ & _ & _ & Hd & _).
  unfold seg_bytes. rewrite Hs, length_take, length_drop. unfold seg_in_sdu in I. lia.
Qed.

(** the copy made by the serialisers *)
Lemma seg_bytes_read segs h g s :
  heap_wf segs h -> g ∈ segs -> h_sdus h !! s_sdu g = Some s ->
  mem_read (sdu_data s) (s_so g) (s_size g) = Ok (seg_bytes h g).
Proof.
  intros W Hg Hs. destruct (hw_segs _ _ W g Hg) as (s' & Hs' & I). simplify_eq.
  pose proof (hw_refs _ _ W _ _ Hs) as (_ & _ & _ & Hd & _).
  unfold seg_in_sdu in I. rewrite mem_read_total by lia.
  unfold seg_bytes. by rewrite Hs.
Qed.

(** the whole SDU a segment belongs to *)
Definition sdu_data_of (h : heap) (g : nr_rlc_sdu_segment_t) : list Z :=
  match h_sdus h !! s_sdu g with Some s => sdu_data s | None => [] end.

Lemma seg_bytes_data h g :
  seg_bytes h g = take (Z.to_nat (s_size g)) (drop (Z.to_nat (s_so g)) (sdu_data_of h g)).
Proof.
  unfold seg_bytes, sdu_data_of. case_match; [done|]. by rewrite drop_nil, take_nil.
Qed.

Lemma free_segment_data g segs h h' b g' :
  heap_wf (g :: segs) h -> nr_rlc_free_sdu_segment h g = Ok (h', b) ->
  g' ∈ segs -> sdu_data_of h' g' = sdu_data_of h g'.
Proof.
  intros W Hf Hg'. destruct (free_sdu_segment_wf g segs h W) as (h1 & b1 & E & W1 & Hb & Hh).
  rewrite E in Hf. simplify_eq. unfold sdu_data_of. destruct b.
  - rewrite Hh. destruct (decide (s_sdu g = s_sdu g')) as [Eq|Hne].
    + pose proof (refs_elem _ _ _ Hg' (eq_sym Eq)). pose proof (proj1 Hb eq_refl). lia.
    + by rewrite lookup_delete_ne.
  - destruct Hh as (s & Hs & ->). destruct (decide (s_sdu g = s_sdu g')) as [Eq|Hne].
    + by rewrite <- Eq, lookup_insert_eq, Hs.
    + by rewrite lookup_insert_ne.
Qed.

Lemma set_sdu_data h a s s' g :
  h_sdus h !! a = Some s -> sdu_data s' = sdu_data s ->
  sdu_data_of (set_sdu h a s') g = sdu_data_of h g.
Proof.
  intros Hs Hd. unfold sdu_data_of. cbn. destruct (decide (a = s_sdu g)) as [->|Hne].
  - by rewrite lookup_insert_eq, Hs.
  - by rewrite lookup_insert_ne.
Qed.

Lemma new_sdu_data segs h buffer id h' g :
  heap_wf segs h -> Z.of_nat (length buffer) <= 16000 ->
  nr_rlc_new_sdu h buffer id = (h', g) ->
  sdu_data_of h' g = buffer /\ forall g', g' ∈ segs -> sdu_data_of h' g' = sdu_data_of h g'.
Proof.
  intros W Hl E. destruct (new_sdu_wf _ _ _ _ _ _ W Hl E) as (_ & Hn & Hh).
  unfold sdu_data_of. rewrite Hh. split.
  - by rewrite lookup_insert_eq.
  - intros g' Hg'. destruct (hw_segs _ _ W g' Hg') as (s & Hs & _).
    rewrite lookup_insert_ne; [done|congruence].
Qed.

Lemma free_segment_bytes g segs h h' b g' :
  heap_wf (g :: segs) h -> nr_rlc_free_sdu_segment h g = Ok (h', b) ->
  g' ∈ segs -> seg_bytes h' g' = seg_bytes h g'.
Proof. intros. by rewrite !seg_bytes_data, (free_segment_data g segs h h' b g'). Qed.

Lemma set_sdu_bytes h a s s' g :
  h_sdus h !! a = Some s -> sdu_data s' = sdu_data s ->
  seg_bytes (set_sdu h a s') g = seg_bytes h g.
Proof. intros. by rewrite !seg_bytes_data, (set_sdu_data h a s s' g). Qed.

Lemma new_sdu_bytes segs h buffer id h' g :
  heap_wf segs h -> Z.of_nat (length buffer) <= 16000 ->
  nr_rlc_new_sdu h buffer id = (h', g) ->
  seg_bytes h' g = buffer /\ forall g', g' ∈ segs -> seg_bytes h' g' = seg_bytes h g'.
Proof.
  intros W Hl E. destruct (new_sdu_data _ _ _ _ _ _ W Hl E) as [Hd Hr]. split.
  - rewrite seg_bytes_data, Hd. injection E as _ <-. cbn. rewrite Nat2Z.id. by apply firstn_all.
  - intros g' Hg'. by rewrite !seg_bytes_data, Hr.
Qed.

(** ** Removal from the transmission list *)
Lemma find_upper_id_ok segs h l sdu_id :
  heap_wf segs h -> (forall g, g ∈ l -> g ∈ segs) ->
  exists r, find_upper_id h l sdu_id = Ok r /\
    match r with
    | Some (before, g, after) => l = before ++ g :: after
    | None => True
    end.
Proof.
  intros W. induction l as [|g l IH]; intros Hl; cbn [find_upper_id].
  - by eexists.
  - destruct (get_sdu_ok _ _ g W (Hl g ltac:(left))) as (s & -> & _). cbn [res_bind].
    destruct (_ =? _); [by eexists|].
    destruct IH as (r & -> & Hr); [intros; apply Hl; by right|]. cbn [res_bind].
    eexists. split; [done|]. destruct r as [[[]]|]; [|done]. by rewrite Hr.
Qed.

Lemma last_app_cons {A} (l : list A) x k : last (l ++ x :: k) = last (x :: k).
Proof. by rewrite last_app, last_cons; destruct (last k). Qed.

(** the tail pointer after the removal of a node *)
Lemma tail_of_remove before cur after :
  NoDup (s_addr <$> before ++ cur :: after) ->
  (if decide (tail_of (before ++ cur :: after) = Some (s_addr cur)) then tail_of before
   else tail_of (before ++ cur :: after)) = tail_of (before ++ after).
Proof.
  intros Hn. unfold tail_of. rewrite last_app_cons.
  destruct after as [|a after].
  - cbn. rewrite app_nil_r. by case_decide.
  - rewrite last_app_cons, last_cons_cons.
    case_decide as E; [|done]. exfalso.
    apply fmap_Some in E as (g & Hg & Eq). apply last_Some in Hg as (k & Hk).
    rewrite Hk, fmap_app in Hn. apply NoDup_app in Hn as (_ & _ & Hn).
    cbn in Hn. apply NoDup_cons in Hn as [Hn _]. apply Hn. rewrite fmap_app. set_solver.
Qed.

Lemma elem_of_tail_app {A} (l k : list A) x y :
  y ∈ tail (l ++ k) -> y ∈ tail (l ++ x :: k).
Proof.
  destruct l as [|z l]; cbn.
  - destruct k; cbn; [done|]. intros. by right.
  - rewrite !elem_of_app, elem_of_cons. tauto.
Qed.
