(* ===== verification/TimeStat.v ===== *)
(** * Sliding-window averages

    Models [common/utils/time_stat.c]: a growing ring buffer of (time, value)
    pairs and the running sum of the values younger than [duration].
    [time_average_now] reads the system clock; its result is an argument of
    the handlers that use it. *)
From S2P Require Export Prelude.

Record time_value_t := Mk_tv { tv_time : Z; tv_value : Z }.

Record time_average_t := Mk_ta {
  ta_duration : Z;
  ta_head : Z;
  ta_tail : Z;
  ta_buffer : list time_value_t;
  ta_maxsize : Z;
  ta_size : Z;
  ta_acc : Z            (** [accumulated_value], a [uint64_t] *)
}.
#[export] Instance eta_ta : Eta time_average_t := fun t =>
  Mk_ta (ta_duration t) (ta_head t) (ta_tail t) (ta_buffer t) (ta_maxsize t)
        (ta_size t) (ta_acc t).

Definition time_average_new (duration initial_size : Z) : res time_average_t :=
  if Z.land initial_size (initial_size - 1) =? 0 then
    Ok (Mk_ta duration (initial_size - 1) 0
          (replicate (Z.to_nat initial_size) (Mk_tv 0 0)) initial_size 0 0)
  else Err Exit.

Definition time_average_reset (t : time_average_t) : time_average_t :=
  t <| ta_head := ta_maxsize t - 1 |> <| ta_tail := 0 |> <| ta_size := 0 |>
    <| ta_acc := 0 |>.

Definition ta_get (t : time_average_t) (i : Z) : res time_value_t :=
  if i <? 0 then Err Out_of_bounds
  else of_option Out_of_bounds (ta_buffer t !! Z.to_nat i).

(** the loop removes one entry per iteration; [fuel] is the size *)
Fixpoint remove_old_loop (fuel : nat) (t : time_average_t) (time : Z) : res time_average_t :=
  match fuel with
  | O => if ta_size t =? 0 then Ok t else Err No_fuel
  | S n =>
    if ta_size t =? 0 then Ok t else
    let* old := ta_get t (ta_tail t) in
    if tv_time old <? u64 (time - ta_duration t) then
      let t := t <| ta_acc := u64 (ta_acc t - tv_value old) |>
                 <| ta_size := ta_size t - 1 |>
                 <| ta_tail := (ta_tail t + 1) `rem` ta_maxsize t |> in
      remove_old_loop n t time
    else Ok t
  end.

Definition remove_old (t : time_average_t) (time : Z) : res time_average_t :=
  remove_old_loop (Z.to_nat (ta_size t)) t time.

(** [realloc] to twice the size (the new half is filled with zeroes here) and
    the copy of the wrapped part behind the old end *)
Definition ta_grow (t : time_average_t) : time_average_t :=
  let t := t <| ta_maxsize := ta_maxsize t * 2 |>
             <| ta_buffer := ta_buffer t ++
                  replicate (length (ta_buffer t)) (Mk_tv 0 0) |> in
  if ta_head t <? ta_tail t then
    let n := Z.to_nat (ta_size t) in
    let moved := take (Z.to_nat (ta_head t + 1)) (ta_buffer t) in
    t <| ta_buffer := take n (ta_buffer t) ++ moved ++
           drop (n + length moved) (ta_buffer t) |>
      <| ta_head := ta_head t + ta_size t |>
  else t.

Definition time_average_add (t : time_average_t) (time value : Z) : res time_average_t :=
  let* t := remove_old t time in
  let t := if ta_size t =? ta_maxsize t then ta_grow t else t in
  let t := t <| ta_head := (ta_head t + 1) `rem` ta_maxsize t |> in
  if (ta_head t <? 0) || (Z.of_nat (length (ta_buffer t)) <=? ta_head t)
  then Err Out_of_bounds
  else
    let t := t <| ta_buffer := <[Z.to_nat (ta_head t) := Mk_tv time value]> (ta_buffer t) |>
               <| ta_size := ta_size t + 1 |>
               <| ta_acc := u64 (ta_acc t + value) |> in
    Ok t.

(** the average as the pair (sum, number of values); [(0, 1)] when empty *)
Definition time_average_get_average (t : time_average_t) (time : Z)
  : res (time_average_t * (Z * Z)) :=
  let* t := remove_old t time in
  Ok (t, if ta_size t =? 0 then (0, 1) else (ta_acc t, ta_size t)).

(** ** Specification: a queue of the entries, oldest first *)

Definition ta_nth (t : time_average_t) (k : nat) : time_value_t :=
  nth (Z.to_nat ((ta_tail t + Z.of_nat k) mod ta_maxsize t)) (ta_buffer t) (Mk_tv 0 0).
Definition ta_queue (t : time_average_t) : list time_value_t :=
  ta_nth t <$> seq 0 (Z.to_nat (ta_size t)).
Definition sum_values (l : list time_value_t) : Z := foldr Z.add 0 (tv_value <$> l).

Fixpoint drop_old (l : list time_value_t) (limit : Z) : list time_value_t :=
  match l with
  | [] => []
  | v :: l' => if tv_time v <? limit then drop_old l' limit else v :: l'
  end.

Record ta_wf (t : time_average_t) : Prop := {
  wf_max : 0 < ta_maxsize t;
  wf_len : ta_maxsize t = Z.of_nat (length (ta_buffer t));
  wf_tail : 0 <= ta_tail t < ta_maxsize t;
  wf_size : 0 <= ta_size t <= ta_maxsize t;
  wf_head : 0 <= ta_head t < ta_maxsize t /\
            (ta_head t + 1) mod ta_maxsize t = (ta_tail t + ta_size t) mod ta_maxsize t;
  wf_acc : ta_acc t = u64 (sum_values (ta_queue t))
}.

Lemma u64_sub a b : u64 (u64 a - b) = u64 (a - b).
Proof. unfold u64. by rewrite Zminus_mod_idemp_l. Qed.
Lemma u64_add a b : u64 (u64 a + b) = u64 (a + b).
Proof. unfold u64. by rewrite Zplus_mod_idemp_l. Qed.

Lemma ta_queue_cons t :
  ta_wf t -> ta_size t <> 0 ->
  ta_queue t = ta_nth t 0 ::
    ta_queue (t <| ta_size := ta_size t - 1 |>
                <| ta_tail := (ta_tail t + 1) `rem` ta_maxsize t |>).
Proof.
  intros [Hm Hl Ht Hs _ _] Hz. unfold ta_queue; cbn.
  replace (Z.to_nat (ta_size t)) with (S (Z.to_nat (ta_size t - 1))) by lia.
  cbn [seq]. rewrite fmap_cons. f_equal. rewrite <- seq_shift.
  rewrite <- list_fmap_compose. apply list_fmap_ext. intros i k _. cbn.
  unfold ta_nth; cbn. do 2 f_equal. rewrite rem_mod by lia.
  rewrite Zplus_mod_idemp_l. f_equal. lia.
Qed.

Lemma ta_get_tail t : ta_wf t -> ta_get t (ta_tail t) = Ok (ta_nth t 0).
Proof.
  intros [Hm Hl Ht _ _ _]. unfold ta_get, ta_nth.
  destruct (ta_tail t <? 0) eqn:?; [lia|].
  rewrite Z.add_0_r, Z.mod_small by lia.
  destruct (lookup_lt_is_Some_2 (ta_buffer t) (Z.to_nat (ta_tail t))) as [x Hx]; [lia|].
  rewrite Hx. cbn. f_equal. symmetry. apply nth_lookup_Some with (d := Mk_tv 0 0) in Hx.
  congruence.
Qed.

Lemma ta_pop_wf t :
  ta_wf t -> ta_size t <> 0 ->
  ta_wf (t <| ta_acc := u64 (ta_acc t - tv_value (ta_nth t 0)) |>
           <| ta_size := ta_size t - 1 |>
           <| ta_tail := (ta_tail t + 1) `rem` ta_maxsize t |>).
Proof.
  intros W Hz. pose proof (ta_queue_cons t W Hz) as Q.
  destruct W as [Hm Hl Ht Hs [Hh Hh'] Ha]. split; cbn; try done.
  - apply rem_bound; lia.
  - lia.
  - split; [done|]. rewrite rem_mod by lia. rewrite Zplus_mod_idemp_l, Hh'. f_equal. lia.
  - rewrite Ha, u64_sub, Q. unfold sum_values; cbn. f_equal.
    change (ta_queue _) with (ta_queue (t <| ta_size := ta_size t - 1 |>
                <| ta_tail := (ta_tail t + 1) `rem` ta_maxsize t |>)) at 2. cbn. lia.
Qed.

Lemma remove_old_loop_spec time n : forall t,
  ta_wf t -> Z.to_nat (ta_size t) = n ->
  exists t', remove_old_loop n t time = Ok t' /\ ta_wf t' /\
    ta_queue t' = drop_old (ta_queue t) (u64 (time - ta_duration t)) /\
    ta_duration t' = ta_duration t /\ ta_maxsize t' = ta_maxsize t.
Proof.
  induction n as [|n IH]; intros t W Hn; cbn [remove_old_loop].
  - pose proof (wf_size _ W). destruct (_ =? 0) eqn:E; [|lia]. exists t. split; [done|].
    unfold ta_queue. rewrite Hn. done.
  - destruct (_ =? 0) eqn:E; [lia|]. rewrite ta_get_tail by done. cbn [res_bind].
    rewrite (ta_queue_cons t W) by lia. cbn [drop_old].
    destruct (_ <? _) eqn:El.
    + destruct (IH _ (ta_pop_wf t W ltac:(lia))) as (t' & -> & W' & Q' & D' & M').
      { cbn. lia. }
      exists t'. split; [done|]. split; [done|]. split; [|done]. rewrite Q'. done.
    + exists t. split; [done|]. split; [done|]. split; [|done].
      rewrite <- (ta_queue_cons t W) by lia. done.
Qed.

(** growing keeps the queue: the full ring starts at [tail], and the part
    before [tail] is copied behind the old end *)
Lemma ta_grow_spec t :
  ta_wf t -> ta_size t = ta_maxsize t ->
  ta_wf (ta_grow t) /\ ta_queue (ta_grow t) = ta_queue t /\
  ta_maxsize (ta_grow t) = 2 * ta_maxsize t /\ ta_size (ta_grow t) = ta_size t /\
  ta_duration (ta_grow t) = ta_duration t.
Proof.
  intros W Hfull. destruct W as [Hm Hl Ht Hs [Hh Hh'] Ha].
  set (m := ta_maxsize t) in *. set (buf := ta_buffer t) in *.
  assert (ta_head t = if ta_tail t =? 0 then m - 1 else ta_tail t - 1) as Hd.
  { rewrite Hfull in Hh'.
    replace ((ta_tail t + m) mod m) with (ta_tail t) in Hh'.
    2: { rewrite <- Zplus_mod_idemp_r, Z_mod_same_full, Z.add_0_r, Z.mod_small; lia. }
    destruct (decide (ta_head t = m - 1)) as [E|E].
    - rewrite E, Z.sub_add, Z_mod_same_full in Hh'. destruct (_ =? 0) eqn:?; lia.
    - rewrite Z.mod_small in Hh' by lia. destruct (_ =? 0) eqn:?; lia. }
  assert (forall k : nat, Z.of_nat k < m -> ta_nth (ta_grow t) k = ta_nth t k) as Hn.
  { intros k Hk. unfold ta_nth, ta_grow; cbn. fold m buf.
    rewrite (mod_ring_succ (ta_tail t)) by lia.
    destruct (ta_head t <? ta_tail t) eqn:E; cbn; rewrite Z.mod_small by lia.
    - rewrite Hfull. replace (Z.to_nat m) with (length buf) by lia.
      rewrite take_app_length, drop_app_ge by lia.
      destruct (ta_tail t + Z.of_nat k <? m) eqn:Ek.
      + rewrite app_nth1 by lia. done.
      + rewrite app_nth2 by lia. rewrite (take_app_le buf) by lia.
        rewrite app_nth1 by (rewrite length_take; destruct (ta_tail t =? 0) eqn:?; lia).
        rewrite !nth_lookup, lookup_take_lt by (destruct (ta_tail t =? 0) eqn:?; lia).
        do 2 f_equal. lia.
    - assert (ta_tail t = 0) as -> by (destruct (ta_tail t =? 0) eqn:?; lia).
      destruct (0 + Z.of_nat k <? m) eqn:?; [|lia]. rewrite app_nth1 by lia. done. }
  assert (ta_queue (ta_grow t) = ta_queue t) as Hq.
  { unfold ta_queue.
    replace (ta_size (ta_grow t)) with (ta_size t) by (unfold ta_grow; cbn; by destruct (ta_head t <? ta_tail t)).
    apply list_fmap_ext. intros i k [-> Hik]%lookup_seq. apply Hn. lia. }
  assert (ta_maxsize (ta_grow t) = 2 * m) as Hm2
    by (unfold ta_grow; cbn; destruct (ta_head t <? ta_tail t); cbn; fold m; lia).
  assert (ta_size (ta_grow t) = ta_size t) as Hs2 by (unfold ta_grow; cbn; by destruct (ta_head t <? ta_tail t)).
  split; [|split; [done|]; split; [done|]; split; [done|];
           unfold ta_grow; cbn; by destruct (ta_head t <? ta_tail t)].
  assert (ta_tail (ta_grow t) = ta_tail t) as Ht2 by (unfold ta_grow; cbn; by destruct (ta_head t <? ta_tail t)).
  split; rewrite ?Hm2, ?Hs2, ?Ht2; try lia.
  - unfold ta_grow; cbn; fold m buf. destruct (ta_head t <? ta_tail t) eqn:?; cbn;
      rewrite ?length_app, ?length_replicate, ?length_drop, ?length_take, ?length_app, ?length_replicate;
      destruct (ta_tail t =? 0) eqn:?; lia.
  - unfold ta_grow; cbn; fold m buf. destruct (ta_head t <? ta_tail t) eqn:E; cbn.
    + destruct (ta_tail t =? 0) eqn:E0; [lia|]. split; [lia|]. f_equal. lia.
    + destruct (ta_tail t =? 0) eqn:E0; [|lia]. split; [lia|]. f_equal. lia.
  - rewrite Hq. unfold ta_grow; cbn. by destruct (ta_head t <? ta_tail t).
Qed.

Lemma ta_push_spec t time value :
  ta_wf t -> ta_size t < ta_maxsize t ->
  let h := (ta_head t + 1) `rem` ta_maxsize t in
  let t' := t <| ta_head := h |>
              <| ta_buffer := <[Z.to_nat h := Mk_tv time value]> (ta_buffer t) |>
              <| ta_size := ta_size t + 1 |>
              <| ta_acc := u64 (ta_acc t + value) |> in
  0 <= h < Z.of_nat (length (ta_buffer t)) /\ ta_wf t' /\
  ta_queue t' = ta_queue t ++ [Mk_tv time value].
Proof.
  intros [Hm Hl Ht Hs [Hh Hh'] Ha] Hlt h t'. set (m := ta_maxsize t) in *.
  assert (h = (ta_tail t + ta_size t) mod m) as Hhd
    by (unfold h; rewrite rem_mod by lia; done).
  assert (0 <= h < m) as Hhb by (rewrite Hhd; apply Z.mod_pos_bound; lia).
  assert (ta_queue t' = ta_queue t ++ [Mk_tv time value]) as Hq.
  { unfold ta_queue, t'; cbn. replace (Z.to_nat (ta_size t + 1))
      with (Z.to_nat (ta_size t) + 1)%nat by lia.
    rewrite seq_app, fmap_app. cbn. f_equal.
    - apply list_fmap_ext. intros i k [-> Hik]%lookup_seq. unfold ta_nth; cbn. fold m.
      rewrite !nth_lookup, list_lookup_insert_ne; [done|].
      rewrite (mod_ring_succ (ta_tail t)) by lia.
      rewrite Hhd, (mod_ring_succ (ta_tail t)) by lia. repeat case_match; lia.
    - f_equal. unfold ta_nth; cbn. fold m.
      replace (ta_tail t + Z.of_nat (Z.to_nat (ta_size t))) with (ta_tail t + ta_size t) by lia.
      rewrite <- Hhd, nth_lookup, list_lookup_insert_eq by lia. done. }
  split; [lia|]. split; [|done]. split; try rewrite Hq; unfold t'; cbn; try done; fold m.
  - rewrite length_insert. lia.
  - lia.
  - split; [done|]. rewrite Hhd, Zplus_mod_idemp_l. f_equal. lia.
  - rewrite Ha, u64_add. unfold sum_values. rewrite fmap_app, foldr_app. cbn.
    f_equal. clear. induction (ta_queue t); cbn; lia.
Qed.

(** adding a sample: expired entries leave at the front, the new one enters
    at the back *)
Lemma time_average_add_spec t time value :
  ta_wf t ->
  exists t', time_average_add t time value = Ok t' /\ ta_wf t' /\
    ta_queue t' = drop_old (ta_queue t) (u64 (time - ta_duration t)) ++ [Mk_tv time value] /\
    ta_duration t' = ta_duration t.
Proof.
  intros W. unfold time_average_add, remove_old.
  destruct (remove_old_loop_spec time _ t W eq_refl) as (t1 & -> & W1 & Q1 & D1 & _).
  cbn [res_bind].
  assert (exists t2, (if ta_size t1 =? ta_maxsize t1 then ta_grow t1 else t1) = t2 /\
            ta_wf t2 /\ ta_queue t2 = ta_queue t1 /\ ta_size t2 < ta_maxsize t2 /\
            ta_duration t2 = ta_duration t1)
    as (t2 & -> & W2 & Q2 & Hlt & D2).
  { destruct (ta_size t1 =? ta_maxsize t1) eqn:E.
    - destruct (ta_grow_spec t1) as (? & ? & Hm & Hs & ?); [done|lia|].
      eexists. split; [done|]. split; [done|]. split; [done|]. destruct W1. split; [lia|done].
    - eexists. split; [done|]. split; [done|]. split; [done|]. destruct W1. split; [lia|done]. }
  destruct (ta_push_spec t2 time value W2 Hlt) as (Hb & W3 & Q3). cbn -[ta_queue] in *.
  destruct (_ <? 0) eqn:?, (_ <=? _) eqn:?; try lia. cbn.
  eexists. split; [done|]. split; [done|]. split; [by rewrite Q3, Q2, Q1|]. cbn. congruence.
Qed.

Definition window_add (duration : Z) (q : list time_value_t) (s : Z * Z) : list time_value_t :=
  drop_old q (u64 (s.1 - duration)) ++ [Mk_tv s.1 s.2].

Fixpoint time_average_adds (t : time_average_t) (samples : list (Z * Z)) : res time_average_t :=
  match samples with
  | [] => Ok t
  | (time, value) :: l => let* t := time_average_add t time value in time_average_adds t l
  end.

Lemma time_average_adds_spec samples : forall t,
  ta_wf t -> exists t', time_average_adds t samples = Ok t' /\ ta_wf t' /\
    ta_queue t' = fold_left (window_add (ta_duration t)) samples (ta_queue t) /\
    ta_duration t' = ta_duration t.
Proof.
  induction samples as [|[time value] l IH]; intros t W; cbn.
  - eauto.
  - destruct (time_average_add_spec t time value W) as (t1 & -> & W1 & Q1 & D1). cbn.
    destruct (IH t1 W1) as (t2 & -> & W2 & Q2 & D2). exists t2.
    split; [done|]. split; [done|]. rewrite Q2, D1, Q1. unfold window_add at 2; cbn.
    split; [done|]. congruence.
Qed.

Lemma time_average_new_wf duration n t :
  0 < n -> time_average_new duration n = Ok t ->
  ta_wf t /\ ta_queue t = [] /\ ta_duration t = duration.
Proof.
  unfold time_average_new. intros Hn. destruct (_ =? 0); [|done]. intros [= <-].
  split; [|done]. split; cbn; try done; rewrite ?length_replicate; try lia.
  split; [lia|]. rewrite Z.sub_add, Z_mod_same_full. done.
Qed.

(** from a fresh average, any sequence of samples is added without an
    access out of the ring buffer, growth and wrap-around included, and the
    average then returned is the sum (modulo 2^64) and the number of the
    samples that a plain queue with the same expiry rule would hold. *)
Theorem time_average_refines_window duration n samples t0 now :
  0 < n -> time_average_new duration n = Ok t0 ->
  exists t, time_average_adds t0 samples = Ok t /\
    let q := drop_old (fold_left (window_add duration) samples []) (u64 (now - duration)) in
    exists t', time_average_get_average t now =
      Ok (t', if decide (q = []) then (0, 1)
              else (u64 (sum_values q), Z.of_nat (length q))).
Proof.
  intros Hn Hnew. destruct (time_average_new_wf _ _ _ Hn Hnew) as (W0 & Q0 & D0).
  destruct (time_average_adds_spec samples t0 W0) as (t & -> & W & Q & D).
  exists t. split; [done|]. rewrite D0, Q0 in Q. cbn zeta. rewrite <- Q.
  unfold time_average_get_average, remove_old.
  destruct (remove_old_loop_spec now _ t W eq_refl) as (t1 & -> & W1 & Q1 & _ & _).
  exists t1. cbn. rewrite D, D0 in Q1. rewrite <- Q1. do 2 f_equal.
  assert (length (ta_queue t1) = Z.to_nat (ta_size t1)) as Hl
    by (unfold ta_queue; by rewrite length_fmap, length_seq).
  rewrite Hl, <- (wf_acc _ W1). pose proof (wf_size _ W1).
  destruct (ta_size t1 =? 0) eqn:E; case_decide as Hq; try done.
  - exfalso. apply Hq. apply length_zero_iff_nil. lia.
  - rewrite Hq in Hl. cbn in Hl. lia.
  - f_equal. lia.
Qed.

(** three samples in a ring of two slots: the third makes the ring grow, and
    the first has expired when the average is read *)
Lemma time_average_refines_window_witness :
  exists t, time_average_adds (Mk_ta 100 1 0 [Mk_tv 0 0; Mk_tv 0 0] 2 0 0)
              [(10, 3); (20, 5); (30, 7)] = Ok t /\
    let q := drop_old (fold_left (window_add 100) [(10, 3); (20, 5); (30, 7)] [])
               (u64 (115 - 100)) in
    exists t', time_average_get_average t 115 =
      Ok (t', if decide (q = []) then (0, 1) else (u64 (sum_values q), Z.of_nat (length q))).
Proof. apply (time_average_refines_window 100 2); [lia|reflexivity]. Defined.
