(* ===== verification/RlcCommon.v ===== *)
(** * What the three kinds of RLC entities share

    Models [openair2/LAYER2/nr_rlc/nr_rlc_entity.h]: the statistics, the
    buffer status and the common part of an entity.  The three callbacks of
    the upper layer are recorded, in the order of the calls, in [trace]. *)
From S2P Require Export Prelude RlcPdu RlcSdu TimeStat.

Definition NR_SDU_MAX : Z := 16000.

Inductive nr_rlc_mode_t := NR_RLC_AM | NR_RLC_UM | NR_RLC_TM.

(** the counters that the code updates; the other fields of the C structure
    are never written *)
Record nr_rlc_statistics_t := Mk_stats {
  mode : nr_rlc_mode_t;
  txpdu_pkts : Z; txpdu_bytes : Z;
  txpdu_dd_pkts : Z; txpdu_dd_bytes : Z;
  txpdu_retx_pkts : Z; txpdu_retx_bytes : Z;
  txpdu_segmented : Z;
  txpdu_status_pkts : Z; txpdu_status_bytes : Z;
  rxpdu_pkts : Z; rxpdu_bytes : Z;
  rxpdu_dup_pkts : Z; rxpdu_dup_bytes : Z;
  rxpdu_dd_pkts : Z; rxpdu_dd_bytes : Z;
  rxpdu_ow_pkts : Z; rxpdu_ow_bytes : Z;
  txsdu_pkts : Z; txsdu_bytes : Z;
  txsdu_avg_time_to_tx_stat : Z * Z;
  txsdu_wt_us : Z;
  rxsdu_pkts : Z; rxsdu_bytes : Z;
  rxsdu_dd_pkts : Z; rxsdu_dd_bytes : Z
}.
#[export] Instance eta_stats : Eta nr_rlc_statistics_t := fun s =>
  Mk_stats (mode s) (txpdu_pkts s) (txpdu_bytes s) (txpdu_dd_pkts s) (txpdu_dd_bytes s)
    (txpdu_retx_pkts s) (txpdu_retx_bytes s) (txpdu_segmented s) (txpdu_status_pkts s)
    (txpdu_status_bytes s) (rxpdu_pkts s) (rxpdu_bytes s) (rxpdu_dup_pkts s)
    (rxpdu_dup_bytes s) (rxpdu_dd_pkts s) (rxpdu_dd_bytes s) (rxpdu_ow_pkts s)
    (rxpdu_ow_bytes s) (txsdu_pkts s) (txsdu_bytes s) (txsdu_avg_time_to_tx_stat s)
    (txsdu_wt_us s) (rxsdu_pkts s) (rxsdu_bytes s) (rxsdu_dd_pkts s) (rxsdu_dd_bytes s).

Definition stats_init (m : nr_rlc_mode_t) : nr_rlc_statistics_t :=
  Mk_stats m 0 0 0 0 0 0 0 0 0 0 0 0 0 0 0 0 0 0 0 (0, 1) 0 0 0 0 0.

(** [s.f += n] on a [uint32_t] and on a [uint64_t] counter *)
Notation "s '<|' f '+=32' n '|>'" := (update f (fun x => u32 (x + n)) s)
  (at level 12, f at next level, left associativity) : c_scope.
Notation "s '<|' f '+=64' n '|>'" := (update f (fun x => u64 (x + n)) s)
  (at level 12, f at next level, left associativity) : c_scope.

Record nr_rlc_entity_buffer_status_t := Mk_bs {
  bs_status_size : Z;
  bs_tx_size : Z;
  bs_retx_size : Z
}.
#[export] Instance eta_bs : Eta nr_rlc_entity_buffer_status_t := fun b =>
  Mk_bs (bs_status_size b) (bs_tx_size b) (bs_retx_size b).

(** calls of the upper layer callbacks *)
Inductive event :=
  | deliver_sdu (data : list Z)
  | sdu_successful_delivery (sdu_id : Z)
  | max_retx_reached.

Record nr_rlc_entity_t := Mk_common {
  trace : list event;
  bstatus : nr_rlc_entity_buffer_status_t;
  stats : nr_rlc_statistics_t;
  txsdu_avg_time_to_tx : time_average_t;
  avg_time_is_on : bool;
  sdu_heap : heap
}.
#[export] Instance eta_common : Eta nr_rlc_entity_t := fun c =>
  Mk_common (trace c) (bstatus c) (stats c) (txsdu_avg_time_to_tx c) (avg_time_is_on c)
    (sdu_heap c).

Definition heap_init : heap := Mk_heap ∅ 1.

(** the common part built by the [new_nr_rlc_entity_*] functions: statistics
    at zero and an averaging window of 100 ms with 1024 entries *)
Definition common_init (m : nr_rlc_mode_t) : res nr_rlc_entity_t :=
  let* avg := time_average_new (100 * 1000) 1024 in
  Ok (Mk_common [] (Mk_bs 0 0 0) (stats_init m) avg false heap_init).

(** the call of a callback *)
Definition emit (ev : event) (c : nr_rlc_entity_t) : nr_rlc_entity_t :=
  c <| trace := trace c ++ [ev] |>.

(** [if (avg_time_is_on) sdu->sdu->time_of_arrival = time_average_now()] *)
Definition set_time_of_arrival (now a : Z) (c : nr_rlc_entity_t) : res nr_rlc_entity_t :=
  if avg_time_is_on c then
    let* s := get_sdu (sdu_heap c) a in
    Ok (c <| sdu_heap := set_sdu (sdu_heap c) a (s <| sdu_time_of_arrival := now |>) |>)
  else Ok c.

(** the accounting of the waiting time when a PDU is built *)
Definition account_waited_time (now a : Z) (c : nr_rlc_entity_t) : res nr_rlc_entity_t :=
  if avg_time_is_on c then
    let* s := get_sdu (sdu_heap c) a in
    let waited_time := u64 (now - sdu_time_of_arrival s) in
    let* t := time_average_add (txsdu_avg_time_to_tx c) now waited_time in
    Ok (c <| txsdu_avg_time_to_tx := t |>)
  else Ok c.

(** [nr_rlc_entity_get_stats], with the head-of-line segment of the entity *)
Definition nr_rlc_entity_get_stats (now : Z) (hol : option nr_rlc_sdu_segment_t)
    (c : nr_rlc_entity_t) : res (nr_rlc_entity_t * nr_rlc_statistics_t) :=
  let out := stats c in
  let* wt :=
    match hol with
    | Some g => let* s := get_sdu (sdu_heap c) (s_sdu g) in
                Ok (u32 (now - sdu_time_of_arrival s))
    | None => Ok 0
    end in
  let out := out <| txsdu_wt_us := wt |> in
  if avg_time_is_on c then
    let* '(t, avg) := time_average_get_average (txsdu_avg_time_to_tx c) now in
    Ok (c <| txsdu_avg_time_to_tx := t |>, out <| txsdu_avg_time_to_tx_stat := avg |>)
  else Ok (c, out <| txsdu_avg_time_to_tx_stat := (0, 1) |>).

Lemma heap_wf_init : heap_wf [] heap_init.
Proof.
  split; cbn; [intros a s Hs|intros g Hg|intros g Hg|constructor].
  - by rewrite lookup_empty in Hs.
  - by apply not_elem_of_nil in Hg.
  - by apply not_elem_of_nil in Hg.
Qed.

(** what the common part keeps while time averages are recorded *)
Lemma set_time_of_arrival_wf segs now a c s :
  heap_wf segs (sdu_heap c) -> h_sdus (sdu_heap c) !! a = Some s ->
  exists c', set_time_of_arrival now a c = Ok c' /\ heap_wf segs (sdu_heap c') /\
    trace c' = trace c /\ bstatus c' = bstatus c /\ stats c' = stats c /\
    txsdu_avg_time_to_tx c' = txsdu_avg_time_to_tx c /\ avg_time_is_on c' = avg_time_is_on c /\
    (sdu_heap c' = sdu_heap c \/
     sdu_heap c' = set_sdu (sdu_heap c) a (s <| sdu_time_of_arrival := now |>)).
Proof.
  intros W Hs. unfold set_time_of_arrival. destruct (avg_time_is_on c) eqn:E.
  - unfold get_sdu. rewrite Hs. cbn. eexists. split; [done|]. cbn.
    split; [by eapply set_sdu_wf|]. rewrite E. auto 10.
  - exists c. auto 10.
Qed.

Lemma account_waited_time_ok now a c s :
  ta_wf (txsdu_avg_time_to_tx c) -> h_sdus (sdu_heap c) !! a = Some s ->
  exists t, account_waited_time now a c = Ok (c <| txsdu_avg_time_to_tx := t |>) /\ ta_wf t.
Proof.
  intros W Hs. unfold account_waited_time. destruct (avg_time_is_on c) eqn:E.
  - unfold get_sdu. rewrite Hs. cbn.
    destruct (time_average_add_spec _ now (u64 (now - sdu_time_of_arrival s)) W) as (t & -> & W' & _). cbn. eauto.
  - exists (txsdu_avg_time_to_tx c). by destruct c.
Qed.
