(* ===== verification/HashTable.v ===== *)
(** * The hash table of common/utils/hashtable

    Chains of nodes in an array ([hashtable.c]).  A data pointer is an option
    of the object it points to; the calls of the free function are lists of
    the objects given to it.  [hash_table_refines_map] is the refinement of a
    finite map from keys to data pointers; the iterator visits the contents of
    that map once each. *)
From S2P Require Import Prelude.

Inductive hashtable_rc_t :=
  | HASH_TABLE_OK | HASH_TABLE_INSERT_OVERWRITTEN_DATA | HASH_TABLE_KEY_NOT_EXISTS
  | HASH_TABLE_KEY_ALREADY_EXISTS | HASH_TABLE_BAD_PARAMETER_HASHTABLE | HASH_TABLE_SYSTEM_ERROR.
#[export] Instance hashtable_rc_t_eq_dec : EqDecision hashtable_rc_t.
Proof. solve_decision. Defined.

(** the data of an optional pointer *)
Definition opt_list {D} (d : option D) : list D := match d with Some x => [x] | None => [] end.

Definition hash_node_t (D : Type) : Type := Z * option D.
Record hash_table_t (D : Type) := mk_table {
  size : Z;
  nodes : list (list (hash_node_t D));     (** the chains *)
  hashfunc : Z -> Z }.
Arguments mk_table {D} _ _ _.
Arguments size {D} _.
Arguments nodes {D} _.
Arguments hashfunc {D} _ _.
#[export] Instance eta_hash_table_t D : Eta (hash_table_t D) := fun t => mk_table (size t) (nodes t) (hashfunc t).

Definition def_hashfunc (keyP : Z) : Z := u64 keyP.

Section Table.
Context {D : Type}.
Implicit Types (t : hash_table_t D) (c : list (hash_node_t D)).

Definition hashtable_create (sizeP : Z) (hashfuncP : option (Z -> Z)) : hash_table_t D :=
  mk_table sizeP (replicate (Z.to_nat sizeP) [])
    (match hashfuncP with Some f => fun k => u64 (f k) | None => def_hashfunc end).

(** the walk along a chain *)
Fixpoint chain_find c (keyP : Z) : option (option D) :=
  match c with
  | [] => None
  | (k, d) :: c => if k =? keyP then Some d else chain_find c keyP
  end.
Fixpoint chain_set c (keyP : Z) (dataP : option D) : list (hash_node_t D) :=
  match c with
  | [] => []
  | (k, d) :: c => if k =? keyP then (k, dataP) :: c else (k, d) :: chain_set c keyP dataP
  end.
Fixpoint chain_remove c (keyP : Z) : list (hash_node_t D) :=
  match c with
  | [] => []
  | (k, d) :: c => if k =? keyP then c else (k, d) :: chain_remove c keyP
  end.

(** the index of a key and its chain; a modulo by zero is undefined *)
Definition chain_of t (keyP : Z) : res (nat * list (hash_node_t D)) :=
  if size t =? 0 then Err Undefined else
  let hash := Z.to_nat (hashfunc t keyP mod size t) in
  let* c := arr_get (nodes t) hash in
  Ok (hash, c).

Definition hashtable_is_key_exists (hashtblP : option (hash_table_t D)) (keyP : Z) : res hashtable_rc_t :=
  match hashtblP with
  | None => Ok HASH_TABLE_BAD_PARAMETER_HASHTABLE
  | Some t =>
    let* '(_, c) := chain_of t keyP in
    Ok (match chain_find c keyP with Some _ => HASH_TABLE_OK | None => HASH_TABLE_KEY_NOT_EXISTS end)
  end.

(** with the data that is freed *)
Definition hashtable_insert (hashtblP : option (hash_table_t D)) (keyP : Z) (dataP : option D)
  : res (option (hash_table_t D) * hashtable_rc_t * list D) :=
  match hashtblP with
  | None => Ok (None, HASH_TABLE_BAD_PARAMETER_HASHTABLE, [])
  | Some t =>
    let* '(hash, c) := chain_of t keyP in
    match chain_find c keyP with
    | Some d =>
      let* ns := arr_set (nodes t) hash (chain_set c keyP dataP) in
      Ok (Some (t <| nodes := ns |>), HASH_TABLE_INSERT_OVERWRITTEN_DATA, opt_list d)
    | None =>
      let* ns := arr_set (nodes t) hash ((keyP, dataP) :: c) in
      Ok (Some (t <| nodes := ns |>), HASH_TABLE_OK, [])
    end
  end.

Definition hashtable_remove (hashtblP : option (hash_table_t D)) (keyP : Z)
  : res (option (hash_table_t D) * hashtable_rc_t * list D) :=
  match hashtblP with
  | None => Ok (None, HASH_TABLE_BAD_PARAMETER_HASHTABLE, [])
  | Some t =>
    let* '(hash, c) := chain_of t keyP in
    match chain_find c keyP with
    | Some d =>
      let* ns := arr_set (nodes t) hash (chain_remove c keyP) in
      Ok (Some (t <| nodes := ns |>), HASH_TABLE_OK, opt_list d)
    | None => Ok (Some t, HASH_TABLE_KEY_NOT_EXISTS, [])
    end
  end.

(** the return code and [*dataP] *)
Definition hashtable_get (hashtblP : option (hash_table_t D)) (keyP : Z) : res (hashtable_rc_t * option D) :=
  match hashtblP with
  | None => Ok (HASH_TABLE_BAD_PARAMETER_HASHTABLE, None)
  | Some t =>
    let* '(_, c) := chain_of t keyP in
    Ok (match chain_find c keyP with
        | Some d => (HASH_TABLE_OK, d)
        | None => (HASH_TABLE_KEY_NOT_EXISTS, None)
        end)
  end.

Definition hashtable_destroy (hashtblP : option (hash_table_t D))
  : option (hash_table_t D) * hashtable_rc_t * list D :=
  match hashtblP with
  | None => (None, HASH_TABLE_BAD_PARAMETER_HASHTABLE, [])
  | Some t =>
    (None, HASH_TABLE_OK, concat (map (fun c => concat (map (fun n => opt_list (snd n)) c)) (nodes t)))
  end.

(** ** The iterator, over a table that stays the same *)

Record hash_table_iterator_s := mk_iter { index : Z; it_node : list (hash_node_t D); hashtbl : hash_table_t D }.

Definition hashtable_get_iterator (hashtblP : option (hash_table_t D)) : res hash_table_iterator_s :=
  match hashtblP with
  | None => Err Null_deref
  | Some t => let* c := arr_get (nodes t) 0 in Ok (mk_iter 0 c t)
  end.

(** the next data, or [None] at the end *)
Fixpoint iterator_getnext (fuel : nat) (it : hash_table_iterator_s)
  : res (hash_table_iterator_s * option (option D)) :=
  match it_node it with
  | (_, d) :: c => Ok (mk_iter (index it) c (hashtbl it), Some d)
  | [] =>
    match fuel with
    | O => Err No_fuel
    | S fuel =>
      let i := index it + 1 in
      if size (hashtbl it) <=? i then Ok (mk_iter i [] (hashtbl it), None)
      else
        let* c := arr_get (nodes (hashtbl it)) (Z.to_nat i) in
        iterator_getnext fuel (mk_iter i c (hashtbl it))
    end
  end.
Definition hashtable_iterator_getnext (it : hash_table_iterator_s) :=
  iterator_getnext (S (Z.to_nat (size (hashtbl it)))) it.

(** the loop of a client of the iterator *)
Fixpoint iterate (fuel : nat) (it : hash_table_iterator_s) : res (list (option D)) :=
  match fuel with
  | O => Err No_fuel
  | S fuel =>
    let* '(it, d) := hashtable_iterator_getnext it in
    match d with
    | None => Ok []
    | Some d => let* l := iterate fuel it in Ok (d :: l)
    end
  end.
End Table.
Arguments hash_table_iterator_s : clear implicits.

(** ** The map that a table stands for *)

Section Map.
Context {D : Type}.
Implicit Types (t : hash_table_t D) (c : list (hash_node_t D)) (m : gmap Z (option D)).

Definition table_map t : gmap Z (option D) := list_to_map (concat (nodes t)).

(** each key is in the chain of its hash, once *)
Record table_wf t : Prop := {
  tw_size : 0 < size t;
  tw_length : length (nodes t) = Z.to_nat (size t);
  tw_nodup : forall i c, nodes t !! i = Some c -> NoDup c.*1;
  tw_hash : forall i c k, nodes t !! i = Some c -> k ∈ c.*1 -> i = Z.to_nat (hashfunc t k mod size t) }.

Lemma chain_find_map c k : NoDup c.*1 -> (list_to_map c : gmap Z (option D)) !! k = chain_find c k.
Proof.
  induction c as [|[k' d] c IH]; cbn; intros H; [apply lookup_empty|]. inversion H; subst.
  destruct (Z.eqb_spec k' k) as [->|]; [by rewrite lookup_insert_eq|].
  rewrite lookup_insert_ne by done. by apply IH.
Qed.

Lemma chain_find_elem c k d : NoDup c.*1 -> chain_find c k = Some d <-> (k, d) ∈ c.
Proof.
  intros H. rewrite <- chain_find_map by done. split.
  - apply elem_of_list_to_map_2.
  - by apply elem_of_list_to_map_1.
Qed.

Lemma chain_keys_set c k d : (chain_set c k d).*1 = c.*1.
Proof. induction c as [|[k' d'] c IH]; [done|]. cbn. destruct (k' =? k); cbn; [done|by rewrite IH]. Qed.

Lemma chain_find_set c k d k' d0 : chain_find c k = Some d0 ->
  chain_find (chain_set c k d) k' = if k =? k' then Some d else chain_find c k'.
Proof.
  induction c as [|[k1 d1] c IH]; [done|]. cbn. destruct (Z.eqb_spec k1 k) as [->|Hk]; cbn.
  - intros _. by destruct (Z.eqb_spec k k').
  - intros H. destruct (Z.eqb_spec k1 k') as [->|]; [|by apply IH]. destruct (Z.eqb_spec k k'); [congruence|done].
Qed.

Lemma chain_remove_keys c k k' : k' ∈ (chain_remove c k).*1 -> k' ∈ c.*1.
Proof.
  induction c as [|[k1 d1] c IH]; [done|]. cbn. destruct (k1 =? k); cbn; [by right|].
  intros [->|H]%elem_of_cons; [by left|right; by apply IH].
Qed.

Lemma chain_remove_nodup c k : NoDup c.*1 -> NoDup (chain_remove c k).*1.
Proof.
  induction c as [|[k1 d1] c IH]; [done|]. cbn. intros H. inversion H; subst.
  destruct (k1 =? k); [done|]. cbn. constructor; [|by apply IH].
  intros E. by apply chain_remove_keys in E.
Qed.

Lemma chain_find_none c k : chain_find c k = None <-> k ∉ c.*1.
Proof.
  induction c as [|[k1 d1] c IH]; cbn; [split; [intros _ H; inversion H|done]|].
  rewrite not_elem_of_cons. destruct (Z.eqb_spec k1 k) as [->|]; [naive_solver|]. rewrite IH. naive_solver.
Qed.

Lemma chain_find_remove c k k' : NoDup c.*1 ->
  chain_find (chain_remove c k) k' = if k =? k' then None else chain_find c k'.
Proof.
  induction c as [|[k1 d1] c IH]; [by case_match|]. cbn. intros H. inversion H; subst.
  destruct (Z.eqb_spec k1 k) as [->|Hk]; cbn.
  - destruct (Z.eqb_spec k k') as [->|]; [by apply chain_find_none|done].
  - rewrite IH by done. destruct (Z.eqb_spec k1 k') as [->|]; [|done].
    by destruct (Z.eqb_spec k k').
Qed.

(** the keys of the chains together *)
Lemma nodup_concat_keys (ns : list (list (hash_node_t D))) :
  (forall i c, ns !! i = Some c -> NoDup c.*1) ->
  (forall i j c c' k, ns !! i = Some c -> ns !! j = Some c' -> k ∈ c.*1 -> k ∈ c'.*1 -> i = j) ->
  NoDup (concat ns).*1.
Proof.
  induction ns as [|c ns IH]; intros Hn Hd; [constructor|]. cbn. rewrite fmap_app. apply NoDup_app. split_and!.
  - by apply (Hn 0%nat).
  - intros k Hk Hk'. apply list_elem_of_fmap in Hk' as (x & -> & Hx).
    apply list_elem_of_In, in_concat in Hx as (c' & Hc' & Hx).
    apply list_elem_of_In, list_elem_of_lookup in Hc' as [j Hj].
    apply list_elem_of_In, (list_elem_of_fmap_2 fst) in Hx.
    by pose proof (Hd 0%nat (S j) c c' x.1 eq_refl Hj Hk Hx).
  - apply IH.
    + intros i c' Hi. by apply (Hn (S i)).
    + intros i j c1 c2 k Hi Hj H1 H2. by pose proof (Hd (S i) (S j) c1 c2 k Hi Hj H1 H2) as [= ?].
Qed.

Lemma wf_nodup t : table_wf t -> NoDup (concat (nodes t)).*1.
Proof.
  intros [_ _ Hn Hh]. apply nodup_concat_keys; [done|].
  intros i j c c' k Hi Hj H1 H2. rewrite (Hh i c k), (Hh j c' k); done.
Qed.

Lemma wf_chain t k : table_wf t -> exists c, let i := Z.to_nat (hashfunc t k mod size t) in
  nodes t !! i = Some c /\ chain_of t k = Ok (i, c) /\ table_map t !! k = chain_find c k.
Proof.
  intros W. pose proof (tw_size _ W). set (i := Z.to_nat (hashfunc t k mod size t)).
  assert (i < length (nodes t))%nat as Hi.
  { rewrite (tw_length _ W). unfold i. pose proof (Z.mod_pos_bound (hashfunc t k) (size t)). lia. }
  destruct (lookup_lt_is_Some_2 _ _ Hi) as [c Hc]. exists c. cbn. fold i. split; [done|]. split.
  - unfold chain_of. destruct (Z.eqb_spec (size t) 0); [lia|]. fold i. unfold arr_get. by rewrite Hc.
  - pose proof (tw_nodup _ W i c Hc) as Hn. unfold table_map. destruct (chain_find c k) as [d|] eqn:E.
    + apply chain_find_elem in E; [|done]. apply elem_of_list_to_map_1; [by apply wf_nodup|].
      apply list_elem_of_In, in_concat. exists c. split; apply list_elem_of_In; [by eapply list_elem_of_lookup_2|done].
    + apply not_elem_of_list_to_map_1. intros Hk. apply list_elem_of_fmap in Hk as (x & -> & Hx).
      apply list_elem_of_In, in_concat in Hx as (c' & Hc' & Hx).
      apply list_elem_of_In, list_elem_of_lookup in Hc' as [j Hj].
      apply list_elem_of_In, (list_elem_of_fmap_2 fst) in Hx.
      pose proof (tw_hash _ W j c' x.1 Hj Hx) as Hji. fold i in Hji. subst j.
      rewrite Hc in Hj. injection Hj as <-. by apply chain_find_none in E.
Qed.

(** a chain exchanged for another *)
Lemma wf_set_chain t i c c' : table_wf t -> nodes t !! i = Some c -> NoDup c'.*1 ->
  (forall k, k ∈ c'.*1 -> k ∈ c.*1 \/ i = Z.to_nat (hashfunc t k mod size t)) ->
  arr_set (nodes t) i c' = Ok (<[i := c']> (nodes t)) /\ table_wf (t <| nodes := <[i := c']> (nodes t) |>).
Proof.
  intros W Hc Hn Hk. pose proof (lookup_lt_Some _ _ _ Hc). split; [by apply arr_set_ok|].
  destruct W as [W1 W2 W3 W4]. split; cbn; [done|by rewrite length_insert| |].
  - intros j c1 Hj. apply list_lookup_insert_Some in Hj as [(-> & <- & _)|(_ & Hj)]; [done|by eapply W3].
  - intros j c1 k Hj Hin. apply list_lookup_insert_Some in Hj as [(-> & <- & _)|(_ & Hj)]; [|by eapply W4].
    destruct (Hk k Hin) as [H1|H1]; [|done]. by eapply W4.
Qed.

(** the map after the exchange *)
Lemma map_set_chain t i c c' k0 (f : option (option D)) : table_wf t -> nodes t !! i = Some c ->
  table_wf (t <| nodes := <[i := c']> (nodes t) |>) -> i = Z.to_nat (hashfunc t k0 mod size t) ->
  (forall k, chain_find c' k = if k0 =? k then f else chain_find c k) ->
  table_map (t <| nodes := <[i := c']> (nodes t) |>) =
    match f with Some d => <[k0 := d]> (table_map t) | None => delete k0 (table_map t) end.
Proof.
  intros W Hc W' Hi Hf. apply map_eq. intros k.
  destruct (wf_chain _ k W) as (c1 & H1 & _ & E1). destruct (wf_chain _ k W') as (c2 & H2 & _ & E2). cbn in H1, H2.
  rewrite E2. assert (chain_find c2 k = if k0 =? k then f else table_map t !! k) as ->.
  { rewrite E1. apply list_lookup_insert_Some in H2 as [(Hj & <- & _)|(Hj & H2)].
    - rewrite <- Hj, Hc in H1. injection H1 as <-. apply Hf.
    - rewrite H1 in H2. injection H2 as <-. destruct (Z.eqb_spec k0 k) as [->|]; [congruence|done]. }
  destruct (Z.eqb_spec k0 k) as [->|].
  - destruct f; [by rewrite lookup_insert_eq|by rewrite lookup_delete_eq].
  - destruct f; [by rewrite lookup_insert_ne|by rewrite lookup_delete_ne].
Qed.

(** ** The operations on the map *)

Definition map_rc m k : hashtable_rc_t :=
  match m !! k with Some _ => HASH_TABLE_OK | None => HASH_TABLE_KEY_NOT_EXISTS end.

Lemma exists_ok t k : table_wf t -> hashtable_is_key_exists (Some t) k = Ok (map_rc (table_map t) k).
Proof.
  intros W. destruct (wf_chain t k W) as (c & _ & E & Em). cbn. rewrite E. cbn. unfold map_rc. by rewrite Em.
Qed.

Lemma get_ok t k : table_wf t ->
  hashtable_get (Some t) k = Ok (map_rc (table_map t) k, mjoin (table_map t !! k)).
Proof.
  intros W. destruct (wf_chain t k W) as (c & _ & E & Em). cbn. rewrite E. cbn. unfold map_rc. rewrite Em.
  by destruct (chain_find c k).
Qed.

Lemma insert_ok t k d : table_wf t -> exists t', table_wf t' /\ table_map t' = <[k := d]> (table_map t) /\
  hashtable_insert (Some t) k d =
    Ok (Some t', match table_map t !! k with Some _ => HASH_TABLE_INSERT_OVERWRITTEN_DATA | None => HASH_TABLE_OK end,
        opt_list (mjoin (table_map t !! k))).
Proof.
  intros W. destruct (wf_chain t k W) as (c & Hc & E & Em). unfold hashtable_insert. rewrite E. cbn. rewrite Em.
  pose proof (tw_nodup _ W _ _ Hc) as Hn. destruct (chain_find c k) as [d0|] eqn:Ef.
  - destruct (wf_set_chain t _ c (chain_set c k d) W Hc) as [-> W'].
    { by rewrite chain_keys_set. } { rewrite chain_keys_set. by left. }
    cbn. eexists. split; [done|]. split; [|done].
    rewrite (map_set_chain t _ c (chain_set c k d) k (Some d)); try done. intros k'. by eapply chain_find_set.
  - destruct (wf_set_chain t _ c ((k, d) :: c) W Hc) as [-> W'].
    { cbn. constructor; [by apply chain_find_none|done]. }
    { cbn. intros k' [->|Hk]%elem_of_cons; [by right|by left]. }
    cbn. eexists. split; [done|]. split; [|done]. rewrite (map_set_chain t _ c ((k, d) :: c) k (Some d)); done.
Qed.

Lemma table_remove_ok t k : table_wf t -> exists t', table_wf t' /\ table_map t' = delete k (table_map t) /\
  hashtable_remove (Some t) k = Ok (Some t', map_rc (table_map t) k, opt_list (mjoin (table_map t !! k))).
Proof.
  intros W. destruct (wf_chain t k W) as (c & Hc & E & Em). unfold hashtable_remove. rewrite E. cbn. unfold map_rc.
  rewrite Em. pose proof (tw_nodup _ W _ _ Hc) as Hn. destruct (chain_find c k) as [d0|] eqn:Ef.
  - destruct (wf_set_chain t _ c (chain_remove c k) W Hc) as [-> W'].
    { by apply chain_remove_nodup. } { intros k' Hk. left. by eapply chain_remove_keys. }
    cbn. eexists. split; [done|]. split; [|done].
    rewrite (map_set_chain t _ c (chain_remove c k) k None); try done. intros k'. by apply chain_find_remove.
  - exists t. split; [done|]. split; [|done]. symmetry. apply delete_id. by rewrite Em.
Qed.

Lemma table_create_ok n h : 0 < n -> table_wf (hashtable_create (D := D) n h) /\
  table_map (hashtable_create (D := D) n h) = ∅.
Proof.
  intros Hn. unfold hashtable_create. split.
  - split; cbn; [done|by rewrite length_replicate| |].
    + intros i c [-> _]%lookup_replicate. constructor.
    + intros i c k [-> _]%lookup_replicate H. inversion H.
  - unfold table_map. cbn. replace (concat (replicate (Z.to_nat n) [])) with (@nil (hash_node_t D)); [done|].
    by induction (Z.to_nat n).
Qed.

(** what destroying a table frees *)
Lemma destroy_ok t : table_wf t ->
  exists freed, hashtable_destroy (Some t) = (None, HASH_TABLE_OK, freed) /\
    freed ≡ₚ concat ((fun n => opt_list (snd n)) <$> map_to_list (table_map t)).
Proof.
  intros W. eexists. split; [done|]. unfold table_map. rewrite map_to_list_to_map by (by apply wf_nodup).
  induction (nodes t) as [|c ns IH]; [done|]. cbn [map concat].
  rewrite fmap_app, concat_app, IH. done.
Qed.

(** ** The iterator *)

Lemma iterate_chain t i c rest l fuel : 0 <= i < size t ->
  iterate fuel (mk_iter i rest t) = Ok l ->
  iterate (length c + fuel) (mk_iter i (c ++ rest) t) = Ok ((snd <$> c) ++ l).
Proof.
  intros Hi. induction c as [|[k d] c IH]; [done|]. intros Hl. cbn [length Nat.add iterate app].
  unfold hashtable_iterator_getnext. cbn [hashtbl iterator_getnext it_node].
  destruct (Z.to_nat (size t)); cbn; rewrite (IH Hl); done.
Qed.

(** empty chains are passed over *)
Lemma getnext_skip t i : table_wf t -> 0 <= i < size t -> forall fuel, (Z.to_nat (size t - i) <= fuel)%nat ->
  (exists j k d c, i < j < size t /\ nodes t !! Z.to_nat j = Some ((k, d) :: c) /\
     (forall n, i < n < j -> nodes t !! Z.to_nat n = Some []) /\
     iterator_getnext fuel (mk_iter i [] t) = Ok (mk_iter j c t, Some d)) \/
  ((forall n, i < n < size t -> nodes t !! Z.to_nat n = Some []) /\
   exists it, iterator_getnext fuel (mk_iter i [] t) = Ok (it, None)).
Proof.
  intros W Hi fuel. revert i Hi. induction fuel as [|fuel IH]; intros i Hi Hf; [lia|].
  cbn [iterator_getnext it_node index hashtbl]. destruct (Z.leb_spec (size t) (i + 1)) as [Hs|Hs].
  { right. split; [intros; lia|by eexists]. }
  destruct (lookup_lt_is_Some_2 (nodes t) (Z.to_nat (i + 1))) as [c Hc]; [rewrite (tw_length _ W); lia|].
  unfold arr_get. rewrite Hc. cbn [of_option res_bind]. destruct c as [|[k d] c].
  - destruct (IH (i + 1)) as [(j & k & d & c & Hj & Hn & Hz & E)|(Hz & E)]; [lia|lia| |].
    + left. exists j, k, d, c. split; [lia|]. split; [done|]. split; [|done].
      intros n Hn'. destruct (Z.eq_dec n (i + 1)) as [->|]; [done|]. apply Hz. lia.
    + right. split; [|done]. intros n Hn'. destruct (Z.eq_dec n (i + 1)) as [->|]; [done|]. apply Hz. lia.
  - left. exists (i + 1), k, d, c. split; [lia|]. split; [done|]. split; [intros; lia|].
    by destruct fuel.
Qed.

Lemma concat_skip (ns : list (list (hash_node_t D))) (a b : nat) : (a <= b)%nat ->
  (forall n, (a <= n < b)%nat -> ns !! n = Some []) -> concat (drop a ns) = concat (drop b ns).
Proof.
  intros Hab. replace b with (a + (b - a))%nat by lia. generalize (b - a)%nat as k. clear b Hab. intros k.
  revert a. induction k as [|k IH]; intros a Hz; [by rewrite Nat.add_0_r|].
  rewrite (drop_S _ [] a) by (apply Hz; lia). cbn.
  rewrite (IH (S a)) by (intros; apply Hz; lia). do 2 f_equal. lia.
Qed.

Lemma iterate_from t i : table_wf t -> 0 <= i < size t ->
  forall fuel, (length (concat (drop (S (Z.to_nat i)) (nodes t))) < fuel)%nat ->
  iterate fuel (mk_iter i [] t) = Ok (snd <$> concat (drop (S (Z.to_nat i)) (nodes t))).
Proof.
  intros W Hi. remember (Z.to_nat (size t - i)) as n eqn:En. revert i Hi En.
  induction n as [n IH] using lt_wf_ind. intros i Hi En fuel Hf.
  destruct fuel as [|fuel]; [lia|]. cbn [iterate]. unfold hashtable_iterator_getnext. cbn [hashtbl].
  destruct (getnext_skip t i W Hi (S (Z.to_nat (size t)))) as [(j & k & d & c & Hj & Hn & Hz & ->)|(Hz & it & ->)]; [lia| |].
  - cbn [res_bind].
    rewrite (concat_skip _ _ (Z.to_nat j)) in Hf |- *
      by (first [lia | intros m Hm; rewrite <- (Nat2Z.id m); apply Hz; lia]).
    rewrite (drop_S _ ((k, d) :: c)) in Hf |- * by done. cbn [concat] in Hf |- *. rewrite length_app in Hf. cbn in Hf.
    assert (iterate fuel (mk_iter j c t) = Ok ((snd <$> c) ++ (snd <$> concat (drop (S (Z.to_nat j)) (nodes t))))) as ->;
      [|cbn; by rewrite fmap_app].
    rewrite <- (app_nil_r c) at 1. replace fuel with (length c + (fuel - length c))%nat by lia.
    apply iterate_chain; [lia|]. apply (IH (Z.to_nat (size t - j))); [lia|lia|done|].
    unfold hash_node_t in *. lia.
  - cbn [res_bind]. rewrite (concat_skip _ _ (length (nodes t))), drop_all; [done| |].
    + rewrite (tw_length _ W). lia.
    + intros m Hm. rewrite <- (Nat2Z.id m). apply Hz. rewrite (tw_length _ W) in Hm. lia.
Qed.

Lemma iterate_table_ok t : table_wf t ->
  exists it, hashtable_get_iterator (Some t) = Ok it /\
    exists l, iterate (S (length (concat (nodes t)))) it = Ok l /\ l ≡ₚ snd <$> map_to_list (table_map t).
Proof.
  intros W. pose proof (tw_size _ W). unfold hashtable_get_iterator.
  destruct (lookup_lt_is_Some_2 (nodes t) 0) as [c Hc]; [rewrite (tw_length _ W); lia|].
  unfold arr_get. rewrite Hc. cbn [of_option res_bind]. eexists. split; [done|].
  exists (snd <$> concat (nodes t)). split.
  - destruct (nodes t) as [|c0 ns] eqn:En; [done|]. injection Hc as ->. cbn [concat]. rewrite length_app.
    rewrite <- (app_nil_r c) at 2. rewrite <- Nat.add_succ_r, fmap_app.
    apply iterate_chain; [lia|].
    assert (concat ns = concat (drop (S (Z.to_nat 0)) (nodes t))) as -> by (by rewrite En).
    apply iterate_from; [done|lia|lia].
  - unfold table_map. by rewrite map_to_list_to_map by (by apply wf_nodup).
Qed.
End Map.

(** ** Any sequence of operations *)

Inductive ht_op (D : Type) := Insert (k : Z) (d : option D) | Remove (k : Z) | Get (k : Z) | Exists_key (k : Z).
Arguments Insert {D} _ _.
Arguments Remove {D} _.
Arguments Get {D} _.
Arguments Exists_key {D} _.

(** the return code, the data given back and the data freed *)
Definition ht_out (D : Type) : Type := hashtable_rc_t * option D * list D.

Definition ht_step {D} (t : option (hash_table_t D)) (op : ht_op D) : res (option (hash_table_t D) * ht_out D) :=
  match op with
  | Insert k d => let* '(t, rc, f) := hashtable_insert t k d in Ok (t, (rc, None, f))
  | Remove k => let* '(t, rc, f) := hashtable_remove t k in Ok (t, (rc, None, f))
  | Get k => let* '(rc, d) := hashtable_get t k in Ok (t, (rc, d, []))
  | Exists_key k => let* rc := hashtable_is_key_exists t k in Ok (t, (rc, None, []))
  end.

Definition map_step {D} (m : gmap Z (option D)) (op : ht_op D) : gmap Z (option D) * ht_out D :=
  match op with
  | Insert k d =>
    (<[k := d]> m, (match m !! k with Some _ => HASH_TABLE_INSERT_OVERWRITTEN_DATA | None => HASH_TABLE_OK end,
                    None, opt_list (mjoin (m !! k))))
  | Remove k => (delete k m, (map_rc m k, None, opt_list (mjoin (m !! k))))
  | Get k => (m, (map_rc m k, mjoin (m !! k), []))
  | Exists_key k => (m, (map_rc m k, None, []))
  end.

Fixpoint ht_run {D} (t : option (hash_table_t D)) (ops : list (ht_op D)) : res (option (hash_table_t D) * list (ht_out D)) :=
  match ops with
  | [] => Ok (t, [])
  | op :: ops => let* '(t, o) := ht_step t op in let* '(t, os) := ht_run t ops in Ok (t, o :: os)
  end.
Fixpoint map_run {D} (m : gmap Z (option D)) (ops : list (ht_op D)) : gmap Z (option D) * list (ht_out D) :=
  match ops with
  | [] => (m, [])
  | op :: ops => let '(m, o) := map_step m op in let '(m, os) := map_run m ops in (m, o :: os)
  end.

Lemma ht_step_ok {D} (t : hash_table_t D) op : table_wf t -> exists t', table_wf t' /\
  table_map t' = fst (map_step (table_map t) op) /\
  ht_step (Some t) op = Ok (Some t', snd (map_step (table_map t) op)).
Proof.
  intros W. destruct op as [k d|k|k|k]; cbn [ht_step map_step fst snd].
  - destruct (insert_ok t k d W) as (t' & W' & E & ->). by exists t'.
  - destruct (table_remove_ok t k W) as (t' & W' & E & ->). by exists t'.
  - exists t. by rewrite get_ok.
  - exists t. by rewrite exists_ok.
Qed.

Lemma ht_run_ok {D} ops : forall t : hash_table_t D, table_wf t -> exists t', table_wf t' /\
  table_map t' = fst (map_run (table_map t) ops) /\
  ht_run (Some t) ops = Ok (Some t', snd (map_run (table_map t) ops)).
Proof.
  induction ops as [|op ops IH]; intros t W; [by exists t|]. cbn [ht_run map_run].
  destruct (ht_step_ok t op W) as (t1 & W1 & E1 & ->). cbn [res_bind].
  destruct (map_step (table_map t) op) as [m1 o] eqn:Em. cbn [fst snd] in E1 |- *. subst m1.
  destruct (IH t1 W1) as (t2 & W2 & E2 & ->). cbn [res_bind].
  destruct (map_run (table_map t1) ops) as [m2 os]. by exists t2.
Qed.

(** C20: for every size that is not zero, every hash function and every sequence
    of insertions, removals, lookups and tests: no operation fails, each gives
    the return code, the data and the freed data that a finite map from keys to
    data pointers gives; the iterator then visits the data of that map, each
    key once, and destroying the table frees all of it once. *)
Theorem hash_table_refines_map {D} n (h : option (Z -> Z)) (ops : list (ht_op D)) : 0 < n ->
  let '(m, outs) := map_run ∅ ops in
  exists t it visited freed, ht_run (Some (hashtable_create n h)) ops = Ok (Some t, outs) /\
    hashtable_get_iterator (Some t) = Ok it /\
    iterate (S (length (concat (nodes t)))) it = Ok visited /\ visited ≡ₚ snd <$> map_to_list m /\
    hashtable_destroy (Some t) = (None, HASH_TABLE_OK, freed) /\
    freed ≡ₚ concat ((fun n => opt_list (snd n)) <$> map_to_list m).
Proof.
  intros Hn. destruct (table_create_ok (D := D) n h Hn) as [W0 E0].
  destruct (ht_run_ok ops _ W0) as (t & W & Em & Er). rewrite E0 in Em, Er.
  destruct (map_run ∅ ops) as [m outs]. cbn in Em, Er. subst m.
  destruct (iterate_table_ok t W) as (it & Ei & visited & Ev & Hv).
  destruct (destroy_ok t W) as (freed & Ed & Hf). by exists t, it, visited, freed.
Qed.

Lemma hash_table_refines_map_witness :
  exists (t : hash_table_t Z) it visited freed,
    ht_run (Some (hashtable_create 3 None)) [Insert 4 (Some 40); Insert 7 (Some 70); Insert 4 (Some 41); Remove 7; Get 4] =
      Ok (Some t, [(HASH_TABLE_OK, None, []); (HASH_TABLE_OK, None, []);
                   (HASH_TABLE_INSERT_OVERWRITTEN_DATA, None, [40]); (HASH_TABLE_OK, None, [70]);
                   (HASH_TABLE_OK, Some 41, [])]) /\
    hashtable_get_iterator (Some t) = Ok it /\ iterate (S (length (concat (nodes t)))) it = Ok visited /\
    hashtable_destroy (Some t) = (None, HASH_TABLE_OK, freed).
Proof.
  pose proof (hash_table_refines_map (D := Z) 3 None
    [Insert 4 (Some 40); Insert 7 (Some 70); Insert 4 (Some 41); Remove 7; Get 4] ltac:(lia)) as H.
  destruct H as (t & it & visited & freed & E & Ei & Ev & _ & Ed & _).
  exists t, it, visited, freed. split; [exact E|split; [exact Ei|split; [exact Ev|exact Ed]]].
Defined.
