(* ===== verification/F1apIds.v ===== *)
(** * The secondary identities of the UEs (openair2/F1AP/f1ap_ids.c)

    The CU and the DU keep for each UE the identity that the other side uses,
    in a hash table each; the two sets of functions are the same code on the
    two tables.  Mutexes are not modelled: each function holds its mutex from
    its first to its last access. *)
From S2P Require Import Prelude HashTable.

Record f1_ue_data_t := mk_f1 { secondary_ue : Z; e1_assoc_id : Z; du_assoc_id : Z }.

(** a table that was not created is [None] *)
Abbreviation ue_mapping := (option (hash_table_t f1_ue_data_t)).

Definition get_hashtable_data (ht : ue_mapping) (ue_id : Z) : res f1_ue_data_t :=
  let* '(ret, data) := hashtable_get ht ue_id in
  match data with
  | Some d => if decide (ret = HASH_TABLE_OK) then Ok d else Err Exit
  | None => Err Exit
  end.

Definition add_hashtable_data (ht : ue_mapping) (ue_id : Z) (data : f1_ue_data_t) : res (ue_mapping * bool) :=
  let* '(ht, ret, _) := hashtable_insert ht ue_id (Some data) in
  Ok (ht, bool_decide (ret = HASH_TABLE_OK)).

(** ** The functions on one table *)

Definition init_f1_ue_data (ht : ue_mapping) : res ue_mapping :=
  match ht with
  | Some _ => Err Exit
  | None => Ok (Some (hashtable_create 1319 None))
  end.

Definition add_f1_ue_data (ht : ue_mapping) (ue_id : Z) (data : f1_ue_data_t) : res (ue_mapping * bool) :=
  match ht with
  | None => Err Exit
  | Some _ =>
    let* rc := hashtable_is_key_exists ht (u32 ue_id) in
    if decide (rc = HASH_TABLE_OK) then Ok (ht, false)
    else add_hashtable_data ht (u32 ue_id) data
  end.

Definition exists_f1_ue_data (ht : ue_mapping) (ue_id : Z) : res bool :=
  match ht with
  | None => Err Exit
  | Some _ =>
    let* ret := hashtable_is_key_exists ht (u32 ue_id) in
    Ok (bool_decide (ret = HASH_TABLE_OK))
  end.

Definition get_f1_ue_data (ht : ue_mapping) (ue_id : Z) : res f1_ue_data_t :=
  match ht with
  | None => Err Exit
  | Some _ => get_hashtable_data ht (u32 ue_id)
  end.

Definition remove_f1_ue_data (ht : ue_mapping) (ue_id : Z) : res (ue_mapping * bool) :=
  match ht with
  | None => Err Exit
  | Some _ =>
    let* '(ht, ret, _) := hashtable_remove ht (u32 ue_id) in
    Ok (ht, bool_decide (ret = HASH_TABLE_OK))
  end.

(** only at the CU *)
Definition cu_update_f1_ue_data (ht : ue_mapping) (ue_id : Z) (data : f1_ue_data_t) : res (ue_mapping * bool) :=
  match ht with
  | None => Err Exit
  | Some _ =>
    let* '(ht, retrm, _) := hashtable_remove ht (u32 ue_id) in
    if decide (retrm = HASH_TABLE_OK) then add_hashtable_data ht (u32 ue_id) data else Err Exit
  end.

(** ** The mapping that a table stands for *)

Definition f1_map (ht : ue_mapping) (m : gmap Z f1_ue_data_t) : Prop :=
  exists t, ht = Some t /\ table_wf t /\ table_map t = Some <$> m.

Lemma f1_lookup (m : gmap Z f1_ue_data_t) k : mjoin ((Some <$> m) !! k) = m !! k.
Proof. rewrite lookup_fmap. by destruct (m !! k). Qed.
Lemma f1_rc (m : gmap Z f1_ue_data_t) k :
  map_rc (Some <$> m) k = match m !! k with Some _ => HASH_TABLE_OK | None => HASH_TABLE_KEY_NOT_EXISTS end.
Proof. unfold map_rc. rewrite lookup_fmap. by destruct (m !! k). Qed.

Lemma init_f1_ok : exists ht, init_f1_ue_data None = Ok ht /\ f1_map ht ∅.
Proof.
  eexists. split; [done|]. destruct (table_create_ok (D := f1_ue_data_t) 1319 None) as [W E]; [lia|].
  eexists. split; [done|]. split; [done|]. by rewrite E, fmap_empty.
Qed.

Lemma get_f1_ok ht m ue : f1_map ht m ->
  get_f1_ue_data ht ue = match m !! u32 ue with Some d => Ok d | None => Err Exit end.
Proof.
  intros (t & -> & W & E). unfold get_f1_ue_data, get_hashtable_data. rewrite get_ok, E, f1_rc, f1_lookup by done.
  cbn [res_bind]. by destruct (m !! u32 ue).
Qed.

Lemma exists_f1_ok ht m ue : f1_map ht m ->
  exists_f1_ue_data ht ue = Ok (match m !! u32 ue with Some _ => true | None => false end).
Proof.
  intros (t & -> & W & E). unfold exists_f1_ue_data. rewrite exists_ok, E, f1_rc by done.
  cbn [res_bind]. by destruct (m !! u32 ue).
Qed.

(** an entry that exists is kept *)
Lemma add_f1_ok ht m ue d : f1_map ht m -> exists ht',
  f1_map ht' (match m !! u32 ue with Some _ => m | None => <[u32 ue := d]> m end) /\
  add_f1_ue_data ht ue d = Ok (ht', match m !! u32 ue with Some _ => false | None => true end).
Proof.
  intros (t & -> & W & E). unfold add_f1_ue_data. rewrite exists_ok, E, f1_rc by done. cbn [res_bind].
  destruct (m !! u32 ue) eqn:El.
  - exists (Some t). split; [by exists t|done].
  - destruct (insert_ok t (u32 ue) (Some d) W) as (t' & W' & E' & Ei). unfold add_hashtable_data.
    rewrite decide_False by done. rewrite Ei. cbn [res_bind]. rewrite E, lookup_fmap, El. cbn.
    exists (Some t'). split; [|done]. exists t'. split; [done|]. split; [done|].
    by rewrite E', E, fmap_insert.
Qed.

Lemma remove_f1_ok ht m ue : f1_map ht m -> exists ht', f1_map ht' (delete (u32 ue) m) /\
  remove_f1_ue_data ht ue = Ok (ht', match m !! u32 ue with Some _ => true | None => false end).
Proof.
  intros (t & -> & W & E). unfold remove_f1_ue_data.
  destruct (table_remove_ok t (u32 ue) W) as (t' & W' & E' & ->). rewrite E, f1_rc. cbn [res_bind].
  exists (Some t'). split; [|by destruct (m !! u32 ue)]. exists t'. split; [done|]. split; [done|].
  by rewrite E', E, fmap_delete.
Qed.

Lemma cu_update_f1_ok ht m ue d d0 : f1_map ht m -> m !! u32 ue = Some d0 -> exists ht',
  f1_map ht' (<[u32 ue := d]> m) /\ cu_update_f1_ue_data ht ue d = Ok (ht', true).
Proof.
  intros (t & -> & W & E) Hl. unfold cu_update_f1_ue_data.
  destruct (table_remove_ok t (u32 ue) W) as (t1 & W1 & E1 & ->). rewrite E, f1_rc, Hl. cbn [res_bind].
  rewrite decide_True by done. unfold add_hashtable_data.
  destruct (insert_ok t1 (u32 ue) (Some d) W1) as (t2 & W2 & E2 & ->). cbn [res_bind].
  rewrite E1, lookup_delete_eq. exists (Some t2). split; [|done]. exists t2. split; [done|]. split; [done|].
  by rewrite E2, E1, E, <- fmap_delete, <- fmap_insert, insert_delete_eq.
Qed.
