(* ===== verification/RlcConfig.v ===== *)
(** * Configuration values of the RLC (asn1_utils.c, nr_rlc_configuration.h)

    The tables of 38.331 from the index that ASN.1 transports to the value and
    back, and the ASN.1 configuration of an RLC bearer as far as the RLC reads
    it (NR_RLC-Config and NR_RLC-BearerConfig; an optional field is an option,
    an enumeration the index of its value). *)
From S2P Require Import Prelude.

Definition VALUES_NR_RLC_T_POLL_RETRANSMIT : list Z :=
  [5; 10; 15; 20; 25; 30; 35; 40; 45; 50; 55; 60; 65; 70;
   75; 80; 85; 90; 95; 100; 105; 110; 115; 120; 125; 130; 135; 140;
   145; 150; 155; 160; 165; 170; 175; 180; 185; 190; 195; 200; 205; 210;
   215; 220; 225; 230; 235; 240; 245; 250; 300; 350; 400; 450; 500; 800;
   1000; 2000; 4000; 1; 2; 4].
Definition VALUES_NR_RLC_T_REASSEMBLY : list Z :=
  [0; 5; 10; 15; 20; 25; 30; 35; 40; 45; 50; 55; 60; 65; 70; 75;
   80; 85; 90; 95; 100; 110; 120; 130; 140; 150; 160; 170; 180; 190; 200].
Definition VALUES_NR_RLC_T_STATUS_PROHIBIT : list Z :=
  [0; 5; 10; 15; 20; 25; 30; 35; 40; 45; 50; 55;
   60; 65; 70; 75; 80; 85; 90; 95; 100; 105; 110; 115;
   120; 125; 130; 135; 140; 145; 150; 155; 160; 165; 170; 175;
   180; 185; 190; 195; 200; 205; 210; 215; 220; 225; 230; 235;
   240; 245; 250; 300; 350; 400; 450; 500; 800; 1000; 1200; 1600;
   2000; 2400].
Definition VALUES_NR_RLC_POLL_PDU : list Z :=
  [4; 8; 16; 32; 64; 128; 256; 512; 1024;
   2048; 4096; 6144; 8192; 12288; 16384; 20480; 24576; 28672;
   32768; 40960; 49152; 57344; 65536; -1].
Definition VALUES_NR_RLC_POLL_BYTE : list Z :=
  [1024 * 1; 1024 * 2; 1024 * 5; 1024 * 8; 1024 * 10; 1024 * 15; 1024 * 25; 1024 * 50; 1024 * 75;
   1024 * 100; 1024 * 125; 1024 * 250; 1024 * 375; 1024 * 500; 1024 * 750; 1024 * 1000; 1024 * 1250;
   1024 * 1500; 1024 * 2000; 1024 * 3000; 1024 * 4000; 1024 * 4500; 1024 * 5000; 1024 * 5500;
   1024 * 6000; 1024 * 6500; 1024 * 7000; 1024 * 7500;
   1024 * 1024 * 8; 1024 * 1024 * 9; 1024 * 1024 * 10; 1024 * 1024 * 11; 1024 * 1024 * 12;
   1024 * 1024 * 13; 1024 * 1024 * 14; 1024 * 1024 * 15; 1024 * 1024 * 16; 1024 * 1024 * 17;
   1024 * 1024 * 18; 1024 * 1024 * 20; 1024 * 1024 * 25; 1024 * 1024 * 30; 1024 * 1024 * 40; -1].
Definition VALUES_NR_RLC_MAX_RETX_THRESHOLD : list Z := [1; 2; 3; 4; 6; 8; 16; 32].
Definition VALUES_NR_RLC_SN_FIELD_LENGTH_AM : list Z := [12; 18].
Definition VALUES_NR_RLC_SN_FIELD_LENGTH_UM : list Z := [6; 12].

(** the macro [ENCODE_DECODE] *)
Definition decode_ (tab : list Z) (v : Z) : res Z :=
  if negb ((0 <=? v) && (v <? Z.of_nat (length tab))) then Err Exit
  else arr_get tab (Z.to_nat v).

Fixpoint encode_from (tab : list Z) (ret v : Z) : res Z :=
  match tab with
  | [] => Err Exit
  | x :: tab => if x =? v then Ok ret else encode_from tab (ret + 1) v
  end.
Definition encode_ (tab : list Z) (v : Z) : res Z := encode_from tab 0 v.

Definition decode_t_reassembly := decode_ VALUES_NR_RLC_T_REASSEMBLY.
Definition decode_t_status_prohibit := decode_ VALUES_NR_RLC_T_STATUS_PROHIBIT.
Definition decode_t_poll_retransmit := decode_ VALUES_NR_RLC_T_POLL_RETRANSMIT.
Definition decode_poll_pdu := decode_ VALUES_NR_RLC_POLL_PDU.
Definition decode_poll_byte := decode_ VALUES_NR_RLC_POLL_BYTE.
Definition decode_max_retx_threshold := decode_ VALUES_NR_RLC_MAX_RETX_THRESHOLD.
Definition decode_sn_field_length_am := decode_ VALUES_NR_RLC_SN_FIELD_LENGTH_AM.
Definition decode_sn_field_length_um := decode_ VALUES_NR_RLC_SN_FIELD_LENGTH_UM.

(** ** The ASN.1 configuration *)

Record NR_RLC_am := mk_rlc_am {
  dl_t_Reassembly : Z; dl_t_StatusProhibit : Z; dl_am_sn_FieldLength : option Z;
  ul_t_PollRetransmit : Z; ul_pollPDU : Z; ul_pollByte : Z; ul_maxRetxThreshold : Z;
  ul_am_sn_FieldLength : option Z }.
Record NR_RLC_um := mk_rlc_um {
  um_t_Reassembly : Z; dl_um_sn_FieldLength : option Z; ul_um_sn_FieldLength : option Z }.
Inductive NR_RLC_Config_t := RLC_Config_am (am : NR_RLC_am) | RLC_Config_um_Bi (um : NR_RLC_um) | RLC_Config_other.

Inductive NR_servedRadioBearer := srb_Identity (id : Z) | drb_Identity (id : Z).
Record NR_RLC_BearerConfig_t := mk_bearer {
  logicalChannelIdentity : Z;
  servedRadioBearer : option NR_servedRadioBearer;
  rlc_Config : option NR_RLC_Config_t }.

(** ** The tables have no value twice *)

Lemma encode_from_spec tab : forall ret v, (exists i, tab !! i = Some v /\ encode_from tab ret v = Ok (ret + Z.of_nat i)) \/
  (v ∉ tab /\ encode_from tab ret v = Err Exit).
Proof.
  induction tab as [|x tab IH]; intros ret v; cbn; [right; split; [by apply not_elem_of_nil|done]|].
  destruct (Z.eqb_spec x v) as [->|].
  - left. exists 0%nat. split; [done|]. f_equal. lia.
  - destruct (IH (ret + 1) v) as [(i & Hi & ->)|(Hn & ->)].
    + left. exists (S i). split; [done|]. f_equal. lia.
    + right. split; [|done]. rewrite not_elem_of_cons. by split.
Qed.

Lemma decode_encode tab v i : NoDup tab -> decode_ tab i = Ok v -> encode_ tab v = Ok i.
Proof.
  unfold decode_. intros Hn. destruct (_ && _) eqn:E; cbn [negb]; [|done].
  apply andb_true_iff in E as [E1%Z.leb_le E2%Z.ltb_lt]. unfold arr_get.
  destruct (tab !! Z.to_nat i) as [x|] eqn:Ex; [|done]. intros [= ->].
  destruct (encode_from_spec tab 0 v) as [(j & Hj & Ee)|(Hv & _)].
  - unfold encode_. rewrite Ee. rewrite (NoDup_lookup _ _ _ _ Hn Hj Ex). f_equal. lia.
  - exfalso. apply Hv. by eapply list_elem_of_lookup_2.
Qed.

Lemma encode_decode tab v i : encode_ tab v = Ok i -> decode_ tab i = Ok v.
Proof.
  unfold encode_. destruct (encode_from_spec tab 0 v) as [(j & Hj & ->)|(_ & ->)]; [|done].
  rewrite Z.add_0_l. intros [= <-]. unfold decode_. pose proof (lookup_lt_Some _ _ _ Hj).
  destruct (Z.leb_spec 0 (Z.of_nat j)); [|lia]. destruct (Z.ltb_spec (Z.of_nat j) (Z.of_nat (length tab))); [|lia].
  cbn. unfold arr_get. by rewrite Nat2Z.id, Hj.
Qed.

Lemma tables_nodup : Forall (fun tab => NoDup tab)
  [VALUES_NR_RLC_T_POLL_RETRANSMIT; VALUES_NR_RLC_T_REASSEMBLY; VALUES_NR_RLC_T_STATUS_PROHIBIT;
   VALUES_NR_RLC_POLL_PDU; VALUES_NR_RLC_POLL_BYTE; VALUES_NR_RLC_MAX_RETX_THRESHOLD;
   VALUES_NR_RLC_SN_FIELD_LENGTH_AM; VALUES_NR_RLC_SN_FIELD_LENGTH_UM].
Proof.
  repeat (apply Forall_cons; split; [apply (bool_decide_eq_true_1 (NoDup _)); vm_compute; reflexivity|]). constructor.
Qed.
