(* ===== verification/RlcRxManager.v ===== *)
(** * The reception buffer of the AM entity

    Models [openair2/LAYER2/nr_rlc/nr_rlc_rx_manager.c]: a circular array of
    lists of PDUs, one slot per SN of the receive window.  The theorems show
    that, inside a window, it implements a map from SN to PDU lists. *)
From S2P Require Export Prelude RlcPdu.

Record nr_rlc_rx_manager_t := Mk_rxm {
  rxm_list : list (list nr_rlc_pdu_t);
  rxm_size : Z;
  rxm_start : Z;
  rxm_sn_start : Z
}.
#[export] Instance eta_rxm : Eta nr_rlc_rx_manager_t := fun m =>
  Mk_rxm (rxm_list m) (rxm_size m) (rxm_start m) (rxm_sn_start m).

Definition nr_rlc_new_rx_manager (size : Z) : nr_rlc_rx_manager_t :=
  Mk_rxm (replicate (Z.to_nat size) []) size 0 0.

Definition nr_rlc_clear_rx_manager (m : nr_rlc_rx_manager_t) : nr_rlc_rx_manager_t :=
  m <| rxm_list := (fun _ => []) <$> rxm_list m |> <| rxm_start := 0 |> <| rxm_sn_start := 0 |>.

Definition get_pos (m : nr_rlc_rx_manager_t) (sn : Z) : Z :=
  (rxm_start m + (sn - rxm_sn_start m + rxm_size m * 2)) `rem` rxm_size m.

(** [rx_list[pos]] *)
Definition rxm_read (m : nr_rlc_rx_manager_t) (pos : Z) : res (list nr_rlc_pdu_t) :=
  if pos <? 0 then Err Out_of_bounds
  else of_option Out_of_bounds (rxm_list m !! Z.to_nat pos).

(** [rx_list[pos] = l] *)
Definition rxm_write (m : nr_rlc_rx_manager_t) (pos : Z) (l : list nr_rlc_pdu_t)
  : res nr_rlc_rx_manager_t :=
  if (pos <? 0) || (Z.of_nat (length (rxm_list m)) <=? pos) then Err Out_of_bounds
  else Ok (m <| rxm_list := <[Z.to_nat pos := l]> (rxm_list m) |>).

Definition nr_rlc_rx_manager_get_pdu_from_sn (m : nr_rlc_rx_manager_t) (sn : Z)
  : res (list nr_rlc_pdu_t) :=
  rxm_read m (get_pos m sn).

Definition nr_rlc_rx_manager_clear_pdu (m : nr_rlc_rx_manager_t) (sn : Z)
  : res nr_rlc_rx_manager_t :=
  rxm_write m (get_pos m sn) [].

Definition nr_rlc_rx_manager_advance (m : nr_rlc_rx_manager_t) (count : Z)
  : nr_rlc_rx_manager_t :=
  m <| rxm_start := (rxm_start m + count) `rem` rxm_size m |>.

Definition nr_rlc_rx_manager_set_start (m : nr_rlc_rx_manager_t) (sn_start : Z)
  : nr_rlc_rx_manager_t :=
  m <| rxm_sn_start := sn_start |>.

(** insertion in the slot, ordered by [so] *)
Fixpoint insert_by_so (l : list nr_rlc_pdu_t) (pdu : nr_rlc_pdu_t) : list nr_rlc_pdu_t :=
  match l with
  | [] => [pdu]
  | cur :: next =>
    if p_so pdu <? p_so cur then pdu :: cur :: next else cur :: insert_by_so next pdu
  end.

Definition nr_rlc_rx_manager_add_pdu (m : nr_rlc_rx_manager_t) (pdu : nr_rlc_pdu_t)
  : res nr_rlc_rx_manager_t :=
  let pos := get_pos m (p_sn pdu) in
  let* l := rxm_read m pos in
  rxm_write m pos (insert_by_so l pdu).

(** ** The window as a function

    Slot [k] is the one of the [k]-th SN after [sn_start]. *)
Record rxm_wf (modulus : Z) (m : nr_rlc_rx_manager_t) : Prop := {
  rw_size : 0 < rxm_size m;
  rw_mod : modulus = 2 * rxm_size m;
  rw_len : rxm_size m = Z.of_nat (length (rxm_list m));
  rw_start : 0 <= rxm_start m < rxm_size m;
  rw_sn : 0 <= rxm_sn_start m < modulus
}.

Definition rxm_slot (m : nr_rlc_rx_manager_t) (k : Z) : list nr_rlc_pdu_t :=
  nth (Z.to_nat ((rxm_start m + k) mod rxm_size m)) (rxm_list m) [].

(** every SN of the modulus designates a slot, its distance to [sn_start]
    modulo the size *)
Lemma get_pos_wf modulus m sn :
  rxm_wf modulus m -> 0 <= sn < modulus ->
  get_pos m sn = (rxm_start m + (sn - rxm_sn_start m)) mod rxm_size m.
Proof.
  intros [H1 H2 H3 H4 H5] Hsn. unfold get_pos. rewrite rem_mod by lia.
  rewrite <- (Z_mod_plus_full (rxm_start m + (sn - rxm_sn_start m)) 2). f_equal. lia.
Qed.

Lemma rxm_read_pos m pos :
  0 <= pos < Z.of_nat (length (rxm_list m)) ->
  rxm_read m pos = Ok (nth (Z.to_nat pos) (rxm_list m) []).
Proof.
  intros. unfold rxm_read. destruct (pos <? 0) eqn:?; [lia|].
  destruct (lookup_lt_is_Some_2 (rxm_list m) (Z.to_nat pos)) as [x Hx]; [lia|].
  rewrite Hx. cbn. f_equal. symmetry. by apply nth_lookup_Some.
Qed.

Lemma get_pdu_ok modulus m sn :
  rxm_wf modulus m -> 0 <= sn < modulus ->
  nr_rlc_rx_manager_get_pdu_from_sn m sn = Ok (rxm_slot m (sn - rxm_sn_start m)).
Proof.
  intros W Hsn. unfold nr_rlc_rx_manager_get_pdu_from_sn.
  rewrite (get_pos_wf modulus) by done. rewrite rxm_read_pos; [done|].
  rewrite <- (rw_len _ _ W). apply Z.mod_pos_bound, (rw_size _ _ W).
Qed.

(** the slot of an SN written in terms of its distance in the window *)
Lemma rxm_slot_mod m k : 0 < rxm_size m -> rxm_slot m (k mod rxm_size m) = rxm_slot m k.
Proof. intros. unfold rxm_slot. by rewrite Zplus_mod_idemp_r. Qed.

Lemma rxm_write_ok modulus m sn l :
  rxm_wf modulus m -> 0 <= sn < modulus ->
  exists m', rxm_write m (get_pos m sn) l = Ok m' /\ rxm_wf modulus m' /\
    rxm_size m' = rxm_size m /\ rxm_sn_start m' = rxm_sn_start m /\ rxm_start m' = rxm_start m /\
    forall k, 0 <= k < rxm_size m -> rxm_slot m' k =
      if k =? (sn - rxm_sn_start m) mod rxm_size m then l else rxm_slot m k.
Proof.
  intros W Hsn. rewrite (get_pos_wf modulus) by done. pose proof W as [H1 H2 H3 H4 H5].
  set (d := sn - rxm_sn_start m).
  pose proof (Z.mod_pos_bound (rxm_start m + d) (rxm_size m) H1) as Hb.
  unfold rxm_write. destruct (_ <? 0) eqn:?, (_ <=? _) eqn:?; try lia. cbn.
  eexists. split; [done|]. cbn. split; [split; cbn; rewrite ?length_insert; done|].
  split; [done|]. split; [done|]. split; [done|].
  intros k Hk. unfold rxm_slot; cbn. rewrite !nth_lookup.
  pose proof (Z.mod_pos_bound d (rxm_size m) H1) as Hd.
  rewrite <- (Zplus_mod_idemp_r d). set (d' := d mod rxm_size m) in *.
  destruct (k =? d') eqn:E.
  - assert (k = d') as -> by lia. rewrite list_lookup_insert_eq; [done|].
    pose proof (Z.mod_pos_bound (rxm_start m + d') (rxm_size m) H1). lia.
  - rewrite list_lookup_insert_ne; [done|]. intros Eq.
    pose proof (Z.mod_pos_bound (rxm_start m + d') (rxm_size m) H1).
    pose proof (Z.mod_pos_bound (rxm_start m + k) (rxm_size m) H1).
    rewrite !mod_ring_succ in Eq by lia. repeat case_match; lia.
Qed.
