(* ===== verification/RlcTm.v ===== *)
(** * The transparent mode RLC entity

    Models [openair2/LAYER2/nr_rlc/nr_rlc_entity_tm.c] and the creation of
    the entity in [nr_rlc_entity.c].  The entity is a bounded queue of SDUs;
    [tm_simulates] is its refinement theorem. *)
From S2P Require Export Prelude RlcSdu RlcCommon.

Record nr_rlc_entity_tm_t := Mk_tm {
  common : nr_rlc_entity_t;
  t_current : Z;
  t_log_buffer_full : Z;
  sdu_rejected : Z;
  tx_list : list nr_rlc_sdu_segment_t;
  tx_end : option Z;
  tx_size : Z;
  tx_maxsize : Z
}.
#[export] Instance eta_tm : Eta nr_rlc_entity_tm_t := fun e =>
  Mk_tm (common e) (t_current e) (t_log_buffer_full e) (sdu_rejected e) (tx_list e)
    (tx_end e) (tx_size e) (tx_maxsize e).

Definition on_common (f : nr_rlc_entity_t -> nr_rlc_entity_t) (e : nr_rlc_entity_tm_t)
  : nr_rlc_entity_tm_t := e <| common := f (common e) |>.
Definition on_stats (f : nr_rlc_statistics_t -> nr_rlc_statistics_t) :=
  on_common (fun c => c <| stats := f (stats c) |>).
Definition add_bs_tx (n : Z) :=
  on_common (fun c => c <| bstatus := (bstatus c) <| bs_tx_size := bs_tx_size (bstatus c) + n |> |>).
Definition hp (e : nr_rlc_entity_tm_t) : heap := sdu_heap (common e).
Definition set_heap (h : heap) := on_common (fun c => c <| sdu_heap := h |>).

Definition nr_rlc_entity_tm_recv_pdu (e : nr_rlc_entity_tm_t) (buffer : list Z)
  : nr_rlc_entity_tm_t :=
  let size := Z.of_nat (length buffer) in
  let e := on_stats (fun s => s <| rxpdu_pkts +=32 1 |> <| rxpdu_bytes +=32 size |>) e in
  let e := on_common (emit (deliver_sdu buffer)) e in
  on_stats (fun s => s <| txsdu_pkts +=32 1 |> <| txsdu_bytes +=64 size |>) e.

Definition generate_tx_pdu (now : Z) (e : nr_rlc_entity_tm_t) (buffer : list Z)
  : res (nr_rlc_entity_tm_t * list Z * Z) :=
  let size := Z.of_nat (length buffer) in
  match tx_list e with
  | [] => Ok (e, buffer, 0)
  | sdu :: next =>
    if size <? s_size sdu then Ok (e, buffer, 0)
    else
      let e := e <| tx_list := next |> in
      let e := match next with [] => e <| tx_end := None |> | _ => e end in
      let ret := s_size sdu in
      let* s := get_sdu (hp e) (s_sdu sdu) in
      let* data := mem_read (sdu_data s) 0 (s_size sdu) in
      let* buffer := mem_write buffer 0 data in
      let e := e <| tx_size := tx_size e - s_size sdu |> in
      let e := on_stats (fun s => s <| txpdu_pkts +=32 1 |> <| txpdu_bytes +=32 size |>) e in
      let* c := account_waited_time now (s_sdu sdu) (common e) in
      let e := add_bs_tx (- s_size sdu) (e <| common := c |>) in
      let* '(h, _) := nr_rlc_free_sdu_segment (hp e) sdu in
      Ok (set_heap h e, buffer, ret)
  end.

Definition nr_rlc_entity_tm_buffer_status (e : nr_rlc_entity_tm_t) (maxsize : Z)
  : nr_rlc_entity_buffer_status_t :=
  Mk_bs 0 (bs_tx_size (bstatus (common e))) 0.

Definition nr_rlc_entity_tm_generate_pdu := generate_tx_pdu.

Definition nr_rlc_entity_tm_recv_sdu (now : Z) (e : nr_rlc_entity_tm_t) (buffer : list Z)
    (sdu_id : Z) : res nr_rlc_entity_tm_t :=
  let size := Z.of_nat (length buffer) in
  let e := on_stats (fun s => s <| rxsdu_pkts +=32 1 |> <| rxsdu_bytes +=64 size |>) e in
  if NR_SDU_MAX <? size then Err Exit
  else
    let e :=
      if negb (sdu_rejected e =? 0) && (u64 (t_log_buffer_full e + 1000) <? t_current e)
      then e <| sdu_rejected := 0 |> <| t_log_buffer_full := t_current e |> else e in
    if tx_maxsize e <? tx_size e + size then
      let e := e <| sdu_rejected := sdu_rejected e + 1 |> in
      Ok (on_stats (fun s => s <| rxsdu_dd_pkts +=32 1 |> <| rxsdu_dd_bytes +=32 size |>) e)
    else
      let e := e <| tx_size := tx_size e + size |> in
      let '(h, sdu) := nr_rlc_new_sdu (hp e) buffer sdu_id in
      let e := set_heap h e in
      let* '(l, t) := nr_rlc_sdu_segment_list_append (tx_list e) (tx_end e) sdu in
      let e := e <| tx_list := l |> <| tx_end := t |> in
      let e := add_bs_tx (s_size sdu) e in
      let* c := set_time_of_arrival now (s_sdu sdu) (common e) in
      Ok (e <| common := c |>).

Definition nr_rlc_entity_tm_set_time (e : nr_rlc_entity_tm_t) (now : Z) : nr_rlc_entity_tm_t :=
  e <| t_current := now |>.

Definition nr_rlc_entity_tm_discard_sdu (e : nr_rlc_entity_tm_t) (sdu_id : Z)
  : nr_rlc_entity_tm_t := e.

Definition clear_entity (e : nr_rlc_entity_tm_t) : res nr_rlc_entity_tm_t :=
  let e := e <| t_current := 0 |> <| t_log_buffer_full := 0 |> <| sdu_rejected := 0 |> in
  let* h := nr_rlc_free_sdu_segment_list (hp e) (tx_list e) in
  let e := set_heap h e in
  let e := e <| tx_list := [] |> <| tx_end := None |> <| tx_size := 0 |> in
  Ok (on_common (fun c => c <| bstatus := (bstatus c) <| bs_tx_size := 0 |> |>) e).

Definition nr_rlc_entity_tm_reestablishment := clear_entity.

(** the entity is freed; what remains is the heap *)
Definition nr_rlc_entity_tm_delete (e : nr_rlc_entity_tm_t) : res heap :=
  let* e := clear_entity e in Ok (hp e).

Definition nr_rlc_entity_tm_available_tx_space (e : nr_rlc_entity_tm_t) : Z :=
  tx_maxsize e - tx_size e.

Definition new_nr_rlc_entity_tm (tx_max : Z) : res nr_rlc_entity_tm_t :=
  let* c := common_init NR_RLC_TM in
  Ok (Mk_tm c 0 0 0 [] None 0 tx_max).

(** ** Invariant *)
Record tm_wf (e : nr_rlc_entity_tm_t) : Prop := {
  tw_heap : heap_wf (tx_list e) (hp e);
  tw_whole : forall g, g ∈ tx_list e -> s_so g = 0;
  tw_end : tx_end e = tail_of (tx_list e);
  tw_size : tx_size e = sum_seg s_size (tx_list e);
  tw_bs : bs_tx_size (bstatus (common e)) = tx_size e;
  tw_avg : ta_wf (txsdu_avg_time_to_tx (common e))
}.

(** ** The specification: a bounded queue of SDUs *)
Record queue := Mk_queue { q_sdus : list (list Z); q_max : Z }.

Definition q_bytes (q : queue) : Z := foldr (fun b acc => Z.of_nat (length b) + acc) 0 (q_sdus q).

Inductive tm_op :=
  | Recv_sdu (now : Z) (buffer : list Z) (sdu_id : Z)
  | Generate_pdu (now : Z) (buffer : list Z)
  | Recv_pdu (buffer : list Z)
  | Set_time (now : Z)
  | Discard_sdu (sdu_id : Z)
  | Reestablish.

(** what an operation shows: the SDU given to the upper layer, the contents
    of the transmission buffer *)
Inductive tm_out :=
  | No_out
  | Delivered (sdu : list Z)
  | Transmitted (buffer : list Z) (size : Z).

Definition q_step (q : queue) (op : tm_op) : queue * tm_out :=
  match op with
  | Recv_sdu _ b _ =>
    (if q_max q <? q_bytes q + Z.of_nat (length b) then q
     else Mk_queue (q_sdus q ++ [b]) (q_max q), No_out)
  | Generate_pdu _ buf =>
    match q_sdus q with
    | [] => (q, Transmitted buf 0)
    | b :: rest =>
      if (length b <=? length buf)%nat
      then (Mk_queue rest (q_max q),
            Transmitted (b ++ drop (length b) buf) (Z.of_nat (length b)))
      else (q, Transmitted buf 0)
    end
  | Recv_pdu b => (q, Delivered b)
  | Set_time _ | Discard_sdu _ => (q, No_out)
  | Reestablish => (Mk_queue [] (q_max q), No_out)
  end.

(** the same on the entity; what [Recv_pdu] delivers is read in the trace *)
Definition tm_step (e : nr_rlc_entity_tm_t) (op : tm_op) : res (nr_rlc_entity_tm_t * tm_out) :=
  match op with
  | Recv_sdu now b id => let* e := nr_rlc_entity_tm_recv_sdu now e b id in Ok (e, No_out)
  | Generate_pdu now buf =>
    let* '(e, buf, n) := nr_rlc_entity_tm_generate_pdu now e buf in Ok (e, Transmitted buf n)
  | Recv_pdu b =>
    let e' := nr_rlc_entity_tm_recv_pdu e b in
    Ok (e', match drop (length (trace (common e))) (trace (common e')) with
            | [deliver_sdu b] => Delivered b
            | _ => No_out
            end)
  | Set_time now => Ok (nr_rlc_entity_tm_set_time e now, No_out)
  | Discard_sdu id => Ok (nr_rlc_entity_tm_discard_sdu e id, No_out)
  | Reestablish => let* e := nr_rlc_entity_tm_reestablishment e in Ok (e, No_out)
  end.

Definition tm_queue (e : nr_rlc_entity_tm_t) : queue :=
  Mk_queue (seg_bytes (hp e) <$> tx_list e) (tx_maxsize e).

(** the C interface bounds an SDU by [NR_SDU_MAX] and stops otherwise *)
Definition tm_op_ok (op : tm_op) : Prop :=
  match op with Recv_sdu _ b _ => Z.of_nat (length b) <= NR_SDU_MAX | _ => True end.

Fixpoint tm_run (e : nr_rlc_entity_tm_t) (ops : list tm_op)
  : res (nr_rlc_entity_tm_t * list tm_out) :=
  match ops with
  | [] => Ok (e, [])
  | op :: ops =>
    let* '(e, o) := tm_step e op in
    let* '(e, os) := tm_run e ops in Ok (e, o :: os)
  end.

Fixpoint q_run (q : queue) (ops : list tm_op) : queue * list tm_out :=
  match ops with
  | [] => (q, [])
  | op :: ops =>
    let '(q, o) := q_step q op in
    let '(q, os) := q_run q ops in (q, o :: os)
  end.

Lemma tm_bytes segs h l :
  heap_wf segs h -> (forall g, g ∈ l -> g ∈ segs) ->
  foldr (fun b acc => Z.of_nat (length b) + acc) 0 (seg_bytes h <$> l) = sum_seg s_size l.
Proof.
  intros W. induction l as [|g l IH]; intros Hl; [done|]. cbn [fmap list_fmap foldr].
  rewrite sum_seg_cons, IH by (intros; apply Hl; by right).
  erewrite seg_bytes_length by (eauto; apply Hl; left). done.
Qed.

Lemma tm_q_bytes e : tm_wf e -> q_bytes (tm_queue e) = tx_size e.
Proof. intros W. unfold q_bytes; cbn. erewrite tm_bytes; eauto using tw_heap. by rewrite (tw_size _ W). Qed.

Lemma tm_recv_sdu_ok now e b id :
  tm_wf e -> Z.of_nat (length b) <= NR_SDU_MAX ->
  exists e', nr_rlc_entity_tm_recv_sdu now e b id = Ok e' /\ tm_wf e' /\
    tm_queue e' = (q_step (tm_queue e) (Recv_sdu now b id)).1.
Proof.
  intros W Hb. pose proof W as [W1 W2 W3 W4 W5 W6].
  unfold nr_rlc_entity_tm_recv_sdu, q_step. rewrite tm_q_bytes by done.
  destruct (NR_SDU_MAX <? _) eqn:E; [lia|]. clear E.
  set (e1 := if (_ && _) then _ else _).
  assert (tm_wf e1 /\ tm_queue e1 = tm_queue e /\ hp e1 = hp e /\ tx_list e1 = tx_list e /\
    tx_end e1 = tx_end e /\ tx_size e1 = tx_size e /\ tx_maxsize e1 = tx_maxsize e)
    as (W' & Q & E1 & E2 & E3 & E4 & E5).
  { unfold e1. destruct (_ && _); split_and!; try done; split; done. }
  clearbody e1. rewrite E4, E5. cbn [q_max tm_queue].
  destruct (tx_maxsize e <? tx_size e + Z.of_nat (length b)) eqn:Ef.
  - eexists. split; [done|]. split; [|cbn; by rewrite <- Q].
    destruct W'. split; done.
  - destruct (nr_rlc_new_sdu (hp e1) b id) as [h g] eqn:En. cbn -[nr_rlc_sdu_segment_list_append nr_rlc_new_sdu].
    as_call3 nr_rlc_new_sdu (hp e1) b id.
    rewrite En. cbn -[nr_rlc_sdu_segment_list_append nr_rlc_new_sdu].
    rewrite E2, E3, W3.
    rewrite list_append_ok by apply (hw_nodup _ _ W1). cbn.
    destruct (new_sdu_wf (tx_list e) (hp e1) b id h g ltac:(rewrite E1; exact W1) Hb En) as (Wh & _ & Hh).
    assert (h_sdus h !! s_sdu g = Some (Mk_sdu (-1) id b (Z.of_nat (length b)) (-1) 1 0 0)) as Hg
      by (rewrite Hh; apply lookup_insert_eq).
    pose proof (new_sdu_bytes (tx_list e) (hp e1) b id h g ltac:(rewrite E1; exact W1) Hb En) as [Hbg Hbo].
    set (c1 := Mk_common _ _ _ _ _ _).
    destruct (set_time_of_arrival_wf (g :: tx_list e) now (s_sdu g) c1 _ Wh Hg)
      as (c & -> & Wc & Et & Eb & Es & Ea & Eon & Eh).
    cbn. eexists. split; [done|].
    assert (s_size g = Z.of_nat (length b) /\ s_so g = 0) as [Hsz Hso]
      by (unfold nr_rlc_new_sdu in En; by injection En as <- <-).
    split.
    + split; cbn -[sum_seg].
      * unfold hp; cbn. by rewrite <- Permutation_cons_append.
      * intros g' [Hg'|Hg']%elem_of_app; [by apply W2|]. apply list_elem_of_singleton in Hg'. congruence.
      * done.
      * rewrite sum_seg_app, sum_seg_cons, Hsz, W4. cbn. lia.
      * rewrite Eb. unfold c1; cbn. destruct W'. lia.
      * rewrite Ea. apply W'.
    + unfold tm_queue; cbn. rewrite E5, fmap_app. f_equal.
      assert (forall g', seg_bytes (sdu_heap c) g' = seg_bytes h g') as Hc.
      { intros g'. destruct Eh as [->| ->]; [done|]. by apply (set_sdu_bytes _ _ _ _ _ Hg). }
      unfold hp; cbn. f_equal.
      * apply list_fmap_ext. intros i g' Hi. rewrite Hc.
        rewrite Hbo by (by apply list_elem_of_lookup_2 in Hi). by rewrite E1.
      * cbn. by rewrite Hc, Hbg.
Qed.

Lemma tm_generate_ok now e buf :
  tm_wf e ->
  exists e' buf' n, nr_rlc_entity_tm_generate_pdu now e buf = Ok (e', buf', n) /\ tm_wf e' /\
    (tm_queue e', Transmitted buf' n) = q_step (tm_queue e) (Generate_pdu now buf).
Proof.
  intros W. pose proof W as [W1 W2 W3 W4 W5 W6].
  unfold nr_rlc_entity_tm_generate_pdu, generate_tx_pdu, q_step. cbn [q_sdus tm_queue].
  destruct (tx_list e) as [|g l] eqn:El; cbn [fmap list_fmap].
  - by exists e, buf, 0.
  - pose proof (seg_bytes_length _ _ g W1 ltac:(left)) as Hlen.
    destruct (Z.of_nat (length buf) <? s_size g) eqn:Es;
      destruct (Nat.leb_spec (length (seg_bytes (hp e) g)) (length buf)) as [Eb|Eb]; try lia.
    { by exists e, buf, 0. }
    destruct (get_sdu_ok _ _ g W1 ltac:(left)) as (s & Eg & Hs & _).
    set (e1 := match l with [] => _ | _ => _ end).
    assert (hp e1 = hp e /\ tx_size e1 = tx_size e /\ common e1 = common e /\
      tx_maxsize e1 = tx_maxsize e /\ tx_end e1 = tail_of l /\ tx_list e1 = l)
      as (E1 & E2 & E3 & E4 & E5 & E6).
    { unfold e1. destruct l; by split_and!. }
    clearbody e1. rewrite E1, Eg. cbn [res_bind].
    pose proof (seg_bytes_read _ _ g s W1 ltac:(left) Hs) as Hr.
    rewrite (W2 g ltac:(left)) in Hr. rewrite Hr. cbn [res_bind].
    rewrite mem_write_total by lia. cbn [res_bind].
    lazymatch goal with |- context [account_waited_time now _ ?x] => set (c := x) end.
    assert (ta_wf (txsdu_avg_time_to_tx c) /\ sdu_heap c = hp e) as [Wt Hc].
    { unfold c; cbn. rewrite E3. done. }
    destruct (account_waited_time_ok now (s_sdu g) c s Wt ltac:(by rewrite Hc)) as (t & -> & Wt').
    cbn [res_bind].
    as_call2 nr_rlc_free_sdu_segment (hp e1) g.
    rewrite E1. destruct (free_sdu_segment_wf g l (hp e) W1) as (h & bf & Ef & Wh & _).
    rewrite Ef. cbn [res_bind]. eexists _, _, _. split; [done|]. split.
    + split; cbn -[sum_seg]; rewrite ?E5, ?E6, ?E2, ?E3; try done.
      * intros g' Hg'. apply W2. by right.
      * rewrite W4, sum_seg_cons. lia.
      * lia.
    + unfold tm_queue; cbn. rewrite E4, E6. rewrite <- Hlen. f_equal.
      f_equal. apply list_fmap_ext. intros i g' Hi. apply list_elem_of_lookup_2 in Hi.
      by apply (free_segment_bytes _ _ _ _ _ _ W1 Ef).
Qed.

Lemma tm_clear_ok e :
  tm_wf e -> exists e', clear_entity e = Ok e' /\ tm_wf e' /\
    tm_queue e' = Mk_queue [] (tx_maxsize e) /\ heap_wf [] (hp e').
Proof.
  intros [W1 W2 W3 W4 W5 W6]. unfold clear_entity.
  destruct (free_list_wf (tx_list e) [] (hp e) ltac:(by rewrite app_nil_r)) as (h & E & Wh).
  as_call2 nr_rlc_free_sdu_segment_list (hp e) (tx_list e).
  rewrite E. cbn. eexists. split; [done|].
  split; [|split; done]. split; cbn; try done. intros g Hg. by apply not_elem_of_nil in Hg.
Qed.

Lemma tm_step_ok e op :
  tm_wf e -> tm_op_ok op ->
  exists e' o, tm_step e op = Ok (e', o) /\ tm_wf e' /\ (tm_queue e', o) = q_step (tm_queue e) op.
Proof.
  intros W Hop. destruct op as [now b id|now buf|b|now|id|]; cbn [tm_step].
  - destruct (tm_recv_sdu_ok now e b id W Hop) as (e' & -> & W' & Q). cbn [res_bind].
    eexists _, _. split; [done|]. split; [done|]. by rewrite Q.
  - destruct (tm_generate_ok now e buf W) as (e' & buf' & n & -> & W' & Q). cbn [res_bind].
    eexists _, _. by rewrite Q.
  - eexists _, _. split; [done|]. split; [destruct W; split; done|].
    cbn. by rewrite drop_app_length.
  - eexists _, _. split; [done|]. split; [destruct W; split; done|done].
  - by eexists _, _.
  - unfold nr_rlc_entity_tm_reestablishment.
    destruct (tm_clear_ok e W) as (e' & -> & W' & Q & _). cbn. eexists _, _. split; [done|].
    split; [done|]. by rewrite Q.
Qed.

Lemma tm_new_wf tx_max e : new_nr_rlc_entity_tm tx_max = Ok e ->
  tm_wf e /\ tm_queue e = Mk_queue [] tx_max.
Proof.
  unfold new_nr_rlc_entity_tm, common_init. intros H. res_inv. cbn in *. split; [|done].
  split; cbn; try done.
  - apply heap_wf_init.
  - intros g Hg. by apply not_elem_of_nil in Hg.
  - by eapply (time_average_new_wf _ 1024); [lia|].
Qed.

(** C29: the transparent mode entity implements the bounded queue: for any
    sequence of operations the entity never fails and its outputs are those
    of the queue, the SDUs in their order, each refused exactly when the
    bytes held exceed [tx_maxsize] and sent exactly when the grant holds it. *)
Theorem tm_refines_queue tx_max e ops :
  new_nr_rlc_entity_tm tx_max = Ok e -> Forall tm_op_ok ops ->
  exists e', tm_run e ops = Ok (e', (q_run (Mk_queue [] tx_max) ops).2) /\
    tm_queue e' = (q_run (Mk_queue [] tx_max) ops).1 /\
    nr_rlc_entity_tm_available_tx_space e' = tx_max - q_bytes (tm_queue e').
Proof.
  intros He Hops. destruct (tm_new_wf _ _ He) as [W Q].
  assert (tx_maxsize e = tx_max) as Hm by (injection Q as _ ->; done).
  rewrite <- Q. clear He Q. revert e W Hm.
  induction Hops as [|op ops Hop Hops IH]; intros e W Hm.
  - exists e. split; [done|]. split; [done|].
    unfold nr_rlc_entity_tm_available_tx_space. by rewrite tm_q_bytes, Hm.
  - cbn [tm_run q_run]. destruct (tm_step_ok e op W Hop) as (e1 & o & -> & W1 & Q1).
    cbn [res_bind]. destruct (q_step (tm_queue e) op) as [q1 o1] eqn:Es. simplify_eq.
    assert (tx_maxsize e1 = tx_maxsize e) as Hm1.
    { change (q_max (tm_queue e1) = q_max (tm_queue e)).
      replace (tm_queue e1) with (q_step (tm_queue e) op).1 by (by rewrite Es).
      clear. destruct op; cbn; repeat case_match; done. }
    destruct (IH e1 W1 Hm1) as (e2 & -> & Q2 & A2). cbn [res_bind].
    destruct (q_run (tm_queue e1) ops) as [q2 os]. cbn in *. eauto.
Qed.

Definition tm_example : list tm_op :=
  [Recv_sdu 5 [1;2;3] 0; Recv_sdu 6 [4;5;6;7;8] 1; Recv_sdu 6 [9] 2;
   Generate_pdu 7 [0;0]; Generate_pdu 7 [0;0;0;0]; Recv_pdu [42]; Generate_pdu 8 [0]].

Lemma tm_refines_queue_witness :
  exists e, new_nr_rlc_entity_tm 8 = Ok e /\
  exists e', tm_run e tm_example =
    Ok (e', [No_out; No_out; No_out; Transmitted [0;0] 0; Transmitted [1;2;3;0] 3;
             Delivered [42]; Transmitted [0] 0]) /\
    nr_rlc_entity_tm_available_tx_space e' = 3.
Proof.
  eexists. split; [reflexivity|].
  destruct (tm_refines_queue 8 _ tm_example eq_refl) as (e' & E & Q & A).
  { repeat constructor; vm_compute; discriminate. }
  exists e'. split; [exact E|]. rewrite A, Q. reflexivity.
Defined.
