(* ===== verification/RlcUm.v ===== *)
(** * The unacknowledged mode RLC entity

    Models [openair2/LAYER2/nr_rlc/nr_rlc_entity_um.c], with the creation
    and the reconfiguration of [nr_rlc_entity.c]. *)
From S2P Require Export Prelude RlcPdu RlcSdu RlcCommon.

Record nr_rlc_entity_um_t := Mk_um {
  common : nr_rlc_entity_t;
  t_reassembly : Z;
  sn_field_length : Z;
  sn_modulus : Z;
  window_size : Z;
  (* runtime rx *)
  rx_next_highest : Z;
  rx_next_reassembly : Z;
  rx_timer_trigger : Z;
  (* runtime tx *)
  tx_next : Z;
  t_current : Z;
  t_log_buffer_full : Z;
  sdu_rejected : Z;
  t_reassembly_start : Z;      (* 0 means not active *)
  (* rx management *)
  rx_list : list nr_rlc_pdu_t;
  rx_size : Z;
  rx_maxsize : Z;
  (* tx management *)
  tx_list : list nr_rlc_sdu_segment_t;
  tx_end : option Z;
  tx_size : Z;
  tx_maxsize : Z
}.
#[export] Instance eta_um : Eta nr_rlc_entity_um_t := fun e =>
  Mk_um (common e) (t_reassembly e) (sn_field_length e) (sn_modulus e) (window_size e)
    (rx_next_highest e) (rx_next_reassembly e) (rx_timer_trigger e) (tx_next e)
    (t_current e) (t_log_buffer_full e) (sdu_rejected e) (t_reassembly_start e)
    (rx_list e) (rx_size e) (rx_maxsize e) (tx_list e) (tx_end e) (tx_size e) (tx_maxsize e).

Definition on_common (f : nr_rlc_entity_t -> nr_rlc_entity_t) (e : nr_rlc_entity_um_t)
  : nr_rlc_entity_um_t := e <| common := f (common e) |>.
Definition on_stats (f : nr_rlc_statistics_t -> nr_rlc_statistics_t) :=
  on_common (fun c => c <| stats := f (stats c) |>).
Definition add_bs_tx (n : Z) :=
  on_common (fun c => c <| bstatus := (bstatus c) <| bs_tx_size := bs_tx_size (bstatus c) + n |> |>).
Definition hp (e : nr_rlc_entity_um_t) : heap := sdu_heap (common e).
Definition set_heap (h : heap) := on_common (fun c => c <| sdu_heap := h |>).

Definition compute_pdu_header_size (e : nr_rlc_entity_um_t) (sdu : nr_rlc_sdu_segment_t) : Z :=
  let header_size := 1 in
  let header_size :=
    if negb (s_is_first sdu && s_is_last sdu) && (sn_field_length e =? 12)
    then header_size + 1 else header_size in
  if negb (s_is_first sdu) then header_size + 2 else header_size.

(** ** PDU RX functions *)

Definition modulus_rx (e : nr_rlc_entity_um_t) (a : Z) : Z :=
  let r := a - (rx_next_highest e - window_size e) in
  let r := if r <? 0 then r + sn_modulus e else r in
  r `rem` sn_modulus e.

Definition sn_compare_rx (e : nr_rlc_entity_um_t) (a b : Z) : Z :=
  modulus_rx e a - modulus_rx e b.

(** [while (l != NULL) { if (l->sn == sn) break; l = l->next; }] *)
Fixpoint find_sn (l : list nr_rlc_pdu_t) (sn : Z) : list nr_rlc_pdu_t :=
  match l with
  | [] => []
  | p :: next => if p_sn p =? sn then l else find_sn next sn
  end.

(** [l != NULL && l->data == NULL] *)
Definition delivered (l : list nr_rlc_pdu_t) : bool :=
  match l with p :: _ => match p_data p with None => true | Some _ => false end | [] => false end.

Fixpoint full_from (l : list nr_rlc_pdu_t) (sn last_byte : Z) : bool :=
  match l with
  | [] => false
  | x :: l =>
    if negb (p_sn x =? sn) then false
    else if last_byte + 1 <? p_so x then false
    else if p_is_last x then true
    else full_from l sn (Z.max last_byte (p_so x + p_size x - 1))
  end.

Definition sdu_full (e : nr_rlc_entity_um_t) (sn : Z) : bool :=
  let l := find_sn (rx_list e) sn in
  if delivered l then false else full_from l sn (-1).

Definition sdu_delivered (e : nr_rlc_entity_um_t) (sn : Z) : bool :=
  delivered (find_sn (rx_list e) sn).

Fixpoint missing_from (l : list nr_rlc_pdu_t) (sn last_byte : Z) : bool :=
  match l with
  | [] => false
  | x :: l =>
    if negb (p_sn x =? sn) then false
    else if last_byte + 1 <? p_so x then true
    else missing_from l sn (Z.max last_byte (p_so x + p_size x - 1))
  end.

Definition sdu_has_missing_bytes (e : nr_rlc_entity_um_t) (sn : Z) : bool :=
  let l := find_sn (rx_list e) sn in
  if delivered l then false else missing_from l sn (-1).

(** the PDUs of [sn] at the head of [l]: the list with their data freed and
    their size zeroed, then [so], [bad_sdu], the bytes and [rx_size] *)
Fixpoint reassemble_loop (l : list nr_rlc_pdu_t) (sn so : Z) (bad_sdu : bool) (sdu : list Z)
    (rx_size : Z) : res (list nr_rlc_pdu_t * Z * bool * list Z * Z) :=
  match l with
  | [] => Ok ([], so, bad_sdu, sdu, rx_size)
  | pdu :: next =>
    if negb (p_sn pdu =? sn) then Ok (l, so, bad_sdu, sdu, rx_size) else
    let len := p_size pdu - (so - p_so pdu) in
    let bad_sdu := bad_sdu || (NR_SDU_MAX <? so + len) in
    let* '(so, sdu) :=
      if negb bad_sdu && (0 <? len) then
        let* data := of_option Null_deref (p_data pdu) in
        let* chunk := mem_read data (so - p_so pdu) len in
        Ok (so + len, sdu ++ chunk)
      else Ok (so, sdu) in
    let* '(next, so, bad_sdu, sdu, rx_size) :=
      reassemble_loop next sn so bad_sdu sdu (rx_size - p_size pdu) in
    Ok (pdu <| p_data := None |> <| p_size := 0 |> :: next, so, bad_sdu, sdu, rx_size)
  end.

(** [while (pdu->sn != sn) pdu = pdu->next], then the loop *)
Fixpoint reassemble_sn (l : list nr_rlc_pdu_t) (sn rx_size : Z)
  : res (list nr_rlc_pdu_t * Z * bool * list Z * Z) :=
  match l with
  | [] => Err Null_deref
  | pdu :: next =>
    if p_sn pdu =? sn then reassemble_loop l sn 0 false [] rx_size
    else
      let* '(next, so, bad_sdu, sdu, rx_size) := reassemble_sn next sn rx_size in
      Ok (pdu :: next, so, bad_sdu, sdu, rx_size)
  end.

Definition reassemble_and_deliver (e : nr_rlc_entity_um_t) (sn : Z) : res nr_rlc_entity_um_t :=
  let* '(l, so, bad_sdu, sdu, size) := reassemble_sn (rx_list e) sn (rx_size e) in
  let e := e <| rx_list := l |> <| rx_size := size |> in
  if bad_sdu : bool then Ok e
  else
    let e := on_common (emit (deliver_sdu sdu)) e in
    Ok (on_stats (fun s => s <| txsdu_pkts +=32 1 |> <| txsdu_bytes +=64 so |>) e).

(** [while (sdu_delivered(entity, sn)) sn = (sn + 1) % sn_modulus]; a search
    that does not end within a turn of the SNs does not end *)
Fixpoint skip_delivered (fuel : nat) (e : nr_rlc_entity_um_t) (sn : Z) : res Z :=
  match fuel with
  | O => Err No_fuel
  | S n =>
    if sdu_delivered e sn then skip_delivered n e ((sn + 1) `rem` sn_modulus e) else Ok sn
  end.

Definition skip_fuel (e : nr_rlc_entity_um_t) : nat := S (Z.to_nat (sn_modulus e)).

(** discards the PDUs at the head of the list out of the reassembly window *)
Fixpoint discard_out_of_window (l : list nr_rlc_pdu_t) (e : nr_rlc_entity_um_t)
  : nr_rlc_entity_um_t :=
  match l with
  | [] => e
  | p :: next =>
    if 0 <=? sn_compare_rx e (p_sn p) (rx_next_highest e) then
      let e := e <| rx_size := rx_size e - p_size p |> <| rx_list := next |> in
      let e := on_stats (fun s => s <| rxpdu_dd_pkts +=32 1 |> <| rxpdu_dd_bytes +=32 p_size p |>
                                    <| rxpdu_ow_pkts +=32 1 |> <| rxpdu_ow_bytes +=32 p_size p |>) e in
      discard_out_of_window next e
    else e
  end.

(** an SDU is complete *)
Definition reception_full (e : nr_rlc_entity_um_t) (x : Z) : res nr_rlc_entity_um_t :=
  let* e := reassemble_and_deliver e x in
  if x =? rx_next_reassembly e then
    let* sn := skip_delivered (skip_fuel e) e (rx_next_reassembly e) in
    Ok (e <| rx_next_reassembly := sn |>)
  else Ok e.

(** it is not: the window moves when [x] is out of it *)
Definition reception_not_full (e : nr_rlc_entity_um_t) (x : Z) : res nr_rlc_entity_um_t :=
  if 0 <=? sn_compare_rx e x (rx_next_highest e) then
    let e := e <| rx_next_highest := (x + 1) `rem` sn_modulus e |> in
    let e := discard_out_of_window (rx_list e) e in
    if 0 <=? sn_compare_rx e (rx_next_reassembly e) (rx_next_highest e) then
      let* sn := skip_delivered (skip_fuel e) e
                   ((rx_next_highest e - window_size e + sn_modulus e) `rem` sn_modulus e) in
      Ok (e <| rx_next_reassembly := sn |>)
    else Ok e
  else Ok e.

(** the two updates of t_reassembly *)
Definition reception_timer (e : nr_rlc_entity_um_t) : nr_rlc_entity_um_t :=
  let next := (rx_next_reassembly e + 1) `rem` sn_modulus e in
  let missing := sdu_has_missing_bytes e (rx_next_reassembly e) in
  let e :=
    if negb (t_reassembly_start e =? 0) &&
       ((sn_compare_rx e (rx_timer_trigger e) (rx_next_reassembly e) <=? 0)
        || (0 <? sn_compare_rx e (rx_timer_trigger e) (rx_next_highest e))
        || ((rx_next_highest e =? next) && negb missing))
    then e <| t_reassembly_start := 0 |> else e in
  if t_reassembly_start e =? 0 then
    if (0 <? sn_compare_rx e (rx_next_highest e) next)
       || ((rx_next_highest e =? next) && missing)
    then e <| t_reassembly_start := t_current e |> <| rx_timer_trigger := rx_next_highest e |>
    else e
  else e.

Definition reception_actions (e : nr_rlc_entity_um_t) (pdu : nr_rlc_pdu_t)
  : res nr_rlc_entity_um_t :=
  let x := p_sn pdu in
  let* e := if sdu_full e x then reception_full e x else reception_not_full e x in
  Ok (reception_timer e).

(** the header of a segment behind the SI bits; [None] is [goto err] or
    [goto discard] *)
Definition decode_header (e : nr_rlc_entity_um_t) (is_first : bool) (d : nr_rlc_pdu_decoder_t)
  : option (Z * Z * nr_rlc_pdu_decoder_t) :=
  '(_, d) ← (if sn_field_length e =? 12 then get_bits_R d 2 else Some (0, d));
  '(sn, d) ← get_bits_R d (Z.to_nat (sn_field_length e));
  '(so, d) ← (if negb is_first then get_bits_R d 16 else Some (0, d));
  if negb is_first && (so =? 0) then None else Some (sn, so, d).

(** the label [discard] *)
Definition discard_pdu (size : Z) (e : nr_rlc_entity_um_t) : nr_rlc_entity_um_t :=
  on_stats (fun s => s <| rxpdu_dd_pkts +=32 1 |> <| rxpdu_dd_bytes +=32 size |>) e.

(** a segment of an SDU *)
Definition recv_segment (e : nr_rlc_entity_um_t) (buffer : list Z) (is_first is_last : bool)
    (sn so byte : Z) : res nr_rlc_entity_um_t :=
  let size := Z.of_nat (length buffer) in
  let data_size := size - byte in
  if data_size <=? 0 then Ok (discard_pdu size e)
  else if rx_maxsize e <? rx_size e + data_size then Ok (discard_pdu size e)
  else if sn_compare_rx e sn (rx_next_reassembly e) <? 0 then Ok (discard_pdu size e)
  else
    let e := e <| rx_size := rx_size e + data_size |> in
    let* data := mem_read buffer (size - data_size) data_size in
    let pdu := nr_rlc_new_pdu sn so is_first is_last data in
    let e := e <| rx_list := nr_rlc_pdu_list_add (sn_compare_rx e) (rx_list e) pdu |> in
    reception_actions e pdu.

Definition nr_rlc_entity_um_recv_pdu (e : nr_rlc_entity_um_t) (buffer : list Z)
  : res nr_rlc_entity_um_t :=
  let size := Z.of_nat (length buffer) in
  let e := on_stats (fun s => s <| rxpdu_pkts +=32 1 |> <| rxpdu_bytes +=32 size |>) e in
  match get_bits_R (nr_rlc_pdu_decoder_init buffer) 2 with
  | None => Ok (discard_pdu size e)
  | Some (si, d) =>
    let is_first := Z.land si 2 =? 0 in
    let is_last := Z.land si 1 =? 0 in
    if is_first && is_last then
      if size <? 2 then Ok (discard_pdu size e)
      else
        let* data := mem_read buffer 1 (size - 1) in
        let e := on_common (emit (deliver_sdu data)) e in
        Ok (on_stats (fun s => s <| txsdu_pkts +=32 1 |> <| txsdu_bytes +=64 (size - 1) |>) e)
    else
      match decode_header e is_first d with
      | None => Ok (discard_pdu size e)
      | Some (sn, so, d) => recv_segment e buffer is_first is_last sn so (d_byte d)
      end
  end.

(** ** TX functions *)

Definition sdu_header_fields (e : nr_rlc_entity_um_t) (sdu : nr_rlc_sdu_segment_t) (sn : Z)
  : list field :=
  [(1 - Z.b2z (s_is_first sdu), 1%nat); (1 - Z.b2z (s_is_last sdu), 1%nat)]
  ++ (if s_is_first sdu && s_is_last sdu then [(0, 6%nat)]
      else (if sn_field_length e =? 12 then [(0, 2%nat)] else [])
           ++ [(sn, Z.to_nat (sn_field_length e))])
  ++ (if negb (s_is_first sdu) then [(s_so sdu, 16%nat)] else []).

(** the buffer and the number of bytes written *)
Definition serialize_sdu (e : nr_rlc_entity_um_t) (sdu : nr_rlc_sdu_segment_t)
    (buffer : list Z) : res (list Z * Z) :=
  let* s := get_sdu (hp e) (s_sdu sdu) in
  let* enc := put_fields (nr_rlc_pdu_encoder_init buffer) (sdu_header_fields e sdu (sdu_sn s)) in
  let* data := mem_read (sdu_data s) (s_so sdu) (s_size sdu) in
  let* buffer := mem_write (e_buffer enc) (e_byte enc) data in
  Ok (buffer, e_byte enc + s_size sdu).

(** the shortened segment and the segment of the remaining bytes; [None] is
    the NULL returned when [pdu_size] is too small, the reference being
    counted nevertheless *)
Definition resegment (sdu : nr_rlc_sdu_segment_t) (e : nr_rlc_entity_um_t) (pdu_size : Z)
  : res (nr_rlc_entity_um_t * option (nr_rlc_sdu_segment_t * nr_rlc_sdu_segment_t)) :=
  let* s := get_sdu (hp e) (s_sdu sdu) in
  let h := set_sdu (hp e) (s_sdu sdu) (s <| sdu_ref_count := sdu_ref_count s + 1 |>) in
  let pdu_header_size := compute_pdu_header_size e (sdu <| s_is_last := false |>) in
  if pdu_size <? pdu_header_size + 1 then Ok (set_heap h e, None)
  else
    let next := sdu <| s_addr := h_next h |> in
    let h := h <| h_next := h_next h + 1 |> in
    let over_size := pdu_header_size + s_size sdu - pdu_size in
    let sdu := sdu <| s_size := s_size sdu - over_size |> <| s_is_last := false |> in
    let next := next <| s_size := over_size |> <| s_so := s_so sdu + s_size sdu |>
                     <| s_is_first := false |> in
    let e := on_stats (fun s => s <| txpdu_segmented +=32 1 |>) (set_heap h e) in
    Ok (e, Some (sdu, next)).

(** the transmission of a segment once it fits: SN, serialisation,
    accounting, and the end of the segment *)
Definition send_segment (now : Z) (e : nr_rlc_entity_um_t) (sdu : nr_rlc_sdu_segment_t)
    (buffer : list Z) : res (nr_rlc_entity_um_t * list Z * Z) :=
  let size := Z.of_nat (length buffer) in
  let e := if negb (s_is_first sdu) && s_is_last sdu
           then e <| tx_next := (tx_next e + 1) `rem` sn_modulus e |> else e in
  let* '(buffer, ret) := serialize_sdu e sdu buffer in
  let e := e <| tx_size := tx_size e - s_size sdu |> in
  let e := on_stats (fun s => s <| txpdu_pkts +=32 1 |> <| txpdu_bytes +=32 size |>) e in
  let* c := account_waited_time now (s_sdu sdu) (common e) in
  let e := e <| common := c |> in
  let* '(h, _) := nr_rlc_free_sdu_segment (hp e) sdu in
  Ok (set_heap h e, buffer, ret).

Definition generate_tx_pdu (now : Z) (e : nr_rlc_entity_um_t) (buffer : list Z)
  : res (nr_rlc_entity_um_t * list Z * Z) :=
  let size := Z.of_nat (length buffer) in
  match tx_list e with
  | [] => Ok (e, buffer, 0)
  | sdu :: next =>
    let pdu_header_size := compute_pdu_header_size e sdu in
    if size <? pdu_header_size + 1 then Ok (e, buffer, 0)
    else
      let e := e <| tx_list := next |> in
      let e := match next with [] => e <| tx_end := None |> | _ => e end in
      let* s := get_sdu (hp e) (s_sdu sdu) in
      let e := set_heap (set_sdu (hp e) (s_sdu sdu) (s <| sdu_sn := tx_next e |>)) e in
      let pdu_size := pdu_header_size + s_size sdu in
      let e := add_bs_tx (- pdu_size) e in
      if size <? pdu_size then
        let* '(e, r) := resegment sdu e size in
        match r with
        | None => Ok (e, buffer, 0)
        | Some (sdu, next_sdu) =>
          let e := e <| tx_list := next_sdu :: tx_list e |> in
          let e := match tx_end e with
                   | None => e <| tx_end := Some (s_addr next_sdu) |>
                   | Some _ => e end in
          let e := on_stats (fun s => s <| txpdu_segmented +=32 1 |>) e in
          let e := add_bs_tx (compute_pdu_header_size e next_sdu + s_size next_sdu) e in
          send_segment now e sdu buffer
        end
      else send_segment now e sdu buffer
  end.

Definition nr_rlc_entity_um_buffer_status (e : nr_rlc_entity_um_t) (maxsize : Z)
  : nr_rlc_entity_buffer_status_t :=
  Mk_bs 0 (bs_tx_size (bstatus (common e))) 0.

Definition nr_rlc_entity_um_generate_pdu := generate_tx_pdu.

(** ** SDU RX functions *)

Definition nr_rlc_entity_um_recv_sdu (now : Z) (e : nr_rlc_entity_um_t) (buffer : list Z)
    (sdu_id : Z) : res nr_rlc_entity_um_t :=
  let size := Z.of_nat (length buffer) in
  let e := on_stats (fun s => s <| rxsdu_pkts +=32 1 |> <| rxsdu_bytes +=64 size |>) e in
  if NR_SDU_MAX <? size then Err Exit
  else
    let e :=
      if negb (sdu_rejected e =? 0) && (u64 (t_log_buffer_full e + 1000) <? t_current e)
      then e <| sdu_rejected := 0 |> <| t_log_buffer_full := t_current e |> else e in
    if tx_maxsize e <? tx_size e + size then
      let e := e <| sdu_rejected := sdu_rejected e + 1 |> in
      Ok (on_stats (fun s => s <| rxsdu_dd_pkts +=32 1 |> <| rxsdu_dd_bytes +=32 size |>) e)
    else
      let e := e <| tx_size := tx_size e + size |> in
      let '(h, sdu) := nr_rlc_new_sdu (hp e) buffer sdu_id in
      let e := set_heap h e in
      let* '(l, t) := nr_rlc_sdu_segment_list_append (tx_list e) (tx_end e) sdu in
      let e := e <| tx_list := l |> <| tx_end := t |> in
      let e := add_bs_tx (compute_pdu_header_size e sdu + s_size sdu) e in
      let* c := set_time_of_arrival now (s_sdu sdu) (common e) in
      Ok (e <| common := c |>).

(** ** Time and timers *)

(** discards the segments of SN below [rx_next_reassembly]; [rx_size] is not
    updated *)
Fixpoint discard_old_segments (l : list nr_rlc_pdu_t) (e : nr_rlc_entity_um_t)
  : nr_rlc_entity_um_t :=
  match l with
  | [] => e
  | p :: next =>
    if sn_compare_rx e (p_sn p) (rx_next_reassembly e) <? 0 then
      let e := e <| rx_list := next |> in
      let e := on_stats (fun s => s <| rxpdu_dd_pkts +=32 1 |>
                                    <| rxpdu_dd_bytes +=32 p_size p |>) e in
      discard_old_segments next e
    else e
  end.

Definition check_t_reassembly (e : nr_rlc_entity_um_t) : res nr_rlc_entity_um_t :=
  if (t_reassembly_start e =? 0)
     || (t_current e <=? u64 (t_reassembly_start e + t_reassembly e))
  then Ok e
  else
    let e := e <| t_reassembly_start := 0 |> in
    let* sn := skip_delivered (skip_fuel e) e (rx_timer_trigger e) in
    let e := e <| rx_next_reassembly := sn |> in
    let e := discard_old_segments (rx_list e) e in
    Ok (if (0 <? sn_compare_rx e (rx_next_highest e)
                   ((rx_next_reassembly e + 1) `rem` sn_modulus e))
           || ((rx_next_highest e =? rx_next_reassembly e + 1)
               && sdu_has_missing_bytes e (rx_next_reassembly e))
        then e <| t_reassembly_start := t_current e |> <| rx_timer_trigger := rx_next_highest e |>
        else e).

Definition nr_rlc_entity_um_set_time (e : nr_rlc_entity_um_t) (now : Z)
  : res nr_rlc_entity_um_t :=
  check_t_reassembly (e <| t_current := now |>).

(** ** Discard, re-establishment, deletion *)

(** [tx_size] is not updated *)
Definition nr_rlc_entity_um_discard_sdu (e : nr_rlc_entity_um_t) (sdu_id : Z)
  : res nr_rlc_entity_um_t :=
  let* r := find_upper_id (hp e) (tx_list e) sdu_id in
  match r with
  | None => Ok e
  | Some (before, cur, after) =>
    if negb (s_is_first cur) || negb (s_is_last cur) then Ok e
    else
      let e := e <| tx_list := before ++ after |> in
      let e := if decide (tx_end e = Some (s_addr cur))
               then e <| tx_end := tail_of before |> else e in
      let e := add_bs_tx (- (compute_pdu_header_size e cur + s_size cur)) e in
      let* '(h, _) := nr_rlc_free_sdu_segment (hp e) cur in
      Ok (set_heap h e)
  end.

Definition clear_entity (e : nr_rlc_entity_um_t) : res nr_rlc_entity_um_t :=
  let e := e <| rx_next_highest := 0 |> <| rx_next_reassembly := 0 |> <| rx_timer_trigger := 0 |>
             <| tx_next := 0 |> <| t_current := 0 |> <| t_log_buffer_full := 0 |>
             <| sdu_rejected := 0 |> <| t_reassembly_start := 0 |>
             <| rx_list := [] |> <| rx_size := 0 |> in
  let* h := nr_rlc_free_sdu_segment_list (hp e) (tx_list e) in
  let e := set_heap h e in
  let e := e <| tx_list := [] |> <| tx_end := None |> <| tx_size := 0 |> in
  Ok (on_common (fun c => c <| bstatus := (bstatus c) <| bs_tx_size := 0 |> |>) e).

Definition nr_rlc_entity_um_reestablishment := clear_entity.

(** the entity is freed; what remains is the heap *)
Definition nr_rlc_entity_um_delete (e : nr_rlc_entity_um_t) : res heap :=
  let* e := clear_entity e in Ok (hp e).

Definition nr_rlc_entity_um_available_tx_space (e : nr_rlc_entity_um_t) : Z :=
  tx_maxsize e - tx_size e.

(** ** Creation and reconfiguration ([nr_rlc_entity.c]) *)

Definition new_nr_rlc_entity_um (rx_max tx_max t_reass snlen : Z) : res nr_rlc_entity_um_t :=
  if negb ((snlen =? 6) || (snlen =? 12)) then Err Exit
  else
    let modulus := Z.shiftl 1 snlen in
    let* c := common_init NR_RLC_UM in
    Ok (Mk_um c t_reass snlen modulus (modulus `quot` 2) 0 0 0 0 0 0 0 0 [] 0 rx_max
          [] None 0 tx_max).

(** the modulus and the window keep the values of the creation *)
Definition nr_rlc_entity_um_reconfigure (e : nr_rlc_entity_um_t) (t_reass : Z)
    (snlen : option Z) : nr_rlc_entity_um_t :=
  let e := e <| t_reassembly := t_reass |> in
  match snlen with Some n => e <| sn_field_length := n |> | None => e end.
