(* ===== verification/RlcUmTx.v ===== *)
(** * Transmission side of the UM entity

    The invariant of the transmission queue and what each operation of
    [RlcUm] does with it. *)
From S2P Require Export RlcUm.

Record um_wf (e : nr_rlc_entity_um_t) : Prop := {
  uw_snlen : sn_field_length e = 6 \/ sn_field_length e = 12;
  uw_modulus : sn_modulus e = 2 ^ sn_field_length e;
  uw_window : window_size e = 2 ^ (sn_field_length e - 1);
  uw_next : 0 <= tx_next e < sn_modulus e;
  uw_heap : heap_wf (tx_list e) (hp e);
  uw_last : forall g, g ∈ tx_list e -> s_is_last g = true /\ s_is_first g = (s_so g =? 0);
  uw_whole : forall g, g ∈ tail (tx_list e) -> s_so g = 0;
  uw_end : tx_end e = tail_of (tx_list e);
  uw_size : sum_seg s_size (tx_list e) <= tx_size e;
  uw_bs : bs_tx_size (bstatus (common e)) =
          sum_seg (fun g => compute_pdu_header_size e g + s_size g) (tx_list e);
  uw_avg : ta_wf (txsdu_avg_time_to_tx (common e))
}.

Lemma um_header_pos e g : 1 <= compute_pdu_header_size e g <= 4.
Proof. unfold compute_pdu_header_size. repeat case_match; lia. Qed.

(** the size computed beforehand is the size of the header written *)
Lemma um_header_bits e g sn :
  sn_field_length e = 6 \/ sn_field_length e = 12 ->
  length (fields_bits (sdu_header_fields e g sn)) =
    (8 * Z.to_nat (compute_pdu_header_size e g))%nat.
Proof.
  unfold sdu_header_fields, compute_pdu_header_size, fields_bits.
  intros [H|H]; rewrite H; destruct (s_is_first g), (s_is_last g); reflexivity.
Qed.

Lemma um_header_small e g sn :
  sn_field_length e = 6 \/ sn_field_length e = 12 ->
  Forall (fun f : field => (f.2 <= 31)%nat) (sdu_header_fields e g sn).
Proof.
  intros [H|H]; unfold sdu_header_fields; rewrite H;
    destruct (s_is_first g), (s_is_last g); repeat constructor; cbn; lia.
Qed.

(** the PDU of a segment: a header that codes the segment and its bytes *)
Definition um_pdu (e : nr_rlc_entity_um_t) (g : nr_rlc_sdu_segment_t) (sn : Z)
    (data pdu : list Z) : Prop :=
  exists hdr, pdu = hdr ++ data /\
    Z.of_nat (length hdr) = compute_pdu_header_size e g /\
    reads pdu (fields_bits (sdu_header_fields e g sn)).

Lemma um_header_config e e' g :
  sn_field_length e' = sn_field_length e ->
  compute_pdu_header_size e' g = compute_pdu_header_size e g.
Proof. unfold compute_pdu_header_size. by intros ->. Qed.

Lemma um_pdu_sizes_config e e' l :
  sn_field_length e' = sn_field_length e ->
  sum_seg (fun g => compute_pdu_header_size e' g + s_size g) l =
  sum_seg (fun g => compute_pdu_header_size e g + s_size g) l.
Proof. intros. apply sum_seg_ext. intros g _. by rewrite (um_header_config e e'). Qed.

Lemma um_pdu_config e e' g sn data pdu :
  sn_field_length e' = sn_field_length e -> um_pdu e' g sn data pdu -> um_pdu e g sn data pdu.
Proof.
  intros E (hdr & ? & Hl & Hr). exists hdr. unfold sdu_header_fields in *.
  rewrite E in Hr. by rewrite <- (um_header_config e e').
Qed.

Lemma um_serialize_ok e g segs s buf :
  sn_field_length e = 6 \/ sn_field_length e = 12 ->
  heap_wf segs (hp e) -> g ∈ segs -> h_sdus (hp e) !! s_sdu g = Some s ->
  compute_pdu_header_size e g + s_size g <= Z.of_nat (length buf) ->
  exists buf', let n := compute_pdu_header_size e g + s_size g in
    serialize_sdu e g buf = Ok (buf', n) /\ length buf' = length buf /\
    um_pdu e g (sdu_sn s) (seg_bytes (hp e) g) (take (Z.to_nat n) buf').
Proof.
  intros Hl W Hg Hs Hb. unfold serialize_sdu, get_sdu. rewrite Hs. cbn [of_option res_bind].
  pose proof (seg_bytes_length _ _ _ W Hg) as Hlen.
  pose proof (um_header_pos e g) as Hp.
  destruct (serialize_fields (sdu_header_fields e g (sdu_sn s)) buf (seg_bytes (hp e) g)
              (Z.to_nat (compute_pdu_header_size e g)))
    as (enc & buf' & hdr & E & Eb & Em & El & Eh & Et & Er).
  - by apply um_header_small.
  - by apply um_header_bits.
  - lia.
  - exists buf'. rewrite E. cbn [res_bind]. rewrite (seg_bytes_read _ _ _ _ W Hg Hs).
    cbn [res_bind]. rewrite Em. cbn [res_bind]. rewrite Eb, Z2Nat.id by lia.
    split; [done|]. split; [done|]. exists hdr.
    replace (Z.to_nat _) with (Z.to_nat (compute_pdu_header_size e g) + length (seg_bytes (hp e) g))%nat by lia.
    rewrite Et. split; [done|]. split; [lia|done].
Qed.

(** [tx_next] moves when the last segment of a segmented SDU is sent *)
Definition um_next_sn (e : nr_rlc_entity_um_t) (g : nr_rlc_sdu_segment_t) : Z :=
  if negb (s_is_first g) && s_is_last g then (tx_next e + 1) `rem` sn_modulus e else tx_next e.

Lemma um_next_sn_range e g :
  0 <= tx_next e < sn_modulus e -> 0 <= um_next_sn e g < sn_modulus e.
Proof. intros. unfold um_next_sn. case_match; [apply rem_bound|]; lia. Qed.

(** the segment [g], out of the list, is sent in a buffer that holds it *)
Lemma um_send_ok now e g s buf :
  sn_field_length e = 6 \/ sn_field_length e = 12 ->
  ta_wf (txsdu_avg_time_to_tx (common e)) ->
  heap_wf (g :: tx_list e) (hp e) -> h_sdus (hp e) !! s_sdu g = Some s ->
  compute_pdu_header_size e g + s_size g <= Z.of_nat (length buf) ->
  exists e' buf', let n := compute_pdu_header_size e g + s_size g in
    send_segment now e g buf = Ok (e', buf', n) /\ length buf' = length buf /\
    um_pdu e g (sdu_sn s) (seg_bytes (hp e) g) (take (Z.to_nat n) buf') /\
    heap_wf (tx_list e) (hp e') /\
    (forall g', g' ∈ tx_list e -> sdu_data_of (hp e') g' = sdu_data_of (hp e) g') /\
    e' = e <| tx_next := um_next_sn e g |> <| tx_size := tx_size e - s_size g |>
           <| common := common e' |> /\
    bstatus (common e') = bstatus (common e) /\ trace (common e') = trace (common e) /\
    ta_wf (txsdu_avg_time_to_tx (common e')).
Proof.
  intros Hl Ht W Hs Hb. unfold send_segment.
  set (e1 := if (negb (s_is_first g) && s_is_last g) then _ else _).
  assert (e1 = e <| tx_next := um_next_sn e g |>) as ->.
  { unfold e1, um_next_sn. destruct e, (s_is_first g), (s_is_last g); done. }
  as_call3 serialize_sdu e g buf.
  destruct (um_serialize_ok e g _ s buf Hl W ltac:(left) Hs Hb) as (buf' & E & El & Hp).
  rewrite E. cbn [res_bind].
  lazymatch goal with |- context [account_waited_time now _ ?x] => set (c := x) end.
  destruct (account_waited_time_ok now (s_sdu g) c s Ht Hs) as (t & -> & Wt). cbn [res_bind].
  as_call2 nr_rlc_free_sdu_segment (hp e) g.
  destruct (free_sdu_segment_wf g _ (hp e) W) as (h & b & Ef & Wh & _). rewrite Ef.
  cbn [res_bind]. eexists _, buf'. split; [done|]. split; [done|]. split; [done|].
  split; [done|]. split; [|done].
  intros g' Hg'. by apply (free_segment_data _ _ _ _ _ _ W Ef).
Qed.

(** the only grant that loses data: an SDU not yet segmented, of two bytes or
    more, with the 12-bit header and a buffer of two bytes *)
Definition um_bad_grant (e : nr_rlc_entity_um_t) (n : Z) : bool :=
  match tx_list e with
  | g :: _ => (sn_field_length e =? 12) && s_is_first g && (n =? 2) && (1 <? s_size g)
  | [] => false
  end.

(** cutting the head [g] of the queue so that its PDU fills [n] bytes *)
Lemma um_resegment_ok e g rest s n :
  sn_field_length e = 6 \/ sn_field_length e = 12 ->
  heap_wf (g :: rest) (hp e) -> h_sdus (hp e) !! s_sdu g = Some s ->
  s_is_last g = true -> s_is_first g = (s_so g =? 0) ->
  compute_pdu_header_size e g + 1 <= n < compute_pdu_header_size e g + s_size g ->
  (sn_field_length e =? 12) && s_is_first g && (n =? 2) = false ->
  exists e' g1 g2, resegment g e n = Ok (e', Some (g1, g2)) /\
    e' = e <| common := common e' |> /\ bstatus (common e') = bstatus (common e) /\
    trace (common e') = trace (common e) /\
    txsdu_avg_time_to_tx (common e') = txsdu_avg_time_to_tx (common e) /\
    heap_wf (g1 :: g2 :: rest) (hp e') /\
    h_sdus (hp e') !! s_sdu g = Some (s <| sdu_ref_count := sdu_ref_count s + 1 |>) /\
    (forall g', sdu_data_of (hp e') g' = sdu_data_of (hp e) g') /\
    compute_pdu_header_size e g1 + s_size g1 = n /\ 0 < s_size g1 < s_size g /\
    s_sdu g1 = s_sdu g /\ s_so g1 = s_so g /\ s_is_first g1 = s_is_first g /\
    s_is_last g1 = false /\
    s_sdu g2 = s_sdu g /\ s_so g2 = s_so g + s_size g1 /\ s_size g2 = s_size g - s_size g1 /\
    s_is_first g2 = false /\ s_is_last g2 = true.
Proof.
  intros Hl W Hs Hla Hfi Hn Hb. unfold resegment, get_sdu. rewrite Hs. cbn [of_option res_bind].
  destruct (hw_segs _ _ W g ltac:(left)) as (s' & Hs' & I). simplify_eq.
  set (hs := compute_pdu_header_size e (g <| s_is_last := false |>)).
  assert (compute_pdu_header_size e g <= hs <= compute_pdu_header_size e g + 1 /\ hs + 1 <= n) as Hhs.
  { revert Hn Hb. unfold hs, compute_pdu_header_size; cbn. rewrite Hla.
    destruct Hl as [H|H]; rewrite H; cbn; destruct (s_is_first g); cbn; lia. }
  destruct (n <? hs + 1) eqn:E; [lia|]. unfold seg_in_sdu in I.
  eexists _, _, _. split; [done|]. cbn -[compute_pdu_header_size].
  split; [done|]. split; [done|]. split; [done|]. split; [done|]. split.
  - apply (split_segment_wf g _ _ rest (hp e) s W Hs); try done.
    + unfold seg_in_sdu; cbn. split_and!; first [lia | apply I].
    + unfold seg_in_sdu; cbn. split_and!; try lia; try done.
      destruct I as (_ & _ & _ & _ & I). rewrite I. lia.
  - split; [apply lookup_insert_eq|].
    split; [intros g'; by apply (set_sdu_data (hp e) _ _ _ _ Hs)|].
    match goal with |- compute_pdu_header_size e ?x + _ = _ /\ _ =>
      change (compute_pdu_header_size e x) with hs end.
    split_and!; try done; lia.
Qed.

(** what a successful generation does: the PDU of the head of the queue, the
    head being consumed or cut *)
Record um_sent (e : nr_rlc_entity_um_t) (pdu : list Z) (e' : nr_rlc_entity_um_t)
    (g g1 : nr_rlc_sdu_segment_t) (rest : list nr_rlc_sdu_segment_t) : Prop := {
  us_queue : tx_list e = g :: rest;
  us_pdu : um_pdu e g1 (tx_next e)
             (take (Z.to_nat (s_size g1)) (drop (Z.to_nat (s_so g)) (sdu_data_of (hp e) g))) pdu;
  us_so : s_so g1 = s_so g;
  us_first : s_is_first g1 = s_is_first g;
  us_trace : trace (common e') = trace (common e);
  us_rest : (g1 = g /\ tx_list e' = rest /\ tx_next e' = um_next_sn e g) \/
    (s_is_last g1 = false /\ 0 < s_size g1 < s_size g /\ tx_next e' = tx_next e /\
     exists g2, tx_list e' = g2 :: rest /\ s_so g2 = s_so g + s_size g1 /\
       sdu_data_of (hp e') g2 = sdu_data_of (hp e) g);
  us_data : forall g', g' ∈ rest -> sdu_data_of (hp e') g' = sdu_data_of (hp e) g';
  us_config : sn_field_length e' = sn_field_length e /\ sn_modulus e' = sn_modulus e
}.

Lemma um_generate_ok now e buf :
  um_wf e -> um_bad_grant e (Z.of_nat (length buf)) = false ->
  exists e' buf' n, generate_tx_pdu now e buf = Ok (e', buf', n) /\ um_wf e' /\
    length buf' = length buf /\
    ((n = 0 /\ e' = e /\ buf' = buf /\
      match tx_list e with
      | [] => True
      | g :: _ => Z.of_nat (length buf) <= compute_pdu_header_size e g
      end) \/
     (0 < n <= Z.of_nat (length buf) /\
      exists g g1 rest, um_sent e (take (Z.to_nat n) buf') e' g g1 rest)).
Proof.
  intros W Hb. unfold generate_tx_pdu, um_bad_grant in *.
  destruct (tx_list e) as [|g rest] eqn:El.
  { exists e, buf, 0. split; [done|]. split; [done|]. split; [done|]. left. done. }
  destruct (Z.of_nat (length buf) <? compute_pdu_header_size e g + 1) eqn:Es.
  { exists e, buf, 0. split; [done|]. split; [done|]. split; [done|]. left. split_and!; try done. lia. }
  pose proof W as [Wl Wm Ww Wn Wh Wla Wwh We Wsz Wbs Wa]. rewrite El in *.
  destruct (get_sdu_ok _ _ g Wh ltac:(left)) as (s & Eg & Hs & I).
  destruct (Wla g ltac:(left)) as [Hla Hfi].
  set (e1 := match rest with [] => _ | _ => _ end).
  assert (e1 = e <| tx_list := rest |> <| tx_end := tail_of rest |>) as ->.
  { unfold e1. destruct rest; [done|]. destruct e; cbn in *. by rewrite We. }
  as_call2 get_sdu (hp e) (s_sdu g). rewrite Eg. cbn [res_bind].
  set (s1 := s <| sdu_sn := _ |>).
  set (e2 := add_bs_tx _ _).
  assert (hp e2 = set_sdu (hp e) (s_sdu g) s1) as Eh by done.
  assert (heap_wf (g :: rest) (hp e2)) as W2 by (rewrite Eh; by eapply set_sdu_wf).
  assert (h_sdus (hp e2) !! s_sdu g = Some s1) as Hs1 by (rewrite Eh; apply lookup_insert_eq).
  assert (forall g', sdu_data_of (hp e2) g' = sdu_data_of (hp e) g') as Hd
    by (intros; rewrite Eh; by apply (set_sdu_data _ _ _ _ _ Hs)).
  pose proof (um_header_pos e g) as Hp.
  assert (forall g0, g0 ∈ rest -> s_so g0 = 0) as Hrest by exact Wwh.
  pose proof (um_next_sn_range e g Wn) as Hn'.
  destruct (Z.of_nat (length buf) <? compute_pdu_header_size e g + s_size g) eqn:Ec.
  - (* the head is cut *)
    destruct (um_resegment_ok e2 g rest s1 (Z.of_nat (length buf)) Wl W2 Hs1 Hla Hfi)
      as (e3 & g1 & g2 & Er & Ee3 & B3 & T3 & A3 & W3 & Hs3 & Hd3 & Hsz & Hlt & Hsd1 & Hso1 & Hf1
          & Hla1 & Hsd2 & Hso2 & Hsz2 & Hf2 & Hla2).
    { change (compute_pdu_header_size e2 g) with (compute_pdu_header_size e g). lia. }
    { change (sn_field_length e2) with (sn_field_length e).
      destruct (sn_field_length e =? 12), (s_is_first g), (Z.of_nat (length buf) =? 2) eqn:?; try done.
      assert (Z.of_nat (length buf) = 2) as Hb2 by lia. exfalso.
      revert Es Ec Hb. cbn. unfold compute_pdu_header_size in *. repeat case_match; lia. }
    rewrite Er. cbn [res_bind].
    lazymatch goal with |- context [match tx_end ?x with Some _ => ?b | None => ?a end] =>
      set (e3' := match tx_end x with Some _ => b | None => a end) end.
    assert (e3' = e3 <| tx_list := g2 :: rest |> <| tx_end := tail_of (g2 :: rest) |>) as ->.
    { unfold e3'. rewrite Ee3. clear. destruct rest as [|g3 rest]; [done|].
      cbn -[last]. unfold tail_of. rewrite !last_cons_cons.
      destruct (last (g3 :: rest)) eqn:E5; [done|]. by apply last_None in E5. }
    match goal with |- context [send_segment now ?x g1 buf] => set (e4 := x) end.
    assert (sn_field_length e4 = sn_field_length e) as Hl4 by (unfold e4; by rewrite Ee3).
    assert (bs_tx_size (bstatus (common e4)) = bs_tx_size (bstatus (common e3))
              + (compute_pdu_header_size e3 g2 + s_size g2)) as Eb4 by done.
    destruct (um_send_ok now e4 g1 (s1 <| sdu_ref_count := sdu_ref_count s1 + 1 |>) buf)
      as (e5 & buf' & E5 & El5 & Hp5 & W5 & Hd5 & Ee5 & B5 & T5 & A5).
    { by rewrite Hl4. }
    { change (ta_wf (txsdu_avg_time_to_tx (common e3))). rewrite A3. done. }
    { exact W3. }
    { rewrite Hsd1. exact Hs3. }
    { unfold compute_pdu_header_size in *. rewrite Hl4. change (sn_field_length e2) with (sn_field_length e) in Hsz. lia. }
    exists e5, buf', (compute_pdu_header_size e4 g1 + s_size g1). split; [exact E5|].
    assert (sn_field_length e5 = sn_field_length e) as Hl5 by (by rewrite Ee5).
    assert (sn_modulus e5 = sn_modulus e) as Hm5 by (rewrite Ee5; unfold e4; by rewrite Ee3).
    assert (tx_next e5 = tx_next e) as Hn5.
    { rewrite Ee5. cbn. unfold um_next_sn. rewrite Hla1, andb_false_r.
      unfold e4; by rewrite Ee3. }
    assert (tx_list e5 = g2 :: rest) as Hq5 by (by rewrite Ee5).
    pose proof (um_header_pos e4 g1).
    assert (forall g', g' ∈ g2 :: rest -> sdu_data_of (hp e5) g' = sdu_data_of (hp e) g') as Hd'.
    { intros g' Hg'. rewrite Hd5 by done. change (hp e4) with (hp e3). by rewrite Hd3, Hd. }
    split; [|split; [done|right; split; [split; [lia|]|exists g, g1, rest]]].
    + split; rewrite ?Hl5, ?Hm5, ?Hn5, ?Hq5; try done.
      * rewrite Ee5. unfold e4; by rewrite Ee3.
      * intros g' [->|Hg']%elem_of_cons; [|apply Wla; by right]. rewrite Hla2, Hf2. split; [done|].
        pose proof (hw_segs _ _ Wh g ltac:(left)) as (? & _ & I'). unfold seg_in_sdu in I'. lia.
      * by rewrite Ee5.
      * rewrite sum_seg_cons, Hsz2. rewrite sum_seg_cons in Wsz.
        rewrite Ee5. cbn. replace (tx_size e3) with (tx_size e) by (by rewrite Ee3). lia.
      * rewrite B5, Eb4, B3. unfold e2. cbn -[sum_seg compute_pdu_header_size].
        rewrite Wbs, !sum_seg_cons, (um_header_config e e3), (um_header_config e e5) by done.
        rewrite (um_pdu_sizes_config e e5 rest) by done. lia.
    + rewrite (um_header_config e2 e4), Hsz by done. lia.
    + split; try done.
      * apply (um_pdu_config e e4); [done|]. rewrite seg_bytes_data in Hp5.
        rewrite Hso1 in Hp5. change (hp e4) with (hp e3) in Hp5.
        replace (sdu_data_of (hp e3) g1) with (sdu_data_of (hp e) g) in Hp5; [done|].
        rewrite Hd3, Hd. unfold sdu_data_of. by rewrite Hsd1.
      * rewrite T5. exact T3.
      * right. split_and!; try done; [lia|lia|]. exists g2. split_and!; try done.
        rewrite Hd' by left. unfold sdu_data_of. by rewrite Hsd2.
      * intros g' Hg'. apply Hd'. by right.
  - (* the rest of the head fits *)
    destruct (um_send_ok now e2 g s1 buf)
      as (e5 & buf' & E5 & El5 & Hp5 & W5 & Hd5 & Ee5 & B5 & T5 & A5); try done.
    { change (compute_pdu_header_size e2 g) with (compute_pdu_header_size e g). lia. }
    exists e5, buf', (compute_pdu_header_size e2 g + s_size g). split; [exact E5|].
    change (compute_pdu_header_size e2 g) with (compute_pdu_header_size e g) in *.
    assert (sn_field_length e5 = sn_field_length e) as Hl5 by (by rewrite Ee5).
    assert (tx_list e5 = rest) as Hq5 by (by rewrite Ee5).
    pose proof (proj2 (proj2 (proj2 I))) as _.
    assert (0 <= s_size g) by (by destruct I as (? & ? & _)).
    assert (forall g', g' ∈ rest -> sdu_data_of (hp e5) g' = sdu_data_of (hp e) g') as Hd'.
    { intros g' Hg'. by rewrite Hd5, Hd. }
    split; [|split; [done|right; split; [split; lia|exists g, g, rest]]].
    + split; rewrite ?Hl5, ?Hq5; try done; try (by rewrite Ee5).
      * intros g' Hg'. apply Wla. by right.
      * intros g' Hg'. apply Hrest. destruct rest; [done|by right].
      * rewrite sum_seg_cons in Wsz. rewrite Ee5. cbn. lia.
      * rewrite B5. unfold e2. cbn -[sum_seg compute_pdu_header_size].
        rewrite Wbs, !sum_seg_cons.
        rewrite (um_pdu_sizes_config e e5 rest) by done. lia.
    + split; try done.
      * apply (um_pdu_config e e2); [done|]. rewrite seg_bytes_data, Hd in Hp5. exact Hp5.
      * left. split_and!; try done. by rewrite Ee5.
      * split; by rewrite Ee5.
Qed.

(** the receiving half of an entity is untouched by the upper layer *)
Definition um_same_rx (e e' : nr_rlc_entity_um_t) : Prop :=
  sn_field_length e' = sn_field_length e /\ sn_modulus e' = sn_modulus e /\
  tx_next e' = tx_next e /\ tx_maxsize e' = tx_maxsize e /\
  trace (common e') = trace (common e).

Lemma um_recv_sdu_ok now e b id :
  um_wf e -> Z.of_nat (length b) <= NR_SDU_MAX ->
  exists e', nr_rlc_entity_um_recv_sdu now e b id = Ok e' /\ um_wf e' /\ um_same_rx e e' /\
    if tx_maxsize e <? tx_size e + Z.of_nat (length b)
    then tx_list e' = tx_list e /\ hp e' = hp e /\ tx_size e' = tx_size e
    else exists g, tx_list e' = tx_list e ++ [g] /\ s_so g = 0 /\
      s_size g = Z.of_nat (length b) /\ sdu_data_of (hp e') g = b /\
      tx_size e' = tx_size e + Z.of_nat (length b) /\
      forall g', g' ∈ tx_list e -> sdu_data_of (hp e') g' = sdu_data_of (hp e) g'.
Proof.
  intros W Hb. pose proof W as [Wl Wm Ww Wn Wh Wla Wwh We Wsz Wbs Wa].
  unfold nr_rlc_entity_um_recv_sdu. destruct (NR_SDU_MAX <? _) eqn:E; [lia|]. clear E.
  set (e1 := if (_ && _) then _ else _).
  assert (um_wf e1 /\ um_same_rx e e1 /\ hp e1 = hp e /\ tx_list e1 = tx_list e /\
    tx_end e1 = tx_end e /\ tx_size e1 = tx_size e /\ tx_maxsize e1 = tx_maxsize e)
    as (W' & Q & E1 & E2 & E3 & E4 & E5).
  { unfold e1. destruct (_ && _); split_and!; try done; split; done. }
  clearbody e1. rewrite E4, E5.
  destruct (tx_maxsize e <? tx_size e + Z.of_nat (length b)) eqn:Ef.
  - eexists. split; [done|]. split; [destruct W'; split; done|]. done.
  - destruct (nr_rlc_new_sdu (hp e1) b id) as [h g] eqn:En.
    as_call3 nr_rlc_new_sdu (hp e1) b id. rewrite En.
    as_call3 nr_rlc_sdu_segment_list_append (tx_list e1) (tx_end e1) g.
    rewrite E2, E3, We. rewrite list_append_ok by apply (hw_nodup _ _ Wh). cbn [res_bind].
    rewrite <- E1 in Wh.
    destruct (new_sdu_wf _ (hp e1) b id h g Wh Hb En) as (Wh' & _ & Hh).
    assert (h_sdus h !! s_sdu g = Some (Mk_sdu (-1) id b (Z.of_nat (length b)) (-1) 1 0 0)) as Hg
      by (rewrite Hh; apply lookup_insert_eq).
    pose proof (new_sdu_data _ (hp e1) b id h g Wh Hb En) as [Hbg Hbo].
    assert (s_size g = Z.of_nat (length b) /\ s_so g = 0 /\ s_is_first g = true /\ s_is_last g = true)
      as (Hsz & Hso & Hf & Hl)
      by (unfold nr_rlc_new_sdu in En; by injection En as <- <-).
    lazymatch goal with |- context [set_time_of_arrival now _ ?x] => set (c1 := x) end.
    destruct (set_time_of_arrival_wf (g :: tx_list e) now (s_sdu g) c1 _ Wh' Hg)
      as (c & -> & Wc & Et & Eb & Es & Ea & Eon & Eh).
    cbn [res_bind]. eexists. split; [done|].
    assert (forall g', sdu_data_of (sdu_heap c) g' = sdu_data_of h g') as Hc.
    { intros g'. destruct Eh as [->| ->]; [done|]. by apply (set_sdu_data _ _ _ _ _ Hg). }
    split; [|split].
    + destruct W' as [Xl Xm Xw Xn Xh Xla Xwh Xe Xsz Xbs Xa]. rewrite E2 in *.
      split; try done; cbn -[sum_seg compute_pdu_header_size].
      * unfold hp; cbn. by rewrite <- Permutation_cons_append.
      * intros g' [Hg'|Hg']%elem_of_app; [by apply Xla|].
        apply list_elem_of_singleton in Hg' as ->. rewrite Hso. done.
      * intros g' Hg'. destruct (tx_list e) as [|g0 l]; [by apply not_elem_of_nil in Hg'|].
        cbn in Hg'. apply elem_of_app in Hg' as [Hg'|Hg']; [by apply Xwh|].
        apply list_elem_of_singleton in Hg' as ->. done.
      * rewrite sum_seg_app, sum_seg_cons, Hsz. cbn. lia.
      * rewrite Eb. unfold c1. cbn -[sum_seg compute_pdu_header_size].
        lazymatch goal with |- _ = sum_seg (fun g0 => compute_pdu_header_size ?x g0 + _) ?l =>
          rewrite (um_pdu_sizes_config e1 x l) by done end.
        rewrite sum_seg_app, sum_seg_cons, Xbs. cbn [sum_seg foldr].
        as_call2 compute_pdu_header_size e1 g. lia.
      * rewrite Ea. done.
    + destruct Q as (? & ? & ? & ? & ?). unfold um_same_rx; cbn. rewrite Et. done.
    + exists g. cbn. split_and!; try done.
      * unfold hp; cbn. by rewrite Hc, Hbg.
      * intros g' Hg'. unfold hp; cbn. rewrite Hc, Hbo by done. unfold hp in E1. by rewrite <- E1.
Qed.


Lemma um_discard_ok e sdu_id :
  um_wf e ->
  exists e', nr_rlc_entity_um_discard_sdu e sdu_id = Ok e' /\ um_wf e' /\ um_same_rx e e' /\
    tx_size e' = tx_size e /\
    (e' = e \/ exists before g after, tx_list e = before ++ g :: after /\
      s_so g = 0 /\ tx_list e' = before ++ after /\
      forall g', g' ∈ before ++ after -> sdu_data_of (hp e') g' = sdu_data_of (hp e) g').
Proof.
  intros W. pose proof W as [Wl Wm Ww Wn Wh Wla Wwh We Wsz Wbs Wa].
  unfold nr_rlc_entity_um_discard_sdu.
  destruct (find_upper_id_ok _ _ (tx_list e) sdu_id Wh ltac:(done)) as (r & -> & Hr).
  cbn [res_bind]. destruct r as [[[before g] after]|]; [|by exists e; split_and!; auto].
  destruct (negb (s_is_first g) || negb (s_is_last g)) eqn:E; [by exists e; split_and!; auto|].
  rewrite Hr in *.
  assert (s_so g = 0) as Hso.
  { destruct (Wla g) as [H1 H2]; [apply elem_of_app; right; left|].
    rewrite H1, H2 in E. lia. }
  assert (before ++ g :: after ≡ₚ g :: before ++ after) as Hp
    by (symmetry; apply Permutation_middle).
  set (e1 := if (decide _) then _ else _).
  assert (e1 = e <| tx_list := before ++ after |> <| tx_end := tail_of (before ++ after) |>) as ->.
  { rewrite <- tail_of_remove with (cur := g) by apply (hw_nodup _ _ Wh). rewrite <- We.
    unfold e1. clear. destruct e; cbn. by case_decide. }
  as_call2 nr_rlc_free_sdu_segment (hp e) g.
  pose proof Wh as Wh'. rewrite Hp in Wh'.
  destruct (free_sdu_segment_wf g _ (hp e) Wh') as (h & b & Ef & Wh2 & _).
  rewrite Ef. cbn [res_bind]. eexists. split; [done|]. split; [|split; [done|split; [done|right]]].
  - split; try done; cbn -[sum_seg compute_pdu_header_size].
    + intros g' Hg'. apply Wla. rewrite Hp. by right.
    + intros g' Hg'. apply Wwh. by apply elem_of_tail_app.
    + rewrite Hp, sum_seg_cons in Wsz.
      pose proof (hw_segs _ _ Wh' g ltac:(left)) as (? & _ & I). unfold seg_in_sdu in I. lia.
    + rewrite Wbs, Hp, sum_seg_cons.
      lazymatch goal with |- _ = sum_seg (fun g0 => compute_pdu_header_size ?x g0 + _) ?l =>
        rewrite (um_pdu_sizes_config e x l) by done end. cbn [compute_pdu_header_size].
      match goal with |- context [- (compute_pdu_header_size ?x g + _)] =>
        change (compute_pdu_header_size x g) with (compute_pdu_header_size e g) end. lia.
  - exists before, g, after. split_and!; try done.
    intros g' Hg'. by apply (free_segment_data _ _ _ _ _ _ Wh' Ef).
Qed.

Lemma um_clear_ok e :
  um_wf e ->
  exists e', clear_entity e = Ok e' /\ um_wf e' /\
    sn_field_length e' = sn_field_length e /\ tx_list e' = [] /\ tx_size e' = 0 /\
    bs_tx_size (bstatus (common e')) = 0 /\ h_sdus (hp e') = ∅ /\ rx_list e' = [].
Proof.
  intros [Wl Wm Ww Wn Wh Wla Wwh We Wsz Wbs Wa]. unfold clear_entity.
  destruct (free_list_wf (tx_list e) [] (hp e) ltac:(by rewrite app_nil_r)) as (h & E & Wh').
  as_call2 nr_rlc_free_sdu_segment_list (hp e) (tx_list e). rewrite E. cbn [res_bind].
  eexists. split; [done|]. cbn. split; [|split; [done|split_and!; try done]].
  - split; cbn; try done; [lia| |]; intros g Hg; by apply not_elem_of_nil in Hg.
  - by apply heap_wf_nil.
Qed.

Lemma um_new_wf rx_max tx_max t_reass snlen e :
  new_nr_rlc_entity_um rx_max tx_max t_reass snlen = Ok e -> um_wf e.
Proof.
  unfold new_nr_rlc_entity_um, common_init. intros H.
  destruct (_ || _) eqn:El in H; [|done]. cbn [negb] in H. res_inv. cbn.
  split; cbn; try done.
  - lia.
  - by rewrite Z.shiftl_1_l.
  - rewrite Z.shiftl_1_l. assert (snlen = 6 \/ snlen = 12) as [-> | ->] by lia; done.
  - rewrite Z.shiftl_1_l. assert (snlen = 6 \/ snlen = 12) as [-> | ->] by lia; done.
  - apply heap_wf_init.
  - intros g Hg. by apply not_elem_of_nil in Hg.
  - intros g Hg. by apply not_elem_of_nil in Hg.
  - by eapply (time_average_new_wf _ 1024); [lia|].
Qed.

Lemma um_new_snlen rx_max tx_max t_reass snlen e :
  new_nr_rlc_entity_um rx_max tx_max t_reass snlen = Ok e -> sn_field_length e = snlen.
Proof.
  unfold new_nr_rlc_entity_um, common_init. intros H.
  destruct (_ || _) in H; [|done]. cbn [negb] in H. res_inv. done.
Qed.

(** ** Sequences of operations *)
Inductive um_tx_op :=
  | Recv_sdu (now : Z) (buffer : list Z) (sdu_id : Z)
  | Generate_pdu (now : Z) (buffer : list Z)
  | Discard_sdu (sdu_id : Z)
  | Reestablish.

(** the second component is the room left in the buffer of a grant *)
Definition um_tx_step (e : nr_rlc_entity_um_t) (op : um_tx_op) : res (nr_rlc_entity_um_t * Z) :=
  match op with
  | Recv_sdu now b id => let* e := nr_rlc_entity_um_recv_sdu now e b id in Ok (e, 0)
  | Generate_pdu now buf =>
    let* '(e, _, n) := nr_rlc_entity_um_generate_pdu now e buf in
    Ok (e, Z.of_nat (length buf) - n)
  | Discard_sdu id => let* e := nr_rlc_entity_um_discard_sdu e id in Ok (e, 0)
  | Reestablish => let* e := nr_rlc_entity_um_reestablishment e in Ok (e, 0)
  end.

Fixpoint um_tx_run (e : nr_rlc_entity_um_t) (ops : list um_tx_op)
  : res (nr_rlc_entity_um_t * list Z) :=
  match ops with
  | [] => Ok (e, [])
  | op :: ops =>
    let* '(e, n) := um_tx_step e op in
    let* '(e, ns) := um_tx_run e ops in Ok (e, n :: ns)
  end.

Definition um_tx_op_ok (snlen : Z) (op : um_tx_op) : Prop :=
  match op with
  | Recv_sdu _ b _ => Z.of_nat (length b) <= NR_SDU_MAX
  | Generate_pdu _ buf => snlen = 6 \/ Z.of_nat (length buf) <> 2
  | _ => True
  end.

Lemma um_tx_step_ok e op :
  um_wf e -> um_tx_op_ok (sn_field_length e) op ->
  exists e' n, um_tx_step e op = Ok (e', n) /\ um_wf e' /\ 0 <= n /\
    sn_field_length e' = sn_field_length e.
Proof.
  intros W Hop. destruct op as [now b id|now buf|id|]; cbn [um_tx_step].
  - destruct (um_recv_sdu_ok now e b id W Hop) as (e' & -> & W' & (S & _) & _). by eexists _, _.
  - assert (um_bad_grant e (Z.of_nat (length buf)) = false) as Hb.
    { unfold um_bad_grant. destruct (tx_list e); [done|]. cbn in Hop. destruct Hop as [->|Hop]; [done|].
      destruct (Z.of_nat _ =? 2) eqn:E; [lia|]. by rewrite andb_false_r. }
    unfold nr_rlc_entity_um_generate_pdu.
    destruct (um_generate_ok now e buf W Hb) as (e' & buf' & n & -> & W' & Hl & [(-> & -> & _)|(Hn & g & g1 & rest & S)]).
    + eexists _, _. split; [done|]. split; [done|]. split; [lia|done].
    + eexists _, _. split; [done|]. split; [done|]. split; [lia|]. apply S.
  - destruct (um_discard_ok e id W) as (e' & -> & W' & (S & _) & _). by eexists _, _.
  - destruct (um_clear_ok e W) as (e' & E & W' & El & _). unfold nr_rlc_entity_um_reestablishment.
    rewrite E. by eexists _, _.
Qed.


Definition um_tx_example : list um_tx_op :=
  [Recv_sdu 1 [1;2;3;4;5;6] 10; Recv_sdu 2 [7;8;9] 11; Generate_pdu 3 [0;0;0;0;0];
   Discard_sdu 11; Recv_sdu 4 [5;5] 12].


(** ** What the transmission side loses *)

(** with 12-bit SNs, a grant of two bytes makes the entity lose the SDU
    at the head of the queue: nothing is transmitted, the SDU is no longer
    queued, its bytes stay counted in [tx_size], and it stays allocated. *)
Theorem um_two_byte_grant_loses_sdu :
  (let* e := new_nr_rlc_entity_um 100 100 35 12 in
   let* e := nr_rlc_entity_um_recv_sdu 0 e [1;2;3] 7 in
   let* '(e', buf, n) := nr_rlc_entity_um_generate_pdu 0 e [0;0] in
   Ok (length (tx_list e), (buf, n), (tx_list e', tx_size e'), bs_tx_size (bstatus (common e')),
       size (h_sdus (hp e')))) =
  Ok (1%nat, ([0;0], 0), ([], 3), 0, 1%nat).
Proof. vm_compute. reflexivity. Qed.

(** Discarding an SDU that waits for transmission does not give back its
    bytes: the queue and the heap are empty, and [available_tx_space] stays
    as if the SDU were queued. *)
Theorem um_discard_keeps_tx_size :
  (let* e := new_nr_rlc_entity_um 100 100 35 12 in
   let* e := nr_rlc_entity_um_recv_sdu 0 e [1;2;3] 7 in
   let* e := nr_rlc_entity_um_discard_sdu e 7 in
   Ok (tx_list e, size (h_sdus (hp e)), nr_rlc_entity_um_available_tx_space e)) =
  Ok ([], 0%nat, 97).
Proof. vm_compute. reflexivity. Qed.
