(* ===== verification/RlcReassembly.v ===== *)
(** * Segments of one SDU

    The facts on received segments that the reassembly of the UM and of the
    AM entities share. *)
From S2P Require Export Prelude RlcPdu RlcCommon.

(** [p] is a segment of the SDU [D], with its data *)
Record pdu_of (D : list Z) (p : nr_rlc_pdu_t) : Prop := {
  po_so : 0 <= p_so p;
  po_size : 0 < p_size p;
  po_end : p_so p + p_size p <= Z.of_nat (length D);
  po_data : p_data p = Some (take (Z.to_nat (p_size p)) (drop (Z.to_nat (p_so p)) D));
  po_last : p_is_last p = (p_so p + p_size p =? Z.of_nat (length D))
}.

(** [l] is ordered by [so], as the lists built by insertion are *)
Fixpoint so_sorted (l : list nr_rlc_pdu_t) : Prop :=
  match l with
  | [] => True
  | p :: l => Forall (fun q => p_so p <= p_so q) l /\ so_sorted l
  end.

Definition sum_pdu (l : list nr_rlc_pdu_t) : Z := foldr (fun p acc => p_size p + acc) 0 l.

(** the next bytes of the SDU copied from a segment *)
Lemma pdu_of_chunk D p so :
  pdu_of D p -> p_so p <= so -> so < p_so p + p_size p ->
  exists data chunk, p_data p = Some data /\
    mem_read data (so - p_so p) (p_size p - (so - p_so p)) = Ok chunk /\
    take (Z.to_nat so) D ++ chunk = take (Z.to_nat (p_so p + p_size p)) D.
Proof.
  intros [H1 H2 H3 H4 H5] Hso Hlt. rewrite H4. eexists _, _. split; [done|].
  rewrite mem_read_total by (rewrite ?length_take, ?length_drop; lia). split; [done|].
  rewrite skipn_firstn_comm, take_take, drop_drop.
  replace (Z.to_nat (p_so p) + Z.to_nat (so - p_so p))%nat with (Z.to_nat so) by lia.
  rewrite take_take_drop. f_equal. lia.
Qed.

(** the last byte covered by a list of segments behind [last_byte] *)
Definition cover (last_byte : Z) (p : nr_rlc_pdu_t) : Z := Z.max last_byte (p_so p + p_size p - 1).

(** contiguous segments of [D] from byte [a] to byte [b] *)
Fixpoint contig (D : list Z) (l : list nr_rlc_pdu_t) (a b : Z) : Prop :=
  match l with
  | [] => a = b
  | p :: l => pdu_of D p /\ p_so p = a /\ contig D l (a + p_size p) b
  end.

Lemma contig_le D l : forall a b, contig D l a b -> a <= b.
Proof.
  induction l as [|p l IH]; cbn; intros a b; [lia|]. intros (P & <- & H).
  apply IH in H. pose proof (po_size _ _ P). lia.
Qed.

Lemma contig_sorted D l : forall a b, contig D l a b ->
  so_sorted l /\ Forall (pdu_of D) l /\ Forall (fun p => a <= p_so p < b) l.
Proof.
  induction l as [|p l IH]; cbn; intros a b; [done|]. intros (P & <- & H).
  pose proof (contig_le _ _ _ _ H). apply IH in H as (H1 & H2 & H3).
  pose proof (po_size _ _ P). split_and!; try done.
  - eapply Forall_impl; [apply H3|]. cbn. lia.
  - by constructor.
  - constructor; [lia|]. eapply Forall_impl; [apply H3|]. cbn. lia.
Qed.

Lemma contig_app D l k : forall a b c, contig D l a b -> contig D k b c -> contig D (l ++ k) a c.
Proof.
  induction l as [|p l IH]; cbn; intros a b c; [by intros ->|]. intros (P & <- & H) K. eauto.
Qed.

Lemma contig_size D l : forall a b, contig D l a b -> sum_pdu l = b - a.
Proof.
  induction l as [|p l IH]; cbn; intros a b; [lia|]. intros (P & <- & H).
  apply IH in H. unfold sum_pdu in H. lia.
Qed.
