(* ===== verification/RlcUmRx.v ===== *)
(** * Reception side of the UM entity

    Reassembly and the reassembly window of [RlcUm]. *)
From S2P Require Export RlcReassembly RlcUm.

(** what is left of a PDU once its SDU is delivered *)
Definition freed (p : nr_rlc_pdu_t) : nr_rlc_pdu_t := p <| p_data := None |> <| p_size := 0 |>.

(** the list of PDUs goes on with another SN *)
Definition other_sn (sn : Z) (l : list nr_rlc_pdu_t) : Prop :=
  match l with [] => True | p :: _ => p_sn p <> sn end.

Lemma um_reassemble_loop_ok D sn rest : Z.of_nat (length D) <= NR_SDU_MAX -> other_sn sn rest ->
  forall l so size,
  Forall (pdu_of D) l -> Forall (fun p => p_sn p = sn) l -> so_sorted l ->
  0 <= so <= Z.of_nat (length D) ->
  so = Z.of_nat (length D) \/ full_from (l ++ rest) sn (so - 1) = true ->
  reassemble_loop (l ++ rest) sn so false (take (Z.to_nat so) D) size =
    Ok ((freed <$> l) ++ rest, Z.of_nat (length D), false, D, size - sum_pdu l).
Proof.
  intros HD Hr. induction l as [|p l IH]; intros so size Hl Hsn Hs Hso Hf.
  - cbn [app fmap list_fmap sum_pdu foldr]. destruct Hf as [->|Hf].
    + rewrite take_ge by lia. rewrite Z.sub_0_r.
      destruct rest as [|q rest]; [done|]. cbn in *.
      destruct (p_sn q =? sn) eqn:E; [lia|done].
    + destruct rest as [|q rest]; [done|]. cbn in *.
      destruct (p_sn q =? sn) eqn:E; [lia|done].
  - inversion Hl as [|?? P Hl']; subst. inversion Hsn as [|?? Esn Hsn']; subst.
    destruct Hs as [Hle Hs]. pose proof P as [P1 P2 P3 P4 P5].
    cbn [app reassemble_loop]. rewrite Z.eqb_refl. cbn [negb orb].
    assert ((NR_SDU_MAX <? so + (p_size p - (so - p_so p))) = false) as -> by (unfold NR_SDU_MAX in *; lia).
    cbn [negb andb].
    assert (p_so p <= so) as Hge.
    { destruct Hf as [->|Hf]; [lia|]. cbn in Hf. rewrite Z.eqb_refl in Hf. cbn in Hf.
      destruct (so - 1 + 1 <? p_so p) eqn:E; [done|lia]. }
    assert (Z.max so (p_so p + p_size p) = Z.of_nat (length D) \/
      full_from (l ++ rest) (p_sn p) (Z.max so (p_so p + p_size p) - 1) = true) as Hf'.
    { destruct Hf as [->|Hf]; [left; lia|]. cbn in Hf. rewrite Z.eqb_refl in Hf. cbn in Hf.
      destruct (so - 1 + 1 <? p_so p) eqn:E; [done|]. destruct (p_is_last p); [left; lia|right].
      by replace (_ - 1) with (Z.max (so - 1) (p_so p + p_size p - 1)) by lia. }
    destruct (0 <? p_size p - (so - p_so p)) eqn:El.
    + destruct (pdu_of_chunk D p so P Hge ltac:(lia)) as (data & chunk & -> & Hm & Hc).
      cbn [of_option res_bind]. rewrite Hm. cbn [res_bind].
      replace (so + (p_size p - (so - p_so p))) with (p_so p + p_size p) by lia.
      rewrite Hc. rewrite Z.max_r in Hf' by lia.
      rewrite (IH (p_so p + p_size p)) by (done || lia). cbn. do 2 f_equal. unfold sum_pdu; cbn. lia.
    + cbn [res_bind]. rewrite Z.max_l in Hf' by lia.
      rewrite (IH so) by (done || lia). cbn. do 2 f_equal. unfold sum_pdu; cbn. lia.
Qed.

(** the SN is searched behind PDUs of other SNs *)
Lemma find_sn_skip sn l k : Forall (fun p => p_sn p <> sn) l -> find_sn (l ++ k) sn = find_sn k sn.
Proof.
  induction 1 as [|p l Hp Hl IH]; cbn; [done|]. destruct (p_sn p =? sn) eqn:E; [lia|done].
Qed.

Lemma reassemble_sn_skip sn l k size : Forall (fun p => p_sn p <> sn) l ->
  reassemble_sn (l ++ k) sn size =
    (let* '(k, so, bad, sdu, size) := reassemble_sn k sn size in Ok (l ++ k, so, bad, sdu, size)).
Proof.
  induction 1 as [|p l Hp Hl IH]; cbn [app reassemble_sn].
  - by destruct (reassemble_sn k sn size) as [[[[[]]]]|].
  - destruct (p_sn p =? sn) eqn:E; [lia|]. rewrite IH.
    by destruct (reassemble_sn k sn size) as [[[[[]]]]|].
Qed.

(** a PDU that compares above all the others goes at the end *)
Lemma pdu_list_add_end cmp l pdu :
  Forall (fun q => cmp (p_sn q) (p_sn pdu) <= 0 /\ (p_sn q = p_sn pdu -> p_so q <= p_so pdu)) l ->
  nr_rlc_pdu_list_add cmp l pdu = l ++ [pdu].
Proof.
  induction 1 as [|q l [Hq1 Hq2] Hl IH]; cbn; [done|].
  destruct (0 <? cmp (p_sn q) (p_sn pdu)) eqn:E1; [lia|].
  destruct (p_sn q =? p_sn pdu) eqn:E2; cbn; [|by rewrite IH].
  destruct (p_so pdu <? p_so q) eqn:E3; [|by rewrite IH].
  pose proof (Hq2 ltac:(lia)). lia.
Qed.

(** ** The window *)
Record um_rx_cfg (e : nr_rlc_entity_um_t) : Prop := {
  uc_window : 1 < window_size e;
  uc_modulus : sn_modulus e = 2 * window_size e;
  uc_highest : 0 <= rx_next_highest e < sn_modulus e
}.

Lemma modulus_rx_mod e a :
  um_rx_cfg e -> 0 <= a < sn_modulus e ->
  modulus_rx e a = (a - rx_next_highest e + window_size e) mod sn_modulus e.
Proof.
  intros [H1 H2 H3] Ha. unfold modulus_rx.
  destruct (a - (rx_next_highest e - window_size e) <? 0) eqn:E; rewrite rem_mod by lia.
  - rewrite <- (Z_mod_plus_full (a - rx_next_highest e + window_size e) 1). f_equal. lia.
  - f_equal. lia.
Qed.

(** the distance of an SN behind [h] *)
Definition behind (m h a : Z) : Z := (h - a) mod m.

(** the comparison base in terms of the distance behind [rx_next_highest] *)
Lemma modulus_rx_behind e a :
  um_rx_cfg e -> 0 <= a < sn_modulus e ->
  modulus_rx e a =
    let d := behind (sn_modulus e) (rx_next_highest e) a in
    if d <=? window_size e then window_size e - d
    else window_size e - d + sn_modulus e.
Proof.
  intros C Ha. rewrite modulus_rx_mod by done. destruct C as [H1 H2 H3]. cbn zeta.
  unfold behind. set (h := rx_next_highest e) in *. set (m := sn_modulus e) in *.
  pose proof (Z.mod_pos_bound (h - a) m ltac:(lia)) as Hb.
  replace (a - h + window_size e) with (window_size e - (h - a)) by lia.
  rewrite <- Zminus_mod_idemp_r. set (d := (h - a) mod m) in *.
  destruct (d <=? window_size e) eqn:E.
  - apply Z.mod_small. lia.
  - rewrite <- (Z_mod_plus_full (window_size e - d) 1). rewrite Z.mod_small; lia.
Qed.

(** ** In-order reception

    [x] is the next SN expected.  The list holds delivered PDUs [olds] of
    the SNs before [x], the oldest first, and the segments [cur] of the SDU
    being received, which cover its first [so] bytes.  The window ends at
    [x] as long as no segment of [x] is received, and behind it from then
    on. *)
Definition um_old (m w h : Z) (p : nr_rlc_pdu_t) : Prop :=
  p_data p = None /\ p_size p = 0 /\ 0 <= p_sn p < m /\ 1 <= behind m h (p_sn p) <= w.

Fixpoint oldest_first (m h : Z) (l : list nr_rlc_pdu_t) : Prop :=
  match l with
  | [] => True
  | p :: l => Forall (fun q => behind m h (p_sn q) <= behind m h (p_sn p)) l /\ oldest_first m h l
  end.

Record um_in_order (e : nr_rlc_entity_um_t) (x so : Z) (D : list Z) : Prop := {
  ui_cfg : um_rx_cfg e;
  ui_next : rx_next_reassembly e = x;
  ui_x : 0 <= x < sn_modulus e;
  ui_highest : rx_next_highest e = if so =? 0 then x else (x + 1) `rem` sn_modulus e;
  ui_timer : t_reassembly_start e = 0;
  ui_size : rx_size e = so;
  ui_list : exists olds cur, rx_list e = olds ++ cur /\
    Forall (um_old (sn_modulus e) (window_size e) (rx_next_highest e)) olds /\
    oldest_first (sn_modulus e) (rx_next_highest e) olds /\
    Forall (fun p => p_sn p <> x) olds /\
    Forall (fun p => p_sn p = x) cur /\
    contig D cur 0 so
}.

Lemma behind_succ m h a : 1 < m -> 0 <= h < m -> 0 <= behind m h a < m - 1 ->
  behind m ((h + 1) `rem` m) a = behind m h a + 1.
Proof.
  intros Hm Hh Hb. unfold behind in *. rewrite rem_mod by lia. rewrite Zminus_mod_idemp_l.
  replace (h + 1 - a) with ((h - a) + 1) by lia.
  rewrite <- Zplus_mod_idemp_l. apply Z.mod_small. lia.
Qed.

Lemma behind_self m h : behind m h h = 0.
Proof. unfold behind. by rewrite Z.sub_diag. Qed.

Lemma sn_compare_behind e a b :
  um_rx_cfg e -> 0 <= a < sn_modulus e -> 0 <= b < sn_modulus e ->
  behind (sn_modulus e) (rx_next_highest e) a <= window_size e -> behind (sn_modulus e) (rx_next_highest e) b <= window_size e ->
  sn_compare_rx e a b = behind (sn_modulus e) (rx_next_highest e) b - behind (sn_modulus e) (rx_next_highest e) a.
Proof.
  intros C Ha Hb Hda Hdb. unfold sn_compare_rx. rewrite !modulus_rx_behind by done. cbn zeta.
  destruct (_ <=? _) eqn:E1; [|lia].
  destruct (behind (sn_modulus e) (rx_next_highest e) b <=? _) eqn:E2; lia.
Qed.

Lemma contig_full D x l : forall a b,
  contig D l a b -> Forall (fun p => p_sn p = x) l -> a < Z.of_nat (length D) ->
  full_from l x (a - 1) = (b =? Z.of_nat (length D)) /\ missing_from l x (a - 1) = false.
Proof.
  induction l as [|p l IH]; cbn; intros a b Hc Hx Ha.
  - split; [lia|done].
  - destruct Hc as (P & <- & Hc). inversion Hx as [|?? Ex Hx']; subst. rewrite Z.eqb_refl. cbn.
    pose proof P as [P1 P2 P3 P4 P5].
    destruct (p_so p - 1 + 1 <? p_so p) eqn:E; [lia|].
    replace (Z.max _ _) with (p_so p + p_size p - 1) by lia.
    pose proof (contig_le _ _ _ _ Hc). rewrite P5.
    destruct (p_so p + p_size p =? Z.of_nat (length D)) eqn:E2.
    + destruct l as [|q l]; cbn in *; [split; [lia|done]|].
      destruct Hc as (Q & ? & _). pose proof (po_end _ _ Q). pose proof (po_size _ _ Q). lia.
    + apply IH; done || lia.
Qed.

Lemma discard_out_of_window_ok tail olds : forall e,
  um_rx_cfg e -> rx_list e = olds ++ tail ->
  Forall (fun p => p_data p = None /\ p_size p = 0 /\ 0 <= p_sn p < sn_modulus e /\
    1 <= behind (sn_modulus e) (rx_next_highest e) (p_sn p) <= window_size e + 1) olds ->
  oldest_first (sn_modulus e) (rx_next_highest e) olds ->
  match tail with [] => True | p :: _ => 0 <= p_sn p < sn_modulus e /\
    1 <= behind (sn_modulus e) (rx_next_highest e) (p_sn p) <= window_size e end ->
  exists olds' c, discard_out_of_window (olds ++ tail) e =
      e <| rx_size := rx_size e |> <| rx_list := olds' ++ tail |> <| common := c |> /\
    trace c = trace (common e) /\ sdu_heap c = sdu_heap (common e) /\
    Forall (um_old (sn_modulus e) (window_size e) (rx_next_highest e)) olds' /\ oldest_first (sn_modulus e) (rx_next_highest e) olds' /\
    forall p, p ∈ olds' -> p ∈ olds.
Proof.
  induction olds as [|p olds IH]; intros e C Hl Ho Hs Ht.
  - exists [], (common e). cbn [app] in *. split; [|done].
    destruct tail as [|p tail]; cbn [discard_out_of_window].
    + rewrite <- Hl. by destruct e.
    + assert ((0 <=? sn_compare_rx e (p_sn p) (rx_next_highest e)) = false) as ->.
      { pose proof (uc_highest _ C). rewrite sn_compare_behind by (rewrite ?behind_self; destruct C; done || lia).
        rewrite behind_self. lia. }
      rewrite <- Hl. by destruct e.
  - inversion Ho as [|?? (Hd & Hz & Hsn & Hb) Ho']; subst. destruct Hs as [Hle Hs].
    cbn [app discard_out_of_window].
    destruct (decide (behind (sn_modulus e) (rx_next_highest e) (p_sn p) = window_size e + 1)) as [Eb|Nb].
    + assert ((0 <=? sn_compare_rx e (p_sn p) (rx_next_highest e)) = true) as ->.
      { pose proof C as [C1 C2 C3]. unfold sn_compare_rx. rewrite !modulus_rx_behind by done.
        cbn zeta. rewrite Eb, behind_self.
        repeat case_match; lia. }
      set (e1 := on_stats _ _).
      destruct (IH e1) as (olds' & c & E & Et & Eh & F & O & S); try done.
      { destruct C; split; done. }
      rewrite E. exists olds', c. unfold e1; cbn. rewrite Hz, Z.sub_0_r.
      split_and!; try done. intros q Hq. right. by apply S.
    + assert ((0 <=? sn_compare_rx e (p_sn p) (rx_next_highest e)) = false) as ->.
      { pose proof C as [C1 C2 C3]. rewrite sn_compare_behind by (rewrite ?behind_self; done || lia).
        rewrite behind_self. lia. }
      exists (p :: olds), (common e). split; [rewrite <- app_comm_cons in Hl; cbn; rewrite <- Hl; by destruct e|].
      split_and!; try done. constructor; [by split_and!; try done; lia|].
      rewrite Forall_forall in *. intros q Hq.
      destruct (Ho' q Hq) as (? & ? & ? & ?). pose proof (Hle q Hq). split_and!; try done; lia.
Qed.

Lemma oldest_first_app m h l k :
  oldest_first m h l -> oldest_first m h k ->
  (forall p q, p ∈ l -> q ∈ k -> behind m h (p_sn q) <= behind m h (p_sn p)) ->
  oldest_first m h (l ++ k).
Proof.
  induction l as [|p l IH]; cbn; [done|]. intros [Hp Hl] Hk Hlk. split.
  - apply Forall_app. split; [done|]. apply Forall_forall. intros q Hq. apply Hlk; [by left|done].
  - apply IH; [done|done|]. intros. apply Hlk; [by right|done].
Qed.

Lemma find_sn_none sn l : Forall (fun p => p_sn p <> sn) l -> find_sn l sn = [].
Proof. intros H. rewrite <- (app_nil_r l). by rewrite find_sn_skip. Qed.

(** what reception keeps of the entity *)
Definition um_keep_rx (e e' : nr_rlc_entity_um_t) : Prop :=
  sn_field_length e' = sn_field_length e /\ sn_modulus e' = sn_modulus e /\
  window_size e' = window_size e /\ rx_maxsize e' = rx_maxsize e.

(** [e] with the segment [pdu] put at its place in the list *)
Record um_got (e : nr_rlc_entity_um_t) (x so : Z) (D : list Z) (pdu : nr_rlc_pdu_t) : Prop := {
  ug_cfg : um_rx_cfg e;
  ug_next : rx_next_reassembly e = x;
  ug_x : 0 <= x < sn_modulus e;
  ug_highest : rx_next_highest e = if so =? 0 then x else (x + 1) `rem` sn_modulus e;
  ug_timer : t_reassembly_start e = 0;
  ug_size : rx_size e = so + p_size pdu;
  ug_sn : p_sn pdu = x;
  ug_list : exists olds cur, rx_list e = olds ++ cur /\
    Forall (um_old (sn_modulus e) (window_size e) (rx_next_highest e)) olds /\
    oldest_first (sn_modulus e) (rx_next_highest e) olds /\
    Forall (fun p => p_sn p <> x) olds /\
    Forall (fun p => p_sn p = x) cur /\ cur <> [] /\
    contig D cur 0 (so + p_size pdu)
}.

Lemma um_add_segment e x so D pdu :
  um_in_order e x so D -> pdu_of D pdu -> p_so pdu = so -> p_sn pdu = x ->
  let e1 := e <| rx_size := rx_size e + p_size pdu |> in
  um_got (e1 <| rx_list := nr_rlc_pdu_list_add (sn_compare_rx e1) (rx_list e1) pdu |>) x so D pdu.
Proof.
  intros [C Hn Hx Hh Ht Hz (olds & cur & Hl & Ho & Hs & Hne & Hc & Hco)] P Hso Hsn e1.
  pose proof (contig_sorted _ _ _ _ Hco) as (_ & _ & Hb).
  assert (rx_list e1 = olds ++ cur) as -> by done.
  rewrite pdu_list_add_end.
  - unfold e1. split; cbn; try done; [destruct C; split; done|lia|].
    exists olds, (cur ++ [pdu]). rewrite app_assoc. split_and!; try done.
    + apply Forall_app. split; [done|]. by constructor.
    + by destruct cur.
    + eapply contig_app; [done|]. cbn. rewrite Hso. split_and!; try done.
  - assert (um_rx_cfg e1) as C1 by (destruct C; split; done).
    assert (rx_next_highest e1 = rx_next_highest e) as Eh by done.
    assert (0 <= behind (sn_modulus e1) (rx_next_highest e1) x <= 1) as Hbx.
    { rewrite Eh, Hh. change (sn_modulus e1) with (sn_modulus e). destruct C as [C1' C2 C3].
      destruct (so =? 0); [rewrite behind_self; lia|].
      rewrite behind_succ by (rewrite ?behind_self; lia). rewrite behind_self. lia. }
    pose proof C as [C1' C2' C3']. rewrite Hsn.
    apply Forall_app. split; rewrite Forall_forall in *; intros q Hq.
    + destruct (Ho q Hq) as (_ & _ & Hqs & Hqb). split; [|intros Eq; by destruct (Hne q Hq)].
      change (sn_modulus e1) with (sn_modulus e) in *. rewrite Eh in Hbx.
      rewrite sn_compare_behind; rewrite ?Eh;
        change (sn_modulus e1) with (sn_modulus e); change (window_size e1) with (window_size e);
        try done; lia.
    + rewrite (Hc q Hq). unfold sn_compare_rx. split; [lia|]. intros _.
      pose proof (Hb q Hq). lia.
Qed.

Lemma um_got_full e x so D pdu :
  um_got e x so D pdu -> 0 < Z.of_nat (length D) ->
  sdu_full e x = (so + p_size pdu =? Z.of_nat (length D)) /\ sdu_has_missing_bytes e x = false.
Proof.
  intros [_ _ _ _ _ _ _ (olds & cur & Hl & _ & _ & Hne & Hc & Hn & Hco)] HD.
  unfold sdu_full, sdu_has_missing_bytes. rewrite Hl, find_sn_skip by done.
  destruct cur as [|p cur]; [done|]. inversion Hc as [|?? Ex Hc']; subst.
  cbn [find_sn]. rewrite Z.eqb_refl.
  assert (delivered (p :: cur) = false) as -> by (cbn; by rewrite (po_data _ _ (proj1 Hco))).
  by apply (contig_full D (p_sn p) (p :: cur) 0).
Qed.

(** no timer is started while nothing is missing *)
Lemma um_timer_idle e x :
  um_rx_cfg e -> rx_next_reassembly e = x -> 0 <= x < sn_modulus e -> t_reassembly_start e = 0 ->
  rx_next_highest e = x \/
  (rx_next_highest e = (x + 1) `rem` sn_modulus e /\ sdu_has_missing_bytes e x = false) ->
  reception_timer e = e.
Proof.
  intros C Hn Hx Ht Hh. unfold reception_timer. rewrite Hn, Ht. cbn [Z.eqb negb andb].
  rewrite Ht. cbn [Z.eqb]. pose proof C as [C1 C2 C3].
  pose proof (rem_bound (x + 1) (sn_modulus e) ltac:(lia) ltac:(lia)) as Hb.
  set (y := (x + 1) `rem` sn_modulus e) in *.
  assert ((0 <? sn_compare_rx e (rx_next_highest e) y) = false /\
    (rx_next_highest e =? y) && sdu_has_missing_bytes e x = false) as [-> ->]; [|done].
  destruct Hh as [Hh|[Hh Hm]].
  - assert (x <> y) as Hxy.
    { unfold y. rewrite rem_mod, mod_ring_succ by lia. destruct (x + 1 <? _) eqn:?; lia. }
    split; [|destruct (rx_next_highest e =? y) eqn:?; [lia|done]].
    unfold sn_compare_rx. rewrite !modulus_rx_behind by (done || lia). cbn zeta.
    rewrite Hh, behind_self.
    assert (behind (sn_modulus e) x y = sn_modulus e - 1) as ->.
    { unfold behind, y. rewrite rem_mod by lia. rewrite Zminus_mod_idemp_r.
      replace (x - (x + 1)) with (- (1)) by lia.
      rewrite <- (Z_mod_plus_full (- (1)) 1). rewrite Z.mod_small; lia. }
    destruct (_ <=? _) eqn:?; [|lia]. destruct (sn_modulus e - 1 <=? _) eqn:?; lia.
  - rewrite Hm, andb_false_r. rewrite Hh. unfold sn_compare_rx. split; [lia|done].
Qed.

Lemma um_got_partial e x so D pdu :
  um_got e x so D pdu -> so + p_size pdu < Z.of_nat (length D) -> 0 <= so -> 0 < p_size pdu ->
  exists e', reception_actions e pdu = Ok e' /\ um_in_order e' x (so + p_size pdu) D /\
    um_keep_rx e e' /\ trace (common e') = trace (common e).
Proof.
  intros G Hlt Hso Hps. destruct (um_got_full e x so D pdu G ltac:(lia)) as [Hf Hm].
  unfold reception_actions. rewrite (ug_sn _ _ _ _ _ G), Hf.
  destruct (_ =? Z.of_nat (length D)) eqn:E; [lia|]. clear E.
  destruct G as [C Hn Hx Hh Ht Hz Hsn (olds & cur & Hl & Ho & Hs & Hne & Hc & Hnc & Hco)].
  pose proof C as [C1 C2 C3]. unfold reception_not_full.
  assert ((so + p_size pdu =? 0) = false) as Ez by lia.
  destruct (so =? 0) eqn:E0.
  - (* the first segment: the window moves *)
    rewrite Hh. unfold sn_compare_rx at 1. rewrite Z.sub_diag. cbn [Z.leb Z.compare].
    set (e1 := e <| rx_next_highest := _ |>).
    assert (um_rx_cfg e1) as Ce1.
    { split; cbn; try done. apply rem_bound; lia. }
    destruct cur as [|p cur]; [done|]. inversion Hc as [|?? Hp Hc']; subst.
    assert (behind (sn_modulus e) (rx_next_highest e1) (p_sn p) = 1) as Hb1.
    { cbn. rewrite Hp, behind_succ, behind_self; rewrite ?behind_self; lia. }
    rewrite Hh in Ho, Hs.
    assert (forall q, q ∈ olds -> behind (sn_modulus e) (rx_next_highest e1) (p_sn q) =
      behind (sn_modulus e) (rx_next_reassembly e) (p_sn q) + 1) as Hbq.
    { intros q Hq. cbn. rewrite Forall_forall in Ho. destruct (Ho q Hq) as (_ & _ & ? & ?).
      apply behind_succ; lia. }
    destruct (discard_out_of_window_ok (p :: cur) olds e1 Ce1 Hl) as (olds' & c & Ed & Et & _ & Fo & Oo & So).
    + rewrite Forall_forall in *. intros q Hq. destruct (Ho q Hq) as (? & ? & ? & ?).
      change (sn_modulus e1) with (sn_modulus e). change (window_size e1) with (window_size e).
      rewrite Hbq by done. split_and!; try done; lia.
    + clear -Hs Hbq. change (sn_modulus e1) with (sn_modulus e).
      induction olds as [|q olds IH]; [done|]. destruct Hs as [H1 H2]. split.
      * rewrite Forall_forall in *. intros r Hr. rewrite !Hbq by (by constructor). specialize (H1 r Hr). lia.
      * apply IH; [done|]. intros r Hr. apply Hbq. by right.
    + change (sn_modulus e1) with (sn_modulus e). rewrite Hb1. change (window_size e1) with (window_size e). lia.
    + change (rx_list e1) with (rx_list e). rewrite Hl, Ed. set (e2 := e1 <| rx_size := _ |> <| rx_list := _ |> <| common := c |>).
      assert (um_rx_cfg e2) as Ce2 by (destruct Ce1; split; done).
      assert ((0 <=? sn_compare_rx e2 (rx_next_reassembly e2) (rx_next_highest e2)) = false) as ->.
      { rewrite Hp in Hb1. pose proof (uc_highest _ Ce2).
        rewrite sn_compare_behind; try done; rewrite ?behind_self.
        - change ((0 <=? 0 - behind (sn_modulus e) (rx_next_highest e1) (rx_next_reassembly e)) = false).
          by rewrite Hb1.
        - change (behind (sn_modulus e) (rx_next_highest e1) (rx_next_reassembly e) <= window_size e). lia.
        - change (0 <= window_size e). lia. }
      cbn [res_bind].
      assert (um_in_order e2 (rx_next_reassembly e) (so + p_size pdu) D) as I2.
      { split; try done; [by rewrite Ez|]. exists olds', (p :: cur). split_and!; try done.
        rewrite Forall_forall in *. intros q Hq. apply Hne. by apply So. }
      rewrite (um_timer_idle e2 (rx_next_reassembly e)); try done; [by exists e2; split_and!; try done|].
      right. split; [done|]. unfold sdu_has_missing_bytes.
      change (rx_list e2) with (olds' ++ p :: cur). rewrite find_sn_skip.
      * cbn [find_sn]. rewrite Hp, Z.eqb_refl.
        assert (delivered (p :: cur) = false) as -> by (cbn; by rewrite (po_data _ _ (proj1 Hco))).
        apply (contig_full D (rx_next_reassembly e) (p :: cur) 0 (so + p_size pdu)); [done|done|lia].
      * rewrite Forall_forall in *. intros q Hq. apply Hne. by apply So.
  - assert ((0 <=? sn_compare_rx e x (rx_next_highest e)) = false) as ->.
    { rewrite sn_compare_behind; try done; rewrite ?behind_self; try lia;
        rewrite Hh, behind_succ, behind_self; rewrite ?behind_self; lia. }
    cbn [res_bind]. rewrite (um_timer_idle e x); try done; [|by right].
    exists e. split; [done|]. split; [|by split_and!].
    split; try done; [by rewrite Ez|]. exists olds, cur. done.
Qed.

Lemma um_got_last e x so D pdu :
  um_got e x so D pdu -> so + p_size pdu = Z.of_nat (length D) -> 0 < so ->
  Z.of_nat (length D) <= NR_SDU_MAX ->
  exists e', reception_actions e pdu = Ok e' /\
    (forall D', um_in_order e' ((x + 1) `rem` sn_modulus e) 0 D') /\
    um_keep_rx e e' /\ trace (common e') = trace (common e) ++ [deliver_sdu D].
Proof.
  intros G Heq Hso Hmax.
  assert (0 < Z.of_nat (length D)) as HD.
  { destruct G as [_ _ _ _ _ _ _ (? & cur & _ & _ & _ & _ & _ & Hnc & Hco)].
    destruct cur as [|p cur]; [done|]. destruct (proj1 Hco). lia. }
  destruct (um_got_full e x so D pdu G HD) as [Hf _].
  unfold reception_actions. rewrite (ug_sn _ _ _ _ _ G), Hf.
  destruct (_ =? Z.of_nat (length D)) eqn:E; [|lia]. clear E.
  destruct G as [C Hn Hx Hh Ht Hz Hsn (olds & cur & Hl & Ho & Hs & Hne & Hc & Hnc & Hco)].
  pose proof C as [C1 C2 C3]. unfold reception_full, reassemble_and_deliver.
  pose proof (contig_sorted _ _ _ _ Hco) as (So & Po & _).
  pose proof (contig_size _ _ _ _ Hco) as Sz.
  rewrite Hl, reassemble_sn_skip by done.
  assert (reassemble_sn cur x (rx_size e) =
    Ok (freed <$> cur, Z.of_nat (length D), false, D, rx_size e - sum_pdu cur)) as ->.
  { pose proof (um_reassemble_loop_ok D x [] Hmax I cur 0 (rx_size e) Po Hc So ltac:(lia)) as R.
    rewrite !app_nil_r in R. change (take (Z.to_nat 0) D) with (@nil Z) in R.
    destruct cur as [|p cur']; [done|]. cbn [reassemble_sn].
    pose proof (Forall_inv Hc) as Ep. cbn beta in Ep. rewrite Ep, Z.eqb_refl. apply R. right.
    destruct (contig_full D x (p :: cur') 0 _ Hco Hc ltac:(lia)) as [-> _]. lia. }
  cbn [res_bind].
  set (e2 := on_stats _ _).
  assert (rx_next_reassembly e2 = x) as E2n by done. rewrite E2n, Z.eqb_refl.
  set (y := (x + 1) `rem` sn_modulus e).
  assert (x <> y /\ 0 <= y < sn_modulus e) as [Hxy Hy].
  { unfold y. rewrite rem_mod, mod_ring_succ by lia. destruct (x + 1 <? _) eqn:?; lia. }
  rewrite (proj2 (Z.eqb_neq so 0) ltac:(lia)) in Hh. fold y in Hh.
  assert (rx_list e2 = olds ++ (freed <$> cur)) as E2l by done.
  assert (Forall (fun p => p_sn p <> y) olds) as Hny.
  { rewrite Forall_forall in *. intros q Hq Eq. destruct (Ho q Hq) as (_ & _ & _ & Hb).
    rewrite Hh, Eq, behind_self in Hb. lia. }
  assert (Forall (fun p => p_sn p = x) (freed <$> cur)) as Hcf.
  { apply Forall_fmap. eapply Forall_impl; [apply Hc|]. done. }
  assert (skip_delivered (skip_fuel e2) e2 x = Ok y) as ->.
  { unfold skip_fuel. change (sn_modulus e2) with (sn_modulus e).
    destruct (Z.to_nat (sn_modulus e)) as [|n] eqn:En; [lia|].
    cbn [skip_delivered]. unfold sdu_delivered. rewrite E2l, !find_sn_skip by done.
    destruct cur as [|p cur']; [done|]. cbn [fmap list_fmap find_sn].
    pose proof (Forall_inv Hc) as Ep. cbn beta in Ep.
    change (p_sn (freed p)) with (p_sn p). rewrite Ep, Z.eqb_refl. cbn [delivered p_data freed update].
    fold y. change (sn_modulus e2) with (sn_modulus e). fold y.
    rewrite (proj2 (Z.eqb_neq x y) Hxy), find_sn_none; [done|].
    eapply Forall_impl; [apply (Forall_inv_tail Hcf)|]. cbn. intros ? ->. done. }
  cbn [res_bind]. set (e3 := e2 <| rx_next_reassembly := y |>).
  assert (um_rx_cfg e3) as C3' by (split; done).
  rewrite (um_timer_idle e3 y); [|done|done|done|done|by left].
  exists e3. split; [done|]. split; [|split; [by split_and!|done]].
  intros D'. split; try done; [cbn; lia|].
  exists (olds ++ (freed <$> cur)), []. rewrite app_nil_r. split; [done|].
  change (rx_next_highest e3) with (rx_next_highest e). rewrite Hh.
  change (sn_modulus e3) with (sn_modulus e). change (window_size e3) with (window_size e).
  rewrite Hh in Ho, Hs.
  assert (forall q, q ∈ freed <$> cur -> behind (sn_modulus e) y (p_sn q) = 1) as Hb1.
  { intros q Hq. rewrite Forall_forall in Hcf. rewrite (Hcf q Hq). unfold y.
    rewrite behind_succ, behind_self; rewrite ?behind_self; lia. }
  split_and!; try done.
  - apply Forall_app. split; [done|]. rewrite Forall_forall in *. intros q Hq.
    pose proof (Hcf q Hq) as Eq. split_and!; try (rewrite Eq; lia); try (rewrite Hb1 by done; lia).
    + apply list_elem_of_fmap in Hq as (? & -> & _). done.
    + apply list_elem_of_fmap in Hq as (? & -> & _). done.
  - apply oldest_first_app; [done| |].
    + clear -Hb1. induction cur as [|p cur IH]; [done|]. cbn. split.
      * apply Forall_forall. intros q Hq. rewrite (Hb1 q) by (by right). pose proof (Hb1 (freed p) ltac:(left)) as B. cbn in B. lia.
      * apply IH. intros q Hq. apply Hb1. by right.
    + intros p q Hp Hq. rewrite (Hb1 q Hq). rewrite Forall_forall in Ho.
      destruct (Ho p Hp) as (_ & _ & _ & ?). lia.
  - apply Forall_app. split; [done|]. eapply Forall_impl; [apply Hcf|]. cbn. intros ? ->. done.
Qed.

(** a segment of the SDU [D] that follows the bytes received *)
Lemma um_recv_segment_ok e x so n D hdr is_first is_last :
  um_in_order e x so D -> 0 <= so -> 0 < n -> so + n <= Z.of_nat (length D) ->
  Z.of_nat (length D) <= NR_SDU_MAX -> NR_SDU_MAX <= rx_maxsize e ->
  is_last = (so + n =? Z.of_nat (length D)) -> (so = 0 -> is_last = false) ->
  let data := take (Z.to_nat n) (drop (Z.to_nat so) D) in
  exists e', recv_segment e (hdr ++ data) is_first is_last x so (Z.of_nat (length hdr)) = Ok e' /\
    um_keep_rx e e' /\
    if is_last
    then (forall D', um_in_order e' ((x + 1) `rem` sn_modulus e) 0 D') /\
         trace (common e') = trace (common e) ++ [deliver_sdu D]
    else um_in_order e' x (so + n) D /\ trace (common e') = trace (common e).
Proof.
  intros I Hso Hn Hend Hmax Hrx Hla Hfl data. unfold recv_segment.
  assert (Z.of_nat (length data) = n) as Hd by (unfold data; rewrite length_take, length_drop; lia).
  rewrite length_app, Nat2Z.inj_add.
  replace (Z.of_nat (length hdr) + Z.of_nat (length data) - Z.of_nat (length hdr)) with n by lia.
  destruct (n <=? 0) eqn:E1; [lia|]. destruct (rx_maxsize e <? rx_size e + n) eqn:E2.
  { rewrite (ui_size _ _ _ _ I) in E2. lia. }
  destruct (sn_compare_rx e x (rx_next_reassembly e) <? 0) eqn:E3.
  { rewrite (ui_next _ _ _ _ I) in E3. unfold sn_compare_rx in E3. lia. }
  rewrite mem_read_total by (rewrite ?length_app; lia). cbn [res_bind].
  replace (Z.of_nat (length hdr) + Z.of_nat (length data) - n) with (Z.of_nat (length hdr)) by lia.
  rewrite Nat2Z.id, drop_app_length. rewrite (take_ge data) by lia.
  set (pdu := nr_rlc_new_pdu x so is_first is_last data).
  assert (p_size pdu = n) as Hps by done.
  assert (pdu_of D pdu) as P.
  { split; cbn; rewrite ?Hd; done || lia. }
  pose proof (um_add_segment e x so D pdu I P eq_refl eq_refl) as G. cbn zeta in G. rewrite Hps in G.
  match type of G with um_got ?x _ _ _ _ => set (e1 := x) in * end.
  assert (um_keep_rx e e1) as K1 by by split_and!.
  destruct is_last.
  - destruct (um_got_last e1 x so D pdu G) as (e' & Er & I' & K & T).
    + rewrite Hps. lia.
    + destruct (decide (so = 0)) as [E0|]; [|lia]. by apply Hfl in E0.
    + done.
    + exists e'. split; [exact Er|]. split; [exact K|]. split; [exact I'|exact T].
  - destruct (um_got_partial e1 x so D pdu G) as (e' & Er & I' & K & T).
    + rewrite Hps. lia.
    + done.
    + lia.
    + exists e'. split; [exact Er|]. split; [exact K|]. rewrite Hps in I'. split; [exact I'|exact T].
Qed.
