(* ===== verification/RlcUmLink.v ===== *)
(** * Two UM entities over a link without loss

    The PDUs of a transmitting entity given, in their order, to a receiving
    one: the receiver delivers the SDUs of the sender. *)
From S2P Require Export RlcUmTx RlcUmRx.

(** ** Decoding a PDU *)
Lemma um_decode_header es er g sn data pdu :
  um_pdu es g sn data pdu -> sn_field_length er = sn_field_length es ->
  sn_field_length es = 6 \/ sn_field_length es = 12 ->
  0 <= sn < 2 ^ sn_field_length es -> 0 <= s_so g < 65536 ->
  (s_is_first g = false -> s_so g <> 0) -> (s_is_first g = true -> s_so g = 0) ->
  exists si d, get_bits_R (nr_rlc_pdu_decoder_init pdu) 2 = Some (si, d) /\
    (Z.land si 2 =? 0) = s_is_first g /\ (Z.land si 1 =? 0) = s_is_last g /\
    (s_is_first g && s_is_last g = false ->
     exists d', decode_header er (s_is_first g) d = Some (sn, s_so g, d') /\
       d_byte d' = compute_pdu_header_size es g).
Proof.
  intros (hdr & -> & Hlen & Hr) El Hl Hsn Hso Hf1 Hf2.
  set (buf := hdr ++ data) in *. clearbody buf. clear Hlen.
  assert (Hz16 : 0 <= s_so g < 2 ^ Z.of_nat 16) by done.
  rewrite decoder_init_pos. unfold decode_header, compute_pdu_header_size.
  rewrite El. unfold sdu_header_fields in Hr.
  assert (0 <= 0 < 2 ^ Z.of_nat 2) by done.
  change (reads buf ([] ++ fields_bits
    ([(1 - Z.b2z (s_is_first g), 1%nat); (1 - Z.b2z (s_is_last g), 1%nat)]
     ++ (if s_is_first g && s_is_last g then [(0, 6%nat)]
         else (if sn_field_length es =? 12 then [(0, 2%nat)] else [])
              ++ [(sn, Z.to_nat (sn_field_length es))])
     ++ (if negb (s_is_first g) then [(s_so g, 16%nat)] else [])))) in Hr.
  destruct Hl as [Hl|Hl]; rewrite Hl in *; destruct (s_is_first g), (s_is_last g);
    cbn [fields_bits fmap list_fmap concat app negb andb fst snd Z.b2z Z.sub Z.eqb Pos.eqb] in Hr.
  all: join_bits Hr; read_field Hr; eexists _, _; (split; [done|split; [done|split; [done|]]]);
    intros Hw; try discriminate Hw; cbn [Z.eqb Pos.eqb negb andb mbind option_bind].
  all: repeat read_field Hr.
  all: cbn [negb andb mbind option_bind]; repeat read_field Hr; cbn [negb andb mbind option_bind].
  all: try (destruct (s_so g =? 0) eqn:Es; [exfalso; apply Hf1; [done|lia]|]).
  all: rewrite ?Hf2 by done; eexists; split; done.
Qed.

(** ** The link *)
Inductive link_op :=
  | Send (now : Z) (sdu : list Z) (sdu_id : Z)
  | Grant (now : Z) (buffer : list Z).

Record link := Mk_link {
  sender : nr_rlc_entity_um_t;
  receiver : nr_rlc_entity_um_t;
  accepted : list (list Z)        (** the SDUs taken by the sender *)
}.

(** an SDU given to the sender, or a grant whose PDU reaches the receiver *)
Definition link_step (l : link) (op : link_op) : res link :=
  match op with
  | Send now sdu id =>
    let ok := Z.of_nat (length sdu) <=? nr_rlc_entity_um_available_tx_space (sender l) in
    let* es := nr_rlc_entity_um_recv_sdu now (sender l) sdu id in
    Ok (Mk_link es (receiver l) (if ok then accepted l ++ [sdu] else accepted l))
  | Grant now buf =>
    let* '(es, buf, n) := nr_rlc_entity_um_generate_pdu now (sender l) buf in
    if n =? 0 then Ok (Mk_link es (receiver l) (accepted l))
    else
      let* er := nr_rlc_entity_um_recv_pdu (receiver l) (take (Z.to_nat n) buf) in
      Ok (Mk_link es er (accepted l))
  end.

Fixpoint link_run (l : link) (ops : list link_op) : res link :=
  match ops with
  | [] => Ok l
  | op :: ops => let* l := link_step l op in link_run l ops
  end.

(** SDUs have from 1 byte to [NR_SDU_MAX]; with 12-bit SNs the grants of two
    bytes are left out, see [um_bad_grant] *)
Definition link_op_ok (snlen : Z) (op : link_op) : Prop :=
  match op with
  | Send _ sdu _ => 0 < Z.of_nat (length sdu) <= NR_SDU_MAX
  | Grant _ buf => snlen = 6 \/ Z.of_nat (length buf) <> 2
  end.

Definition head_so (e : nr_rlc_entity_um_t) : Z :=
  match tx_list e with g :: _ => s_so g | [] => 0 end.
Definition head_data (e : nr_rlc_entity_um_t) : list Z :=
  match tx_list e with g :: _ => sdu_data_of (hp e) g | [] => [] end.

(** the invariant of the two ends: [delivered] has reached the upper layer of
    the receiver, the rest of [acc] is in the queue of the sender, and the
    receiver holds the bytes of the SDU of which only a part has been sent *)
Record um_pipe (es er : nr_rlc_entity_um_t) (acc delivered : list (list Z)) : Prop := {
  up_tx : um_wf es;
  up_rx : um_in_order er (tx_next es) (head_so es) (head_data es);
  up_snlen : sn_field_length er = sn_field_length es;
  up_modulus : sn_modulus er = sn_modulus es;
  up_rxmax : NR_SDU_MAX <= rx_maxsize er;
  up_pos : forall g, g ∈ tx_list es -> 0 < s_size g;
  up_accepted : acc = delivered ++ (sdu_data_of (hp es) <$> tx_list es)
}.

Record um_link (l : link) (delivered : list (list Z)) : Prop := {
  ul_pipe : um_pipe (sender l) (receiver l) (accepted l) delivered;
  ul_trace : trace (common (receiver l)) = deliver_sdu <$> delivered
}.

Lemma um_in_order_common e c x so D :
  um_in_order e x so D -> um_in_order (e <| common := c |>) x so D.
Proof. intros [C ? ? ? ? ? ?]. split; try done. by destruct C. Qed.

Lemma um_in_order_empty e x D D' : um_in_order e x 0 D -> um_in_order e x 0 D'.
Proof.
  intros [C ? ? ? ? ? (olds & cur & H)]. split; try done. exists olds, cur.
  destruct H as (? & ? & ? & ? & ? & Hc). split_and!; try done.
  destruct cur as [|p cur]; [done|]. destruct Hc as (P & Hs & Hc).
  apply contig_le in Hc. pose proof (po_size _ _ P). lia.
Qed.

(** the bytes of a segment at the end of its SDU *)
Lemma um_head_data e g :
  um_wf e -> g ∈ tx_list e ->
  s_so g + s_size g = Z.of_nat (length (sdu_data_of (hp e) g)) /\ 0 <= s_so g /\ 0 <= s_size g /\
  Z.of_nat (length (sdu_data_of (hp e) g)) <= NR_SDU_MAX.
Proof.
  intros W Hg. destruct (hw_segs _ _ (uw_heap _ W) g Hg) as (s & Hs & I).
  pose proof (hw_refs _ _ (uw_heap _ W) _ _ Hs) as (_ & _ & _ & Hd & Hm & _).
  destruct (uw_last _ W g Hg) as [Hl _]. destruct I as (I1 & I2 & I3 & _ & I5).
  apply I5 in Hl. unfold sdu_data_of, NR_SDU_MAX. rewrite Hs. lia.
Qed.

Lemma pipe_send_ok es er acc d now sdu id :
  um_pipe es er acc d -> 0 < Z.of_nat (length sdu) <= NR_SDU_MAX ->
  exists es', nr_rlc_entity_um_recv_sdu now es sdu id = Ok es' /\
    um_pipe es' er (if Z.of_nat (length sdu) <=? nr_rlc_entity_um_available_tx_space es then acc ++ [sdu] else acc) d /\
    sn_field_length es' = sn_field_length es /\ trace (common es') = trace (common es) /\
    sum_seg s_size (tx_list es') <= sum_seg s_size (tx_list es) + Z.of_nat (length sdu).
Proof.
  intros [W I El Em Hr Hp Ha] Hlen. unfold nr_rlc_entity_um_available_tx_space.
  destruct (um_recv_sdu_ok now es sdu id W ltac:(lia)) as (es' & -> & W' & (S1 & S2 & S3 & S4 & S5) & R).
  eexists. split; [done|].
  destruct (tx_maxsize es <? tx_size es + Z.of_nat (length sdu)) eqn:Ef.
  - destruct R as (R1 & R2 & R3). destruct (_ <=? _) eqn:E; [lia|].
    rewrite R1. split; [|split_and!; [done|done|lia]].
    split; unfold head_so, head_data; rewrite ?R1, ?R2, ?S1, ?S2, ?S3; done.
  - destruct R as (g & R1 & R2 & R3 & R4 & R5 & R6). destruct (_ <=? _) eqn:E; [|lia].
    rewrite R1. split; [|split_and!; [done|done|]].
    2: { rewrite sum_seg_app, sum_seg_cons, R3. cbn. lia. }
    split; unfold head_so, head_data; rewrite ?R1, ?S1, ?S2, ?S3; try done.
    + unfold head_so, head_data in I. destruct (tx_list es) as [|g0 k] eqn:Eq; cbn [app].
      * rewrite R2. by eapply um_in_order_empty.
      * rewrite R6 by left. done.
    + intros g' [Hg|Hg]%elem_of_app; [by apply Hp|]. apply list_elem_of_singleton in Hg. subst. lia.
    + rewrite Ha, fmap_app, app_assoc. f_equal; [|cbn; by rewrite R4]. f_equal.
      apply list_fmap_ext. intros i g' Hg. apply list_elem_of_lookup_2 in Hg. by rewrite R6.
Qed.

Lemma link_send_ok l d now sdu id :
  um_link l d -> 0 < Z.of_nat (length sdu) <= NR_SDU_MAX ->
  exists l', link_step l (Send now sdu id) = Ok l' /\ um_link l' d /\
    sn_field_length (sender l') = sn_field_length (sender l) /\
    (sum_seg s_size (tx_list (sender l')) <= sum_seg s_size (tx_list (sender l)) + Z.of_nat (length sdu)).
Proof.
  intros [P Ht] Hlen. unfold link_step.
  destruct (pipe_send_ok _ _ _ _ now sdu id P Hlen) as (es & -> & P' & E & _ & Hs). cbn [res_bind].
  eexists. split; [done|]. split; [|done]. by split.
Qed.

(** the receiver takes the PDU of the head of the queue of the sender *)
Lemma link_recv_ok es er es' g g1 rest pdu :
  um_wf es -> um_in_order er (tx_next es) (s_so g) (sdu_data_of (hp es) g) ->
  sn_field_length er = sn_field_length es -> sn_modulus er = sn_modulus es ->
  NR_SDU_MAX <= rx_maxsize er -> 0 < s_size g ->
  um_sent es pdu es' g g1 rest ->
  let D := sdu_data_of (hp es) g in
  exists er', nr_rlc_entity_um_recv_pdu er pdu = Ok er' /\
    sn_field_length er' = sn_field_length er /\ sn_modulus er' = sn_modulus er /\
    rx_maxsize er' = rx_maxsize er /\
    if s_is_last g1
    then (forall D', um_in_order er' (tx_next es') 0 D') /\
         trace (common er') = trace (common er) ++ [deliver_sdu D]
    else um_in_order er' (tx_next es') (s_so g + s_size g1) D /\
         trace (common er') = trace (common er).
Proof.
  intros W I El Em Hrx Hpos [Uq Up Uso Uf _ Ur _ [Uc1 Uc2]] D.
  assert (g ∈ tx_list es) as Hg by (rewrite Uq; left).
  destruct (um_head_data es g W Hg) as (Hd & Hso & Hsz & Hmax). fold D in Hd, Hmax, Up.
  destruct (uw_last _ W g Hg) as [Hla Hfi].
  assert (0 < s_size g1 /\ s_so g + s_size g1 <= Z.of_nat (length D) /\
    s_is_last g1 = (s_so g + s_size g1 =? Z.of_nat (length D))) as (Hp1 & He1 & Hl1).
  { destruct Ur as [(-> & _)|(Hl & ? & _)]; [rewrite Hla|rewrite Hl]; split_and!; lia. }
  pose proof Up as (hdr & Epdu & Hhdr & _).
  set (data := take _ _) in *.
  assert (Z.of_nat (length data) = s_size g1) as Hdl
    by (unfold data; rewrite length_take, length_drop; lia).
  assert (0 <= tx_next es < 2 ^ sn_field_length es) as Hsn
    by (rewrite <- (uw_modulus _ W); apply W).
  assert (s_is_first g1 = (s_so g1 =? 0)) as Hf1 by (by rewrite Uf, Uso).
  destruct (um_decode_header es er g1 (tx_next es) data pdu Up El (uw_snlen _ W) Hsn)
    as (si & d & Esi & E2 & E1 & Edec); [unfold NR_SDU_MAX in *; lia|..]; [intros E; rewrite E in Hf1; lia..|].
  unfold nr_rlc_entity_um_recv_pdu. rewrite Esi, E2, E1.
  set (er1 := on_stats _ er).
  assert (um_in_order er1 (tx_next es) (s_so g) D) as I1 by (by apply um_in_order_common).
  destruct (s_is_first g1 && s_is_last g1) eqn:Ew.
  - (* a whole SDU *)
    pose proof Ew as [Hfw Hl]%andb_true_iff.
    assert (s_so g = 0) as H0 by (rewrite Hfw in Hf1; lia).
    pose proof Hl1 as Hl1'. rewrite Hl in Hl1'.
    assert (compute_pdu_header_size es g1 = 1) as Hh.
    { unfold compute_pdu_header_size. rewrite Ew. destruct (s_is_first g1); done. }
    assert (data = D) as Ed.
    { unfold data. rewrite H0. change (drop (Z.to_nat 0) D) with D. apply take_ge. lia. }
    rewrite Epdu, length_app, Nat2Z.inj_add, Hhdr, Hh.
    destruct (1 + Z.of_nat (length data) <? 2) eqn:Es; [lia|].
    rewrite mem_read_total by (rewrite ?length_app; lia).
    replace (Z.to_nat (1 + Z.of_nat (length data) - 1)) with (length data) by lia.
    replace (Z.to_nat 1) with (length hdr) by lia.
    rewrite drop_app_length, (take_ge data), Ed by lia. cbn [res_bind].
    eexists. split; [done|]. split; [done|]. split; [done|]. split; [done|].
    rewrite Hl. split; [|done]. intros D'.
    destruct Ur as [(-> & _ & ->)|(? & _)]; [|congruence].
    unfold um_next_sn. rewrite Hfi, H0. cbn [Z.eqb negb andb].
    apply um_in_order_common, um_in_order_common, (um_in_order_empty _ _ D). by rewrite H0 in I1.
  - destruct (Edec eq_refl) as (d' & Edh & Hb).
    change (decode_header er1) with (decode_header er). rewrite Edh, Hb.
    assert (s_so g1 = 0 -> s_is_last g1 = false) as Hnl 
      by (intros E0; rewrite E0 in Hf1; rewrite Hf1 in Ew; exact Ew).
    rewrite Uso in Hnl |- *. rewrite Epdu, <- Hhdr.
    destruct (um_recv_segment_ok er1 (tx_next es) (s_so g) (s_size g1) D hdr (s_is_first g1)
                (s_is_last g1)) as (er' & Er & (K1 & K2 & _ & K4) & R); try done.
    exists er'. split; [exact Er|]. rewrite K1, K2, K4. split; [done|]. split; [done|].
    split; [done|]. destruct (s_is_last g1) eqn:El1.
    + destruct R as [R ->]. split; [|done]. intros D'.
      destruct Ur as [(-> & _ & ->)|(? & _)]; [|congruence].
      unfold um_next_sn. rewrite Hla. 
      assert (s_is_first g = false) as ->.
      { by destruct (s_is_first g). }
      cbn [negb andb].
      change (sn_modulus er1) with (sn_modulus er) in R. rewrite Em in R. apply R.
    + destruct Ur as [(-> & _)|(_ & _ & -> & _)]; [congruence|]. done.
Qed.

(** a grant: nothing, when it has no room for a byte of the head of the queue;
    or a PDU that the receiver takes *)
Lemma pipe_grant_ok es er acc d now buf :
  um_pipe es er acc d -> um_bad_grant es (Z.of_nat (length buf)) = false ->
  exists es' buf' n, nr_rlc_entity_um_generate_pdu now es buf = Ok (es', buf', n) /\ length buf' = length buf /\
    sn_field_length es' = sn_field_length es /\ trace (common es') = trace (common es) /\
    ((n = 0 /\ es' = es /\ match tx_list es with [] => True
                           | g :: _ => Z.of_nat (length buf) <= compute_pdu_header_size es g end) \/
     (0 < n <= Z.of_nat (length buf) /\ n < 65536 /\ exists er' d',
        nr_rlc_entity_um_recv_pdu er (take (Z.to_nat n) buf') = Ok er' /\
        um_pipe es' er' acc (d ++ d') /\ trace (common er') = trace (common er) ++ (deliver_sdu <$> d') /\
        sum_seg s_size (tx_list es') < sum_seg s_size (tx_list es))).
Proof.
  intros [W I El Em Hr Hp Ha] Hbad. unfold nr_rlc_entity_um_generate_pdu.
  destruct (um_generate_ok now es buf W Hbad)
    as (es' & buf' & n & E & W' & Hlen & [(-> & -> & -> & Hno)|(Hn & g & g1 & rest & S)]).
  { exists es, buf, 0. split_and!; [done..|]. by left. }
  exists es', buf', n. split; [done|]. split; [done|].
  pose proof S as [Uq Up Uso Uf Ut Ur Ud [Uc1 Uc2]]. split; [done|]. split; [done|]. right. split; [done|].
  assert (g ∈ tx_list es) as Hg by (rewrite Uq; left).
  split.
  { destruct Up as (hdr & Epdu & Hhdr & _). pose proof (um_header_pos es g1).
    destruct (um_head_data es g W Hg) as (_ & _ & _ & Hmax). apply (f_equal length) in Epdu.
    rewrite length_take, length_app, length_take, length_drop in Epdu. unfold NR_SDU_MAX in Hmax. lia. }
  pose proof I as I'. unfold head_so, head_data in I'. rewrite Uq in I'.
  destruct (link_recv_ok _ _ _ _ _ _ _ W I' El Em Hr (Hp g Hg) S) as (er' & -> & K1 & K2 & K4 & R).
  destruct (um_head_data _ g W Hg) as (Hd & Hso & Hsz & _).
  assert (forall g', g' ∈ rest -> g' ∈ tx_list es) as Hin by (rewrite Uq; intros; by right).
  assert ((sdu_data_of (hp es') <$> rest) = (sdu_data_of (hp es) <$> rest)) as Erest.
  { apply list_fmap_ext. intros i g' Hi. apply list_elem_of_lookup_2 in Hi. by apply Ud. }
  rewrite Uq, sum_seg_cons. rewrite Uq in Ha. cbn [fmap list_fmap] in Ha. exists er'.
  destruct Ur as [(-> & Eq & En)|(Hl & Hlt & En & g2 & Eq & Hso2 & Hd2)].
  - destruct (uw_last _ W g Hg) as [Hla _]. rewrite Hla in R. destruct R as [R RT].
    exists [sdu_data_of (hp es) g]. split; [done|]. split; [|split; [done|rewrite Eq; pose proof (Hp g Hg); lia]].
    split; rewrite ?K1, ?K2, ?K4, ?Uc1, ?Uc2, ?Eq; try done.
    + assert (head_so es' = 0) as ->; [|apply R]. unfold head_so. rewrite Eq.
      pose proof (uw_whole _ W) as Hwh. rewrite Uq in Hwh. destruct rest; [done|]. apply Hwh. left.
    + intros g' Hg'. by apply Hp, Hin.
    + by rewrite Erest, <- app_assoc.
  - rewrite Hl in R. destruct R as [R RT].
    assert (g2 ∈ tx_list es') as Hg2 by (rewrite Eq; left).
    destruct (um_head_data es' g2 W' Hg2) as (Hd2' & _). rewrite Hd2 in Hd2'.
    exists []. rewrite !app_nil_r. split; [done|]. split; [|split; [done|rewrite Eq, sum_seg_cons; lia]].
    split; rewrite ?K1, ?K2, ?K4, ?Uc1, ?Uc2, ?Eq; try done.
    + unfold head_so, head_data. by rewrite Eq, Hso2, Hd2.
    + intros g' [->|Hg']%elem_of_cons; [lia|by apply Hp, Hin].
    + cbn [fmap list_fmap]. by rewrite Erest, Hd2.
Qed.

Lemma link_grant_ok l d now buf :
  um_link l d -> sn_field_length (sender l) = 6 \/ Z.of_nat (length buf) <> 2 ->
  exists l' d', link_step l (Grant now buf) = Ok l' /\ um_link l' d' /\
    sn_field_length (sender l') = sn_field_length (sender l) /\ accepted l' = accepted l /\
    let n := sum_seg s_size (tx_list (sender l)) in
    let n' := sum_seg s_size (tx_list (sender l')) in
    n' <= n /\ (5 <= Z.of_nat (length buf) -> n = 0 \/ n' < n).
Proof.
  intros [P Ht] Hb.
  assert (um_bad_grant (sender l) (Z.of_nat (length buf)) = false) as Hbad.
  { unfold um_bad_grant. destruct (tx_list (sender l)); [done|].
    destruct Hb as [->|Hb]; [done|]. destruct (Z.of_nat _ =? 2) eqn:E; [lia|]. by rewrite andb_false_r. }
  destruct (pipe_grant_ok _ _ _ _ now buf P Hbad)
    as (es & buf' & n & E & _ & Es & _ & [(-> & -> & Hno)|(Hn & _ & er & d' & Er & P' & Et & Hlt)]);
    unfold link_step; rewrite E; cbn [res_bind].
  - cbn. eexists _, d. split; [done|]. split; [by split|]. split; [done|]. split; [done|].
    cbn. split; [lia|]. intros H5. left. destruct (tx_list (sender l)) as [|g k]; [done|].
    pose proof (um_header_pos (sender l) g). lia.
  - destruct (n =? 0) eqn:E0; [lia|]. rewrite Er. cbn [res_bind].
    eexists _, (d ++ d'). split; [done|]. split; [|split_and!; try done; cbn; lia].
    split; [done|]. cbn. by rewrite Et, Ht, fmap_app.
Qed.

Definition sum_bytes (l : list (list Z)) : Z := foldr (fun b acc => Z.of_nat (length b) + acc) 0 l.

Lemma pipe_pending_nonneg es er acc d : um_pipe es er acc d -> 0 <= sum_seg s_size (tx_list es).
Proof. intros P. apply sum_seg_nonneg. intros g Hg. by apply Z.lt_le_incl, (up_pos _ _ _ _ P). Qed.

Lemma pipe_empty es er acc d : um_pipe es er acc d -> sum_seg s_size (tx_list es) <= 0 -> tx_list es = [].
Proof.
  intros P Hk. destruct (tx_list es) as [|g rest] eqn:Eq; [done|]. rewrite sum_seg_cons in Hk.
  pose proof (up_pos _ _ _ _ P g ltac:(rewrite Eq; left)).
  assert (0 <= sum_seg s_size rest).
  { apply sum_seg_nonneg. intros g' Hg'. apply Z.lt_le_incl, (up_pos _ _ _ _ P). rewrite Eq. by right. }
  lia.
Qed.

Lemma link_run_app l ops ops' : link_run l (ops ++ ops') = (let* l := link_run l ops in link_run l ops').
Proof.
  revert l. induction ops as [|op ops IH]; intros l; [done|]. cbn.
  destruct (link_step l op); cbn; auto.
Qed.

Lemma link_run_ok snlen ops : forall l d,
  um_link l d -> sn_field_length (sender l) = snlen -> Forall (link_op_ok snlen) ops ->
  exists l' d', link_run l ops = Ok l' /\ um_link l' d' /\ sn_field_length (sender l') = snlen.
Proof.
  induction ops as [|op ops IH]; intros l d L E Hops; cbn [link_run]; [by exists l, d|].
  inversion Hops as [|?? Hop Hops']; subst. destruct op as [now sdu id|now buf].
  - destruct (link_send_ok l d now sdu id L Hop) as (l1 & -> & L1 & E1 & _). cbn [res_bind].
    apply (IH l1 d); done.
  - destruct (link_grant_ok l d now buf L Hop) as (l1 & d1 & -> & L1 & E1 & _). cbn [res_bind].
    apply (IH l1 d1); done.
Qed.

Lemma link_drain now buf : 5 <= Z.of_nat (length buf) -> forall k l d,
  um_link l d -> sum_seg s_size (tx_list (sender l)) <= Z.of_nat k ->
  exists l', link_run l (replicate k (Grant now buf)) = Ok l' /\
    um_link l' (accepted l') /\ accepted l' = accepted l.
Proof.
  intros H5. induction k as [|k IH]; intros l d L Hk.
  - exists l. split; [done|]. split; [|done].
    assert (tx_list (sender l) = []) as En by (eapply pipe_empty; [apply L|done]).
    pose proof (up_accepted _ _ _ _ (ul_pipe _ _ L)) as Ha. rewrite En in Ha. cbn in Ha. rewrite app_nil_r in Ha.
    by rewrite Ha.
  - cbn [replicate link_run].
    destruct (link_grant_ok l d now buf L ltac:(right; lia)) as (l1 & d1 & -> & L1 & E1 & Ea & Hm).
    cbn [res_bind]. cbn in Hm. destruct (IH l1 d1 L1) as (l2 & -> & L2 & Ea2).
    + pose proof (pipe_pending_nonneg _ _ _ _ (ul_pipe _ _ L1)).
      destruct Hm as [Hm1 Hm2]. destruct (Hm2 H5); lia.
    + exists l2. split; [done|]. split; [done|]. congruence.
Qed.

Lemma pipe_pending es er acc d :
  um_pipe es er acc d -> sum_seg s_size (tx_list es) <= sum_bytes acc.
Proof.
  intros L. rewrite (up_accepted _ _ _ _ L). unfold sum_bytes. rewrite foldr_app.
  assert (forall k a, (forall g, g ∈ k -> g ∈ tx_list es) -> 0 <= a ->
    sum_seg s_size k + a <=
    foldr (fun b acc => Z.of_nat (length b) + acc) a (sdu_data_of (hp es) <$> k)) as Hk.
  { induction k as [|g k IH]; intros a Hin Ha; [done|]. cbn [fmap list_fmap foldr].
    rewrite sum_seg_cons.
    destruct (um_head_data _ g (up_tx _ _ _ _ L) (Hin g ltac:(left))) as (? & ? & _).
    pose proof (IH a ltac:(intros; apply Hin; by right) Ha). unfold fmap in *. lia. }
  assert (forall a, a <= foldr (fun b acc => Z.of_nat (length b) + acc) a d) as Hd
    by (clear; intros a; induction d as [|b d IH]; cbn; lia).
  pose proof (Hk (tx_list es) 0 ltac:(done) ltac:(lia)).
  pose proof (Hd (foldr (fun b acc => Z.of_nat (length b) + acc) 0 (sdu_data_of (hp es) <$> tx_list es))). lia.
Qed.

Lemma um_pipe_new rx_max tx_max t_reass rx_max' tx_max' t_reass' snlen es er :
  new_nr_rlc_entity_um rx_max tx_max t_reass snlen = Ok es ->
  new_nr_rlc_entity_um rx_max' tx_max' t_reass' snlen = Ok er ->
  NR_SDU_MAX <= rx_max' -> um_pipe es er [] [] /\ sn_field_length es = snlen /\ trace (common er) = [].
Proof.
  intros Hs Hr Hmax. pose proof (um_new_wf _ _ _ _ _ Hs) as W. pose proof (um_new_wf _ _ _ _ _ Hr) as W'.
  unfold new_nr_rlc_entity_um, common_init in *.
  destruct (_ || _) eqn:El in Hs; [|done]. rewrite El in Hr. cbn [negb] in *. res_inv. cbn in *.
  split; [|done]. split; cbn; try done; [|intros g Hg; by apply not_elem_of_nil in Hg].
  pose proof (uw_modulus _ W') as Hm. pose proof (uw_window _ W') as Hw. cbn in Hm, Hw.
  split; cbn; try done.
  - split; cbn; rewrite ?Hm, ?Hw; destruct (uw_snlen _ W) as [E|E]; cbn in E; rewrite E; done.
  - rewrite Hm. destruct (uw_snlen _ W) as [E|E]; cbn in E; rewrite E; done.
  - exists [], []. split_and!; try done.
Qed.


Definition link_example : list link_op :=
  [Send 0 [1;2;3;4;5;6;7;8;9;10] 0; Send 0 [11;12;13] 1; Grant 0 [0;0;0;0;0];
   Grant 0 (replicate 6 0); Send 1 [14] 2].

