(* ===== verification/RlcAm.v ===== *)
(** * The acknowledged mode RLC entity

    Models [openair2/LAYER2/nr_rlc/nr_rlc_entity_am.c]: every function of
    the file, in its order.  [now] is the result of [time_average_now]. *)
From S2P Require Export Prelude RlcPdu RlcSdu RlcCommon RlcRxManager.

Record nr_rlc_entity_am_t := Mk_am {
  common : nr_rlc_entity_t;
  (* configuration *)
  t_poll_retransmit : Z;
  t_reassembly : Z;
  t_status_prohibit : Z;
  poll_pdu : Z;               (* -1 means infinity *)
  poll_byte : Z;              (* -1 means infinity *)
  max_retx_threshold : Z;
  sn_field_length : Z;
  sn_modulus : Z;
  window_size : Z;
  (* runtime rx *)
  rx_next : Z;
  rx_next_status_trigger : Z;
  rx_highest_status : Z;
  rx_next_highest : Z;
  status_triggered : bool;
  (* runtime tx *)
  tx_next : Z;
  tx_next_ack : Z;
  poll_sn : Z;
  pdu_without_poll : Z;
  byte_without_poll : Z;
  force_poll : bool;
  t_current : Z;
  t_log_buffer_full : Z;
  sdu_rejected : Z;
  (* timers, 0 means not active *)
  t_poll_retransmit_start : Z;
  t_reassembly_start : Z;
  t_status_prohibit_start : Z;
  (* rx management *)
  rx : nr_rlc_rx_manager_t;
  rx_size : Z;
  rx_maxsize : Z;
  (* tx management *)
  tx_list : list nr_rlc_sdu_segment_t;
  tx_end : option Z;
  tx_size : Z;
  tx_maxsize : Z;
  wait_list : list nr_rlc_sdu_segment_t;
  wait_end : option Z;
  retransmit_list : list nr_rlc_sdu_segment_t
}.
#[export] Instance eta_am : Eta nr_rlc_entity_am_t := fun e =>
  Mk_am (common e) (t_poll_retransmit e) (t_reassembly e) (t_status_prohibit e)
    (poll_pdu e) (poll_byte e) (max_retx_threshold e) (sn_field_length e) (sn_modulus e)
    (window_size e) (rx_next e) (rx_next_status_trigger e) (rx_highest_status e)
    (rx_next_highest e) (status_triggered e) (tx_next e) (tx_next_ack e) (poll_sn e)
    (pdu_without_poll e) (byte_without_poll e) (force_poll e) (t_current e)
    (t_log_buffer_full e) (sdu_rejected e) (t_poll_retransmit_start e)
    (t_reassembly_start e) (t_status_prohibit_start e) (rx e) (rx_size e) (rx_maxsize e)
    (tx_list e) (tx_end e) (tx_size e) (tx_maxsize e) (wait_list e) (wait_end e)
    (retransmit_list e).

(** updates of the common part *)
Definition on_common (f : nr_rlc_entity_t -> nr_rlc_entity_t) (e : nr_rlc_entity_am_t)
  : nr_rlc_entity_am_t := e <| common := f (common e) |>.
Definition on_stats (f : nr_rlc_statistics_t -> nr_rlc_statistics_t) :=
  on_common (fun c => c <| stats := f (stats c) |>).
Definition add_bs_tx (n : Z) :=
  on_common (fun c => c <| bstatus := (bstatus c) <| bs_tx_size := bs_tx_size (bstatus c) + n |> |>).
Definition add_bs_retx (n : Z) :=
  on_common (fun c => c <| bstatus := (bstatus c) <| bs_retx_size := bs_retx_size (bstatus c) + n |> |>).
Definition set_heap (h : heap) := on_common (fun c => c <| sdu_heap := h |>).
Definition hp (e : nr_rlc_entity_am_t) : heap := sdu_heap (common e).

Definition compute_pdu_header_size (e : nr_rlc_entity_am_t) (sdu : nr_rlc_sdu_segment_t) : Z :=
  let header_size := 2 in
  let header_size := if sn_field_length e =? 18 then header_size + 1 else header_size in
  if negb (s_is_first sdu) then header_size + 2 else header_size.

(** ** PDU RX functions *)

Definition modulus_rx (e : nr_rlc_entity_am_t) (a : Z) : Z :=
  let r := a - rx_next e in
  if r <? 0 then r + sn_modulus e else r.

Definition modulus_tx (e : nr_rlc_entity_am_t) (a : Z) : Z :=
  let r := a - tx_next_ack e in
  if r <? 0 then r + sn_modulus e else r.

Definition sn_in_recv_window (e : nr_rlc_entity_am_t) (sn : Z) : bool :=
  modulus_rx e sn <? window_size e.

Definition sn_compare_rx (e : nr_rlc_entity_am_t) (a b : Z) : Z :=
  modulus_rx e a - modulus_rx e b.

Definition sn_compare_tx (e : nr_rlc_entity_am_t) (a b : Z) : Z :=
  modulus_tx e a - modulus_tx e b.

(** [p->sdu->sn] *)
Definition seg_sn (h : heap) (g : nr_rlc_sdu_segment_t) : res Z :=
  let* s := get_sdu h (s_sdu g) in Ok (sdu_sn s).

Fixpoint nr_rlc_tx_sdu_segment_list_add (e : nr_rlc_entity_am_t)
    (l : list nr_rlc_sdu_segment_t) (sdu_segment : nr_rlc_sdu_segment_t)
  : res (list nr_rlc_sdu_segment_t) :=
  match l with
  | [] => Ok [sdu_segment]
  | cur :: next =>
    let* cur_sn := seg_sn (hp e) cur in
    let* sn := seg_sn (hp e) sdu_segment in
    if (0 <? sn_compare_tx e cur_sn sn) || ((cur_sn =? sn) && (s_so sdu_segment <? s_so cur))
    then Ok (sdu_segment :: cur :: next)
    else let* l := nr_rlc_tx_sdu_segment_list_add e next sdu_segment in Ok (cur :: l)
  end.

(** the bytes of [so, so+size) still not covered after the list *)
Fixpoint not_covered (l : list nr_rlc_pdu_t) (so size : Z) : Z :=
  match l with
  | [] => size
  | x :: l =>
    if size <=? 0 then size
    else if (p_so x <=? so) && (so <? p_so x + p_size x) then
      let covered := p_size x - (so - p_so x) in
      not_covered l (so + covered) (size - covered)
    else if (p_so x <=? so + size - 1) && (so + size - 1 <? p_so x + p_size x) then
      let covered := size - (p_so x - so) in
      not_covered l so (size - covered)
    else not_covered l so size
  end.

Definition segment_already_received (e : nr_rlc_entity_am_t) (sn so size : Z) : res bool :=
  let* l := nr_rlc_rx_manager_get_pdu_from_sn (rx e) sn in
  Ok (not_covered l so size <=? 0).

(** [l != NULL && l->data == NULL] *)
Definition delivered (l : list nr_rlc_pdu_t) : bool :=
  match l with p :: _ => match p_data p with None => true | Some _ => false end | [] => false end.

Fixpoint full_from (l : list nr_rlc_pdu_t) (last_byte : Z) : bool :=
  match l with
  | [] => false
  | x :: l =>
    if last_byte + 1 <? p_so x then false
    else if p_is_last x then true
    else full_from l (Z.max last_byte (p_so x + p_size x - 1))
  end.

Definition sdu_full (e : nr_rlc_entity_am_t) (sn : Z) : res bool :=
  let* l := nr_rlc_rx_manager_get_pdu_from_sn (rx e) sn in
  Ok (if delivered l then false else full_from l (-1)).

Definition sdu_delivered (e : nr_rlc_entity_am_t) (sn : Z) : res bool :=
  let* l := nr_rlc_rx_manager_get_pdu_from_sn (rx e) sn in
  Ok (delivered l).

Fixpoint missing_from (l : list nr_rlc_pdu_t) (last_byte : Z) : bool :=
  match l with
  | [] => false
  | x :: l =>
    if last_byte + 1 <? p_so x then true
    else missing_from l (Z.max last_byte (p_so x + p_size x - 1))
  end.

Definition sdu_has_missing_bytes (e : nr_rlc_entity_am_t) (sn : Z) : res bool :=
  let* l := nr_rlc_rx_manager_get_pdu_from_sn (rx e) sn in
  Ok (if delivered l then false else missing_from l (-1)).

(** the reassembly buffer [sdu] holds [so] bytes; the result has the list
    with its data freed, the final state of the buffer and [rx_size] *)
Fixpoint reassemble_loop (l : list nr_rlc_pdu_t) (so : Z) (bad_sdu : bool) (sdu : list Z)
    (rx_size : Z) : res (list nr_rlc_pdu_t * Z * bool * list Z * Z) :=
  match l with
  | [] => Ok ([], so, bad_sdu, sdu, rx_size)
  | pdu :: next =>
    let len := p_size pdu - (so - p_so pdu) in
    let bad_sdu := bad_sdu || (NR_SDU_MAX <? so + len) in
    let* '(so, sdu) :=
      if negb bad_sdu && (0 <? len) then
        let* data := of_option Null_deref (p_data pdu) in
        let* chunk := mem_read data (so - p_so pdu) len in
        Ok (so + len, sdu ++ chunk)
      else Ok (so, sdu) in
    let* '(next, so, bad_sdu, sdu, rx_size) :=
      reassemble_loop next so bad_sdu sdu (rx_size - p_size pdu) in
    Ok (pdu <| p_data := None |> :: next, so, bad_sdu, sdu, rx_size)
  end.

Definition reassemble_and_deliver (e : nr_rlc_entity_am_t) (sn : Z) : res nr_rlc_entity_am_t :=
  let* pdu := nr_rlc_rx_manager_get_pdu_from_sn (rx e) sn in
  let* '(pdu, so, bad_sdu, sdu, size) := reassemble_loop pdu 0 false [] (rx_size e) in
  let* m := rxm_write (rx e) (get_pos (rx e) sn) pdu in
  let e := e <| rx := m |> <| rx_size := size |> in
  if bad_sdu : bool then Ok e
  else
    let e := on_common (emit (deliver_sdu sdu)) e in
    Ok (on_stats (fun s => s <| txsdu_pkts +=32 1 |>) e).

(** [while (sdu_delivered(entity, sn)) sn = (sn + 1) % sn_modulus] *)
Fixpoint skip_delivered (fuel : nat) (e : nr_rlc_entity_am_t) (sn : Z) : res Z :=
  match fuel with
  | O => Err No_fuel
  | S n =>
    let* d := sdu_delivered e sn in
    if d : bool then skip_delivered n e ((sn + 1) `rem` sn_modulus e) else Ok sn
  end.

(** if one slot is not delivered the loop meets it within one turn *)
Definition skip_fuel (e : nr_rlc_entity_am_t) : nat := S (Z.to_nat (rxm_size (rx e))).

(** frees the delivered SDUs at the head of the window; every iteration
    empties a slot *)
Fixpoint free_delivered (fuel : nat) (modulus : Z) (m : nr_rlc_rx_manager_t)
    (rx_next count : Z) : res (nr_rlc_rx_manager_t * Z * Z) :=
  match fuel with
  | O => Err No_fuel
  | S n =>
    let* l := nr_rlc_rx_manager_get_pdu_from_sn m rx_next in
    if delivered l then
      let* m := nr_rlc_rx_manager_clear_pdu m rx_next in
      free_delivered n modulus m ((rx_next + 1) `rem` modulus) (count + 1)
    else Ok (m, rx_next, count)
  end.

Definition reception_full (e : nr_rlc_entity_am_t) (x : Z) : res nr_rlc_entity_am_t :=
  let* e := reassemble_and_deliver e x in
  let* e :=
    if x =? rx_highest_status e then
      let* sn := skip_delivered (skip_fuel e) e (rx_highest_status e) in
      Ok (e <| rx_highest_status := sn |>)
    else Ok e in
  if x =? rx_next e then
    let* '(m, next, count) := free_delivered (skip_fuel e) (sn_modulus e) (rx e) (rx_next e) 0 in
    let e := e <| rx_next := next |> in
    let m := nr_rlc_rx_manager_advance m count in
    Ok (e <| rx := nr_rlc_rx_manager_set_start m next |>)
  else Ok e.

(** the two updates of t_reassembly (38.322 5.2.3.2.3) *)
Definition reception_timer (e : nr_rlc_entity_am_t) : res nr_rlc_entity_am_t :=
  let* missing := sdu_has_missing_bytes e (rx_next e) in
  let next := (rx_next e + 1) `rem` sn_modulus e in
  let e :=
    if negb (t_reassembly_start e =? 0) &&
       ((rx_next_status_trigger e =? rx_next e)
        || ((rx_next_status_trigger e =? next) && negb missing)
        || (negb (sn_in_recv_window e (rx_next_status_trigger e)) &&
            negb (rx_next_status_trigger e =?
                    (rx_next e + window_size e) `rem` sn_modulus e)))
    then e <| t_reassembly_start := 0 |> else e in
  if t_reassembly_start e =? 0 then
    if (0 <? sn_compare_rx e (rx_next_highest e) next)
       || ((rx_next_highest e =? next) && missing)
    then Ok (e <| t_reassembly_start := t_current e |>
               <| rx_next_status_trigger := rx_next_highest e |>)
    else Ok e
  else Ok e.

Definition reception_actions (e : nr_rlc_entity_am_t) (pdu : nr_rlc_pdu_t)
  : res nr_rlc_entity_am_t :=
  let x := p_sn pdu in
  let e :=
    if 0 <=? sn_compare_rx e x (rx_next_highest e)
    then e <| rx_next_highest := (x + 1) `rem` sn_modulus e |> else e in
  let* full := sdu_full e x in
  let* e := if full : bool then reception_full e x else Ok e in
  reception_timer e.

Definition so_overlap (s1 e1 s2 e2 : Z) : bool :=
  if s1 <? s2 then (e1 =? -1) || (s2 <=? e1)
  else (e2 =? -1) || (s1 <=? e2).

(** *** Control PDUs *)

Definition snbits (e : nr_rlc_entity_am_t) : nat := Z.to_nat (sn_field_length e).

(** first pass: the header, every read checked by [R]; [None] is [goto err] *)
Definition check_control_header (e : nr_rlc_entity_am_t) (d : nr_rlc_pdu_decoder_t)
  : option (Z * Z * nr_rlc_pdu_decoder_t) :=
  '(_, d) ← get_bits_R d 1;
  '(cpt, d) ← get_bits_R d 3;
  if negb (cpt =? 0) then None else
  '(ack_sn, d) ← get_bits_R d (snbits e);
  '(e1, d) ← get_bits_R d 1;
  '(_, d) ← get_bits_R d (if (sn_field_length e =? 18)%Z then 1 else 7)%nat;
  Some (ack_sn, e1, d).

Record nack_t := Mk_nack {
  nack_sn : Z;
  nack_e1 : Z;
  nack_so_start : Z;
  nack_so_end : Z;     (** -1 means until the end of the SDU *)
  nack_range : Z
}.

(** first pass: one NACK block *)
Definition check_nack (e : nr_rlc_entity_am_t) (d : nr_rlc_pdu_decoder_t)
  : option (nack_t * nr_rlc_pdu_decoder_t) :=
  '(nack_sn, d) ← get_bits_R d (snbits e);
  '(e1, d) ← get_bits_R d 1;
  '(e2, d) ← get_bits_R d 1;
  '(e3, d) ← get_bits_R d 1;
  '(_, d) ← get_bits_R d (if (sn_field_length e =? 18)%Z then 3 else 1)%nat;
  '(so_start, so_end, d) ←
    (if negb (e2 =? 0) then
      '(s, d) ← get_bits_R d 16;
      '(t, d) ← get_bits_R d 16;
      Some (s, t, d)
    else Some (0, 65535, d));
  '(range, d) ←
    (if negb (e3 =? 0) then get_bits_R d 8 else Some (1, d));
  let so_end := if so_end =? 65535 then -1 else so_end in
  Some (Mk_nack nack_sn e1 so_start so_end range, d).

(** the checks on the SNs of a range; [prev] is (sn, so_start, so_end) of the
    previous NACK, with sn = -1 for none: the variables [prev_*] are not
    assigned in the first pass *)
Fixpoint check_range (e : nr_rlc_entity_am_t) (ack_sn : Z) (prev : Z * Z * Z) (n : nack_t)
    (count : nat) (i : Z) : bool :=
  match count with
  | O => true
  | S count =>
    let cur_nack_sn := (nack_sn n + i) `rem` sn_modulus e in
    let cur_so_start := if i =? 0 then nack_so_start n else 0 in
    let '(prev_nack_sn, prev_so_start, prev_so_end) := prev in
    let cmp := sn_compare_tx e cur_nack_sn prev_nack_sn in
    if negb (prev_nack_sn =? -1) &&
       ((cmp <? 0) || ((cmp =? 0) && ((prev_so_end =? -1) || (cur_so_start <=? prev_so_end))))
    then false
    else if 0 <? sn_compare_tx e cur_nack_sn ack_sn then false
    else check_range e ack_sn prev n count (i + 1)
  end.

Definition no_prev : Z * Z * Z := (-1, 0, 0).

(** every iteration reads at least two bytes, so the length of the buffer
    is enough fuel *)
Fixpoint check_nacks (fuel : nat) (e : nr_rlc_entity_am_t) (ack_sn e1 : Z)
    (d : nr_rlc_pdu_decoder_t) : res bool :=
  if e1 =? 0 then Ok true else
  match fuel with
  | O => Err No_fuel
  | S fuel =>
    match check_nack e d with
    | None => Ok false
    | Some (n, d) =>
      if check_range e ack_sn no_prev n (Z.to_nat (nack_range n)) 0
      then check_nacks fuel e ack_sn (nack_e1 n) d
      else Ok false
    end
  end.

(** the first pass: is the control PDU processed? *)
Definition validate_control_pdu (e : nr_rlc_entity_am_t) (buffer : list Z) : res bool :=
  match check_control_header e (nr_rlc_pdu_decoder_init buffer) with
  | None => Ok false
  | Some (ack_sn, e1, d) =>
    if 0 <? sn_compare_tx e ack_sn (tx_next e) then Ok false
    else check_nacks (length buffer) e ack_sn e1 d
  end.

(** second pass: the same reads without checks *)
Definition read_control_header (e : nr_rlc_entity_am_t) (d : nr_rlc_pdu_decoder_t)
  : Z * Z * nr_rlc_pdu_decoder_t :=
  let '(_, d) := nr_rlc_pdu_decoder_get_bits d 1 in
  let '(_, d) := nr_rlc_pdu_decoder_get_bits d 3 in
  let '(ack_sn, d) := nr_rlc_pdu_decoder_get_bits d (snbits e) in
  let '(e1, d) := nr_rlc_pdu_decoder_get_bits d 1 in
  let '(_, d) := nr_rlc_pdu_decoder_get_bits d (if (sn_field_length e =? 18)%Z then 1 else 7)%nat in
  (ack_sn, e1, d).

Definition read_nack (e : nr_rlc_entity_am_t) (d : nr_rlc_pdu_decoder_t)
  : nack_t * nr_rlc_pdu_decoder_t :=
  let '(nack_sn, d) := nr_rlc_pdu_decoder_get_bits d (snbits e) in
  let '(e1, d) := nr_rlc_pdu_decoder_get_bits d 1 in
  let '(e2, d) := nr_rlc_pdu_decoder_get_bits d 1 in
  let '(e3, d) := nr_rlc_pdu_decoder_get_bits d 1 in
  let '(_, d) := nr_rlc_pdu_decoder_get_bits d (if (sn_field_length e =? 18)%Z then 3 else 1)%nat in
  let '(so_start, so_end, d) :=
    if negb (e2 =? 0) then
      let '(s, d) := nr_rlc_pdu_decoder_get_bits d 16 in
      let '(t, d) := nr_rlc_pdu_decoder_get_bits d 16 in
      (s, t, d)
    else (0, 65535, d) in
  let '(range, d) :=
    if negb (e3 =? 0) then nr_rlc_pdu_decoder_get_bits d 8 else (1, d) in
  let so_end := if so_end =? 65535 then -1 else so_end in
  (Mk_nack nack_sn e1 so_start so_end range, d).

(** the state of the second pass.  The wait list is [cp_kept ++ cp_rest]:
    [prev_wait_list] is the last node of [cp_kept] (or the head), and
    [cur_wait_list] is [cp_rest], or NULL once [cp_wait_null] is set.  The
    new retransmit list is [cp_new] up to [new_retransmit_list], whose
    [next] field is [cp_tail]. *)
Record cp_state := Mk_cp {
  cp_e : nr_rlc_entity_am_t;
  cp_kept : list nr_rlc_sdu_segment_t;
  cp_rest : list nr_rlc_sdu_segment_t;
  cp_wait_null : bool;
  cp_new : list nr_rlc_sdu_segment_t;
  cp_tail : list nr_rlc_sdu_segment_t;
  cp_retx : list nr_rlc_sdu_segment_t;           (** [cur_retransmit_list] *)
  cp_end : option (option Z)                      (** [end_wait_list]; [Some None] is the head *)
}.
#[export] Instance eta_cp : Eta cp_state := fun s =>
  Mk_cp (cp_e s) (cp_kept s) (cp_rest s) (cp_wait_null s) (cp_new s) (cp_tail s)
    (cp_retx s) (cp_end s).

Definition cp_wait (s : cp_state) : list nr_rlc_sdu_segment_t :=
  if cp_wait_null s then [] else cp_rest s.

(** where the goto goes after a segment *)
Inductive cp_ctl :=
  | Process_next_pdu (s : cp_state)
  | Done_nack (s : cp_state)
  | Lists_over (s : cp_state).

(** frees an acked segment and reports the delivery of its SDU *)
Definition free_acked (e : nr_rlc_entity_am_t) (cur : nr_rlc_sdu_segment_t)
  : res nr_rlc_entity_am_t :=
  let* sdu := get_sdu (hp e) (s_sdu cur) in
  let* '(h, freed) := nr_rlc_free_sdu_segment (hp e) cur in
  let e := set_heap h e in
  if freed : bool then
    let e := e <| tx_size := tx_size e - sdu_size sdu |> in
    let e := on_stats (fun s => s <| txsdu_bytes +=64 sdu_size sdu |>) e in
    Ok (on_common (emit (sdu_successful_delivery (sdu_upper_layer_id sdu))) e)
  else Ok e.

(** unlinks the head of [cp_rest] *)
Definition unlink_wait (s : cp_state) (cur : nr_rlc_sdu_segment_t)
    (next : list nr_rlc_sdu_segment_t) : cp_state :=
  let s := if decide (wait_end (cp_e s) = Some (s_addr cur))
           then s <| cp_end := Some (tail_of (cp_kept s)) |> else s in
  s <| cp_rest := next |>.

(** a nacked segment of the wait list: its retransmission is counted, and
    reported when over the threshold *)
Definition nack_segment (e : nr_rlc_entity_am_t) (cur : nr_rlc_sdu_segment_t)
  : res nr_rlc_entity_am_t :=
  let* sdu := get_sdu (hp e) (s_sdu cur) in
  let sdu := sdu <| sdu_retx_count := sdu_retx_count sdu + 1 |> in
  let e := set_heap (set_sdu (hp e) (s_sdu cur) sdu) e in
  let e :=
    if max_retx_threshold e * sdu_ref_count sdu <=? sdu_retx_count sdu
    then on_common (emit max_retx_reached) e else e in
  Ok (add_bs_retx (compute_pdu_header_size e cur + s_size cur) e).

Definition process_wait_list_head (cur_nack_sn cur_so_start cur_so_end ack_sn : Z)
    (s : cp_state) (cur : nr_rlc_sdu_segment_t) (next : list nr_rlc_sdu_segment_t)
  : res cp_ctl :=
  let e := cp_e s in
  let* sn := seg_sn (hp e) cur in
  if (sn =? cur_nack_sn)
     && so_overlap cur_so_start cur_so_end (s_so cur) (s_so cur + s_size cur - 1)
  then
    let s := unlink_wait s cur next in
    let s := s <| cp_new := cp_new s ++ [cur] |> <| cp_tail := [] |> in
    let* e := nack_segment e cur in
    Ok (Process_next_pdu (s <| cp_e := e |>))
  else
    let cmp := sn_compare_tx e sn cur_nack_sn in
    if (0 <? cmp) || ((cmp =? 0) && (cur_so_start <? s_so cur)) then Ok (Done_nack s)
    else if sn_compare_tx e sn ack_sn <? 0 then
      let s := unlink_wait s cur next in
      let* e := free_acked e cur in
      Ok (Process_next_pdu (s <| cp_e := e |>))
    else if 0 <? sn_compare_tx e sn ack_sn then
      Ok (Process_next_pdu (s <| cp_wait_null := true |>))
    else
      Ok (Process_next_pdu (s <| cp_kept := cp_kept s ++ [cur] |> <| cp_rest := next |>)).

Definition process_retransmit_list_head (cur_nack_sn cur_so_start cur_so_end ack_sn : Z)
    (s : cp_state) (cur : nr_rlc_sdu_segment_t) (next : list nr_rlc_sdu_segment_t)
  : res cp_ctl :=
  let e := cp_e s in
  let* sn := seg_sn (hp e) cur in
  if (sn =? cur_nack_sn)
     && so_overlap cur_so_start cur_so_end (s_so cur) (s_so cur + s_size cur - 1)
  then Ok (Process_next_pdu (s <| cp_new := cp_new s ++ [cur] |> <| cp_tail := [] |>
                               <| cp_retx := next |>))
  else
    let cmp := sn_compare_tx e sn cur_nack_sn in
    if (0 <? cmp) || ((cmp =? 0) && (cur_so_start <? s_so cur)) then Ok (Done_nack s)
    else if sn_compare_tx e sn ack_sn <? 0 then
      let s := s <| cp_retx := next |> in
      let e := add_bs_retx (- (compute_pdu_header_size e cur + s_size cur)) e in
      let* e := free_acked e cur in
      Ok (Process_next_pdu (s <| cp_e := e |>))
    else if (match cp_wait s with [] => true | _ => false end) then
      Ok (Lists_over (s <| cp_tail := cur :: next |> <| cp_retx := [] |>))
    else
      Ok (Process_next_pdu (s <| cp_new := cp_new s ++ [cur] |> <| cp_tail := [] |>
                               <| cp_retx := next |>)).

(** [process_next_pdu]: the smallest of the two heads *)
Definition process_next_pdu (cur_nack_sn cur_so_start cur_so_end ack_sn : Z) (s : cp_state)
  : res cp_ctl :=
  match cp_wait s, cp_retx s with
  | [], [] => Ok (Lists_over s)
  | [], r :: rs =>
    process_retransmit_list_head cur_nack_sn cur_so_start cur_so_end ack_sn s r rs
  | w :: ws, [] =>
    process_wait_list_head cur_nack_sn cur_so_start cur_so_end ack_sn s w ws
  | w :: ws, r :: rs =>
    let* wsn := seg_sn (hp (cp_e s)) w in
    let* rsn := seg_sn (hp (cp_e s)) r in
    let cmp := sn_compare_tx (cp_e s) wsn rsn in
    if (cmp <? 0) || ((cmp =? 0) && (s_so w <? s_so r))
    then process_wait_list_head cur_nack_sn cur_so_start cur_so_end ack_sn s w ws
    else process_retransmit_list_head cur_nack_sn cur_so_start cur_so_end ack_sn s r rs
  end.

(** the goto loop for one SN of a NACK; a step consumes a segment of one of
    the lists, so their total length is enough fuel.  The boolean is true
    when the lists are over. *)
Fixpoint process_one_nack (fuel : nat) (cur_nack_sn cur_so_start cur_so_end ack_sn : Z)
    (s : cp_state) : res (cp_state * bool) :=
  let* c := process_next_pdu cur_nack_sn cur_so_start cur_so_end ack_sn s in
  match c with
  | Done_nack s => Ok (s, false)
  | Lists_over s => Ok (s, true)
  | Process_next_pdu s =>
    match fuel with
    | O => Err No_fuel
    | S n => process_one_nack n cur_nack_sn cur_so_start cur_so_end ack_sn s
    end
  end.

Definition cp_fuel (s : cp_state) : nat := length (cp_wait s) + length (cp_retx s).

Fixpoint process_nack_range (e0 : nr_rlc_entity_am_t) (ack_sn : Z) (n : nack_t)
    (count : nat) (i : Z) (s : cp_state) : res cp_state :=
  match count with
  | O => Ok s
  | S count =>
    let cur_nack_sn := (nack_sn n + i) `rem` sn_modulus e0 in
    let cur_so_start := if i =? 0 then nack_so_start n else 0 in
    let cur_so_end := if i =? nack_range n - 1 then nack_so_end n else -1 in
    let* '(s, over) :=
      process_one_nack (cp_fuel s) cur_nack_sn cur_so_start cur_so_end ack_sn s in
    if over : bool then Ok s else process_nack_range e0 ack_sn n count (i + 1) s
  end.

(** the NACK case of 38.322 5.3.3.3, at [lists_over] *)
Definition nack_stops_poll (n : nack_t) (e : nr_rlc_entity_am_t) : nr_rlc_entity_am_t :=
  if (sn_compare_tx e (nack_sn n) (poll_sn e) <=? 0)
     && (sn_compare_tx e (poll_sn e) ((nack_sn n + nack_range n) `rem` sn_modulus e) <? 0)
  then e <| t_poll_retransmit_start := 0 |> else e.

Fixpoint process_nacks (fuel : nat) (ack_sn e1 : Z) (d : nr_rlc_pdu_decoder_t)
    (s : cp_state) : res cp_state :=
  if e1 =? 0 then Ok s else
  match fuel with
  | O => Err No_fuel
  | S fuel =>
    let '(n, d) := read_nack (cp_e s) d in
    let* s := process_nack_range (cp_e s) ack_sn n (Z.to_nat (nack_range n)) 0 s in
    let s := s <| cp_e := nack_stops_poll n (cp_e s) |> in
    process_nacks fuel ack_sn (nack_e1 n) d s
  end.

(** the two loops "finish with ack" *)
Fixpoint ack_wait_list (ack_sn : Z) (l : list nr_rlc_sdu_segment_t) (s : cp_state)
  : res cp_state :=
  match l with
  | [] => Ok s
  | cur :: next =>
    let* sn := seg_sn (hp (cp_e s)) cur in
    if sn_compare_tx (cp_e s) sn ack_sn <? 0 then
      let s := unlink_wait s cur next in
      let* e := free_acked (cp_e s) cur in
      ack_wait_list ack_sn next (s <| cp_e := e |>)
    else Ok s
  end.

Fixpoint ack_retransmit_list (ack_sn : Z) (l : list nr_rlc_sdu_segment_t) (s : cp_state)
  : res cp_state :=
  match l with
  | [] => Ok s
  | cur :: next =>
    let* sn := seg_sn (hp (cp_e s)) cur in
    if sn_compare_tx (cp_e s) sn ack_sn <? 0 then
      let s := s <| cp_retx := next |> in
      let e := add_bs_retx (- (compute_pdu_header_size (cp_e s) cur + s_size cur)) (cp_e s) in
      let* e := free_acked e cur in
      ack_retransmit_list ack_sn next (s <| cp_e := e |>)
    else Ok s
  end.

(** the end of the second pass: lists, [wait_end] and [tx_next_ack] *)
Definition finish_control_pdu (ack_sn : Z) (s : cp_state) : res nr_rlc_entity_am_t :=
  let s := s <| cp_tail := cp_retx s |> in
  let e := cp_e s in
  let e := e <| wait_list := cp_kept s ++ cp_rest s |>
             <| retransmit_list := cp_new s ++ cp_tail s |> in
  let e := match cp_end s with Some t => e <| wait_end := t |> | None => e end in
  let lower (l : list nr_rlc_sdu_segment_t) (m : Z) : res Z :=
    match l with
    | [] => Ok m
    | g :: _ =>
      let* sn := seg_sn (hp e) g in
      Ok (if sn_compare_tx e sn m <? 0 then sn else m)
    end in
  let* m := lower (wait_list e) (tx_next e) in
  let* m := lower (retransmit_list e) m in
  let m := if sn_compare_tx e ack_sn m <? 0 then ack_sn else m in
  Ok (e <| tx_next_ack := m |>).

Definition apply_control_pdu (e : nr_rlc_entity_am_t) (buffer : list Z)
  : res nr_rlc_entity_am_t :=
  let '(ack_sn, e1, d) := read_control_header e (nr_rlc_pdu_decoder_init buffer) in
  let s := Mk_cp e [] (wait_list e) false [] [] (retransmit_list e) None in
  let s := if sn_compare_tx e (poll_sn e) ack_sn <? 0
           then s <| cp_e := e <| t_poll_retransmit_start := 0 |> |> else s in
  let* s := process_nacks (length buffer) ack_sn e1 d s in
  let* s := ack_wait_list ack_sn (cp_wait s) s in
  let* s := ack_retransmit_list ack_sn (cp_retx s) s in
  finish_control_pdu ack_sn s.

Definition process_control_pdu (e : nr_rlc_entity_am_t) (buffer : list Z)
  : res nr_rlc_entity_am_t :=
  let* valid := validate_control_pdu e buffer in
  if valid : bool then apply_control_pdu e buffer else Ok e.

(** *** Data PDUs *)

Record data_header := Mk_hdr {
  h_is_first : bool;
  h_is_last : bool;
  h_sn : Z;
  h_so : Z;
  h_byte : Z            (** number of bytes of the header *)
}.

(** the header behind the D/C bit: the P bit, and the rest unless the code
    goes to [err] or [discard] *)
Definition decode_data_header (e : nr_rlc_entity_am_t) (d : nr_rlc_pdu_decoder_t)
  : Z * option data_header :=
  let '(p, d) := nr_rlc_pdu_decoder_get_bits d 1 in
  (p,
   if nr_rlc_pdu_decoder_in_error d then None else
   '(si, d) ← get_bits_R d 2;
   let is_first := Z.land si 2 =? 0 in
   let is_last := Z.land si 1 =? 0 in
   '(_, d) ← (if sn_field_length e =? 18 then get_bits_R d 2 else Some (0, d));
   '(sn, d) ← get_bits_R d (snbits e);
   '(so, d) ← (if negb is_first then get_bits_R d 16 else Some (0, d));
   if negb is_first && (so =? 0) then None
   else Some (Mk_hdr is_first is_last sn so (d_byte d))).

(** the label [discard] *)
Definition discard_pdu (p size : Z) (e : nr_rlc_entity_am_t) : nr_rlc_entity_am_t :=
  let e := if negb (p =? 0) then e <| status_triggered := true |> else e in
  on_stats (fun s => s <| rxpdu_dd_pkts +=32 1 |> <| rxpdu_dd_bytes +=32 size |>) e.

(** the part behind the header *)
Definition recv_data_pdu (e : nr_rlc_entity_am_t) (buffer : list Z) (p : Z) (h : data_header)
  : res nr_rlc_entity_am_t :=
  let size := Z.of_nat (length buffer) in
  let data_size := size - h_byte h in
  if data_size <=? 0 then Ok (discard_pdu p size e)
  else if rx_maxsize e <? rx_size e + data_size then Ok (discard_pdu p size e)
  else if negb (sn_in_recv_window e (h_sn h)) then
    let e := on_stats (fun s => s <| rxpdu_ow_pkts +=32 1 |> <| rxpdu_ow_bytes +=32 size |>) e in
    Ok (discard_pdu p size e)
  else
    let* dup := segment_already_received e (h_sn h) (h_so h) data_size in
    if dup : bool then
      let e := on_stats (fun s => s <| rxpdu_dup_pkts +=32 1 |> <| rxpdu_dup_bytes +=32 size |>) e in
      Ok (discard_pdu p size e)
    else
      let e := e <| rx_size := rx_size e + data_size |> in
      let* data := mem_read buffer (size - data_size) data_size in
      let pdu := nr_rlc_new_pdu (h_sn h) (h_so h) (h_is_first h) (h_is_last h) data in
      let* m := nr_rlc_rx_manager_add_pdu (rx e) pdu in
      let* e := reception_actions (e <| rx := m |>) pdu in
      Ok (if negb (p =? 0) then e <| status_triggered := true |> else e).

Definition nr_rlc_entity_am_recv_pdu (e : nr_rlc_entity_am_t) (buffer : list Z)
  : res nr_rlc_entity_am_t :=
  let size := Z.of_nat (length buffer) in
  let e := on_stats (fun s => s <| rxpdu_pkts +=32 1 |> <| rxpdu_bytes +=32 size |>) e in
  match get_bits_R (nr_rlc_pdu_decoder_init buffer) 1 with
  | None => Ok (discard_pdu 0 size e)
  | Some (dc, d) =>
    if dc =? 0 then process_control_pdu e buffer
    else
      let '(p, h) := decode_data_header e d in
      match h with
      | None => Ok (discard_pdu p size e)
      | Some h => recv_data_pdu e buffer p h
      end
  end.

(** ** TX functions *)

Definition is_window_stalling (e : nr_rlc_entity_am_t) : bool :=
  negb ((sn_compare_tx e (tx_next_ack e) (tx_next e) <=? 0) &&
        (sn_compare_tx e (tx_next e)
           ((tx_next_ack e + window_size e) `rem` sn_modulus e) <? 0)).

Definition include_poll (e : nr_rlc_entity_am_t) (buffer : list Z)
  : res (nr_rlc_entity_am_t * list Z) :=
  match buffer with
  | [] => Err Out_of_bounds
  | b :: rest =>
    Ok (e <| pdu_without_poll := 0 |> <| byte_without_poll := 0 |>
          <| poll_sn := (tx_next e - 1 + sn_modulus e) `rem` sn_modulus e |>
          <| t_poll_retransmit_start := t_current e |>,
        Z.lor b 64 :: rest)
  end.

Definition is_nil {A} (l : list A) : bool := match l with [] => true | _ => false end.

Definition check_poll_after_pdu_assembly (e : nr_rlc_entity_am_t) : bool :=
  (is_nil (tx_list e) && is_nil (retransmit_list e)) || is_window_stalling e.

(** the header fields written by [serialize_sdu], P bit cleared *)
Definition sdu_header_fields (e : nr_rlc_entity_am_t) (sdu : nr_rlc_sdu_segment_t) (sn : Z)
  : list field :=
  [(1, 1%nat); (0, 1%nat);
   (1 - Z.b2z (s_is_first sdu), 1%nat); (1 - Z.b2z (s_is_last sdu), 1%nat)]
  ++ (if sn_field_length e =? 18 then [(0, 2%nat)] else [])
  ++ [(sn, snbits e)]
  ++ (if negb (s_is_first sdu) then [(s_so sdu, 16%nat)] else []).

Definition serialize_sdu (e : nr_rlc_entity_am_t) (sdu : nr_rlc_sdu_segment_t)
    (buffer : list Z) (p : bool) : res (nr_rlc_entity_am_t * list Z * Z) :=
  let* s := get_sdu (hp e) (s_sdu sdu) in
  let* enc := put_fields (nr_rlc_pdu_encoder_init buffer) (sdu_header_fields e sdu (sdu_sn s)) in
  let* data := mem_read (sdu_data s) (s_so sdu) (s_size sdu) in
  let* buffer := mem_write (e_buffer enc) (e_byte enc) data in
  let* '(e, buffer) := if p then include_poll e buffer else Ok (e, buffer) in
  Ok (e, buffer, e_byte enc + s_size sdu).

(** the shortened segment, the segment of the remaining bytes, and the
    entity with one more reference to the SDU *)
Definition resegment (sdu : nr_rlc_sdu_segment_t) (e : nr_rlc_entity_am_t) (pdu_size : Z)
  : res (nr_rlc_entity_am_t * nr_rlc_sdu_segment_t * nr_rlc_sdu_segment_t) :=
  let* s := get_sdu (hp e) (s_sdu sdu) in
  let h := set_sdu (hp e) (s_sdu sdu) (s <| sdu_ref_count := sdu_ref_count s + 1 |>) in
  let pdu_header_size := compute_pdu_header_size e sdu in
  let next := sdu <| s_addr := h_next h |> in
  let h := h <| h_next := h_next h + 1 |> in
  let over_size := pdu_header_size + s_size sdu - pdu_size in
  let sdu := sdu <| s_size := s_size sdu - over_size |> <| s_is_last := false |> in
  let next := next <| s_size := over_size |> <| s_so := s_so sdu + s_size sdu |>
                   <| s_is_first := false |> in
  Ok (set_heap h e, sdu, next).

(** *** Status reporting *)

(** [m_next] is the PDU for the next call of [next_missing]: the list from
    that PDU on, empty for NULL *)
Record missing_data_t := Mk_missing {
  m_sn_start : Z;       (** -1 when no more missing part to report *)
  m_so_start : Z;
  m_sn_end : Z;
  m_so_end : Z;
  m_next : list nr_rlc_pdu_t
}.
#[export] Instance eta_missing : Eta missing_data_t := fun m =>
  Mk_missing (m_sn_start m) (m_so_start m) (m_sn_end m) (m_so_end m) (m_next m).

Definition no_missing : missing_data_t := Mk_missing (-1) 0 0 0 [].

(** the search from [sn] to [last_sn]; it visits an SN at most once *)
Fixpoint find_rx_pdu (fuel : nat) (e : nr_rlc_entity_am_t) (sn last_sn : Z)
  : res (list nr_rlc_pdu_t) :=
  if sn =? last_sn then nr_rlc_rx_manager_get_pdu_from_sn (rx e) sn
  else
    match fuel with
    | O => Err No_fuel
    | S n =>
      let* ret := nr_rlc_rx_manager_get_pdu_from_sn (rx e) sn in
      if is_nil ret then find_rx_pdu n e ((sn + 1) `rem` sn_modulus e) last_sn else Ok ret
    end.

Definition get_first_rx_pdu (e : nr_rlc_entity_am_t) : res (list nr_rlc_pdu_t) :=
  find_rx_pdu (Z.to_nat (sn_modulus e)) e (rx_next e) (rx_highest_status e).

(** [cur] is the list from the current PDU on *)
Definition get_next_rx_pdu (e : nr_rlc_entity_am_t) (cur : list nr_rlc_pdu_t)
  : res (list nr_rlc_pdu_t) :=
  match cur with
  | [] => Err Null_deref
  | _ :: p :: l => Ok (p :: l)
  | [p] =>
    if p_sn p =? rx_highest_status e then Ok []
    else find_rx_pdu (Z.to_nat (sn_modulus e)) e ((p_sn p + 1) `rem` sn_modulus e)
           (rx_highest_status e)
  end.

(** the label [set_end_different_sdu] *)
Definition set_end_different_sdu (e : nr_rlc_entity_am_t) (cur : nr_rlc_pdu_t)
    (ret : missing_data_t) : missing_data_t :=
  let ret :=
    if p_is_first cur then
      ret <| m_sn_end := (p_sn cur - 1 + sn_modulus e) `rem` sn_modulus e |>
          <| m_so_end := 65535 |>
    else ret <| m_sn_end := p_sn cur |> <| m_so_end := p_so cur - 1 |> in
  if sn_compare_rx e (rx_highest_status e) (m_sn_end ret) <=? 0 then
    ret <| m_sn_end := (rx_highest_status e - 1 + sn_modulus e) `rem` sn_modulus e |>
        <| m_so_end := 65535 |> <| m_next := [] |>
  else ret.

(** no PDU behind [cur] *)
Definition missing_at_end (e : nr_rlc_entity_am_t) (cur : nr_rlc_pdu_t) (max_so : Z)
    (last_reached : bool) : missing_data_t :=
  let '(sn_start, so_start) :=
    match p_data cur with
    | None => ((p_sn cur + 1) `rem` sn_modulus e, 0)
    | Some _ =>
      if last_reached then ((p_sn cur + 1) `rem` sn_modulus e, 0)
      else (p_sn cur, max_so + 1)
    end in
  if sn_compare_rx e (rx_highest_status e) sn_start <=? 0 then no_missing
  else Mk_missing sn_start so_start
         ((rx_highest_status e - 1 + sn_modulus e) `rem` sn_modulus e) 65535 [].

(** the loop from the label [next_pdu]; [cur] starts with the current PDU *)
Fixpoint next_missing_loop (fuel : nat) (e : nr_rlc_entity_am_t) (cur : list nr_rlc_pdu_t)
    (max_so : Z) (last_reached : bool) : res missing_data_t :=
  match cur with
  | [] => Err Null_deref
  | c :: _ =>
    let sn := p_sn c in
    let max_so := Z.max max_so (p_so c + p_size c - 1) in
    let last_reached := last_reached || p_is_last c in
    let* cur_next := get_next_rx_pdu e cur in
    match cur_next with
    | [] => Ok (missing_at_end e c max_so last_reached)
    | n :: _ =>
      let again (max_so : Z) (last_reached : bool) :=
        match fuel with
        | O => Err No_fuel
        | S f => next_missing_loop f e cur_next max_so last_reached
        end in
      if (p_sn n =? sn) && (p_so n - 1 <=? max_so) then again max_so last_reached
      else if (p_sn n =? (sn + 1) `rem` sn_modulus e) && last_reached && p_is_first n
      then again 0 false
      else if p_sn n =? sn then
        if sn_compare_rx e (rx_highest_status e) sn <=? 0 then Ok no_missing
        else Ok (Mk_missing sn (max_so + 1) sn (p_so n - 1) cur_next)
      else
        let '(sn_start, so_start) :=
          if last_reached then ((sn + 1) `rem` sn_modulus e, 0) else (sn, max_so + 1) in
        if sn_compare_rx e (rx_highest_status e) sn_start <=? 0 then Ok no_missing
        else Ok (set_end_different_sdu e n (Mk_missing sn_start so_start 0 0 cur_next))
    end
  end.

Definition missing_fuel (e : nr_rlc_entity_am_t) : nat :=
  Z.to_nat (sn_modulus e) + length (concat (rxm_list (rx e))).

Definition next_missing (e : nr_rlc_entity_am_t) (cur : list nr_rlc_pdu_t) (check_head : bool)
  : res missing_data_t :=
  match cur with
  | [] => Err Null_deref
  | c :: _ =>
    if check_head && (negb (p_sn c =? rx_next e) || negb (p_is_first c)) then
      if sn_compare_rx e (rx_highest_status e) (rx_next e) <=? 0 then Ok no_missing
      else Ok (set_end_different_sdu e c (Mk_missing (rx_next e) 0 0 0 cur))
    else next_missing_loop (missing_fuel e) e cur 0 false
  end.

Definition nack_size (e : nr_rlc_entity_am_t) (sn_start so_start sn_end so_end : Z) : Z :=
  let nack_length := 2 + Z.b2z (sn_field_length e =? 18) in
  if sn_start =? sn_end then
    if (so_start =? 0) && (so_end =? 65535) then nack_length else nack_length + 4
  else if (so_start =? 0) && (so_end =? 65535) then nack_length + 1
  else nack_length + 5.

Definition get_e1_position (e : nr_rlc_entity_am_t) (enc : nr_rlc_pdu_encoder_t) : Z * Z :=
  if sn_field_length e =? 18 then (e_byte enc + 2, 5) else (e_byte enc + 1, 3).

(** one range of a missing part, cut to 255 SNs: its bounds *)
Definition cut_range (e : nr_rlc_entity_am_t) (m : missing_data_t) (sn_count sn_start : Z)
  : Z * Z * Z * Z :=
  let cur_sn_count := if 255 <? sn_count then 255 else sn_count in
  let so_start := if sn_start =? m_sn_start m then m_so_start m else 0 in
  if cur_sn_count =? sn_count then (cur_sn_count, so_start, m_sn_end m, m_so_end m)
  else (cur_sn_count, so_start, (sn_start + 254) `rem` sn_modulus e, 65535).

Definition sn_count_of (e : nr_rlc_entity_am_t) (m : missing_data_t) : Z :=
  (m_sn_end m - m_sn_start m + sn_modulus e) `rem` sn_modulus e + 1.

(** [buffer[pos] |= 1 << bit] *)
Definition set_bit_at (buffer : list Z) (pos bit : Z) : res (list Z) :=
  if (pos <? 0) || (Z.of_nat (length buffer) <=? pos) then Err Out_of_bounds
  else Ok (<[Z.to_nat pos := Z.lor (nth (Z.to_nat pos) buffer 0) (Z.shiftl 1 bit)]> buffer).

Record gm_state := Mk_gm {
  gm_enc : nr_rlc_pdu_encoder_t;
  gm_e1 : Z * Z;                    (** byte and bit of the previous E1 *)
  gm_truncated : bool;
  gm_so_end : option Z;             (** [so_end_address], an offset in the buffer *)
  gm_next : list nr_rlc_pdu_t;      (** [m->next] *)
  gm_last : Z                       (** [last_nack_generated] *)
}.
#[export] Instance eta_gm : Eta gm_state := fun g =>
  Mk_gm (gm_enc g) (gm_e1 g) (gm_truncated g) (gm_so_end g) (gm_next g) (gm_last g).

(** the fields of a NACK before SOstart, and after *)
Definition nack_fields (e : nr_rlc_entity_am_t) (sn_start e2 e3 : Z) : list field :=
  [(sn_start, snbits e); (0, 1%nat); (e2, 1%nat); (e3, 1%nat);
   (0, (if (sn_field_length e =? 18)%Z then 3 else 1)%nat)].

Definition write_nack (e : nr_rlc_entity_am_t) (cur_sn_count sn_start so_start sn_end so_end : Z)
    (g : gm_state) : res gm_state :=
  let* buf := set_bit_at (e_buffer (gm_enc g)) (gm_e1 g).1 (gm_e1 g).2 in
  let enc := (gm_enc g) <| e_buffer := buf |> in
  let e1 := get_e1_position e enc in
  let e2 := if (so_start =? 0) && (so_end =? 65535) then 0 else 1 in
  let e3 := if sn_start =? sn_end then 0 else 1 in
  let* enc := put_fields enc (nack_fields e sn_start e2 e3) in
  let* '(enc, so_end_address) :=
    if negb (e2 =? 0) then
      let* enc := nr_rlc_pdu_encoder_put_bits enc so_start 16 in
      let address := e_byte enc in
      let* enc := nr_rlc_pdu_encoder_put_bits enc so_end 16 in
      Ok (enc, Some address)
    else Ok (enc, None) in
  let* '(enc, last) :=
    if negb (e3 =? 0) then
      let* enc := nr_rlc_pdu_encoder_put_bits enc cur_sn_count 8 in
      Ok (enc, sn_start + (cur_sn_count - 1))
    else Ok (enc, sn_start) in
  Ok (Mk_gm enc e1 (gm_truncated g) so_end_address (gm_next g) last).

(** the count decreases at every iteration *)
Fixpoint generate_missing_loop (fuel : nat) (e : nr_rlc_entity_am_t) (m : missing_data_t)
    (sn_count sn_start : Z) (g : gm_state) : res gm_state :=
  if sn_count =? 0 then Ok g else
  match fuel with
  | O => Err No_fuel
  | S n =>
    let '(cur_sn_count, so_start, sn_end, so_end) := cut_range e m sn_count sn_start in
    if e_size (gm_enc g) <? e_byte (gm_enc g) + nack_size e sn_start so_start sn_end so_end
    then Ok (g <| gm_next := [] |> <| gm_truncated := true |>)
    else
      let* g := write_nack e cur_sn_count sn_start so_start sn_end so_end g in
      generate_missing_loop n e m (sn_count - cur_sn_count)
        ((sn_start + cur_sn_count) `rem` sn_modulus e) g
  end.

Definition generate_missing (e : nr_rlc_entity_am_t) (m : missing_data_t) (g : gm_state)
  : res gm_state :=
  let sn_count := sn_count_of e m in
  generate_missing_loop (Z.to_nat sn_count) e m sn_count (m_sn_start m)
    (g <| gm_next := m_next m |> <| gm_last := -1 |>).

(** the reported PDUs are met in order: the fuel is the one of [next_missing] *)
Fixpoint generate_status_loop (fuel : nat) (e : nr_rlc_entity_am_t) (cur : list nr_rlc_pdu_t)
    (check_head : bool) (last_nack : Z) (g : gm_state) : res (Z * gm_state) :=
  if is_nil cur then Ok (last_nack, g) else
  match fuel with
  | O => Err No_fuel
  | S n =>
    let* m := next_missing e cur check_head in
    if m_sn_start m =? -1 then Ok (last_nack, g)
    else
      let* g := generate_missing e m (g <| gm_truncated := false |>) in
      let last_nack := if negb (gm_last g =? -1) then gm_last g else last_nack in
      let* g :=
        match gm_so_end g with
        | Some a =>
          if gm_truncated g then
            let* buf := mem_write (e_buffer (gm_enc g)) a [255; 255] in
            Ok (g <| gm_enc := (gm_enc g) <| e_buffer := buf |> |>)
          else Ok g
        | None => Ok g
        end in
      generate_status_loop n e (gm_next g) false last_nack g
  end.

(** the ACK_SN in the first bytes *)
Definition put_ack_sn (e : nr_rlc_entity_am_t) (ack_sn : Z) (buffer : list Z) : res (list Z) :=
  if sn_field_length e =? 12 then
    mem_write buffer 0 [u8 (Z.shiftr ack_sn 8); Z.land ack_sn 255]
  else
    let* b2 := mem_read buffer 2 1 in
    mem_write buffer 0
      [u8 (Z.shiftr ack_sn 14); Z.land (Z.shiftr ack_sn 6) 255;
       Z.lor (nth 0 b2 0) (Z.shiftl (Z.land ack_sn 63) 2)].

Definition generate_status (e : nr_rlc_entity_am_t) (buffer : list Z)
  : res (nr_rlc_entity_am_t * list Z * Z) :=
  if Z.of_nat (length buffer) <? 3 then Ok (e, buffer, 0)
  else
    let last_nack := (rx_next e - 1 + sn_modulus e) `rem` sn_modulus e in
    let* enc := nr_rlc_pdu_encoder_put_bits (nr_rlc_pdu_encoder_init buffer) 0 24 in
    let* cur := get_first_rx_pdu e in
    let e1 := (2, if sn_field_length e =? 18 then 1 else 7) in
    let* '(last_nack, g) :=
      generate_status_loop (missing_fuel e) e cur true last_nack (Mk_gm enc e1 false None [] (-1)) in
    let enc := gm_enc g in
    let ack_sn := (last_nack + 1) `rem` sn_modulus e in
    let* buffer := put_ack_sn e ack_sn (e_buffer enc) in
    let e := e <| status_triggered := false |> <| t_status_prohibit_start := t_current e |> in
    let e := on_stats (fun s => s <| txpdu_pkts +=32 1 |> <| txpdu_bytes +=32 e_byte enc |>
                                  <| txpdu_status_pkts +=32 1 |>
                                  <| txpdu_status_bytes +=32 e_byte enc |>) e in
    Ok (e, buffer, e_byte enc).

Definition status_to_report (e : nr_rlc_entity_am_t) : bool :=
  status_triggered e &&
  ((t_status_prohibit_start e =? 0) ||
   (u64 (t_status_prohibit e) <? u64 (t_current e - t_status_prohibit_start e))).

(** the result is (range_count, size, m->next) *)
Fixpoint missing_size_loop (fuel : nat) (e : nr_rlc_entity_am_t) (m : missing_data_t)
    (sn_count sn_start range_count size maxsize : Z)
  : res (Z * Z * list nr_rlc_pdu_t) :=
  if sn_count =? 0 then Ok (range_count, size, m_next m) else
  match fuel with
  | O => Err No_fuel
  | S n =>
    let '(cur_sn_count, so_start, sn_end, so_end) := cut_range e m sn_count sn_start in
    if maxsize <? size + nack_size e sn_start so_start sn_end so_end
    then Ok (range_count, size, [])
    else
      let r_bits := if sn_field_length e =? 18 then 3 else 1 in
      let bits := sn_field_length e + 3 + r_bits
        + (if (so_start =? 0) && (so_end =? 65535) then 0 else 16 * 2)
        + (if sn_start =? sn_end then 0 else 8) in
      missing_size_loop n e m (sn_count - cur_sn_count)
        ((sn_start + cur_sn_count) `rem` sn_modulus e) (range_count + 1)
        (size + bits `quot` 8) maxsize
  end.

Definition missing_size (e : nr_rlc_entity_am_t) (m : missing_data_t) (size maxsize : Z)
  : res (Z * Z * list nr_rlc_pdu_t) :=
  let sn_count := sn_count_of e m in
  missing_size_loop (Z.to_nat sn_count) e m sn_count (m_sn_start m) 0 size maxsize.

Fixpoint status_size_loop (fuel : nat) (e : nr_rlc_entity_am_t) (cur : list nr_rlc_pdu_t)
    (nack_count size maxsize : Z) : res Z :=
  if is_nil cur then Ok size else
  match fuel with
  | O => Err No_fuel
  | S n =>
    let* m := next_missing e cur (nack_count =? 0) in
    if m_sn_start m =? -1 then Ok size
    else
      let* '(count, size, next) := missing_size e m size maxsize in
      status_size_loop n e next (nack_count + count) size maxsize
  end.

Definition status_size (e : nr_rlc_entity_am_t) (maxsize : Z) : res Z :=
  if maxsize <? 3 then Ok 0
  else
    let* cur := get_first_rx_pdu e in
    status_size_loop (missing_fuel e) e cur 0 3 maxsize.

(** *** Data transmission *)

(** the node pointed to by [wait_end] *)
Definition find_seg (a : Z) (l : list nr_rlc_sdu_segment_t) : res nr_rlc_sdu_segment_t :=
  of_option Bad_ptr (List.find (fun g => s_addr g =? a) l).

(** does the segment come after the end of the wait list? *)
Definition after_wait_end (e : nr_rlc_entity_am_t) (sdu : nr_rlc_sdu_segment_t) : res bool :=
  match wait_end e with
  | None => Ok true
  | Some a =>
    let* w := find_seg a (wait_list e) in
    let* sn := seg_sn (hp e) sdu in
    let* wsn := seg_sn (hp e) w in
    Ok ((0 <? sn_compare_tx e sn wsn)
        || ((sn_compare_tx e sn wsn =? 0) && (s_so w <? s_so sdu)))
  end.

Definition put_in_wait_list (e : nr_rlc_entity_am_t) (sdu : nr_rlc_sdu_segment_t)
  : res nr_rlc_entity_am_t :=
  let* after := after_wait_end e sdu in
  if after : bool then
    let* '(l, t) := nr_rlc_sdu_segment_list_append (wait_list e) (wait_end e) sdu in
    Ok (e <| wait_list := l |> <| wait_end := t |>)
  else
    let* l := nr_rlc_tx_sdu_segment_list_add e (wait_list e) sdu in
    let e := e <| wait_list := l |> in
    match l with
    | [g] => Ok (e <| wait_end := Some (s_addr g) |>)
    | _ => Ok e
    end.

(** [if (entity->force_poll) { p = 1; entity->force_poll = 0; }] *)
Definition apply_force_poll (e : nr_rlc_entity_am_t) (p : bool) : nr_rlc_entity_am_t * bool :=
  if force_poll e then (e <| force_poll := false |>, true) else (e, p).

Definition generate_retx_pdu (e : nr_rlc_entity_am_t) (buffer : list Z)
  : res (nr_rlc_entity_am_t * list Z * Z) :=
  let size := Z.of_nat (length buffer) in
  match retransmit_list e with
  | [] => Err Null_deref
  | sdu :: next =>
    let pdu_header_size := compute_pdu_header_size e sdu in
    if size <? pdu_header_size + 1 then Ok (e, buffer, 0)
    else
      let e := e <| retransmit_list := next |> in
      let pdu_size := pdu_header_size + s_size sdu in
      let e := add_bs_retx (- pdu_size) e in
      let* '(e, sdu) :=
        if size <? pdu_size then
          let* '(e, sdu, next_sdu) := resegment sdu e size in
          let e := e <| retransmit_list := next_sdu :: retransmit_list e |> in
          let e := add_bs_retx (compute_pdu_header_size e next_sdu + s_size next_sdu) e in
          Ok (on_stats (fun s => s <| txpdu_segmented +=32 1 |>) e, sdu)
        else Ok (e, sdu) in
      let* e := put_in_wait_list e sdu in
      let p := check_poll_after_pdu_assembly e in
      let '(e, p) := apply_force_poll e p in
      let* '(e, buffer, ret_size) := serialize_sdu e sdu buffer p in
      let e := on_stats (fun s => s <| txpdu_pkts +=32 1 |> <| txpdu_bytes +=32 ret_size |>
                                    <| txpdu_retx_pkts +=32 1 |>
                                    <| txpdu_retx_bytes +=32 ret_size |>) e in
      Ok (e, buffer, ret_size)
  end.

(** an SDU not yet transmitted has SN -1 and gets the next one *)
Definition assign_sn (e : nr_rlc_entity_am_t) (sdu : nr_rlc_sdu_segment_t)
  : res nr_rlc_entity_am_t :=
  let* s := get_sdu (hp e) (s_sdu sdu) in
  if sdu_sn s =? -1 then
    let e := set_heap (set_sdu (hp e) (s_sdu sdu) (s <| sdu_sn := tx_next e |>)) e in
    Ok (e <| tx_next := (tx_next e + 1) `rem` sn_modulus e |>)
  else Ok e.

(** the polling decision for a new PDU (38.322 5.3.3.2) *)
Definition poll_for_new_pdu (e : nr_rlc_entity_am_t) : bool :=
  if (negb (poll_pdu e =? -1) && (poll_pdu e <=? pdu_without_poll e))
     || (negb (poll_byte e =? -1) && (poll_byte e <=? byte_without_poll e))
  then true else check_poll_after_pdu_assembly e.

Definition generate_tx_pdu (now : Z) (e : nr_rlc_entity_am_t) (buffer : list Z)
  : res (nr_rlc_entity_am_t * list Z * Z) :=
  let size := Z.of_nat (length buffer) in
  if is_window_stalling e then Ok (e, buffer, 0)
  else
  match tx_list e with
  | [] => Ok (e, buffer, 0)
  | sdu :: next =>
    let pdu_header_size := compute_pdu_header_size e sdu in
    if size <? pdu_header_size + 1 then Ok (e, buffer, 0)
    else
      let e := e <| tx_list := next |> in
      let e := if is_nil next then e <| tx_end := None |> else e in
      let pdu_size := pdu_header_size + s_size sdu in
      let e := add_bs_tx (- pdu_size) e in
      let* e := assign_sn e sdu in
      let* '(e, sdu) :=
        if size <? pdu_size then
          let* '(e, sdu, next_sdu) := resegment sdu e size in
          let e := e <| tx_list := next_sdu :: tx_list e |> in
          let e := match tx_end e with
                   | None => e <| tx_end := Some (s_addr next_sdu) |>
                   | Some _ => e end in
          let e := on_stats (fun s => s <| txpdu_segmented +=32 1 |>) e in
          let e := add_bs_tx (compute_pdu_header_size e next_sdu + s_size next_sdu) e in
          Ok (e, sdu)
        else Ok (e, sdu) in
      let* e := put_in_wait_list e sdu in
      let e := e <| pdu_without_poll := pdu_without_poll e + 1 |>
                 <| byte_without_poll := byte_without_poll e + s_size sdu |> in
      let p := poll_for_new_pdu e in
      let '(e, p) := apply_force_poll e p in
      let* '(e, buffer, ret_size) := serialize_sdu e sdu buffer p in
      let e := on_stats (fun s => s <| txpdu_pkts +=32 1 |> <| txpdu_bytes +=32 ret_size |>) e in
      let* c := account_waited_time now (s_sdu sdu) (common e) in
      Ok (e <| common := c |>, buffer, ret_size)
  end.

Definition nr_rlc_entity_am_buffer_status (e : nr_rlc_entity_am_t) (maxsize : Z)
  : res nr_rlc_entity_buffer_status_t :=
  let* status := if status_to_report e then status_size e maxsize else Ok 0 in
  Ok (Mk_bs status (bs_tx_size (bstatus (common e))) (bs_retx_size (bstatus (common e)))).

Definition nr_rlc_entity_am_generate_pdu (now : Z) (e : nr_rlc_entity_am_t) (buffer : list Z)
  : res (nr_rlc_entity_am_t * list Z * Z) :=
  let* '(e, buffer, ret) :=
    if status_to_report e then generate_status e buffer else Ok (e, buffer, 0) in
  if negb (ret =? 0) then Ok (e, buffer, ret)
  else
    let* '(e, buffer, ret) :=
      if negb (is_nil (retransmit_list e)) then generate_retx_pdu e buffer
      else Ok (e, buffer, 0) in
    if negb (ret =? 0) then Ok (e, buffer, ret)
    else generate_tx_pdu now e buffer.

(** ** SDU RX functions *)

Definition nr_rlc_entity_am_recv_sdu (now : Z) (e : nr_rlc_entity_am_t) (buffer : list Z)
    (sdu_id : Z) : res nr_rlc_entity_am_t :=
  let size := Z.of_nat (length buffer) in
  let e := on_stats (fun s => s <| rxsdu_pkts +=32 1 |>) e in
  if NR_SDU_MAX <? size then Err Exit
  else
    let e :=
      if negb (sdu_rejected e =? 0) && (u64 (t_log_buffer_full e + 1000) <? t_current e)
      then e <| sdu_rejected := 0 |> <| t_log_buffer_full := t_current e |> else e in
    if tx_maxsize e <? tx_size e + size then
      let e := e <| sdu_rejected := sdu_rejected e + 1 |> in
      Ok (on_stats (fun s => s <| txpdu_dd_pkts +=32 1 |> <| txpdu_dd_bytes +=32 size |>) e)
    else
      let e := e <| tx_size := tx_size e + size |> in
      let e := on_stats (fun s => s <| rxsdu_bytes +=64 size |>) e in
      let '(h, sdu) := nr_rlc_new_sdu (hp e) buffer sdu_id in
      let e := set_heap h e in
      let* '(l, t) := nr_rlc_sdu_segment_list_append (tx_list e) (tx_end e) sdu in
      let e := e <| tx_list := l |> <| tx_end := t |> in
      let e := add_bs_tx (compute_pdu_header_size e sdu + s_size sdu) e in
      let* c := set_time_of_arrival now (s_sdu sdu) (common e) in
      Ok (e <| common := c |>).

(** ** Time and timers *)

(** the do-while loop: moves the segments of [retransmit_sn] at the head of
    the wait list to the retransmit list *)
Fixpoint retransmit_head (l : list nr_rlc_sdu_segment_t) (retransmit_sn : Z)
    (e : nr_rlc_entity_am_t) : res nr_rlc_entity_am_t :=
  match l with
  | [] => Ok e
  | cur :: next =>
    let e := e <| wait_list := next |> in
    let e := if is_nil next then e <| wait_end := None |> else e in
    let e := add_bs_retx (compute_pdu_header_size e cur + s_size cur) e in
    let* r := nr_rlc_tx_sdu_segment_list_add e (retransmit_list e) cur in
    let e := e <| retransmit_list := r |> in
    match next with
    | [] => Ok e
    | g :: _ =>
      let* sn := seg_sn (hp e) g in
      if sn =? retransmit_sn then retransmit_head next retransmit_sn e else Ok e
    end
  end.

Definition check_t_poll_retransmit (e : nr_rlc_entity_am_t) : res nr_rlc_entity_am_t :=
  if (t_poll_retransmit_start e =? 0)
     || (t_current e <=? u64 (t_poll_retransmit_start e + t_poll_retransmit e))
  then Ok e
  else
    let e := e <| t_poll_retransmit_start := 0 |> <| force_poll := true |> in
    if negb (check_poll_after_pdu_assembly e) then Ok e
    else
      match wait_list e with
      | [] => Err Null_deref
      | cur :: _ =>
        let* s := get_sdu (hp e) (s_sdu cur) in
        let s := s <| sdu_retx_count := sdu_retx_count s + 1 |> in
        let e := set_heap (set_sdu (hp e) (s_sdu cur) s) e in
        let* e := retransmit_head (wait_list e) (sdu_sn s) e in
        Ok (if max_retx_threshold e <=? sdu_retx_count s
            then on_common (emit max_retx_reached) e else e)
      end.

Definition check_t_reassembly (e : nr_rlc_entity_am_t) : res nr_rlc_entity_am_t :=
  if (t_reassembly_start e =? 0)
     || (t_current e <=? u64 (t_reassembly_start e + t_reassembly e))
  then Ok e
  else
    let e := e <| t_reassembly_start := 0 |> in
    let* sn := skip_delivered (skip_fuel e) e (rx_next_status_trigger e) in
    let e := e <| rx_highest_status := sn |> <| status_triggered := true |> in
    let next := (rx_highest_status e + 1) `rem` sn_modulus e in
    let* missing := sdu_has_missing_bytes e (rx_highest_status e) in
    if (0 <? sn_compare_rx e (rx_next_highest e) next)
       || ((rx_next_highest e =? next) && missing)
    then Ok (e <| t_reassembly_start := t_current e |>
               <| rx_next_status_trigger := rx_next_highest e |>)
    else Ok e.

Definition nr_rlc_entity_am_set_time (e : nr_rlc_entity_am_t) (now : Z)
  : res nr_rlc_entity_am_t :=
  let e := e <| t_current := now |> in
  let* e := check_t_poll_retransmit e in
  check_t_reassembly e.

(** ** Discard, re-establishment, deletion *)

Definition nr_rlc_entity_am_discard_sdu (e : nr_rlc_entity_am_t) (sdu_id : Z)
  : res nr_rlc_entity_am_t :=
  let* r := find_upper_id (hp e) (tx_list e) sdu_id in
  match r with
  | None => Ok e
  | Some (before, cur, after) =>
    if negb (s_is_first cur) || negb (s_is_last cur) then Ok e
    else
      let e := e <| tx_list := before ++ after |> in
      let e := if decide (tx_end e = Some (s_addr cur))
               then e <| tx_end := tail_of before |> else e in
      let e := add_bs_tx (- (compute_pdu_header_size e cur + s_size cur)) e in
      let* s := get_sdu (hp e) (s_sdu cur) in
      let e := e <| tx_size := tx_size e - sdu_size s |> in
      let* '(h, _) := nr_rlc_free_sdu_segment (hp e) cur in
      Ok (set_heap h e)
  end.

Definition clear_entity (e : nr_rlc_entity_am_t) : res nr_rlc_entity_am_t :=
  let e := e <| rx_next := 0 |> <| rx_next_status_trigger := 0 |>
             <| rx_highest_status := 0 |> <| rx_next_highest := 0 |>
             <| status_triggered := false |>
             <| tx_next := 0 |> <| tx_next_ack := 0 |> <| poll_sn := 0 |>
             <| pdu_without_poll := 0 |> <| byte_without_poll := 0 |>
             <| force_poll := false |> <| t_current := 0 |>
             <| t_log_buffer_full := 0 |> <| sdu_rejected := 0 |>
             <| t_poll_retransmit_start := 0 |> <| t_reassembly_start := 0 |>
             <| t_status_prohibit_start := 0 |> in
  let e := e <| rx := nr_rlc_clear_rx_manager (rx e) |> <| rx_size := 0 |> in
  let* h := nr_rlc_free_sdu_segment_list (hp e) (tx_list e) in
  let* h := nr_rlc_free_sdu_segment_list h (wait_list e) in
  let* h := nr_rlc_free_sdu_segment_list h (retransmit_list e) in
  let e := set_heap h e in
  let e := e <| tx_list := [] |> <| tx_end := None |> <| tx_size := 0 |>
             <| wait_list := [] |> <| wait_end := None |> <| retransmit_list := [] |> in
  Ok (on_common (fun c => c <| bstatus := (bstatus c) <| bs_tx_size := 0 |>
                                                      <| bs_retx_size := 0 |> |>) e).

Definition nr_rlc_entity_am_reestablishment (e : nr_rlc_entity_am_t) : res nr_rlc_entity_am_t :=
  clear_entity e.

(** the entity is freed; what remains is the heap *)
Definition nr_rlc_entity_am_delete (e : nr_rlc_entity_am_t) : res heap :=
  let* e := clear_entity e in Ok (hp e).

Definition nr_rlc_entity_am_available_tx_space (e : nr_rlc_entity_am_t) : Z :=
  tx_maxsize e - tx_size e.

(** ** Creation and reconfiguration ([nr_rlc_entity.c]) *)

Definition new_nr_rlc_entity_am (rx_max tx_max t_poll t_reass t_prohibit ppdu pbyte max_retx
    snlen : Z) : res nr_rlc_entity_am_t :=
  if negb ((snlen =? 12) || (snlen =? 18)) then Err Exit
  else
    let modulus := Z.shiftl 1 snlen in
    let* c := common_init NR_RLC_AM in
    Ok (Mk_am c t_poll t_reass t_prohibit ppdu pbyte max_retx snlen modulus (modulus `quot` 2)
          0 0 0 0 false 0 0 0 0 0 false 0 0 0 0 0 0
          (nr_rlc_new_rx_manager (Z.shiftl 1 (snlen - 1))) 0 (rx_max * 5)
          [] None 0 (tx_max * 5) [] None []).

Definition nr_rlc_entity_am_reconfigure (e : nr_rlc_entity_am_t)
    (t_poll t_reass t_prohibit ppdu pbyte max_retx : Z) (snlen : option Z)
  : nr_rlc_entity_am_t :=
  let e := e <| t_poll_retransmit := t_poll |> <| t_reassembly := t_reass |>
             <| t_status_prohibit := t_prohibit |> <| poll_pdu := ppdu |>
             <| poll_byte := pbyte |> <| max_retx_threshold := max_retx |> in
  match snlen with Some n => e <| sn_field_length := n |> | None => e end.
