(* ===== verification/RlcAmRx.v ===== *)
(** * Reception side of the AM entity

    Reassembly of SDUs in the slots of the receive window of [RlcAm], and
    exactly-once delivery. *)
From S2P Require Export RlcReassembly RlcAm.

(** ** Reassembly of one SDU *)

(** what is left of a PDU once its SDU is delivered *)
Definition clear_data (p : nr_rlc_pdu_t) : nr_rlc_pdu_t := p <| p_data := None |>.

Lemma am_reassemble_loop_ok D : Z.of_nat (length D) <= NR_SDU_MAX ->
  forall l so size,
  Forall (pdu_of D) l -> so_sorted l -> 0 <= so <= Z.of_nat (length D) ->
  so = Z.of_nat (length D) \/ full_from l (so - 1) = true ->
  reassemble_loop l so false (take (Z.to_nat so) D) size =
    Ok (clear_data <$> l, Z.of_nat (length D), false, D, size - sum_pdu l).
Proof.
  intros HD. induction l as [|p l IH]; intros so size Hl Hs Hso Hf.
  - cbn. destruct Hf as [->|Hf]; [|done]. rewrite take_ge by lia. by rewrite Z.sub_0_r.
  - inversion Hl as [|?? P Hl']; subst. destruct Hs as [Hle Hs]. pose proof P as [P1 P2 P3 P4 P5].
    cbn [reassemble_loop orb].
    assert ((NR_SDU_MAX <? so + (p_size p - (so - p_so p))) = false) as -> by (unfold NR_SDU_MAX in *; lia).
    cbn [negb andb].
    assert (p_so p <= so) as Hge.
    { destruct Hf as [->|Hf]; [lia|]. cbn in Hf. destruct (so - 1 + 1 <? p_so p) eqn:E; [done|lia]. }
    assert (Z.max so (p_so p + p_size p) = Z.of_nat (length D) \/
      full_from l (Z.max so (p_so p + p_size p) - 1) = true) as Hf'.
    { destruct Hf as [->|Hf]; [left; lia|]. cbn in Hf.
      destruct (so - 1 + 1 <? p_so p) eqn:E; [done|]. destruct (p_is_last p); [left; lia|right].
      by replace (_ - 1) with (Z.max (so - 1) (p_so p + p_size p - 1)) by lia. }
    destruct (0 <? p_size p - (so - p_so p)) eqn:El.
    + destruct (pdu_of_chunk D p so P Hge ltac:(lia)) as (data & chunk & -> & Hm & Hc).
      cbn [of_option res_bind]. rewrite Hm. cbn [res_bind].
      replace (so + (p_size p - (so - p_so p))) with (p_so p + p_size p) by lia.
      rewrite Hc. rewrite Z.max_r in Hf' by lia.
      rewrite (IH (p_so p + p_size p)) by (done || lia). cbn. do 2 f_equal. unfold sum_pdu; cbn. lia.
    + cbn [res_bind]. rewrite Z.max_l in Hf' by lia.
      rewrite (IH so) by (done || lia). cbn. do 2 f_equal. unfold sum_pdu; cbn. lia.
Qed.

(** ** Insertion in a slot *)
Lemma insert_by_so_perm l p : insert_by_so l p ≡ₚ p :: l.
Proof.
  induction l as [|q l IH]; cbn; [done|]. case_match; [done|]. rewrite IH. constructor.
Qed.

Lemma insert_by_so_sorted l p : so_sorted l -> so_sorted (insert_by_so l p).
Proof.
  induction l as [|q l IH]; cbn; [done|]. intros [Hq Hl].
  destruct (p_so p <? p_so q) eqn:E; cbn.
  - split; [|done]. constructor; [lia|]. eapply Forall_impl; [apply Hq|]. cbn. lia.
  - split; [|by apply IH]. rewrite insert_by_so_perm. constructor; [lia|done].
Qed.

(** byte [i] of the SDU is in some segment *)
Definition covered (l : list nr_rlc_pdu_t) (i : Z) : Prop :=
  exists p, p ∈ l /\ p_so p <= i < p_so p + p_size p.

(** [sdu_full]'s loop decides whether every byte has been received *)
Lemma am_full_from_covered D l : forall a,
  Forall (pdu_of D) l -> so_sorted l -> 0 <= a < Z.of_nat (length D) ->
  full_from l (a - 1) = true <-> forall i, a <= i < Z.of_nat (length D) -> covered l i.
Proof.
  induction l as [|p l IH]; intros a Hl Hs Ha; cbn.
  - split; [done|]. intros H. destruct (H a ltac:(lia)) as (p & Hp & _). by apply not_elem_of_nil in Hp.
  - inversion Hl as [|?? P Hl']; subst. destruct Hs as [Hle Hs]. pose proof P as [P1 P2 P3 P4 P5].
    destruct (a - 1 + 1 <? p_so p) eqn:E.
    + split; [done|]. intros H. destruct (H a ltac:(lia)) as (q & [->|Hq]%elem_of_cons & Hb); [lia|].
      rewrite Forall_forall in Hle. pose proof (Hle q Hq). lia.
    + rewrite P5. destruct (p_so p + p_size p =? Z.of_nat (length D)) eqn:E2.
      * split; [|done]. intros _ i Hi. exists p. split; [left|lia].
      * replace (Z.max (a - 1) (p_so p + p_size p - 1)) with (Z.max a (p_so p + p_size p) - 1) by lia.
        rewrite IH by (done || lia). split.
        -- intros H i Hi. destruct (decide (i < p_so p + p_size p)) as [Hlt|Hge].
           ++ exists p. split; [left|lia].
           ++ destruct (H i ltac:(lia)) as (q & Hq & Hb). exists q. split; [by right|done].
        -- intros H i Hi. destruct (H i ltac:(lia)) as (q & [->|Hq]%elem_of_cons & Hb); [lia|].
           by exists q.
Qed.

(** ** Slots *)

(** the segments of the SDU [D] received so far, or what is left of them
    once [D] is delivered *)
Definition slot_ok (D : list Z) (sn : Z) (dv : bool) (l : list nr_rlc_pdu_t) : Prop :=
  exists l0, Forall (pdu_of D) l0 /\ Forall (fun p => p_sn p = sn) l0 /\ so_sorted l0 /\
    full_from l0 (-1) = dv /\ l = if dv then clear_data <$> l0 else l0.

Lemma slot_delivered D sn dv l : slot_ok D sn dv l -> delivered l = dv.
Proof.
  intros (l0 & Hl & _ & _ & Hf & ->). destruct dv.
  - by destruct l0.
  - destruct l0 as [|p l0]; [done|]. inversion Hl as [|?? P ?]; subst. cbn. by rewrite (po_data _ _ P).
Qed.

Lemma slot_nil D sn : slot_ok D sn false [].
Proof. exists []. split_and!; done || constructor. Qed.

Lemma not_covered_clear l : forall so size, not_covered (clear_data <$> l) so size = not_covered l so size.
Proof. induction l as [|p l IH]; intros so size; cbn; [done|]. repeat case_match; auto. Qed.

(** an interval whose bytes are all received is found so *)
Lemma not_covered_covered l : forall so size,
  so_sorted l -> (forall i, so <= i < so + size -> covered l i) -> not_covered l so size <= 0.
Proof.
  induction l as [|p l IH]; intros so size Hs Hc; cbn.
  - destruct (decide (size <= 0)); [done|].
    destruct (Hc so ltac:(lia)) as (p & Hp & _). by apply not_elem_of_nil in Hp.
  - destruct Hs as [Hle Hs]. destruct (size <=? 0) eqn:E; [lia|].
    assert (p_so p <= so) as Hps.
    { destruct (Hc so ltac:(lia)) as (q & [->|Hq]%elem_of_cons & Hb); [lia|].
      rewrite Forall_forall in Hle. pose proof (Hle q Hq). lia. }
    destruct ((p_so p <=? so) && (so <? p_so p + p_size p)) eqn:E1.
    + apply IH; [done|]. intros i Hi. destruct (Hc i ltac:(lia)) as (q & [->|Hq]%elem_of_cons & Hb); [lia|].
      by exists q.
    + destruct ((p_so p <=? so + size - 1) && (so + size - 1 <? p_so p + p_size p)) eqn:E2; [lia|].
      apply IH; [done|]. intros i Hi. destruct (Hc i ltac:(lia)) as (q & [->|Hq]%elem_of_cons & Hb); [lia|].
      by exists q.
Qed.

(** a segment of an SDU already delivered is a duplicate *)
Lemma slot_duplicate D sn l pdu :
  slot_ok D sn true l -> pdu_of D pdu -> not_covered l (p_so pdu) (p_size pdu) <= 0.
Proof.
  intros (l0 & Hl & _ & Hs & Hf & ->) [P1 P2 P3 _ _]. rewrite not_covered_clear.
  apply not_covered_covered; [done|]. intros i Hi.
  change (-1) with (0 - 1) in Hf. rewrite am_full_from_covered in Hf by (done || lia). apply Hf. lia.
Qed.

Lemma slot_insert D sn l pdu :
  slot_ok D sn false l -> pdu_of D pdu -> p_sn pdu = sn ->
  Forall (pdu_of D) (insert_by_so l pdu) /\ Forall (fun p => p_sn p = sn) (insert_by_so l pdu) /\
  so_sorted (insert_by_so l pdu) /\ delivered (insert_by_so l pdu) = false.
Proof.
  intros (l0 & Hl & Hn & Hs & _ & ->) P Hsn.
  assert (Forall (pdu_of D) (insert_by_so l0 pdu)) as HF by (rewrite insert_by_so_perm; by constructor).
  split; [done|]. split; [rewrite insert_by_so_perm; by constructor|].
  split; [by apply insert_by_so_sorted|].
  destruct (insert_by_so l0 pdu) as [|q k]; [done|]. inversion HF as [|?? Q ?]; subst.
  cbn. by rewrite (po_data _ _ Q).
Qed.

Lemma sum_pdu_cons p l : sum_pdu (p :: l) = p_size p + sum_pdu l.
Proof. done. Qed.
Lemma sum_pdu_perm l k : l ≡ₚ k -> sum_pdu l = sum_pdu k.
Proof. unfold sum_pdu. induction 1; cbn in *; lia. Qed.

(** bytes held by a slot, and by the buffer *)
Definition live (l : list nr_rlc_pdu_t) : Z := if delivered l then 0 else sum_pdu l.
Definition rx_bytes (m : nr_rlc_rx_manager_t) : Z :=
  foldr (fun l acc => live l + acc) 0 (rxm_list m).

Lemma foldr_live_insert ls : forall i l l0,
  ls !! i = Some l0 ->
  foldr (fun l acc => live l + acc) 0 (<[i := l]> ls) =
  foldr (fun l acc => live l + acc) 0 ls - live l0 + live l.
Proof.
  induction ls as [|x ls IH]; intros [|i] l l0 H; simplify_eq/=; [lia|].
  rewrite (IH i l l0 H). lia.
Qed.

Lemma rx_bytes_write modulus m sn l m' :
  rxm_wf modulus m -> 0 <= sn < modulus -> rxm_write m (get_pos m sn) l = Ok m' ->
  rx_bytes m' = rx_bytes m - live (rxm_slot m (sn - rxm_sn_start m)) + live l.
Proof.
  intros W Hsn. rewrite (get_pos_wf modulus) by done. pose proof W as [H1 H2 H3 H4 H5].
  pose proof (Z.mod_pos_bound (rxm_start m + (sn - rxm_sn_start m)) (rxm_size m) H1) as Hb.
  unfold rxm_write. destruct (_ || _); [done|]. intros [= <-]. unfold rx_bytes. cbn.
  destruct (lookup_lt_is_Some_2 (rxm_list m)
    (Z.to_nat ((rxm_start m + (sn - rxm_sn_start m)) mod rxm_size m)) ltac:(lia)) as [x Hx].
  rewrite (foldr_live_insert _ _ _ _ Hx). unfold rxm_slot.
  by rewrite (nth_lookup_Some _ _ _ _ Hx).
Qed.

(** ** The receive window

    SNs are counted from 0 without wrapping: the SDU of number [a] has the
    SN [a mod sn_modulus] and the bytes [D a].  [b] is the number of the SDU
    of [rx_next], [ds] are the numbers of the SDUs delivered so far. *)
Section Window.
Context (D : Z -> list Z).

Record am_rx_cfg (e : nr_rlc_entity_am_t) (b : Z) : Prop := {
  ac_rxm : rxm_wf (sn_modulus e) (rx e);
  ac_window : window_size e = rxm_size (rx e);
  ac_window_pos : 1 < window_size e;
  ac_start : rxm_sn_start (rx e) = rx_next e;
  ac_next : rx_next e = b mod sn_modulus e;
  ac_b : 0 <= b;
  ac_highest : 0 <= rx_next_highest e < sn_modulus e
}.

(** slots and SDUs delivered; slot 0 may be delivered but not yet freed *)
Record am_slots (e : nr_rlc_entity_am_t) (b : Z) (ds : list Z) : Prop := {
  as_cfg : am_rx_cfg e b;
  as_slot : forall k, 0 <= k < window_size e ->
    slot_ok (D (b + k)) ((b + k) mod sn_modulus e) (bool_decide (b + k ∈ ds)) (rxm_slot (rx e) k);
  as_nodup : NoDup ds;
  as_below : forall a, 0 <= a < b -> a ∈ ds;
  as_range : forall a, a ∈ ds -> 0 <= a < b + window_size e - 1;
  as_bytes : rx_size e = rx_bytes (rx e);
  as_trace : trace (common e) = (fun a => deliver_sdu (D a)) <$> ds;
  as_sdu : forall a, 0 < Z.of_nat (length (D a)) <= NR_SDU_MAX
}.

(** the invariant between two PDUs *)
Record am_rx (e : nr_rlc_entity_am_t) (b : Z) (ds : list Z) : Prop := {
  ar_slots : am_slots e b ds;
  ar_next : b ∉ ds;
  ar_status : exists h, 0 <= h < window_size e /\
    rx_highest_status e = (b + h) mod sn_modulus e /\ b + h ∉ ds
}.

Lemma am_modulus e b : am_rx_cfg e b -> sn_modulus e = 2 * window_size e.
Proof. intros C. rewrite (ac_window _ _ C). apply (rw_mod _ _ (ac_rxm _ _ C)). Qed.

Lemma am_modulus_rx e b k :
  am_rx_cfg e b -> 0 <= k < sn_modulus e -> modulus_rx e ((b + k) mod sn_modulus e) = k.
Proof.
  intros C Hk. pose proof (am_modulus _ _ C). pose proof (ac_window_pos _ _ C).
  unfold modulus_rx. rewrite (ac_next _ _ C).
  rewrite <- Zplus_mod_idemp_l. pose proof (Z.mod_pos_bound b (sn_modulus e) ltac:(lia)).
  rewrite mod_ring_succ by lia. set (bm := b mod sn_modulus e) in *. clearbody bm.
  destruct (bm + k <? sn_modulus e) eqn:E; destruct (_ - bm <? 0) eqn:E2; lia.
Qed.

Lemma am_mod_window e b : am_rx_cfg e b ->
  forall x, (x mod sn_modulus e) mod window_size e = x mod window_size e.
Proof.
  intros C x. pose proof (ac_window_pos _ _ C). rewrite (am_modulus _ _ C), Z.mul_comm.
  rewrite Z.rem_mul_r by lia.
  rewrite Z.mul_comm, Z_mod_plus_full. by rewrite Z.mod_mod by lia.
Qed.

Lemma am_slot_pos e b k :
  am_rx_cfg e b -> 0 <= k < window_size e ->
  ((b + k) mod sn_modulus e - rxm_sn_start (rx e)) mod rxm_size (rx e) = k.
Proof.
  intros C Hk. pose proof (am_modulus _ _ C) as Hm.
  rewrite (ac_start _ _ C), (ac_next _ _ C), <- (ac_window _ _ C).
  pose proof (am_mod_window e b C) as Hmm.
  rewrite (Zminus_mod ((b + k) mod sn_modulus e)), !Hmm, <- Zminus_mod.
  replace (b + k - b) with k by lia. by apply Z.mod_small.
Qed.

Lemma am_get_slot e b k :
  am_rx_cfg e b -> 0 <= k < sn_modulus e ->
  nr_rlc_rx_manager_get_pdu_from_sn (rx e) ((b + k) mod sn_modulus e) =
    Ok (rxm_slot (rx e) (k mod window_size e)).
Proof.
  intros C Hk. pose proof (am_modulus _ _ C) as Hm. pose proof (ac_window_pos _ _ C).
  pose proof (Z.mod_pos_bound (b + k) (sn_modulus e) ltac:(lia)).
  rewrite (get_pdu_ok _ _ _ (ac_rxm _ _ C)) by done. f_equal.
  pose proof (rw_size _ _ (ac_rxm _ _ C)).
  rewrite <- (rxm_slot_mod _ (_ - _)) by done. f_equal.
  pose proof (Z.mod_pos_bound k (window_size e) ltac:(lia)) as Hkw.
  pose proof (am_slot_pos e b (k mod window_size e) C Hkw) as P.
  rewrite <- P at 1. rewrite (ac_start _ _ C), (ac_next _ _ C).
  rewrite <- (ac_window _ _ C).
  pose proof (am_mod_window e b C) as Hmm.
  rewrite (Zminus_mod ((b + k) mod sn_modulus e)),
    (Zminus_mod ((b + k mod window_size e) mod sn_modulus e)), !Hmm.
  by rewrite Zplus_mod_idemp_r.
Qed.

Lemma am_slot_window e b ds k :
  am_slots e b ds -> 0 <= k < window_size e ->
  nr_rlc_rx_manager_get_pdu_from_sn (rx e) ((b + k) mod sn_modulus e) = Ok (rxm_slot (rx e) k) /\
  sdu_delivered e ((b + k) mod sn_modulus e) = Ok (bool_decide (b + k ∈ ds)).
Proof.
  intros S Hk. pose proof (as_cfg _ _ _ S) as C. pose proof (am_modulus _ _ C).
  pose proof (am_get_slot e b k C ltac:(lia)) as G. rewrite (Z.mod_small k) in G by lia.
  split; [done|]. unfold sdu_delivered. rewrite G. cbn. f_equal.
  by eapply slot_delivered, as_slot.
Qed.

(** *** The searches for a slot not delivered *)
Lemma am_sn_succ e b k : am_rx_cfg e b ->
  ((b + k) mod sn_modulus e + 1) `rem` sn_modulus e = (b + (k + 1)) mod sn_modulus e.
Proof.
  intros C. pose proof (am_modulus _ _ C). pose proof (ac_window_pos _ _ C).
  pose proof (Z.mod_pos_bound (b + k) (sn_modulus e) ltac:(lia)).
  rewrite rem_mod by lia. rewrite Zplus_mod_idemp_l. f_equal. lia.
Qed.

Lemma am_skip_ok e b ds j : am_slots e b ds -> b + j ∉ ds -> j < window_size e ->
  forall n h, 0 <= h <= j -> j - h < Z.of_nat n ->
  exists h', skip_delivered n e ((b + h) mod sn_modulus e) = Ok ((b + h') mod sn_modulus e) /\
    h <= h' <= j /\ b + h' ∉ ds /\ forall i, h <= i < h' -> b + i ∈ ds.
Proof.
  intros S Hj Hjw. induction n as [|n IH]; intros h Hh Hn; [lia|]. cbn [skip_delivered].
  destruct (am_slot_window e b ds h S ltac:(lia)) as [_ ->]. cbn [res_bind].
  case_bool_decide as Hd.
  - assert (h <> j) by (by intros ->). rewrite (am_sn_succ e b h (as_cfg _ _ _ S)).
    destruct (IH (h + 1)) as (h' & E & ? & ? & Hi); [lia|lia|]. exists h'. rewrite E.
    split_and!; try done; try lia. intros i Hi'. destruct (decide (i = h)) as [->|]; [done|].
    apply Hi. lia.
  - exists h. split_and!; try done; lia.
Qed.

(** *** Changing one slot *)
Lemma am_write e b k l :
  am_rx_cfg e b -> 0 <= k < window_size e ->
  exists m, rxm_write (rx e) (get_pos (rx e) ((b + k) mod sn_modulus e)) l = Ok m /\
    am_rx_cfg (e <| rx := m |>) b /\
    (forall j, 0 <= j < window_size e -> rxm_slot m j = if j =? k then l else rxm_slot (rx e) j) /\
    rx_bytes m = rx_bytes (rx e) - live (rxm_slot (rx e) k) + live l.
Proof.
  intros C Hk. pose proof (am_modulus _ _ C) as Hm.
  pose proof (Z.mod_pos_bound (b + k) (sn_modulus e) ltac:(lia)) as Hsn.
  destruct (rxm_write_ok _ _ _ l (ac_rxm _ _ C) Hsn) as (m & E & W & E1 & E2 & E3 & Hsl).
  exists m. split; [done|]. split.
  { destruct C as [C1 C2 C3 C4 C5 C6 C7]. split; cbn; try done; congruence. }
  pose proof (am_get_slot e b k C ltac:(lia)) as G. rewrite (Z.mod_small k) in G by lia.
  rewrite (get_pdu_ok _ _ _ (ac_rxm _ _ C)) in G by done.
  assert (rxm_slot (rx e) ((b + k) mod sn_modulus e - rxm_sn_start (rx e)) = rxm_slot (rx e) k) as Gs
    by congruence.
  split.
  - intros j Hj. rewrite Hsl by (rewrite <- (ac_window _ _ C); done).
    assert (((b + k) mod sn_modulus e - rxm_sn_start (rx e)) mod rxm_size (rx e) = k) as ->; [|done].
    pose proof (am_slot_pos e b k C Hk). done.
  - rewrite (rx_bytes_write _ _ _ _ _ (ac_rxm _ _ C) Hsn E), Gs. done.
Qed.

(** *** Freeing the delivered slots at the head of the window *)
Lemma rxm_write_live modulus m sn m' :
  rxm_wf modulus m -> 0 <= sn < modulus -> rxm_write m (get_pos m sn) [] = Ok m' ->
  delivered (rxm_slot m (sn - rxm_sn_start m)) = true -> rx_bytes m' = rx_bytes m.
Proof.
  intros W Hsn E Hd. rewrite (rx_bytes_write _ _ _ _ _ W Hsn E).
  unfold live at 1. rewrite Hd. cbn. lia.
Qed.

Lemma am_free_ok e b n0 : am_rx_cfg e b -> 0 <= n0 < window_size e ->
  forall fuel m j, rxm_wf (sn_modulus e) m -> rxm_size m = window_size e ->
  rxm_sn_start m = rx_next e -> rxm_start m = rxm_start (rx e) -> 0 <= j <= n0 ->
  (forall i, 0 <= i < window_size e -> rxm_slot m i = if i <? j then [] else rxm_slot (rx e) i) ->
  (forall i, 0 <= i < n0 -> delivered (rxm_slot (rx e) i) = true) ->
  delivered (rxm_slot (rx e) n0) = false -> n0 - j < Z.of_nat fuel ->
  exists m', free_delivered fuel (sn_modulus e) m ((b + j) mod sn_modulus e) j =
      Ok (m', (b + n0) mod sn_modulus e, n0) /\
    rxm_wf (sn_modulus e) m' /\ rxm_size m' = window_size e /\
    rxm_sn_start m' = rx_next e /\ rxm_start m' = rxm_start (rx e) /\
    (forall i, 0 <= i < window_size e -> rxm_slot m' i = if i <? n0 then [] else rxm_slot (rx e) i) /\
    rx_bytes m' = rx_bytes m.
Proof.
  intros C Hn0. pose proof (am_modulus _ _ C) as Hm.
  induction fuel as [|fuel IH]; intros m j W Hsz Hst Hss Hj Hsl Hd Hnd Hf; [lia|].
  cbn [free_delivered].
  assert (am_rx_cfg (e <| rx := m |>) b) as Cm.
  { destruct C as [C1 C2 C3 C4 C5 C6 C7]. by split. }
  pose proof (am_get_slot (e <| rx := m |>) b j Cm) as G. cbn in G. rewrite G by lia. clear G.
  rewrite (Z.mod_small j) by lia. cbn [res_bind]. rewrite Hsl by lia.
  destruct (j <? j) eqn:E; [lia|]. clear E.
  destruct (decide (j = n0)) as [->|Hne].
  - rewrite Hnd. exists m. split_and!; done.
  - rewrite Hd by lia. unfold nr_rlc_rx_manager_clear_pdu.
    pose proof (Z.mod_pos_bound (b + j) (sn_modulus e) ltac:(lia)) as Hsn.
    destruct (rxm_write_ok _ _ _ [] W Hsn) as (m1 & E1 & W1 & S1 & S2 & S3 & Hs1).
    rewrite E1. cbn [res_bind]. rewrite (am_sn_succ e b j C).
    pose proof (am_slot_pos (e <| rx := m |>) b j Cm) as P. cbn in P.
    destruct (IH m1 (j + 1)) as (m' & E & R); try done; try congruence; try lia.
    { intros i Hi. rewrite Hs1 by lia. rewrite P by lia. rewrite Hsl by lia.
      destruct (i =? j) eqn:?, (i <? j) eqn:?, (i <? j + 1) eqn:?; done || lia. }
    exists m'. rewrite E. split; [done|]. destruct R as (? & ? & ? & ? & ? & Hb).
    split_and!; try done. rewrite Hb. apply (rxm_write_live _ _ _ _ W Hsn E1).
    assert (rxm_slot m ((b + j) mod sn_modulus e - rxm_sn_start m) = rxm_slot (rx e) j) as ->.
    { rewrite <- rxm_slot_mod by lia. rewrite P by lia. rewrite Hsl by lia.
      by destruct (j <? j) eqn:?; [lia|]. }
    apply Hd. lia.
Qed.

Lemma rxm_advance_slot modulus m n sn :
  rxm_wf modulus m -> 0 <= n < rxm_size m -> 0 <= sn < modulus ->
  let m' := nr_rlc_rx_manager_set_start (nr_rlc_rx_manager_advance m n) sn in
  rxm_wf modulus m' /\ rxm_size m' = rxm_size m /\ rxm_sn_start m' = sn /\
  rx_bytes m' = rx_bytes m /\
  forall k, rxm_slot m' k = rxm_slot m (k + n).
Proof.
  intros W Hn Hsn. pose proof W as [H1 H2 H3 H4 H5]. cbn. split.
  { split; cbn; try done. apply rem_bound; lia. }
  split_and!; try done. intros k. unfold rxm_slot; cbn. f_equal. f_equal.
  rewrite rem_mod by lia. rewrite Zplus_mod_idemp_l. f_equal. lia.
Qed.

Lemma am_sn_inj e b k h : am_rx_cfg e b -> 0 <= k < sn_modulus e -> 0 <= h < sn_modulus e ->
  (((b + k) mod sn_modulus e) =? ((b + h) mod sn_modulus e)) = (k =? h).
Proof.
  intros C Hk Hh. destruct (k =? h) eqn:E.
  - apply Z.eqb_eq in E as ->. apply Z.eqb_refl.
  - apply Z.eqb_neq. intros Eq. apply (f_equal (modulus_rx e)) in Eq.
    rewrite !(am_modulus_rx e b) in Eq by done. lia.
Qed.

(** what reception keeps of the entity *)
Definition am_keep (e e' : nr_rlc_entity_am_t) : Prop :=
  sn_field_length e' = sn_field_length e /\ sn_modulus e' = sn_modulus e /\
  window_size e' = window_size e /\ rx_maxsize e' = rx_maxsize e.

Lemma am_slots_ext e e' b ds :
  am_slots e b ds -> rx e' = rx e -> sn_modulus e' = sn_modulus e ->
  window_size e' = window_size e -> rx_next e' = rx_next e ->
  0 <= rx_next_highest e' < sn_modulus e -> rx_size e' = rx_size e ->
  trace (common e') = trace (common e) -> am_slots e' b ds.
Proof.
  intros [[C1 C2 C3 C4 C5 C6 C7] S1 S2 S3 S4 S5 S6 S7] E1 E2 E3 E4 E5 E6 E7.
  split; [split|..]; rewrite ?E1, ?E2, ?E3, ?E4, ?E5, ?E6, ?E7; try done; apply E5.
Qed.

(** the step of rx_highest_status behind a delivery *)
Lemma am_status_step e b ds k h :
  am_slots e b ds -> 0 <= k < window_size e - 1 -> 0 <= h < window_size e ->
  rx_highest_status e = (b + h) mod sn_modulus e -> (h <> k -> b + h ∉ ds) ->
  exists e', (if ((b + k) mod sn_modulus e) =? rx_highest_status e
              then let* sn := skip_delivered (skip_fuel e) e (rx_highest_status e) in
                   Ok (e <| rx_highest_status := sn |>)
              else Ok e) = Ok e' /\ am_slots e' b ds /\ am_keep e e' /\
    exists h', 0 <= h' < window_size e /\
      rx_highest_status e' = (b + h') mod sn_modulus e /\ b + h' ∉ ds.
Proof.
  intros S Hk Hh Es Hn. pose proof (as_cfg _ _ _ S) as C. pose proof (am_modulus _ _ C).
  rewrite Es, am_sn_inj by (done || lia). destruct (k =? h) eqn:E.
  - assert (b + (window_size e - 1) ∉ ds) as Hl by (intros Hi; apply (as_range _ _ _ S) in Hi; lia).
    destruct (am_skip_ok e b ds _ S Hl ltac:(lia) (skip_fuel e) h) as (h' & -> & ? & Hd & _); [lia| |].
    { unfold skip_fuel. rewrite <- (ac_window _ _ C). lia. }
    cbn [res_bind]. eexists. split; [done|]. split; [|split; [done|exists h'; split; [lia|done]]].
    apply (am_slots_ext e); try done. apply C.
  - exists e. split; [done|]. split; [done|]. split; [done|]. exists h. split_and!; try done; try lia.
    apply Hn. lia.
Qed.

(** the step of rx_next: the delivered slots at the head are freed *)
Lemma am_next_step e b ds k h :
  am_slots e b ds -> 0 <= k < window_size e - 1 -> (k <> 0 -> b ∉ ds) ->
  0 <= h < window_size e -> rx_highest_status e = (b + h) mod sn_modulus e -> b + h ∉ ds ->
  exists e' b', (if ((b + k) mod sn_modulus e) =? rx_next e
     then let* '(m, next, count) :=
            free_delivered (skip_fuel e) (sn_modulus e) (rx e) (rx_next e) 0 in
          let e := e <| rx_next := next |> in
          let m := nr_rlc_rx_manager_advance m count in
          Ok (e <| rx := nr_rlc_rx_manager_set_start m next |>)
     else Ok e) = Ok e' /\ am_rx e' b' ds /\ am_keep e e' /\ b <= b' < b + window_size e.
Proof.
  intros S Hk Hb Hh Es Hn. pose proof (as_cfg _ _ _ S) as C. pose proof (am_modulus _ _ C) as Hm.
  assert (rx_next e = (b + 0) mod sn_modulus e) as En by (rewrite Z.add_0_r; apply C).
  rewrite En, am_sn_inj by (done || lia). destruct (k =? 0) eqn:E.
  2: { exists e, b. split; [done|]. split; [|split; [done|lia]].
       split; [done|apply Hb; lia|by exists h]. }
  destruct (am_skip_ok e b ds h S Hn ltac:(lia) (Datatypes.S (Z.to_nat h)) 0 ltac:(lia) ltac:(lia))
    as (n0 & _ & Hn0 & Hnd & Hd).
  assert (forall i, 0 <= i < window_size e ->
    delivered (rxm_slot (rx e) i) = bool_decide (b + i ∈ ds)) as Hdv
    by (intros i Hi; by eapply slot_delivered, as_slot).
  destruct (am_free_ok e b n0 C ltac:(lia) (skip_fuel e) (rx e) 0) as (m & -> & W & Sz & Ss & St & Sl & Sb);
    try done; try lia.
  { apply C. }
  { symmetry. apply C. }
  { apply C. }
  { intros i Hi. destruct (i <? 0) eqn:?; [lia|done]. }
  { intros i Hi. rewrite Hdv by lia. apply bool_decide_eq_true. apply Hd. lia. }
  { rewrite Hdv by lia. by apply bool_decide_eq_false. }
  { unfold skip_fuel. rewrite <- (ac_window _ _ C). lia. }
  cbn [res_bind]. pose proof (Z.mod_pos_bound (b + n0) (sn_modulus e) ltac:(lia)) as Hsn.
  destruct (rxm_advance_slot _ m n0 _ W ltac:(lia) Hsn) as (W' & Z1 & Z2 & Z3 & Z4).
  eexists _, (b + n0). split; [done|]. split; [|split; [done|lia]].
  destruct C as [C1 C2 C3 C4 C5 C6 C7]. destruct S as [SC S1 S2 S3 S4 S5 S6 S7].
  split; [split|done|].
  - split; try done; cbn -[nr_rlc_rx_manager_set_start nr_rlc_rx_manager_advance]. lia.
  - intros i Hi. cbn -[nr_rlc_rx_manager_set_start nr_rlc_rx_manager_advance] in Hi |- *.
    rewrite Z4. replace (b + n0 + i) with (b + (i + n0)) by lia.
    destruct (decide (i + n0 < window_size e)) as [Hlt|Hge].
    + rewrite Sl by lia. destruct (i + n0 <? n0) eqn:?; [lia|]. apply S1. lia.
    + rewrite <- rxm_slot_mod by lia. rewrite Sz.
      replace ((i + n0) mod window_size e) with (i + n0 - window_size e).
      2: { rewrite <- (Z_mod_plus_full _ (-1)), Z.mod_small by lia. lia. }
      rewrite Sl by lia. destruct (_ <? n0) eqn:?; [|lia].
      rewrite bool_decide_eq_false_2; [apply slot_nil|]. intros Hi'%S4. lia.
  - done.
  - intros a Ha. destruct (decide (a < b)); [apply S3; lia|].
    replace a with (b + (a - b)) by lia. apply Hd. lia.
  - intros a Ha%S4. cbn -[nr_rlc_rx_manager_set_start nr_rlc_rx_manager_advance]. lia.
  - cbn -[nr_rlc_rx_manager_set_start nr_rlc_rx_manager_advance]. rewrite Z3, Sb. done.
  - done.
  - done.
  - exists (h - n0). cbn -[nr_rlc_rx_manager_set_start nr_rlc_rx_manager_advance].
    assert (n0 <= h) by lia. split; [lia|]. replace (b + n0 + (h - n0)) with (b + h) by lia. done.
Qed.

(** *** The reception actions *)
Lemma am_timer_ok e b ds :
  am_rx e b ds -> exists e', reception_timer e = Ok e' /\ am_rx e' b ds /\ am_keep e e'.
Proof.
  intros [S Hn (h & Hh & Es & Hd)]. pose proof (as_cfg _ _ _ S) as C. pose proof (am_modulus _ _ C).
  unfold reception_timer, sdu_has_missing_bytes.
  assert (nr_rlc_rx_manager_get_pdu_from_sn (rx e) (rx_next e) =
    Ok (rxm_slot (rx e) (0 mod window_size e))) as ->.
  { rewrite <- (am_get_slot e b 0 C), Z.add_0_r by (pose proof (ac_window_pos _ _ C); lia).
    by rewrite <- (ac_next _ _ C). }
  cbn [res_bind]. set (e1 := if (_ && _) then _ else _).
  assert (forall t u, am_rx (e <| t_reassembly_start := t |> <| rx_next_status_trigger := u |>) b ds) as Hext.
  { intros t u. split; [|done|by exists h]. apply (am_slots_ext e); try done. apply C. }
  assert (exists t u, e1 = e <| t_reassembly_start := t |> <| rx_next_status_trigger := u |>)
    as (t & u & ->).
  { unfold e1. destruct (_ && _); [by exists 0, (rx_next_status_trigger e)|].
    exists (t_reassembly_start e), (rx_next_status_trigger e). by destruct e. }
  repeat case_match; (eexists; split; [done|split; [|done]]); try apply Hext.
  all: apply (Hext (t_current e) (rx_next_highest e)).
Qed.

(** the PDU is in its slot [k], with list [l] *)
Lemma am_reception_ok e b ds k l pdu :
  am_rx_cfg e b -> 0 <= k < window_size e - 1 -> b + k ∉ ds -> b ∉ ds ->
  p_sn pdu = (b + k) mod sn_modulus e ->
  (forall j, 0 <= j < window_size e -> j <> k ->
    slot_ok (D (b + j)) ((b + j) mod sn_modulus e) (bool_decide (b + j ∈ ds)) (rxm_slot (rx e) j)) ->
  rxm_slot (rx e) k = l -> Forall (pdu_of (D (b + k))) l ->
  Forall (fun p => p_sn p = (b + k) mod sn_modulus e) l -> so_sorted l -> delivered l = false ->
  NoDup ds -> (forall a, 0 <= a < b -> a ∈ ds) ->
  (forall a, a ∈ ds -> 0 <= a < b + window_size e - 1) ->
  rx_size e = rx_bytes (rx e) -> trace (common e) = (fun a => deliver_sdu (D a)) <$> ds ->
  (forall a, 0 < Z.of_nat (length (D a)) <= NR_SDU_MAX) ->
  (exists h, 0 <= h < window_size e /\
    rx_highest_status e = (b + h) mod sn_modulus e /\ b + h ∉ ds) ->
  exists e' b' ds', reception_actions e pdu = Ok e' /\ am_rx e' b' ds' /\ am_keep e e' /\
    b <= b' < b + window_size e /\ (ds' = ds \/ ds' = ds ++ [b + k]).
Proof.
  intros C Hk Hkd Hbd Hsn Hsl Hl Fl Fsn Sl Dl Nd Hbel Hra Hsz Htr HD (h & Hh & Eh & Hhd).
  pose proof (am_modulus _ _ C) as Hm. unfold reception_actions. rewrite Hsn.
  set (x := (b + k) mod sn_modulus e).
  set (e1 := if 0 <=? _ then _ else _).
  assert (exists nh, 0 <= nh < sn_modulus e /\ e1 = e <| rx_next_highest := nh |>) as (nh & Hnh & ->).
  { unfold e1. destruct (0 <=? _).
    - eexists. split; [|done]. pose proof (Z.mod_pos_bound (b + k) (sn_modulus e) ltac:(lia)).
      apply rem_bound; lia.
    - exists (rx_next_highest e). split; [apply C|]. by destruct e. }
  set (e1 := e <| rx_next_highest := nh |>).
  assert (am_rx_cfg e1 b) as C1 by (destruct C; by split).
  pose proof (am_get_slot e1 b k C1 ltac:(cbn; lia)) as G.
  change (sn_modulus e1) with (sn_modulus e) in G. change (window_size e1) with (window_size e) in G.
  change (rx e1) with (rx e) in G. rewrite (Z.mod_small k), Hl in G by lia. fold x in G.
  unfold sdu_full. change (rx e1) with (rx e). rewrite G. cbn [res_bind]. rewrite Dl. cbn [res_bind].
  destruct (full_from l (-1)) eqn:Hf.
  - (* complete *)
    unfold reception_full, reassemble_and_deliver. change (rx e1) with (rx e).
    rewrite G. cbn [res_bind].
    destruct (am_write e b k (clear_data <$> l) C ltac:(lia)) as (m & Ew & Cm & Sm & Bm).
    fold x in Ew. change (rx_size e1) with (rx_size e).
    pose proof (am_reassemble_loop_ok (D (b + k)) ltac:(apply HD) l 0 (rx_size e) Fl Sl
                  ltac:(lia) ltac:(by right)) as R.
    change (take (Z.to_nat 0) (D (b + k))) with (@nil Z) in R. rewrite R. cbn [res_bind].
    rewrite Ew. cbn [res_bind]. set (e2 := on_stats _ _).
    assert (am_slots e2 b (ds ++ [b + k])) as S2.
    { split.
      - destruct Cm as [? ? ? ? ? ? ?]. by split.
      - intros j Hj. change (rx e2) with m. change (sn_modulus e2) with (sn_modulus e).
        rewrite Sm by done. destruct (j =? k) eqn:E.
        + apply Z.eqb_eq in E as ->. rewrite bool_decide_eq_true_2 by (rewrite elem_of_app, list_elem_of_singleton; by right).
          exists l. by rewrite Hf.
        + assert (j <> k) by lia.
          assert (bool_decide (b + j ∈ ds ++ [b + k]) = bool_decide (b + j ∈ ds)) as ->.
          { apply bool_decide_ext. rewrite elem_of_app, list_elem_of_singleton. split; [|by left].
            intros [?|?]; [done|lia]. }
          by apply Hsl.
      - apply NoDup_app. split; [done|]. split; [|apply NoDup_singleton].
        intros a Ha Ha'%list_elem_of_singleton. by subst.
      - intros a Ha. apply elem_of_app. left. by apply Hbel.
      - change (window_size e2) with (window_size e). pose proof (ac_b _ _ C).
        intros a [Ha%Hra|Ha%list_elem_of_singleton]%elem_of_app; lia.
      - change (rx_size e2) with (rx_size e - sum_pdu l). change (rx e2) with m.
        rewrite Bm, Hl, Hsz. unfold live at 1. rewrite Dl. unfold live.
        destruct l as [|p l']; [done|]. cbn. lia.
      - change (trace (common e2)) with (trace (common e) ++ [deliver_sdu (D (b + k))]).
        by rewrite Htr, fmap_app.
      - done. }
    destruct (am_status_step e2 b _ k h S2 ltac:(done) ltac:(done) Eh) as (e3 & E3 & S3 & K3 & (h' & Hh' & Eh' & Hd')).
    { intros Hne. rewrite elem_of_app, list_elem_of_singleton. intros [?|?]; [done|lia]. }
    change (sn_modulus e2) with (sn_modulus e) in E3. fold x in E3. rewrite E3. cbn [res_bind].
    assert (sn_modulus e3 = sn_modulus e /\ window_size e3 = window_size e) as [M3 W3].
    { destruct K3 as (_ & -> & -> & _). done. }
    destruct (am_next_step e3 b _ k h' S3) as (e4 & b' & E4 & R4 & K4 & Hb'); rewrite ?M3, ?W3; try done.
    { intros Hne. rewrite elem_of_app, list_elem_of_singleton. intros [?|?]; [done|lia]. }
    rewrite !M3 in E4. fold x in E4. destruct (am_timer_ok e4 b' _ R4) as (e5 & E5 & R5 & K5).
    exists e5, b', (ds ++ [b + k]).
    split; [exact (eq_trans (f_equal (fun m => res_bind m reception_timer) E4) E5)|]. split; [done|].
    split; [|split; [by rewrite <- W3|by right]].
    destruct K3 as (? & ? & ? & ?), K4 as (? & ? & ? & ?), K5 as (? & ? & ? & ?).
    split_and!; etransitivity; eauto; etransitivity; eauto; etransitivity; eauto.
  - cbn [res_bind]. destruct (am_timer_ok e1 b ds) as (e5 & E5 & R5 & K5).
    { split; [|done|by exists h]. split; try done.
      intros j Hj. change (rx e1) with (rx e). destruct (decide (j = k)) as [->|Hne]; [|by apply Hsl].
      rewrite bool_decide_eq_false_2 by done. rewrite Hl. exists l. by rewrite Hf. }
    exists e5, b, ds. split; [done|]. split; [done|]. split; [done|]. split; [lia|by left].
Qed.

(** *** Arrivals *)

(** the buffer carries a segment of the SDU of number [a]: its header is
    decoded, and the bytes behind are those of the SDU *)
Definition am_segment (e : nr_rlc_entity_am_t) (a : Z) (buffer : list Z) : Prop :=
  exists d p h, get_bits_R (nr_rlc_pdu_decoder_init buffer) 1 = Some (1, d) /\
    decode_data_header e d = (p, Some h) /\
    h_sn h = a mod sn_modulus e /\ 0 <= h_byte h < Z.of_nat (length buffer) /\
    pdu_of (D a) (nr_rlc_new_pdu (h_sn h) (h_so h) (h_is_first h) (h_is_last h)
                    (drop (Z.to_nat (h_byte h)) buffer)).

Lemma am_rx_ext e e' b ds :
  am_rx e b ds -> rx e' = rx e -> sn_modulus e' = sn_modulus e ->
  window_size e' = window_size e -> rx_next e' = rx_next e ->
  rx_highest_status e' = rx_highest_status e ->
  0 <= rx_next_highest e' < sn_modulus e -> rx_size e' = rx_size e ->
  trace (common e') = trace (common e) -> am_rx e' b ds.
Proof.
  intros [S Hn (h & H)] E1 E2 E3 E4 E5 E6 E7 E8. split; [by eapply am_slots_ext|done|].
  exists h. by rewrite E2, E3, E5.
Qed.

Lemma am_discard_ok e b ds p size : am_rx e b ds ->
  am_rx (discard_pdu p size e) b ds /\ am_keep e (discard_pdu p size e).
Proof.
  intros R. split; [|unfold discard_pdu; by case_match].
  pose proof (ac_highest _ _ (as_cfg _ _ _ (ar_slots _ _ _ R))).
  unfold discard_pdu. case_match; apply (am_rx_ext e); done.
Qed.

Lemma am_recv_ok e b ds a buffer :
  am_rx e b ds -> am_segment e a buffer -> b - window_size e <= a < b + window_size e - 1 ->
  exists e' b' ds', nr_rlc_entity_am_recv_pdu e buffer = Ok e' /\ am_rx e' b' ds' /\ am_keep e e' /\
    b <= b' < b + window_size e /\ (ds' = ds \/ (a ∉ ds /\ ds' = ds ++ [a])).
Proof.
  intros R0 (d & p & h & E1 & E2 & Hsn & Hby & P) Ha.
  unfold nr_rlc_entity_am_recv_pdu. rewrite E1. cbn [Z.eqb].
  set (e0 := on_stats _ e).
  assert (am_rx e0 b ds) as R.
  { pose proof (ac_highest _ _ (as_cfg _ _ _ (ar_slots _ _ _ R0))). by apply (am_rx_ext e). }
  assert (am_keep e e0) as K0 by done.
  change (decode_data_header e0) with (decode_data_header e). rewrite E2. unfold recv_data_pdu.
  change (sn_modulus e) with (sn_modulus e0) in Hsn. change (window_size e) with (window_size e0) in *.
  clearbody e0. clear R0 E1 E2.
  set (size := Z.of_nat (length buffer)) in *.
  assert (forall e', am_keep e0 e' -> am_keep e e') as Kt.
  { intros e' (? & ? & ? & ?). destruct K0 as (? & ? & ? & ?). split_and!; congruence. }
  assert (forall e1, am_rx e1 b ds -> am_keep e0 e1 -> exists e' b' ds',
    Ok (discard_pdu p size e1) = Ok e' /\ am_rx e' b' ds' /\ am_keep e e' /\
    b <= b' < b + window_size e0 /\ (ds' = ds \/ (a ∉ ds /\ ds' = ds ++ [a]))) as Hdisc.
  { intros e1 R1 K1. destruct (am_discard_ok e1 b ds p size R1) as [R2 K2].
    eexists _, b, ds. split; [done|]. split; [done|]. split; [|split; [lia|by left]].
    apply Kt. destruct K1 as (? & ? & ? & ?), K2 as (? & ? & ? & ?). split_and!; congruence. }
  destruct (size - h_byte h <=? 0) eqn:F1; [by apply Hdisc|].
  destruct (rx_maxsize e0 <? rx_size e0 + (size - h_byte h)) eqn:F2; [by apply Hdisc|].
  pose proof R as [S Hbn Hst]. pose proof (as_cfg _ _ _ S) as C. pose proof (am_modulus _ _ C) as Hm.
  unfold sn_in_recv_window. set (k := if a <? b then a - b + sn_modulus e0 else a - b).
  assert (h_sn h = (b + k) mod sn_modulus e0) as Hk.
  { rewrite Hsn. unfold k. destruct (a <? b); [|f_equal; lia].
    rewrite <- (Z_mod_plus_full a 1). f_equal. lia. }
  rewrite Hk, (am_modulus_rx e0 b k) by (try done; unfold k; destruct (a <? b) eqn:?; lia).
  destruct (k <? window_size e0) eqn:F3; cbn [negb].
  2: { set (e1 := on_stats _ e0). apply (Hdisc e1); [|done].
       pose proof (ac_highest _ _ C). by apply (am_rx_ext e0). }
  assert (a = b + k /\ 0 <= k < window_size e0 - 1) as [Eak Hkw].
  { unfold k in F3 |- *. destruct (a <? b) eqn:?; lia. }
  clearbody k. subst a. destruct (am_slot_window e0 b ds k S ltac:(lia)) as [G _].
  unfold segment_already_received. rewrite G. cbn [res_bind].
  pose proof (as_slot _ _ _ S k ltac:(lia)) as Sk.
  destruct (not_covered (rxm_slot (rx e0) k) (h_so h) (size - h_byte h) <=? 0) eqn:F4.
  { set (e1 := on_stats _ e0). apply (Hdisc e1); [|done].
    pose proof (ac_highest _ _ C). by apply (am_rx_ext e0). }
  rewrite mem_read_total by (fold size; lia).
  replace (take _ (drop (Z.to_nat (size - (size - h_byte h))) buffer))
    with (drop (Z.to_nat (h_byte h)) buffer).
  2: { replace (size - (size - h_byte h)) with (h_byte h) by lia.
       symmetry. apply take_ge. rewrite length_drop. lia. }
  cbn [res_bind]. rewrite Hk in P. set (pdu := nr_rlc_new_pdu _ _ _ _ _) in *.
  assert (p_size pdu = size - h_byte h) as Hps.
  { cbn. rewrite length_drop. unfold size. lia. }
  case_bool_decide as Hd.
  { pose proof (slot_duplicate _ _ _ _ Sk P) as Hdup. rewrite Hps in Hdup. cbn in Hdup. lia. }
  destruct (slot_insert _ _ _ _ Sk P eq_refl) as (I1 & I2 & I3 & I4).
  unfold nr_rlc_rx_manager_add_pdu. change (p_sn pdu) with ((b + k) mod sn_modulus e0).
  cbn [rx update]. set (l := rxm_slot (rx e0) k) in *.
  change (rxm_read (rx e0) (get_pos (rx e0) ((b + k) mod sn_modulus e0)))
    with (nr_rlc_rx_manager_get_pdu_from_sn (rx e0) ((b + k) mod sn_modulus e0)).
  rewrite G. cbn [res_bind].
  destruct (am_write e0 b k (insert_by_so l pdu) C ltac:(lia)) as (m & -> & Cm & Sm & Bm).
  cbn [res_bind].
  set (e1 := e0 <| rx_size := rx_size e0 + (size - h_byte h) |> <| rx := m |>).
  destruct (am_reception_ok e1 b ds k (insert_by_so l pdu) pdu) as (e' & b' & ds' & Er & R' & K' & Hb' & Hds);
    try done.
  { destruct Cm as [? ? ? ? ? ? ?]. by split. }
  { intros j Hj Hne. change (rx e1) with m. rewrite Sm by done.
    destruct (j =? k) eqn:?; [lia|]. by apply (as_slot _ _ _ S). }
  { change (rx e1) with m. rewrite Sm by lia. by rewrite Z.eqb_refl. }
  { apply S. }
  { apply (as_below _ _ _ S). }
  { apply (as_range _ _ _ S). }
  { change (rx e1) with m. change (rx_size e1) with (rx_size e0 + (size - h_byte h)).
    rewrite Bm, (as_bytes _ _ _ S). unfold live. rewrite I4.
    replace (delivered (rxm_slot (rx e0) k)) with false by (symmetry; by eapply slot_delivered).
    fold l. rewrite (sum_pdu_perm _ _ (insert_by_so_perm l pdu)), sum_pdu_cons. lia. }
  { apply S. }
  { apply (as_sdu _ _ _ S). }
  as_call2 reception_actions e1 pdu. rewrite Er. cbn [res_bind].
  assert (am_keep e e') as K by (apply Kt; done).
  eexists _, b', ds'. split; [done|].
  pose proof (ac_highest _ _ (as_cfg _ _ _ (ar_slots _ _ _ R'))).
  split; [case_match; [by apply (am_rx_ext e')|done]|].
  split; [by case_match|]. split; [done|]. destruct Hds as [->| ->]; auto.
Qed.
End Window.

Lemma am_segment_config D e e' a buffer :
  am_keep e e' -> am_segment D e a buffer -> am_segment D e' a buffer.
Proof.
  intros (K1 & K2 & _) (d & p & h & E1 & E2 & H). exists d, p, h. split; [done|].
  unfold decode_data_header, snbits in *. rewrite K1, K2. done.
Qed.

(** ** Runs

    A run keeps the number [b] of the SDU of [rx_next], the first one not
    delivered. *)
Fixpoint am_run (e : nr_rlc_entity_am_t) (b : Z) (arrivals : list (Z * list Z))
  : res (nr_rlc_entity_am_t * Z) :=
  match arrivals with
  | [] => Ok (e, b)
  | (_, buffer) :: arrivals =>
    let* e' := nr_rlc_entity_am_recv_pdu e buffer in
    am_run e' (b + (rx_next e' - rx_next e) mod sn_modulus e) arrivals
  end.

(** every arrival carries a segment of the SDU of its number, which is at
    most a window away, and is not the last number of the window *)
Fixpoint am_arrivals_ok (D : Z -> list Z) (e : nr_rlc_entity_am_t) (b : Z)
    (arrivals : list (Z * list Z)) : Prop :=
  match arrivals with
  | [] => True
  | (a, buffer) :: arrivals =>
    am_segment D e a buffer /\ b - window_size e <= a < b + window_size e - 1 /\
    match nr_rlc_entity_am_recv_pdu e buffer with
    | Ok e' => am_arrivals_ok D e' (b + (rx_next e' - rx_next e) mod sn_modulus e) arrivals
    | Err _ => True
    end
  end.

Lemma am_run_ok D arrivals : forall e b ds,
  am_rx D e b ds -> am_arrivals_ok D e b arrivals ->
  exists e' b' ds', am_run e b arrivals = Ok (e', b') /\ am_rx D e' b' (ds ++ ds') /\
    forall a, a ∈ ds' -> a ∈ arrivals.*1.
Proof.
  induction arrivals as [|[a buffer] arrivals IH]; intros e b ds R Hok; cbn [am_run].
  - exists e, b, []. rewrite app_nil_r. split; [done|]. split; [done|]. done.
  - destruct Hok as (Hseg & Ha & Hok).
    destruct (am_recv_ok D e b ds a buffer R Hseg Ha) as (e1 & b1 & ds1 & E & R1 & K & Hb & Hds).
    rewrite E in Hok |- *. cbn [res_bind].
    assert (b + (rx_next e1 - rx_next e) mod sn_modulus e = b1) as Eb.
    { pose proof (as_cfg _ _ _ _ (ar_slots _ _ _ _ R)) as C.
      pose proof (as_cfg _ _ _ _ (ar_slots _ _ _ _ R1)) as C1.
      pose proof (am_modulus _ _ C). rewrite (ac_next _ _ C1), (ac_next _ _ C).
      destruct K as (_ & -> & _). rewrite <- Zminus_mod, Z.mod_small by lia. lia. }
    rewrite Eb in Hok |- *.
    destruct (IH e1 b1 ds1 R1 Hok) as (e2 & b2 & ds2 & E2 & R2 & Hin).
    destruct Hds as [->|[Hn ->]].
    + exists e2, b2, ds2. split; [done|]. split; [done|]. intros x Hx. right. by apply Hin.
    + exists e2, b2, (a :: ds2). rewrite <- app_assoc in R2. split; [done|]. split; [done|].
      intros x [->|Hx]%elem_of_cons; [left|right; by apply Hin].
Qed.

Lemma am_new_rx D rx_max tx_max t1 t2 t3 ppdu pbyte mretx snlen e :
  new_nr_rlc_entity_am rx_max tx_max t1 t2 t3 ppdu pbyte mretx snlen = Ok e ->
  (forall a, 0 < Z.of_nat (length (D a)) <= NR_SDU_MAX) -> am_rx D e 0 [].
Proof.
  unfold new_nr_rlc_entity_am, common_init. intros H HD.
  destruct (_ || _) eqn:El in H; [|done]. cbn [negb] in H. res_inv.
  assert (exists w, 1 < w /\ Z.shiftl 1 snlen = 2 * w /\ Z.shiftl 1 snlen `quot` 2 = w /\
    Z.shiftl 1 (snlen - 1) = w) as (w & Hw & -> & Eq & ->).
  { exists (2 ^ (snlen - 1)). rewrite !Z.shiftl_1_l. assert (snlen = 12 \/ snlen = 18) as [-> | ->] by lia; done. }
  assert (forall k, 0 <= k < w -> rxm_slot (nr_rlc_new_rx_manager w) k = []) as Hs.
  { intros k Hk. unfold rxm_slot. cbn. rewrite nth_lookup, lookup_replicate_2; [done|].
    rewrite Z.mod_small; lia. }
  assert (rx_bytes (nr_rlc_new_rx_manager w) = 0) as Hb.
  { unfold rx_bytes; cbn. generalize (Z.to_nat w). induction n; cbn; lia. }
  split; cbn -[rxm_slot nr_rlc_new_rx_manager].
  - rewrite Eq. split; cbn -[rxm_slot nr_rlc_new_rx_manager]; try done.
    + split; cbn -[rxm_slot nr_rlc_new_rx_manager]; try done; try lia.
      split; cbn; rewrite ?length_replicate; lia.
    + intros k Hk. rewrite Hs by done. apply slot_nil.
    + constructor.
    + intros a Ha. lia.
    + intros a Ha. by apply not_elem_of_nil in Ha.
  - by apply not_elem_of_nil.
  - exists 0. rewrite Eq. split; [lia|]. split; [by rewrite Z.mod_0_l by lia|by apply not_elem_of_nil].
Qed.


Definition am_rx_example_sdus (a : Z) : list Z :=
  if a =? 0 then [1;2;3] else if a =? 1 then [4;5] else [0].

(** SDU 1 first, then the end of SDU 0, its beginning, and SDU 1 again *)
Definition am_rx_example : list (Z * list Z) :=
  [(1, [128;1;4;5]); (0, [160;0;0;1;2;3]); (0, [144;0;1]); (1, [128;1;4;5])].

Ltac am_example_segment :=
  eexists _, _, _; split; [vm_compute; reflexivity|]; split; [vm_compute; reflexivity|];
  split; [vm_compute; reflexivity|]; split; [vm_compute; split; congruence|];
  split; vm_compute; (reflexivity || congruence).

Ltac am_example_step :=
  lazymatch goal with |- match ?m with Ok _ => _ | Err _ => _ end =>
    let r := eval vm_compute in m in
    replace m with r by (vm_compute; reflexivity)
  end.

