(* ===== verification/RlcAmTx.v ===== *)
(** * Transmission side of the AM entity

    The PDUs of [RlcAm]: header, segmentation, and the round trip with the
    decoding of the receiver. *)
From S2P Require Export RlcReassembly RlcAm.

Lemma am_header_pos e g : 2 <= compute_pdu_header_size e g <= 5.
Proof. unfold compute_pdu_header_size. repeat case_match; lia. Qed.

Lemma am_header_bits e g sn :
  sn_field_length e = 12 \/ sn_field_length e = 18 ->
  length (fields_bits (sdu_header_fields e g sn)) =
    (8 * Z.to_nat (compute_pdu_header_size e g))%nat.
Proof.
  unfold sdu_header_fields, compute_pdu_header_size, fields_bits, snbits.
  intros [H|H]; rewrite H; destruct (s_is_first g); reflexivity.
Qed.

Lemma am_header_small e g sn :
  sn_field_length e = 12 \/ sn_field_length e = 18 ->
  Forall (fun f : field => (f.2 <= 31)%nat) (sdu_header_fields e g sn).
Proof.
  intros [H|H]; unfold sdu_header_fields, snbits; rewrite H;
    destruct (s_is_first g); repeat constructor; cbn; lia.
Qed.

(** the P bit is the second bit of the PDU *)
Lemma bit_at_poll b rest i : 0 <= i ->
  bit_at (Z.lor b 64 :: rest) i = if i =? 1 then true else bit_at (b :: rest) i.
Proof.
  intros Hi. unfold bit_at. destruct (decide (i < 8)) as [Hlt|Hge].
  - rewrite Z.div_small, Z.mod_small by lia. change (Z.to_nat 0) with 0%nat. cbn [nth].
    assert (i = 0 \/ i = 1 \/ i = 2 \/ i = 3 \/ i = 4 \/ i = 5 \/ i = 6 \/ i = 7)
      as [->|[->|[->|[->|[->|[->|[->| ->]]]]]]] by lia;
      rewrite Z.lor_spec;
      match goal with |- context [Z.testbit 64 ?n] =>
        let v := eval vm_compute in (Z.testbit 64 n) in change (Z.testbit 64 n) with v end;
      by rewrite ?orb_true_r, ?orb_false_r.
  - assert (1 <= i / 8) by (Z.div_mod_to_equations; lia).
    replace (Z.to_nat (i / 8)) with (S (Z.to_nat (i / 8 - 1))) by lia. cbn [nth].
    destruct (i =? 1) eqn:E; [lia|done].
Qed.

Lemma reads_poll b rest d p ws :
  reads (b :: rest) (d :: p :: ws) -> reads (Z.lor b 64 :: rest) (d :: true :: ws).
Proof.
  intros [Hl Hr]. split; [exact Hl|]. intros i Hi. rewrite bit_at_poll by lia.
  destruct (i =? 1) eqn:E.
  - apply Z.eqb_eq in E as ->. done.
  - rewrite Hr by exact Hi. destruct (decide (i = 0)) as [->|]; [done|].
    replace (Z.to_nat i) with (S (S (Z.to_nat (i - 2)))) by lia. done.
Qed.

(** the PDU of a segment, with its P bit *)
Definition am_pdu (e : nr_rlc_entity_am_t) (g : nr_rlc_sdu_segment_t) (sn : Z) (p : bool)
    (data pdu : list Z) : Prop :=
  exists hdr, pdu = hdr ++ data /\
    Z.of_nat (length hdr) = compute_pdu_header_size e g /\
    reads pdu (fields_bits ((1, 1%nat) :: (Z.b2z p, 1%nat) :: drop 2 (sdu_header_fields e g sn))).

(** what [serialize_sdu] changes in the entity *)
Definition poll_included (e : nr_rlc_entity_am_t) (p : bool) : nr_rlc_entity_am_t :=
  if p then e <| pdu_without_poll := 0 |> <| byte_without_poll := 0 |>
              <| poll_sn := (tx_next e - 1 + sn_modulus e) `rem` sn_modulus e |>
              <| t_poll_retransmit_start := t_current e |>
  else e.

Lemma am_serialize_ok e g segs s buf p :
  sn_field_length e = 12 \/ sn_field_length e = 18 ->
  heap_wf segs (hp e) -> g ∈ segs -> h_sdus (hp e) !! s_sdu g = Some s ->
  compute_pdu_header_size e g + s_size g <= Z.of_nat (length buf) ->
  exists buf', let n := compute_pdu_header_size e g + s_size g in
    serialize_sdu e g buf p = Ok (poll_included e p, buf', n) /\ length buf' = length buf /\
    am_pdu e g (sdu_sn s) p (seg_bytes (hp e) g) (take (Z.to_nat n) buf').
Proof.
  intros Hl W Hg Hs Hb. unfold serialize_sdu, get_sdu. rewrite Hs. cbn [of_option res_bind].
  pose proof (seg_bytes_length _ _ _ W Hg) as Hlen. pose proof (am_header_pos e g) as Hp.
  destruct (serialize_fields (sdu_header_fields e g (sdu_sn s)) buf (seg_bytes (hp e) g)
              (Z.to_nat (compute_pdu_header_size e g)))
    as (enc & buf' & hdr & E & Eb & Em & El & Eh & Et & Er).
  - by apply am_header_small.
  - by apply am_header_bits.
  - lia.
  - rewrite E. cbn [res_bind]. rewrite (seg_bytes_read _ _ _ _ W Hg Hs).
    cbn [res_bind]. rewrite Em. cbn [res_bind]. rewrite Eb, Z2Nat.id by lia. cbn zeta.
    replace (Z.to_nat (_ + s_size g)) with
      (Z.to_nat (compute_pdu_header_size e g) + length (seg_bytes (hp e) g))%nat by lia.
    destruct p; cbn [res_bind poll_included].
    + destruct buf' as [|b rest]; [cbn in El; lia|]. cbn [include_poll res_bind].
      exists (Z.lor b 64 :: rest). split; [done|]. split; [done|].
      destruct hdr as [|b' hdr]; [cbn in Eh; lia|].
      destruct (Z.to_nat (compute_pdu_header_size e g)) as [|k] eqn:Ek; [lia|].
      cbn [Nat.add take app] in Et |- *. injection Et as <- Et. rewrite Et.
      exists (Z.lor b 64 :: hdr). split; [done|]. split; [cbn [length] in *; lia|].
      cbn [app] in Er |- *. unfold sdu_header_fields in Er |- *. cbn [app drop] in Er |- *.
      unfold fields_bits in Er |- *. cbn [fmap list_fmap concat app] in Er |- *.
      change (Z_to_bits (1, 1%nat).1 (1, 1%nat).2) with [true] in *.
      change (Z_to_bits (0, 1%nat).1 (0, 1%nat).2) with [false] in Er.
      change (Z_to_bits (Z.b2z true, 1%nat).1 (Z.b2z true, 1%nat).2) with [true].
      cbn [app] in Er |- *. by eapply reads_poll.
    + exists buf'. split; [done|]. split; [done|]. exists hdr. rewrite Et.
      split; [done|]. split; [lia|]. exact Er.
Qed.

(** ** The receiver's view of the PDU *)
Lemma am_decode_pdu e er g sn p data pdu :
  am_pdu e g sn p data pdu -> sn_field_length er = sn_field_length e ->
  sn_field_length e = 12 \/ sn_field_length e = 18 ->
  0 <= sn < 2 ^ sn_field_length e -> 0 <= s_so g < 65536 -> s_is_first g = (s_so g =? 0) ->
  exists d h, get_bits_R (nr_rlc_pdu_decoder_init pdu) 1 = Some (1, d) /\
    decode_data_header er d = (Z.b2z p, Some h) /\
    h = Mk_hdr (s_is_first g) (s_is_last g) sn (s_so g) (compute_pdu_header_size e g) /\
    drop (Z.to_nat (h_byte h)) pdu = data.
Proof.
  intros (hdr & Epdu & Hlen & Hr) El Hl Hsn Hso Hf.
  assert (forall n, Z.of_nat (length hdr) = n -> drop (Z.to_nat n) pdu = data) as Hdrop.
  { intros n <-. rewrite Nat2Z.id, Epdu. by rewrite drop_app_length. }
  rewrite Hlen in Hdrop. specialize (Hdrop _ eq_refl).
  set (buf := pdu) in *. clearbody buf. clear Epdu Hlen.
  assert (Hz16 : 0 <= s_so g < 2 ^ Z.of_nat 16) by done.
  assert (s_is_first g = false -> (s_so g =? 0) = false) as Hf1 by (intros E; by rewrite E in Hf).
  assert (s_is_first g = true -> s_so g = 0) as Hf2 by (intros E; rewrite E in Hf; lia).
  clear Hf. rewrite decoder_init_pos. unfold decode_data_header, snbits, nr_rlc_pdu_decoder_in_error.
  rewrite El. unfold sdu_header_fields, snbits in Hr.
  assert (0 <= 0 < 2 ^ Z.of_nat 2) by done.
  change (reads buf ([] ++ fields_bits
    ((1, 1%nat) :: (Z.b2z p, 1%nat) ::
     [(1 - Z.b2z (s_is_first g), 1%nat); (1 - Z.b2z (s_is_last g), 1%nat)]
     ++ (if sn_field_length e =? 18 then [(0, 2%nat)] else [])
     ++ [(sn, Z.to_nat (sn_field_length e))]
     ++ (if negb (s_is_first g) then [(s_so g, 16%nat)] else [])))) in Hr.
  unfold compute_pdu_header_size in *.
  destruct Hl as [Hl|Hl]; rewrite Hl in *; destruct (s_is_first g), (s_is_last g), p;
    cbn [fields_bits fmap list_fmap concat app negb andb fst snd Z.b2z Z.sub Z.eqb Pos.eqb] in Hr.
  all: match type of Hr with reads _ ?x => change (reads buf ([] ++ x)) in Hr end; read_field Hr;
    eexists _, _; (split; [reflexivity|]); cbn beta; read_field_unchecked Hr;
    cbn [d_error dec_pos Z.eqb negb andb mbind option_bind]; join_bits Hr; read_field Hr.
  all: repeat match goal with |- context [Z.land ?a ?b =? 0] =>
         let v := eval vm_compute in (Z.land a b =? 0) in change (Z.land a b =? 0) with v end.
  all: cbn [Z.eqb Pos.eqb negb andb mbind option_bind Z.b2z].
  all: repeat (read_field Hr; cbn [negb andb mbind option_bind]).
  all: rewrite ?Hf1, ?Hf2 by done; (split; [reflexivity|]); (split; [reflexivity|]); exact Hdrop.
Qed.

(** An acknowledged mode PDU is a round trip: the PDU of a segment has
    the size computed beforehand, fits the buffer, and the receiver decodes
    from it the poll bit, the flags, the SN, the offset and the bytes of the
    segment. *)
Theorem am_pdu_roundtrip e er g segs s buf p :
  sn_field_length e = 12 \/ sn_field_length e = 18 -> sn_field_length er = sn_field_length e ->
  heap_wf segs (hp e) -> g ∈ segs -> h_sdus (hp e) !! s_sdu g = Some s ->
  0 <= sdu_sn s < 2 ^ sn_field_length e -> s_is_first g = (s_so g =? 0) ->
  compute_pdu_header_size e g + s_size g <= Z.of_nat (length buf) ->
  exists buf' n d h, serialize_sdu e g buf p = Ok (poll_included e p, buf', n) /\
    n = compute_pdu_header_size e g + s_size g /\ length buf' = length buf /\
    let pdu := take (Z.to_nat n) buf' in
    get_bits_R (nr_rlc_pdu_decoder_init pdu) 1 = Some (1, d) /\
    decode_data_header er d = (Z.b2z p, Some h) /\
    h = Mk_hdr (s_is_first g) (s_is_last g) (sdu_sn s) (s_so g) (compute_pdu_header_size e g) /\
    drop (Z.to_nat (h_byte h)) pdu = seg_bytes (hp e) g.
Proof.
  intros Hl El W Hg Hs Hsn Hf Hb.
  destruct (am_serialize_ok e g segs s buf p Hl W Hg Hs Hb) as (buf' & E & Hlen & Hp).
  destruct (hw_segs _ _ W g Hg) as (s' & Hs' & I). simplify_eq.
  pose proof (hw_refs _ _ W _ _ Hs) as (_ & _ & _ & _ & Hm & _). unfold seg_in_sdu in I.
  destruct (am_decode_pdu e er g (sdu_sn s) p _ _ Hp El Hl Hsn ltac:(lia) Hf) as (d & h & H1 & H2 & H3 & H4).
  exists buf', (compute_pdu_header_size e g + s_size g), d, h. split_and!; done.
Qed.

(** the middle segment of a SDU of five bytes, SN 7 *)
Definition am_tx_example : res (nr_rlc_entity_am_t * nr_rlc_sdu_segment_t) :=
  let* e := new_nr_rlc_entity_am 1000 1000 10 10 10 (-1) (-1) 4 12 in
  Ok (set_heap (Mk_heap {[ 1 := Mk_sdu 7 0 [1;2;3;4;5] 5 (-1) 1 0 0 ]} 3) e,
      Mk_seg 2 1 2 2 false false).

Lemma am_tx_example_wf :
  heap_wf [Mk_seg 2 1 2 2 false false] (Mk_heap {[ 1 := Mk_sdu 7 0 [1;2;3;4;5] 5 (-1) 1 0 0 ]} 3).
Proof.
  split; cbn.
  - intros a s [<- <-]%lookup_singleton_Some. vm_compute. repeat split; congruence.
  - intros g ->%list_elem_of_singleton. cbn. rewrite lookup_singleton_eq.
    eexists. split; [done|]. unfold seg_in_sdu; cbn. lia.
  - intros g ->%list_elem_of_singleton. done.
  - apply NoDup_singleton.
Qed.

Lemma am_pdu_roundtrip_witness :
  exists e g, am_tx_example = Ok (e, g) /\
  exists buf' n d h, serialize_sdu e g (replicate 8 0) true = Ok (poll_included e true, buf', n) /\
    n = 6 /\ length buf' = 8%nat /\
    get_bits_R (nr_rlc_pdu_decoder_init (take (Z.to_nat n) buf')) 1 = Some (1, d) /\
    decode_data_header e d = (1, Some h) /\ h = Mk_hdr false false 7 2 4 /\
    drop (Z.to_nat (h_byte h)) (take (Z.to_nat n) buf') = [3;4].
Proof.
  eexists _, _. split; [reflexivity|].
  match goal with |- context [serialize_sdu ?x ?y _ _] => set (e := x); set (g := y) end.
  destruct (am_pdu_roundtrip e e g [g] (Mk_sdu 7 0 [1;2;3;4;5] 5 (-1) 1 0 0) (replicate 8 0) true
    ltac:(left; reflexivity) eq_refl am_tx_example_wf ltac:(left) ltac:(reflexivity)
    ltac:(vm_compute; split; congruence) eq_refl ltac:(vm_compute; congruence))
    as (buf' & n & d & h & H1 & H2 & H3 & H4 & H5 & H6 & H7).
  exists buf', n, d, h. split_and!; assumption.
Defined.

(** cutting a segment for a grant of [n] bytes: the first part makes a PDU
    of exactly [n] bytes, the parts are contiguous, hold together the bytes
    of the segment and keep the flags of its ends, and the SDU has one more
    reference. *)
Theorem am_segmentation_exact e g rest s n :
  heap_wf (g :: rest) (hp e) -> h_sdus (hp e) !! s_sdu g = Some s ->
  compute_pdu_header_size e g + 1 <= n < compute_pdu_header_size e g + s_size g ->
  exists e' g1 g2, resegment g e n = Ok (e', g1, g2) /\
    compute_pdu_header_size e g1 + s_size g1 = n /\ 0 < s_size g2 /\
    s_so g1 = s_so g /\ s_so g2 = s_so g1 + s_size g1 /\
    s_is_first g1 = s_is_first g /\ s_is_last g1 = false /\
    s_is_first g2 = false /\ s_is_last g2 = s_is_last g /\
    seg_bytes (hp e') g1 ++ seg_bytes (hp e') g2 = seg_bytes (hp e) g /\
    heap_wf (g1 :: g2 :: rest) (hp e') /\
    h_sdus (hp e') !! s_sdu g = Some (s <| sdu_ref_count := sdu_ref_count s + 1 |>).
Proof.
  intros W Hs Hn. unfold resegment, get_sdu. rewrite Hs. cbn [of_option res_bind].
  destruct (hw_segs _ _ W g ltac:(left)) as (s' & Hs' & I). simplify_eq. unfold seg_in_sdu in I.
  pose proof (am_header_pos e g) as Hp.
  eexists _, _, _. split; [done|].
  change (compute_pdu_header_size e (g <| s_size := _ |> <| s_is_last := _ |>))
    with (compute_pdu_header_size e g).
  cbn -[compute_pdu_header_size]. set (c := compute_pdu_header_size e g) in *.
  split; [lia|]. split; [lia|]. do 6 (split; [done|]). split; [|split].
  - rewrite !seg_bytes_data. cbn -[compute_pdu_header_size].
    assert (sdu_data_of (hp e) g = sdu_data s) as Ed by (unfold sdu_data_of; by rewrite Hs).
    unfold sdu_data_of at 1 2. cbn. rewrite lookup_insert_eq. cbn. rewrite Ed.
    rewrite !Z2Nat.inj_add by lia. rewrite <- drop_drop, take_take_drop. f_equal. lia.
  - apply (split_segment_wf g _ _ rest (hp e) s W Hs); try done; unfold seg_in_sdu; cbn;
      split_and!; try lia; try done; try apply I.
    destruct I as (_ & _ & _ & _ & I). rewrite I. lia.
  - apply lookup_insert_eq.
Qed.

Lemma am_segmentation_exact_witness :
  exists e g, am_tx_example = Ok (e, g) /\
  exists e' g1 g2, resegment g e 5 = Ok (e', g1, g2) /\
    compute_pdu_header_size e g1 + s_size g1 = 5 /\ 0 < s_size g2 /\
    seg_bytes (hp e') g1 ++ seg_bytes (hp e') g2 = seg_bytes (hp e) g.
Proof.
  eexists _, _. split; [reflexivity|].
  match goal with |- context [resegment ?y ?x _] => set (e := x); set (g := y) end.
  destruct (am_segmentation_exact e g [] (Mk_sdu 7 0 [1;2;3;4;5] 5 (-1) 1 0 0) 5
    am_tx_example_wf ltac:(reflexivity) ltac:(vm_compute; split; congruence))
    as (e' & g1 & g2 & H1 & H2 & H3 & _ & _ & _ & _ & _ & _ & H4 & _).
  exists e', g1, g2. split_and!; assumption.
Defined.
