(* ===== verification/RlcApi.v ===== *)
(** * The RLC of all UEs (nr_rlc_ue_manager.c, nr_rlc_oai_api.c)

    The entities of a UE sit in its slots: SRB0, three SRBs, 32 DRBs; a table
    gives the radio bearer of a logical channel.  An operation runs on the
    entity in a slot, and the callbacks that the entity makes are then turned
    into calls of the upper layers, which are the trace of the RLC.  The C code
    finds the bearer of a callback by comparing the pointer of the entity with
    those in the slots, so here by its slot.

    A function of the interface locks the manager, looks the UE up, works on
    it and unlocks: [with_ue].  The lock itself, the clock [now] of the time
    averages and failing allocations are not modelled. *)
From S2P Require Import Prelude RlcSdu TimeStat RlcCommon HashTable F1apIds RlcConfig.
From S2P Require RlcTm RlcUm RlcAm.

Definition MAX_DRBS_PER_UE : Z := 32.
Definition RLC_TX_MAXSIZE : Z := 10000000.
Definition RLC_RX_MAXSIZE : Z := 10000000.

(** ** Entities: the dispatch through the function pointers of nr_rlc_entity.c *)

Inductive nr_rlc_entity :=
  | Tm (e : RlcTm.nr_rlc_entity_tm_t)
  | Um (e : RlcUm.nr_rlc_entity_um_t)
  | Am (e : RlcAm.nr_rlc_entity_am_t).

Definition rb_common (rb : nr_rlc_entity) : nr_rlc_entity_t :=
  match rb with Tm e => RlcTm.common e | Um e => RlcUm.common e | Am e => RlcAm.common e end.
Definition rb_on_common (f : nr_rlc_entity_t -> nr_rlc_entity_t) (rb : nr_rlc_entity) : nr_rlc_entity :=
  match rb with
  | Tm e => Tm (RlcTm.on_common f e) | Um e => Um (RlcUm.on_common f e) | Am e => Am (RlcAm.on_common f e)
  end.

Definition rb_recv_pdu (rb : nr_rlc_entity) (buffer : list Z) : res nr_rlc_entity :=
  match rb with
  | Tm e => Ok (Tm (RlcTm.nr_rlc_entity_tm_recv_pdu e buffer))
  | Um e => let* e := RlcUm.nr_rlc_entity_um_recv_pdu e buffer in Ok (Um e)
  | Am e => let* e := RlcAm.nr_rlc_entity_am_recv_pdu e buffer in Ok (Am e)
  end.
Definition rb_buffer_status (rb : nr_rlc_entity) (maxsize : Z) : res nr_rlc_entity_buffer_status_t :=
  match rb with
  | Tm e => Ok (RlcTm.nr_rlc_entity_tm_buffer_status e maxsize)
  | Um e => Ok (RlcUm.nr_rlc_entity_um_buffer_status e maxsize)
  | Am e => RlcAm.nr_rlc_entity_am_buffer_status e maxsize
  end.
(** with the bytes of the PDU; the rest of the caller's buffer is not touched *)
Definition rb_generate_pdu (now : Z) (rb : nr_rlc_entity) (size : Z) : res (nr_rlc_entity * list Z) :=
  let buffer := replicate (Z.to_nat size) 0 in
  let* '(rb, buffer, ret) :=
    match rb with
    | Tm e => let* '(e, b, n) := RlcTm.nr_rlc_entity_tm_generate_pdu now e buffer in Ok (Tm e, b, n)
    | Um e => let* '(e, b, n) := RlcUm.nr_rlc_entity_um_generate_pdu now e buffer in Ok (Um e, b, n)
    | Am e => let* '(e, b, n) := RlcAm.nr_rlc_entity_am_generate_pdu now e buffer in Ok (Am e, b, n)
    end in
  Ok (rb, take (Z.to_nat ret) buffer).
Definition rb_recv_sdu (now : Z) (rb : nr_rlc_entity) (buffer : list Z) (sdu_id : Z) : res nr_rlc_entity :=
  match rb with
  | Tm e => let* e := RlcTm.nr_rlc_entity_tm_recv_sdu now e buffer sdu_id in Ok (Tm e)
  | Um e => let* e := RlcUm.nr_rlc_entity_um_recv_sdu now e buffer sdu_id in Ok (Um e)
  | Am e => let* e := RlcAm.nr_rlc_entity_am_recv_sdu now e buffer sdu_id in Ok (Am e)
  end.
Definition rb_set_time (rb : nr_rlc_entity) (time : Z) : res nr_rlc_entity :=
  match rb with
  | Tm e => Ok (Tm (RlcTm.nr_rlc_entity_tm_set_time e time))
  | Um e => let* e := RlcUm.nr_rlc_entity_um_set_time e time in Ok (Um e)
  | Am e => let* e := RlcAm.nr_rlc_entity_am_set_time e time in Ok (Am e)
  end.
Definition rb_reestablishment (rb : nr_rlc_entity) : res nr_rlc_entity :=
  match rb with
  | Tm e => let* e := RlcTm.nr_rlc_entity_tm_reestablishment e in Ok (Tm e)
  | Um e => let* e := RlcUm.nr_rlc_entity_um_reestablishment e in Ok (Um e)
  | Am e => let* e := RlcAm.nr_rlc_entity_am_reestablishment e in Ok (Am e)
  end.
Definition rb_delete_entity (rb : nr_rlc_entity) : res unit :=
  match rb with
  | Tm e => let* _ := RlcTm.nr_rlc_entity_tm_delete e in Ok tt
  | Um e => let* _ := RlcUm.nr_rlc_entity_um_delete e in Ok tt
  | Am e => let* _ := RlcAm.nr_rlc_entity_am_delete e in Ok tt
  end.
Definition rb_available_tx_space (rb : nr_rlc_entity) : Z :=
  match rb with
  | Tm e => RlcTm.nr_rlc_entity_tm_available_tx_space e
  | Um e => RlcUm.nr_rlc_entity_um_available_tx_space e
  | Am e => RlcAm.nr_rlc_entity_am_available_tx_space e
  end.
(** the head-of-line segment *)
Definition rb_hol (rb : nr_rlc_entity) : option nr_rlc_sdu_segment_t :=
  match rb with
  | Tm e => head (RlcTm.tx_list e)
  | Um e => head (RlcUm.tx_list e)
  | Am e => match RlcAm.retransmit_list e with g :: _ => Some g | [] => head (RlcAm.tx_list e) end
  end.
Definition rb_get_stats (now : Z) (rb : nr_rlc_entity) : res (nr_rlc_entity * nr_rlc_statistics_t) :=
  let* '(c, out) := nr_rlc_entity_get_stats now (rb_hol rb) (rb_common rb) in
  Ok (rb_on_common (fun _ => c) rb, out).

(** ** UEs *)

Inductive nr_lcid_rb_t := NR_LCID_NONE | NR_LCID_SRB (srb_id : Z) | NR_LCID_DRB (drb_id : Z).

Record nr_rlc_ue_t := mk_rlc_ue {
  ue_id : Z;
  srb0 : option nr_rlc_entity;
  srb0_deliver : Z * bool;         (** [struct srb0_data]: the UE and whether there is a callback *)
  srb : list (option nr_rlc_entity);
  drb : list (option nr_rlc_entity);
  lcid2rb : list nr_lcid_rb_t;
  rlf_handler : bool }.
#[export] Instance eta_nr_rlc_ue_t : Eta nr_rlc_ue_t := fun u =>
  mk_rlc_ue (ue_id u) (srb0 u) (srb0_deliver u) (srb u) (drb u) (lcid2rb u) (rlf_handler u).

Inductive rb_slot := Slot_srb0 | Slot_srb (i : nat) | Slot_drb (i : nat).

Definition slot_get (ue : nr_rlc_ue_t) (sl : rb_slot) : res (option nr_rlc_entity) :=
  match sl with
  | Slot_srb0 => Ok (srb0 ue)
  | Slot_srb i => arr_get (srb ue) i
  | Slot_drb i => arr_get (drb ue) i
  end.
Definition slot_set (ue : nr_rlc_ue_t) (sl : rb_slot) (e : option nr_rlc_entity) : res nr_rlc_ue_t :=
  match sl with
  | Slot_srb0 => Ok (ue <| srb0 := e |>)
  | Slot_srb i => let* l := arr_set (srb ue) i e in Ok (ue <| srb := l |>)
  | Slot_drb i => let* l := arr_set (drb ue) i e in Ok (ue <| drb := l |>)
  end.

(** ** The manager *)

Inductive nr_rlc_op_mode_t := NR_RLC_OP_MODE_SPLIT_GNB | NR_RLC_OP_MODE_MONO_GNB | NR_RLC_OP_MODE_UE.
#[export] Instance nr_rlc_op_mode_t_eq_dec : EqDecision nr_rlc_op_mode_t.
Proof. solve_decision. Defined.

(** calls of the upper layers *)
Inductive rlc_event :=
  | Pdcp_data_ind (ue : Z) (enb_flag is_srb : bool) (rb_id : Z) (data : list Z)
  | F1ap_ul_rrc_message (cu_ue du_ue srb_id : Z) (data : list Z)
  | Gtpu_send (ue rb_id : Z) (data : list Z)
  | Send_initial_ul_rrc (ue : Z) (data : list Z)
  | Rlf (ue : Z).

Record nr_rlc_t := mk_rlc {
  rlc_manager : option nr_rlc_op_mode_t;   (** the manager with its mode *)
  ue_list : list nr_rlc_ue_t;
  nr_rlc_current_time : Z;
  inited : bool; inited_ue : bool;
  du2cu_ue_mapping : ue_mapping;
  rlc_trace : list rlc_event }.
#[export] Instance eta_nr_rlc_t : Eta nr_rlc_t := fun s =>
  mk_rlc (rlc_manager s) (ue_list s) (nr_rlc_current_time s) (inited s) (inited_ue s) (du2cu_ue_mapping s) (rlc_trace s).

Definition new_ue (id : Z) : nr_rlc_ue_t :=
  mk_rlc_ue id None (0, false) (replicate 3 None) (replicate (Z.to_nat MAX_DRBS_PER_UE) None)
    (replicate 32 NR_LCID_NONE) false.

Definition nr_rlc_manager_rlc_is_split (s : nr_rlc_t) : bool :=
  bool_decide (rlc_manager s = Some NR_RLC_OP_MODE_SPLIT_GNB).
Definition nr_rlc_manager_get_gnb_flag (s : nr_rlc_t) : bool :=
  bool_decide (rlc_manager s <> Some NR_RLC_OP_MODE_UE).

(** the position of the UE, which is made when it is not there *)
Definition nr_rlc_manager_get_ue (s : nr_rlc_t) (id : Z) : res (nr_rlc_t * nat * nr_rlc_ue_t) :=
  match rlc_manager s with
  | None => Err Null_deref
  | Some _ =>
    match list_find (fun u => ue_id u = id) (ue_list s) with
    | Some (i, u) => Ok (s, i, u)
    | None => Ok (s <| ue_list := ue_list s ++ [new_ue id] |>, length (ue_list s), new_ue id)
    end
  end.

(** the work [f] on a UE, with the calls of the upper layers it makes *)
Definition with_ue {B} (s : nr_rlc_t) (id : Z) (f : nr_rlc_ue_t -> res (nr_rlc_ue_t * list rlc_event * B))
  : res (nr_rlc_t * B) :=
  let* '(s, i, u) := nr_rlc_manager_get_ue s id in
  let* '(u, out, b) := f u in
  Ok (s <| ue_list := <[i := u]> (ue_list s) |> <| rlc_trace := rlc_trace s ++ out |>, b).

Definition with_ue_ (s : nr_rlc_t) (id : Z) (f : nr_rlc_ue_t -> res (nr_rlc_ue_t * list rlc_event * unit)) : res nr_rlc_t :=
  let* '(s, _) := with_ue s id f in Ok s.

Definition delete_opt (e : option nr_rlc_entity) : res unit :=
  match e with Some rb => rb_delete_entity rb | None => Ok tt end.

Definition nr_rlc_manager_remove_ue (s : nr_rlc_t) (id : Z) : res nr_rlc_t :=
  match rlc_manager s with
  | None => Err Null_deref
  | Some _ =>
    match list_find (fun u => ue_id u = id) (ue_list s) with
    | None => Ok s
    | Some (i, u) =>
      let* _ := delete_opt (srb0 u) in
      let* _ := fold_res (fun _ e => delete_opt e) (srb u) tt in
      let* _ := fold_res (fun _ e => delete_opt e) (drb u) tt in
      Ok (s <| ue_list := delete i (ue_list s) |>)
    end
  end.

Definition nr_rlc_ue_add_srb_rlc_entity (u : nr_rlc_ue_t) (srb_id : Z) (entity : nr_rlc_entity) : res nr_rlc_ue_t :=
  if (srb_id <? 0) || (3 <? srb_id) then Err Exit
  else if srb_id =? 0 then
    match srb0 u with Some _ => Err Exit | None => Ok (u <| srb0 := Some entity |>) end
  else
    let* e := arr_get (srb u) (Z.to_nat (srb_id - 1)) in
    match e with
    | Some _ => Err Exit
    | None => let* l := arr_set (srb u) (Z.to_nat (srb_id - 1)) (Some entity) in Ok (u <| srb := l |>)
    end.

Definition nr_rlc_ue_add_drb_rlc_entity (u : nr_rlc_ue_t) (drb_id : Z) (entity : nr_rlc_entity) : res nr_rlc_ue_t :=
  if (drb_id <? 1) || (MAX_DRBS_PER_UE <? drb_id) then Err Exit
  else
    let* e := arr_get (drb u) (Z.to_nat (drb_id - 1)) in
    match e with
    | Some _ => Err Exit
    | None => let* l := arr_set (drb u) (Z.to_nat (drb_id - 1)) (Some entity) in Ok (u <| drb := l |>)
    end.

Definition nr_rlc_module_init (s : nr_rlc_t) (mode : nr_rlc_op_mode_t) : res nr_rlc_t :=
  let gnb_flag := negb (bool_decide (mode = NR_RLC_OP_MODE_UE)) in
  if (gnb_flag && inited s) || (negb gnb_flag && inited_ue s) then Err Exit
  else Ok (s <| inited := inited s || gnb_flag |> <| inited_ue := inited_ue s || negb gnb_flag |>
             <| rlc_manager := Some mode |> <| ue_list := [] |>).

(** ** Callbacks *)

(** the radio bearer of an entity, found among the first [n] SRBs and the DRBs *)
Definition rb_of_slot (n : nat) (sl : rb_slot) : option (bool * Z) :=
  match sl with
  | Slot_srb0 => None
  | Slot_srb i => if Nat.ltb i n then Some (true, Z.of_nat i + 1) else None
  | Slot_drb i => Some (false, Z.of_nat i + 1)
  end.

Definition rlc_deliver_sdu (s : nr_rlc_t) (u : nr_rlc_ue_t) (sl : rb_slot) (buf : list Z) : res (list rlc_event) :=
  match rb_of_slot (length (srb u)) sl with
  | None => Err Exit
  | Some (is_srb, rb_id) =>
    let is_gnb := nr_rlc_manager_get_gnb_flag s in
    let* rntiMaybeUEid :=
      if is_gnb then let* d := get_f1_ue_data (du2cu_ue_mapping s) (ue_id u) in Ok (secondary_ue d)
      else Ok (ue_id u) in
    if is_gnb && nr_rlc_manager_rlc_is_split s then
      if is_srb then Ok [F1ap_ul_rrc_message rntiMaybeUEid (ue_id u) rb_id buf]
      else Ok [Gtpu_send (ue_id u) rb_id buf]
    else Ok [Pdcp_data_ind rntiMaybeUEid is_gnb is_srb rb_id buf]
  end.

(** the first two SRBs only *)
Definition rlc_successful_delivery (sl : rb_slot) : res (list rlc_event) :=
  match rb_of_slot 2 sl with None => Err Exit | Some _ => Ok [] end.

Definition rlc_max_retx_reached (u : nr_rlc_ue_t) (sl : rb_slot) : res (list rlc_event) :=
  match rb_of_slot 2 sl with
  | None => Err Exit
  | Some _ => Ok (if rlf_handler u then [Rlf (ue_id u)] else [])
  end.

Definition deliver_sdu_srb0 (u : nr_rlc_ue_t) (buf : list Z) : res (list rlc_event) :=
  let '(id, send_initial_ul_rrc_message) := srb0_deliver u in
  if send_initial_ul_rrc_message : bool then Ok [Send_initial_ul_rrc id buf] else Err Null_deref.

(** the callbacks of TM and UM entities other than the delivery are not set,
    and these entities do not make them *)
Definition callback (s : nr_rlc_t) (u : nr_rlc_ue_t) (sl : rb_slot) (ev : event) : res (list rlc_event) :=
  match sl, ev with
  | Slot_srb0, deliver_sdu buf => deliver_sdu_srb0 u buf
  | _, deliver_sdu buf => rlc_deliver_sdu s u sl buf
  | _, sdu_successful_delivery _ => rlc_successful_delivery sl
  | _, max_retx_reached => rlc_max_retx_reached u sl
  end.

(** the operation [f] on the entity [rb] in the slot [sl] of the UE *)
Definition run_rb {B} (s : nr_rlc_t) (u : nr_rlc_ue_t) (sl : rb_slot) (rb : nr_rlc_entity)
    (f : nr_rlc_entity -> res (nr_rlc_entity * B)) : res (nr_rlc_ue_t * list rlc_event * B) :=
  let* '(rb, b) := f (rb_on_common (fun c => c <| trace := [] |>) rb) in
  let* out := fold_res (fun out ev => let* l := callback s u sl ev in Ok (out ++ l)) (trace (rb_common rb)) [] in
  let* u := slot_set u sl (Some (rb_on_common (fun c => c <| trace := [] |>) rb)) in
  Ok (u, out, b).

Definition run_rb_ (s : nr_rlc_t) (u : nr_rlc_ue_t) (sl : rb_slot) (rb : nr_rlc_entity)
    (f : nr_rlc_entity -> res nr_rlc_entity) : res (nr_rlc_ue_t * list rlc_event * unit) :=
  run_rb s u sl rb (fun rb => let* rb := f rb in Ok (rb, tt)).

(** ** The slot of a logical channel *)

Definition slot_of_rb (rb : nr_lcid_rb_t) : res (option rb_slot) :=
  match rb with
  | NR_LCID_NONE => Ok None
  | NR_LCID_SRB srb_id =>
    if negb (0 <? srb_id) then Err Exit else Ok (Some (Slot_srb (Z.to_nat (srb_id - 1))))
  | NR_LCID_DRB drb_id =>
    if drb_id <? 1 then Err Out_of_bounds else Ok (Some (Slot_drb (Z.to_nat (drb_id - 1))))
  end.

Definition rlc_lcid2rb (u : nr_rlc_ue_t) (channel_id : Z) : res nr_lcid_rb_t :=
  if channel_id <? 1 then Err Out_of_bounds else arr_get (lcid2rb u) (Z.to_nat (channel_id - 1)).

(** the entity in a slot, with the slot *)
Definition slot_entity (u : nr_rlc_ue_t) (sl : option rb_slot) : res (option (rb_slot * nr_rlc_entity)) :=
  match sl with
  | None => Ok None
  | Some sl => let* e := slot_get u sl in Ok (match e with Some rb => Some (sl, rb) | None => None end)
  end.

Definition get_rlc_entity_from_lcid (u : nr_rlc_ue_t) (channel_id : Z) : res (option (rb_slot * nr_rlc_entity)) :=
  let* sl :=
    if channel_id =? 0 then Ok (Some Slot_srb0)
    else let* rb := rlc_lcid2rb u channel_id in slot_of_rb rb in
  slot_entity u sl.

Definition release_rlc_entity_from_lcid (u : nr_rlc_ue_t) (channel_id : Z) : res nr_rlc_ue_t :=
  if channel_id =? 0 then Err Exit else
  let* rb := rlc_lcid2rb u channel_id in
  let* sl := slot_of_rb rb in
  match sl with
  | None => Ok u
  | Some sl =>
    let* e := slot_get u sl in
    match e with
    | Some rb => let* _ := rb_delete_entity rb in slot_set u sl None
    | None => Ok u
    end
  end.

(** the first logical channel of a radio bearer, or 0 *)
Definition is_rb (is_srb : bool) (rb_id : Z) (rb : nr_lcid_rb_t) : bool :=
  match rb with
  | NR_LCID_SRB id => is_srb && (id =? rb_id)
  | NR_LCID_DRB id => negb is_srb && (id =? rb_id)
  | NR_LCID_NONE => false
  end.
Definition nr_rlc_get_lcid_from_rb (s : nr_rlc_t) (ue_id : Z) (is_srb : bool) (rb_id : Z) : res (nr_rlc_t * Z) :=
  with_ue s ue_id (fun u =>
    Ok (u, [], match list_find (fun rb => is_rb is_srb rb_id rb = true) (lcid2rb u) with
               | Some (i, _) => Z.of_nat i + 1 | None => 0 end)).

Definition nr_rlc_release_entity (s : nr_rlc_t) (ue_id channel_id : Z) : res nr_rlc_t :=
  with_ue_ s ue_id (fun u =>
    if channel_id =? 0 then
      match srb0 u with
      | Some rb => let* _ := rb_delete_entity rb in Ok (u <| srb0 := None |>, [], tt)
      | None => Ok (u, [], tt)
      end
    else let* u := release_rlc_entity_from_lcid u channel_id in Ok (u, [], tt)).

(** ** Data *)

Section Data.
Context (now : Z).   (** [time_average_now()] *)

Definition nr_mac_rlc_data_ind (s : nr_rlc_t) (ue_id channel_id : Z) (buffer : list Z) : res nr_rlc_t :=
  with_ue_ s ue_id (fun u =>
    let* rb := get_rlc_entity_from_lcid u channel_id in
    match rb with
    | Some (sl, rb) =>
      run_rb_ s u sl rb (fun rb =>
        let* rb := rb_set_time rb (nr_rlc_current_time s) in rb_recv_pdu rb buffer)
    | None => Ok (u, [], tt)
    end).

(** the PDU, empty for a return value of 0 *)
Definition nr_mac_rlc_data_req (s : nr_rlc_t) (ue_id channel_id tb_size : Z) : res (nr_rlc_t * list Z) :=
  with_ue s ue_id (fun u =>
    let* rb := get_rlc_entity_from_lcid u channel_id in
    match rb with
    | Some (sl, rb) =>
      run_rb s u sl rb (fun rb =>
        let* rb := rb_set_time rb (nr_rlc_current_time s) in rb_generate_pdu now rb tb_size)
    | None => Ok (u, [], [])
    end).

(** [bytes_in_buffer] *)
Definition nr_mac_rlc_status_ind (s : nr_rlc_t) (ue_id channel_id : Z) : res (nr_rlc_t * Z) :=
  with_ue s ue_id (fun u =>
    let* rb := get_rlc_entity_from_lcid u channel_id in
    match rb with
    | Some (sl, rb) =>
      run_rb s u sl rb (fun rb =>
        let* rb := rb_set_time rb (nr_rlc_current_time s) in
        let* b := rb_buffer_status rb (1000 * 1000) in
        Ok (rb, bs_status_size b + bs_retx_size b + bs_tx_size b))
    | None => Ok (u, [], 0)
    end).

(** the slot of a radio bearer, for SRBs and DRBs up to the given ones *)
Definition rb_id_slot (max_srb max_drb : Z) (srb_flag : bool) (rb_id : Z) : option rb_slot :=
  if srb_flag then if (1 <=? rb_id) && (rb_id <=? max_srb) then Some (Slot_srb (Z.to_nat (rb_id - 1))) else None
  else if (1 <=? rb_id) && (rb_id <=? max_drb) then Some (Slot_drb (Z.to_nat (rb_id - 1))) else None.

Definition nr_rlc_data_req (s : nr_rlc_t) (ue_id : Z) (srb_flag : bool) (rb_id mui : Z) (sdu : list Z) : res nr_rlc_t :=
  with_ue_ s ue_id (fun u =>
    let* rb := slot_entity u (rb_id_slot 2 MAX_DRBS_PER_UE srb_flag rb_id) in
    match rb with
    | Some (sl, rb) =>
      run_rb_ s u sl rb (fun rb =>
        let* rb := rb_set_time rb (nr_rlc_current_time s) in rb_recv_sdu now rb sdu mui)
    | None => Ok (u, [], tt)
    end).

Definition nr_rlc_get_available_tx_space (s : nr_rlc_t) (ue_id channel_id : Z) : res (nr_rlc_t * Z) :=
  with_ue s ue_id (fun u =>
    let* rb := get_rlc_entity_from_lcid u channel_id in
    Ok (u, [], match rb with Some (_, rb) => rb_available_tx_space rb | None => -1 end)).

Definition nr_rlc_srb_recv_sdu (s : nr_rlc_t) (ue_id channel_id : Z) (buf : list Z) : res nr_rlc_t :=
  with_ue_ s ue_id (fun u =>
    let* rb := slot_entity u (Some (if channel_id =? 0 then Slot_srb0 else Slot_srb (Z.to_nat (channel_id - 1)))) in
    match rb with
    | Some (sl, rb) =>
      run_rb_ s u sl rb (fun rb =>
        let* rb := rb_set_time rb (nr_rlc_current_time s) in rb_recv_sdu now rb buf (-1))
    | None => Err Exit
    end).

Definition nr_rlc_ms_tick (s : nr_rlc_t) : nr_rlc_t :=
  s <| nr_rlc_current_time := u64 (nr_rlc_current_time s + 1) |>.

(** ** Statistics *)

Definition nr_rlc_activate_avg_time_to_tx (s : nr_rlc_t) (ue_id channel_id : Z) (is_on : bool) : res nr_rlc_t :=
  with_ue_ s ue_id (fun u =>
    let* rb := slot_entity u
      (if (1 <=? channel_id) && (channel_id <=? 3) then Some (Slot_srb (Z.to_nat (channel_id - 1)))
       else if (4 <=? channel_id) && (channel_id <=? 8) then Some (Slot_drb (Z.to_nat (channel_id - 4)))
       else None) in
    match rb with
    | Some (sl, rb) =>
      let rb := rb_on_common (fun c => c <| avg_time_is_on := is_on |>
        <| txsdu_avg_time_to_tx := time_average_reset (txsdu_avg_time_to_tx c) |>) rb in
      let* u := slot_set u sl (Some rb) in Ok (u, [], tt)
    | None => Ok (u, [], tt)
    end).

(** the statistics with [rxbuf_occ_bytes] and [txbuf_occ_bytes], or [None] for
    the return value [false] *)
Definition nr_rlc_get_statistics (s : nr_rlc_t) (ue_id : Z) (srb_flag : bool) (rb_id : Z)
  : res (nr_rlc_t * option (nr_rlc_statistics_t * Z * Z)) :=
  with_ue s ue_id (fun u =>
    let* rb := slot_entity u (rb_id_slot 2 5 srb_flag rb_id) in
    match rb with
    | Some (sl, rb) =>
      run_rb s u sl rb (fun rb =>
        let* '(rb, out) := rb_get_stats now rb in
        let* b := rb_buffer_status rb (1000 * 1000) in
        Ok (rb, Some (out, bs_status_size b, bs_tx_size b + bs_retx_size b)))
    | None => Ok (u, [], None)
    end).
End Data.

(** ** Configuration *)

Record am_params := mk_am_params {
  ap_t_poll_retransmit : Z; ap_t_reassembly : Z; ap_t_status_prohibit : Z; ap_poll_pdu : Z; ap_poll_byte : Z;
  ap_max_retx_threshold : Z; ap_sn_field_length : Z }.

(** the values of a new AM entity *)
Definition am_config (am : NR_RLC_am) : res am_params :=
  let* t_reassembly := decode_t_reassembly (dl_t_Reassembly am) in
  let* t_status_prohibit := decode_t_status_prohibit (dl_t_StatusProhibit am) in
  let* t_poll_retransmit := decode_t_poll_retransmit (ul_t_PollRetransmit am) in
  let* poll_pdu := decode_poll_pdu (ul_pollPDU am) in
  let* poll_byte := decode_poll_byte (ul_pollByte am) in
  let* max_retx_threshold := decode_max_retx_threshold (ul_maxRetxThreshold am) in
  match dl_am_sn_FieldLength am, ul_am_sn_FieldLength am with
  | Some dl, Some ul =>
    if negb (dl =? ul) then Err Exit else
    let* sn_field_length := decode_sn_field_length_am dl in
    Ok (mk_am_params t_poll_retransmit t_reassembly t_status_prohibit poll_pdu poll_byte max_retx_threshold sn_field_length)
  | _, _ => Err Null_deref
  end.

(** the values of 9.2.1 of 38.331 for an SRB *)
Definition am_default : am_params := mk_am_params 45 35 0 (-1) (-1) 8 12.

Definition new_am (p : am_params) : res nr_rlc_entity :=
  let* e := RlcAm.new_nr_rlc_entity_am RLC_RX_MAXSIZE RLC_TX_MAXSIZE (ap_t_poll_retransmit p) (ap_t_reassembly p)
    (ap_t_status_prohibit p) (ap_poll_pdu p) (ap_poll_byte p) (ap_max_retx_threshold p) (ap_sn_field_length p) in
  Ok (Am e).

Definition set_lcid2rb (u : nr_rlc_ue_t) (lcid : Z) (rb : nr_lcid_rb_t) : res nr_rlc_ue_t :=
  if lcid <? 1 then Err Out_of_bounds else
  let* l := arr_set (lcid2rb u) (Z.to_nat (lcid - 1)) rb in Ok (u <| lcid2rb := l |>).

Definition nr_rlc_add_srb (s : nr_rlc_t) (ue_id srb_id : Z) (c : NR_RLC_BearerConfig_t) : res nr_rlc_t :=
  if negb ((0 <? srb_id) && (srb_id <? 4)) then Err Exit else
  let* p := match rlc_Config c with Some (RLC_Config_am am) => am_config am | _ => Ok am_default end in
  with_ue_ s ue_id (fun u =>
    match servedRadioBearer c with
    | Some (srb_Identity id) =>
      let* u := set_lcid2rb u (logicalChannelIdentity c) (NR_LCID_SRB id) in
      let* e := arr_get (srb u) (Z.to_nat (srb_id - 1)) in
      match e with
      | Some _ => Ok (u, [], tt)
      | None =>
        let* e := new_am p in
        let* u := nr_rlc_ue_add_srb_rlc_entity u srb_id e in
        Ok (u, [], tt)
      end
    | _ => Err Exit
    end).

(** the common part of the two functions for DRBs *)
Definition add_drb_entity (s : nr_rlc_t) (ue_id drb_id : Z) (c : NR_RLC_BearerConfig_t) (new : res nr_rlc_entity)
  : res nr_rlc_t :=
  with_ue_ s ue_id (fun u =>
    match servedRadioBearer c with
    | Some (drb_Identity id) =>
      let* u := set_lcid2rb u (logicalChannelIdentity c) (NR_LCID_DRB id) in
      let* e := arr_get (drb u) (Z.to_nat (drb_id - 1)) in
      match e with
      | Some _ => Ok (u, [], tt)
      | None =>
        let* e := new in
        let* u := nr_rlc_ue_add_drb_rlc_entity u drb_id e in
        Ok (u, [], tt)
      end
    | _ => Err Exit
    end).

Definition add_drb_am (s : nr_rlc_t) (ue_id drb_id : Z) (c : NR_RLC_BearerConfig_t) : res nr_rlc_t :=
  if negb ((0 <? drb_id) && (drb_id <=? MAX_DRBS_PER_UE)) then Err Exit else
  match rlc_Config c with
  | Some (RLC_Config_am am) =>
    let* p := am_config am in
    add_drb_entity s ue_id drb_id c (new_am p)
  | Some _ => Err Exit
  | None => Err Null_deref
  end.

Definition add_drb_um (s : nr_rlc_t) (ue_id drb_id : Z) (c : NR_RLC_BearerConfig_t) : res nr_rlc_t :=
  if negb ((0 <? drb_id) && (drb_id <=? MAX_DRBS_PER_UE)) then Err Exit else
  match rlc_Config c with
  | Some (RLC_Config_um_Bi um) =>
    let* t_reassembly := decode_t_reassembly (um_t_Reassembly um) in
    match dl_um_sn_FieldLength um, ul_um_sn_FieldLength um with
    | Some dl, Some ul =>
      if negb (dl =? ul) then Err Exit else
      let* sn_field_length := decode_sn_field_length_um dl in
      add_drb_entity s ue_id drb_id c
        (let* e := RlcUm.new_nr_rlc_entity_um RLC_RX_MAXSIZE RLC_TX_MAXSIZE t_reassembly sn_field_length in Ok (Um e))
    | _, _ => Err Null_deref
    end
  | Some _ => Err Exit
  | None => Err Null_deref
  end.

Definition nr_rlc_add_drb (s : nr_rlc_t) (ue_id drb_id : Z) (c : NR_RLC_BearerConfig_t) : res nr_rlc_t :=
  match rlc_Config c with
  | Some (RLC_Config_am _) => add_drb_am s ue_id drb_id c
  | Some (RLC_Config_um_Bi _) => add_drb_um s ue_id drb_id c
  | Some RLC_Config_other => Err Exit
  | None => Err Null_deref
  end.

(** with whether SRB0 was made *)
Definition nr_rlc_activate_srb0 (s : nr_rlc_t) (ue_id : Z) (send_initial_ul_rrc_message : bool) : res (nr_rlc_t * bool) :=
  with_ue s ue_id (fun u =>
    match srb0 u with
    | Some _ => Ok (u, [], false)
    | None =>
      let* e := RlcTm.new_nr_rlc_entity_tm 10000 in
      let* u := nr_rlc_ue_add_srb_rlc_entity (u <| srb0_deliver := (ue_id, send_initial_ul_rrc_message) |>) 0 (Tm e) in
      Ok (u, [], true)
    end).

(** the optional SN length of a reconfiguration *)
Definition reconf_sn (decode : Z -> res Z) (dl ul : option Z) : res (option Z) :=
  match dl, ul with
  | Some dl, Some ul => if negb (dl =? ul) then Err Exit else let* n := decode dl in Ok (Some n)
  | None, None => Ok None
  | _, _ => Err Exit
  end.

Definition reconfigure_rb (rb : nr_rlc_entity) (c : option NR_RLC_Config_t) : res nr_rlc_entity :=
  match c, rb with
  | Some _, Tm _ => Err Exit
  | Some (RLC_Config_am am), Am e =>
    let* t_reassembly := decode_t_reassembly (dl_t_Reassembly am) in
    let* t_status_prohibit := decode_t_status_prohibit (dl_t_StatusProhibit am) in
    let* t_poll_retransmit := decode_t_poll_retransmit (ul_t_PollRetransmit am) in
    let* poll_pdu := decode_poll_pdu (ul_pollPDU am) in
    let* poll_byte := decode_poll_byte (ul_pollByte am) in
    let* max_retx_threshold := decode_max_retx_threshold (ul_maxRetxThreshold am) in
    let* sn := reconf_sn decode_sn_field_length_am (dl_am_sn_FieldLength am) (ul_am_sn_FieldLength am) in
    Ok (Am (RlcAm.nr_rlc_entity_am_reconfigure e t_poll_retransmit t_reassembly t_status_prohibit poll_pdu poll_byte
              max_retx_threshold sn))
  | Some (RLC_Config_um_Bi um), Um e =>
    let* t_reassembly := decode_t_reassembly (um_t_Reassembly um) in
    let* sn := reconf_sn decode_sn_field_length_um (dl_um_sn_FieldLength um) (ul_um_sn_FieldLength um) in
    Ok (Um (RlcUm.nr_rlc_entity_um_reconfigure e t_reassembly sn))
  | Some _, _ => Err Exit
  | None, Am e => Ok (Am (RlcAm.nr_rlc_entity_am_reconfigure e 45 35 0 (-1) (-1) 8 (Some 12)))
  | None, _ => Err Exit
  end.

Definition nr_rlc_reconfigure_entity (s : nr_rlc_t) (ue_id lc_id : Z) (c : option NR_RLC_Config_t) : res nr_rlc_t :=
  with_ue_ s ue_id (fun u =>
    let* rb := get_rlc_entity_from_lcid u lc_id in
    match rb with
    | None => Err Null_deref
    | Some (sl, rb) =>
      let* rb := reconfigure_rb rb c in
      let* u := slot_set u sl (Some rb) in Ok (u, [], tt)
    end).

Definition nr_rlc_reestablish_entity (s : nr_rlc_t) (ue_id lc_id : Z) : res nr_rlc_t :=
  with_ue_ s ue_id (fun u =>
    let* rb := get_rlc_entity_from_lcid u lc_id in
    match rb with
    | Some (sl, rb) => run_rb_ s u sl rb rb_reestablishment
    | None => Ok (u, [], tt)
    end).

Definition nr_rlc_set_rlf_handler (s : nr_rlc_t) (ue_id : Z) (rlf_h : bool) : res nr_rlc_t :=
  with_ue_ s ue_id (fun u => Ok (u <| rlf_handler := rlf_h |>, [], tt)).

Definition nr_rlc_remove_ue := nr_rlc_manager_remove_ue.

(** the entity in a slot is re-established if there is one *)
Definition reestablish_slot (s : nr_rlc_t) (u : nr_rlc_ue_t) (sl : rb_slot) : res (nr_rlc_ue_t * list rlc_event * unit) :=
  let* rb := slot_entity u (Some sl) in
  match rb with Some (sl, rb) => run_rb_ s u sl rb rb_reestablishment | None => Ok (u, [], tt) end.

Definition nr_rlc_update_id (s : nr_rlc_t) (from_id to_id : Z) : res (nr_rlc_t * bool) :=
  with_ue s from_id (fun u =>
    let* '(u, out, _) := reestablish_slot s (u <| ue_id := to_id |>) (Slot_srb 0) in
    Ok (u, out, true)).

Definition nr_rlc_test_trigger_reestablishment (s : nr_rlc_t) (ue_id : Z) : res nr_rlc_t :=
  with_ue_ s ue_id (fun u =>
    let* ent := slot_entity u (Some (Slot_srb 0)) in
    match ent with
    | None => Err Null_deref
    | Some (sl, rb) =>
      let* '(u, out, _) := run_rb_ s u sl rb rb_reestablishment in
      let* '(u, out', _) := reestablish_slot s u (Slot_drb 0) in
      Ok (u, out ++ out', tt)
    end).
