(* ===== verification/RlcApiSpec.v ===== *)
(** * The RLC of all UEs: types, isolation, and SRB3

    The calls of the interface as one step function; whatever the calls, the
    slots hold entities of the right kind and every channel leads to a slot;
    what one group of UEs sees does not depend on the calls for the others;
    and the exit on the first acknowledged SDU of SRB3. *)
From S2P Require Import Prelude RlcSdu TimeStat RlcCommon HashTable F1apIds RlcConfig RlcApi.
From S2P Require RlcTm RlcUm RlcAm.

(** ** The calls *)

Inductive api_op :=
  | Mac_data_ind (ue ch : Z) (buf : list Z)
  | Mac_data_req (now ue ch size : Z)
  | Mac_status_ind (ue ch : Z)
  | Data_req (now ue : Z) (srb_flag : bool) (rb_id mui : Z) (sdu : list Z)
  | Tx_space (ue ch : Z)
  | Srb_recv_sdu (now ue ch : Z) (buf : list Z)
  | Avg_time (ue ch : Z) (is_on : bool)
  | Statistics (now ue : Z) (srb_flag : bool) (rb_id : Z)
  | Lcid_from_rb (ue : Z) (is_srb : bool) (rb_id : Z)
  | Release_entity (ue ch : Z)
  | Add_srb (ue srb_id : Z) (c : NR_RLC_BearerConfig_t)
  | Add_drb (ue drb_id : Z) (c : NR_RLC_BearerConfig_t)
  | Activate_srb0 (ue : Z) (send_initial_ul_rrc_message : bool)
  | Reconfigure (ue ch : Z) (c : option NR_RLC_Config_t)
  | Reestablish (ue ch : Z)
  | Set_rlf_handler (ue : Z) (h : bool)
  | Remove_ue (ue : Z)
  | Update_id (from_id to_id : Z)
  | Test_trigger (ue : Z)
  | Ms_tick.

Inductive api_out :=
  | Out_none | Out_int (n : Z) | Out_bytes (l : list Z) | Out_bool (b : bool)
  | Out_stats (o : option (nr_rlc_statistics_t * Z * Z)).

Definition res_map {A B} (f : A -> B) (m : res (nr_rlc_t * A)) : res (nr_rlc_t * B) :=
  let* '(s, a) := m in Ok (s, f a).
Definition res_none (m : res nr_rlc_t) : res (nr_rlc_t * api_out) := let* s := m in Ok (s, Out_none).

Definition api_call (s : nr_rlc_t) (op : api_op) : res (nr_rlc_t * api_out) :=
  match op with
  | Mac_data_ind ue ch buf => res_none (nr_mac_rlc_data_ind s ue ch buf)
  | Mac_data_req now ue ch size => res_map Out_bytes (nr_mac_rlc_data_req now s ue ch size)
  | Mac_status_ind ue ch => res_map Out_int (nr_mac_rlc_status_ind s ue ch)
  | Data_req now ue srb_flag rb_id mui sdu => res_none (nr_rlc_data_req now s ue srb_flag rb_id mui sdu)
  | Tx_space ue ch => res_map Out_int (nr_rlc_get_available_tx_space s ue ch)
  | Srb_recv_sdu now ue ch buf => res_none (nr_rlc_srb_recv_sdu now s ue ch buf)
  | Avg_time ue ch is_on => res_none (nr_rlc_activate_avg_time_to_tx s ue ch is_on)
  | Statistics now ue srb_flag rb_id => res_map Out_stats (nr_rlc_get_statistics now s ue srb_flag rb_id)
  | Lcid_from_rb ue is_srb rb_id => res_map Out_int (nr_rlc_get_lcid_from_rb s ue is_srb rb_id)
  | Release_entity ue ch => res_none (nr_rlc_release_entity s ue ch)
  | Add_srb ue srb_id c => res_none (nr_rlc_add_srb s ue srb_id c)
  | Add_drb ue drb_id c => res_none (nr_rlc_add_drb s ue drb_id c)
  | Activate_srb0 ue cb => res_map Out_bool (nr_rlc_activate_srb0 s ue cb)
  | Reconfigure ue ch c => res_none (nr_rlc_reconfigure_entity s ue ch c)
  | Reestablish ue ch => res_none (nr_rlc_reestablish_entity s ue ch)
  | Set_rlf_handler ue h => res_none (nr_rlc_set_rlf_handler s ue h)
  | Remove_ue ue => res_none (nr_rlc_remove_ue s ue)
  | Update_id from_id to_id => res_map Out_bool (nr_rlc_update_id s from_id to_id)
  | Test_trigger ue => res_none (nr_rlc_test_trigger_reestablishment s ue)
  | Ms_tick => Ok (nr_rlc_ms_tick s, Out_none)
  end.

(** a call with the calls of the upper layers that it makes *)
Definition api_step (s : nr_rlc_t) (op : api_op) : res (nr_rlc_t * (list rlc_event * api_out)) :=
  let* '(s, o) := api_call (s <| rlc_trace := [] |>) op in
  Ok (s <| rlc_trace := [] |>, (rlc_trace s, o)).

Fixpoint api_run (s : nr_rlc_t) (ops : list api_op) : res (nr_rlc_t * list (api_op * (list rlc_event * api_out))) :=
  match ops with
  | [] => Ok (s, [])
  | op :: ops =>
    let* '(s, x) := api_step s op in
    let* '(s, l) := api_run s ops in
    Ok (s, (op, x) :: l)
  end.

(** a manager without UEs *)
Definition rlc_start (mode : nr_rlc_op_mode_t) (m : ue_mapping) : nr_rlc_t := mk_rlc (Some mode) [] 0 true true m [].

(** the UEs that a call names *)
Definition op_ues (op : api_op) : list Z :=
  match op with
  | Mac_data_ind ue _ _ | Mac_data_req _ ue _ _ | Mac_status_ind ue _ | Data_req _ ue _ _ _ _ | Tx_space ue _
  | Srb_recv_sdu _ ue _ _ | Avg_time ue _ _ | Statistics _ ue _ _ | Lcid_from_rb ue _ _ | Release_entity ue _
  | Add_srb ue _ _ | Add_drb ue _ _ | Activate_srb0 ue _ | Reconfigure ue _ _ | Reestablish ue _
  | Set_rlf_handler ue _ | Remove_ue ue | Test_trigger ue => [ue]
  | Update_id a b => [a; b]
  | Ms_tick => []
  end.

(** ** Types *)

Inductive rb_kind := Kind_tm | Kind_um | Kind_am.
Definition kind_of (rb : nr_rlc_entity) : rb_kind :=
  match rb with Tm _ => Kind_tm | Um _ => Kind_um | Am _ => Kind_am end.

Definition kind_ok (sl : rb_slot) (rb : nr_rlc_entity) : Prop :=
  match sl with
  | Slot_srb0 => kind_of rb = Kind_tm
  | Slot_srb _ => kind_of rb = Kind_am
  | Slot_drb _ => kind_of rb <> Kind_tm
  end.

Definition lcid_ok (rb : nr_lcid_rb_t) : Prop :=
  match rb with NR_LCID_NONE => True | NR_LCID_SRB id => 1 <= id <= 3 | NR_LCID_DRB id => 1 <= id <= 32 end.

Record ue_typed (u : nr_rlc_ue_t) : Prop := mk_ue_typed {
  ut_srb : length (srb u) = 3%nat;
  ut_drb : length (drb u) = 32%nat;
  ut_lcid : length (lcid2rb u) = 32%nat;
  ut_kind sl rb : slot_get u sl = Ok (Some rb) -> kind_ok sl rb;
  ut_rb : Forall lcid_ok (lcid2rb u) }.

(** the ranges of SRB-Identity and DRB-Identity in 38.331 *)
Definition bearer_ok (c : NR_RLC_BearerConfig_t) : Prop :=
  match servedRadioBearer c with
  | Some (srb_Identity id) => 1 <= id <= 3
  | Some (drb_Identity id) => 1 <= id <= 32
  | None => True
  end.

Definition op_typed (op : api_op) : Prop :=
  match op with Add_srb _ _ c | Add_drb _ _ c => bearer_ok c | _ => True end.

(** the work on a UE keeps its number and its types *)
Definition ue_fun {B} (f : nr_rlc_ue_t -> res (nr_rlc_ue_t * list rlc_event * B)) : Prop :=
  forall u u' out b, f u = Ok (u', out, b) -> ue_id u' = ue_id u /\ (ue_typed u -> ue_typed u').

Lemma slot_get_set u sl e u' : slot_set u sl e = Ok u' ->
  ue_id u' = ue_id u /\ lcid2rb u' = lcid2rb u /\ length (srb u') = length (srb u) /\ length (drb u') = length (drb u) /\
  (forall sl', slot_get u' sl' = slot_get u sl' \/ (sl' = sl /\ slot_get u' sl' = Ok e)).
Proof.
  destruct sl as [|i|i]; cbn; unfold arr_set.
  - intros [= <-]. split_and!; try done. intros [|j|j]; cbn; auto.
  - destruct (Nat.ltb_spec i (length (srb u))); [|done]. intros [= <-]. cbn. rewrite length_insert. split_and!; try done.
    intros [|j|j]; cbn; [by left| |by left]. unfold arr_get. destruct (decide (j = i)) as [->|].
    + right. by rewrite list_lookup_insert_eq.
    + left. by rewrite list_lookup_insert_ne.
  - destruct (Nat.ltb_spec i (length (drb u))); [|done]. intros [= <-]. cbn. rewrite length_insert. split_and!; try done.
    intros [|j|j]; cbn; [by left|by left|]. unfold arr_get. destruct (decide (j = i)) as [->|].
    + right. by rewrite list_lookup_insert_eq.
    + left. by rewrite list_lookup_insert_ne.
Qed.

Lemma slot_set_typed u sl e u' : slot_set u sl e = Ok u' -> (forall rb, e = Some rb -> kind_ok sl rb) ->
  ue_id u' = ue_id u /\ (ue_typed u -> ue_typed u').
Proof.
  intros (H1 & H2 & H3 & H4 & H5)%slot_get_set Hk. split; [done|]. intros [T1 T2 T3 T4 T5].
  split; rewrite ?H2, ?H3, ?H4; try done. intros sl' rb Hsl.
  destruct (H5 sl') as [E|[-> E]]; rewrite E in Hsl; [by apply T4|]. injection Hsl as Hsl. by apply Hk.
Qed.

Lemma kind_ok_eq sl rb rb' : kind_of rb' = kind_of rb -> kind_ok sl rb -> kind_ok sl rb'.
Proof. unfold kind_ok. by intros ->. Qed.
Lemma kind_on_common f rb : kind_of (rb_on_common f rb) = kind_of rb.
Proof. by destruct rb. Qed.

(** operations of an entity keep its kind *)
Definition rb_fun {B} (f : nr_rlc_entity -> res (nr_rlc_entity * B)) : Prop :=
  forall rb rb' b, f rb = Ok (rb', b) -> kind_of rb' = kind_of rb.

Lemma run_rb_typed {B} s u sl rb (f : nr_rlc_entity -> res (nr_rlc_entity * B)) u' out b : rb_fun f ->
  slot_get u sl = Ok (Some rb) -> run_rb s u sl rb f = Ok (u', out, b) ->
  ue_id u' = ue_id u /\ (ue_typed u -> ue_typed u').
Proof.
  intros Hf Hsl H. unfold run_rb in H.
  apply res_bind_ok in H as ([rb' b'] & E & H). apply res_bind_ok in H as (o & _ & H).
  apply res_bind_ok in H as (u1 & E1 & H). injection H as <- _ _.
  pose proof E1 as (Hid & Hl & H3 & H4 & H5)%slot_get_set. split; [done|]. intros T.
  apply (slot_set_typed _ _ _ _ E1); [|done]. intros ? [= <-].
  apply Hf in E. rewrite kind_on_common in E. eapply kind_ok_eq; [|by apply (ut_kind u T)].
  by rewrite kind_on_common.
Qed.

Lemma set_time_kind rb t rb' : rb_set_time rb t = Ok rb' -> kind_of rb' = kind_of rb.
Proof. destruct rb; cbn; intros H; res_inv; done. Qed.
Lemma recv_pdu_kind rb buf rb' : rb_recv_pdu rb buf = Ok rb' -> kind_of rb' = kind_of rb.
Proof. destruct rb; cbn; intros H; res_inv; done. Qed.
Lemma recv_sdu_kind now rb buf id rb' : rb_recv_sdu now rb buf id = Ok rb' -> kind_of rb' = kind_of rb.
Proof. destruct rb; cbn; intros H; res_inv; done. Qed.
Lemma reestablishment_kind rb rb' : rb_reestablishment rb = Ok rb' -> kind_of rb' = kind_of rb.
Proof. destruct rb; cbn; intros H; res_inv; done. Qed.
Lemma generate_pdu_kind now rb n rb' l : rb_generate_pdu now rb n = Ok (rb', l) -> kind_of rb' = kind_of rb.
Proof.
  unfold rb_generate_pdu. destruct rb; cbn.
  all: intros H; apply res_bind_ok in H as ([[? ?] ?] & E & H); injection H as <- _.
  all: apply res_bind_ok in E as ([[? ?] ?] & _ & E); by injection E as <- _ _.
Qed.
Lemma get_stats_kind now rb rb' out : rb_get_stats now rb = Ok (rb', out) -> kind_of rb' = kind_of rb.
Proof.
  unfold rb_get_stats. intros H. apply res_bind_ok in H as ([c o] & _ & H). injection H as <- _. by destruct rb.
Qed.
Lemma reconfigure_kind rb c rb' : reconfigure_rb rb c = Ok rb' -> kind_of rb' = kind_of rb.
Proof. unfold reconfigure_rb. destruct c as [[]|], rb; try done; intros H; res_inv; by subst. Qed.

(** ** Every call works on one UE *)

(** what the work on a UE reads besides the UE *)
Definition same_env (s t : nr_rlc_t) : Prop :=
  rlc_manager s = rlc_manager t /\ nr_rlc_current_time s = nr_rlc_current_time t /\
  du2cu_ue_mapping s = du2cu_ue_mapping t.

Lemma callback_env s t u sl ev : same_env s t -> callback s u sl ev = callback t u sl ev.
Proof.
  intros (Hm & _ & Hd). unfold callback, rlc_deliver_sdu, nr_rlc_manager_get_gnb_flag, nr_rlc_manager_rlc_is_split.
  by rewrite Hm, Hd.
Qed.

Lemma run_rb_env {B} s t u sl rb (f : nr_rlc_entity -> res (nr_rlc_entity * B)) : same_env s t ->
  run_rb s u sl rb f = run_rb t u sl rb f.
Proof.
  intros He. unfold run_rb. destruct (f _) as [[rb' b]|]; [|done]. cbn [res_bind]. f_equal.
  generalize (trace (rb_common rb')) at 1 2 as evs. generalize (@nil rlc_event). intros out evs. revert out.
  induction evs as [|ev evs IH]; intros out; [done|]. cbn [fold_res]. rewrite (callback_env s t) by done.
  destruct (callback t u sl ev); cbn [res_bind]; [apply IH|done].
Qed.

Lemma slot_entity_slot u o sl rb : slot_entity u o = Ok (Some (sl, rb)) -> slot_get u sl = Ok (Some rb).
Proof.
  destruct o as [sl'|]; [|done]. intros H. apply res_bind_ok in H as (e & E & H). destruct e; [|done].
  by injection H as -> ->.
Qed.

Lemma entity_from_lcid_slot u ch sl rb : get_rlc_entity_from_lcid u ch = Ok (Some (sl, rb)) ->
  slot_get u sl = Ok (Some rb).
Proof.
  unfold get_rlc_entity_from_lcid. intros H. apply res_bind_ok in H as (o & _ & H). by apply slot_entity_slot in H.
Qed.

(** the call is the work [f] on the UE [id], which it may give the number [dst] *)
Definition ue_call (op : api_op) (dst : option Z) : Prop :=
  exists id (B : Type) (f : nr_rlc_t -> nr_rlc_ue_t -> res (nr_rlc_ue_t * list rlc_event * B)) (g : B -> api_out),
    op_ues op = id :: option_list dst /\
    (forall s, api_call s op = let* '(s, b) := with_ue s id (f s) in Ok (s, g b)) /\
    (forall s u u' out b, f s u = Ok (u', out, b) ->
       ue_id u' = default (ue_id u) dst /\ (op_typed op -> ue_typed u -> ue_typed u')) /\
    (forall s t u, same_env s t -> f s u = f t u).

Lemma none_with_ue s id f : res_none (with_ue_ s id f) = let* '(s, _) := with_ue s id f in Ok (s, Out_none).
Proof. unfold res_none, with_ue_. by destruct (with_ue s id f) as [[? ?]|]. Qed.

(** an operation on the entity of a channel or a slot, or nothing, or an exit *)
Lemma run_rb_call {B} op id (find : nr_rlc_ue_t -> res (option (rb_slot * nr_rlc_entity)))
    (f : Z -> nr_rlc_entity -> res (nr_rlc_entity * B)) (none : res B) (g : B -> api_out) :
  op_ues op = [id] -> (forall t, rb_fun (f t)) ->
  (forall u sl rb, find u = Ok (Some (sl, rb)) -> slot_get u sl = Ok (Some rb)) ->
  (forall s, api_call s op = let* '(s, b) := with_ue s id (fun u =>
     let* rb := find u in
     match rb with Some (sl, rb) => run_rb s u sl rb (f (nr_rlc_current_time s)) | None => let* b := none in Ok (u, [], b) end) in
   Ok (s, g b)) ->
  ue_call op None.
Proof.
  intros Ho Hf Hfind Hc. eexists id, B, (fun s u => let* rb := find u in
    match rb with Some (sl, rb) => run_rb s u sl rb (f (nr_rlc_current_time s)) | None => let* b := none in Ok (u, [], b) end), g.
  split; [done|]. split; [done|]. split.
  - intros s u u' out b H. apply res_bind_ok in H as (o & E & H). destruct o as [[sl rb]|].
    + apply Hfind in E. destruct (run_rb_typed _ _ _ _ _ _ _ _ (Hf _) E H). done.
    + apply res_bind_ok in H as (b0 & _ & H). by injection H as <- _ _.
  - intros s t u He. destruct (find u) as [[[sl rb]|]|]; [|done|done]. cbn [res_bind].
    rewrite (run_rb_env s t) by done. destruct He as (_ & -> & _). done.
Qed.

(** work on the UE without an entity's operation *)
Lemma plain_call {B} op id (f : nr_rlc_ue_t -> res (nr_rlc_ue_t * list rlc_event * B)) (g : B -> api_out) :
  op_ues op = [id] ->
  (forall s, api_call s op = let* '(s, b) := with_ue s id f in Ok (s, g b)) ->
  (op_typed op -> ue_fun f) -> (forall u u' out b, f u = Ok (u', out, b) -> ue_id u' = ue_id u) -> ue_call op None.
Proof.
  intros Ho Hc Hf Hid. exists id, B, (fun _ => f), g. split; [done|]. split; [done|]. split; [|done].
  intros s u u' out b H. split; [by apply Hid in H|]. intros Ht. by apply (Hf Ht) in H as [_ H].
Qed.


Lemma set_time_fun t (f : nr_rlc_entity -> res nr_rlc_entity) :
  (forall rb rb', f rb = Ok rb' -> kind_of rb' = kind_of rb) ->
  rb_fun (fun rb => let* rb := (let* rb := rb_set_time rb t in f rb) in Ok (rb, tt)).
Proof.
  intros Hf rb rb' b H. apply res_bind_ok in H as (r & H & E). injection E as <- _.
  apply res_bind_ok in H as (r' & E & H). apply Hf in H as ->. by apply set_time_kind in E.
Qed.

Lemma mac_data_ind_call ue ch buf : ue_call (Mac_data_ind ue ch buf) None.
Proof.
  eapply (run_rb_call _ ue (fun u => get_rlc_entity_from_lcid u ch)
    (fun t rb => let* rb := (let* rb := rb_set_time rb t in rb_recv_pdu rb buf) in Ok (rb, tt)) (Ok tt));
    [done|intros t; apply set_time_fun|intros u sl rb; apply entity_from_lcid_slot|intros s; apply none_with_ue].
  intros rb rb'. apply recv_pdu_kind.
Qed.

Lemma mac_data_req_call now ue ch n : ue_call (Mac_data_req now ue ch n) None.
Proof.
  eapply (run_rb_call _ ue (fun u => get_rlc_entity_from_lcid u ch)
    (fun t rb => let* rb := rb_set_time rb t in rb_generate_pdu now rb n) (Ok [])); [done| |
    intros u sl rb; apply entity_from_lcid_slot|intros s; done].
  intros t rb rb' b H. apply res_bind_ok in H as (r & E & H). apply generate_pdu_kind in H as ->. by apply set_time_kind in E.
Qed.

Lemma mac_status_ind_call ue ch : ue_call (Mac_status_ind ue ch) None.
Proof.
  eapply (run_rb_call _ ue (fun u => get_rlc_entity_from_lcid u ch)
    (fun t rb => let* rb := rb_set_time rb t in let* b := rb_buffer_status rb (1000 * 1000) in
       Ok (rb, bs_status_size b + bs_retx_size b + bs_tx_size b)) (Ok 0)); [done| |
    intros u sl rb; apply entity_from_lcid_slot|intros s; done].
  intros t rb rb' b H. apply res_bind_ok in H as (r & E & H). apply res_bind_ok in H as (st & _ & H). injection H as <- _.
  by apply set_time_kind in E.
Qed.

Lemma data_req_call now ue srb_flag rb_id mui sdu : ue_call (Data_req now ue srb_flag rb_id mui sdu) None.
Proof.
  eapply (run_rb_call _ ue (fun u => slot_entity u (rb_id_slot 2 MAX_DRBS_PER_UE srb_flag rb_id))
    (fun t rb => let* rb := (let* rb := rb_set_time rb t in rb_recv_sdu now rb sdu mui) in Ok (rb, tt)) (Ok tt));
    [done|intros t; apply set_time_fun|intros u sl rb; apply slot_entity_slot|intros s; apply none_with_ue].
  intros rb rb'. apply recv_sdu_kind.
Qed.

Lemma statistics_call now ue srb_flag rb_id : ue_call (Statistics now ue srb_flag rb_id) None.
Proof.
  eapply (run_rb_call _ ue (fun u => slot_entity u (rb_id_slot 2 5 srb_flag rb_id)) (fun _ rb =>
    let* '(rb, out) := rb_get_stats now rb in let* b := rb_buffer_status rb (1000 * 1000) in
    Ok (rb, Some (out, bs_status_size b, bs_tx_size b + bs_retx_size b))) (Ok None));
    [done| |intros u sl rb; apply slot_entity_slot|intros s; done].
  intros t rb rb' b H. apply res_bind_ok in H as ([r o] & E & H). apply res_bind_ok in H as (st & _ & H). injection H as <- _.
  by apply get_stats_kind in E.
Qed.

Lemma reestablish_fun : rb_fun (fun rb => let* rb := rb_reestablishment rb in Ok (rb, tt)).
Proof. intros rb rb' b H. apply res_bind_ok in H as (r & E & H). injection H as <- _. by apply reestablishment_kind in E. Qed.

Lemma reestablish_call ue ch : ue_call (Reestablish ue ch) None.
Proof.
  eapply (run_rb_call _ ue (fun u => get_rlc_entity_from_lcid u ch)
    (fun _ rb => let* rb := rb_reestablishment rb in Ok (rb, tt)) (Ok tt)); [done|intros _; apply reestablish_fun|
    intros u sl rb; apply entity_from_lcid_slot|intros s; apply none_with_ue].
Qed.

Lemma srb_recv_sdu_call now ue ch buf : ue_call (Srb_recv_sdu now ue ch buf) None.
Proof.
  eapply (run_rb_call _ ue
    (fun u => slot_entity u (Some (if ch =? 0 then Slot_srb0 else Slot_srb (Z.to_nat (ch - 1)))))
    (fun t rb => let* rb := (let* rb := rb_set_time rb t in rb_recv_sdu now rb buf (-1)) in Ok (rb, tt)) (Err Exit));
    [done|intros t; apply set_time_fun|intros u sl rb; apply slot_entity_slot|intros s; apply none_with_ue].
  intros rb rb'. apply recv_sdu_kind.
Qed.

(** *** Configuration *)

Lemma tx_space_call ue ch : ue_call (Tx_space ue ch) None.
Proof.
  eapply plain_call; [done|intros s; reflexivity| |].
  - intros _ u u' out b H. apply res_bind_ok in H as (r & _ & H). by injection H as <- _ _.
  - intros u u' out b H. apply res_bind_ok in H as (r & _ & H). by injection H as <- _ _.
Qed.

Lemma lcid_from_rb_call ue is_srb rb_id : ue_call (Lcid_from_rb ue is_srb rb_id) None.
Proof.
  eapply plain_call; [done|intros s; reflexivity| |].
  - intros _ u u' out b [= <- _ _]. done.
  - by intros u u' out b [= <- _ _].
Qed.

Lemma set_rlf_handler_call ue h : ue_call (Set_rlf_handler ue h) None.
Proof.
  eapply plain_call; [done|intros s; apply none_with_ue| |].
  - intros _ u u' out b [= <- _ _]. split; [done|]. intros []. by split.
  - by intros u u' out b [= <- _ _].
Qed.

Lemma plain_call_fun {B} op id (f : nr_rlc_ue_t -> res (nr_rlc_ue_t * list rlc_event * B)) (g : B -> api_out) :
  op_ues op = [id] ->
  (forall s, api_call s op = let* '(s, b) := with_ue s id f in Ok (s, g b)) -> ue_fun f -> ue_call op None.
Proof. intros Ho Hc Hf. eapply plain_call; [done..|]. intros u u' out b H. by apply Hf in H as [H _]. Qed.

Lemma avg_time_call ue ch is_on : ue_call (Avg_time ue ch is_on) None.
Proof.
  eapply plain_call_fun; [done|intros s; apply none_with_ue|].
  intros u u' out b H. apply res_bind_ok in H as (o & E & H). destruct o as [[sl rb]|].
  - apply res_bind_ok in H as (u1 & Es & H). injection H as <- _ _. apply slot_entity_slot in E.
    pose proof (slot_get_set _ _ _ _ Es) as (Hid & _). split; [done|]. intros T.
    apply (slot_set_typed _ _ _ _ Es); [|done]. intros ? [= <-].
    eapply kind_ok_eq; [apply kind_on_common|by apply (ut_kind u T)].
  - by injection H as <- _ _.
Qed.

Lemma reconfigure_call ue ch c : ue_call (Reconfigure ue ch c) None.
Proof.
  eapply plain_call_fun; [done|intros s; apply none_with_ue|].
  intros u u' out b H. apply res_bind_ok in H as (o & E & H). destruct o as [[sl rb]|]; [|done].
  apply res_bind_ok in H as (rb' & Er & H). apply res_bind_ok in H as (u1 & Es & H). injection H as <- _ _.
  apply entity_from_lcid_slot in E. pose proof (slot_get_set _ _ _ _ Es) as (Hid & _). split; [done|]. intros T.
  apply (slot_set_typed _ _ _ _ Es); [|done]. intros ? [= <-].
  eapply kind_ok_eq; [by apply reconfigure_kind in Er|by apply (ut_kind u T)].
Qed.

Lemma release_fun u ch u' : release_rlc_entity_from_lcid u ch = Ok u' -> ue_id u' = ue_id u /\ (ue_typed u -> ue_typed u').
Proof.
  unfold release_rlc_entity_from_lcid. destruct (ch =? 0); [done|]. intros H.
  apply res_bind_ok in H as (rb & _ & H). apply res_bind_ok in H as (o & _ & H). destruct o as [sl|]; [|by injection H as <-].
  apply res_bind_ok in H as (e & _ & H). destruct e; [|by injection H as <-].
  apply res_bind_ok in H as (x & _ & H). by apply (slot_set_typed _ _ _ _ H).
Qed.

Lemma release_entity_call ue ch : ue_call (Release_entity ue ch) None.
Proof.
  eapply plain_call_fun; [done|intros s; apply none_with_ue|].
  intros u u' out b H. destruct (ch =? 0).
  - destruct (srb0 u) as [rb|]; [|by injection H as <- _ _]. apply res_bind_ok in H as (x & _ & H). injection H as <- _ _.
    by apply (slot_set_typed u Slot_srb0 None).
  - apply res_bind_ok in H as (u1 & E & H). injection H as <- _ _. by apply (release_fun u ch).
Qed.

Lemma set_lcid2rb_typed u lcid rb u' : set_lcid2rb u lcid rb = Ok u' -> ue_id u' = ue_id u /\ (lcid_ok rb -> ue_typed u -> ue_typed u').
Proof.
  unfold set_lcid2rb. case_match; [done|]. unfold arr_set. case_match; [|done]. intros [= <-]. split; [done|].
  intros Hrb [T1 T2 T3 T4 T5]. split; try done; cbn; [by rewrite length_insert|]. by apply Forall_insert.
Qed.

Lemma add_srb_rlc_entity_typed u id e u' : nr_rlc_ue_add_srb_rlc_entity u id e = Ok u' ->
  ue_id u' = ue_id u /\ ((if id =? 0 then kind_of e = Kind_tm else kind_of e = Kind_am) -> ue_typed u -> ue_typed u').
Proof.
  unfold nr_rlc_ue_add_srb_rlc_entity. case_match; [done|]. destruct (id =? 0).
  - destruct (srb0 u); [done|]. intros [= <-]. split; [done|]. intros Hk.
    apply (slot_set_typed u Slot_srb0 (Some e)); [done|]. by intros ? [= <-].
  - intros H1. apply res_bind_ok in H1 as (o & _ & H1). destruct o; [done|].
    pose proof (slot_get_set u (Slot_srb (Z.to_nat (id - 1))) (Some e) u' H1) as (Hid & _). split; [done|].
    intros Hk. apply (slot_set_typed u (Slot_srb (Z.to_nat (id - 1))) (Some e)); [done|]. by intros ? [= <-].
Qed.

Lemma add_drb_rlc_entity_typed u id e u' : nr_rlc_ue_add_drb_rlc_entity u id e = Ok u' ->
  ue_id u' = ue_id u /\ (kind_of e <> Kind_tm -> ue_typed u -> ue_typed u').
Proof.
  unfold nr_rlc_ue_add_drb_rlc_entity. case_match; [done|].
  intros H1. apply res_bind_ok in H1 as (o & _ & H1). destruct o; [done|].
  pose proof (slot_get_set u (Slot_drb (Z.to_nat (id - 1))) (Some e) u' H1) as (Hid & _). split; [done|].
  intros Hk. apply (slot_set_typed u (Slot_drb (Z.to_nat (id - 1))) (Some e)); [done|]. by intros ? [= <-].
Qed.

Lemma new_am_kind p e : new_am p = Ok e -> kind_of e = Kind_am.
Proof. unfold new_am. intros H. apply res_bind_ok in H as (x & _ & H). by injection H as <-. Qed.

(** a call that works on a UE, or always the same failure *)
Definition ue_call_or_err (op : api_op) (dst : option Z) : Prop :=
  ue_call op dst \/ exists e, forall s, api_call s op = Err e.

Lemma add_srb_call ue id c : ue_call_or_err (Add_srb ue id c) None.
Proof.
  unfold ue_call_or_err. cbn [api_call]. unfold nr_rlc_add_srb.
  destruct ((0 <? id) && (id <? 4)) eqn:Hid; [|by right; eexists]. cbn [negb].
  destruct (match rlc_Config c with Some (RLC_Config_am am) => am_config am | _ => Ok am_default end) as [p|e] eqn:Ep;
    [|by right; eexists]. cbn [res_bind]. left.
  eapply plain_call; [done|intros s; cbn [api_call]; unfold nr_rlc_add_srb; rewrite Hid, Ep; apply none_with_ue| |].
  - intros Ht u u' out b H. cbn in Ht. unfold bearer_ok in Ht. destruct (servedRadioBearer c) as [[sid|]|]; [|done|done].
    apply res_bind_ok in H as (u1 & E1 & H). apply set_lcid2rb_typed in E1 as [I1 T1]. specialize (T1 Ht).
    apply res_bind_ok in H as (o & _ & H). destruct o; [injection H as <- _ _; done|].
    apply res_bind_ok in H as (e & En & H). apply new_am_kind in En.
    apply res_bind_ok in H as (u2 & E2 & H). injection H as <- _ _. apply add_srb_rlc_entity_typed in E2 as [I2 T2].
    split; [congruence|]. intros T. apply T2; [|by apply T1].
    apply andb_prop in Hid as [H0 _]. destruct (Z.eqb_spec id 0); [lia|done].
  - intros u u' out b H. destruct (servedRadioBearer c) as [[sid|]|]; [|done|done].
    apply res_bind_ok in H as (u1 & E1 & H). apply set_lcid2rb_typed in E1 as [I1 _].
    apply res_bind_ok in H as (o & _ & H). destruct o; [injection H as <- _ _; done|].
    apply res_bind_ok in H as (e & _ & H).
    apply res_bind_ok in H as (u2 & E2 & H). injection H as <- _ _. apply add_srb_rlc_entity_typed in E2 as [I2 _]. congruence.
Qed.

Lemma add_drb_entity_call ue id c (new : res nr_rlc_entity) : (forall e, new = Ok e -> kind_of e <> Kind_tm) ->
  (forall s, api_call s (Add_drb ue id c) = res_none (add_drb_entity s ue id c new)) -> ue_call (Add_drb ue id c) None.
Proof.
  intros Hn Hc. eapply plain_call; [done|intros s; rewrite Hc; apply none_with_ue| |].
  - intros Ht u u' out b H. cbn in Ht. unfold bearer_ok in Ht. destruct (servedRadioBearer c) as [[|did]|]; [done| |done].
    apply res_bind_ok in H as (u1 & E1 & H). apply set_lcid2rb_typed in E1 as [I1 T1]. specialize (T1 Ht).
    apply res_bind_ok in H as (o & _ & H). destruct o; [injection H as <- _ _; done|].
    apply res_bind_ok in H as (e & En & H). apply Hn in En.
    apply res_bind_ok in H as (u2 & E2 & H). injection H as <- _ _. apply add_drb_rlc_entity_typed in E2 as [I2 T2].
    split; [congruence|]. intros T. apply T2; [done|by apply T1].
  - intros u u' out b H. destruct (servedRadioBearer c) as [[|did]|]; [done| |done].
    apply res_bind_ok in H as (u1 & E1 & H). apply set_lcid2rb_typed in E1 as [I1 _].
    apply res_bind_ok in H as (o & _ & H). destruct o; [injection H as <- _ _; done|].
    apply res_bind_ok in H as (e & _ & H).
    apply res_bind_ok in H as (u2 & E2 & H). injection H as <- _ _. apply add_drb_rlc_entity_typed in E2 as [I2 _]. congruence.
Qed.

Lemma add_drb_call ue id c : ue_call_or_err (Add_drb ue id c) None.
Proof.
  unfold ue_call_or_err. cbn [api_call]. unfold nr_rlc_add_drb. destruct (rlc_Config c) as [[am|um|]|] eqn:Ec; [| |by right; eexists..].
  - unfold add_drb_am. destruct ((0 <? id) && (id <=? MAX_DRBS_PER_UE)) eqn:Hid; [|by right; eexists]. cbn [negb].
    rewrite Ec. destruct (am_config am) as [p|e] eqn:Ep; [|by right; eexists]. left.
    apply (add_drb_entity_call _ _ _ (new_am p)); [intros e He%new_am_kind; by rewrite He|].
    intros s. cbn [api_call]. unfold nr_rlc_add_drb, add_drb_am. by rewrite Ec, Hid, Ep.
  - unfold add_drb_um. destruct ((0 <? id) && (id <=? MAX_DRBS_PER_UE)) eqn:Hid; [|by right; eexists]. cbn [negb].
    rewrite Ec. destruct (decode_t_reassembly (um_t_Reassembly um)) as [t|] eqn:Et; [|by right; eexists]. cbn [res_bind].
    destruct (dl_um_sn_FieldLength um) as [dl|] eqn:Ed; [|by right; eexists].
    destruct (ul_um_sn_FieldLength um) as [ul|] eqn:Eu; [|by right; eexists].
    destruct (dl =? ul) eqn:Ee; [|by right; eexists]. cbn [negb].
    destruct (decode_sn_field_length_um dl) as [n|] eqn:En; [|by right; eexists]. left.
    apply (add_drb_entity_call _ _ _
      (let* e := RlcUm.new_nr_rlc_entity_um RLC_RX_MAXSIZE RLC_TX_MAXSIZE t n in Ok (Um e))).
    + intros e He. apply res_bind_ok in He as (x & _ & He). by injection He as <-.
    + intros s. cbn [api_call]. unfold nr_rlc_add_drb, add_drb_um. by rewrite Ec, Hid, Et, Ed, Eu; cbn [res_bind]; rewrite Ee, En.
Qed.

Lemma activate_srb0_call ue cb : ue_call (Activate_srb0 ue cb) None.
Proof.
  eapply plain_call_fun; [done|intros s; reflexivity|].
  intros u u' out b H. destruct (srb0 u) eqn:E0; [by injection H as <- _ _|].
  apply res_bind_ok in H as (e & _ & H). apply res_bind_ok in H as (u1 & E1 & H). injection H as <- _ _.
  apply add_srb_rlc_entity_typed in E1 as [I T]. split; [done|]. intros T0. apply T; [done|]. destruct T0; by split.
Qed.

Lemma reestablish_slot_ok s u sl u' out b : reestablish_slot s u sl = Ok (u', out, b) ->
  ue_id u' = ue_id u /\ (ue_typed u -> ue_typed u').
Proof.
  intros H. apply res_bind_ok in H as (o & E & H). destruct o as [[sl' rb]|]; [|by injection H as <- _ _].
  apply slot_entity_slot in E. by apply (run_rb_typed _ _ _ _ _ _ _ _ reestablish_fun E H).
Qed.
Lemma reestablish_slot_env s t u sl : same_env s t -> reestablish_slot s u sl = reestablish_slot t u sl.
Proof.
  intros He. unfold reestablish_slot. destruct (slot_entity u (Some sl)) as [[[sl' rb]|]|]; [|done|done]. cbn [res_bind].
  by apply run_rb_env.
Qed.

Lemma update_id_call a b : ue_call (Update_id a b) (Some b).
Proof.
  exists a, bool, (fun s u => let* '(u, out, _) := reestablish_slot s (u <| ue_id := b |>) (Slot_srb 0) in Ok (u, out, true)), Out_bool.
  split; [done|]. split; [done|]. split.
  - intros s u u' out x H. apply res_bind_ok in H as ([[u1 o] y] & E & H). injection H as <- _ _.
    apply reestablish_slot_ok in E as [I T]. split; [by rewrite I|]. intros _ T0. apply T. destruct T0; by split.
  - intros s t u He. by rewrite (reestablish_slot_env s t).
Qed.

Lemma test_trigger_call ue : ue_call (Test_trigger ue) None.
Proof.
  exists ue, unit, (fun s u =>
    let* ent := slot_entity u (Some (Slot_srb 0)) in
    match ent with
    | None => Err Null_deref
    | Some (sl, rb) =>
      let* '(u, out, _) := run_rb_ s u sl rb rb_reestablishment in
      let* '(u, out', _) := reestablish_slot s u (Slot_drb 0) in
      Ok (u, out ++ out', tt)
    end), (fun _ => Out_none).
  split; [done|]. split; [intros s; apply none_with_ue|]. split.
  - intros s u u' out x H. apply res_bind_ok in H as (o & E & H). destruct o as [[sl rb]|]; [|done].
    apply slot_entity_slot in E.
    apply res_bind_ok in H as ([[u1 o1] y1] & E1 & H). apply (run_rb_typed _ _ _ _ _ _ _ _ reestablish_fun E) in E1 as [I1 T1].
    apply res_bind_ok in H as ([[u2 o2] y2] & E2 & H). injection H as <- _ _. apply reestablish_slot_ok in E2 as [I2 T2].
    split; [cbn; congruence|]. auto.
  - intros s t u He. destruct (slot_entity u (Some (Slot_srb 0))) as [[[sl rb]|]|]; [|done|done]. cbn [res_bind].
    unfold run_rb_. rewrite (run_rb_env s t) by done. destruct (run_rb t u sl rb _) as [[[u1 o1] y1]|]; [|done]. cbn [res_bind].
    by rewrite (reestablish_slot_env s t).
Qed.

(** all calls *)
Lemma api_call_cases op :
  op = Ms_tick \/ (exists id, op = Remove_ue id) \/ exists dst, ue_call_or_err op dst /\ (dst = None \/ exists a b, op = Update_id a b).
Proof.
  destruct op; lazymatch goal with
  | |- Ms_tick = _ \/ _ => by left
  | |- Remove_ue _ = _ \/ _ => by right; left; eexists
  | |- Update_id _ ?b = _ \/ _ =>
    right; right; exists (Some b); split; [left; apply update_id_call|right; by eexists _, _]
  | _ => right; right; exists None; split; [|by left]; first [apply add_srb_call | apply add_drb_call | left;
      auto using mac_data_ind_call, mac_data_req_call, mac_status_ind_call, data_req_call, tx_space_call,
        srb_recv_sdu_call, avg_time_call, statistics_call, lcid_from_rb_call, release_entity_call, activate_srb0_call,
        reconfigure_call, reestablish_call, set_rlf_handler_call, test_trigger_call]
  end.
Qed.

(** ** The list of UEs around a call *)

(** what a call for [id] works on: the first UE with that number, or a new one at the end *)
Definition opens (l l1 : list nr_rlc_ue_t) (u : nr_rlc_ue_t) (l2 : list nr_rlc_ue_t) (id : Z) : Prop :=
  ue_id u = id /\ Forall (fun v => ue_id v <> id) l1 /\
  (l = l1 ++ u :: l2 \/ l = l1 /\ l2 = [] /\ u = new_ue id).

Lemma insert_at {A} (l1 : list A) x y l2 : <[length l1 := y]> (l1 ++ x :: l2) = l1 ++ y :: l2.
Proof. rewrite <- (Nat.add_0_r (length l1)), insert_app_r. done. Qed.

Lemma find_ue_some (l : list nr_rlc_ue_t) id i u : list_find (fun u => ue_id u = id) l = Some (i, u) ->
  exists l1 l2, l = l1 ++ u :: l2 /\ i = length l1 /\ ue_id u = id /\ Forall (fun v => ue_id v <> id) l1.
Proof.
  intros (Hi & Hu & Hn)%list_find_Some. exists (take i l), (drop (S i) l).
  pose proof (lookup_lt_Some _ _ _ Hi). split; [by rewrite take_drop_middle|].
  split; [rewrite length_take; lia|]. split; [done|]. apply Forall_lookup. intros k v Hk.
  apply lookup_take_Some in Hk as [Hk Hlt]. by apply (Hn k v).
Qed.
Lemma find_ue_at (l1 : list nr_rlc_ue_t) u l2 id : ue_id u = id -> Forall (fun v => ue_id v <> id) l1 ->
  list_find (fun u => ue_id u = id) (l1 ++ u :: l2) = Some (length l1, u).
Proof.
  intros Hu Hl. apply list_find_Some. split; [by apply list_lookup_middle|]. split; [done|].
  intros k v Hk Hlt. rewrite lookup_app_l in Hk by done. by apply (Forall_lookup_1 _ _ _ _ Hl Hk).
Qed.
Lemma find_ue_none (l : list nr_rlc_ue_t) id : Forall (fun v => ue_id v <> id) l ->
  list_find (fun u => ue_id u = id) l = None.
Proof. intros H. apply list_find_None. exact H. Qed.

Lemma with_ue_open {B} s id (f : nr_rlc_ue_t -> res (nr_rlc_ue_t * list rlc_event * B)) l1 u l2 :
  is_Some (rlc_manager s) -> opens (ue_list s) l1 u l2 id ->
  with_ue s id f = let* '(u', out, b) := f u in
    Ok (s <| ue_list := l1 ++ u' :: l2 |> <| rlc_trace := rlc_trace s ++ out |>, b).
Proof.
  intros [m Hm] (Hu & Hl & H). unfold with_ue, nr_rlc_manager_get_ue. rewrite Hm. destruct H as [H|(H & -> & ->)].
  - rewrite H, find_ue_at by done. cbn [res_bind]. rewrite H. destruct (f u) as [[[u' out] b]|]; [|done]. cbn [res_bind].
    by rewrite insert_at.
  - rewrite H, find_ue_none by done. cbn [res_bind]. destruct (f (new_ue id)) as [[[u' out] b]|]; [|done]. cbn [res_bind].
    cbn. by rewrite insert_at.
Qed.

Lemma with_ue_inv {B} s id (f : nr_rlc_ue_t -> res (nr_rlc_ue_t * list rlc_event * B)) s' b :
  with_ue s id f = Ok (s', b) -> exists l1 u l2 u' out, is_Some (rlc_manager s) /\ opens (ue_list s) l1 u l2 id /\
    f u = Ok (u', out, b) /\ s' = s <| ue_list := l1 ++ u' :: l2 |> <| rlc_trace := rlc_trace s ++ out |>.
Proof.
  intros H. assert (is_Some (rlc_manager s)) as Hm.
  { unfold with_ue, nr_rlc_manager_get_ue in H. destruct (rlc_manager s); [by eexists|done]. }
  assert (exists l1 u l2, opens (ue_list s) l1 u l2 id) as (l1 & u & l2 & Ho).
  { destruct (list_find (fun u => ue_id u = id) (ue_list s)) as [[i u]|] eqn:E.
    - apply find_ue_some in E as (l1 & l2 & E & _ & Hu & Hl). exists l1, u, l2. split; [done|]. split; [done|by left].
    - apply list_find_None in E. exists (ue_list s), (new_ue id), []. split; [done|]. split; [done|by right]. }
  rewrite (with_ue_open s id f l1 u l2 Hm Ho) in H. apply res_bind_ok in H as ([[u' out] b'] & E & H).
  injection H as <- <-. by exists l1, u, l2, u', out.
Qed.

(** the entities of a UE that is removed *)
Definition delete_entities (u : nr_rlc_ue_t) : res unit :=
  let* _ := delete_opt (srb0 u) in
  let* _ := fold_res (fun _ e => delete_opt e) (srb u) tt in
  fold_res (fun _ e => delete_opt e) (drb u) tt.

Lemma remove_ue_at s id l1 u l2 : is_Some (rlc_manager s) -> ue_list s = l1 ++ u :: l2 -> ue_id u = id ->
  Forall (fun v => ue_id v <> id) l1 ->
  nr_rlc_manager_remove_ue s id = let* _ := delete_entities u in Ok (s <| ue_list := l1 ++ l2 |>).
Proof.
  intros [m Hm] Hl Hu Hn. unfold nr_rlc_manager_remove_ue, delete_entities. rewrite Hm, Hl, find_ue_at, delete_middle by done.
  destruct (delete_opt (srb0 u)); [|done]. cbn [res_bind].
  by destruct (fold_res (fun _ e => delete_opt e) (srb u) tt).
Qed.
Lemma remove_ue_none s id : is_Some (rlc_manager s) -> Forall (fun v => ue_id v <> id) (ue_list s) ->
  nr_rlc_manager_remove_ue s id = Ok s.
Proof. intros [m Hm] Hn. unfold nr_rlc_manager_remove_ue. by rewrite Hm, find_ue_none. Qed.

Lemma remove_ue_inv s id s' : nr_rlc_manager_remove_ue s id = Ok s' -> is_Some (rlc_manager s) /\
  (s' = s /\ Forall (fun v => ue_id v <> id) (ue_list s) \/
   exists l1 u l2, ue_list s = l1 ++ u :: l2 /\ ue_id u = id /\ Forall (fun v => ue_id v <> id) l1 /\
     delete_entities u = Ok tt /\ s' = s <| ue_list := l1 ++ l2 |>).
Proof.
  intros H. assert (is_Some (rlc_manager s)) as Hm.
  { unfold nr_rlc_manager_remove_ue in H. destruct (rlc_manager s); [by eexists|done]. }
  split; [done|]. destruct (list_find (fun u => ue_id u = id) (ue_list s)) as [[i u]|] eqn:E.
  - apply find_ue_some in E as (l1 & l2 & E & -> & Hu & Hl). right. rewrite (remove_ue_at s id l1 u l2) in H by done.
    apply res_bind_ok in H as ([] & Ed & H). injection H as <-. by exists l1, u, l2.
  - apply list_find_None in E. rewrite remove_ue_none in H by done. injection H as <-. by left.
Qed.

(** ** Types of all reachable states *)

Lemma new_ue_typed id : ue_typed (new_ue id).
Proof.
  split; try done.
  - assert (forall n i rb, arr_get (replicate n (None : option nr_rlc_entity)) i <> Ok (Some rb)) as Hn.
    { intros n i rb. unfold arr_get. destruct (replicate n None !! i) as [o|] eqn:E; [|done].
      by apply lookup_replicate in E as [-> _]. }
    intros [|i|i] rb H; [done|by apply (Hn 3%nat i rb) in H|by apply (Hn 32%nat i rb) in H].
  - by apply Forall_replicate.
Qed.

Lemma api_call_typed s op s' o : api_call s op = Ok (s', o) -> op_typed op ->
  Forall ue_typed (ue_list s) -> Forall ue_typed (ue_list s').
Proof.
  intros H Ht Hs. destruct (api_call_cases op) as [->|[[id ->]|(dst & [C|[e C]] & _)]].
  - by injection H as <- _.
  - apply res_bind_ok in H as (s1 & E & H). injection H as <- _.
    apply remove_ue_inv in E as (_ & [[-> _]|(l1 & u & l2 & E & _ & _ & _ & ->)]); [done|]. rewrite E in Hs.
    cbn. apply Forall_app in Hs as [H1 H2]. inversion H2; subst. by apply Forall_app.
  - destruct C as (id & B & f & g & _ & Hc & Hf & _). rewrite Hc in H. apply res_bind_ok in H as ([s1 b] & E & H).
    injection H as <- _. apply with_ue_inv in E as (l1 & u & l2 & u' & out & _ & (Hu & _ & Hl) & E & ->). cbn.
    apply Hf in E as [_ T]. destruct Hl as [Hl|(Hl & -> & ->)]; rewrite Hl in Hs.
    + apply Forall_app in Hs as [H1 H2]. inversion H2; subst. apply Forall_app. split; [done|]. constructor; auto.
    + apply Forall_app. split; [done|]. constructor; [|done]. apply T; [done|apply new_ue_typed].
  - by rewrite C in H.
Qed.

Lemma api_run_typed ops : forall s s' log, api_run s ops = Ok (s', log) -> Forall op_typed ops ->
  Forall ue_typed (ue_list s) -> Forall ue_typed (ue_list s').
Proof.
  induction ops as [|op ops IH]; intros s s' log H Ht Hs; [by injection H as <- _|].
  inversion Ht; subst. apply res_bind_ok in H as ([s1 x] & E & H). apply res_bind_ok in H as ([s2 l] & E2 & H).
  injection H as <- _. apply res_bind_ok in E as ([s0 o] & E & E1). injection E1 as <- _.
  apply api_call_typed in E; [|done|done]. by eapply IH.
Qed.

(** the entity behind a channel *)
Lemma lcid_entity u ch : ue_typed u -> 0 <= ch <= 32 ->
  exists r, get_rlc_entity_from_lcid u ch = Ok r /\ match r with Some (sl, rb) => kind_ok sl rb | None => True end.
Proof.
  intros T Hch. assert (exists r, get_rlc_entity_from_lcid u ch = Ok r) as [r E].
  { unfold get_rlc_entity_from_lcid, rlc_lcid2rb. destruct (Z.eqb_spec ch 0); [by eexists|].
    destruct (Z.ltb_spec ch 1); [lia|]. pose proof (ut_lcid u T).
    destruct (arr_get_lt (lcid2rb u) (Z.to_nat (ch - 1)) ltac:(lia)) as (x & Hx & ->). cbn [res_bind].
    pose proof (Forall_lookup_1 _ _ _ _ (ut_rb u T) Hx) as Hr. destruct x as [|id|id]; cbn in Hr |- *; [by eexists| |].
    - destruct (Z.ltb_spec 0 id); [|lia]. cbn. pose proof (ut_srb u T).
      destruct (arr_get_lt (srb u) (Z.to_nat (id - 1)) ltac:(lia)) as (e & _ & ->). by eexists.
    - destruct (Z.ltb_spec id 1); [lia|]. cbn. pose proof (ut_drb u T).
      destruct (arr_get_lt (drb u) (Z.to_nat (id - 1)) ltac:(lia)) as (e & _ & ->). by eexists. }
  exists r. split; [done|]. destruct r as [[sl rb]|]; [|done]. apply entity_from_lcid_slot in E. by apply (ut_kind u T).
Qed.

(** ** Isolation *)

Section Group.
Context (G : gset Z).

Definition in_group (op : api_op) : Prop := Forall (fun id => id ∈ G) (op_ues op).
#[global] Instance in_group_dec op : Decision (in_group op).
Proof. unfold in_group. apply _. Defined.
Definition apart (op : api_op) : Prop := op_ues op <> [] /\ Forall (fun id => id ∉ G) (op_ues op).
#[global] Instance apart_dec op : Decision (apart op).
Proof. unfold apart. apply _. Defined.

Definition of_group (l : list nr_rlc_ue_t) : list nr_rlc_ue_t := filter (fun u => ue_id u ∈ G) l.

Record agree (s t : nr_rlc_t) : Prop := mk_agree {
  ag_env : same_env s t;
  ag_ues : ue_list t = of_group (ue_list s);
  ag_trace : rlc_trace s = [];
  ag_trace' : rlc_trace t = [] }.

Lemma of_group_app l l' : of_group (l ++ l') = of_group l ++ of_group l'.
Proof. apply filter_app. Qed.
Lemma of_group_in u l : ue_id u ∈ G -> of_group (u :: l) = u :: of_group l.
Proof. intros. unfold of_group. by rewrite filter_cons_True. Qed.
Lemma of_group_out u l : ue_id u ∉ G -> of_group (u :: l) = of_group l.
Proof. intros. unfold of_group. by rewrite filter_cons_False. Qed.
Lemma of_group_not l id : Forall (fun v => ue_id v <> id) l -> Forall (fun v => ue_id v <> id) (of_group l).
Proof. intros H. apply Forall_forall. intros v [_ Hv]%list_elem_of_filter. by apply (proj1 (Forall_forall _ _) H). Qed.

Lemma opens_group l l1 u l2 id : opens l l1 u l2 id -> id ∈ G -> opens (of_group l) (of_group l1) u (of_group l2) id.
Proof.
  intros (Hu & Hl & H) Hid. split; [done|]. split; [by apply of_group_not|]. destruct H as [->|(-> & -> & ->)].
  - left. rewrite of_group_app, of_group_in by by rewrite Hu. done.
  - by right.
Qed.

Lemma same_env_refl s t : same_env s t -> same_env (s <| rlc_trace := [] |>) (t <| rlc_trace := [] |>).
Proof. done. Qed.

(** the UE that a call works on stays in its group *)
Lemma call_keeps_group op dst id u u' : op_ues op = id :: option_list dst -> ue_id u = id ->
  ue_id u' = default (ue_id u) dst -> ue_id u' ∈ op_ues op.
Proof. intros -> Hu ->. destruct dst; cbn; [right; left|rewrite Hu; left]. Qed.

(** a call for the group does the same without the other UEs *)
Lemma step_in_group s t op s' x : agree s t -> in_group op -> api_step s op = Ok (s', x) ->
  exists t', api_step t op = Ok (t', x) /\ agree s' t'.
Proof.
  intros [He Hl Hs Ht] Hin H. unfold api_step in *. destruct (api_call_cases op) as [->|[[id ->]|(dst & [C|[e C]] & _)]].
  - injection H as <- <-. eexists. split; [done|]. destruct He as (E1 & E2 & E3). split; cbn; [|done..].
    split; cbn; [done|]. by rewrite E2.
  - apply res_bind_ok in H as ([s1 o] & E & H). injection H as <- <-.
    apply res_bind_ok in E as (s2 & E & H). injection H as -> <-. cbn [api_call]. unfold nr_rlc_remove_ue in *.
    pose proof (Forall_inv Hin) as Hid. cbn in Hid. pose proof (proj1 He) as Hmode.
    apply remove_ue_inv in E as (Hm & [[-> Hn]|(l1 & u & l2 & E & Hu & Hn & Ed & ->)]); cbn in Hm.
    + rewrite remove_ue_none; cbn; [|by rewrite <- Hmode|rewrite Hl; by apply of_group_not].
      cbn [res_none res_bind]. eexists. split; [done|]. by split.
    + cbn in E. rewrite (remove_ue_at _ id (of_group l1) u (of_group l2)); cbn;
        [|by rewrite <- Hmode|by rewrite Hl, E, of_group_app, of_group_in by by rewrite Hu|done|by apply of_group_not].
      rewrite Ed. cbn [res_none res_bind]. eexists. split; [done|]. split; cbn; [done|by rewrite of_group_app|done|done].
  - destruct C as (id & B & f & g & Ho & Hc & Hf & Henv). rewrite Hc in H |- *.
    apply res_bind_ok in H as ([s1 o] & E & H). injection H as <- <-. apply res_bind_ok in E as ([s2 b] & E & H).
    injection H as -> <-. apply with_ue_inv in E as (l1 & u & l2 & u' & out & Hm & Hop & E & ->). cbn in Hm, Hop.
    pose proof Hin as Hin'. unfold in_group in Hin'. rewrite Ho in Hin'. pose proof (Forall_inv Hin') as Hid. cbn in Hid.
    rewrite (with_ue_open _ id _ (of_group l1) u (of_group l2)); cbn;
      [|by rewrite <- (proj1 He)|rewrite Hl; by apply opens_group].
    rewrite <- (Henv (s <| rlc_trace := [] |>)) by done. rewrite E. cbn [res_bind]. eexists. split; [done|].
    split; cbn; [done| |done|done]. rewrite of_group_app, of_group_in; [done|].
    pose proof (Hf _ _ _ _ _ E) as [Ei _]. destruct Hop as (Hu & _). eapply (proj1 (Forall_forall _ _) Hin).
    by eapply call_keeps_group.
  - by rewrite C in H.
Qed.

(** a call for the others does not change the group *)
Lemma step_apart s t op s' x : agree s t -> apart op -> api_step s op = Ok (s', x) -> agree s' t.
Proof.
  intros [He Hl Hs Ht] [Hne Hin] H. unfold api_step in *. destruct (api_call_cases op) as [->|[[id ->]|(dst & [C|[e C]] & _)]].
  - done.
  - apply res_bind_ok in H as ([s1 o] & E & H). injection H as <- <-.
    apply res_bind_ok in E as (s2 & E & H). injection H as -> <-. pose proof (Forall_inv Hin) as Hid. cbn in Hid.
    apply remove_ue_inv in E as (Hm & [[-> Hn]|(l1 & u & l2 & E & Hu & Hn & Ed & ->)]); [by split|]. cbn in E.
    split; cbn; try done. rewrite Hl, E, !of_group_app, of_group_out by by rewrite Hu. done.
  - destruct C as (id & B & f & g & Ho & Hc & Hf & Henv). rewrite Hc in H.
    apply res_bind_ok in H as ([s1 o] & E & H). injection H as <- <-. apply res_bind_ok in E as ([s2 b] & E & H).
    injection H as -> <-. apply with_ue_inv in E as (l1 & u & l2 & u' & out & Hm & (Hu & Hn & Hop) & E & ->). cbn in Hm, Hop.
    assert (ue_id u ∉ G) as Hid by (rewrite Hu; rewrite Ho in Hin; exact (Forall_inv Hin)).
    assert (ue_id u' ∉ G) as Hid'.
    { apply (proj1 (Forall_forall _ _) Hin). pose proof (Hf _ _ _ _ _ E) as [Ei _]. by eapply call_keeps_group. }
    split; cbn; [done| |done|done]. rewrite Hl. destruct Hop as [->|(-> & -> & ->)].
    + by rewrite !of_group_app, !of_group_out.
    + by rewrite of_group_app, of_group_out, app_nil_r.
  - by rewrite C in H.
Qed.

Lemma run_group ops : forall s t s' log, agree s t -> Forall (fun op => in_group op \/ apart op) ops ->
  api_run s ops = Ok (s', log) ->
  exists t', api_run t (filter in_group ops) = Ok (t', filter (fun x => in_group (fst x)) log) /\ agree s' t'.
Proof.
  induction ops as [|op ops IH]; intros s t s' log A Hops H; [injection H as <- <-; by exists t|].
  inversion Hops as [|? ? Hop Hops']; subst. apply res_bind_ok in H as ([s1 x] & E & H).
  apply res_bind_ok in H as ([s2 l] & E2 & H). injection H as <- <-. destruct Hop as [Hop|Hop].
  - destruct (step_in_group s t op s1 x A Hop E) as (t1 & Et & A1).
    destruct (IH s1 t1 s2 l A1 Hops' E2) as (t2 & Et2 & A2).
    exists t2. rewrite !filter_cons_True by done. cbn [api_run]. rewrite Et. cbn [res_bind]. rewrite Et2. done.
  - pose proof (step_apart s t op s1 x A Hop E) as A1.
    destruct (IH s1 t s2 l A1 Hops' E2) as (t2 & Et2 & A2). exists t2.
    assert (~ in_group op).
    { destruct Hop as [Hne Ha]. intros Hg. unfold in_group in Hg. destruct (op_ues op) as [|id k]; [done|].
      inversion Hg; inversion Ha; subst. done. }
    by rewrite !filter_cons_False.
Qed.
End Group.

(** C5: the calls for a group of UEs behave as if there were no others:
    whatever the calls for the others, in any interleaving, leaving them out
    gives the same answers, the same calls of PDCP, F1AP and RRC, and the same
    state of the group, failures of the process apart. *)
Theorem rlc_ues_isolated mode m (G : gset Z) ops s log :
  api_run (rlc_start mode m) ops = Ok (s, log) ->
  Forall (fun op => in_group G op \/ apart G op) ops ->
  exists t, api_run (rlc_start mode m) (filter (in_group G) ops) =
      Ok (t, filter (fun x => in_group G (fst x)) log) /\
    ue_list t = filter (fun u => ue_id u ∈ G) (ue_list s) /\ same_env s t.
Proof.
  intros H Hops. destruct (run_group G ops (rlc_start mode m) (rlc_start mode m) s log) as (t & E & A); [by split|done|done|].
  exists t. split; [done|]. split; apply A.
Qed.

(** C11: whatever the calls, the SRB0 of every UE is served by a TM entity, the
    other SRBs by AM entities and the DRBs by UM or AM entities, the tables
    keep their sizes, and every logical channel leads to a slot of these. *)
Theorem rlc_api_typed mode m ops s log : api_run (rlc_start mode m) ops = Ok (s, log) -> Forall op_typed ops ->
  forall u, u ∈ ue_list s -> ue_typed u /\ forall ch, 0 <= ch <= 32 ->
    exists r, get_rlc_entity_from_lcid u ch = Ok r /\ match r with Some (sl, rb) => kind_ok sl rb | None => True end.
Proof.
  intros H Ht u Hu. pose proof (api_run_typed ops _ _ _ H Ht ltac:(constructor)) as Hs.
  assert (ue_typed u) as T by exact (proj1 (Forall_forall _ _) Hs u Hu). split; [done|].
  intros ch Hch. by apply lcid_entity.
Qed.

(** ** SRB3 *)

Lemma events_fail s u sl evs ev : ev ∈ evs -> (forall l, callback s u sl ev <> Ok l) -> forall acc r,
  fold_res (fun out ev => let* l := callback s u sl ev in Ok (out ++ l)) evs acc <> Ok r.
Proof.
  intros Hev Hf. induction evs as [|x evs IH]; intros acc r; [by apply not_elem_of_nil in Hev|]. cbn [fold_res].
  destruct (callback s u sl x) as [l|] eqn:E; cbn [res_bind]; [|done].
  apply elem_of_cons in Hev as [->|Hev]; [by apply Hf in E|by apply IH].
Qed.

(** C40: whenever the entity of SRB3 confirms an SDU or gives one up while it
    takes a PDU of the MAC, the process ends: the callbacks look for the entity
    among the first two SRBs. *)
Theorem srb3_confirm_exits s ue ch buf u i e e1 e2 :
  list_find (fun u => ue_id u = ue) (ue_list s) = Some (i, u) ->
  get_rlc_entity_from_lcid u ch = Ok (Some (Slot_srb 2, Am e)) ->
  RlcAm.nr_rlc_entity_am_set_time (RlcAm.on_common (fun c => c <| trace := [] |>) e) (nr_rlc_current_time s) = Ok e1 ->
  RlcAm.nr_rlc_entity_am_recv_pdu e1 buf = Ok e2 ->
  (exists mui, sdu_successful_delivery mui ∈ trace (RlcAm.common e2)) \/ max_retx_reached ∈ trace (RlcAm.common e2) ->
  forall s', nr_mac_rlc_data_ind s ue ch buf <> Ok s'.
Proof.
  intros Hf He E1 E2 Hev s' H. unfold nr_mac_rlc_data_ind, with_ue_ in H.
  apply res_bind_ok in H as ([s1 []] & H & _). apply find_ue_some in Hf as (l1 & l2 & Hl & _ & Hu & Hn).
  assert (is_Some (rlc_manager s)) as Hm.
  { unfold with_ue, nr_rlc_manager_get_ue in H. destruct (rlc_manager s); [by eexists|done]. }
  rewrite (with_ue_open s ue _ l1 u l2) in H; [|done|split; [done|split; [done|by left]]].
  rewrite He in H. cbn [res_bind] in H. apply res_bind_ok in H as ([[u' out] x] & H & _). unfold run_rb_, run_rb in H.
  cbn [rb_on_common rb_set_time] in H. rewrite E1 in H. cbn [res_bind rb_recv_pdu] in H. rewrite E2 in H. cbn [res_bind] in H.
  apply res_bind_ok in H as (o & H & _). cbn [rb_common] in H.
  destruct Hev as [[mui Hev]|Hev]; apply (events_fail _ _ _ _ _ Hev) in H; done.
Qed.

(** an SRB sends one SDU, which the peer acknowledges *)
Definition srb_exchange (ue id : Z) : list api_op :=
  [Add_srb ue id (mk_bearer id (Some (srb_Identity id)) None); Srb_recv_sdu 0 ue id [1; 2; 3];
   Mac_data_req 0 ue id 100; Mac_data_ind ue id [0; 1; 0]].
Definition run_state (ops : list api_op) : nr_rlc_t :=
  match api_run (rlc_start NR_RLC_OP_MODE_MONO_GNB None) ops with Ok (s, _) => s | Err _ => rlc_start NR_RLC_OP_MODE_UE None end.

Lemma srb3_confirm_exits_witness :
  (exists r, api_run (rlc_start NR_RLC_OP_MODE_MONO_GNB None) (srb_exchange 5 1) = Ok r) /\
  forall s', nr_mac_rlc_data_ind (run_state (take 3 (srb_exchange 5 3))) 5 3 [0; 1; 0] <> Ok s'.
Proof.
  split; [eexists; vm_compute; reflexivity|].
  eapply (srb3_confirm_exits (run_state (take 3 (srb_exchange 5 3)))).
  - vm_compute. reflexivity.
  - vm_compute. reflexivity.
  - vm_compute. reflexivity.
  - vm_compute. reflexivity.
  - left. exists (-1). vm_compute. left.
Defined.

(** two UEs with a DRB each, their calls interleaved *)
Definition drb_config (id : Z) : NR_RLC_BearerConfig_t :=
  mk_bearer (id + 3) (Some (drb_Identity id)) (Some (RLC_Config_um_Bi (mk_rlc_um 7 (Some 0) (Some 0)))).
Definition two_ues : list api_op :=
  [Add_drb 5 1 (drb_config 1); Activate_srb0 6 true; Add_drb 6 2 (drb_config 2); Data_req 0 5 false 1 0 [1; 2; 3]; Ms_tick;
   Data_req 0 6 false 2 0 [4]; Mac_data_req 0 6 5 10; Mac_data_req 0 5 4 10; Update_id 6 7; Mac_status_ind 5 4; Remove_ue 7].

Lemma rlc_ues_isolated_witness : exists s log, api_run (rlc_start NR_RLC_OP_MODE_UE None) two_ues = Ok (s, log) /\
  exists t, api_run (rlc_start NR_RLC_OP_MODE_UE None) (filter (in_group {[5]}) two_ues) =
      Ok (t, filter (fun x => in_group {[5]} (fst x)) log) /\
    length (filter (in_group {[5]}) two_ues) = 5%nat.
Proof.
  destruct (api_run (rlc_start NR_RLC_OP_MODE_UE None) two_ues) as [[s log]|] eqn:E; [|vm_compute in E; discriminate E].
  exists s, log. split; [reflexivity|].
  destruct (rlc_ues_isolated NR_RLC_OP_MODE_UE None {[5]} two_ues s log E) as (t & Et & _).
  - apply (bool_decide_unpack _). vm_compute. exact I.
  - exists t. split; [exact Et|reflexivity].
Defined.

Lemma rlc_api_typed_witness : exists s log u, api_run (rlc_start NR_RLC_OP_MODE_UE None) (take 8 two_ues) = Ok (s, log) /\
  u ∈ ue_list s /\ ue_typed u /\ exists r, get_rlc_entity_from_lcid u 4 = Ok r.
Proof.
  destruct (api_run (rlc_start NR_RLC_OP_MODE_UE None) (take 8 two_ues)) as [[s log]|] eqn:E; [|vm_compute in E; discriminate E].
  destruct (ue_list s) as [|u l] eqn:Eu; [exfalso; vm_compute in E; injection E as <- <-; vm_compute in Eu; discriminate Eu|].
  exists s, log, u. split; [reflexivity|]. assert (u ∈ ue_list s) as Hu by (rewrite Eu; left). split; [exact Hu|].
  destruct (rlc_api_typed _ _ _ _ _ E) with (u := u) as [T H].
  - unfold two_ues. cbn [take]. repeat constructor; vm_compute; try discriminate; try (split; discriminate).
  - exact Hu.
  - split; [exact T|]. destruct (H 4) as (r & Er & _); [lia|]. exists r. exact Er.
Defined.
