(* ===== verification/RlcChannel.v ===== *)
(** * A UM bearer through the interface of the RLC

    What the functions of nr_rlc_oai_api.c do for a logical channel that is
    served by a UM entity: they find its slot, set its time, run the operation
    and give what it delivers to PDCP. *)
From S2P Require Import Prelude RlcCommon RlcUm RlcUmLink RlcConfig RlcApi.

(** ** Time and UM entities without a reassembly timer *)

Lemma um_set_time_idle e t : t_reassembly_start e = 0 ->
  nr_rlc_entity_um_set_time e t = Ok (e <| t_current := t |>).
Proof.
  intros H. unfold nr_rlc_entity_um_set_time, check_t_reassembly.
  change (t_reassembly_start (e <| t_current := t |>)) with (t_reassembly_start e). by rewrite H.
Qed.

Lemma um_wf_time e t : um_wf e -> um_wf (e <| t_current := t |>).
Proof. intros []. by split. Qed.

Lemma pipe_time es er acc d t t' : um_pipe es er acc d ->
  um_pipe (es <| t_current := t |>) (er <| t_current := t' |>) acc d.
Proof. intros [W I ? ? ? ? ?]. split; try done; [by apply um_wf_time|]. destruct I as [C ? ? ? ? ? ?]. split; try done. by destruct C. Qed.

Lemma pipe_common es er acc d c : um_pipe es er acc d -> um_pipe es (er <| common := c |>) acc d.
Proof. intros [W I ? ? ? ? ?]. split; try done. by apply um_in_order_common. Qed.

Lemma res_bind_timer {A} (m : res A) (f : A -> res (nr_rlc_entity_um_t * list Z * Z)) v e' b n :
  (forall a, m = Ok a -> f a = Ok (e', b, n) -> t_reassembly_start e' = v) ->
  res_bind m f = Ok (e', b, n) -> t_reassembly_start e' = v.
Proof. intros H. destruct m as [a|]; [|done]. cbn. by apply H. Qed.

Lemma um_send_timer now e g buf e' b n :
  send_segment now e g buf = Ok (e', b, n) -> t_reassembly_start e' = t_reassembly_start e.
Proof.
  unfold send_segment. set (e1 := if _ : bool then _ else e).
  assert (t_reassembly_start e1 = t_reassembly_start e) as <- by (unfold e1; by case_match).
  apply res_bind_timer. intros [b1 n1] _. apply res_bind_timer. intros c _.
  apply res_bind_timer. intros [h x] _. by intros [= <- _ _].
Qed.

Lemma um_generate_timer now e buf e' b n :
  nr_rlc_entity_um_generate_pdu now e buf = Ok (e', b, n) -> t_reassembly_start e' = t_reassembly_start e.
Proof.
  unfold nr_rlc_entity_um_generate_pdu, generate_tx_pdu. destruct (tx_list e) as [|g next]; [by intros [= <- _ _]|].
  case_match; [by intros [= <- _ _]|].
  set (e1 := match next with [] => _ | _ => _ end).
  assert (t_reassembly_start e1 = t_reassembly_start e) as <- by (unfold e1; by destruct next).
  apply res_bind_timer. intros s _. set (e2 := add_bs_tx _ _).
  change (t_reassembly_start e1) with (t_reassembly_start e2). case_match; [|apply um_send_timer].
  apply res_bind_timer. intros [e3 r] E.
  assert (t_reassembly_start e3 = t_reassembly_start e2) as <-.
  { unfold resegment in E. destruct (get_sdu _ _); [|done]. cbn [res_bind] in E. case_match; by injection E as <- _. }
  destruct r as [[g1 g2]|]; [|by intros [= <- _ _]]. intros Hs. apply um_send_timer in Hs. rewrite Hs.
  match goal with |- context [match ?x with Some _ => _ | None => _ end] => by destruct x end.
Qed.

Lemma um_recv_sdu_timer now e sdu id e' :
  nr_rlc_entity_um_recv_sdu now e sdu id = Ok e' -> t_reassembly_start e' = t_reassembly_start e.
Proof.
  unfold nr_rlc_entity_um_recv_sdu. case_match; [done|].
  set (e1 := if (_ && _) : bool then _ else _).
  assert (t_reassembly_start e1 = t_reassembly_start e) as <- by (unfold e1; by case_match).
  case_match; [by intros [= <-]|]. destruct (nr_rlc_new_sdu _ _ _) as [h g].
  destruct (nr_rlc_sdu_segment_list_append _ _ _) as [[l t]|]; [|done]. cbn [res_bind].
  destruct (set_time_of_arrival _ _ _); [|done]. cbn [res_bind]. by intros [= <-].
Qed.

(** ** A logical channel on a DRB *)

(** the entity of the DRB with index [j] serves the channel [lcid] of UE [id] *)
Record channel (s : nr_rlc_t) (id lcid : Z) (j : nat) (e : nr_rlc_entity_um_t) : Prop := {
  ch_mode : is_Some (rlc_manager s);
  ch_lcid : 1 <= lcid;
  ch_j : (j < Z.to_nat MAX_DRBS_PER_UE)%nat;
  ch_trace : trace (common e) = [];
  ch_ue : exists i u, list_find (fun u => ue_id u = id) (ue_list s) = Some (i, u) /\
    lcid2rb u !! Z.to_nat (lcid - 1) = Some (NR_LCID_DRB (Z.of_nat j + 1)) /\ drb u !! j = Some (Some (Um e)) }.

Definition no_events (e : nr_rlc_entity_um_t) : nr_rlc_entity_um_t := on_common (fun c => c <| trace := [] |>) e.

Lemma no_events_id e : trace (common e) = [] -> no_events e = e.
Proof.
  intros H. unfold no_events, on_common. destruct e as [c ? ? ? ? ? ? ? ? ? ? ? ? ? ? ? ? ? ? ? ?]. cbn in *.
  destruct c; cbn in *. by subst.
Qed.

Lemma lcid_drb u lcid j e : 1 <= lcid -> lcid2rb u !! Z.to_nat (lcid - 1) = Some (NR_LCID_DRB (Z.of_nat j + 1)) ->
  drb u !! j = Some (Some (Um e)) -> get_rlc_entity_from_lcid u lcid = Ok (Some (Slot_drb j, Um e)).
Proof.
  intros Hl Hr Hd. unfold get_rlc_entity_from_lcid, rlc_lcid2rb. destruct (Z.eqb_spec lcid 0); [lia|].
  destruct (Z.ltb_spec lcid 1); [lia|]. unfold arr_get. rewrite Hr. cbn [of_option res_bind slot_of_rb].
  destruct (Z.ltb_spec (Z.of_nat j + 1) 1); [lia|]. cbn [res_bind].
  replace (Z.to_nat (Z.of_nat j + 1 - 1)) with j by lia. unfold slot_entity. cbn. unfold arr_get. by rewrite Hd.
Qed.

(** what the functions of the interface find, and what an operation leaves *)
Lemma channel_open s id lcid j e : channel s id lcid j e -> exists u,
  ue_id u = id /\
  get_rlc_entity_from_lcid u lcid = Ok (Some (Slot_drb j, Um e)) /\
  slot_get u (Slot_drb j) = Ok (Some (Um e)) /\
  forall (B : Type) (f : nr_rlc_entity -> res (nr_rlc_entity * B)) g e' b out,
    g u = run_rb s u (Slot_drb j) (Um e) f -> f (Um e) = Ok (Um e', b) ->
    fold_res (fun out ev => let* l := callback s u (Slot_drb j) ev in Ok (out ++ l)) (trace (common e')) [] = Ok out ->
    exists s', with_ue s id g = Ok (s', b) /\ channel s' id lcid j (no_events e') /\
      rlc_trace s' = rlc_trace s ++ out /\ rlc_manager s' = rlc_manager s.
Proof.
  intros [[mode Hm] Hl Hj Ht (i & u & Hf & Hr & Hd)]. exists u.
  pose proof Hf as (Hi & Hu & Hfirst)%list_find_Some.
  assert (slot_get u (Slot_drb j) = Ok (Some (Um e))) as Hsl by (cbn; unfold arr_get; by rewrite Hd).
  split; [done|]. split; [by apply lcid_drb|split; [done|]].
  intros B f g e' b out Eg E Ho. unfold with_ue, nr_rlc_manager_get_ue. rewrite Hm, Hf. cbn [res_bind].
    rewrite Eg. unfold run_rb.
    replace (rb_on_common (fun c => c <| trace := [] |>) (Um e)) with (Um e)
      by (cbn; f_equal; symmetry; by apply no_events_id).
    rewrite E. cbn [res_bind rb_common]. rewrite Ho. cbn [res_bind slot_set rb_on_common].
    rewrite arr_set_ok by (by eapply lookup_lt_Some). cbn [res_bind]. eexists. split; [done|]. split; [|done].
    split; cbn; [by eexists|done|done|done|].
    exists i, (u <| drb := <[j := Some (Um (no_events e'))]> (drb u) |>). split_and!; [|done|].
    + apply list_find_Some. split_and!; [apply list_lookup_insert_eq; by eapply lookup_lt_Some|done|].
      intros k y Hk Hlt. rewrite list_lookup_insert_ne in Hk by lia. by apply (Hfirst k y).
    + cbn. apply list_lookup_insert_eq. by eapply lookup_lt_Some.
Qed.

(** the bytes that the RLC reports for the channel *)
Lemma channel_status s id lcid j e : channel s id lcid j e -> t_reassembly_start e = 0 ->
  exists s' t, nr_mac_rlc_status_ind s id lcid = Ok (s', bs_tx_size (bstatus (common e))) /\
    channel s' id lcid j (e <| t_current := t |>) /\ rlc_trace s' = rlc_trace s /\ rlc_manager s' = rlc_manager s.
Proof.
  intros C Htm. destruct (channel_open _ _ _ _ _ C) as (u & _ & Erb & _ & H). unfold nr_mac_rlc_status_ind.
  match goal with |- context [with_ue s id ?g] => destruct (H Z (fun rb => let* rb := rb_set_time rb (nr_rlc_current_time s) in
      let* b := rb_buffer_status rb (1000 * 1000) in Ok (rb, bs_status_size b + bs_retx_size b + bs_tx_size b)) g
      (e <| t_current := nr_rlc_current_time s |>) (bs_tx_size (bstatus (common e))) [])
    as (s' & E & C' & T & M) end.
  { by rewrite Erb. }
  { cbn [rb_set_time]. rewrite um_set_time_idle by done. cbn. by rewrite Z.add_0_l. }
  { cbn. by rewrite (ch_trace _ _ _ _ _ C). }
  exists s', (nr_rlc_current_time s). split; [exact E|]. rewrite app_nil_r in T.
  rewrite no_events_id in C' by apply C. done.
Qed.

(** the room for SDUs *)
Lemma channel_space s id lcid j e : channel s id lcid j e ->
  exists s', nr_rlc_get_available_tx_space s id lcid = Ok (s', nr_rlc_entity_um_available_tx_space e) /\ channel s' id lcid j e.
Proof.
  intros [[mode Hm] Hl Hj Ht (i & u & Hf & Hr & Hd)].
  unfold nr_rlc_get_available_tx_space, with_ue, nr_rlc_manager_get_ue. rewrite Hm, Hf. cbn [res_bind].
  rewrite (lcid_drb u lcid j e) by done. cbn [res_bind]. eexists. split; [done|].
  pose proof Hf as (Hi & _)%list_find_Some. rewrite list_insert_id, app_nil_r by done.
  split; cbn; [by eexists|done|done|done|]. by exists i, u.
Qed.

(** an SDU from PDCP *)
Lemma channel_sdu now s id lcid j e sdu mui e' : channel s id lcid j e -> t_reassembly_start e = 0 ->
  nr_rlc_entity_um_recv_sdu now (e <| t_current := nr_rlc_current_time s |>) sdu mui = Ok e' ->
  trace (common e') = [] ->
  exists s', nr_rlc_data_req now s id false (Z.of_nat j + 1) mui sdu = Ok s' /\ channel s' id lcid j e' /\
    rlc_trace s' = rlc_trace s /\ rlc_manager s' = rlc_manager s.
Proof.
  intros C Htm Er Ht. destruct (channel_open _ _ _ _ _ C) as (u & _ & _ & Esl & H).
  unfold nr_rlc_data_req, with_ue_, rb_id_slot. pose proof (ch_j _ _ _ _ _ C) as Hj. unfold MAX_DRBS_PER_UE in *.
  destruct (Z.leb_spec 1 (Z.of_nat j + 1)); [|lia]. destruct (Z.leb_spec (Z.of_nat j + 1) 32); [|lia]. cbn [andb].
  replace (Z.to_nat (Z.of_nat j + 1 - 1)) with j by lia.
  match goal with |- context [with_ue s id ?g] => destruct (H unit (fun rb => let* rb :=
      (let* rb := rb_set_time rb (nr_rlc_current_time s) in rb_recv_sdu now rb sdu mui) in Ok (rb, tt)) g e' tt [])
    as (s' & E & C' & T & M) end.
  { unfold slot_entity. by rewrite Esl. }
  { cbn [rb_set_time]. rewrite um_set_time_idle by done. cbn [res_bind rb_recv_sdu]. by rewrite Er. }
  { by rewrite Ht. }
  exists s'. rewrite E. cbn [res_bind]. split; [done|]. rewrite app_nil_r in T. by rewrite no_events_id in C'.
Qed.

(** a request of the MAC *)
Lemma channel_pdu now s id lcid j e n e' buf' k : channel s id lcid j e -> t_reassembly_start e = 0 ->
  nr_rlc_entity_um_generate_pdu now (e <| t_current := nr_rlc_current_time s |>) (replicate (Z.to_nat n) 0) =
    Ok (e', buf', k) ->
  trace (common e') = [] ->
  exists s', nr_mac_rlc_data_req now s id lcid n = Ok (s', take (Z.to_nat k) buf') /\ channel s' id lcid j e' /\
    rlc_trace s' = rlc_trace s /\ rlc_manager s' = rlc_manager s.
Proof.
  intros C Htm Er Ht. destruct (channel_open _ _ _ _ _ C) as (u & _ & Erb & _ & H). unfold nr_mac_rlc_data_req.
  match goal with |- context [with_ue s id ?g] => destruct (H (list Z) (fun rb =>
      let* rb := rb_set_time rb (nr_rlc_current_time s) in rb_generate_pdu now rb n) g e' (take (Z.to_nat k) buf') [])
    as (s' & E & C' & T & M) end.
  { by rewrite Erb. }
  { cbn [rb_set_time]. rewrite um_set_time_idle by done. cbn [res_bind]. unfold rb_generate_pdu. by rewrite Er. }
  { by rewrite Ht. }
  exists s'. split; [exact E|]. rewrite app_nil_r in T. by rewrite no_events_id in C'.
Qed.

(** the callbacks of SDUs delivered at a UE *)
Lemma callbacks_ind s u j d : rlc_manager s = Some NR_RLC_OP_MODE_UE -> forall acc,
  fold_res (fun out ev => let* l := callback s u (Slot_drb j) ev in Ok (out ++ l)) (deliver_sdu <$> d) acc =
  Ok (acc ++ (Pdcp_data_ind (ue_id u) false false (Z.of_nat j + 1) <$> d)).
Proof.
  intros Hue.
  assert (Hc : forall x, callback s u (Slot_drb j) (deliver_sdu x) =
    Ok [Pdcp_data_ind (ue_id u) false false (Z.of_nat j + 1) x]).
  { intros x. unfold callback, rlc_deliver_sdu, nr_rlc_manager_get_gnb_flag. cbn [rb_of_slot]. rewrite Hue.
    rewrite bool_decide_eq_false_2 by naive_solver. done. }
  induction d as [|x d IH]; intros acc; [by rewrite app_nil_r|].
  rewrite !fmap_cons. cbn [fold_res]. rewrite Hc. cbn [res_bind]. rewrite IH, <- app_assoc. done.
Qed.

(** a PDU from the MAC of a UE: the SDUs it completes go to PDCP *)
Lemma channel_ind s id lcid j e pdu e' d : channel s id lcid j e -> t_reassembly_start e = 0 ->
  rlc_manager s = Some NR_RLC_OP_MODE_UE ->
  nr_rlc_entity_um_recv_pdu (e <| t_current := nr_rlc_current_time s |>) pdu = Ok e' ->
  trace (common e') = deliver_sdu <$> d ->
  exists s', nr_mac_rlc_data_ind s id lcid pdu = Ok s' /\ channel s' id lcid j (no_events e') /\
    rlc_trace s' = rlc_trace s ++ (Pdcp_data_ind id false false (Z.of_nat j + 1) <$> d) /\
    rlc_manager s' = rlc_manager s.
Proof.
  intros C Htm Hue Er Ht. destruct (channel_open _ _ _ _ _ C) as (u & Hid & Erb & _ & H).
  unfold nr_mac_rlc_data_ind, with_ue_.
  match goal with |- context [with_ue s id ?g] => destruct (H unit (fun rb => let* rb :=
      (let* rb := rb_set_time rb (nr_rlc_current_time s) in rb_recv_pdu rb pdu) in Ok (rb, tt)) g e' tt
      (Pdcp_data_ind id false false (Z.of_nat j + 1) <$> d)) as (s' & E & C' & T & M) end.
  { by rewrite Erb. }
  { cbn [rb_set_time]. rewrite um_set_time_idle by done. cbn [res_bind rb_recv_pdu]. by rewrite Er. }
  { rewrite Ht, (callbacks_ind s u j d Hue), Hid. done. }
  exists s'. rewrite E. cbn [res_bind]. done.
Qed.
