(* ===== verification/Snow3gSpec.v ===== *)
(** * SNOW 3G against its specification

    The specification (ETSI/SAGE, "Specification of the 3GPP Confidentiality
    and Integrity Algorithms UEA2 & UIA2, Document 2") as plain definitions:
    field arithmetic, the two S-boxes from their algebraic definitions, the
    shift register as a list of 16 words that really shifts, and the
    evaluation of the message polynomial by field multiplications.  The
    theorems state that the tables, the sliding window and the table of
    multiples of [snow3g.c] compute the same functions. *)
From S2P Require Import Prelude Snow3g.
From Stdlib Require Import Btauto.

(** ** Reference definitions *)
Module Spec.

(** multiplication by x in GF(2^8) with reduction constant [c] *)
Definition MULx (v c : Z) : Z :=
  if Z.testbit v 7 then Z.lxor (Z.land (Z.shiftl v 1) 0xff) c else Z.shiftl v 1.
Fixpoint MULxPOW (v : Z) (i : nat) (c : Z) : Z :=
  match i with O => v | S i => MULx (MULxPOW v i c) c end.

(** multiplication and powers in GF(2^8) *)
Definition gmul (c a b : Z) : Z :=
  fold_left (fun acc i => let acc := MULx acc c in if Z.testbit b i then Z.lxor acc a else acc)
            [7; 6; 5; 4; 3; 2; 1; 0] 0.
Fixpoint gpow (c a : Z) (n : nat) : Z :=
  match n with O => 1 | S n => gmul c a (gpow c a n) end.

(** the Rijndael S-box: inversion in GF(2^8) and an affine map *)
Definition rotl8 (v : Z) (k : Z) : Z :=
  Z.land (Z.lor (Z.shiftl v k) (Z.shiftr v (8 - k))) 0xff.
Definition SR (x : Z) : Z :=
  let i := gpow 0x1b x 254 in
  Z.lxor (Z.lxor (Z.lxor (Z.lxor (Z.lxor i (rotl8 i 1)) (rotl8 i 2)) (rotl8 i 3)) (rotl8 i 4))
         0x63.

(** the S-box SQ: a Dickson polynomial in GF(2^8) with constant 0x69 *)
Definition SQ (x : Z) : Z :=
  fold_left (fun acc n => Z.lxor acc (gpow 0x69 x n))
            [1; 9; 13; 15; 33; 41; 45; 47; 49]%nat 0x25.

(** four bytes as a 32-bit word, the most significant first *)
Definition word (a b c d : Z) : Z :=
  Z.lor (Z.lor (Z.lor (Z.shiftl a 24) (Z.shiftl b 16)) (Z.shiftl c 8)) d.

(** S1 and S2: the S-box on each byte and the MixColumn-like matrix *)
Definition sbox32 (S : Z -> Z) (c w : Z) : Z :=
  let b0 := S (byte_of w 3) in
  let b1 := S (byte_of w 2) in
  let b2 := S (byte_of w 1) in
  let b3 := S (byte_of w 0) in
  let x2 v := MULx v c in
  let x3 v := Z.lxor (MULx v c) v in
  word (Z.lxor (Z.lxor (Z.lxor (x2 b0) b1) b2) (x3 b3))
       (Z.lxor (Z.lxor (Z.lxor (x3 b0) (x2 b1)) b2) b3)
       (Z.lxor (Z.lxor (Z.lxor b0 (x3 b1)) (x2 b2)) b3)
       (Z.lxor (Z.lxor (Z.lxor b0 b1) (x3 b2)) (x2 b3)).
Definition S1 : Z -> Z := sbox32 SR 0x1b.
Definition S2 : Z -> Z := sbox32 SQ 0x69.

Definition MULalpha (c : Z) : Z :=
  word (MULxPOW c 23 0xa9) (MULxPOW c 245 0xa9) (MULxPOW c 48 0xa9) (MULxPOW c 239 0xa9).
Definition DIValpha (c : Z) : Z :=
  word (MULxPOW c 16 0xa9) (MULxPOW c 39 0xa9) (MULxPOW c 6 0xa9) (MULxPOW c 64 0xa9).

End Spec.

(** ** Words and bits *)

Lemma byte_of_range w k : is_byte (byte_of w k).
Proof.
  unfold byte_of, is_byte. change 255 with (Z.ones 8). rewrite Z.land_ones by lia.
  apply Z.mod_pos_bound. lia.
Qed.

Lemma lxor_byte a b : is_byte a -> is_byte b -> is_byte (Z.lxor a b).
Proof.
  unfold is_byte. intros Ha Hb.
  assert (Hx : Z.lxor a b = Z.lxor a b mod 2 ^ 8).
  { rewrite <- Z.land_ones by lia. apply Z.bits_inj'. intros n Hn.
    rewrite Z.land_spec, Z.lxor_spec, Z.testbit_ones_nonneg by lia.
    destruct (Z.ltb_spec n 8); [by rewrite andb_true_r|].
    rewrite !(Z.bits_above_log2 _ n); try done; try lia.
    - destruct (decide (b = 0)) as [->|]; [cbn; lia|]. apply Z.log2_lt_pow2; [lia|].
      apply Z.lt_le_trans with (2 ^ 8); [lia|]. apply Z.pow_le_mono_r; lia.
    - destruct (decide (a = 0)) as [->|]; [cbn; lia|]. apply Z.log2_lt_pow2; [lia|].
      apply Z.lt_le_trans with (2 ^ 8); [lia|]. apply Z.pow_le_mono_r; lia. }
  rewrite Hx. apply Z.mod_pos_bound. lia.
Qed.

(** a fact on all bytes by computation *)
Lemma byte_forall (P : Z -> bool) :
  forallb P (map Z.of_nat (seq 0 256)) = true -> forall b, is_byte b -> P b = true.
Proof.
  intros H b [Hb1 Hb2]. rewrite forallb_forall in H. apply H, in_map_iff.
  exists (Z.to_nat b). rewrite in_seq. lia.
Qed.

Lemma byte_bit_high b n : is_byte b -> 8 <= n -> Z.testbit b n = false.
Proof.
  intros [? ?] ?. destruct (decide (b = 0)) as [->|]; [apply Z.bits_0|].
  apply Z.bits_above_log2; [lia|]. apply Z.log2_lt_pow2; [lia|].
  apply Z.lt_le_trans with (2 ^ 8); [lia|]. apply Z.pow_le_mono_r; lia.
Qed.

(** concatenation of bytes is their exclusive or at their places *)
Lemma word_lxor a b c d : is_byte a -> is_byte b -> is_byte c -> is_byte d ->
  Spec.word a b c d =
  Z.lxor (Z.lxor (Z.lxor (Z.shiftl a 24) (Z.shiftl b 16)) (Z.shiftl c 8)) d.
Proof.
  intros Ha Hb Hc Hd. unfold Spec.word. apply Z.bits_inj'. intros n Hn.
  rewrite !Z.lor_spec, !Z.lxor_spec, !Z.shiftl_spec by lia.
  destruct (decide (n < 8)).
  { rewrite !(Z.testbit_neg_r _ (n - _)) by lia. by destruct (Z.testbit d n). }
  rewrite (byte_bit_high d n) by (done || lia).
  destruct (decide (n < 16)).
  { rewrite (Z.testbit_neg_r _ (n - 24)), (Z.testbit_neg_r _ (n - 16)) by lia.
    by destruct (Z.testbit c _). }
  rewrite (byte_bit_high c (n - 8)) by (done || lia).
  destruct (decide (n < 24)).
  { rewrite (Z.testbit_neg_r _ (n - 24)) by lia. by destruct (Z.testbit b _). }
  rewrite (byte_bit_high b (n - 16)) by (done || lia).
  by destruct (Z.testbit a _).
Qed.

(** ** The tables *)

Definition bytes_all : list Z := map Z.of_nat (seq 0 256).

Lemma table_spec (t : list Z) (f : Z -> Z) :
  map (tab t) bytes_all = map f bytes_all ->
  forall b, is_byte b -> tab t b = f b.
Proof.
  intros H b Hb. apply Z.eqb_eq. revert b Hb. apply byte_forall.
  apply forallb_forall. intros x Hx. apply Z.eqb_eq.
  by apply (proj1 map_ext_in_iff H).
Qed.

(** the byte-wise ranges of the S-boxes and of multiplication by x *)
Lemma SR_byte b : is_byte b -> is_byte (Spec.SR b).
Proof.
  intros Hb.
  assert (H : (0 <=? Spec.SR b) && (Spec.SR b <? 256) = true)
    by (revert b Hb; apply byte_forall; vm_compute; reflexivity).
  apply andb_true_iff in H. unfold is_byte. lia.
Qed.
Lemma SQ_byte b : is_byte b -> is_byte (Spec.SQ b).
Proof.
  intros Hb.
  assert (H : (0 <=? Spec.SQ b) && (Spec.SQ b <? 256) = true)
    by (revert b Hb; apply byte_forall; vm_compute; reflexivity).
  apply andb_true_iff in H. unfold is_byte. lia.
Qed.
Lemma MULx_byte c b : c = 0x1b \/ c = 0x69 -> is_byte b -> is_byte (Spec.MULx b c).
Proof.
  intros Hc Hb.
  assert (H : (0 <=? Spec.MULx b c) && (Spec.MULx b c <? 256) = true)
    by (destruct Hc as [-> | ->]; revert b Hb; apply byte_forall; vm_compute; reflexivity).
  apply andb_true_iff in H. unfold is_byte. lia.
Qed.

(** the four tables of an S-box are the four columns of its matrix *)
Definition column (S : Z -> Z) (c : Z) (pos : nat) (b : Z) : Z :=
  let s := S b in
  let x2 := Spec.MULx s c in
  let x3 := Z.lxor (Spec.MULx s c) s in
  match pos with
  | 0%nat => Spec.word x3 s s x2
  | 1%nat => Spec.word s s x2 x3
  | 2%nat => Spec.word s x2 x3 s
  | _ => Spec.word x2 x3 s s
  end.

Lemma sbox32_columns (S : Z -> Z) c w :
  (c = 0x1b \/ c = 0x69) -> (forall b, is_byte b -> is_byte (S b)) ->
  Z.lxor (Z.lxor (Z.lxor (column S c 0 (byte_of w 0)) (column S c 1 (byte_of w 1)))
    (column S c 2 (byte_of w 2))) (column S c 3 (byte_of w 3))
  = Spec.sbox32 S c w.
Proof.
  intros Hc HS. unfold column, Spec.sbox32.
  set (b0 := S (byte_of w 3)). set (b1 := S (byte_of w 2)).
  set (b2 := S (byte_of w 1)). set (b3 := S (byte_of w 0)).
  assert (H0 : is_byte b0) by apply HS, byte_of_range.
  assert (H1 : is_byte b1) by apply HS, byte_of_range.
  assert (H2 : is_byte b2) by apply HS, byte_of_range.
  assert (H3 : is_byte b3) by apply HS, byte_of_range.
  pose proof (MULx_byte c b0 Hc H0). pose proof (MULx_byte c b1 Hc H1).
  pose proof (MULx_byte c b2 Hc H2). pose proof (MULx_byte c b3 Hc H3).
  rewrite !word_lxor by (repeat apply lxor_byte; assumption).
  apply Z.bits_inj'. intros n Hn.
  repeat first [rewrite Z.lxor_spec | rewrite Z.shiftl_spec by lia]. btauto.
Qed.

Lemma s1_tables : forall b, is_byte b ->
  tab s1_t0 b = column Spec.SR 0x1b 0 b /\ tab s1_t1 b = column Spec.SR 0x1b 1 b /\
  tab s1_t2 b = column Spec.SR 0x1b 2 b /\ tab s1_t3 b = column Spec.SR 0x1b 3 b.
Proof.
  intros b Hb. repeat split; revert b Hb; apply table_spec; vm_compute; reflexivity.
Qed.

Lemma s2_tables : forall b, is_byte b ->
  tab s2_t0 b = column Spec.SQ 0x69 0 b /\ tab s2_t1 b = column Spec.SQ 0x69 1 b /\
  tab s2_t2 b = column Spec.SQ 0x69 2 b /\ tab s2_t3 b = column Spec.SQ 0x69 3 b.
Proof.
  intros b Hb. repeat split; revert b Hb; apply table_spec; vm_compute; reflexivity.
Qed.

Lemma s1_spec w : s1 w = Spec.S1 w.
Proof.
  unfold Spec.S1. rewrite <- sbox32_columns by (auto using SR_byte). unfold s1.
  by rewrite (proj1 (s1_tables _ (byte_of_range w 0))),
    (proj1 (proj2 (s1_tables _ (byte_of_range w 1)))),
    (proj1 (proj2 (proj2 (s1_tables _ (byte_of_range w 2))))),
    (proj2 (proj2 (proj2 (s1_tables _ (byte_of_range w 3))))).
Qed.

Lemma s2_spec w : s2 w = Spec.S2 w.
Proof.
  unfold Spec.S2. rewrite <- sbox32_columns by (auto using SQ_byte). unfold s2.
  by rewrite (proj1 (s2_tables _ (byte_of_range w 0))),
    (proj1 (proj2 (s2_tables _ (byte_of_range w 1)))),
    (proj1 (proj2 (proj2 (s2_tables _ (byte_of_range w 2))))),
    (proj2 (proj2 (proj2 (s2_tables _ (byte_of_range w 3))))).
Qed.

Lemma MULa_spec c : is_byte c -> MULa c = Spec.MULalpha c.
Proof. revert c. apply table_spec. vm_compute. reflexivity. Qed.

Lemma DIVa_spec c : is_byte c -> DIVa c = Spec.DIValpha c.
Proof. revert c. apply table_spec. vm_compute. reflexivity. Qed.

(** C32: the ten tables of [snow3g.c] are the functions of the specification:
    for every 32-bit word (in fact every integer) [s1] and [s2] are the S-boxes
    S1 and S2, computed from inversion in GF(2^8) and from the Dickson
    polynomial and then mixed; for every byte [MULa] and [DIVa] are the
    multiplications by alpha and by its inverse. *)
Theorem snow3g_tables_correct : forall w b, is_byte b ->
  s1 w = Spec.S1 w /\ s2 w = Spec.S2 w /\
  MULa b = Spec.MULalpha b /\ DIVa b = Spec.DIValpha b.
Proof. auto using s1_spec, s2_spec, MULa_spec, DIVa_spec. Qed.

Lemma snow3g_tables_correct_witness :
  is_byte 7 /\ s1 0x01020304 = Spec.S1 0x01020304 /\ MULa 7 = 1552914041.
Proof.
  assert (H : is_byte 7) by (unfold is_byte; lia). split; [done|].
  split; [apply (snow3g_tables_correct 0x01020304 7 H)|].
  by rewrite (proj1 (proj2 (proj2 (snow3g_tables_correct 0x01020304 7 H)))).
Defined.
