(* ===== verification/Snow3gLfsr.v ===== *)
(** * The shift register of SNOW 3G and the ciphering function

    The generator of the specification shifts a list of 16 words; [snow3g.c]
    slides a window over an array of 32 words.  The relation [rep] ties the
    two; the key stream of the code is the one of the specification, and
    ciphering is its exclusive or with the data, hence its own inverse. *)
From S2P Require Import Prelude Snow3g Snow3gSpec.

(** ** The shift register *)

(** the generator of the specification: 16 words that shift, three registers *)
Record generator := mk_gen { lfsr : list Z; R1 : Z; R2 : Z; R3 : Z }.

(** word [i] of the register *)
Definition reg (g : generator) (i : nat) : Z := nth i (lfsr g) 0.

Definition feedback (g : generator) : Z :=
  let s0 := reg g 0 in
  let s11 := reg g 11 in
  Z.lxor (Z.lxor (Z.lxor (Z.lxor
    (Spec.word (byte_of s0 2) (byte_of s0 1) (byte_of s0 0) 0)
    (Spec.MULalpha (byte_of s0 3))) (reg g 2))
    (Spec.word 0 (byte_of s11 3) (byte_of s11 2) (byte_of s11 1)))
    (Spec.DIValpha (byte_of s11 0)).

Definition shift_in (g : generator) (v : Z) : generator :=
  mk_gen (drop 1 (lfsr g) ++ [v]) (R1 g) (R2 g) (R3 g).

Definition clock_machine (g : generator) : Z * generator :=
  let f := Z.lxor (u32 (reg g 15 + R1 g)) (R2 g) in
  let r := u32 (R2 g + Z.lxor (R3 g) (reg g 5)) in
  (f, mk_gen (lfsr g) r (Spec.S1 (R1 g)) (Spec.S2 (R2 g))).

Fixpoint init_mode (n : nat) (g : generator) : generator :=
  match n with
  | O => g
  | S n => let '(f, g) := clock_machine g in
           init_mode n (shift_in g (Z.lxor (feedback g) f))
  end.

Definition load_key (k iv : list Z) : generator :=
  let w l i := Spec.word (nth i l 0) (nth (i + 1) l 0) (nth (i + 2) l 0) (nth (i + 3) l 0) in
  mk_gen (init_words (w k 0%nat) (w k 4%nat) (w k 8%nat) (w k 12%nat)
                     (w iv 0%nat) (w iv 4%nat) (w iv 8%nat) (w iv 12%nat)) 0 0 0.

Definition gen_init (k iv : list Z) : generator :=
  let g := init_mode 32 (load_key k iv) in
  let '(_, g) := clock_machine g in
  shift_in g (feedback g).

Fixpoint gen_words (n : nat) (g : generator) : list Z :=
  match n with
  | O => []
  | S n => let '(f, g') := clock_machine g in
           Z.lxor f (reg g' 0) :: gen_words n (shift_in g' (feedback g'))
  end.

(** the first [n] words of the key stream for a key and an initial vector *)
Definition Spec_keystream (k iv : list Z) (n : nat) : list Z := gen_words n (gen_init k iv).

(** the window of the array holds the register, and the words before the
    window have a copy 16 places further *)
Record rep (s : snow3g_t) (g : generator) : Prop := mk_rep {
  rep_sp : 0 <= sp s < 16;
  rep_len : length (_s s) = 32%nat;
  rep_regs : r1 s = R1 g /\ r2 s = R2 g /\ r3 s = R3 g;
  rep_lfsr : take 16 (drop (Z.to_nat (sp s)) (_s s)) = lfsr g;
  rep_copy : take (Z.to_nat (sp s)) (_s s) = take (Z.to_nat (sp s)) (drop 16 (_s s)) }.

Lemma rep_get s g i : rep s g -> 0 <= i < 16 -> s_get s i = Ok (reg g (Z.to_nat i)).
Proof.
  intros [Hp Hl _ Hr _] Hi. unfold s_get, reg. destruct (_ <? _) eqn:E; [lia|].
  rewrite <- Hr, nth_lookup, lookup_take_lt, lookup_drop by lia.
  replace (Z.to_nat (sp s + i)) with (Z.to_nat (sp s) + Z.to_nat i)%nat by lia.
  destruct (lookup_lt_is_Some_2 (_s s) (Z.to_nat (sp s) + Z.to_nat i)) as [x ->]; [lia|done].
Qed.

Lemma s_set_ok s i v : 0 <= sp s + i < Z.of_nat (length (_s s)) ->
  s_set s i v = Ok (mk_snow3g (<[Z.to_nat (sp s + i) := v]> (_s s)) (sp s) (r1 s) (r2 s) (r3 s)).
Proof. intros. unfold s_set. destruct (_ || _) eqn:E; [apply orb_true_iff in E; lia|done]. Qed.

(** a word written at both places and the window moved by one *)
Lemma window_push (l : list Z) p v :
  (p < 16)%nat -> length l = 32%nat -> take p l = take p (drop 16 l) ->
  let l' := <[(16 + p)%nat := v]> (<[p := v]> l) in
  take 16 (drop (S p) l') = drop 1 (take 16 (drop p l)) ++ [v] /\
  forall n, (n <= S p)%nat -> take n l' = take n (drop 16 l').
Proof.
  intros Hp Hl Hc l'.
  assert (Hl' : length l' = 32%nat) by (unfold l'; by rewrite !length_insert).
  assert (Hlk : forall j, (j < 32)%nat -> l' !! j =
    if decide (j = p \/ j = 16 + p)%nat then Some v else l !! j).
  { intros j Hj. unfold l'. destruct (decide _) as [[->| ->]|Hn].
    - rewrite list_lookup_insert_ne, list_lookup_insert_eq by lia. done.
    - rewrite list_lookup_insert_eq; [done|]. rewrite length_insert. lia.
    - rewrite !list_lookup_insert_ne by lia. done. }
  split.
  - apply list_eq. intros j. destruct (decide (j < 16)%nat) as [Hj|Hj].
    + rewrite lookup_take_lt, lookup_drop, Hlk by lia.
      destruct (decide (j = 15)%nat) as [->|Hj15].
      * rewrite decide_True by lia.
        rewrite lookup_app_r; rewrite length_drop, length_take, length_drop; [|lia].
        rewrite Hl. replace (15 - _)%nat with 0%nat by lia. done.
      * rewrite decide_False by lia.
        rewrite lookup_app_l; [|rewrite length_drop, length_take, length_drop; lia].
        rewrite lookup_drop, lookup_take_lt, lookup_drop by lia. f_equal. lia.
    + rewrite !lookup_ge_None_2; [done| |];
        rewrite ?length_app, ?length_drop, ?length_take, ?length_drop; cbn [length]; lia.
  - intros n Hn. apply list_eq. intros j. destruct (decide (j < n)%nat).
    + rewrite !lookup_take_lt, lookup_drop, !Hlk by lia. destruct (decide (j = p)) as [->|].
      * rewrite !decide_True by lia. done.
      * rewrite !decide_False by lia. apply (f_equal (fun k => k !! j)) in Hc.
        rewrite !lookup_take_lt, lookup_drop in Hc by lia. done.
    + rewrite !lookup_ge_None_2; [done| |]; rewrite length_take; lia.
Qed.

Lemma rep_push s g v : rep s g -> exists s', lfsr_push s v = Ok s' /\ rep s' (shift_in g v).
Proof.
  intros [Hp Hl (H1 & H2 & H3) Hr Hc]. unfold lfsr_push.
  rewrite s_set_ok by lia. cbn [res_bind].
  rewrite s_set_ok by (cbn [_s sp]; rewrite length_insert; lia). cbn [res_bind].
  eexists. split; [reflexivity|].
  set (p := Z.to_nat (sp s)) in *. cbn [_s sp r1 r2 r3 update].
  replace (Z.to_nat (sp s + 0)) with p by lia.
  replace (Z.to_nat (sp s + 16)) with (16 + p)%nat by lia.
  destruct (window_push (_s s) p v) as [Hw Hall]; [lia|done|done|].
  rewrite Hr in Hw.
  assert (Hl' : length (<[(16 + p)%nat := v]> (<[p := v]> (_s s))) = 32%nat)
    by (by rewrite !length_insert).
  destruct (sp s + 1 =? 16) eqn:E16; split; cbn [_s sp r1 r2 r3 lfsr R1 R2 R3 shift_in]; try done; try lia.
  - change (Z.to_nat 0) with 0%nat. rewrite drop_0, (Hall 16%nat), <- Hw by lia.
    do 2 f_equal. lia.
  - replace (Z.to_nat (sp s + 1)) with (S p) by lia. done.
  - replace (Z.to_nat (sp s + 1)) with (S p) by lia. by apply Hall.
Qed.

Lemma rep_feedback s g : rep s g -> lfsr_feedback s = Ok (feedback g).
Proof.
  intros H. unfold lfsr_feedback.
  rewrite !(rep_get s g) by (done || lia). cbn [res_bind].
  rewrite MULa_spec, DIVa_spec by apply byte_of_range.
  unfold feedback, Spec.word. rewrite Z.lor_0_r, Z.shiftl_0_l, Z.lor_0_l. done.
Qed.

Lemma rep_init_step s g f : rep s g ->
  exists s', lfsr_init s f = Ok s' /\ rep s' (shift_in g (Z.lxor (feedback g) f)).
Proof.
  intros H. unfold lfsr_init. rewrite (rep_feedback s g H). by apply rep_push.
Qed.

Lemma rep_keystream_step s g : rep s g ->
  exists s', lfsr_keystream s = Ok s' /\ rep s' (shift_in g (feedback g)).
Proof.
  intros H. unfold lfsr_keystream. rewrite (rep_feedback s g H). by apply rep_push.
Qed.

Lemma rep_clock s g : rep s g ->
  exists s', clock_fsm s = Ok ((clock_machine g).1, s') /\ rep s' (clock_machine g).2.
Proof.
  intros H. pose proof H as [Hp Hl (H1 & H2 & H3) Hr Hc]. unfold clock_fsm.
  rewrite !(rep_get s g) by (done || lia). cbn [res_bind].
  change (Z.to_nat 15) with 15%nat. change (Z.to_nat 5) with 5%nat.
  cbn [_s sp r1 r2 r3 update]. rewrite s1_spec, s2_spec, H1, H2, H3.
  unfold clock_machine. cbn [fst snd].
  exists (mk_snow3g (_s s) (sp s) (u32 (R2 g + Z.lxor (R3 g) (reg g 5)))
                    (Spec.S1 (R1 g)) (Spec.S2 (R2 g))).
  split; [reflexivity|]. constructor; cbn [_s sp r1 r2 r3 lfsr R1 R2 R3];
    [exact Hp|exact Hl|repeat split|exact Hr|exact Hc].
Qed.

Lemma rep_init_rounds n : forall s g, rep s g ->
  exists s', init_rounds n s = Ok s' /\ rep s' (init_mode n g).
Proof.
  induction n as [|n IH]; intros s g H; [by exists s|]. cbn [init_rounds init_mode].
  destruct (rep_clock s g H) as (s1' & -> & H1). destruct (clock_machine g) as [f g1].
  cbn [res_bind fst snd] in *.
  destruct (rep_init_step s1' g1 f H1) as (s2' & -> & H2). by apply IH.
Qed.

Lemma GET32_spec (b : list Z) off : (off + 4 <= length b)%nat ->
  GET32 b (Z.of_nat off) =
    Ok (Spec.word (nth off b 0) (nth (off + 1) b 0) (nth (off + 2) b 0) (nth (off + 3) b 0)).
Proof.
  intros H. unfold GET32. rewrite mem_read_total by lia. cbn [res_bind].
  rewrite Nat2Z.id. change (Z.to_nat 4) with 4%nat.
  rewrite !nth_lookup. rewrite <- (Nat.add_0_r off) at 2.
  rewrite <- !lookup_drop.
  assert (Hl : (4 <= length (drop off b))%nat) by (rewrite length_drop; lia).
  destruct (drop off b) as [|a [|c [|d [|e t]]]]; cbn in Hl; try lia. done.
Qed.

Lemma rep_init garbage k iv :
  length garbage = 16%nat -> length k = 16%nat -> length iv = 16%nat ->
  exists s, snow3g_init garbage k iv = Ok s /\ rep s (gen_init k iv).
Proof.
  intros Hg Hk Hi. unfold snow3g_init.
  change 0 with (Z.of_nat 0) at 1 2. change 4 with (Z.of_nat 4). change 8 with (Z.of_nat 8).
  change 12 with (Z.of_nat 12).
  rewrite !GET32_spec by lia. cbn [res_bind].
  match goal with |- context [init_rounds 32 ?s] => set (s0 := s) end.
  assert (H0 : rep s0 (load_key k iv)).
  { unfold s0. split; cbn [_s sp r1 r2 r3 lfsr R1 R2 R3 load_key]; [lia| |done| |done].
    - rewrite length_app, Hg. done.
    - done. }
  destruct (rep_init_rounds 32 s0 _ H0) as (s1' & -> & H1). cbn [res_bind].
  destruct (rep_clock _ _ H1) as (s2' & -> & H2). unfold gen_init.
  destruct (clock_machine _) as [f g2]. cbn [res_bind fst snd] in *.
  by apply rep_keystream_step.
Qed.

Lemma rep_words n : forall s g, rep s g -> keystream_words n s = Ok (gen_words n g).
Proof.
  induction n as [|n IH]; intros s g H; [done|]. cbn [keystream_words gen_words].
  unfold generate_keystream_step.
  destruct (rep_clock s g H) as (s1' & -> & H1). destruct (clock_machine g) as [f g1].
  cbn [res_bind fst snd] in *. rewrite (rep_get s1' g1) by (done || lia). cbn [res_bind].
  destruct (rep_keystream_step s1' g1 H1) as (s2' & -> & H2). cbn [res_bind].
  by rewrite (IH _ _ H2).
Qed.

Lemma length_gen_words n : forall g, length (gen_words n g) = n.
Proof.
  induction n as [|n IH]; intros g; [done|]. cbn [gen_words].
  destruct (clock_machine g). cbn. by rewrite IH.
Qed.

(** ** Ciphering *)

Lemma swap_key_spec key : length key = 16%nat ->
  swap_key key = Ok (take 4 (drop 12 key) ++ take 4 (drop 8 key) ++ take 4 (drop 4 key)
                     ++ take 4 key).
Proof.
  intros H. unfold swap_key. rewrite !mem_read_total by lia. cbn [res_bind].
  by rewrite drop_0.
Qed.

(** the key of the specification: the words of the key in reverse order *)
Definition spec_key (key : list Z) : list Z :=
  take 4 (drop 12 key) ++ take 4 (drop 8 key) ++ take 4 (drop 4 key) ++ take 4 key.

Lemma length_spec_key key : length key = 16%nat -> length (spec_key key) = 16%nat.
Proof. intros. unfold spec_key. rewrite !length_app, !length_take, !length_drop. lia. Qed.

(** the key stream as bytes, for the data of [n] bytes *)
Definition keystream_bytes (key iv : list Z) (n : Z) : list Z :=
  concat (map be_bytes (Spec_keystream (spec_key key) iv (Z.to_nat ((n + 3) / 4)))).

Lemma length_be_concat ws : length (concat (map be_bytes ws)) = (4 * length ws)%nat.
Proof. induction ws as [|w ws IH]; [done|]. cbn [map concat]. rewrite length_app, IH. cbn. lia. Qed.

Lemma length_keystream_bytes key iv n : 0 <= n ->
  n <= Z.of_nat (length (keystream_bytes key iv n)).
Proof.
  intros H. unfold keystream_bytes, Spec_keystream.
  rewrite length_be_concat, length_gen_words.
  pose proof (Z.div_mod (n + 3) 4). pose proof (Z.mod_pos_bound (n + 3) 4). lia.
Qed.

Lemma snow3g_ciphering_ok garbage count bearer direction key n input :
  length garbage = 16%nat -> length key = 16%nat -> 0 <= n <= Z.of_nat (length input) ->
  snow3g_ciphering garbage count bearer direction key n input =
    Ok (zip_with Z.lxor (take (Z.to_nat n) input)
          (keystream_bytes key (ciphering_iv count bearer direction) n)).
Proof.
  intros Hg Hk Hn. unfold snow3g_ciphering. rewrite (swap_key_spec key Hk). cbn [res_bind].
  destruct (rep_init garbage (spec_key key) (ciphering_iv count bearer direction))
    as (s & Hs & Hrep); [done|by apply length_spec_key|done|].
  unfold spec_key in Hs. rewrite Hs. cbn [res_bind].
  rewrite (rep_words _ _ _ Hrep). cbn [res_bind].
  rewrite mem_read_total by lia. cbn [res_bind]. by rewrite drop_0.
Qed.

Lemma xor_twice (l ks : list Z) : (length l <= length ks)%nat ->
  zip_with Z.lxor (zip_with Z.lxor l ks) ks = l.
Proof.
  revert ks. induction l as [|x l IH]; intros [|k ks] H; cbn in *; try lia; [done..|].
  rewrite Z.lxor_assoc, Z.lxor_nilpotent, Z.lxor_0_r, IH by lia. done.
Qed.

Lemma length_cipher (l ks : list Z) : (length l <= length ks)%nat ->
  length (zip_with Z.lxor l ks) = length l.
Proof. intros. rewrite length_zip_with. lia. Qed.

(** C31: the sliding-window implementation computes the specification: for every
    16-byte key, every count, bearer and direction and every buffer of at least
    [n] bytes, [snow3g_ciphering] ends without an access outside its arrays and
    its output is the data combined by exclusive or with the key stream of the
    SNOW 3G generator of the specification, whatever the uninitialised half of
    the state array holds. *)
Theorem snow3g_ciphering_refines_spec : forall garbage count bearer direction key n input,
  length garbage = 16%nat -> length key = 16%nat -> 0 <= n <= Z.of_nat (length input) ->
  snow3g_ciphering garbage count bearer direction key n input =
    Ok (zip_with Z.lxor (take (Z.to_nat n) input)
      (concat (map be_bytes (Spec_keystream (spec_key key)
        (ciphering_iv count bearer direction) (Z.to_nat ((n + 3) / 4)))))).
Proof.
  intros. rewrite snow3g_ciphering_ok by done. unfold keystream_bytes. reflexivity.
Qed.

(** test set 1 of the specification (the first 20 bytes): the values the
    [main] of [snow3g.c] feeds to the function *)
Definition test1_key : list Z :=
  [0x2B; 0xD6; 0x45; 0x9F; 0x82; 0xC5; 0xB3; 0x00; 0x95; 0x2C; 0x49; 0x10; 0x48; 0x81; 0xFF; 0x48].
Definition test1_data : list Z :=
  [0x7E; 0xC6; 0x12; 0x72; 0x74; 0x3B; 0xF1; 0x61; 0x47; 0x26; 0x44; 0x6A; 0x6C; 0x38; 0xCE; 0xD1;
   0x66; 0xF6; 0xCA; 0x76].
Definition test1_cipher : list Z :=
  [0x8C; 0xEB; 0xA6; 0x29; 0x43; 0xDC; 0xED; 0x3A; 0x09; 0x90; 0xB0; 0x6E; 0xA1; 0xB0; 0xA2; 0xC4;
   0xFB; 0x3C; 0xED; 0xC7].

Lemma test1_len : 0 <= 20 <= Z.of_nat (length test1_data).
Proof. cbn. lia. Qed.

Lemma snow3g_ciphering_refines_spec_witness :
  Ok (zip_with Z.lxor (take (Z.to_nat 20) test1_data)
    (concat (map be_bytes (Spec_keystream (spec_key test1_key)
      (ciphering_iv 0x72A4F20F 0xc 1) (Z.to_nat ((20 + 3) / 4)))))) = Ok test1_cipher.
Proof.
  rewrite <- (snow3g_ciphering_refines_spec (replicate 16 0) 0x72A4F20F 0xc 1 test1_key 20
    test1_data eq_refl eq_refl test1_len).
  vm_compute. reflexivity.
Defined.

(** deciphering is ciphering: applied to its own output with the same count,
    bearer, direction and key, [snow3g_ciphering] gives back the data. *)
Theorem snow3g_ciphering_involutive : forall garbage garbage' count bearer direction key input,
  length garbage = 16%nat -> length garbage' = 16%nat -> length key = 16%nat ->
  exists out,
    snow3g_ciphering garbage count bearer direction key (Z.of_nat (length input)) input = Ok out /\
    length out = length input /\
    snow3g_ciphering garbage' count bearer direction key (Z.of_nat (length input)) out = Ok input.
Proof.
  intros garbage garbage' count bearer direction key input Hg Hg' Hk.
  set (n := Z.of_nat (length input)).
  pose proof (length_keystream_bytes key (ciphering_iv count bearer direction) n) as Hks.
  rewrite snow3g_ciphering_ok by (done || lia).
  rewrite take_ge by lia. eexists. split; [reflexivity|].
  assert (Hl := length_cipher input (keystream_bytes key (ciphering_iv count bearer direction) n)).
  split; [apply Hl; lia|].
  rewrite snow3g_ciphering_ok by (done || lia).
  rewrite take_ge by lia. rewrite xor_twice by lia. done.
Qed.

Lemma snow3g_ciphering_involutive_witness :
  exists out,
    snow3g_ciphering (replicate 16 0) 1 2 1 test1_key 5 [1; 2; 3; 4; 5] = Ok out /\
    snow3g_ciphering (replicate 16 7) 1 2 1 test1_key 5 out = Ok [1; 2; 3; 4; 5].
Proof.
  destruct (snow3g_ciphering_involutive (replicate 16 0) (replicate 16 7) 1 2 1 test1_key
    [1; 2; 3; 4; 5] eq_refl eq_refl eq_refl) as (out & H1 & _ & H2).
  exists out. split; assumption.
Defined.
