(* ===== verification/Snow3gMul.v ===== *)
(** * Field multiplication and the integrity function of SNOW 3G

    [MUL64] is multiplication in GF(2^64): linear in both arguments and
    commutative.  [snow3g.c] multiplies by the fixed point P through a table of
    8 x 256 multiples filled by two loops; the theorems state that the table
    multiplies, and that the integrity function evaluates the polynomial of
    the specification. *)
From S2P Require Import Prelude Snow3g Snow3gSpec Snow3gLfsr.
From Stdlib Require Import Btauto.

(** ** Linearity *)

Lemma u64_land x : u64 x = Z.land x (Z.ones 64).
Proof. rewrite Z.land_ones by lia. done. Qed.

Lemma u64_lxor a b : u64 (Z.lxor a b) = Z.lxor (u64 a) (u64 b).
Proof.
  rewrite !u64_land. apply Z.bits_inj'. intros n Hn.
  rewrite !Z.lxor_spec, !Z.land_spec, Z.lxor_spec. btauto.
Qed.

Lemma land_top_bit v : (Z.land v (Z.shiftl 1 63) =? 0) = negb (Z.testbit v 63).
Proof.
  rewrite Z.shiftl_1_l. destruct (Z.testbit v 63) eqn:E; cbn [negb].
  - apply Z.eqb_neq. intros H. apply (f_equal (fun x => Z.testbit x 63)) in H.
    rewrite Z.land_spec, E, Z.bits_0 in H. discriminate.
  - apply Z.eqb_eq. apply Z.bits_inj'. intros n Hn.
    rewrite Z.land_spec, Z.bits_0, Z.pow2_bits_eqb by lia.
    destruct (Z.eqb_spec 63 n) as [<-|]; [by rewrite E|by rewrite andb_false_r].
Qed.

Lemma MULx64_eq v c :
  MULx64 v c = Z.lxor (u64 (Z.shiftl v 1)) (if Z.testbit v 63 then c else 0).
Proof.
  unfold MULx64. rewrite land_top_bit.
  destruct (Z.testbit v 63); cbn [negb]; [done|by rewrite Z.lxor_0_r].
Qed.

(** the exclusive or of four values regrouped *)
Lemma lxor_swap4 a b c d :
  Z.lxor (Z.lxor a b) (Z.lxor c d) = Z.lxor (Z.lxor a c) (Z.lxor b d).
Proof. apply Z.bits_inj'. intros n Hn. rewrite !Z.lxor_spec. btauto. Qed.

Lemma MULx64_lxor a b c : MULx64 (Z.lxor a b) c = Z.lxor (MULx64 a c) (MULx64 b c).
Proof.
  rewrite !MULx64_eq, Z.shiftl_lxor, u64_lxor, Z.lxor_spec, lxor_swap4. f_equal.
  destruct (Z.testbit a 63), (Z.testbit b 63); cbn [xorb];
    rewrite ?Z.lxor_nilpotent, ?Z.lxor_0_r, ?Z.lxor_0_l; done.
Qed.

Lemma MULxPOW64_lxor a b c i :
  MULxPOW64 (Z.lxor a b) i c = Z.lxor (MULxPOW64 a i c) (MULxPOW64 b i c).
Proof. induction i as [|i IH]; [done|]. cbn. by rewrite IH, MULx64_lxor. Qed.

Lemma shiftr_land1 p i : (Z.land (Z.shiftr p (Z.of_nat i)) 1 =? 0) = negb (Z.testbit p (Z.of_nat i)).
Proof.
  change (Z.land (Z.shiftr p (Z.of_nat i)) 1) with (Z.land (Z.shiftr p (Z.of_nat i)) (Z.ones 1)).
  rewrite Z.land_ones, Z.pow_1_r, <- Z.bit0_mod by lia.
  rewrite Z.shiftr_spec, Z.add_0_l by lia. by destruct (Z.testbit p (Z.of_nat i)).
Qed.

Lemma MUL64_loop_lxor_r v a b c n : forall i r s,
  MUL64_loop v (Z.lxor a b) c n i (Z.lxor r s) =
  Z.lxor (MUL64_loop v a c n i r) (MUL64_loop v b c n i s).
Proof.
  induction n as [|n IH]; intros i r s; [done|]. cbn [MUL64_loop].
  rewrite !shiftr_land1, Z.lxor_spec, <- IH. f_equal.
  destruct (Z.testbit a _), (Z.testbit b _); cbn [xorb negb]; [| | |done].
  - by rewrite lxor_swap4, Z.lxor_nilpotent, Z.lxor_0_r.
  - rewrite !Z.lxor_assoc. f_equal. apply Z.lxor_comm.
  - by rewrite Z.lxor_assoc.
Qed.

Lemma MUL64_loop_lxor_l v w p c n : forall i r s,
  MUL64_loop (Z.lxor v w) p c n i (Z.lxor r s) =
  Z.lxor (MUL64_loop v p c n i r) (MUL64_loop w p c n i s).
Proof.
  induction n as [|n IH]; intros i r s; [done|]. cbn [MUL64_loop].
  rewrite !shiftr_land1, <- IH. f_equal.
  destruct (Z.testbit p _); cbn [negb]; [|done]. by rewrite MULxPOW64_lxor, lxor_swap4.
Qed.

Lemma MUL64_lxor_r v a b c : MUL64 v (Z.lxor a b) c = Z.lxor (MUL64 v a c) (MUL64 v b c).
Proof. unfold MUL64. rewrite <- MUL64_loop_lxor_r. done. Qed.
Lemma MUL64_lxor_l v w p c : MUL64 (Z.lxor v w) p c = Z.lxor (MUL64 v p c) (MUL64 w p c).
Proof. unfold MUL64. rewrite <- MUL64_loop_lxor_l. done. Qed.

(** a linear function of bit vectors *)
Definition linear (F : Z -> Z) : Prop := forall a b, F (Z.lxor a b) = Z.lxor (F a) (F b).

Lemma linear_0 F : linear F -> F 0 = 0.
Proof.
  intros H. pose proof (H 0 0) as E. rewrite Z.lxor_nilpotent in E. by rewrite Z.lxor_nilpotent in E.
Qed.

(** linear functions that agree on the powers of two agree *)
Lemma linear_ext F G n : linear F -> linear G ->
  (forall i, (i < n)%nat -> F (2 ^ Z.of_nat i) = G (2 ^ Z.of_nat i)) ->
  forall x, 0 <= x < 2 ^ Z.of_nat n -> F x = G x.
Proof.
  intros HF HG. induction n as [|n IH]; intros Hb x Hx.
  { assert (x = 0) as -> by (cbn in Hx; lia). by rewrite !linear_0. }
  rewrite Nat2Z.inj_succ, Z.pow_succ_r in Hx by lia.
  set (q := 2 ^ Z.of_nat n) in *.
  destruct (Z_lt_ge_dec x q) as [Hlt|Hge]; [apply IH; [intros; apply Hb; lia|lia]|].
  assert (Hy : x = Z.lxor q (Z.lxor x q)).
  { rewrite (Z.lxor_comm x q), <- Z.lxor_assoc, Z.lxor_nilpotent, Z.lxor_0_l. done. }
  assert (Hr : Z.lxor x q = x - q).
  { rewrite (Z.lxor_comm x q).
    assert (x = q + (x - q)) as E by lia. rewrite E at 1.
    rewrite Z.add_nocarry_lxor.
    - by rewrite <- Z.lxor_assoc, Z.lxor_nilpotent, Z.lxor_0_l.
    - apply Z.bits_inj'. intros k Hk. rewrite Z.land_spec, Z.bits_0. unfold q.
      rewrite Z.pow2_bits_eqb by lia. destruct (Z.eqb_spec (Z.of_nat n) k) as [<-|]; [|done].
      cbn [andb]. destruct (decide (x - q = 0)) as [e|Hn]; [unfold q in e; rewrite e; apply Z.bits_0|].
      apply Z.bits_above_log2; [lia|]. apply Z.log2_lt_pow2; fold q; lia. }
  rewrite Hy, Hr, HF, HG, (IH (fun i Hi => Hb i ltac:(lia)) (x - q)) by lia.
  f_equal. apply Hb. lia.
Qed.

(** ** Products by powers of x and commutativity *)

Lemma MUL64_loop_pow v c k n : forall i r,
  MUL64_loop v (2 ^ Z.of_nat k) c n i r =
  if bool_decide (i <= k < i + n)%nat then Z.lxor r (MULxPOW64 v k c) else r.
Proof.
  induction n as [|n IH]; intros i r; cbn [MUL64_loop].
  { rewrite bool_decide_false by lia. done. }
  rewrite shiftr_land1, Z.pow2_bits_eqb, IH by lia.
  destruct (Z.eqb_spec (Z.of_nat k) (Z.of_nat i)) as [E|E]; cbn [negb].
  - assert (k = i) as -> by lia. rewrite bool_decide_false, bool_decide_true by lia. done.
  - do 2 case_bool_decide; try done; lia.
Qed.

Lemma MUL64_pow v k c : (k < 64)%nat -> MUL64 v (2 ^ Z.of_nat k) c = MULxPOW64 v k c.
Proof.
  intros. unfold MUL64. rewrite MUL64_loop_pow, bool_decide_true by lia. apply Z.lxor_0_l.
Qed.

Lemma MUL64_linear_r v c : linear (fun p => MUL64 v p c).
Proof. intros a b. apply MUL64_lxor_r. Qed.
Lemma MUL64_linear_l p c : linear (fun v => MUL64 v p c).
Proof. intros a b. apply MUL64_lxor_l. Qed.

Lemma MUL64_unfold v p c : MUL64 v p c = MUL64_loop v p c 64 0 0.
Proof. reflexivity. Qed.
#[local] Opaque MUL64.

Lemma MULxPOW64_add v i j c : MULxPOW64 (MULxPOW64 v i c) j c = MULxPOW64 v (i + j) c.
Proof.
  induction j as [|j IH]; [by rewrite Nat.add_0_r|]. rewrite Nat.add_succ_r. cbn. by rewrite IH.
Qed.

Lemma pow2_MULxPOW64 i : (i < 64)%nat -> 2 ^ Z.of_nat i = MULxPOW64 1 i 0x1b.
Proof.
  intros Hi.
  assert (H : forallb (fun i => 2 ^ Z.of_nat i =? MULxPOW64 1 i 0x1b) (seq 0 64) = true)
    by (vm_compute; reflexivity).
  rewrite forallb_forall in H. apply Z.eqb_eq, H, in_seq. lia.
Qed.

Lemma MULxPOW64_basis i j : (i < 64)%nat -> (j < 64)%nat ->
  MULxPOW64 (2 ^ Z.of_nat i) j 0x1b = MULxPOW64 (2 ^ Z.of_nat j) i 0x1b.
Proof.
  intros Hi Hj. rewrite !pow2_MULxPOW64, !MULxPOW64_add by done. f_equal. lia.
Qed.

Lemma MUL64_comm a b : 0 <= a < 2 ^ 64 -> 0 <= b < 2 ^ 64 ->
  MUL64 a b 0x1b = MUL64 b a 0x1b.
Proof.
  intros Ha Hb.
  apply (linear_ext (fun a => MUL64 a b 0x1b) (fun a => MUL64 b a 0x1b) 64);
    [apply MUL64_linear_l|apply MUL64_linear_r| |done].
  intros i Hi. rewrite (MUL64_pow b) by done.
  assert (HL : linear (fun b => MULxPOW64 b i 0x1b)) by (intros x y; apply MULxPOW64_lxor).
  apply (linear_ext (fun b => MUL64 (2 ^ Z.of_nat i) b 0x1b) (fun b => MULxPOW64 b i 0x1b) 64);
    [apply MUL64_linear_r|exact HL| |done].
  intros j Hj. rewrite MUL64_pow by done. by apply MULxPOW64_basis.
Qed.

(** ** The table of multiples

    The loops are run on masks: an entry of the table of masks stands for the
    product of the mask with P, and [None] for a word not yet written. *)
Section Table.
Context (P : Z).

Definition times (m : Z) : Z := MUL64 P m 0x1b.

Lemma times_lxor a b : times (Z.lxor a b) = Z.lxor (times a) (times b).
Proof. unfold times. apply MUL64_lxor_r. Qed.
Lemma times_0 : times 0 = 0.
Proof. apply (linear_0 times), MUL64_linear_r. Qed.
Lemma times_1 : times 1 = P.
Proof. unfold times. change 1 with (2 ^ Z.of_nat 0). by rewrite MUL64_pow by lia. Qed.

Lemma times_double m : 0 <= m < 2 ^ 63 -> times (Z.shiftl m 1) = MULx64 (times m) 0x1b.
Proof.
  intros Hm. apply (linear_ext (fun m => times (Z.shiftl m 1)) (fun m => MULx64 (times m) 0x1b) 63);
    [| |intros i Hi|done].
  - intros a b. rewrite Z.shiftl_lxor. apply times_lxor.
  - intros a b. rewrite times_lxor. apply MULx64_lxor.
  - unfold times. rewrite Z.shiftl_mul_pow2, Z.pow_1_r by lia.
    replace (2 ^ Z.of_nat i * 2) with (2 ^ Z.of_nat (S i))
      by (rewrite Nat2Z.inj_succ, Z.pow_succ_r; lia).
    by rewrite !MUL64_pow by lia.
Qed.

(** the operations on masks *)
Definition idx (i j : Z) : nat := Z.to_nat (256 * i + j).
Definition mget (M : list (option Z)) (i j : Z) : option Z := default None (M !! idx i j).
Definition mset (M : list (option Z)) (i j : Z) (o : option Z) : list (option Z) :=
  <[idx i j := o]> M.

Definition mask_powers_step (M : list (option Z)) (i : Z) : list (option Z) :=
  let r0 := Z.shiftr (i - 1) 3 in
  let c0 := Z.shiftl 1 (Z.land (i - 1) 7) in
  let r := Z.shiftr i 3 in
  let c := Z.shiftl 1 (Z.land i 7) in
  mset M r c
    match mget M r0 c0 with
    | Some m => if (0 <=? m) && (m <? 2 ^ 63) && negb (Nat.eqb (idx r0 c0) (idx r c))
                   && Nat.ltb (idx r c) 2048
                then Some (Z.shiftl m 1) else None
    | None => None
    end.

Definition mask_fill_step (M : list (option Z)) (ijk : Z * Z * Z) : list (option Z) :=
  let '(i, j, k) := ijk in
  mset M i (Z.shiftl 1 j + k)
    match mget M i (Z.shiftl 1 j), mget M i k with
    | Some a, Some b => Some (Z.lxor a b)
    | _, _ => None
    end.

Definition mask_table : list (option Z) :=
  let M := fold_left (fun M i => mset M i 0 (Some 0)) (map Z.of_nat (seq 0 8))
                     (replicate 2048 None) in
  let M := mset M 0 1 (Some 1) in
  let M := fold_left mask_powers_step (map Z.of_nat (seq 1 63)) M in
  fold_left mask_fill_step pm_fill_order M.

(** the table of masks describes the table of words *)
Definition describes (pm : list Z) (M : list (option Z)) : Prop :=
  length pm = 2048%nat /\ length M = 2048%nat /\
  forall n m, M !! n = Some (Some m) -> pm !! n = Some (times m).

Lemma describes_get pm M i j m : describes pm M -> mget M i j = Some m ->
  pm_get pm i j = times m.
Proof.
  intros (_ & _ & H) Hm. unfold mget in Hm. destruct (M !! idx i j) as [o|] eqn:E; [|done].
  cbn in Hm. subst o. apply H in E. unfold pm_get, tab. rewrite nth_lookup.
  fold (idx i j). by rewrite E.
Qed.

Lemma describes_set pm M i j v o : describes pm M ->
  (forall m, o = Some m -> v = times m) -> describes (pm_set pm i j v) (mset M i j o).
Proof.
  intros (H1 & H2 & H) Ho. unfold pm_set, mset. fold (idx i j).
  split; [by rewrite length_insert|]. split; [by rewrite length_insert|].
  intros n m Hn. apply list_lookup_insert_Some in Hn as [(<- & -> & Hl)|[Hne Hn]].
  - rewrite list_lookup_insert_eq by lia. by rewrite (Ho m).
  - rewrite list_lookup_insert_ne by done. by apply H.
Qed.

Lemma describes_powers pm M i : describes pm M ->
  describes (pm_powers_step pm i) (mask_powers_step M i).
Proof.
  intros H. unfold pm_powers_step, mask_powers_step.
  set (r0 := Z.shiftr (i - 1) 3). set (c0 := Z.shiftl 1 (Z.land (i - 1) 7)).
  set (r := Z.shiftr i 3). set (c := Z.shiftl 1 (Z.land i 7)).
  set (pm1 := pm_set pm r c _).
  assert (Hnone : forall v, describes (pm_set pm r c v) (mset M r c None))
    by (intros v; apply describes_set; [done|discriminate]).
  assert (Htwice : forall v w, pm_set (pm_set pm r c v) r c w = pm_set pm r c w)
    by (intros; unfold pm_set; apply list_insert_insert_eq).
  destruct (mget M r0 c0) as [m|] eqn:Em.
  2: { destruct (_ =? 0); [apply Hnone|]. unfold pm1. rewrite Htwice. apply Hnone. }
  destruct ((0 <=? m) && (m <? 2 ^ 63) && negb (Nat.eqb (idx r0 c0) (idx r c))
            && Nat.ltb (idx r c) 2048) eqn:Ec.
  2: { destruct (_ =? 0); [apply Hnone|]. unfold pm1. rewrite Htwice. apply Hnone. }
  apply andb_true_iff in Ec as [Ec Hlt%Nat.ltb_lt].
  apply andb_true_iff in Ec as [Ec Hne]. apply andb_true_iff in Ec as [Ec1 Ec2].
  apply negb_true_iff, Nat.eqb_neq in Hne.
  pose proof (describes_get _ _ _ _ _ H Em) as Hg.
  assert (Hg1 : pm_get pm1 r0 c0 = times m).
  { rewrite <- Hg. unfold pm1, pm_get, pm_set, tab. rewrite !nth_lookup.
    by rewrite list_lookup_insert_ne by (intros E; apply Hne; symmetry; exact E). }
  rewrite Hg1.
  assert (Hd := times_double m ltac:(lia)). unfold MULx64 in Hd.
  change (Z.shiftl 1 63) with 0x8000000000000000 in Hd.
  destruct (_ =? 0) eqn:Eb.
  - unfold pm1. rewrite Hg. apply describes_set; [done|]. intros ? [= <-]. by rewrite Hd.
  - assert (E1 : pm_get pm1 r c = u64 (Z.shiftl (times m) 1)).
    { unfold pm1. rewrite Hg. unfold pm_get, tab, pm_set. rewrite nth_lookup.
      fold (idx r c). rewrite list_lookup_insert_eq; [done|]. destruct H as (-> & _). lia. }
    rewrite E1. unfold pm1. rewrite Htwice. apply describes_set; [done|]. intros ? [= <-]. by rewrite Hd.
Qed.

Lemma describes_fill pm M ijk : describes pm M ->
  describes (pm_fill_step pm ijk) (mask_fill_step M ijk).
Proof.
  intros H. destruct ijk as [[i j] k]. unfold pm_fill_step, mask_fill_step.
  apply describes_set; [done|]. intros m Hm.
  destruct (mget M i (Z.shiftl 1 j)) as [a|] eqn:Ea; [|done].
  destruct (mget M i k) as [b|] eqn:Eb; [|done]. injection Hm as <-.
  by rewrite (describes_get _ _ _ _ _ H Ea), (describes_get _ _ _ _ _ H Eb), times_lxor.
Qed.

Lemma describes_fold {B} (f : list Z -> B -> list Z) (g : list (option Z) -> B -> list (option Z)) l :
  (forall pm M b, describes pm M -> describes (f pm b) (g M b)) ->
  forall pm M, describes pm M -> describes (fold_left f l pm) (fold_left g l M).
Proof. intros Hs. induction l as [|b l IH]; intros pm M H; [done|]. apply IH, Hs, H. Qed.

Lemma pm_table_describes init : length init = 2048%nat ->
  describes (pm_table init P) mask_table.
Proof.
  intros Hl. unfold pm_table, mask_table.
  apply describes_fold; [intros; by apply describes_fill|].
  apply describes_fold; [intros; by apply describes_powers|].
  apply describes_set; [|intros ? [= <-]; by rewrite times_1].
  apply describes_fold; [intros; apply describes_set; [done|intros ? [= <-]; by rewrite times_0]|].
  split; [done|]. split; [by rewrite length_replicate|].
  intros n m Hn. apply lookup_replicate in Hn as [[=] _].
Qed.

(** entry [i][j] of the table of masks is [j << 8 * i] *)
Lemma mask_table_entries i j : 0 <= i < 8 -> 0 <= j < 256 ->
  mask_table !! idx i j = Some (Some (Z.shiftl j (8 * i))).
Proof.
  intros Hi Hj.
  assert (H : (fun M => forallb (fun i => forallb (fun j =>
     bool_decide (M !! idx (Z.of_nat i) (Z.of_nat j) =
                  Some (Some (Z.shiftl (Z.of_nat j) (8 * Z.of_nat i)))))
     (seq 0 256)) (seq 0 8)) mask_table = true) by (vm_compute; reflexivity).
  cbv beta in H. rewrite forallb_forall in H. specialize (H (Z.to_nat i)).
  rewrite forallb_forall in H. specialize (H ltac:(apply in_seq; lia) (Z.to_nat j)).
  specialize (H ltac:(apply in_seq; lia)). apply bool_decide_eq_true_1 in H.
  rewrite !Z2Nat.id in H by lia. done.
Qed.

Lemma pm_table_entries init i j : length init = 2048%nat -> 0 <= i < 8 -> 0 <= j < 256 ->
  pm_get (pm_table init P) i j = times (Z.shiftl j (8 * i)).
Proof.
  intros Hl Hi Hj. apply (describes_get _ mask_table); [by apply pm_table_describes|].
  unfold mget. by rewrite mask_table_entries.
Qed.

(** a 64-bit word is the exclusive or of its bytes at their places *)
Lemma bytes_lxor x : 0 <= x < 2 ^ 64 ->
  Z.lxor (Z.lxor (Z.lxor (Z.lxor (Z.lxor (Z.lxor (Z.lxor
    (Z.shiftl (byte_of x 0) (8 * 0)) (Z.shiftl (byte_of x 1) (8 * 1)))
    (Z.shiftl (byte_of x 2) (8 * 2))) (Z.shiftl (byte_of x 3) (8 * 3)))
    (Z.shiftl (byte_of x 4) (8 * 4))) (Z.shiftl (byte_of x 5) (8 * 5)))
    (Z.shiftl (byte_of x 6) (8 * 6))) (Z.shiftl (byte_of x 7) (8 * 7)) = x.
Proof.
  intros Hx.
  refine (linear_ext (fun x => Z.lxor (Z.lxor (Z.lxor (Z.lxor (Z.lxor (Z.lxor (Z.lxor
    (Z.shiftl (byte_of x 0) (8 * 0)) (Z.shiftl (byte_of x 1) (8 * 1)))
    (Z.shiftl (byte_of x 2) (8 * 2))) (Z.shiftl (byte_of x 3) (8 * 3)))
    (Z.shiftl (byte_of x 4) (8 * 4))) (Z.shiftl (byte_of x 5) (8 * 5)))
    (Z.shiftl (byte_of x 6) (8 * 6))) (Z.shiftl (byte_of x 7) (8 * 7))) (fun x => x) 64 _ _ _ x Hx).
  - assert (Hb : forall k, linear (fun x => Z.shiftl (byte_of x k) (8 * k))).
    { intros k a b. unfold byte_of. rewrite Z.shiftr_lxor, <- Z.shiftl_lxor. f_equal.
      apply Z.bits_inj'. intros n Hn. rewrite !Z.land_spec, !Z.lxor_spec, !Z.land_spec. btauto. }
    assert (Hsum : forall F G, linear F -> linear G -> linear (fun x => Z.lxor (F x) (G x))).
    { intros F G HF HG a b. rewrite HF, HG. apply lxor_swap4. }
    repeat apply Hsum; apply Hb.
  - intros a b. done.
  - intros i Hi.
    assert (H : forallb (fun i => (fun x => Z.lxor (Z.lxor (Z.lxor (Z.lxor (Z.lxor (Z.lxor (Z.lxor
      (Z.shiftl (byte_of x 0) (8 * 0)) (Z.shiftl (byte_of x 1) (8 * 1)))
      (Z.shiftl (byte_of x 2) (8 * 2))) (Z.shiftl (byte_of x 3) (8 * 3)))
      (Z.shiftl (byte_of x 4) (8 * 4))) (Z.shiftl (byte_of x 5) (8 * 5)))
      (Z.shiftl (byte_of x 6) (8 * 6))) (Z.shiftl (byte_of x 7) (8 * 7)))
      (2 ^ Z.of_nat i) =? 2 ^ Z.of_nat i) (seq 0 64) = true) by (vm_compute; reflexivity).
    rewrite forallb_forall in H. apply Z.eqb_eq, H, in_seq. lia.
Qed.

Lemma mul_p_times init x : length init = 2048%nat -> 0 <= x < 2 ^ 64 ->
  mul_p (pm_table init P) x = times x.
Proof.
  intros Hl Hx. rewrite <- (bytes_lxor x Hx) at 2. rewrite !times_lxor.
  unfold mul_p. rewrite !pm_table_entries by (try done; try apply byte_of_range; lia). done.
Qed.
End Table.

(** C30: the table of multiples multiplies: whatever the array held before, after
    the two loops of the integrity function [mul_p(pm, x)] is the product of
    [x] and P in GF(2^64), the reference bit-by-bit multiplication [MUL64], for
    all 64-bit words P and [x]. *)
Theorem mul_p_correct : forall init P x,
  length init = 2048%nat -> 0 <= P < 2 ^ 64 -> 0 <= x < 2 ^ 64 ->
  mul_p (pm_table init P) x = MUL64 x P 0x1b.
Proof.
  intros init P x Hl HP Hx. rewrite mul_p_times by done. by apply MUL64_comm.
Qed.

Lemma mul_p_correct_witness :
  mul_p (pm_table (replicate 2048 5) 0x123456789abcdef0) 0xfedcba9876543210
  = MUL64 0xfedcba9876543210 0x123456789abcdef0 0x1b.
Proof.
  apply (mul_p_correct (replicate 2048 5) 0x123456789abcdef0 0xfedcba9876543210);
    [by rewrite length_replicate|lia|lia].
Defined.

(** ** Ranges *)

Lemma range_shiftr n x : 0 <= n -> 0 <= x < 2 ^ n <-> Z.shiftr x n = 0.
Proof.
  intros Hn. rewrite Z.shiftr_div_pow2 by done.
  assert (0 < 2 ^ n) by (apply Z.pow_pos_nonneg; lia).
  rewrite Z.div_small_iff by lia. lia.
Qed.

Lemma lxor_range n a b : 0 <= n -> 0 <= a < 2 ^ n -> 0 <= b < 2 ^ n -> 0 <= Z.lxor a b < 2 ^ n.
Proof.
  intros Hn. rewrite !range_shiftr by done. intros Ha Hb. by rewrite Z.shiftr_lxor, Ha, Hb.
Qed.
Lemma lor_range n a b : 0 <= n -> 0 <= a < 2 ^ n -> 0 <= b < 2 ^ n -> 0 <= Z.lor a b < 2 ^ n.
Proof.
  intros Hn. rewrite !range_shiftr by done. intros Ha Hb. by rewrite Z.shiftr_lor, Ha, Hb.
Qed.
Lemma shiftl_range n m k x : 0 <= x < 2 ^ m -> 0 <= k -> 0 <= m -> m + k <= n ->
  0 <= Z.shiftl x k < 2 ^ n.
Proof.
  intros Hx Hk Hm Hn. rewrite Z.shiftl_mul_pow2 by done.
  assert (0 < 2 ^ k) by (apply Z.pow_pos_nonneg; lia).
  assert (2 ^ (m + k) <= 2 ^ n) by (apply Z.pow_le_mono_r; lia).
  rewrite Z.pow_add_r in * by lia. nia.
Qed.

Definition is_u32 (x : Z) : Prop := 0 <= x < 2 ^ 32.

Lemma is_byte_u32 b : is_byte b -> is_u32 b.
Proof. unfold is_byte, is_u32. lia. Qed.
Lemma lxor_u32 a b : is_u32 a -> is_u32 b -> is_u32 (Z.lxor a b).
Proof. apply lxor_range. lia. Qed.

Lemma word_u32 a b c d : is_byte a -> is_byte b -> is_byte c -> is_byte d ->
  is_u32 (Spec.word a b c d).
Proof.
  unfold is_byte. intros. unfold Spec.word, is_u32.
  repeat (apply lor_range; [lia| |]); try lia; apply (shiftl_range _ 8); lia.
Qed.

Lemma sbox32_u32 S c w : (c = 0x1b \/ c = 0x69) -> (forall b, is_byte b -> is_byte (S b)) ->
  is_u32 (Spec.sbox32 S c w).
Proof.
  intros Hc HS. unfold Spec.sbox32.
  apply word_u32; repeat apply lxor_byte; try apply MULx_byte; try apply HS;
    try apply byte_of_range; done.
Qed.

Lemma MULalpha_u32 c : is_byte c -> is_u32 (Spec.MULalpha c).
Proof.
  intros Hc. rewrite <- MULa_spec by done.
  assert (H : (0 <=? MULa c) && (MULa c <? 2 ^ 32) = true)
    by (revert c Hc; apply byte_forall; vm_compute; reflexivity).
  apply andb_true_iff in H. unfold is_u32. lia.
Qed.
Lemma DIValpha_u32 c : is_byte c -> is_u32 (Spec.DIValpha c).
Proof.
  intros Hc. rewrite <- DIVa_spec by done.
  assert (H : (0 <=? DIVa c) && (DIVa c <? 2 ^ 32) = true)
    by (revert c Hc; apply byte_forall; vm_compute; reflexivity).
  apply andb_true_iff in H. unfold is_u32. lia.
Qed.

Lemma S1_u32 w : is_u32 (Spec.S1 w).
Proof. apply sbox32_u32; auto using SR_byte. Qed.
Lemma S2_u32 w : is_u32 (Spec.S2 w).
Proof. apply sbox32_u32; auto using SQ_byte. Qed.

#[local] Opaque Spec.MULalpha Spec.DIValpha Spec.S1 Spec.S2 Spec.word.

(** all words of the generator are 32-bit words *)
Record gen_u32 (g : generator) : Prop := mk_gen_u32 {
  gu_lfsr : Forall is_u32 (lfsr g);
  gu_R : is_u32 (R1 g) /\ is_u32 (R2 g) /\ is_u32 (R3 g) }.

Lemma nth_Forall {A} (Q : A -> Prop) l i d : Q d -> Forall Q l -> Q (nth i l d).
Proof.
  intros Hd Hl. rewrite nth_lookup. destruct (l !! i) eqn:E; [|done].
  by apply (Forall_lookup_1 _ _ _ _ Hl E).
Qed.

Lemma reg_u32 g i : gen_u32 g -> is_u32 (reg g i).
Proof. intros [H _]. unfold reg. apply (nth_Forall is_u32); [unfold is_u32; lia|done]. Qed.

Lemma byte_0 : is_byte 0.
Proof. unfold is_byte. lia. Qed.

Lemma feedback_u32 g : gen_u32 g -> is_u32 (feedback g).
Proof.
  intros H. unfold feedback.
  repeat apply lxor_u32; try apply word_u32; try apply MULalpha_u32; try apply DIValpha_u32;
    try apply reg_u32; try apply byte_of_range; try apply byte_0; done.
Qed.

Lemma shift_in_u32 g v : gen_u32 g -> is_u32 v -> gen_u32 (shift_in g v).
Proof.
  intros [H R] Hv. split; [|done]. cbn [lfsr shift_in].
  apply Forall_app. split; [by apply Forall_drop|by apply Forall_singleton].
Qed.

Lemma clock_machine_u32 g : gen_u32 g ->
  is_u32 (clock_machine g).1 /\ gen_u32 (clock_machine g).2.
Proof.
  intros [H (HR1 & HR2 & HR3)]. unfold clock_machine. cbn [fst snd].
  split; [apply lxor_u32; [apply u32_range|done]|]. constructor; cbn [lfsr R1 R2 R3]; [done|].
  split; [apply u32_range|].
  split; [apply S1_u32|apply S2_u32].
Qed.

Lemma init_mode_u32 n : forall g, gen_u32 g -> gen_u32 (init_mode n g).
Proof.
  induction n as [|n IH]; intros g H; [done|]. cbn [init_mode].
  destruct (clock_machine_u32 g H) as [Hf Hg]. destruct (clock_machine g) as [f g1].
  apply IH, shift_in_u32; [done|]. apply lxor_u32; [by apply feedback_u32|done].
Qed.

Lemma gen_words_u32 n : forall g, gen_u32 g -> Forall is_u32 (gen_words n g).
Proof.
  induction n as [|n IH]; intros g H; [constructor|]. cbn [gen_words].
  destruct (clock_machine_u32 g H) as [Hf Hg]. destruct (clock_machine g) as [f g1].
  cbn [fst snd] in *. constructor; [apply lxor_u32; [done|by apply reg_u32]|].
  apply IH, shift_in_u32; [done|by apply feedback_u32].
Qed.

Lemma keystream_u32 k iv n : Forall is_byte k -> Forall is_byte iv ->
  Forall is_u32 (Spec_keystream k iv n).
Proof.
  intros Hk Hi. apply gen_words_u32. unfold gen_init.
  assert (H0 : gen_u32 (load_key k iv)).
  { assert (Hw : forall l i, Forall is_byte l ->
      is_u32 (Spec.word (nth i l 0) (nth (i + 1) l 0) (nth (i + 2) l 0) (nth (i + 3) l 0)))
      by (intros; apply word_u32; apply nth_Forall; auto using byte_0).
    assert (Hm : is_u32 0xffffffff) by (unfold is_u32; lia).
    split; [|cbn [R1 R2 R3 load_key]; unfold is_u32; lia].
    cbn [lfsr load_key]. unfold init_words.
    repeat (apply Forall_cons_2; [auto 10 using lxor_u32|]). apply Forall_nil_2. }
  apply (init_mode_u32 32) in H0. destruct (clock_machine_u32 _ H0) as [Hf Hg].
  destruct (clock_machine _) as [f g1]. apply shift_in_u32; [done|by apply feedback_u32].
Qed.
