(* ===== verification/Snow3gMac.v ===== *)
(** * The integrity function of SNOW 3G

    [_snow3g_integrity] reads the message in 64-bit blocks, folds them with the
    table of multiples, and masks the result with key stream.  It computes the
    MAC of the specification. *)
From S2P Require Import Prelude Snow3g Snow3gSpec Snow3gLfsr Snow3gMul.

#[local] Opaque pm_table mul_p MUL64 Spec.MULalpha Spec.DIValpha Spec.S1 Spec.S2 Spec.word.

(** ** The integrity function *)

(** eight bytes as a 64-bit word, the most significant first *)
Definition word64 (a b c d e f g h : Z) : Z :=
  Z.lor (Z.lor (Z.lor (Z.lor (Z.lor (Z.lor (Z.lor (Z.shiftl a 56) (Z.shiftl b 48))
    (Z.shiftl c 40)) (Z.shiftl d 32)) (Z.shiftl e 24)) (Z.shiftl f 16)) (Z.shiftl g 8)) h.

Lemma word64_range a b c d e f g h :
  is_byte a -> is_byte b -> is_byte c -> is_byte d ->
  is_byte e -> is_byte f -> is_byte g -> is_byte h ->
  0 <= word64 a b c d e f g h < 2 ^ 64.
Proof.
  unfold is_byte, word64. intros.
  repeat (apply lor_range; [lia| |]); try lia; apply (shiftl_range _ 8); lia.
Qed.

(** the message of [n] bytes padded with zeros, and its 64-bit blocks *)
Definition msg_byte (input : list Z) (n k : Z) : Z :=
  if k <? n then nth (Z.to_nat k) input 0 else 0.
Definition msg_block (input : list Z) (n i : Z) : Z :=
  let b k := msg_byte input n (8 * i + k) in
  word64 (b 0) (b 1) (b 2) (b 3) (b 4) (b 5) (b 6) (b 7).

(** EVAL of the specification: the blocks and the length, by Horner's rule *)
Definition eval_poly (P Q : Z) (input : list Z) (n : Z) : Z :=
  let e := fold_left (fun e i => MUL64 (Z.lxor e (msg_block input n (Z.of_nat i))) P 0x1b)
                     (seq 0 (Z.to_nat ((n + 7) / 8))) 0 in
  MUL64 (Z.lxor e (8 * n)) Q 0x1b.

Definition spec_mac (key iv input : list Z) (n : Z) : list Z :=
  let z := Spec_keystream (spec_key key) iv 5 in
  let w i := nth i z 0 in
  let P := Z.lor (Z.shiftl (w 0%nat) 32) (w 1%nat) in
  let Q := Z.lor (Z.shiftl (w 2%nat) 32) (w 3%nat) in
  be_bytes (Z.lxor (Z.shiftr (eval_poly P Q input n) 32) (w 4%nat)).

Lemma GET64_read p off k : 0 <= off + k < Z.of_nat (length p) ->
  (let* l := mem_read p (off + k) 1 in of_option Out_of_bounds (head l))
  = Ok (nth (Z.to_nat (off + k)) p 0).
Proof.
  intros H. rewrite mem_read_total by lia. cbn [res_bind].
  rewrite nth_lookup. rewrite <- (Nat.add_0_r (Z.to_nat (off + k))) at 2.
  rewrite <- lookup_drop.
  assert (Hl : (1 <= length (drop (Z.to_nat (off + k)) p))%nat) by (rewrite length_drop; lia).
  destruct (drop _ p) as [|x t]; [cbn in Hl; lia|]. done.
Qed.

Lemma GET64_ok input n i av :
  0 <= i -> 1 <= av <= 8 -> 8 * i + av <= Z.of_nat (length input) ->
  av = Z.min 8 (n - 8 * i) ->
  GET64 input (8 * i) av = Ok (msg_block input n i).
Proof.
  intros Hi Hav Hlen Hn. unfold GET64.
  destruct (_ || _) eqn:E; [apply orb_true_iff in E; lia|].
  assert (H : forall k, 0 <= k < 8 ->
    (if k <? av then let* l := mem_read input (8 * i + k) 1 in of_option Out_of_bounds (head l)
     else Ok 0) = Ok (msg_byte input n (8 * i + k))).
  { intros k Hk. unfold msg_byte. destruct (k <? av) eqn:Ek.
    - rewrite GET64_read by lia. destruct (_ <? n) eqn:En; [done|lia].
    - destruct (_ <? n) eqn:En; [lia|done]. }
  rewrite !H by lia. done.
Qed.

Lemma msg_block_range input n i : Forall is_byte input -> 0 <= msg_block input n i < 2 ^ 64.
Proof.
  intros H. assert (Hb : forall k, is_byte (msg_byte input n k)).
  { intros k. unfold msg_byte. case_match; [|apply byte_0]. by apply nth_Forall. }
  unfold msg_block. cbv zeta. apply word64_range; apply Hb.
Qed.

Lemma MULxPOW64_range v i : 0 <= v < 2 ^ 64 -> 0 <= MULxPOW64 v i 0x1b < 2 ^ 64.
Proof.
  intros Hv. induction i as [|i IH]; [done|]. cbn [MULxPOW64]. rewrite MULx64_eq.
  apply lxor_range; [lia| |case_match; lia]. unfold u64. apply Z.mod_pos_bound. lia.
Qed.

Lemma MUL64_loop_range v p n : 0 <= v < 2 ^ 64 -> forall i r, 0 <= r < 2 ^ 64 ->
  0 <= MUL64_loop v p 0x1b n i r < 2 ^ 64.
Proof.
  intros Hv. induction n as [|n IH]; intros i r Hr; [done|]. cbn [MUL64_loop]. apply IH.
  case_match; [done|]. apply lxor_range; [lia|done|by apply MULxPOW64_range].
Qed.

Lemma MUL64_range v p : 0 <= v < 2 ^ 64 -> 0 <= MUL64 v p 0x1b < 2 ^ 64.
Proof.
  intros. rewrite MUL64_unfold. apply MUL64_loop_range; lia.
Qed.

Lemma mul_p_MUL64 init P x :
  length init = 2048%nat -> 0 <= P < 2 ^ 64 -> 0 <= x < 2 ^ 64 ->
  mul_p (pm_table init P) x = MUL64 x P 0x1b.
Proof.
  intros Hl HP Hx. rewrite (mul_p_times P init x Hl Hx). exact (MUL64_comm P x HP Hx).
Qed.

(** folding blocks with any multiplication the table implements *)
Lemma eval_blocks_ok (pm : list Z) (mul : Z -> Z) input n m : forall i e,
  (forall x, 0 <= x < 2 ^ 64 -> mul_p pm x = mul x /\ 0 <= mul x < 2 ^ 64) ->
  Forall is_byte input ->
  0 <= e < 2 ^ 64 -> 8 * Z.of_nat (i + m) <= n -> n <= Z.of_nat (length input) ->
  let r := fold_left (fun e i => mul (Z.lxor e (msg_block input n (Z.of_nat i)))) (seq i m) e in
  eval_blocks pm input m (Z.of_nat i) e = Ok r /\ 0 <= r < 2 ^ 64.
Proof.
  induction m as [|m IH]; intros i e Hmul Hin He Hn Hle r; [done|].
  unfold r. cbn [eval_blocks seq fold_left]. rewrite Z.mul_comm.
  rewrite (GET64_ok _ n) by lia. cbn [res_bind].
  pose proof (msg_block_range input n (Z.of_nat i) Hin) as Hb.
  assert (Hx : 0 <= Z.lxor e (msg_block input n (Z.of_nat i)) < 2 ^ 64)
    by (by apply lxor_range).
  destruct (Hmul _ Hx) as [Hm Hr]. rewrite Hm.
  replace (Z.of_nat i + 1) with (Z.of_nat (S i)) by lia.
  apply (IH (S i)); [exact Hmul|exact Hin|exact Hr|lia|exact Hle].
Qed.

Lemma spec_key_bytes key : Forall is_byte key -> Forall is_byte (spec_key key).
Proof.
  intros H. unfold spec_key. rewrite !Forall_app. repeat split; apply Forall_take; try done;
    by apply Forall_drop.
Qed.

Lemma integrity_iv_bytes count fresh direction :
  Forall is_byte (integrity_iv count fresh direction) /\
  length (integrity_iv count fresh direction) = 16%nat.
Proof.
  split; [|done].
  assert (Hd : is_byte (Z.shiftl (Z.land direction 1) 7)).
  { change 1 with (Z.ones 1). rewrite Z.land_ones by lia.
    pose proof (Z.mod_pos_bound direction (2 ^ 1)). unfold is_byte.
    rewrite Z.shiftl_mul_pow2 by lia. lia. }
  unfold integrity_iv, be_bytes. cbn [app].
  repeat (apply Forall_cons_2; [auto using lxor_byte, byte_of_range|]). apply Forall_nil_2.
Qed.

(** the two 64-bit points from four words of key stream *)
Lemma point_range a b : is_u32 a -> is_u32 b -> 0 <= Z.lor (Z.shiftl a 32) b < 2 ^ 64.
Proof.
  unfold is_u32. intros. apply lor_range; [lia| |lia]. apply (shiftl_range _ 32); lia.
Qed.

(** the number [m + 1] of blocks of a message of [n] bytes *)
Lemma block_count n : 1 <= n -> exists m,
  8 * Z.of_nat m < n <= 8 * Z.of_nat m + 8 /\
  Z.to_nat ((n + 7) / 8) = S m /\ (n * 8 + 63) `quot` 64 + 1 - 2 = Z.of_nat m.
Proof.
  intros Hn. exists (Z.to_nat ((n + 7) / 8 - 1)).
  pose proof (Z.div_mod (n + 7) 8). pose proof (Z.mod_pos_bound (n + 7) 8).
  assert (1 <= (n + 7) / 8) by (apply Z.div_le_lower_bound; lia).
  repeat split; try lia.
  rewrite Z.quot_div_nonneg by lia. rewrite Z2Nat.id by lia.
  enough ((n * 8 + 63) / 64 = (n + 7) / 8) by lia.
  symmetry. apply (Z.div_unique _ _ _ (n * 8 + 63 - 64 * ((n + 7) / 8))); lia.
Qed.

(** the part of the integrity function after the key stream *)
Lemma mac_of_words init P Q otp input n :
  length init = 2048%nat -> 0 <= P < 2 ^ 64 -> Forall is_byte input ->
  1 <= n <= Z.of_nat (length input) -> 8 * n < 2 ^ 31 ->
  (let d := (n * 8 + 63) `quot` 64 + 1 in
   let pm := pm_table init P in
   let* eval := eval_blocks pm input (Z.to_nat (d - 2)) 0 0 in
   let* m := GET64 input ((d - 2) * 8) (Z.min 8 (n - (d - 2) * 8)) in
   let eval := mul_p pm (Z.lxor eval m) in
   let eval := Z.lxor eval (u64 (n * 8)) in
   let eval := MUL64 eval Q 0x1b in
   let eval := Z.shiftr eval 32 in
   let eval := Z.lxor eval otp in
   Ok (be_bytes eval))
  = Ok (be_bytes (Z.lxor (Z.shiftr (eval_poly P Q input n) 32) otp)).
Proof.
  intros Hi HP Hib Hn Hmax. destruct (block_count n) as (m & Hm & HS & Hd); [lia|].
  cbv zeta. rewrite Hd, Nat2Z.id.
  assert (Hmul : forall x, 0 <= x < 2 ^ 64 ->
    mul_p (pm_table init P) x = MUL64 x P 0x1b /\ 0 <= MUL64 x P 0x1b < 2 ^ 64).
  { intros x Hx. split; [by apply mul_p_MUL64|by apply MUL64_range]. }
  destruct (eval_blocks_ok (pm_table init P) (fun x => MUL64 x P 0x1b) input n m 0 0 Hmul Hib)
    as [Heq Hr]; [lia|lia|lia|].
  change (Z.of_nat 0) with 0 in Heq. rewrite Heq. cbn [res_bind].
  rewrite (Z.mul_comm (Z.of_nat m) 8).
  rewrite (GET64_ok input n (Z.of_nat m)) by lia. cbn [res_bind].
  destruct (Hmul (Z.lxor (fold_left (fun e i => MUL64 (Z.lxor e (msg_block input n (Z.of_nat i))) P 0x1b)
    (seq 0 m) 0) (msg_block input n (Z.of_nat m)))) as [Hm1 _].
  { apply lxor_range; [lia|exact Hr|by apply msg_block_range]. }
  rewrite Hm1. unfold eval_poly. cbv zeta.
  rewrite HS, seq_S, fold_left_app. cbn [fold_left]. rewrite Nat.add_0_l.
  replace (u64 (n * 8)) with (8 * n); [done|]. unfold u64. rewrite Z.mod_small; lia.
Qed.

Lemma snow3g_integrity_ok : forall garbage init count fresh direction key n input,
  length garbage = 16%nat -> length init = 2048%nat -> length key = 16%nat ->
  Forall is_byte key -> Forall is_byte input ->
  1 <= n <= Z.of_nat (length input) -> 8 * n < 2 ^ 31 ->
  _snow3g_integrity garbage init count fresh direction key n input =
    Ok (spec_mac key (integrity_iv count fresh direction) input n).
Proof.
  intros garbage init count fresh direction key n input Hg Hi Hk Hkb Hib Hn Hmax.
  destruct (integrity_iv_bytes count fresh direction) as [Hivb Hivl].
  unfold _snow3g_integrity. rewrite (swap_key_spec key Hk). cbn [res_bind].
  destruct (rep_init garbage (spec_key key) (integrity_iv count fresh direction))
    as (s & Hs & Hrep); [done|by apply length_spec_key|done|].
  unfold spec_key in Hs. rewrite Hs. cbn [res_bind].
  rewrite (rep_words _ _ _ Hrep). cbn [res_bind].
  unfold spec_mac. cbv zeta.
  pose proof (keystream_u32 (spec_key key) _ 5 (spec_key_bytes key Hkb) Hivb) as Hz.
  assert (Hzl : length (Spec_keystream (spec_key key) (integrity_iv count fresh direction) 5) = 5%nat)
    by apply length_gen_words.
  unfold Spec_keystream in *.
  destruct (gen_words 5 _) as [|z0 [|z1 [|z2 [|z3 [|z4 [|]]]]]]; try discriminate Hzl.
  rewrite !Forall_cons in Hz. destruct Hz as (Hz0 & Hz1 & Hz2 & Hz3 & Hz4 & _). cbn [nth].
  apply mac_of_words; [exact Hi|by apply point_range|exact Hib|exact Hn|exact Hmax].
Qed.

(** C15: the integrity function evaluates the polynomial of the specification:
    for every 16-byte key, every message of at least one byte and every count,
    fresh value and direction, [_snow3g_integrity] ends without an access
    outside its arrays and returns the MAC of the specification: the message,
    padded to 64-bit blocks and followed by its length in bits, is evaluated at
    the point P, multiplied by Q, truncated and masked by key stream, with plain
    field multiplication and the shifting register; the values of the
    uninitialised arrays do not matter. *)
Theorem snow3g_integrity_refines_spec : forall garbage init count fresh direction key n input,
  length garbage = 16%nat -> length init = 2048%nat -> length key = 16%nat ->
  Forall is_byte key -> Forall is_byte input ->
  1 <= n <= Z.of_nat (length input) -> 8 * n < 2 ^ 31 ->
  _snow3g_integrity garbage init count fresh direction key n input =
    Ok (spec_mac key (integrity_iv count fresh direction) input n).
Proof. exact snow3g_integrity_ok. Qed.

(** test set 4 of the specification, the values of the [main] of [snow3g.c] *)
Definition test4_key : list Z :=
  [0xC7; 0x36; 0xC6; 0xAA; 0xB2; 0x2B; 0xFF; 0xF9; 0x1E; 0x26; 0x98; 0xD2; 0xE2; 0x2A; 0xD5; 0x7E].
Definition test4_data : list Z :=
  [0xD0; 0xA7; 0xD4; 0x63; 0xDF; 0x9F; 0xB2; 0xB2; 0x78; 0x83; 0x3F; 0xA0; 0x2E; 0x23; 0x5A; 0xA1;
   0x72; 0xBD; 0x97; 0x0C; 0x14; 0x73; 0xE1; 0x29; 0x07; 0xFB; 0x64; 0x8B; 0x65; 0x99; 0xAA; 0xA0;
   0xB2; 0x4A; 0x03; 0x86; 0x65; 0x42; 0x2B; 0x20; 0xA4; 0x99; 0x27; 0x6A; 0x50; 0x42; 0x70; 0x09].

Lemma test4_bytes : Forall is_byte test4_key /\ Forall is_byte test4_data.
Proof. unfold is_byte. split; repeat (apply Forall_cons_2; [lia|]); apply Forall_nil_2. Qed.

Lemma test4_len : 1 <= 48 <= Z.of_nat (length test4_data).
Proof. cbn. lia. Qed.

Lemma snow3g_integrity_refines_spec_witness :
  Ok (spec_mac test4_key (integrity_iv 0x14793E41 0x0397E8FD 1) test4_data 48)
  = Ok [0x38; 0xB5; 0x54; 0xC0].
Proof.
  rewrite <- (snow3g_integrity_refines_spec (replicate 16 0) (replicate 2048 0) 0x14793E41
    0x0397E8FD 1 test4_key 48 test4_data eq_refl eq_refl eq_refl (proj1 test4_bytes)
    (proj2 test4_bytes) test4_len eq_refl).
  vm_compute. reflexivity.
Defined.
