(* ===== verification/Secu.v ===== *)
(** * The security library (openair3/SECU)

    Stream ciphers and integrity algorithms by number: 0 is the null
    algorithm, 1 is SNOW 3G ([Snow3g]), 2 is AES, which the code takes from
    OpenSSL.  OpenSSL is a parameter ([Openssl]); what the code relies on are
    the laws of [OpensslLaws]: counter mode is an exclusive or with a key
    stream, hence its own inverse and length preserving, and a CMAC has 16
    bytes.  The arrays the C code leaves uninitialised are a parameter too
    ([Stack]); the theorems hold for all their values. *)
From S2P Require Import Prelude Snow3g Snow3gLfsr.

Class Openssl := {
  EVP_aes_128_ctr : list Z -> list Z -> list Z -> list Z;   (** key, IV, message *)
  EVP_cmac_aes_128 : list Z -> list Z -> list Z             (** key, message *)
}.
Class OpensslLaws `{Openssl} := {
  ctr_length key iv msg : length (EVP_aes_128_ctr key iv msg) = length msg;
  ctr_involutive key iv msg : EVP_aes_128_ctr key iv (EVP_aes_128_ctr key iv msg) = msg;
  cmac_length key msg : length (EVP_cmac_aes_128 key msg) = 16%nat
}.

(** the content of an uninitialised array of [n] words *)
Class Stack := {
  uninit : nat -> list Z;
  uninit_length n : length (uninit n) = n
}.

Section Secu.
Context `{Openssl} `{Stack}.

Record nas_stream_cipher_t := mk_stream {
  ns_context : list Z;     (** the key bytes the context points to *)
  ns_count : Z;            (** uint32_t *)
  ns_bearer : Z;           (** uint8_t *)
  ns_direction : Z;        (** uint8_t *)
  ns_message : list Z;
  ns_blength : Z           (** uint32_t, in bits *)
}.

(** ** AES *)

(** the byte that holds the bit fields [padding:2; direction:1; bearer:5] *)
Definition iv_flags (bearer direction : Z) : Z :=
  Z.lor (Z.shiftl (Z.land direction 1) 2) (Z.shiftl (Z.land bearer 31) 3).

(** the bytes of [iv16_t] and [iv8_t] after [d.count = htonl(count)] *)
Definition iv16_t (count bearer direction : Z) : list Z :=
  be_bytes count ++ iv_flags bearer direction :: replicate 11 0.
Definition iv8_t (count bearer direction : Z) : list Z :=
  be_bytes count ++ iv_flags bearer direction :: replicate 3 0.

Definition aes_128_ctr (key iv msg : list Z) : list Z := EVP_aes_128_ctr key iv msg.

(** the MAC is over the IV followed by the message *)
Definition cipher_aes_128_cbc_cmac (key iv msg : list Z) : list Z :=
  EVP_cmac_aes_128 key (iv ++ msg).

(** ** The algorithms *)

Definition nas_stream_encrypt_eea0 (c : nas_stream_cipher_t) : res (list Z) :=
  let byte_length := Z.shiftr (u32 (ns_blength c + 7)) 3 in
  mem_read (ns_message c) 0 byte_length.

Definition nas_stream_encrypt_eea1 (c : nas_stream_cipher_t) : res (list Z) :=
  snow3g_ciphering (uninit 16) (ns_count c) (ns_bearer c) (ns_direction c) (ns_context c)
    (ns_blength c / 8) (ns_message c).

Definition nas_stream_encrypt_eea2 (c : nas_stream_cipher_t) : res (list Z) :=
  if negb ((ns_bearer c <? 32) && (ns_direction c <? 2) && (7 <? ns_blength c))
  then Err Exit else
  let* key := mem_read (ns_context c) 0 16 in
  if negb (Z.land (ns_blength c) 7 =? 0) then Err Exit else
  let* msg := mem_read (ns_message c) 0 (Z.shiftr (ns_blength c) 3) in
  Ok (aes_128_ctr key (iv16_t (ns_count c) (ns_bearer c) (ns_direction c)) msg).

Definition nas_stream_encrypt_eia1 (c : nas_stream_cipher_t) : res (list Z) :=
  snow3g_integrity (uninit 16) (uninit 2048) (ns_count c) (ns_bearer c) (ns_direction c)
    (ns_context c) (ns_blength c / 8) (ns_message c).

Definition nas_stream_encrypt_eia2 (c : nas_stream_cipher_t) : res (list Z) :=
  if negb ((ns_bearer c <? 32) && (Z.land (ns_blength c) 7 =? 0)) then Err Exit else
  let* key := mem_read (ns_context c) 0 16 in
  let* msg := mem_read (ns_message c) 0 (Z.shiftr (ns_blength c) 3) in
  let result := cipher_aes_128_cbc_cmac key
                  (iv8_t (ns_count c) (ns_bearer c) (ns_direction c)) msg in
  mem_read result 0 4.

(** [alg] other than 0, 1, 2 is an assertion failure *)
Definition stream_compute_encrypt (alg : Z) (c : nas_stream_cipher_t) : res (list Z) :=
  if alg =? 0 then nas_stream_encrypt_eea0 c
  else if alg =? 1 then nas_stream_encrypt_eea1 c
  else if alg =? 2 then nas_stream_encrypt_eea2 c
  else Err Exit.

(** algorithm 0 logs an error and leaves [out] as it was *)
Definition stream_compute_integrity (alg : Z) (c : nas_stream_cipher_t) (out : list Z)
  : res (list Z) :=
  if alg =? 0 then Ok out
  else if alg =? 1 then nas_stream_encrypt_eia1 c
  else if alg =? 2 then nas_stream_encrypt_eia2 c
  else Err Exit.

End Secu.

(** a toy OpenSSL that keeps the laws, for concrete runs *)
Module ToyOpenssl.
#[export] Instance openssl : Openssl := {
  EVP_aes_128_ctr key iv msg := (fun b => Z.lxor b (nth 0 key 0)) <$> msg;
  EVP_cmac_aes_128 key msg := replicate 16 (fold_left Z.lxor msg (nth 1 key 0))
}.
#[export] Instance openssl_laws : OpensslLaws.
Proof.
  split; intros; cbn.
  - apply length_fmap.
  - rewrite <- list_fmap_compose. rewrite <- (list_fmap_id msg) at 2.
    apply list_fmap_ext. intros i x _. cbn. by rewrite Z.lxor_assoc, Z.lxor_nilpotent, Z.lxor_0_r.
  - done.
Qed.
#[export] Instance stack : Stack :=
  Build_Stack (fun n => replicate n 0) (fun n => length_replicate n 0).
End ToyOpenssl.
