(* ===== verification/PdcpSecurity.v ===== *)
(** * Ciphering and integrity for PDCP

    Models [nr_pdcp_security_nea1.c], [nr_pdcp_security_nea2.c],
    [nr_pdcp_integrity_nia1.c] and [nr_pdcp_integrity_nia2.c] of
    openair2/LAYER2/nr_pdcp: the functions an entity calls through its
    [cipher], [decipher] and [integrity] pointers.

    [PdcpCrypto] is the interface the entity is written against and
    [PdcpCryptoLaws] what it relies on; both are implemented here from the
    algorithms. *)
From S2P Require Import Prelude Snow3g Snow3gSpec Snow3gLfsr Snow3gMul Snow3gMac Secu.

(** the values of the function pointers *)
Inductive nea := NEA1 | NEA2.
Inductive nia := NIA1 | NIA2.

#[export] Instance nea_eq_dec : EqDecision nea.
Proof. intros x y. unfold Decision. decide equality. Defined.
#[export] Instance nia_eq_dec : EqDecision nia.
Proof. intros x y. unfold Decision. decide equality. Defined.

(** ** The interface *)

(** [cipher alg key buffer bearer count direction]: the new content of the
    buffer; [integrity alg key message bearer count direction]: the MAC *)
Class PdcpCrypto := {
  cipher : nea -> list Z -> list Z -> Z -> Z -> Z -> res (list Z);
  integrity : nia -> list Z -> list Z -> Z -> Z -> Z -> res (list Z)
}.

(** the bearers, directions and data for which the functions are total *)
Definition crypto_args (key data : list Z) (bearer direction : Z) : Prop :=
  length key = 16%nat /\ Forall is_byte key /\
  1 <= Z.of_nat (length data) < 2 ^ 28 /\ 1 <= bearer <= 31 /\ 0 <= direction <= 1.

Class PdcpCryptoLaws `{PdcpCrypto} := {
  cipher_involutive alg key data bearer count direction :
    crypto_args key data bearer direction ->
    exists out, cipher alg key data bearer count direction = Ok out /\
      length out = length data /\
      cipher alg key out bearer count direction = Ok data;
  integrity_total alg key data bearer count direction :
    crypto_args key data bearer direction -> Forall is_byte data ->
    exists mac, integrity alg key data bearer count direction = Ok mac /\ length mac = 4%nat
}.

(** ** The implementation *)
Section Implementation.
Context `{Openssl} `{Stack}.

(** an array of [length] elements on the stack needs a positive length *)
Definition nr_pdcp_security_nea1_cipher (key buffer : list Z) (bearer count direction : Z)
  : res (list Z) :=
  let len := Z.of_nat (length buffer) in
  let ctx := mk_stream key count (u8 (bearer - 1)) (u8 direction) buffer (u32 (len * 8)) in
  if len <? 1 then Err Out_of_bounds else
  let* out := stream_compute_encrypt 1 ctx in
  mem_read out 0 len.

Definition nr_pdcp_security_nea2_cipher (key buffer : list Z) (bearer count direction : Z)
  : res (list Z) :=
  let len := Z.of_nat (length buffer) in
  if negb ((0 <? len) && (-1 <? bearer) && (bearer <? 32)
           && (-1 <? direction) && (direction <? 2)) then Err Exit else
  let* key := mem_read key 0 16 in
  let out := aes_128_ctr key (iv16_t count (bearer - 1) direction) buffer in
  mem_read out 0 len.

Definition nr_pdcp_integrity_nia1_integrity (key buffer : list Z) (bearer count direction : Z)
  : res (list Z) :=
  let len := Z.of_nat (length buffer) in
  let ctx := mk_stream key count (u8 (bearer - 1)) (u8 direction) buffer (u32 (len * 8)) in
  stream_compute_integrity 1 ctx (replicate 4 0).

Definition nr_pdcp_integrity_nia2_integrity (key buffer : list Z) (bearer count direction : Z)
  : res (list Z) :=
  if negb ((0 <? bearer) && (bearer <? 33)) then Err Exit else
  let* key := mem_read key 0 16 in
  let result := cipher_aes_128_cbc_cmac key (iv8_t count (bearer - 1) direction) buffer in
  mem_read result 0 4.

#[export] Instance pdcp_crypto : PdcpCrypto := {
  cipher alg := match alg with
                | NEA1 => nr_pdcp_security_nea1_cipher
                | NEA2 => nr_pdcp_security_nea2_cipher
                end;
  integrity alg := match alg with
                   | NIA1 => nr_pdcp_integrity_nia1_integrity
                   | NIA2 => nr_pdcp_integrity_nia2_integrity
                   end
}.

(** ** The implementation keeps the promises of the interface *)
Context {LAWS : OpensslLaws}.

Lemma mem_read_all (l : list Z) : mem_read l 0 (Z.of_nat (length l)) = Ok l.
Proof. rewrite mem_read_total by lia. by rewrite Nat2Z.id, drop_0, firstn_all. Qed.

Lemma blength_bytes n : 0 <= n < 2 ^ 28 -> u32 (n * 8) / 8 = n.
Proof. intros. unfold u32. rewrite Z.mod_small by lia. by rewrite Z.div_mul by lia. Qed.

Lemma nea1_snow3g key data bearer count direction :
  1 <= Z.of_nat (length data) < 2 ^ 28 -> 0 <= direction <= 1 ->
  nr_pdcp_security_nea1_cipher key data bearer count direction =
    let* out := snow3g_ciphering (uninit 16) count (u8 (bearer - 1)) direction key
                  (Z.of_nat (length data)) data in
    mem_read out 0 (Z.of_nat (length data)).
Proof.
  intros Hl Hd. unfold nr_pdcp_security_nea1_cipher.
  destruct (_ <? 1) eqn:E; [lia|]. cbn [stream_compute_encrypt Z.eqb Pos.eqb].
  unfold nas_stream_encrypt_eea1. cbn [ns_count ns_bearer ns_direction ns_context ns_blength ns_message].
  rewrite blength_bytes by lia.
  assert (Hu : u8 direction = direction) by (unfold u8; apply Z.mod_small; lia).
  rewrite Hu. reflexivity.
Qed.

Lemma nea1_involutive key data bearer count direction :
  crypto_args key data bearer direction ->
  exists out, nr_pdcp_security_nea1_cipher key data bearer count direction = Ok out /\
    length out = length data /\
    nr_pdcp_security_nea1_cipher key out bearer count direction = Ok data.
Proof.
  intros (Hk & _ & Hl & _ & Hd). rewrite nea1_snow3g by lia.
  set (iv := ciphering_iv count (u8 (bearer - 1)) direction).
  pose proof (length_keystream_bytes key iv (Z.of_nat (length data)) ltac:(lia)) as Hks.
  rewrite snow3g_ciphering_ok by (rewrite ?uninit_length; done || lia). fold iv.
  cbn [res_bind]. rewrite take_ge by lia.
  set (ks := keystream_bytes key iv _) in *.
  assert (Hlen : length (zip_with Z.lxor data ks) = length data) by (apply length_cipher; lia).
  exists (zip_with Z.lxor data ks). split; [|split; [done|]].
  - rewrite <- Hlen at 1. apply mem_read_all.
  - rewrite nea1_snow3g by lia. rewrite Hlen.
    rewrite snow3g_ciphering_ok by (rewrite ?uninit_length; done || lia). fold iv ks.
    cbn [res_bind]. rewrite take_ge by lia. rewrite xor_twice by lia. apply mem_read_all.
Qed.

Lemma nea2_involutive key data bearer count direction :
  crypto_args key data bearer direction ->
  exists out, nr_pdcp_security_nea2_cipher key data bearer count direction = Ok out /\
    length out = length data /\
    nr_pdcp_security_nea2_cipher key out bearer count direction = Ok data.
Proof using LAWS.
  intros (Hk & _ & Hl & Hb & Hd). unfold nr_pdcp_security_nea2_cipher.
  assert (Hkey : mem_read key 0 16 = Ok key) by (by rewrite <- (mem_read_all key), Hk).
  assert (Hg : forall n, n = Z.of_nat (length data) ->
    negb ((0 <? n) && (-1 <? bearer) && (bearer <? 32) && (-1 <? direction) && (direction <? 2))
    = false).
  { intros n ->. apply negb_false_iff. repeat (apply andb_true_iff; split); lia. }
  rewrite Hg, Hkey by done. cbn [res_bind]. unfold aes_128_ctr.
  set (iv := iv16_t count (bearer - 1) direction).
  exists (EVP_aes_128_ctr key iv data). split; [|split; [apply ctr_length|]].
  - rewrite <- (ctr_length key iv data) at 1. apply mem_read_all.
  - rewrite Hg by (by rewrite ctr_length). rewrite ctr_involutive, ctr_length. apply mem_read_all.
Qed.

Lemma nia1_total key data bearer count direction :
  crypto_args key data bearer direction -> Forall is_byte data ->
  exists mac, nr_pdcp_integrity_nia1_integrity key data bearer count direction = Ok mac /\
    length mac = 4%nat.
Proof.
  intros (Hk & Hkb & Hl & Hb & Hd) Hdb. unfold nr_pdcp_integrity_nia1_integrity.
  cbn [stream_compute_integrity Z.eqb Pos.eqb].
  unfold nas_stream_encrypt_eia1, snow3g_integrity.
  cbn [ns_count ns_bearer ns_direction ns_context ns_blength ns_message].
  rewrite blength_bytes by lia.
  rewrite snow3g_integrity_ok by (rewrite ?uninit_length; done || lia).
  by eexists.
Qed.

Lemma nia2_total key data bearer count direction :
  crypto_args key data bearer direction ->
  exists mac, nr_pdcp_integrity_nia2_integrity key data bearer count direction = Ok mac /\
    length mac = 4%nat.
Proof using LAWS.
  intros (Hk & _ & Hl & Hb & Hd). unfold nr_pdcp_integrity_nia2_integrity.
  destruct (negb _) eqn:E.
  { apply negb_true_iff, andb_false_iff in E. lia. }
  assert (Hkey : mem_read key 0 16 = Ok key) by (by rewrite <- (mem_read_all key), Hk).
  rewrite Hkey. cbn [res_bind]. unfold cipher_aes_128_cbc_cmac.
  rewrite mem_read_total by (rewrite ?cmac_length; lia). rewrite drop_0.
  eexists. split; [done|]. rewrite length_take, cmac_length. done.
Qed.

#[export] Instance pdcp_crypto_laws : PdcpCryptoLaws.
Proof using LAWS.
  split.
  - intros [] *; [apply nea1_involutive|apply nea2_involutive].
  - intros [] *; [apply nia1_total|intros ? _; by apply nia2_total].
Qed.

(** For the radio bearer with identity 32 the integrity function of NIA2
    computes a MAC, and the cipher function of NEA2 stops the process. *)
Theorem nea2_rejects_bearer_32 key data count direction :
  length key = 16%nat ->
  nr_pdcp_security_nea2_cipher key data 32 count direction = Err Exit /\
  exists mac, nr_pdcp_integrity_nia2_integrity key data 32 count direction = Ok mac /\
    length mac = 4%nat.
Proof using LAWS.
  intros Hk. split.
  - unfold nr_pdcp_security_nea2_cipher. rewrite Z.ltb_irrefl. by rewrite andb_false_r.
  - unfold nr_pdcp_integrity_nia2_integrity. cbn [Z.ltb Z.compare Pos.compare Pos.compare_cont andb negb].
    assert (Hkey : mem_read key 0 16 = Ok key) by (by rewrite <- (mem_read_all key), Hk).
    rewrite Hkey. cbn [res_bind]. unfold cipher_aes_128_cbc_cmac.
    rewrite mem_read_total by (rewrite ?cmac_length; lia). rewrite drop_0.
    eexists. split; [done|]. rewrite length_take, cmac_length. done.
Qed.

End Implementation.

Import ToyOpenssl.
Lemma nea2_rejects_bearer_32_witness :
  nr_pdcp_security_nea2_cipher (replicate 16 1) [1; 2] 32 7 0 = Err Exit.
Proof. apply (nea2_rejects_bearer_32 (replicate 16 1) [1; 2] 7 0). reflexivity. Defined.
