(* ===== verification/PdcpSdu.v ===== *)
(** * The reception list of PDCP (openair2/LAYER2/nr_pdcp/nr_pdcp_sdu.c)

    SDUs kept in the order of their COUNT.  The list of C nodes is a Rocq
    list; [nr_pdcp_free_sdu] is the disappearance of the value. *)
From S2P Require Import Prelude.

Record nr_pdcp_integrity_data_t := mk_msg_integrity {
  mi_count : Z;
  mi_mac : list Z;
  mi_header_size : Z;
  mi_header : list Z
}.
#[export] Instance eta_mi : Eta nr_pdcp_integrity_data_t := fun r =>
  mk_msg_integrity (mi_count r) (mi_mac r) (mi_header_size r) (mi_header r).

(** [= { 0 }] *)
Definition msg_integrity_0 : nr_pdcp_integrity_data_t :=
  mk_msg_integrity 0 (replicate 4 0) 0 (replicate 3 0).

Record nr_pdcp_sdu_t := mk_pdcp_sdu {
  ps_count : Z;
  ps_buffer : list Z;
  ps_size : Z;
  ps_msg_integrity : nr_pdcp_integrity_data_t
}.

(** [nr_pdcp_new_sdu(count, buffer + off, size, msg_integrity)] *)
Definition nr_pdcp_new_sdu (count : Z) (buffer : list Z) (off size : Z)
    (msg_integrity : nr_pdcp_integrity_data_t) : res nr_pdcp_sdu_t :=
  let* data := mem_read buffer off size in
  Ok (mk_pdcp_sdu count data size msg_integrity).

Fixpoint nr_pdcp_sdu_list_add (l : list nr_pdcp_sdu_t) (sdu : nr_pdcp_sdu_t)
  : list nr_pdcp_sdu_t :=
  match l with
  | [] => [sdu]
  | cur :: next =>
      if ps_count sdu <? ps_count cur then sdu :: cur :: next
      else cur :: nr_pdcp_sdu_list_add next sdu
  end.

Fixpoint nr_pdcp_sdu_in_list (l : list nr_pdcp_sdu_t) (count : Z) : bool :=
  match l with
  | [] => false
  | cur :: next => if ps_count cur =? count then true else nr_pdcp_sdu_in_list next count
  end.

(** ** Sorted lists *)

(** strictly increasing counts, all from [lo] on *)
Fixpoint counts_from (lo : Z) (l : list nr_pdcp_sdu_t) : Prop :=
  match l with
  | [] => True
  | cur :: next => lo <= ps_count cur /\ counts_from (ps_count cur + 1) next
  end.

Lemma counts_from_weaken lo lo' l : lo' <= lo -> counts_from lo l -> counts_from lo' l.
Proof. destruct l; cbn; [done|]. intros ? [? ?]. split; [lia|done]. Qed.

Lemma counts_from_elem l : forall lo s, counts_from lo l -> s ∈ l -> lo <= ps_count s.
Proof.
  induction l as [|c l IH]; intros lo s H Hs; [by apply elem_of_nil in Hs|].
  cbn in H. destruct H as [H1 H2]. apply elem_of_cons in Hs as [->|Hs]; [done|].
  specialize (IH _ _ H2 Hs). lia.
Qed.

Lemma in_list_spec l c : nr_pdcp_sdu_in_list l c = true <-> exists s, s ∈ l /\ ps_count s = c.
Proof.
  induction l as [|x l IH]; cbn.
  - split; [done|]. intros (s & Hs & _). by apply elem_of_nil in Hs.
  - destruct (Z.eqb_spec (ps_count x) c) as [E|E].
    + split; [|done]. intros _. exists x. split; [by left|done].
    + rewrite IH. split.
      * intros (s & Hs & He). exists s. split; [by right|done].
      * intros (s & Hs & He). apply elem_of_cons in Hs as [->|Hs]; [done|]. by exists s.
Qed.

Lemma list_add_sorted s l : forall lo,
  counts_from lo l -> lo <= ps_count s -> nr_pdcp_sdu_in_list l (ps_count s) = false ->
  counts_from lo (nr_pdcp_sdu_list_add l s).
Proof.
  induction l as [|c l IH]; intros lo H Hlo Hn; [done|]. cbn in *.
  destruct H as [H1 H2]. destruct (Z.eqb_spec (ps_count c) (ps_count s)); [done|].
  destruct (ps_count s <? ps_count c) eqn:E; cbn.
  - split; [lia|]. split; [lia|done].
  - split; [lia|]. apply IH; [done|lia|done].
Qed.

Lemma list_add_perm s l : nr_pdcp_sdu_list_add l s ≡ₚ s :: l.
Proof.
  induction l as [|c l IH]; [done|]. cbn. case_match; [done|].
  rewrite IH. apply Permutation_swap.
Qed.
