(* ===== verification/PdcpEntity.v ===== *)
(** * The PDCP entity (openair2/LAYER2/nr_pdcp/nr_pdcp_entity.c)

    State and operations.  The calls of the upper layer are recorded in
    [trace]; the cipher and integrity functions are those of [PdcpCrypto]. *)
From S2P Require Import Prelude PdcpSdu PdcpSecurity.

Definition SHORT_SN_SIZE : Z := 12.
Definition LONG_SN_SIZE : Z := 18.
Definition SHORT_PDCP_HEADER_SIZE : Z := 2.
Definition LONG_PDCP_HEADER_SIZE : Z := 3.
Definition PDCP_INTEGRITY_SIZE : Z := 4.

Inductive nr_pdcp_entity_type_t := NR_PDCP_DRB_AM | NR_PDCP_DRB_UM | NR_PDCP_SRB.
#[export] Instance pdcp_type_eq_dec : EqDecision nr_pdcp_entity_type_t.
Proof. intros x y. unfold Decision. decide equality. Defined.

Record nr_pdcp_entity_security_keys_and_algos_t := mk_keys {
  integrity_algorithm : Z;
  ciphering_algorithm : Z;
  integrity_key : list Z;
  ciphering_key : list Z
}.
#[export] Instance eta_keys : Eta nr_pdcp_entity_security_keys_and_algos_t := fun r =>
  mk_keys (integrity_algorithm r) (ciphering_algorithm r) (integrity_key r) (ciphering_key r).

(** the counters the code updates, all [uint32_t] *)
Record nr_pdcp_statistics_t := mk_pdcp_stats {
  txpdu_pkts : Z; txpdu_bytes : Z; txpdu_sn : Z;
  rxpdu_pkts : Z; rxpdu_bytes : Z; rxpdu_sn : Z;
  rxpdu_dd_pkts : Z; rxpdu_dd_bytes : Z;
  txsdu_pkts : Z; txsdu_bytes : Z;
  rxsdu_pkts : Z; rxsdu_bytes : Z
}.
#[export] Instance eta_pdcp_stats : Eta nr_pdcp_statistics_t := fun s =>
  mk_pdcp_stats (txpdu_pkts s) (txpdu_bytes s) (txpdu_sn s) (rxpdu_pkts s) (rxpdu_bytes s)
    (rxpdu_sn s) (rxpdu_dd_pkts s) (rxpdu_dd_bytes s) (txsdu_pkts s) (txsdu_bytes s)
    (rxsdu_pkts s) (rxsdu_bytes s).
Definition stats_0 : nr_pdcp_statistics_t := mk_pdcp_stats 0 0 0 0 0 0 0 0 0 0 0 0.
Notation "s '<|' f '+=32' n '|>'" := (update f (fun x => u32 (x + n)) s)
  (at level 12, f at next level, left associativity) : c_scope.

(** a security context: NULL, an allocated copy of a key, the address of the
    key of the entity (what [nr_pdcp_security_nea2_init] returns), or a
    dangling pointer *)
Inductive security_context_t :=
  | Ctx_null
  | Ctx_copy (key : list Z)
  | Ctx_alias
  | Ctx_freed.

(** a call of [deliver_sdu] *)
Inductive pdcp_event := Deliver (data : list Z) (mi : nr_pdcp_integrity_data_t).

Record nr_pdcp_entity_t := mk_pdcp {
  trace : list pdcp_event;
  type : nr_pdcp_entity_type_t;
  rb_id : Z;
  pdusession_id : Z;
  has_sdap_rx : bool;
  has_sdap_tx : bool;
  sn_size : Z;
  t_reordering : Z;
  discard_timer : Z;
  sn_max : Z;
  window_size : Z;
  tx_next : Z;
  rx_next : Z;
  rx_deliv : Z;
  rx_reord : Z;
  t_current : Z;
  t_reordering_start : Z;
  has_ciphering : bool;
  has_integrity : bool;
  security_keys_and_algos : nr_pdcp_entity_security_keys_and_algos_t;
  security_context : security_context_t;
  cipher_fn : option nea;
  free_security : option nea;
  integrity_context : security_context_t;
  integrity_fn : option nia;
  free_integrity : option nia;
  is_gnb : bool;
  rx_list : list nr_pdcp_sdu_t;
  rx_size : Z;
  stats : nr_pdcp_statistics_t;
  entity_suspended : bool
}.
#[export] Instance eta_pdcp : Eta nr_pdcp_entity_t := fun e =>
  mk_pdcp (trace e) (type e) (rb_id e) (pdusession_id e) (has_sdap_rx e) (has_sdap_tx e)
    (sn_size e) (t_reordering e) (discard_timer e) (sn_max e) (window_size e) (tx_next e)
    (rx_next e) (rx_deliv e) (rx_reord e) (t_current e) (t_reordering_start e)
    (has_ciphering e) (has_integrity e) (security_keys_and_algos e) (security_context e)
    (cipher_fn e) (free_security e) (integrity_context e) (integrity_fn e) (free_integrity e)
    (is_gnb e) (rx_list e) (rx_size e) (stats e) (entity_suspended e).

Definition on_stats (f : nr_pdcp_statistics_t -> nr_pdcp_statistics_t) (e : nr_pdcp_entity_t)
  : nr_pdcp_entity_t := e <| stats := f (stats e) |>.

Definition nr_max_pdcp_pdu_size (sdu_size : Z) : Z :=
  sdu_size + LONG_PDCP_HEADER_SIZE + PDCP_INTEGRITY_SIZE.

Definition is_srb (e : nr_pdcp_entity_t) : bool := bool_decide (type e = NR_PDCP_SRB).

(** [int] tests on bytes: [b & 0x80] *)
Definition dc_bit_set (b : Z) : bool := negb (Z.land b 0x80 =? 0).

(** [buffer[i]] *)
Definition byte_at (buffer : list Z) (i : nat) : res Z := of_option Out_of_bounds (buffer !! i).

(** the SDAP header is one byte *)
Definition sdap_size (b : bool) : Z := if b then 1 else 0.

(** SRBs always have a MAC-I *)
Definition integrity_size_of (e : nr_pdcp_entity_t) : Z :=
  if has_integrity e || is_srb e then PDCP_INTEGRITY_SIZE else 0.

Definition header_size_of (e : nr_pdcp_entity_t) : Z :=
  if sn_size e =? SHORT_SN_SIZE then SHORT_PDCP_HEADER_SIZE else LONG_PDCP_HEADER_SIZE.

Section Entity.
Context `{PdcpCrypto}.

(** ** Function pointers and contexts *)

Definition ctx_key (c : security_context_t) (entity_key : list Z) : res (list Z) :=
  match c with
  | Ctx_null => Err Null_deref
  | Ctx_copy key => Ok key
  | Ctx_alias => Ok entity_key
  | Ctx_freed => Err Bad_ptr
  end.

(** [entity->cipher(entity->security_context, ...)]; [decipher] is the same function *)
Definition call_cipher (e : nr_pdcp_entity_t) (data : list Z) (count direction : Z)
  : res (list Z) :=
  match cipher_fn e with
  | None => Err Null_deref
  | Some alg =>
      let* key := ctx_key (security_context e) (ciphering_key (security_keys_and_algos e)) in
      cipher alg key data (rb_id e) count direction
  end.

Definition call_integrity (e : nr_pdcp_entity_t) (message : list Z) (count direction : Z)
  : res (list Z) :=
  match integrity_fn e with
  | None => Err Null_deref
  | Some alg =>
      let* key := ctx_key (integrity_context e) [] in
      integrity alg key message (rb_id e) count direction
  end.

(** ** Reception *)

(** one [deliver_sdu] and the removal of the head [cur] of the list *)
Definition deliver_head (cur : nr_pdcp_sdu_t) (next : list nr_pdcp_sdu_t) (e : nr_pdcp_entity_t)
  : nr_pdcp_entity_t :=
  on_stats (fun s => s <| txsdu_pkts +=32 1 |> <| txsdu_bytes +=32 ps_size cur |>)
    (e <| trace := trace e ++ [Deliver (ps_buffer cur) (ps_msg_integrity cur)] |>
       <| rx_list := next |>
       <| rx_size := rx_size e - ps_size cur |>).

(** [while (rx_list != NULL && count == rx_list->count)]; the list is passed
    for the recursion, it is the [rx_list] of [e] *)
Fixpoint deliver_consecutive (l : list nr_pdcp_sdu_t) (count : Z) (e : nr_pdcp_entity_t)
  : nr_pdcp_entity_t * Z :=
  match l with
  | [] => (e, count)
  | cur :: next =>
      if count =? ps_count cur
      then deliver_consecutive next (u32 (count + 1)) (deliver_head cur next e)
      else (e, count)
  end.

(** [while (rx_list != NULL && rx_list->count < limit)] *)
Fixpoint deliver_below (l : list nr_pdcp_sdu_t) (limit : Z) (e : nr_pdcp_entity_t)
  : nr_pdcp_entity_t :=
  match l with
  | [] => e
  | cur :: next =>
      if ps_count cur <? limit then deliver_below next limit (deliver_head cur next e) else e
  end.

Fixpoint deliver_list (l : list nr_pdcp_sdu_t) (e : nr_pdcp_entity_t) : nr_pdcp_entity_t :=
  match l with
  | [] => e
  | cur :: next => deliver_list next (deliver_head cur next e)
  end.
Definition deliver_all_sdus (e : nr_pdcp_entity_t) : nr_pdcp_entity_t :=
  deliver_list (rx_list e) e.

(** a PDU that is counted as discarded *)
Definition discard_pdu (size : Z) (e : nr_pdcp_entity_t) : nr_pdcp_entity_t :=
  on_stats (fun s => s <| rxpdu_dd_pkts +=32 1 |> <| rxpdu_dd_bytes +=32 size |>) e.

(** the SN in the header *)
Definition read_sn (e : nr_pdcp_entity_t) (buffer : list Z) : res Z :=
  if sn_size e =? SHORT_SN_SIZE then
    let* b0 := byte_at buffer 0 in
    let* b1 := byte_at buffer 1 in
    Ok (Z.lor (Z.shiftl (Z.land b0 0xf) 8) b1)
  else
    let* b0 := byte_at buffer 0 in
    let* b1 := byte_at buffer 1 in
    let* b2 := byte_at buffer 2 in
    Ok (Z.lor (Z.lor (Z.shiftl (Z.land b0 0x3) 16) (Z.shiftl b1 8)) b2).

(** RCVD_COUNT from the received SN and RX_DELIV *)
Definition rcvd_count_of (e : nr_pdcp_entity_t) (rcvd_sn : Z) : Z :=
  let rx_deliv_sn := Z.land (rx_deliv e) (sn_max e) in
  let rx_deliv_hfn := Z.shiftr (rx_deliv e) (sn_size e) in
  let rcvd_hfn :=
    if rcvd_sn <? rx_deliv_sn - window_size e then u32 (rx_deliv_hfn + 1)
    else if rx_deliv_sn + window_size e <=? rcvd_sn then u32 (rx_deliv_hfn - 1)
    else rx_deliv_hfn in
  Z.lor (u32 (Z.shiftl rcvd_hfn (sn_size e))) rcvd_sn.

(** the MAC-I, the header and the count kept for RRC *)
Definition msg_integrity_of (e : nr_pdcp_entity_t) (buffer : list Z) (size rcvd_count : Z)
  : res nr_pdcp_integrity_data_t :=
  if has_integrity e || is_srb e then
    let* mac := mem_read buffer (size - 4) 4 in
    let* header := mem_read buffer 0 (header_size_of e) in
    let* header := mem_write (replicate 3 0) 0 header in
    Ok (mk_msg_integrity rcvd_count mac (header_size_of e) header)
  else Ok msg_integrity_0.

(** [entity->decipher] on [buffer + off] for [len] bytes, in place *)
Definition decipher_buffer (e : nr_pdcp_entity_t) (buffer : list Z) (off len count direction : Z)
  : res (list Z) :=
  if has_ciphering e then
    let* data := mem_read buffer off len in
    let* out := call_cipher e data count direction in
    mem_write buffer off out
  else Ok buffer.

(** does the MAC of the first [len] bytes equal the [mac] that follows them? *)
Definition integrity_ok (e : nr_pdcp_entity_t) (buffer : list Z) (len count direction : Z)
  : res bool :=
  if has_integrity e then
    let* message := mem_read buffer 0 len in
    let* mac := call_integrity e message count direction in
    let* received := mem_read buffer len PDCP_INTEGRITY_SIZE in
    Ok (bool_decide (mac = received))
  else Ok true.

(** timer handling at the end of the reception of a PDU *)
Definition update_t_reordering (e : nr_pdcp_entity_t) : nr_pdcp_entity_t :=
  let e := if negb (t_reordering_start e =? 0) && (rx_reord e <=? rx_deliv e)
           then e <| t_reordering_start := 0 |> else e in
  if (t_reordering_start e =? 0) && (rx_deliv e <? rx_next e)
  then e <| rx_reord := rx_next e |> <| t_reordering_start := t_current e |>
  else e.

(** storage of a new SDU, and RX_NEXT *)
Definition store_sdu (e : nr_pdcp_entity_t) (sdu : nr_pdcp_sdu_t) (size : Z)
  : nr_pdcp_entity_t :=
  let e := e <| rx_list := nr_pdcp_sdu_list_add (rx_list e) sdu |>
             <| rx_size := rx_size e + (size - header_size_of e) |> in
  if rx_next e <=? ps_count sdu then e <| rx_next := u32 (ps_count sdu + 1) |> else e.

(** delivery of all SDUs from RX_DELIV up to a discontinuity *)
Definition deliver_in_order (e : nr_pdcp_entity_t) (rcvd_count : Z) : nr_pdcp_entity_t :=
  if rcvd_count =? rx_deliv e
  then let '(e, count) := deliver_consecutive (rx_list e) (rx_deliv e) e in
       e <| rx_deliv := count |>
  else e.

Definition receive_sdu (e : nr_pdcp_entity_t) (sdu : nr_pdcp_sdu_t) (size : Z)
  : nr_pdcp_entity_t :=
  update_t_reordering (deliver_in_order (store_sdu e sdu size) (ps_count sdu)).

(** [buffer] is the memory the pointer designates, of which the PDU is the
    first [size] bytes; it is overwritten, and not read by the caller after *)
Definition nr_pdcp_entity_recv_pdu (e : nr_pdcp_entity_t) (buffer : list Z) (size : Z)
  : res nr_pdcp_entity_t :=
  if entity_suspended e then Ok e else
  if size <? 1 then Ok e else
  let* b0 := byte_at buffer 0 in
  let buffer := if negb (is_srb e) && negb (dc_bit_set b0)
                then <[0%nat := Z.lor b0 128]> buffer else buffer in
  let e := on_stats (fun s => s <| rxpdu_pkts +=32 1 |> <| rxpdu_bytes +=32 size |>) e in
  let sdap_header_size := sdap_size (has_sdap_rx e) in
  let* rcvd_sn := read_sn e buffer in
  let header_size := header_size_of e in
  let e := on_stats (fun s => s <| rxpdu_sn := rcvd_sn |>) e in
  let integrity_size := integrity_size_of e in
  if size <? header_size + sdap_header_size + integrity_size + 1
  then Ok (discard_pdu size e) else
  let rcvd_count := rcvd_count_of e rcvd_sn in
  let* msg_integrity := msg_integrity_of e buffer size rcvd_count in
  let direction := if is_gnb e then 0 else 1 in
  let* buffer := decipher_buffer e buffer (header_size + sdap_header_size)
                   (size - (header_size + sdap_header_size)) rcvd_count direction in
  let* ok := integrity_ok e buffer (size - integrity_size) rcvd_count direction in
  if negb ok then Ok (discard_pdu size e) else
  if (rcvd_count <? rx_deliv e) || nr_pdcp_sdu_in_list (rx_list e) rcvd_count
  then Ok (discard_pdu size e) else
  let* sdu := nr_pdcp_new_sdu rcvd_count buffer header_size
                (size - header_size - integrity_size) msg_integrity in
  Ok (receive_sdu e sdu size).

(** ** Transmission *)

Definition header_bytes (e : nr_pdcp_entity_t) (sn : Z) : list Z :=
  let dc_bit := if is_srb e then 0 else 0x80 in
  if sn_size e =? SHORT_SN_SIZE
  then [Z.lor dc_bit (Z.land (Z.shiftr sn 8) 0xf); Z.land sn 0xff]
  else [Z.lor dc_bit (Z.land (Z.shiftr sn 16) 0x3); Z.land (Z.shiftr sn 8) 0xff; Z.land sn 0xff].

(** the bytes written behind the SDU *)
Definition mac_bytes (e : nr_pdcp_entity_t) (buf : list Z) (len count direction : Z)
  : res (list Z) :=
  if has_integrity e then
    let* message := mem_read buf 0 len in
    call_integrity e message count direction
  else if integrity_size_of e =? PDCP_INTEGRITY_SIZE then Ok (replicate 4 0)
  else Ok [].

(** returns the entity, the buffer and the size of the PDU, or -1 *)
Definition nr_pdcp_entity_process_sdu (e : nr_pdcp_entity_t) (buffer pdu_buffer : list Z)
  : res (nr_pdcp_entity_t * list Z * Z) :=
  let size := Z.of_nat (length buffer) in
  let pdu_max_size := Z.of_nat (length pdu_buffer) in
  if pdu_max_size <? nr_max_pdcp_pdu_size size then Err Exit else
  if entity_suspended e then Ok (e, pdu_buffer, -1) else
  let e := on_stats (fun s => s <| rxsdu_pkts +=32 1 |> <| rxsdu_bytes +=32 size |>) e in
  let count := tx_next e in
  let sn := Z.land (tx_next e) (sn_max e) in
  let sdap_header_size := sdap_size (has_sdap_tx e) in
  let* buf := mem_write pdu_buffer 0 (header_bytes e sn) in
  let header_size := header_size_of e in
  let integrity_size := integrity_size_of e in
  let* buf := mem_write buf header_size buffer in
  let direction := if is_gnb e then 1 else 0 in
  let* mac := mac_bytes e buf (header_size + size) count direction in
  let* buf := mem_write buf (header_size + size) mac in
  let* buf :=
    (if has_ciphering e then
      let* data := mem_read buf (header_size + sdap_header_size)
                     (size + integrity_size - sdap_header_size) in
      let* out := call_cipher e data count direction in
      mem_write buf (header_size + sdap_header_size) out
    else Ok buf) in
  let e := e <| tx_next := u32 (tx_next e + 1) |> in
  let n := header_size + size + integrity_size in
  let e := on_stats (fun s => s <| txpdu_pkts +=32 1 |> <| txpdu_bytes +=32 n |>
                                <| txpdu_sn := sn |>) e in
  Ok (e, buf, n).

Definition nr_pdcp_entity_check_integrity (e : nr_pdcp_entity_t) (buffer : list Z)
    (mi : nr_pdcp_integrity_data_t) : res bool :=
  if negb (has_integrity e) then Ok false else
  let* header := mem_read (mi_header mi) 0 (mi_header_size mi) in
  let* mac := call_integrity e (header ++ buffer) (mi_count mi) (if is_gnb e then 0 else 1) in
  Ok (bool_decide (mac = mi_mac mi)).

(** ** Security *)

(** [free_security(security_context)]: nothing to free for the alias of the key *)
Definition free_security_ctx (f : option nea) (c : security_context_t) : res security_context_t :=
  match f with
  | None => Ok c
  | Some NEA2 => Ok c
  | Some NEA1 =>
      match c with
      | Ctx_null => Err Null_deref
      | Ctx_copy _ => Ok Ctx_freed
      | Ctx_alias | Ctx_freed => Err Bad_ptr
      end
  end.

Definition free_integrity_ctx (f : option nia) (c : security_context_t) : res security_context_t :=
  match f with
  | None => Ok c
  | Some _ =>
      match c with
      | Ctx_null => Err Null_deref
      | Ctx_copy _ => Ok Ctx_freed
      | Ctx_alias | Ctx_freed => Err Bad_ptr
      end
  end.

(** the part of [nr_pdcp_entity_set_security] on integrity *)
Definition set_integrity (e : nr_pdcp_entity_t) (alg : Z) : res nr_pdcp_entity_t :=
  if alg =? 0 then
    let e := e <| has_integrity := false |> in
    let* c := free_integrity_ctx (free_integrity e) (integrity_context e) in
    Ok (e <| integrity_context := c |> <| free_integrity := None |>)
  else if negb (alg =? -1) then
    let e := e <| has_integrity := true |> in
    let* c := free_integrity_ctx (free_integrity e) (integrity_context e) in
    let key := integrity_key (security_keys_and_algos e) in
    let install a := Ok (e <| integrity_context := Ctx_copy key |>
                           <| integrity_fn := Some a |> <| free_integrity := Some a |>) in
    if alg =? 2 then install NIA2
    else if alg =? 1 then install NIA1
    else Err Exit
  else Ok e.

(** the part on ciphering *)
Definition set_ciphering (e : nr_pdcp_entity_t) (alg : Z) : res nr_pdcp_entity_t :=
  if alg =? 0 then
    let e := e <| has_ciphering := false |> in
    let* c := free_security_ctx (free_security e) (security_context e) in
    Ok (e <| security_context := c |> <| free_security := None |>)
  else if negb (alg =? -1) then
    let e := e <| has_ciphering := true |> in
    let* c := free_security_ctx (free_security e) (security_context e) in
    let key := ciphering_key (security_keys_and_algos e) in
    if alg =? 2 then
      Ok (e <| security_context := Ctx_alias |> <| cipher_fn := Some NEA2 |>
            <| free_security := Some NEA2 |>)
    else if alg =? 1 then
      Ok (e <| security_context := Ctx_copy key |> <| cipher_fn := Some NEA1 |>
            <| free_security := Some NEA1 |>)
    else Err Exit
  else Ok e.

(** -1 keeps the current algorithm and key *)
Definition nr_pdcp_entity_set_security (e : nr_pdcp_entity_t)
    (parameters : nr_pdcp_entity_security_keys_and_algos_t) : res nr_pdcp_entity_t :=
  let k := security_keys_and_algos e in
  let k := if negb (integrity_algorithm parameters =? -1)
           then k <| integrity_algorithm := integrity_algorithm parameters |>
                  <| integrity_key := integrity_key parameters |> else k in
  let k := if negb (ciphering_algorithm parameters =? -1)
           then k <| ciphering_algorithm := ciphering_algorithm parameters |>
                  <| ciphering_key := ciphering_key parameters |> else k in
  let e := e <| security_keys_and_algos := k |> in
  let* e := set_integrity e (integrity_algorithm parameters) in
  set_ciphering e (ciphering_algorithm parameters).

(** ** Timer *)

Definition check_t_reordering (e : nr_pdcp_entity_t) : nr_pdcp_entity_t :=
  if t_reordering e =? -1 then e else
  if (t_reordering_start e =? 0)
     || (t_current e <=? u64 (t_reordering_start e + t_reordering e)) then e else
  let e := e <| t_reordering_start := 0 |> in
  let e := deliver_below (rx_list e) (rx_reord e) e in
  let '(e, count) := deliver_consecutive (rx_list e) (rx_reord e) e in
  let e := e <| rx_deliv := count |> in
  if rx_deliv e <? rx_next e
  then e <| rx_reord := rx_next e |> <| t_reordering_start := t_current e |>
  else e.

Definition nr_pdcp_entity_set_time (e : nr_pdcp_entity_t) (now : Z) : nr_pdcp_entity_t :=
  check_t_reordering (e <| t_current := now |>).

(** ** Suspension, re-establishment, release *)

Definition nr_pdcp_entity_suspend (e : nr_pdcp_entity_t) : nr_pdcp_entity_t :=
  let e := e <| tx_next := 0 |> in
  let e := if negb (t_reordering_start e =? 0)
           then deliver_all_sdus (e <| t_reordering_start := 0 |>) else e in
  e <| rx_next := 0 |> <| rx_deliv := 0 |> <| entity_suspended := true |>.

(** the counters of the SDUs of the list, then the list is empty *)
Definition free_rx_list (e : nr_pdcp_entity_t) : nr_pdcp_entity_t :=
  let s := fold_left (fun s cur => s <| rxpdu_dd_pkts +=32 1 |>
                                     <| rxpdu_dd_bytes +=32 ps_size cur |>)
                     (rx_list e) (stats e) in
  e <| stats := s |> <| rx_list := [] |> <| rx_size := 0 |>.

Definition nr_pdcp_entity_reestablish_drb_am (e : nr_pdcp_entity_t)
    (security_parameters : nr_pdcp_entity_security_keys_and_algos_t) : res nr_pdcp_entity_t :=
  let* e := nr_pdcp_entity_set_security e security_parameters in
  Ok (e <| entity_suspended := false |>).

Definition nr_pdcp_entity_reestablish_drb_um (e : nr_pdcp_entity_t)
    (security_parameters : nr_pdcp_entity_security_keys_and_algos_t) : res nr_pdcp_entity_t :=
  let e := e <| tx_next := 0 |> in
  let e := if negb (t_reordering_start e =? 0) then deliver_all_sdus e else e in
  let e := e <| t_reordering_start := 0 |> <| rx_next := 0 |> <| rx_deliv := 0 |> in
  let* e := nr_pdcp_entity_set_security e security_parameters in
  Ok (e <| entity_suspended := false |>).

Definition nr_pdcp_entity_reestablish_srb (e : nr_pdcp_entity_t)
    (security_parameters : nr_pdcp_entity_security_keys_and_algos_t) : res nr_pdcp_entity_t :=
  let e := e <| tx_next := 0 |> in
  let e := free_rx_list e in
  let e := e <| t_reordering_start := 0 |> <| rx_next := 0 |> <| rx_deliv := 0 |> in
  let* e := nr_pdcp_entity_set_security e security_parameters in
  Ok (e <| entity_suspended := false |>).

(** the [reestablish_entity] pointer set by [new_nr_pdcp_entity] *)
Definition reestablish_entity (e : nr_pdcp_entity_t)
  : nr_pdcp_entity_security_keys_and_algos_t -> res nr_pdcp_entity_t :=
  match type e with
  | NR_PDCP_DRB_AM => nr_pdcp_entity_reestablish_drb_am e
  | NR_PDCP_DRB_UM => nr_pdcp_entity_reestablish_drb_um e
  | NR_PDCP_SRB => nr_pdcp_entity_reestablish_srb e
  end.

Definition nr_pdcp_entity_release (e : nr_pdcp_entity_t) : nr_pdcp_entity_t := deliver_all_sdus e.

(** the entity is gone; the result is the pair of its contexts after the calls *)
Definition nr_pdcp_entity_delete (e : nr_pdcp_entity_t)
  : res (security_context_t * security_context_t) :=
  let e := free_rx_list e in
  let* c := free_security_ctx (free_security e) (security_context e) in
  let* i := free_integrity_ctx (free_integrity e) (integrity_context e) in
  Ok (c, i).

Definition nr_pdcp_entity_get_stats (e : nr_pdcp_entity_t) : nr_pdcp_statistics_t := stats e.

Definition new_nr_pdcp_entity (type : nr_pdcp_entity_type_t) (is_gnb : bool)
    (rb_id pdusession_id : Z) (has_sdap_rx has_sdap_tx : bool)
    (sn_size t_reordering discard_timer : Z)
    (security_parameters : nr_pdcp_entity_security_keys_and_algos_t) : res nr_pdcp_entity_t :=
  nr_pdcp_entity_set_security
    (mk_pdcp [] type rb_id pdusession_id has_sdap_rx has_sdap_tx sn_size t_reordering
       discard_timer (Z.shiftl 1 sn_size - 1) (Z.shiftl 1 (sn_size - 1))
       0 0 0 0 0 0 false false (mk_keys 0 0 (replicate 16 0) (replicate 16 0))
       Ctx_null None None Ctx_null None None is_gnb [] 0 stats_0 false)
    security_parameters.

End Entity.
