(* ===== verification/PdcpRx.v ===== *)
(** * Reordering in the PDCP receiver

    An SDU is known by its COUNT: [D c] is the payload sent with COUNT [c].
    [rx_rel D e cs] says that the entity has delivered the payloads of the
    counts [cs], holds others in [rx_list], and that delivered and held
    counts together are strictly increasing.  Delivering moves a count from
    the list to [cs]; receiving inserts one.  The lemmas give, for each
    operation, the counts delivered and the state reached. *)
From S2P Require Import Prelude PdcpSdu PdcpSecurity PdcpEntity.
From Stdlib Require Import Sorted.

Definition event_data (ev : pdcp_event) : list Z := match ev with Deliver d _ => d end.
Definition delivered (e : nr_pdcp_entity_t) : list (list Z) := event_data <$> trace e.
Definition held (e : nr_pdcp_entity_t) : list Z := ps_count <$> rx_list e.

(** ** Windows on COUNT *)

(** counts are 32-bit values that do not wrap around *)
Definition count_ok (c : Z) : Prop := 0 <= c < 2 ^ 32 - 1.

Record rx_wf (e : nr_pdcp_entity_t) : Prop := mk_rx_wf {
  wf_sorted : counts_from (rx_deliv e + 1) (rx_list e);
  wf_below : forall s, s ∈ rx_list e -> ps_count s < rx_next e;
  wf_deliv : 0 <= rx_deliv e <= rx_next e;
  wf_next : rx_next e < 2 ^ 32;
  wf_timer : t_reordering_start e <> 0 -> rx_deliv e < rx_reord e <= rx_next e
}.

(** while the clock runs, a gap is always guarded by the timer *)
Definition guarded (e : nr_pdcp_entity_t) : Prop :=
  0 < t_current e /\ (rx_deliv e < rx_next e -> t_reordering_start e <> 0).

Section Rx.
Context `{PdcpCrypto}.
Context (D : Z -> list Z).

Record rx_rel (e : nr_pdcp_entity_t) (cs : list Z) : Prop := mk_rx_rel {
  rel_trace : delivered e = D <$> cs;
  rel_sorted : StronglySorted Z.lt (cs ++ held e);
  rel_data : forall s, s ∈ rx_list e -> ps_buffer s = D (ps_count s)
}.

(** [e'] is [e] up to the fields that a delivery changes *)
Definition delivery_of (e e' : nr_pdcp_entity_t) : Prop :=
  exists t l s st, e' = e <| trace := t |> <| rx_list := l |> <| rx_size := s |> <| stats := st |>.

Lemma delivery_refl e : delivery_of e e.
Proof. destruct e. by do 4 eexists. Qed.
Lemma delivery_trans e1 e2 e3 : delivery_of e1 e2 -> delivery_of e2 e3 -> delivery_of e1 e3.
Proof.
  intros (t & l & s & st & ->) (t' & l' & s' & st' & ->). by exists t', l', s', st'.
Qed.
Lemma delivery_head cur next e : delivery_of e (deliver_head cur next e).
Proof. by do 4 eexists. Qed.

Lemma rel_deliver_head e cs cur next :
  rx_list e = cur :: next -> rx_rel e cs ->
  rx_rel (deliver_head cur next e) (cs ++ [ps_count cur]) /\
  (cs ++ [ps_count cur]) ++ held (deliver_head cur next e) = cs ++ held e.
Proof.
  intros Hl [Ht Hs Hd].
  assert (Hk : (cs ++ [ps_count cur]) ++ held (deliver_head cur next e) = cs ++ held e).
  { rewrite <- app_assoc. unfold held. rewrite Hl. done. }
  split; [|exact Hk]. split.
  - unfold delivered in *. cbn. rewrite !fmap_app, Ht. cbn. do 2 f_equal.
    apply Hd. rewrite Hl. by left.
  - by rewrite Hk.
  - intros s Hin. apply Hd. rewrite Hl. by right.
Qed.

(** the counts [c], [c + 1], ... *)
Definition counts (c : Z) (n : nat) : list Z := (fun i => c + Z.of_nat i) <$> seq 0 n.

Lemma counts_S c n : counts c (S n) = c :: counts (c + 1) n.
Proof.
  unfold counts. rewrite <- cons_seq, fmap_cons, <- fmap_S_seq, <- list_fmap_compose.
  f_equal; [lia|]. apply list_fmap_ext. intros. cbn. lia.
Qed.

Lemma deliver_consecutive_ok l : forall c e cs,
  rx_list e = l -> rx_rel e cs -> counts_from c l ->
  (forall s, s ∈ l -> count_ok (ps_count s)) -> count_ok c \/ l = [] ->
  exists n e', deliver_consecutive l c e = (e', c + Z.of_nat n) /\ delivery_of e e' /\
    rx_rel e' (cs ++ counts c n) /\ (cs ++ counts c n) ++ held e' = cs ++ held e /\
    rx_list e' = drop n l /\ counts_from (c + Z.of_nat n + 1) (rx_list e').
Proof.
  induction l as [|cur next IH]; intros c e cs Hl Hr Hs Hok Hc; cbn [deliver_consecutive].
  { exists 0%nat, e. rewrite Z.add_0_r, app_nil_r, Hl.
    split; [done|]. split; [apply delivery_refl|]. done. }
  destruct Hc as [Hc|]; [|done]. cbn [counts_from] in Hs. destruct Hs as [Hs1 Hs2].
  destruct (Z.eqb_spec c (ps_count cur)) as [E|E].
  - destruct (rel_deliver_head e cs cur next Hl Hr) as [Hr' Hk'].
    assert (Hu : u32 (c + 1) = c + 1) by (unfold u32, count_ok in *; apply Z.mod_small; lia).
    rewrite Hu. rewrite <- E in Hr', Hk', Hs2.
    destruct (IH (c + 1) (deliver_head cur next e) (cs ++ [c])) as (n & e' & Hd & Hf & Hr2 & Hk2 & Hl2 & Hc2);
      [done|done|done|intros; apply Hok; by right| |].
    { destruct next as [|x next']; [by right|]. left.
      assert (c + 1 <= ps_count x) by (cbn in Hs2; lia).
      assert (count_ok (ps_count x)) by (apply Hok; right; left). unfold count_ok in *. lia. }
    exists (S n), e'. rewrite Hd, counts_S. rewrite <- !app_assoc in *. cbn [app] in *.
    split; [f_equal; lia|]. split; [eapply delivery_trans; [apply delivery_head|done]|].
    split; [done|]. split; [rewrite Hk2; unfold held; rewrite Hl; cbn; by rewrite <- E|].
    split; [done|]. eapply counts_from_weaken, Hc2. lia.
  - exists 0%nat, e. rewrite Z.add_0_r, app_nil_r, Hl.
    split; [done|]. split; [apply delivery_refl|]. split; [done|]. split; [done|].
    split; [done|]. cbn. split; [lia|done].
Qed.

Lemma deliver_below_ok limit l : forall e cs,
  rx_list e = l -> rx_rel e cs ->
  exists n e', deliver_below l limit e = e' /\ delivery_of e e' /\
    rx_rel e' (cs ++ (ps_count <$> take n l)) /\
    (cs ++ (ps_count <$> take n l)) ++ held e' = cs ++ held e /\
    rx_list e' = drop n l /\
    (forall s, s ∈ take n l -> ps_count s < limit) /\
    (forall lo, counts_from lo l -> counts_from (Z.max lo limit) (drop n l)).
Proof.
  induction l as [|cur next IH]; intros e cs Hl Hr; cbn [deliver_below].
  { exists 0%nat, e. cbn. rewrite app_nil_r, Hl. split; [done|]. split; [apply delivery_refl|].
    split; [exact Hr|]. split; [done|]. split; [done|].
    split; [intros s Hs; by apply elem_of_nil in Hs|done]. }
  destruct (ps_count cur <? limit) eqn:E.
  - destruct (rel_deliver_head e cs cur next Hl Hr) as [Hr' Hk'].
    destruct (IH (deliver_head cur next e) (cs ++ [ps_count cur]) eq_refl Hr')
      as (n & e' & Hd & Hf & Hr2 & Hk2 & Hl2 & Ht & Hc2).
    exists (S n), e'. cbn [take drop]. rewrite fmap_cons. rewrite <- !app_assoc in *. cbn [app] in *.
    split; [done|]. split; [eapply delivery_trans; [apply delivery_head|done]|].
    split; [done|]. split; [rewrite Hk2; unfold held; rewrite Hl; done|]. split; [done|].
    split.
    + intros s Hs. apply elem_of_cons in Hs as [->|Hs]; [lia|by apply Ht].
    + intros lo [Hlo Hs]. apply Hc2 in Hs. eapply counts_from_weaken; [|exact Hs]. lia.
  - exists 0%nat, e. cbn [take drop]. rewrite fmap_nil, app_nil_r, Hl.
    split; [done|]. split; [apply delivery_refl|]. split; [done|]. split; [done|]. split; [done|].
    split; [intros s Hs; by apply elem_of_nil in Hs|].
    intros lo [Hlo Hs]. cbn. split; [lia|done].
Qed.

Lemma deliver_list_ok l : forall e cs,
  rx_list e = l -> rx_rel e cs ->
  delivery_of e (deliver_list l e) /\ rx_rel (deliver_list l e) (cs ++ (ps_count <$> l)) /\
  rx_list (deliver_list l e) = [].
Proof.
  induction l as [|cur next IH]; intros e cs Hl Hr; cbn [deliver_list].
  { rewrite app_nil_r. split; [apply delivery_refl|done]. }
  destruct (rel_deliver_head e cs cur next Hl Hr) as [Hr' _].
  destruct (IH (deliver_head cur next e) _ eq_refl Hr') as (Hf & Hr2 & Hl2).
  split; [eapply delivery_trans; [apply delivery_head|done]|].
  rewrite fmap_cons. rewrite <- app_assoc in Hr2. done.
Qed.

(** ** The invariant and the operations *)

Record rx_inv (e : nr_pdcp_entity_t) (cs : list Z) : Prop := mk_rx_inv {
  inv_wf : rx_wf e;
  inv_rel : rx_rel e cs;
  inv_past : Forall (fun c => 0 <= c < rx_deliv e) cs
}.

(** the entity without the fields that reception changes *)
Definition config (e : nr_pdcp_entity_t) : nr_pdcp_entity_t :=
  e <| trace := [] |> <| rx_list := [] |> <| rx_size := 0 |> <| stats := stats_0 |>
    <| rx_next := 0 |> <| rx_deliv := 0 |> <| rx_reord := 0 |> <| t_current := 0 |>
    <| t_reordering_start := 0 |> <| tx_next := 0 |>.

Lemma delivery_config e e' : delivery_of e e' -> config e' = config e.
Proof. intros (t & l & s & st & ->). done. Qed.

Lemma delivery_fields e e' : delivery_of e e' ->
  config e' = config e /\ rx_next e' = rx_next e /\
  t_reordering_start e' = t_reordering_start e /\ t_current e' = t_current e /\
  rx_reord e' = rx_reord e.
Proof. intros (t & l & s & st & ->). done. Qed.

Lemma StronglySorted_app_2 (l1 l2 : list Z) :
  StronglySorted Z.lt l1 -> StronglySorted Z.lt l2 ->
  (forall x y, x ∈ l1 -> y ∈ l2 -> x < y) -> StronglySorted Z.lt (l1 ++ l2).
Proof.
  induction 1 as [|a l1 H1 IH Ha]; intros H2 Hc; [done|]. cbn. constructor.
  - apply IH; [done|]. intros x y Hx Hy. apply Hc; [by right|done].
  - apply Forall_app. split; [done|]. apply Forall_forall. intros y Hy. apply Hc; [left|done].
Qed.

Lemma StronglySorted_app_l (l1 l2 : list Z) :
  StronglySorted Z.lt (l1 ++ l2) -> StronglySorted Z.lt l1.
Proof.
  induction l1 as [|a l1 IH]; cbn; intros H1; [constructor|]. inversion H1; subst.
  constructor; [by apply IH|]. apply Forall_app in H4 as [? _]. done.
Qed.

Lemma counts_from_sorted lo l : counts_from lo l -> StronglySorted Z.lt (ps_count <$> l).
Proof.
  revert lo. induction l as [|c l IH]; intros lo; cbn; [constructor|]. intros [Hlo Hs].
  constructor; [by eapply IH|]. apply Forall_forall. intros y (s & -> & Hin)%list_elem_of_fmap.
  pose proof (counts_from_elem _ _ _ Hs Hin). lia.
Qed.

Lemma elem_of_counts c n x : x ∈ counts c n <-> c <= x < c + Z.of_nat n.
Proof.
  unfold counts. rewrite list_elem_of_fmap. split.
  - intros (i & -> & Hi%elem_of_seq). lia.
  - intros Hx. exists (Z.to_nat (x - c)). split; [lia|]. apply elem_of_seq. lia.
Qed.

(** the timer part keeps everything but the timer, and guards gaps *)
Lemma update_t_reordering_ok e cs :
  rx_rel e cs -> Forall (fun c => 0 <= c < rx_deliv e) cs ->
  counts_from (rx_deliv e + 1) (rx_list e) -> (forall s, s ∈ rx_list e -> ps_count s < rx_next e) ->
  0 <= rx_deliv e <= rx_next e -> rx_next e < 2 ^ 32 ->
  (t_reordering_start e <> 0 -> rx_reord e <= rx_next e) ->
  rx_inv (update_t_reordering e) cs /\ config (update_t_reordering e) = config e /\
  rx_deliv (update_t_reordering e) = rx_deliv e /\ rx_next (update_t_reordering e) = rx_next e /\
  held (update_t_reordering e) = held e /\ t_current (update_t_reordering e) = t_current e /\
  (0 < t_current e -> guarded (update_t_reordering e)).
Proof.
  intros [Ht Hso Hd] Hp Hc Hb Hde Hn Hti. unfold update_t_reordering.
  destruct (Z.eqb_spec (t_reordering_start e) 0) as [E0|E0]; cbn [negb andb].
  - rewrite E0. cbn [Z.eqb andb]. destruct (rx_deliv e <? rx_next e) eqn:E1.
    + split; [|repeat split; cbn; lia]. split; [|by split|done].
      split; cbn; try done; lia.
    + split; [|repeat split; cbn; lia]. split; [|by split|done]. split; try done; lia.
  - destruct (rx_reord e <=? rx_deliv e) eqn:E2; cbn [andb t_reordering_start update].
    + cbn [Z.eqb rx_deliv rx_next andb]. destruct (rx_deliv e <? rx_next e) eqn:E1.
      * split; [|repeat split; cbn; lia]. split; [|by split|done]. split; cbn; try done; lia.
      * split; [|repeat split; cbn; lia]. split; [|by split|done]. split; cbn; try done; lia.
    + destruct (Z.eqb_spec (t_reordering_start e) 0) as [|_]; [done|]. cbn [andb].
      split; [|repeat split; cbn; lia]. split; [|by split|done]. split; try done; lia.
Qed.

(** what an operation does to the receiver: the counts [ds] are delivered *)
Record rx_step (e : nr_pdcp_entity_t) (cs : list Z) (e' : nr_pdcp_entity_t) (ds : list Z)
  : Prop := mk_rx_step {
  step_inv : rx_inv e' (cs ++ ds);
  step_config : config e' = config e;
  step_mono : rx_deliv e <= rx_deliv e' /\ rx_next e <= rx_next e'
}.

Lemma held_add l s : ps_count <$> nr_pdcp_sdu_list_add l s ≡ₚ ps_count s :: (ps_count <$> l).
Proof. by rewrite (list_add_perm s l), fmap_cons. Qed.

Lemma rel_insert e e1 cs s :
  rx_rel e cs -> Forall (fun c => 0 <= c < rx_deliv e) cs -> rx_deliv e <= ps_count s ->
  counts_from (rx_deliv e) (nr_pdcp_sdu_list_add (rx_list e) s) ->
  ps_buffer s = D (ps_count s) -> delivered e1 = delivered e ->
  rx_list e1 = nr_pdcp_sdu_list_add (rx_list e) s -> rx_rel e1 cs.
Proof.
  intros [Ht Hso Hd] Hp Hle Hc Hb Htr Hl. split.
  - by rewrite Htr.
  - unfold held. rewrite Hl. apply StronglySorted_app_2.
    + by eapply StronglySorted_app_l.
    + by eapply counts_from_sorted.
    + intros x y Hx (z & -> & Hz)%list_elem_of_fmap.
      rewrite Forall_forall in Hp. specialize (Hp _ Hx).
      pose proof (counts_from_elem _ _ _ Hc Hz). lia.
  - intros z Hz. rewrite Hl in Hz. rewrite list_add_perm in Hz.
    apply elem_of_cons in Hz as [->|Hz]; [done|by apply Hd].
Qed.

(** the fields that neither a delivery nor the timer code changes *)
Definition same_clock (e e' : nr_pdcp_entity_t) : Prop :=
  config e' = config e /\ rx_reord e' = rx_reord e /\
  t_reordering_start e' = t_reordering_start e /\ t_current e' = t_current e.

Lemma store_sdu_ok e cs sdu size :
  rx_inv e cs -> rx_deliv e <= ps_count sdu -> count_ok (ps_count sdu) ->
  nr_pdcp_sdu_in_list (rx_list e) (ps_count sdu) = false ->
  ps_buffer sdu = D (ps_count sdu) ->
  let e' := store_sdu e sdu size in
  rx_rel e' cs /\ counts_from (rx_deliv e) (rx_list e') /\
  (forall z, z ∈ rx_list e' -> ps_count z < rx_next e') /\
  (forall c, c ∈ held e' <-> c = ps_count sdu \/ c ∈ held e) /\
  rx_next e' = Z.max (rx_next e) (ps_count sdu + 1) /\ rx_deliv e' = rx_deliv e /\
  (ps_count sdu <> rx_deliv e -> counts_from (rx_deliv e + 1) (rx_list e')) /\
  same_clock e e'.
Proof.
  intros [[Hso Hbe Hde Hnx Hti] Hr Hp] Hle Hok Hin Hdat e'.
  assert (He : rx_list e' = nr_pdcp_sdu_list_add (rx_list e) sdu /\
    rx_next e' = Z.max (rx_next e) (ps_count sdu + 1) /\ delivered e' = delivered e /\
    rx_deliv e' = rx_deliv e /\ same_clock e e').
  { unfold e', store_sdu, count_ok in *. cbn [rx_next update].
    destruct (rx_next e <=? ps_count sdu) eqn:E; cbn; repeat split; try lia.
    unfold u32. rewrite Z.mod_small; lia. }
  destruct He as (Hl & Hn & Ht & Hd & Hc).
  assert (Hs : counts_from (rx_deliv e) (rx_list e')).
  { rewrite Hl. apply list_add_sorted; [|done|done]. eapply counts_from_weaken, Hso. lia. }
  split; [by eapply (rel_insert e); rewrite <- ?Hl|]. split; [done|].
  split.
  { intros z Hz. rewrite Hl, list_add_perm in Hz. rewrite Hn.
    apply elem_of_cons in Hz as [->|Hz]; [lia|]. specialize (Hbe _ Hz). lia. }
  split. { intros c. unfold held. rewrite Hl, held_add. apply elem_of_cons. }
  split; [done|]. split; [done|]. split; [|done].
  intros Hne. rewrite Hl. apply list_add_sorted; [done|lia|done].
Qed.

Lemma deliver_in_order_ok e cs c :
  rx_rel e cs -> counts_from (rx_deliv e) (rx_list e) ->
  (c <> rx_deliv e -> counts_from (rx_deliv e + 1) (rx_list e)) ->
  (forall z, z ∈ rx_list e -> ps_count z < rx_next e) ->
  0 <= rx_deliv e <= rx_next e -> rx_next e < 2 ^ 32 -> count_ok c ->
  exists n, let e' := deliver_in_order e c in
    rx_deliv e' = rx_deliv e + Z.of_nat n /\ rx_rel e' (cs ++ counts (rx_deliv e) n) /\
    (cs ++ counts (rx_deliv e) n) ++ held e' = cs ++ held e /\
    counts_from (rx_deliv e' + 1) (rx_list e') /\ rx_next e' = rx_next e /\
    (forall z, z ∈ rx_list e' -> z ∈ rx_list e) /\ rx_deliv e' <= rx_next e /\
    same_clock e e'.
Proof.
  intros Hr Hs Hne Hb Hd Hn Hc. unfold deliver_in_order.
  destruct (Z.eqb_spec c (rx_deliv e)) as [->|Hcd].
  - destruct (deliver_consecutive_ok (rx_list e) (rx_deliv e) e cs eq_refl Hr Hs) as
      (n & e3 & -> & Hf & Hr3 & Hk3 & Hl3 & Hc3); [|by left|].
    { intros z Hz. specialize (Hb z Hz). apply (counts_from_elem _ _ _ Hs) in Hz.
      unfold count_ok in *. lia. }
    exists n. destruct Hf as (t & l & sz & st & ->). cbn in Hl3, Hc3 |- *.
    split; [done|]. split; [destruct Hr3; by split|]. split; [done|]. split; [done|].
    split; [done|]. split; [intros z Hz; rewrite Hl3 in Hz; rewrite <- (take_drop n (rx_list e)); apply elem_of_app; by right|].
    split; [|done]. destruct n as [|n]; [lia|].
    assert (Hin : rx_deliv e + Z.of_nat n ∈ held e).
    { rewrite <- app_assoc in Hk3. apply app_inv_head in Hk3. rewrite <- Hk3.
      apply elem_of_app. left. apply elem_of_counts. lia. }
    apply list_elem_of_fmap in Hin as (z & Hz & Hin). specialize (Hb z Hin). lia.
  - exists 0%nat. cbn zeta. change (counts (rx_deliv e) 0) with (@nil Z).
    rewrite app_nil_r, Z.add_0_r. split; [done|]. split; [done|]. split; [done|].
    split; [by apply Hne|]. split; [done|]. split; [done|]. split; [lia|done].
Qed.

Lemma receive_sdu_ok e cs sdu size :
  rx_inv e cs -> rx_deliv e <= ps_count sdu -> count_ok (ps_count sdu) ->
  nr_pdcp_sdu_in_list (rx_list e) (ps_count sdu) = false ->
  ps_buffer sdu = D (ps_count sdu) ->
  exists n, let e' := receive_sdu e sdu size in
    rx_step e cs e' (counts (rx_deliv e) n) /\ rx_deliv e' = rx_deliv e + Z.of_nat n /\
    rx_next e' = Z.max (rx_next e) (ps_count sdu + 1) /\
    (forall c, c ∈ (cs ++ counts (rx_deliv e) n) ++ held e' <->
               c = ps_count sdu \/ c ∈ cs ++ held e) /\
    t_current e' = t_current e /\ (0 < t_current e -> guarded e').
Proof.
  intros Hinv Hle Hok Hin Hdat. pose proof Hinv as [[Hso Hbe Hde Hnx Hti] Hr Hp].
  destruct (store_sdu_ok e cs sdu size Hinv Hle Hok Hin Hdat)
    as (Hr2 & Hs2 & Hb2 & Hh2 & Hn2 & Hd2 & Hne2 & Hc2).
  unfold receive_sdu. set (e2 := store_sdu e sdu size) in *. unfold count_ok in Hok.
  destruct (deliver_in_order_ok e2 cs (ps_count sdu))
    as (n & Hd3 & Hr3 & Hk3 & Hs3 & Hn3 & Hl3 & Hb3 & Hc3);
    rewrite ?Hd2; try done; try lia.
  set (e3 := deliver_in_order e2 (ps_count sdu)) in *. rewrite Hd2 in *.
  destruct Hc2 as (G1 & G2 & G3 & G4). destruct Hc3 as (K1 & K2 & K3 & K4).
  destruct (update_t_reordering_ok e3 (cs ++ counts (rx_deliv e) n))
    as (Hi4 & Hcf4 & Hd4 & Hn4 & Hh4 & Ht4 & Hg4); try done; try lia.
  { apply Forall_app. split.
    - eapply Forall_impl; [exact Hp|]. cbn. lia.
    - apply Forall_forall. intros x Hx%elem_of_counts. lia. }
  { intros z Hz. rewrite Hn3. by apply Hb2, Hl3. }
  exists n. cbn zeta. split.
  { split; [done|congruence|lia]. }
  split; [lia|]. split; [lia|]. split.
  { intros c. rewrite Hh4, Hk3, !elem_of_app, Hh2. tauto. }
  split; [congruence|]. intros Ht. apply Hg4. congruence.
Qed.
Lemma restart_t_reordering_ok e cs c :
  rx_rel e cs -> Forall (fun c' => 0 <= c' < c) cs ->
  counts_from (c + 1) (rx_list e) -> (forall s, s ∈ rx_list e -> ps_count s < rx_next e) ->
  0 <= c <= rx_next e -> rx_next e < 2 ^ 32 -> t_reordering_start e = 0 ->
  let e1 := e <| rx_deliv := c |> in
  let e' := if rx_deliv e1 <? rx_next e1
            then e1 <| rx_reord := rx_next e1 |> <| t_reordering_start := t_current e1 |>
            else e1 in
  rx_inv e' cs /\ config e' = config e /\ rx_deliv e' = c /\ rx_next e' = rx_next e /\
  held e' = held e /\ t_current e' = t_current e /\ (0 < t_current e -> guarded e').
Proof.
  intros [Ht Hso Hd] Hp Hc Hb Hde Hn Hti e1 e'. subst e' e1. cbn [rx_deliv rx_next update].
  destruct (c <? rx_next e) eqn:E.
  - split; [|repeat split; cbn; lia]. split; [|by split|done]. split; cbn; try done; lia.
  - split; [|repeat split; cbn; lia]. split; [|by split|done]. split; cbn; try done; lia.
Qed.

(** t-Reordering expires: what is below RX_REORD is given up, and what
    follows it without a gap is delivered *)
Lemma check_t_reordering_ok e cs :
  rx_inv e cs ->
  exists ds, let e' := check_t_reordering e in
    rx_step e cs e' ds /\ (cs ++ ds) ++ held e' = cs ++ held e /\
    rx_next e' = rx_next e /\ t_current e' = t_current e /\
    (guarded e -> guarded e') /\
    (t_reordering e <> -1 -> t_reordering_start e <> 0 ->
     u64 (t_reordering_start e + t_reordering e) < t_current e -> rx_reord e <= rx_deliv e').
Proof.
  intros Hinv. pose proof Hinv as [[Hso Hbe Hde Hnx Hti] Hr Hp]. unfold check_t_reordering.
  assert (Hskip : exists ds, rx_step e cs e ds /\ (cs ++ ds) ++ held e = cs ++ held e /\
    rx_next e = rx_next e /\ t_current e = t_current e /\ (guarded e -> guarded e)).
  { exists []. rewrite app_nil_r. split; [|done]. split; [by rewrite app_nil_r|done|lia]. }
  destruct (Z.eqb_spec (t_reordering e) (-1)) as [E|E].
  { destruct Hskip as (ds & H1 & H2 & H3 & H4 & H5). exists ds. by split. }
  destruct (_ || _) eqn:E1.
  { destruct Hskip as (ds & H1 & H2 & H3 & H4 & H5). exists ds.
    split; [done|]. split; [done|]. split; [done|]. split; [done|]. split; [done|].
    intros. apply orb_true_iff in E1. lia. }
  apply orb_false_iff in E1 as [E1 E2]. apply Z.eqb_neq in E1. specialize (Hti E1).
  set (e1 := e <| t_reordering_start := 0 |>).
  assert (Hr1 : rx_rel e1 cs) by (destruct Hr; by split).
  cbn zeta. as_call3 deliver_below (rx_list e) (rx_reord e) e1.
  destruct (deliver_below_ok (rx_reord e) (rx_list e) e1 cs eq_refl Hr1)
    as (n & e2 & -> & Hf2 & Hr2 & Hk2 & Hl2 & Ht2 & Hs2).
  change (rx_list e1) with (rx_list e) in *.
  specialize (Hs2 _ Hso).
  apply (counts_from_weaken _ (rx_reord e)) in Hs2; [|lia].
  assert (Hin2 : forall z, z ∈ drop n (rx_list e) -> rx_reord e <= ps_count z < rx_next e).
  { intros z Hz. split; [by eapply counts_from_elem|]. apply Hbe.
    rewrite <- (take_drop n (rx_list e)). apply elem_of_app. by right. }
  assert (Hrd : rx_reord e2 = rx_reord e) by apply (delivery_fields e1 e2 Hf2).
  rewrite Hrd, Hl2.
  destruct (deliver_consecutive_ok (drop n (rx_list e)) (rx_reord e) e2
    (cs ++ (ps_count <$> take n (rx_list e))) Hl2 Hr2 Hs2) as
    (m & e3 & -> & Hf3 & Hr3 & Hk3 & Hl3 & Hc3).
  { intros z Hz%Hin2. unfold count_ok. lia. }
  { destruct (drop n (rx_list e)) as [|z l'] eqn:El; [by right|]. left.
    assert (rx_reord e <= ps_count z < rx_next e) by (apply Hin2; left). unfold count_ok. lia. }
  set (ds := (ps_count <$> take n (rx_list e)) ++ counts (rx_reord e) m).
  assert (Hb3 : rx_reord e + Z.of_nat m <= rx_next e).
  { destruct m as [|m]; [lia|].
    assert (Hin : rx_reord e + Z.of_nat m ∈ held e2).
    { rewrite <- app_assoc in Hk3. apply app_inv_head in Hk3. rewrite <- Hk3.
      apply elem_of_app. left. apply elem_of_counts. lia. }
    apply list_elem_of_fmap in Hin as (z & Hz & Hin). rewrite Hl2 in Hin.
    apply Hin2 in Hin. lia. }
  assert (Hp3 : Forall (fun c => 0 <= c < rx_reord e + Z.of_nat m) (cs ++ ds)).
  { apply Forall_app. split; [eapply Forall_impl; [exact Hp|]; cbn; lia|].
    apply Forall_app. split.
    - apply Forall_forall. intros x (z & -> & Hz)%list_elem_of_fmap.
      pose proof (Ht2 _ Hz). apply elem_of_take in Hz as (i & Hi & _).
      apply list_elem_of_lookup_2 in Hi. apply (counts_from_elem _ _ _ Hso) in Hi. lia.
    - apply Forall_forall. intros x Hx%elem_of_counts. lia. }
  assert (Hl : forall z, z ∈ rx_list e3 -> ps_count z < rx_next e).
  { intros z Hz. apply Hin2. rewrite Hl3 in Hz. rewrite <- (take_drop m (drop n _)).
    apply elem_of_app. by right. }
  rewrite <- (app_assoc cs) in Hr3, Hk3. fold ds in Hr3, Hk3. rewrite Hk2 in Hk3.
  destruct (delivery_fields _ _ (delivery_trans _ _ _ Hf2 Hf3)) as (F1 & F2 & F3 & F4 & F5).
  change (rx_next e1) with (rx_next e) in F2. change (t_current e1) with (t_current e) in F4.
  change (t_reordering_start e1) with 0 in F3. change (config e1) with (config e) in F1.
  clear Hf2 Hf3 Hr2 Hk2 Hl2 Hs2. change (held e1) with (held e) in Hk3. clear F5 Hr1. clearbody e1. clear e1.
  destruct (restart_t_reordering_ok e3 (cs ++ ds) (rx_reord e + Z.of_nat m)) as
    (Hi4 & Hc4 & Hd4 & Hn4 & Hh4 & Ht4 & Hg4); rewrite ?F2; try done; try lia.
  exists ds. cbn zeta in *. split; [split; [exact Hi4|congruence|lia]|].
  split; [by rewrite Hh4, Hk3|]. split; [congruence|]. split; [congruence|]. split; [|lia].
  intros [Hg _]. apply Hg4. lia.
Qed.

End Rx.
