(* ===== verification/PdcpLink.v ===== *)
(** * Two PDCP entities over a link

    A PDU built by [nr_pdcp_entity_process_sdu] with COUNT [c] is decoded by
    the peer to the same SDU and the same COUNT while [c] is in the window of
    the peer ([recv_of_sent]).  On top of it: any interleaving of
    transmissions, arrivals (with loss, repetition and reordering) and clock
    ticks delivers the SDUs in order and at most once. *)
From S2P Require Import Prelude PdcpSdu Secu PdcpSecurity PdcpEntity PdcpRx.
From Stdlib Require Import Sorted.

(** ** Headers *)

(** the D/C bit does not reach the low bits *)
Lemma land_dc (b : bool) x k : 0 <= k <= 7 ->
  Z.land (Z.lor (if b then 0 else 0x80) x) (2 ^ k - 1) = x mod 2 ^ k.
Proof.
  intros Hk. rewrite land_low by lia. destruct b; [done|].
  apply Z.bits_inj'. intros i Hi. destruct (Z.ltb_spec i k).
  - rewrite !Z.mod_pow2_bits_low, Z.lor_spec by lia.
    change 0x80 with (2 ^ 7). rewrite Z.pow2_bits_false by lia. done.
  - by rewrite !Z.mod_pow2_bits_high by lia.
Qed.

Lemma lor_dc_byte (b : bool) x : 0 <= x < 128 -> is_byte (Z.lor (if b then 0 else 0x80) x).
Proof.
  intros Hx. unfold is_byte. destruct b; [rewrite Z.lor_0_l; lia|].
  replace (Z.lor 0x80 x) with (1 * 2 ^ 7 + x) by (by rewrite <- lor_shiftl_add). lia.
Qed.

Definition sn_of (e : nr_pdcp_entity_t) (c : Z) : Z := c mod 2 ^ sn_size e.

Definition sn_size_ok (e : nr_pdcp_entity_t) : Prop := sn_size e = 12 \/ sn_size e = 18.

Lemma length_header e sn : sn_size_ok e ->
  Z.of_nat (length (header_bytes e sn)) = header_size_of e.
Proof. intros [E|E]; unfold header_bytes, header_size_of; by rewrite E. Qed.

Lemma header_size_bound e : 2 <= header_size_of e <= 3.
Proof. unfold header_size_of, SHORT_PDCP_HEADER_SIZE, LONG_PDCP_HEADER_SIZE. case_match; lia. Qed.
Lemma integrity_size_bound e : 0 <= integrity_size_of e <= 4.
Proof. unfold integrity_size_of, PDCP_INTEGRITY_SIZE. case_match; lia. Qed.
Lemma sdap_size_bound b : 0 <= sdap_size b <= 1.
Proof. destruct b; cbn; lia. Qed.

Lemma header_is_bytes e sn : sn_size_ok e -> Forall is_byte (header_bytes e sn).
Proof.
  intros E.
  assert (forall x, is_byte (Z.land x 0xff)).
  { intros x. change 0xff with (2 ^ 8 - 1). rewrite land_low by lia. apply (Z.mod_pos_bound x (2 ^ 8)). lia. }
  unfold header_bytes, SHORT_SN_SIZE. destruct E as [E|E]; rewrite E; cbn [Z.eqb Pos.eqb].
  - change 0xf with (2 ^ 4 - 1). rewrite land_low by lia.
    rewrite !Forall_cons. split; [|auto using Forall_nil_2]. apply lor_dc_byte.
    pose proof (Z.mod_pos_bound (Z.shiftr sn 8) (2 ^ 4)). lia.
  - change 0x3 with (2 ^ 2 - 1). rewrite land_low by lia.
    rewrite !Forall_cons. split; [|auto using Forall_nil_2]. apply lor_dc_byte.
    pose proof (Z.mod_pos_bound (Z.shiftr sn 16) (2 ^ 2)). lia.
Qed.

(** the header of the transmitter is read by the receiver *)
Lemma read_header tx rx sn rest :
  sn_size tx = sn_size rx -> sn_size_ok rx -> 0 <= sn < 2 ^ sn_size rx ->
  read_sn rx (header_bytes tx sn ++ rest) = Ok sn.
Proof.
  intros E Hok Hsn. unfold header_bytes, read_sn. rewrite E.
  assert (Hb : forall x, Z.land x 0xff = x mod 2 ^ 8).
  { intros x. change 0xff with (2 ^ 8 - 1). by rewrite land_low. }
  destruct Hok as [E1|E1]; rewrite E1 in *; cbn -[Z.land Z.lor Z.shiftr Z.shiftl Z.pow Z.modulo];
    rewrite !Hb, !Z.shiftr_div_pow2 by lia.
  - change 0xf with (2 ^ 4 - 1). rewrite land_dc, land_low by lia.
    rewrite lor_shiftl_add by (try apply Z.mod_pos_bound; lia).
    f_equal. change (2 ^ 8) with 256. change (2 ^ 4) with 16. Z.to_euclidean_division_equations; lia.
  - change 0x3 with (2 ^ 2 - 1). rewrite land_dc, land_low by lia.
    match goal with |- context [Z.shiftl ?x 16] => change (Z.shiftl x 16) with (Z.shiftl x (8 + 8)) end.
    rewrite <- Z.shiftl_shiftl, <- Z.shiftl_lor by lia.
    rewrite !lor_shiftl_add by (try apply Z.mod_pos_bound; lia).
    f_equal. change (2 ^ 16) with 65536. change (2 ^ 8) with 256. change (2 ^ 2) with 4. Z.to_euclidean_division_equations; lia.
Qed.

Lemma header_dc_bit e sn rest b0 : sn_size_ok e -> is_srb e = false ->
  byte_at (header_bytes e sn ++ rest) 0 = Ok b0 -> dc_bit_set b0 = true.
Proof.
  intros Hok Hs. unfold header_bytes, byte_at, dc_bit_set. rewrite Hs.
  assert (Hd : forall x, negb (Z.land (Z.lor 0x80 x) 0x80 =? 0) = true).
  { intros x. rewrite Z.land_comm, (Z.land_lor_distr_r 0x80 0x80 x).
    destruct (Z.eqb_spec (Z.lor (Z.land 0x80 0x80) (Z.land 0x80 x)) 0) as [E|]; [|done].
    apply Z.lor_eq_0_iff in E as [E _]. done. }
  destruct Hok as [E|E]; rewrite E; cbn -[Z.land Z.lor Z.shiftr];
    intros [= <-]; apply Hd.
Qed.

(** ** COUNT reconstruction *)

Lemma count_reconstruction e c :
  1 <= sn_size e <= 31 -> sn_max e = 2 ^ sn_size e - 1 -> window_size e = 2 ^ (sn_size e - 1) ->
  0 <= rx_deliv e < 2 ^ 32 -> 0 <= c < 2 ^ 32 ->
  rx_deliv e - window_size e <= c < rx_deliv e + window_size e ->
  rcvd_count_of e (sn_of e c) = c.
Proof.
  intros Hn Hm Hw Hd Hc Hin. unfold rcvd_count_of, sn_of.
  rewrite Hm, land_low, Z.shiftr_div_pow2 by lia. rewrite Hw in *.
  set (n := sn_size e) in *. assert (Hp : 2 ^ n = 2 * 2 ^ (n - 1)).
  { rewrite <- Z.pow_succ_r by lia. f_equal. lia. }
  assert (Hp0 : 0 < 2 ^ (n - 1)) by (apply Z.pow_pos_nonneg; lia).
  set (P := 2 ^ n) in *. set (W := 2 ^ (n - 1)) in *.
  pose proof (Z.div_mod (rx_deliv e) P ltac:(lia)). pose proof (Z.mod_pos_bound (rx_deliv e) P ltac:(lia)).
  pose proof (Z.div_mod c P ltac:(lia)). pose proof (Z.mod_pos_bound c P ltac:(lia)).
  set (dh := rx_deliv e / P) in *. set (ds := rx_deliv e mod P) in *.
  set (ch := c / P) in *. set (sn := c mod P) in *.
  assert (Hch : 0 <= ch < 2 ^ 32 /\ 0 <= dh < 2 ^ 32) by nia.
  assert (HP : forall a b, a < b -> P * a + P <= P * b) by nia.
  assert (Heq : forall a, P * a - P < P * ch < P * a + P -> a = ch).
  { intros a Ha. destruct (Z.lt_trichotomy a ch) as [Hl%HP|[?|Hl%HP]]; lia. }
  match goal with |- Z.lor (u32 (Z.shiftl ?h n)) sn = c => assert (h = ch) as -> end.
  { destruct (sn <? ds - W) eqn:E1; [|destruct (ds + W <=? sn) eqn:E2].
    - rewrite (Heq (dh + 1)) by lia. apply Z.mod_small. lia.
    - rewrite (Heq (dh - 1)) by lia. apply Z.mod_small. lia.
    - apply Heq. lia. }
  assert (Hs : Z.shiftl ch n = ch * P) by (apply Z.shiftl_mul_pow2; lia).
  unfold u32. rewrite Hs, Z.mod_small by nia. rewrite <- Hs, lor_shiftl_add by lia. fold P. lia.
Qed.

(** within half the SN space around RX_DELIV the receiver reconstructs
    the COUNT of a PDU exactly from its SN. *)
Theorem pdcp_count_reconstruction e c :
  1 <= sn_size e <= 31 -> sn_max e = 2 ^ sn_size e - 1 -> window_size e = 2 ^ (sn_size e - 1) ->
  0 <= rx_deliv e < 2 ^ 32 -> 0 <= c < 2 ^ 32 ->
  rx_deliv e - window_size e <= c < rx_deliv e + window_size e ->
  rcvd_count_of e (sn_of e c) = c.
Proof. apply count_reconstruction. Qed.

Lemma pdcp_count_reconstruction_witness :
  let e := mk_pdcp [] NR_PDCP_DRB_AM 1 1 false false 12 100 0 4095 2048 0 10000 9000 0 0 0 false false
    (mk_keys 0 0 [] []) Ctx_null None None Ctx_null None None true [] 0 stats_0 false in
  rcvd_count_of e (10500 mod 4096) = 10500.
Proof. intros e. apply (pdcp_count_reconstruction e 10500); cbn; lia. Defined.

(** ** Peers *)

Lemma mem_write_mid (a b b' c : list Z) off :
  off = Z.of_nat (length a) -> length b' = length b ->
  mem_write (a ++ b ++ c) off b' = Ok (a ++ b' ++ c).
Proof.
  intros -> Hl. rewrite mem_write_total by (rewrite ?length_app; lia).
  rewrite Nat2Z.id, take_app_length, Hl, <- length_app, (app_assoc a b), drop_app_length. done.
Qed.

Lemma mem_write_head (b b' c : list Z) :
  length b' = length b -> mem_write (b ++ c) 0 b' = Ok (b' ++ c).
Proof. by apply (mem_write_mid [] b b' c 0). Qed.

Lemma mem_read_head (b c : list Z) len :
  len = Z.of_nat (length b) -> mem_read (b ++ c) 0 len = Ok b.
Proof. by apply (mem_read_mid [] b c 0). Qed.

Lemma split3 (l : list Z) n1 n2 n3 : (n1 + n2 + n3 <= length l)%nat ->
  exists a b c r, l = a ++ b ++ c ++ r /\ length a = n1 /\ length b = n2 /\ length c = n3.
Proof.
  intros Hl. exists (take n1 l), (take n2 (drop n1 l)), (take n3 (drop n2 (drop n1 l))),
    (drop n3 (drop n2 (drop n1 l))).
  rewrite !take_drop. split; [done|]. rewrite !length_take, !length_drop. lia.
Qed.

Definition key_ok (k : list Z) : Prop := length k = 16%nat /\ Forall is_byte k.

(** the algorithm and the key an entity ciphers with *)
Definition cipher_params (e : nr_pdcp_entity_t) : option (nea * list Z) :=
  match cipher_fn e, ctx_key (security_context e) (ciphering_key (security_keys_and_algos e)) with
  | Some a, Ok k => Some (a, k)
  | _, _ => None
  end.
Definition integrity_params (e : nr_pdcp_entity_t) : option (nia * list Z) :=
  match integrity_fn e, ctx_key (integrity_context e) [] with
  | Some a, Ok k => Some (a, k)
  | _, _ => None
  end.

(** the receiver [rx] is configured as the peer of the transmitter [tx] *)
Record peers (tx rx : nr_pdcp_entity_t) : Prop := mk_peers {
  pe_sn : sn_size tx = sn_size rx;
  pe_sn_ok : sn_size_ok rx;
  pe_max : sn_max tx = 2 ^ sn_size rx - 1 /\ sn_max rx = 2 ^ sn_size rx - 1;
  pe_window : window_size rx = 2 ^ (sn_size rx - 1);
  pe_srb : is_srb tx = is_srb rx;
  pe_sdap : has_sdap_tx tx = has_sdap_rx rx;
  pe_gnb : is_gnb tx = negb (is_gnb rx);
  pe_rb : rb_id tx = rb_id rx /\ 1 <= rb_id rx <= 31;
  pe_up : entity_suspended tx = false /\ entity_suspended rx = false;
  pe_integrity : has_integrity tx = has_integrity rx /\
    (has_integrity rx = true -> exists a k,
       integrity_params tx = Some (a, k) /\ integrity_params rx = Some (a, k) /\ key_ok k);
  pe_cipher : has_ciphering tx = has_ciphering rx /\
    (has_ciphering rx = true -> exists a k,
       cipher_params tx = Some (a, k) /\ cipher_params rx = Some (a, k) /\ key_ok k)
}.

Lemma peers_config tx rx tx' rx' :
  config tx' = config tx -> config rx' = config rx -> peers tx rx -> peers tx' rx'.
Proof.
  intros Ht Hr Hp. assert (Hc : peers (config tx) (config rx)) by (destruct Hp; by split).
  rewrite <- Ht, <- Hr in Hc. destruct Hc. by split.
Qed.

(** an SDU with a payload behind its SDAP header *)
Definition sdu_ok (has_sdap : bool) (sdu : list Z) : Prop :=
  Forall is_byte sdu /\ sdap_size has_sdap + 1 <= Z.of_nat (length sdu) < 2 ^ 28 - 8.

Section Link.
Context `{PdcpCryptoLaws}.
Set Default Proof Using "All".

Lemma call_cipher_params e a k data c d :
  cipher_params e = Some (a, k) -> call_cipher e data c d = cipher a k data (rb_id e) c d.
Proof.
  unfold cipher_params, call_cipher. destruct (cipher_fn e); [|done].
  destruct (ctx_key _ _); [|done]. by intros [= -> ->].
Qed.

Lemma call_integrity_params e a k msg c d :
  integrity_params e = Some (a, k) -> call_integrity e msg c d = integrity a k msg (rb_id e) c d.
Proof.
  unfold integrity_params, call_integrity. destruct (integrity_fn e); [|done].
  destruct (ctx_key _ _); [|done]. by intros [= -> ->].
Qed.

Definition tx_direction (e : nr_pdcp_entity_t) : Z := if is_gnb e then 1 else 0.
Definition rx_direction (e : nr_pdcp_entity_t) : Z := if is_gnb e then 0 else 1.

Lemma directions tx rx : peers tx rx -> tx_direction tx = rx_direction rx.
Proof. intros Hp. unfold tx_direction, rx_direction. rewrite (pe_gnb _ _ Hp). by destruct (is_gnb rx). Qed.

(** the MAC of a message is the same on both sides *)
Lemma peers_mac tx rx msg c :
  peers tx rx -> has_integrity rx = true -> Forall is_byte msg ->
  1 <= Z.of_nat (length msg) < 2 ^ 28 ->
  exists mac, length mac = 4%nat /\
    call_integrity tx msg c (tx_direction tx) = Ok mac /\
    call_integrity rx msg c (rx_direction rx) = Ok mac.
Proof.
  intros Hp Hi Hb Hl. destruct (pe_integrity _ _ Hp) as [_ Hk].
  destruct (Hk Hi) as (a & k & Ht & Hr & Hkl & Hkb). destruct (pe_rb _ _ Hp) as [Hrb Hrr].
  rewrite (call_integrity_params _ _ _ _ _ _ Ht), (call_integrity_params _ _ _ _ _ _ Hr).
  rewrite (directions _ _ Hp), Hrb.
  destruct (integrity_total a k msg (rb_id rx) c (rx_direction rx)) as (mac & -> & Hm);
    [|done|by exists mac].
  repeat split; try done; try lia; unfold rx_direction; case_match; lia.
Qed.

(** deciphering undoes ciphering *)
Lemma peers_cipher tx rx data c :
  peers tx rx -> has_ciphering rx = true -> 1 <= Z.of_nat (length data) < 2 ^ 28 ->
  exists out, length out = length data /\
    call_cipher tx data c (tx_direction tx) = Ok out /\
    call_cipher rx out c (rx_direction rx) = Ok data.
Proof.
  intros Hp Hi Hl. destruct (pe_cipher _ _ Hp) as [_ Hk].
  destruct (Hk Hi) as (a & k & Ht & Hr & Hkl & Hkb). destruct (pe_rb _ _ Hp) as [Hrb Hrr].
  destruct (cipher_involutive a k data (rb_id rx) c (rx_direction rx)) as (out & Ho & Hlo & Hb).
  { repeat split; try done; try lia; unfold rx_direction; case_match; lia. }
  exists out. split; [done|].
  rewrite (call_cipher_params _ _ _ _ _ _ Ht), (call_cipher_params _ _ _ _ _ _ Hr).
  rewrite (directions _ _ Hp), Hrb. done.
Qed.

(** ** The PDU of an SDU *)

(** [pdu] carries [sdu] with COUNT [c] to [rx] *)
Definition pdu_of (rx : nr_pdcp_entity_t) (c : Z) (sdu pdu : list Z) : Prop :=
  let s := Z.to_nat (sdap_size (has_sdap_rx rx)) in
  exists tx mac out, let hdr := header_bytes tx (sn_of rx c) in
    sn_size tx = sn_size rx /\ is_srb tx = is_srb rx /\
    pdu = hdr ++ take s sdu ++ out /\
    Z.of_nat (length mac) = integrity_size_of rx /\
    (has_integrity rx = true -> call_integrity rx (hdr ++ sdu) c (rx_direction rx) = Ok mac) /\
    length out = length (drop s sdu ++ mac) /\
    (if has_ciphering rx
     then call_cipher rx out c (rx_direction rx) = Ok (drop s sdu ++ mac)
     else out = drop s sdu ++ mac).

Lemma mac_bytes_ok tx rx hdr sdu rest c :
  peers tx rx -> Forall is_byte (hdr ++ sdu) -> 1 <= Z.of_nat (length (hdr ++ sdu)) < 2 ^ 28 ->
  exists mac, mac_bytes tx (hdr ++ sdu ++ rest) (Z.of_nat (length hdr) + Z.of_nat (length sdu)) c
                (tx_direction tx) = Ok mac /\
    Z.of_nat (length mac) = integrity_size_of rx /\
    (has_integrity rx = true -> call_integrity rx (hdr ++ sdu) c (rx_direction rx) = Ok mac).
Proof.
  intros Hp Hb Hl. unfold mac_bytes, integrity_size_of.
  destruct (pe_integrity _ _ Hp) as [Hi _]. rewrite Hi, (pe_srb _ _ Hp).
  destruct (has_integrity rx) eqn:E.
  - destruct (peers_mac tx rx (hdr ++ sdu) c Hp E Hb Hl) as (mac & Hm & Ht & Hr).
    rewrite app_assoc, <- (app_nil_l ((hdr ++ sdu) ++ rest)).
    rewrite mem_read_mid by (rewrite ?length_app; cbn; lia). cbn [res_bind].
    exists mac. split; [done|]. split; [|done]. rewrite Hm. done.
  - destruct (is_srb rx); cbn [orb]; by eexists.
Qed.

Lemma cipher_part_ok tx rx a data rest c off len :
  peers tx rx -> 1 <= Z.of_nat (length data) < 2 ^ 28 ->
  off = Z.of_nat (length a) -> len = Z.of_nat (length data) ->
  exists out,
    (if has_ciphering tx then
       let* d := mem_read (a ++ data ++ rest) off len in
       let* out := call_cipher tx d c (tx_direction tx) in
       mem_write (a ++ data ++ rest) off out
     else Ok (a ++ data ++ rest)) = Ok (a ++ out ++ rest) /\
    length out = length data /\
    (if has_ciphering rx then call_cipher rx out c (rx_direction rx) = Ok data else out = data).
Proof.
  intros Hp Hl -> ->. rewrite (proj1 (pe_cipher _ _ Hp)).
  destruct (has_ciphering rx) eqn:E; [|by exists data].
  destruct (peers_cipher tx rx data c Hp E Hl) as (out & Ho & Ht & Hr).
  rewrite mem_read_mid by done. cbn [res_bind]. rewrite Ht. cbn [res_bind].
  exists out. by rewrite mem_write_mid.
Qed.

Lemma process_sdu_ok tx rx sdu buf :
  peers tx rx -> sdu_ok (has_sdap_rx rx) sdu -> 0 <= tx_next tx ->
  nr_max_pdcp_pdu_size (Z.of_nat (length sdu)) <= Z.of_nat (length buf) ->
  exists tx' pdu rest,
    nr_pdcp_entity_process_sdu tx sdu buf = Ok (tx', pdu ++ rest, Z.of_nat (length pdu)) /\
    pdu_of rx (tx_next tx) sdu pdu /\ config tx' = config tx /\
    tx_next tx' = u32 (tx_next tx + 1).
Proof.
  intros Hp [Hb Hl] Hn Hbuf. unfold nr_pdcp_entity_process_sdu.
  destruct (_ <? _) eqn:E; [lia|]. rewrite (proj1 (pe_up _ _ Hp)).
  set (e1 := on_stats _ tx). rewrite <- (eq_refl : tx_next e1 = tx_next tx) in *.
  assert (Hc : config e1 = config tx) by done. rewrite <- Hc.
  apply (peers_config _ _ e1 rx Hc eq_refl) in Hp. clearbody e1. clear E Hc tx. rename e1 into tx.
  set (hdr := header_bytes tx (sn_of rx (tx_next tx))).
  assert (Hsn : Z.land (tx_next tx) (sn_max tx) = sn_of rx (tx_next tx)).
  { destruct (pe_max _ _ Hp) as [-> _]. destruct (pe_sn_ok _ _ Hp) as [E1|E1];
      unfold sn_of; rewrite E1; by apply land_low. }
  assert (Hok : sn_size_ok tx) by (unfold sn_size_ok; rewrite (pe_sn _ _ Hp); apply (pe_sn_ok _ _ Hp)).
  pose proof (length_header tx (sn_of rx (tx_next tx)) Hok) as Hlh. fold hdr in Hlh.
  pose proof (header_size_bound tx) as Hh3.
  pose proof (sdap_size_bound (has_sdap_rx rx)) as Hsd.
  pose proof (integrity_size_bound rx) as Hi4.
  assert (Hit : integrity_size_of tx = integrity_size_of rx).
  { unfold integrity_size_of. by rewrite (pe_srb _ _ Hp), (proj1 (pe_integrity _ _ Hp)). }
  destruct (split3 buf (length hdr) (length sdu) (Z.to_nat (integrity_size_of rx)))
    as (h0 & d0 & m0 & rest & -> & Hh0 & Hd0 & Hm0).
  { unfold nr_max_pdcp_pdu_size, LONG_PDCP_HEADER_SIZE, PDCP_INTEGRITY_SIZE in Hbuf. lia. }
  rewrite Hsn. fold hdr. rewrite mem_write_head by done. cbn [res_bind].
  rewrite (mem_write_mid hdr d0 sdu) by done. cbn [res_bind].
  rewrite <- Hlh, Hit, (pe_sdap _ _ Hp). fold (tx_direction tx).
  assert (Hbh : Forall is_byte (hdr ++ sdu)) by (apply Forall_app; split; [by apply header_is_bytes|done]).
  destruct (mac_bytes_ok tx rx hdr sdu (m0 ++ rest) (tx_next tx) Hp Hbh)
    as (mac & -> & Hmac & Hmi); [rewrite length_app; lia|]. cbn [res_bind].
  rewrite (app_assoc hdr), (mem_write_mid (hdr ++ sdu)) by (rewrite ?length_app; lia). cbn [res_bind].
  set (s := Z.to_nat (sdap_size (has_sdap_rx rx))).
  assert (Hsp : (hdr ++ sdu) ++ mac ++ rest = (hdr ++ take s sdu) ++ (drop s sdu ++ mac) ++ rest).
  { rewrite <- !app_assoc. f_equal. by rewrite (app_assoc (take s sdu)), take_drop. }
  rewrite Hsp.
  destruct (cipher_part_ok tx rx (hdr ++ take s sdu) (drop s sdu ++ mac) rest (tx_next tx)
     (Z.of_nat (length hdr) + sdap_size (has_sdap_rx rx))
     (Z.of_nat (length sdu) + integrity_size_of rx - sdap_size (has_sdap_rx rx)))
    as (out & -> & Hlo & Hco);
    [done|rewrite length_app, length_drop; lia|rewrite length_app, length_take; lia
    |rewrite length_app, length_drop; lia|]. cbn [res_bind].
  eexists _, (hdr ++ take s sdu ++ out), rest. split; [|split].
  - rewrite <- !app_assoc. do 2 f_equal.
    rewrite !length_app, Hlo, length_app, length_take, length_drop. lia.
  - exists tx, mac, out. fold hdr s. by destruct Hp.
  - done.
Qed.

Lemma msg_integrity_total e hdr rest size c :
  Z.of_nat (length hdr) = header_size_of e -> header_size_of e <= 3 ->
  size <= Z.of_nat (length (hdr ++ rest)) -> integrity_size_of e <= size ->
  exists mi, msg_integrity_of e (hdr ++ rest) size c = Ok mi.
Proof.
  intros Hh H3 Hl H4. unfold msg_integrity_of, integrity_size_of, PDCP_INTEGRITY_SIZE in *.
  destruct (_ || _); [|by eexists].
  rewrite mem_read_total by lia. cbn [res_bind].
  rewrite mem_read_head by done. cbn [res_bind].
  rewrite mem_write_total by (cbn; lia). cbn [res_bind]. by eexists.
Qed.

Ltac drop_stats f :=
  repeat match goal with
  | |- context [f (on_stats ?g ?e)] => change (f (on_stats g e)) with (f e)
  end.

Lemma recv_of_sent tx0 rx c sdu pdu slack :
  peers tx0 rx -> pdu_of rx c sdu pdu -> sdu_ok (has_sdap_rx rx) sdu ->
  0 <= rx_deliv rx < 2 ^ 32 -> 0 <= c < 2 ^ 32 ->
  rx_deliv rx - window_size rx <= c < rx_deliv rx + window_size rx ->
  exists f mi, let size := Z.of_nat (length pdu) in
    nr_pdcp_entity_recv_pdu rx (pdu ++ slack) size =
    Ok (if (c <? rx_deliv rx) || nr_pdcp_sdu_in_list (rx_list rx) c
        then discard_pdu size (on_stats f rx)
        else receive_sdu (on_stats f rx) (mk_pdcp_sdu c sdu (Z.of_nat (length sdu)) mi) size).
Proof.
  intros Hp (tx & mac & out & Hsn & Hsrb & Hpdu & Hmac & Hint & Hlo & Hco) [Hb Hl] Hd Hc Hw.
  set (hdr := header_bytes tx (sn_of rx c)) in *. set (s := Z.to_nat (sdap_size (has_sdap_rx rx))) in *.
  assert (Hok : sn_size_ok tx) by (unfold sn_size_ok; rewrite Hsn; apply (pe_sn_ok _ _ Hp)).
  pose proof (length_header tx (sn_of rx c) Hok) as Hlh. fold hdr in Hlh.
  assert (Ehs : header_size_of tx = header_size_of rx) by (unfold header_size_of; by rewrite Hsn).
  rewrite Ehs in Hlh. clear Ehs.
  pose proof (header_size_bound rx) as Hh3.
  pose proof (sdap_size_bound (has_sdap_rx rx)) as Hsd.
  pose proof (integrity_size_bound rx) as Hi4.
  assert (Hsize : Z.of_nat (length pdu) = header_size_of rx + Z.of_nat (length sdu) + integrity_size_of rx).
  { rewrite Hpdu, !length_app, Hlo, length_app, length_take, length_drop. lia. }
  unfold nr_pdcp_entity_recv_pdu. rewrite (proj2 (pe_up _ _ Hp)).
  destruct (_ <? 1) eqn:E; [lia|]. clear E.
  assert (Hhack : exists b0, byte_at (pdu ++ slack) 0 = Ok b0 /\
    (if negb (is_srb rx) && negb (dc_bit_set b0) then <[0%nat := Z.lor b0 128]> (pdu ++ slack)
     else pdu ++ slack) = pdu ++ slack).
  { rewrite Hpdu, <- app_assoc. destruct (byte_at (hdr ++ _) 0) as [b0|] eqn:E0.
    - exists b0. split; [done|]. destruct (is_srb rx) eqn:Es; [done|].
      by rewrite (header_dc_bit tx (sn_of rx c) _ b0 Hok Hsrb E0).
    - destruct hdr; cbn in E0, Hlh; [lia|done]. }
  destruct Hhack as (b0 & -> & Hb0). cbn [res_bind]. rewrite Hb0. clear Hb0 b0.
  set (size := Z.of_nat (length pdu)) in *. drop_stats read_sn.
  assert (Hrd : read_sn rx (pdu ++ slack) = Ok (sn_of rx c)).
  { rewrite Hpdu, <- app_assoc. apply (read_header tx rx); [done|apply (pe_sn_ok _ _ Hp)|].
    apply Z.mod_pos_bound. destruct (pe_sn_ok _ _ Hp) as [E|E]; rewrite E; lia. }
  rewrite Hrd. cbn [res_bind].
  match goal with |- context [discard_pdu size ?e] => set (e1 := e) end.
  assert (He1 : exists f, e1 = on_stats f rx) by (by eexists (fun s => _)).
  drop_stats header_size_of. drop_stats has_sdap_rx. change (integrity_size_of e1) with (integrity_size_of rx).
  change (rcvd_count_of e1) with (rcvd_count_of rx).
  rewrite count_reconstruction;
    [|destruct (pe_sn_ok _ _ Hp) as [E|E]; rewrite E; lia|apply (pe_max _ _ Hp)|apply (pe_window _ _ Hp)|done..].
  destruct (size <? _) eqn:E; [lia|]. clear E.
  destruct (msg_integrity_total e1 hdr (take s sdu ++ out ++ slack) size c) as (mi & Hmi);
    [done|change (header_size_of e1) with (header_size_of rx); lia|unfold size; rewrite Hpdu, !length_app; lia
    |change (integrity_size_of e1) with (integrity_size_of rx); lia|].
  assert (Hps : pdu ++ slack = (hdr ++ take s sdu) ++ out ++ slack) by by rewrite Hpdu, <- !app_assoc.
  assert (Hdp : decipher_buffer e1 (pdu ++ slack) (header_size_of rx + sdap_size (has_sdap_rx rx))
    (size - (header_size_of rx + sdap_size (has_sdap_rx rx))) c (rx_direction rx)
    = Ok (hdr ++ sdu ++ mac ++ slack)).
  { assert (Hfin : hdr ++ sdu ++ mac ++ slack = (hdr ++ take s sdu) ++ (drop s sdu ++ mac) ++ slack).
    { rewrite <- !app_assoc. f_equal. by rewrite (app_assoc (take s sdu)), take_drop. }
    unfold decipher_buffer. change (has_ciphering e1) with (has_ciphering rx).
    change (call_cipher e1) with (call_cipher rx). rewrite Hps, Hfin.
    destruct (has_ciphering rx); [|by rewrite Hco].
    rewrite length_app, length_drop in Hlo.
    rewrite mem_read_mid by (rewrite ?length_app, ?length_take; lia). cbn [res_bind].
    rewrite Hco. cbn [res_bind].
    apply mem_write_mid; rewrite ?length_app, ?length_take, ?length_drop; lia. }
  assert (Hin : integrity_ok e1 (hdr ++ sdu ++ mac ++ slack) (size - integrity_size_of rx) c
    (rx_direction rx) = Ok true).
  { unfold integrity_ok. change (has_integrity e1) with (has_integrity rx).
    change (call_integrity e1) with (call_integrity rx).
    destruct (has_integrity rx) eqn:Ei; [|done].
    rewrite app_assoc, mem_read_head by (rewrite length_app; lia). cbn [res_bind].
    rewrite Hint by done. cbn [res_bind].
    assert (integrity_size_of rx = 4) by (unfold integrity_size_of; by rewrite Ei).
    rewrite mem_read_mid by (rewrite ?length_app; unfold PDCP_INTEGRITY_SIZE; lia).
    cbn [res_bind]. by rewrite bool_decide_true. }
  change (if is_gnb e1 then 0 else 1) with (rx_direction rx).
  assert (Hmi' : msg_integrity_of e1 (pdu ++ slack) size c = Ok mi) by (by rewrite Hpdu, <- !app_assoc).
  rewrite Hmi'. cbn [res_bind]. rewrite Hdp. cbn [res_bind]. rewrite Hin. cbn [res_bind negb].
  destruct He1 as [f He1]. exists f, mi.
  change (rx_deliv e1) with (rx_deliv rx). change (rx_list e1) with (rx_list rx).
  rewrite <- He1. destruct (_ || _); [done|].
  unfold nr_pdcp_new_sdu. rewrite mem_read_mid by lia. cbn [res_bind]. do 3 f_equal. lia.
Qed.

(** ** The link *)

Lemma pdu_of_config rx rx' c sdu pdu :
  config rx' = config rx -> pdu_of rx c sdu pdu -> pdu_of rx' c sdu pdu.
Proof.
  intros Hc Hp. assert (Hx : pdu_of (config rx) c sdu pdu) by exact Hp.
  rewrite <- Hc in Hx. exact Hx.
Qed.

(** the transmitter, the SDUs it was given and the PDUs it sent so far, the
    receiver, and the COUNTs that arrived there in time *)
Record pdcp_link := mk_link {
  l_tx : nr_pdcp_entity_t;
  l_sdus : list (list Z);
  l_sent : list (list Z);
  l_rx : nr_pdcp_entity_t;
  l_got : list Z
}.

Inductive link_input :=
  | Send (sdu buf : list Z)          (** the upper layer sends; [buf] is the PDU buffer *)
  | Arrive (c : nat) (slack : list Z) (** the PDU number [c] arrives, followed by other bytes *)
  | Tick (now : Z).                  (** [set_time] *)

Definition link_step (l : pdcp_link) (i : link_input) : res pdcp_link :=
  match i with
  | Send sdu buf =>
      let* '(tx, out, n) := nr_pdcp_entity_process_sdu (l_tx l) sdu buf in
      Ok (mk_link tx (l_sdus l ++ [sdu]) (l_sent l ++ [take (Z.to_nat n) out]) (l_rx l) (l_got l))
  | Arrive c slack =>
      match l_sent l !! c with
      | None => Ok l
      | Some pdu =>
          let* rx := nr_pdcp_entity_recv_pdu (l_rx l) (pdu ++ slack) (Z.of_nat (length pdu)) in
          let got := if rx_deliv (l_rx l) <=? Z.of_nat c then Z.of_nat c :: l_got l else l_got l in
          Ok (mk_link (l_tx l) (l_sdus l) (l_sent l) rx got)
      end
  | Tick now =>
      Ok (mk_link (l_tx l) (l_sdus l) (l_sent l) (nr_pdcp_entity_set_time (l_rx l) now) (l_got l))
  end.

Fixpoint link_run (l : pdcp_link) (ins : list link_input) : res pdcp_link :=
  match ins with
  | [] => Ok l
  | i :: ins => let* l := link_step l i in link_run l ins
  end.

(** COUNT does not wrap around, and a PDU arrives while its COUNT is in the
    window of the receiver *)
Definition allowed (l : pdcp_link) (i : link_input) : Prop :=
  match i with
  | Send sdu buf =>
      sdu_ok (has_sdap_rx (l_rx l)) sdu /\ Z.of_nat (length (l_sdus l)) < 2 ^ 32 - 1 /\
      nr_max_pdcp_pdu_size (Z.of_nat (length sdu)) <= Z.of_nat (length buf)
  | Arrive c _ =>
      rx_deliv (l_rx l) - window_size (l_rx l) <= Z.of_nat c < rx_deliv (l_rx l) + window_size (l_rx l)
  | Tick now => 0 < now
  end.

Fixpoint allowed_run (l : pdcp_link) (ins : list link_input) : Prop :=
  match ins with
  | [] => True
  | i :: ins => allowed l i /\
      match link_step l i with Ok l => allowed_run l ins | Err _ => True end
  end.

#[export] Instance is_byte_dec b : Decision (is_byte b) := _.
#[export] Instance allowed_dec l i : Decision (allowed l i).
Proof. destruct i; cbn; unfold sdu_ok; apply _. Defined.
#[export] Instance allowed_run_dec ins : forall l, Decision (allowed_run l ins).
Proof.
  induction ins as [|i ins IH]; intros l; cbn; [apply _|].
  apply and_dec; [apply _|]. destruct (link_step l i); [apply IH|apply _].
Defined.

Definition payload (sdus : list (list Z)) (c : Z) : list Z := default [] (sdus !! Z.to_nat c).

Record link_inv (l : pdcp_link) (cs : list Z) : Prop := mk_link_inv {
  li_peers : peers (l_tx l) (l_rx l);
  li_next : tx_next (l_tx l) = Z.of_nat (length (l_sdus l));
  li_max : Z.of_nat (length (l_sdus l)) < 2 ^ 32;
  li_sent : length (l_sent l) = length (l_sdus l);
  li_pdus : forall c sdu pdu, l_sdus l !! c = Some sdu -> l_sent l !! c = Some pdu ->
    pdu_of (l_rx l) (Z.of_nat c) sdu pdu /\ sdu_ok (has_sdap_rx (l_rx l)) sdu;
  li_rx : rx_inv (payload (l_sdus l)) (l_rx l) cs;
  li_rx_next : rx_next (l_rx l) <= Z.of_nat (length (l_sdus l));
  li_guard : guarded (l_rx l);
  li_got : forall c, c ∈ cs ++ held (l_rx l) <-> c ∈ l_got l;
  li_lossless : t_reordering (l_rx l) = -1 -> forall c, 0 <= c < rx_deliv (l_rx l) -> c ∈ cs
}.

Lemma rx_rel_ext D D' e cs :
  (forall c, c ∈ cs ++ held e -> D c = D' c) -> rx_rel D e cs -> rx_rel D' e cs.
Proof.
  intros Hx [Ht Hs Hd]. split; [|done|].
  - rewrite Ht. apply list_fmap_ext. intros i x Hi. apply Hx, elem_of_app. left.
    by eapply list_elem_of_lookup_2.
  - intros s Hin. rewrite (Hd s Hin). apply Hx, elem_of_app. right.
    unfold held. by apply list_elem_of_fmap_2.
Qed.

Lemma rx_inv_counts D e cs c : rx_inv D e cs -> c ∈ cs ++ held e -> 0 <= c < rx_next e.
Proof.
  intros [[Hs Hb Hd _ _] _ Hp] Hc. apply elem_of_app in Hc as [Hc|Hc].
  - rewrite Forall_forall in Hp. specialize (Hp c Hc). cbn in Hp. lia.
  - apply list_elem_of_fmap in Hc as (s & -> & Hin).
    pose proof (counts_from_elem _ _ _ Hs Hin). specialize (Hb s Hin). lia.
Qed.

Lemma rx_inv_ext D D' e cs :
  (forall c, 0 <= c < rx_next e -> D c = D' c) -> rx_inv D e cs -> rx_inv D' e cs.
Proof.
  intros Hx Hi. pose proof Hi as [Hw Hr Hp]. split; [done| |done].
  apply (rx_rel_ext D); [|done]. intros c Hc. by apply Hx, (rx_inv_counts D e cs).
Qed.

Lemma payload_app sdus sdu c :
  0 <= c < Z.of_nat (length sdus) -> payload sdus c = payload (sdus ++ [sdu]) c.
Proof. intros Hc. unfold payload. rewrite lookup_app_l by lia. done. Qed.

Lemma rx_inv_same D e e' cs :
  rx_inv D e cs -> trace e' = trace e -> rx_list e' = rx_list e -> rx_deliv e' = rx_deliv e ->
  rx_next e' = rx_next e -> t_reordering_start e' = t_reordering_start e ->
  rx_reord e' = rx_reord e -> rx_inv D e' cs.
Proof.
  intros [[W1 W2 W3 W4 W5] [R1 R2 R3] P] Ht Hl Hd Hn Hs Hr.
  split; [split|split|]; unfold delivered, held in *; by rewrite ?Ht, ?Hl, ?Hd, ?Hn, ?Hs, ?Hr.
Qed.

Lemma set_time_ok D e cs now :
  rx_inv D e cs -> guarded e -> 0 < now ->
  exists ds, let e' := nr_pdcp_entity_set_time e now in
    rx_step D e cs e' ds /\ (cs ++ ds) ++ held e' = cs ++ held e /\ rx_next e' = rx_next e /\
    guarded e' /\ (t_reordering e = -1 -> rx_deliv e' = rx_deliv e).
Proof.
  intros Hi [Hg1 Hg2] Hnow. unfold nr_pdcp_entity_set_time. set (e1 := e <| t_current := now |>).
  assert (Hi1 : rx_inv D e1 cs) by (by apply (rx_inv_same D e)).
  destruct (check_t_reordering_ok D e1 cs Hi1) as (ds & [S1 S2 S3] & Hk & Hn & Ht & Hg & _).
  exists ds. cbn zeta. split; [by split|]. split; [done|]. split; [done|]. split; [by apply Hg|].
  intros E. unfold check_t_reordering. change (t_reordering e1) with (t_reordering e). by rewrite E.
Qed.

Lemma config_field {A} (f : nr_pdcp_entity_t -> A) e e' :
  (forall e, f (config e) = f e) -> config e' = config e -> f e' = f e.
Proof. intros Hf Hc. by rewrite <- Hf, Hc, Hf. Qed.

Lemma link_tick_inv l cs now :
  link_inv l cs -> 0 < now ->
  exists l' ds, link_step l (Tick now) = Ok l' /\ link_inv l' (cs ++ ds).
Proof.
  intros [I1 I2 I3 I4 I5 I6 I7 I8 I9 I10] Hnow. cbn [link_step].
  destruct (set_time_ok _ _ _ now I6 I8 Hnow) as (ds & [S1 S2 S3] & Hk & Hn & Hg & Hd).
  eexists _, ds. split; [done|]. set (e' := nr_pdcp_entity_set_time _ _) in *.
  assert (Hsd : has_sdap_rx e' = has_sdap_rx (l_rx l)) by by apply config_field.
  split; cbn [l_tx l_rx l_sdus l_sent l_got]; try done.
  - by apply (peers_config (l_tx l) (l_rx l)).
  - intros c sdu pdu Hc Hp. rewrite Hsd. destruct (I5 c sdu pdu Hc Hp). split; [|done].
    by apply (pdu_of_config (l_rx l)).
  - lia.
  - intros c. rewrite Hk. apply I9.
  - intros Ht c Hc. assert (Ht' : t_reordering e' = t_reordering (l_rx l)) by by apply config_field.
    rewrite Ht' in Ht. rewrite Hd in Hc by done. apply elem_of_app. left. by apply I10.
Qed.

Lemma link_send_inv l cs sdu buf :
  link_inv l cs -> allowed l (Send sdu buf) ->
  exists l', link_step l (Send sdu buf) = Ok l' /\ link_inv l' cs.
Proof.
  intros [I1 I2 I3 I4 I5 I6 I7 I8 I9 I10] (Hs & Hm & Hb). cbn [link_step].
  destruct (process_sdu_ok (l_tx l) (l_rx l) sdu buf I1 Hs ltac:(lia) Hb)
    as (tx' & pdu & rest & -> & Hpdu & Hc & Hn). cbn [res_bind].
  rewrite Nat2Z.id, take_app_length.
  eexists. split; [done|]. split; cbn [l_tx l_rx l_sdus l_sent l_got]; try done.
  - by apply (peers_config (l_tx l) (l_rx l)).
  - rewrite Hn, I2, length_app. unfold u32. rewrite Z.mod_small by lia. cbn. lia.
  - rewrite length_app. cbn. lia.
  - rewrite !length_app, I4. done.
  - intros c sdu' pdu' H1 H2.
    destruct (decide (c < length (l_sdus l))%nat) as [Hlt|Hge].
    + rewrite lookup_app_l in H1, H2 by lia. by apply (I5 c).
    + rewrite lookup_app_r in H1, H2 by lia.
      destruct (c - length (l_sdus l))%nat as [|k] eqn:Ek; [|by destruct k].
      rewrite I4, Ek in H2. injection H1 as <-. injection H2 as <-.
      split; [|done]. rewrite I2 in Hpdu. by replace c with (length (l_sdus l)) by lia.
  - apply (rx_inv_ext (payload (l_sdus l))); [|done].
    intros c Hc'. apply payload_app. lia.
  - rewrite length_app. lia.
Qed.

(** what the entity of the receiver may become when [c] arrives *)
Lemma link_rx_update l cs ds rx' got' :
  link_inv l cs -> config rx' = config (l_rx l) ->
  rx_inv (payload (l_sdus l)) rx' (cs ++ ds) -> rx_next rx' <= Z.of_nat (length (l_sdus l)) ->
  guarded rx' -> (forall c, c ∈ (cs ++ ds) ++ held rx' <-> c ∈ got') ->
  (t_reordering rx' = -1 -> forall c, rx_deliv (l_rx l) <= c < rx_deliv rx' -> c ∈ ds) ->
  link_inv (mk_link (l_tx l) (l_sdus l) (l_sent l) rx' got') (cs ++ ds).
Proof.
  intros [I1 I2 I3 I4 I5 I6 I7 I8 I9 I10] Hc Hi Hn Hg Hgot Hl.
  assert (Hsd : has_sdap_rx rx' = has_sdap_rx (l_rx l)) by by apply config_field.
  split; cbn [l_tx l_rx l_sdus l_sent l_got]; try done.
  - by apply (peers_config (l_tx l) (l_rx l)).
  - intros c sdu pdu H1 H2. rewrite Hsd. destruct (I5 c sdu pdu H1 H2). split; [|done].
    by apply (pdu_of_config (l_rx l)).
  - intros Ht c Hcc. apply elem_of_app.
    assert (Ht' : t_reordering rx' = t_reordering (l_rx l)) by by apply config_field.
    destruct (decide (c < rx_deliv (l_rx l))); [left; apply I10; [congruence|lia]|].
    right. apply Hl; [done|lia].
Qed.

Lemma link_arrive_inv l cs c slack :
  link_inv l cs -> allowed l (Arrive c slack) ->
  exists l' ds, link_step l (Arrive c slack) = Ok l' /\ link_inv l' (cs ++ ds).
Proof.
  intros Hinv Hw. pose proof Hinv as [I1 I2 I3 I4 I5 I6 I7 I8 I9 I10]. cbn [link_step allowed] in *.
  destruct (l_sent l !! c) as [pdu|] eqn:Hp; [|exists l, []; by rewrite app_nil_r].
  assert (Hlt : (c < length (l_sdus l))%nat) by (rewrite <- I4; by eapply lookup_lt_Some).
  destruct (l_sdus l !! c) as [sdu|] eqn:Hs; [|apply lookup_ge_None in Hs; lia].
  destruct (I5 c sdu pdu Hs Hp) as [Hpdu Hok]. pose proof (wf_deliv _ (inv_wf _ _ _ I6)) as Hd.
  destruct (recv_of_sent (l_tx l) (l_rx l) (Z.of_nat c) sdu pdu slack) as (f & mi & ->);
    try done; try lia. cbn [res_bind].
  set (e1 := on_stats f (l_rx l)). set (size := Z.of_nat (length pdu)).
  assert (Hi1 : rx_inv (payload (l_sdus l)) e1 cs) by (by apply (rx_inv_same _ (l_rx l))).
  destruct ((Z.of_nat c <? rx_deliv (l_rx l)) || _) eqn:E; eexists.
  - exists []. split; [done|]. apply link_rx_update; try done.
    + rewrite app_nil_r. by apply (rx_inv_same _ (l_rx l)).
    + intros x. rewrite app_nil_r. change (held _) with (held (l_rx l)). rewrite I9.
      destruct (Z.leb_spec (rx_deliv (l_rx l)) (Z.of_nat c)); [|done].
      apply orb_true_iff in E as [E|E]; [lia|]. apply in_list_spec in E as (s & Hin & Hcs).
      rewrite elem_of_cons. split; [by right|]. intros [->|Hx]; [|done]. apply I9, elem_of_app.
      right. rewrite <- Hcs. unfold held. by apply list_elem_of_fmap_2.
    + intros _ x Hx. cbn in Hx. lia.
  - apply orb_false_iff in E as [E1 E2].
    destruct (receive_sdu_ok (payload (l_sdus l)) e1 cs
      (mk_pdcp_sdu (Z.of_nat c) sdu (Z.of_nat (length sdu)) mi) size Hi1)
      as (n & [S1 S2 S3] & Hdl & Hn & Hk & Ht & Hg).
    + cbn. lia.
    + unfold count_ok. cbn. lia.
    + done.
    + cbn. unfold payload. by rewrite Nat2Z.id, Hs.
    + exists (counts (rx_deliv e1) n). split; [done|]. cbn zeta in *.
      apply link_rx_update; try done.
      * rewrite Hn. cbn [ps_count]. change (rx_next e1) with (rx_next (l_rx l)). lia.
      * apply Hg, I8.
      * intros x. rewrite Hk. cbn [ps_count]. change (held e1) with (held (l_rx l)). rewrite I9.
        destruct (Z.leb_spec (rx_deliv (l_rx l)) (Z.of_nat c)); [|lia]. by rewrite elem_of_cons.
      * intros _ x Hx. rewrite Hdl in Hx. apply elem_of_counts. done.
Qed.

Lemma link_run_inv ins : forall l cs,
  link_inv l cs -> allowed_run l ins ->
  exists l' ds, link_run l ins = Ok l' /\ link_inv l' (cs ++ ds).
Proof.
  induction ins as [|i ins IH]; intros l cs Hi Ha.
  { exists l, []. by rewrite app_nil_r. }
  destruct Ha as [Ha Hr]. cbn [link_run].
  assert (exists l1 ds, link_step l i = Ok l1 /\ link_inv l1 (cs ++ ds)) as (l1 & ds & E & H1).
  { destruct i as [sdu buf|c slack|now].
    - destruct (link_send_inv l cs sdu buf Hi Ha) as (l1 & ? & ?). exists l1, [].
      by rewrite app_nil_r.
    - by apply link_arrive_inv.
    - by apply link_tick_inv. }
  rewrite E in Hr |- *. cbn [res_bind]. destruct (IH l1 _ H1 Hr) as (l2 & ds2 & H2 & H3).
  exists l2, (ds ++ ds2). by rewrite app_assoc.
Qed.

(** ** Creation *)

Definition algorithms_ok (k : nr_pdcp_entity_security_keys_and_algos_t) : Prop :=
  -1 <= integrity_algorithm k <= 2 /\ -1 <= ciphering_algorithm k <= 2 /\
  key_ok (integrity_key k) /\ key_ok (ciphering_key k).

Lemma fresh_rx_inv D e :
  trace e = [] -> rx_list e = [] -> rx_deliv e = 0 -> rx_next e = 0 ->
  t_reordering_start e = 0 -> rx_inv D e [].
Proof.
  intros Ht Hl Hd Hn Hs. split; [split|split|done]; unfold delivered, held;
    rewrite ?Ht, ?Hl, ?Hd, ?Hn, ?Hs; try done.
  - intros s Hin. by apply elem_of_nil in Hin.
  - constructor.
  - intros s Hin. by apply elem_of_nil in Hin.
Qed.

Lemma new_peers ty gnb rb pid sdA sdB sn tr dt keys :
  sn = 12 \/ sn = 18 -> 1 <= rb <= 31 -> algorithms_ok keys ->
  exists tx rx,
    new_nr_pdcp_entity ty gnb rb pid sdA sdB sn tr dt keys = Ok tx /\
    new_nr_pdcp_entity ty (negb gnb) rb pid sdB sdA sn tr dt keys = Ok rx /\
    peers tx rx /\ tx_next tx = 0 /\ rx_inv (payload []) rx [] /\ rx_next rx = 0 /\
    rx_deliv rx = 0 /\ rx_list rx = [] /\ t_reordering_start rx = 0.
Proof.
  intros Hsn Hrb (Hia & Hca & Hki & Hkc). destruct keys as [ia ca ik ck]. cbn in Hia, Hca, Hki, Hkc.
  assert (Hia' : ia = -1 \/ ia = 0 \/ ia = 1 \/ ia = 2) by lia.
  assert (Hca' : ca = -1 \/ ca = 0 \/ ca = 1 \/ ca = 2) by lia. clear Hia Hca.
  destruct Hsn as [-> | ->], Hia' as [->|[->|[->| ->]]], Hca' as [->|[->|[->| ->]]];
    (eexists _, _; split; [lazy; reflexivity|]; split; [lazy; reflexivity|];
     split; [|by repeat split; try apply fresh_rx_inv];
     split; try done; try (by left); try (by right); try (by destruct gnb);
     split; try done; intros _; by eexists _, _).
Qed.

Lemma link_init tx rx now :
  peers tx rx -> tx_next tx = 0 -> rx_inv (payload []) rx [] -> rx_next rx = 0 ->
  rx_deliv rx = 0 -> rx_list rx = [] -> 0 < now ->
  exists cs, link_inv (mk_link tx [] [] (nr_pdcp_entity_set_time rx now) []) cs.
Proof.
  intros Hp Hn Hi Hrn Hrd Hrl Hnow.
  unfold nr_pdcp_entity_set_time. set (e1 := rx <| t_current := now |>).
  assert (Hi1 : rx_inv (payload []) e1 []) by (by apply (rx_inv_same _ rx)).
  assert (Hg1 : guarded e1) by (split; cbn; lia).
  destruct (check_t_reordering_ok _ e1 [] Hi1) as (ds & [S1 S2 S3] & Hk & Hx & Ht & Hg & _).
  assert (Hd : ds = [] /\ held (check_t_reordering e1) = []).
  { apply app_eq_nil. cbn [app] in Hk. rewrite Hk. unfold held. cbn. by rewrite Hrl. }
  destruct Hd as [-> Hh]. exists []. split; cbn [l_tx l_rx l_sdus l_sent l_got]; try done.
  - by apply (peers_config tx rx).
  - rewrite Hx. cbn. lia.
  - by apply Hg.
  - intros c. by rewrite Hh.
  - intros _ c Hc. destruct S1 as [[_ _ W3 _ _] _ _]. rewrite Hx in W3. cbn in W3. lia.
Qed.

Lemma new_link_run ty gnb rb pid sdA sdB sn tr dt keys now tx rx ins :
  sn = 12 \/ sn = 18 -> 1 <= rb <= 31 -> algorithms_ok keys -> 0 < now ->
  new_nr_pdcp_entity ty gnb rb pid sdA sdB sn tr dt keys = Ok tx ->
  new_nr_pdcp_entity ty (negb gnb) rb pid sdB sdA sn tr dt keys = Ok rx ->
  allowed_run (mk_link tx [] [] (nr_pdcp_entity_set_time rx now) []) ins ->
  exists l cs, link_run (mk_link tx [] [] (nr_pdcp_entity_set_time rx now) []) ins = Ok l /\
    link_inv l cs.
Proof.
  intros Hsn Hrb Hk Hnow Htx Hrx Ha.
  destruct (new_peers ty gnb rb pid sdA sdB sn tr dt keys Hsn Hrb Hk)
    as (tx' & rx' & E1 & E2 & Hp & Hn & Hi & Hrn & Hrd & Hrl & Hrs).
  rewrite Htx in E1. rewrite Hrx in E2. injection E1 as <-. injection E2 as <-.
  destruct (link_init tx rx now Hp Hn Hi Hrn Hrd Hrl Hnow) as (cs0 & HL).
  destruct (link_run_inv ins _ _ HL Ha) as (l & ds & Hl & Hi'). by exists l, (cs0 ++ ds).
Qed.

(** C6: two entities created with mirrored parameters, for any algorithms and
    any interleaving of transmissions, arrivals in the reception window (with
    loss, repetition, reordering and foreign bytes behind the PDU) and clock
    ticks: no call fails; the SDUs delivered are, unmodified, those of a
    strictly increasing sequence of COUNTs, which are exactly the COUNTs below
    RX_DELIV that arrived in time; the others that arrived are held; while
    there is a gap t-Reordering runs; and with an infinite t-Reordering no
    COUNT below RX_DELIV is missing. *)
Theorem pdcp_in_order_delivery ty gnb rb pid sdA sdB sn tr dt keys now tx rx ins :
  sn = 12 \/ sn = 18 -> 1 <= rb <= 31 -> algorithms_ok keys -> 0 < now ->
  new_nr_pdcp_entity ty gnb rb pid sdA sdB sn tr dt keys = Ok tx ->
  new_nr_pdcp_entity ty (negb gnb) rb pid sdB sdA sn tr dt keys = Ok rx ->
  allowed_run (mk_link tx [] [] (nr_pdcp_entity_set_time rx now) []) ins ->
  exists l cs,
    link_run (mk_link tx [] [] (nr_pdcp_entity_set_time rx now) []) ins = Ok l /\
    delivered (l_rx l) = payload (l_sdus l) <$> cs /\ StronglySorted Z.lt cs /\
    (forall c, c ∈ cs <-> c ∈ l_got l /\ c < rx_deliv (l_rx l)) /\
    (forall c, c ∈ held (l_rx l) <-> c ∈ l_got l /\ rx_deliv (l_rx l) <= c) /\
    (rx_deliv (l_rx l) < rx_next (l_rx l) -> t_reordering_start (l_rx l) <> 0) /\
    (t_reordering (l_rx l) = -1 -> forall c, 0 <= c < rx_deliv (l_rx l) -> c ∈ cs).
Proof.
  intros Hsn Hrb Hk Hnow Htx Hrx Ha.
  destruct (new_link_run ty gnb rb pid sdA sdB sn tr dt keys now tx rx ins)
    as (l & cs & Hl & [_ _ _ _ _ [W [Rt Rs Rd] P] _ G I9 I10]); try done.
  exists l, cs. rewrite Forall_forall in P.
  assert (Hh : forall c, c ∈ held (l_rx l) -> rx_deliv (l_rx l) < c).
  { intros c (s & -> & Hin)%list_elem_of_fmap.
    pose proof (counts_from_elem _ _ _ (wf_sorted _ W) Hin). lia. }
  split; [done|]. split; [done|]. split; [by eapply StronglySorted_app_l|].
  split; [|split; [|split; [exact (proj2 G)|exact I10]]].
  - intros c. rewrite <- I9, elem_of_app. split.
    + intros Hc. split; [by left|]. specialize (P c Hc). cbn in P. lia.
    + intros [[Hc|Hc] Hlt]; [done|]. specialize (Hh c Hc). lia.
  - intros c. rewrite <- I9, elem_of_app. split.
    + intros Hc. split; [by right|]. specialize (Hh c Hc). lia.
    + intros [[Hc|Hc] Hlt]; [|done]. specialize (P c Hc). cbn in P. lia.
Qed.

End Link.

(** ** A concrete run: AES algorithms over a toy OpenSSL, 12-bit SNs, three
    SDUs, arrivals out of order with a repetition, and an expiry *)
Import ToyOpenssl.

Module Toy.
Definition keys : nr_pdcp_entity_security_keys_and_algos_t :=
  mk_keys 2 2 (replicate 16 0x5a) (replicate 16 0x3c).
Definition inputs : list link_input :=
  let buf := replicate 20 0 in
  [Send [1; 2; 3] buf; Send [4; 5] buf; Send [6; 7; 8; 9] buf;
   Arrive 2 [0]; Arrive 2 []; Tick 20; Arrive 0 [7; 7]; Tick 200; Arrive 1 []].
Definition side (gnb : bool) : nr_pdcp_entity_t :=
  match new_nr_pdcp_entity NR_PDCP_DRB_AM gnb 1 1 true true 12 100 0 keys with
  | Ok e => e
  | Err _ => mk_pdcp [] NR_PDCP_SRB 0 0 false false 0 0 0 0 0 0 0 0 0 0 0 false false keys
               Ctx_null None None Ctx_null None None false [] 0 stats_0 false
  end.
End Toy.
Import Toy.

Lemma pdcp_in_order_delivery_witness :
  exists l cs,
    link_run (mk_link (Toy.side true) [] [] (nr_pdcp_entity_set_time (Toy.side false) 10) [])
      Toy.inputs = Ok l /\
    delivered (l_rx l) = payload (l_sdus l) <$> cs /\ StronglySorted Z.lt cs.
Proof.
  destruct (pdcp_in_order_delivery NR_PDCP_DRB_AM true 1 1 true true 12 100 0 Toy.keys 10
    (Toy.side true) (Toy.side false) Toy.inputs) as (l & cs & Hr & Hd & Hs & _).
  - by left.
  - lia.
  - split; [cbn; lia|]. split; [cbn; lia|]. split; (split; [done|]); cbn;
      repeat constructor; lia.
  - lia.
  - vm_compute. reflexivity.
  - vm_compute. reflexivity.
  - apply (bool_decide_unpack _). vm_compute. exact I.
  - exact (ex_intro _ l (ex_intro _ cs (conj Hr (conj Hd Hs)))).
Defined.
