(* ===== verification/PdcpContexts.v ===== *)
(** * Security contexts, suspension and re-establishment of a PDCP entity

    A security context is allocated, used and freed through the pointers that
    [nr_pdcp_entity_set_security] sets.  [sec_inv] ties them to the keys and
    algorithms stored last; every operation keeps it. *)
From S2P Require Import Prelude PdcpSdu Secu PdcpSecurity PdcpEntity PdcpRx PdcpLink.
From Stdlib Require Import Sorted.
Import ToyOpenssl Toy.

(** the algorithm numbers of the code *)
Definition nea_of (alg : Z) : option nea :=
  if alg =? 1 then Some NEA1 else if alg =? 2 then Some NEA2 else None.
Definition nia_of (alg : Z) : option nia :=
  if alg =? 1 then Some NIA1 else if alg =? 2 then Some NIA2 else None.

Definition alg_ok (alg : Z) : Prop := alg = -1 \/ alg = 0 \/ alg = 1 \/ alg = 2.
Definition params_ok (p : nr_pdcp_entity_security_keys_and_algos_t) : Prop :=
  alg_ok (integrity_algorithm p) /\ alg_ok (ciphering_algorithm p).

(** ** The invariant *)

Record sec_inv (e : nr_pdcp_entity_t) : Prop := mk_sec_inv {
  si_cipher :
    match free_security e with
    | Some a => has_ciphering e = true /\ cipher_fn e = Some a /\
        nea_of (ciphering_algorithm (security_keys_and_algos e)) = Some a /\
        match a with
        | NEA1 => security_context e = Ctx_copy (ciphering_key (security_keys_and_algos e))
        | NEA2 => security_context e = Ctx_alias
        end
    | None => has_ciphering e = false /\
        nea_of (ciphering_algorithm (security_keys_and_algos e)) = None /\ (forall k, security_context e <> Ctx_copy k)
    end;
  si_integrity :
    match free_integrity e with
    | Some a => has_integrity e = true /\ integrity_fn e = Some a /\
        nia_of (integrity_algorithm (security_keys_and_algos e)) = Some a /\
        integrity_context e = Ctx_copy (integrity_key (security_keys_and_algos e))
    | None => has_integrity e = false /\
        nia_of (integrity_algorithm (security_keys_and_algos e)) = None /\ (forall k, integrity_context e <> Ctx_copy k)
    end
}.

Lemma sec_inv_config e e' : config e' = config e -> sec_inv e -> sec_inv e'.
Proof.
  intros Hc Hi. assert (Hx : sec_inv (config e)) by (destruct Hi; by split).
  rewrite <- Hc in Hx. destruct Hx. by split.
Qed.

Section Contexts.
Context `{PdcpCrypto}.

(** the entity once the new keys are stored *)
Definition store_keys (e : nr_pdcp_entity_t) (p : nr_pdcp_entity_security_keys_and_algos_t)
  : nr_pdcp_entity_security_keys_and_algos_t :=
  let k := security_keys_and_algos e in
  let k := if negb (integrity_algorithm p =? -1)
           then k <| integrity_algorithm := integrity_algorithm p |>
                  <| integrity_key := integrity_key p |> else k in
  if negb (ciphering_algorithm p =? -1)
  then k <| ciphering_algorithm := ciphering_algorithm p |>
         <| ciphering_key := ciphering_key p |> else k.

Lemma free_integrity_ctx_ok e : sec_inv e ->
  exists c, free_integrity_ctx (free_integrity e) (integrity_context e) = Ok c /\
    forall k, c <> Ctx_copy k.
Proof.
  intros [_ Hi]. unfold free_integrity_ctx. destruct (free_integrity e).
  - destruct Hi as (_ & _ & _ & ->). by eexists.
  - destruct Hi as (_ & _ & Hi). by eexists.
Qed.

Lemma free_security_ctx_ok e : sec_inv e ->
  exists c, free_security_ctx (free_security e) (security_context e) = Ok c /\
    forall k, c <> Ctx_copy k.
Proof.
  intros [Hc _]. unfold free_security_ctx. destruct (free_security e) as [[]|].
  - destruct Hc as (_ & _ & _ & ->). by eexists.
  - destruct Hc as (_ & _ & _ & ->). by eexists.
  - destruct Hc as (_ & _ & Hc). by eexists.
Qed.

Lemma set_security_ok e p :
  sec_inv e -> params_ok p ->
  exists e', nr_pdcp_entity_set_security e p = Ok e' /\ sec_inv e' /\
    security_keys_and_algos e' = store_keys e p /\
    trace e' = trace e /\ rx_list e' = rx_list e /\ tx_next e' = tx_next e /\
    rx_next e' = rx_next e /\ rx_deliv e' = rx_deliv e /\
    t_reordering_start e' = t_reordering_start e /\ entity_suspended e' = entity_suspended e.
Proof.
  intros Hinv [Hi Hc].
  destruct (free_integrity_ctx_ok e Hinv) as (ci & Efi & Hci).
  destruct (free_security_ctx_ok e Hinv) as (cc & Efc & Hcc).
  destruct Hinv as [Ic Ii]. destruct e as [? ? ? ? ? ? ? ? ? ? ? ? ? ? ? ? ? ? ? [] ? ? ? ? ? ? ? ? ? ? ?], p.
  cbn in Hi, Hc, Efi, Efc, Ic, Ii.
  destruct Hi as [->|[->|[->| ->]]], Hc as [->|[->|[->| ->]]];
    unfold nr_pdcp_entity_set_security, set_integrity, set_ciphering, store_keys; cbn;
    rewrite ?Efi; cbn; rewrite ?Efc; cbn;
    (eexists; split; [reflexivity|]; split; [|done]; split; cbn; done).
Qed.

(** ** Operations *)

Inductive pdcp_op :=
  | Op_recv_pdu (buffer : list Z) (size : Z)
  | Op_process_sdu (sdu pdu_buffer : list Z)
  | Op_set_time (now : Z)
  | Op_set_security (p : nr_pdcp_entity_security_keys_and_algos_t)
  | Op_suspend
  | Op_reestablish (p : nr_pdcp_entity_security_keys_and_algos_t)
  | Op_release.

Definition pdcp_step (e : nr_pdcp_entity_t) (op : pdcp_op) : res nr_pdcp_entity_t :=
  match op with
  | Op_recv_pdu buffer size => nr_pdcp_entity_recv_pdu e buffer size
  | Op_process_sdu sdu buf =>
      let* '(e, _, _) := nr_pdcp_entity_process_sdu e sdu buf in Ok e
  | Op_set_time now => Ok (nr_pdcp_entity_set_time e now)
  | Op_set_security p => nr_pdcp_entity_set_security e p
  | Op_suspend => Ok (nr_pdcp_entity_suspend e)
  | Op_reestablish p => reestablish_entity e p
  | Op_release => Ok (nr_pdcp_entity_release e)
  end.

Fixpoint pdcp_run (e : nr_pdcp_entity_t) (ops : list pdcp_op) : res nr_pdcp_entity_t :=
  match ops with
  | [] => Ok e
  | op :: ops => let* e := pdcp_step e op in pdcp_run e ops
  end.

Definition op_ok (op : pdcp_op) : Prop :=
  match op with Op_set_security p | Op_reestablish p => params_ok p | _ => True end.

(** operations other than the transport of data *)
Definition management (op : pdcp_op) : bool :=
  match op with Op_recv_pdu _ _ | Op_process_sdu _ _ => false | _ => true end.

Lemma deliver_consecutive_config l : forall c e,
  config (deliver_consecutive l c e).1 = config e.
Proof.
  induction l as [|x l IH]; intros c e; cbn [deliver_consecutive]; [done|].
  destruct (_ =? _); [|done]. by rewrite IH.
Qed.
Lemma deliver_below_config limit l : forall e, config (deliver_below l limit e) = config e.
Proof.
  induction l as [|x l IH]; intros e; cbn [deliver_below]; [done|].
  destruct (_ <? _); [|done]. by rewrite IH.
Qed.
Lemma deliver_list_config l : forall e, config (deliver_list l e) = config e.
Proof. induction l as [|x l IH]; intros e; cbn [deliver_list]; [done|]. by rewrite IH. Qed.

Lemma update_t_reordering_config e : config (update_t_reordering e) = config e.
Proof. unfold update_t_reordering. destruct (_ && _), (_ && _); reflexivity. Qed.

Lemma deliver_in_order_config e c : config (deliver_in_order e c) = config e.
Proof.
  unfold deliver_in_order. destruct (_ =? _); [|done].
  pose proof (deliver_consecutive_config (rx_list e) (rx_deliv e) e) as Hd.
  destruct (deliver_consecutive _ _ _) as [e' n]. exact Hd.
Qed.

Lemma receive_sdu_config e sdu size : config (receive_sdu e sdu size) = config e.
Proof.
  unfold receive_sdu. rewrite update_t_reordering_config, deliver_in_order_config.
  unfold store_sdu. cbn [rx_next update]. by destruct (_ <=? _).
Qed.

(** an early return [H : (if b then Ok _ else _) = Ok _] *)
Ltac branch H :=
  lazymatch type of H with
  | (if ?b then _ else _) = _ => destruct b; [first [discriminate H | by simplify_eq/=]|]
  end.

Lemma recv_pdu_config e buffer size e' :
  nr_pdcp_entity_recv_pdu e buffer size = Ok e' -> config e' = config e.
Proof.
  unfold nr_pdcp_entity_recv_pdu. intros Hr.
  branch Hr. branch Hr. res_inv. branch Hr. res_inv. branch Hr. branch Hr. res_inv.
  by rewrite receive_sdu_config.
Qed.

Lemma process_sdu_config e sdu buf e' out n :
  nr_pdcp_entity_process_sdu e sdu buf = Ok (e', out, n) -> config e' = config e.
Proof.
  unfold nr_pdcp_entity_process_sdu. intros Hr. branch Hr. branch Hr. res_inv. by simplify_eq/=.
Qed.

Lemma check_t_reordering_config e : config (check_t_reordering e) = config e.
Proof.
  unfold check_t_reordering. destruct (_ =? _); [done|]. destruct (_ || _); [done|].
  cbn zeta. set (e1 := e <| t_reordering_start := 0 |>).
  change (config e) with (config e1). change (rx_list (e <| t_reordering_start := 0 |>)) with (rx_list e1).
  clearbody e1. clear e. rename e1 into e.
  pose proof (deliver_below_config (rx_reord e) (rx_list e) e) as Hb.
  set (e1 := deliver_below _ _ _) in *.
  pose proof (deliver_consecutive_config (rx_list e1) (rx_reord e1) e1) as Hc.
  destruct (deliver_consecutive _ _ _) as [e2 n]. cbn [fst] in Hc. rewrite <- Hb, <- Hc.
  cbn [rx_deliv rx_next update]. by destruct (_ <? _).
Qed.

Lemma suspend_sec_inv e : sec_inv e -> sec_inv (nr_pdcp_entity_suspend e).
Proof.
  intros Hi. unfold nr_pdcp_entity_suspend, deliver_all_sdus.
  set (e1 := e <| tx_next := 0 |>).
  assert (Hx : forall e2, config e2 = config e ->
    sec_inv (e2 <| rx_next := 0 |> <| rx_deliv := 0 |> <| entity_suspended := true |>)).
  { intros e2 Hc. assert (H2 : sec_inv e2) by (by apply (sec_inv_config e)). destruct H2. by split. }
  apply Hx. destruct (negb _); [|done]. by rewrite deliver_list_config.
Qed.

Lemma reestablish_ok e p :
  sec_inv e -> params_ok p ->
  exists e', reestablish_entity e p = Ok e' /\ sec_inv e' /\ entity_suspended e' = false.
Proof.
  intros Hi Hp.
  assert (Hx : forall e1, config e1 = config e -> exists e', (let* e := nr_pdcp_entity_set_security e1 p in
    Ok (e <| entity_suspended := false |>)) = Ok e' /\ sec_inv e' /\ entity_suspended e' = false).
  { intros e1 Hc. apply (sec_inv_config e) in Hc; [|done].
    destruct (set_security_ok e1 p Hc Hp) as (e2 & -> & H2 & _). cbn [res_bind].
    eexists. split; [done|]. split; [|done]. destruct H2. by split. }
  unfold reestablish_entity. destruct (type e).
  - by apply Hx.
  - unfold nr_pdcp_entity_reestablish_drb_um, deliver_all_sdus. apply Hx.
    destruct (negb _); [|done].
    transitivity (config (deliver_list (rx_list (e <| tx_next := 0 |>)) (e <| tx_next := 0 |>)));
      [done|]. by rewrite deliver_list_config.
  - unfold nr_pdcp_entity_reestablish_srb. by apply Hx.
Qed.

Lemma pdcp_step_sec_inv e op e' :
  sec_inv e -> op_ok op -> pdcp_step e op = Ok e' -> sec_inv e'.
Proof.
  intros Hi Ho Hs. destruct op; cbn [pdcp_step] in Hs.
  - apply recv_pdu_config in Hs. by apply (sec_inv_config e).
  - apply res_bind_ok in Hs as ([[e1 out] n] & Hp & Hs). injection Hs as <-.
    apply process_sdu_config in Hp. by apply (sec_inv_config e).
  - injection Hs as <-. apply (sec_inv_config e); [|done].
    unfold nr_pdcp_entity_set_time. by rewrite check_t_reordering_config.
  - destruct (set_security_ok e p Hi Ho) as (e1 & E & H1 & _). rewrite E in Hs. by injection Hs as <-.
  - injection Hs as <-. by apply suspend_sec_inv.
  - destruct (reestablish_ok e p Hi Ho) as (e1 & E & H1 & _). rewrite E in Hs. by injection Hs as <-.
  - injection Hs as <-. apply (sec_inv_config e); [|done]. apply deliver_list_config.
Qed.

Lemma pdcp_run_sec_inv ops : forall e e',
  sec_inv e -> Forall op_ok ops -> pdcp_run e ops = Ok e' -> sec_inv e'.
Proof.
  induction ops as [|op ops IH]; intros e e' Hi Ho Hr; cbn [pdcp_run] in Hr.
  { by injection Hr as <-. }
  apply Forall_cons in Ho as [Ho Hos]. apply res_bind_ok in Hr as (e1 & Hs & Hr).
  apply (IH e1); [|done|done]. by apply (pdcp_step_sec_inv e op).
Qed.

Lemma new_sec_inv ty gnb rb pid sr st sn tr dt keys e :
  params_ok keys -> new_nr_pdcp_entity ty gnb rb pid sr st sn tr dt keys = Ok e -> sec_inv e.
Proof.
  unfold new_nr_pdcp_entity. intros Hp Hn.
  match type of Hn with nr_pdcp_entity_set_security ?e0 _ = _ =>
    assert (H0 : sec_inv e0) by (by split) end.
  destruct (set_security_ok _ _ H0 Hp) as (e1 & E & H1 & _). rewrite E in Hn. by injection Hn as <-.
Qed.

(** C13: after any operations on a new entity, whatever algorithms were set:
    the entity ciphers if and only if the algorithm stored last is not null,
    and then with that algorithm and the key stored last, likewise for
    integrity; every management operation succeeds (no context is freed twice
    or used after it was freed); and deleting the entity leaves no allocated
    context. *)
Theorem pdcp_contexts_current ty gnb rb pid sr st sn tr dt keys e0 ops e :
  params_ok keys -> Forall op_ok ops ->
  new_nr_pdcp_entity ty gnb rb pid sr st sn tr dt keys = Ok e0 -> pdcp_run e0 ops = Ok e ->
  let k := security_keys_and_algos e in
  has_ciphering e = bool_decide (is_Some (nea_of (ciphering_algorithm k))) /\
  (forall a data c d, nea_of (ciphering_algorithm k) = Some a ->
     call_cipher e data c d = cipher a (ciphering_key k) data (rb_id e) c d) /\
  has_integrity e = bool_decide (is_Some (nia_of (integrity_algorithm k))) /\
  (forall a msg c d, nia_of (integrity_algorithm k) = Some a ->
     call_integrity e msg c d = integrity a (integrity_key k) msg (rb_id e) c d) /\
  (forall op, management op = true -> op_ok op -> is_ok (pdcp_step e op) = true) /\
  (exists cc ci, nr_pdcp_entity_delete e = Ok (cc, ci) /\
     forall k, cc <> Ctx_copy k /\ ci <> Ctx_copy k).
Proof.
  intros Hk Ho Hn Hr k. pose proof (new_sec_inv _ _ _ _ _ _ _ _ _ _ _ Hk Hn) as H0.
  pose proof (pdcp_run_sec_inv ops e0 e H0 Ho Hr) as Hi. pose proof Hi as [Hc Hg]. subst k.
  split; [|split; [|split; [|split; [|split]]]].
  - destruct (free_security e) as [a|].
    + destruct Hc as (-> & _ & -> & _). done.
    + destruct Hc as (-> & -> & _). done.
  - intros a data c d Ha. unfold call_cipher. destruct (free_security e) as [a'|].
    + destruct Hc as (_ & -> & E & Hx). assert (a' = a) as -> by congruence.
      destruct a; rewrite Hx; done.
    + destruct Hc as (_ & E & _). congruence.
  - destruct (free_integrity e) as [a|].
    + destruct Hg as (-> & _ & -> & _). done.
    + destruct Hg as (-> & -> & _). done.
  - intros a msg c d Ha. unfold call_integrity. destruct (free_integrity e) as [a'|].
    + destruct Hg as (_ & -> & E & ->). by assert (a' = a) as -> by congruence.
    + destruct Hg as (_ & E & _). congruence.
  - intros op Hm Hok. destruct op; try done; cbn [pdcp_step].
    + destruct (set_security_ok e p Hi Hok) as (e1 & -> & _). done.
    + destruct (reestablish_ok e p Hi Hok) as (e1 & -> & _). done.
  - unfold nr_pdcp_entity_delete. cbn zeta.
    assert (Hf : sec_inv (free_rx_list e)) by (by apply (sec_inv_config e)).
    destruct (free_security_ctx_ok _ Hf) as (cc & -> & Hcc). cbn [res_bind].
    destruct (free_integrity_ctx_ok _ Hf) as (ci & -> & Hci). cbn [res_bind].
    exists cc, ci. split; [done|]. intros k. split; [apply Hcc|apply Hci].
Qed.

(** ** Suspension *)

Lemma suspend_delivers D e cs :
  rx_inv D e cs -> guarded e ->
  let e' := nr_pdcp_entity_suspend e in
  delivered e' = D <$> cs ++ held e /\ rx_list e' = [] /\ tx_next e' = 0 /\ rx_next e' = 0 /\
  rx_deliv e' = 0 /\ t_reordering_start e' = 0 /\ entity_suspended e' = true.
Proof.
  intros Hi [_ Hg]. pose proof Hi as [W [Rt Rs Rd] P]. unfold nr_pdcp_entity_suspend, deliver_all_sdus.
  change (t_reordering_start (e <| tx_next := 0 |>)) with (t_reordering_start e).
  destruct (Z.eqb_spec (t_reordering_start e) 0) as [E|E]; cbn [negb].
  - assert (Hl : rx_list e = []).
    { destruct (rx_list e) as [|s l] eqn:El; [done|].
      assert (Hin : s ∈ rx_list e) by (rewrite El; left).
      pose proof (wf_below _ W s Hin). pose proof (counts_from_elem _ _ _ (wf_sorted _ W) Hin).
      exfalso. apply Hg; [lia|done]. }
    unfold held. rewrite Hl, app_nil_r. done.
  - set (e1 := e <| tx_next := 0 |> <| t_reordering_start := 0 |>).
    assert (Hr1 : rx_rel D e1 cs) by by split.
    destruct (deliver_list_ok D (rx_list e1) e1 cs eq_refl Hr1) as (Hf & [Rt' _ _] & Hl).
    destruct (delivery_fields _ _ Hf) as (F1 & F2 & F3 & F4 & F5).
    split; [exact Rt'|]. split; [exact Hl|]. split; [|split; [done|]; split; [done|]; split; [exact F3|done]].
    destruct Hf as (t & l & sz & st & Hf). cbn zeta.
    change (tx_next (deliver_list (rx_list e1) e1) = 0). by rewrite Hf.
Qed.

(** C22: suspending the receiver of a link in any reachable state delivers, in
    order of COUNT and once, every SDU whose PDU arrived in time, also those
    behind a gap; the entity is then empty, its variables are 0, and it
    ignores PDUs and SDUs. *)
Theorem pdcp_suspend_flushes `{!PdcpCryptoLaws}
    ty gnb rb pid sdA sdB sn tr dt keys now tx rx ins :
  sn = 12 \/ sn = 18 -> 1 <= rb <= 31 -> algorithms_ok keys -> 0 < now ->
  new_nr_pdcp_entity ty gnb rb pid sdA sdB sn tr dt keys = Ok tx ->
  new_nr_pdcp_entity ty (negb gnb) rb pid sdB sdA sn tr dt keys = Ok rx ->
  allowed_run (mk_link tx [] [] (nr_pdcp_entity_set_time rx now) []) ins ->
  exists l cs, let e := nr_pdcp_entity_suspend (l_rx l) in
    link_run (mk_link tx [] [] (nr_pdcp_entity_set_time rx now) []) ins = Ok l /\
    delivered e = payload (l_sdus l) <$> cs /\ StronglySorted Z.lt cs /\
    (forall c, c ∈ cs <-> c ∈ l_got l) /\
    rx_list e = [] /\ tx_next e = 0 /\ rx_next e = 0 /\ rx_deliv e = 0 /\
    t_reordering_start e = 0 /\
    (forall buffer size, nr_pdcp_entity_recv_pdu e buffer size = Ok e).
Proof.
  intros Hsn Hrb Hk Hnow Htx Hrx Ha.
  destruct (new_link_run ty gnb rb pid sdA sdB sn tr dt keys now tx rx ins)
    as (l & cs & Hl & [_ _ _ _ _ Hi _ G I9 _]); try done.
  exists l, (cs ++ held (l_rx l)). cbn zeta.
  destruct (suspend_delivers _ _ _ Hi G) as (H1 & H2 & H3 & H4 & H5 & H6 & H7).
  split; [done|]. split; [done|]. split; [apply Hi|]. split; [done|].
  do 5 (split; [done|]). intros buffer size. unfold nr_pdcp_entity_recv_pdu. by rewrite H7.
Qed.

End Contexts.

Lemma pdcp_suspend_flushes_witness :
  exists l cs, let e := nr_pdcp_entity_suspend (l_rx l) in
    link_run (mk_link (side true) [] [] (nr_pdcp_entity_set_time (side false) 10) []) Toy.inputs
      = Ok l /\
    delivered e = payload (l_sdus l) <$> cs /\ StronglySorted Z.lt cs /\ rx_list e = [].
Proof.
  destruct (pdcp_suspend_flushes NR_PDCP_DRB_AM true 1 1 true true 12 100 0 Toy.keys 10
    (side true) (side false) Toy.inputs) as (l & cs & Hr & Hd & Hs & _ & Hl & _).
  - by left.
  - lia.
  - split; [cbn; lia|]. split; [cbn; lia|]. split; (split; [done|]); cbn;
      repeat constructor; lia.
  - lia.
  - vm_compute. reflexivity.
  - vm_compute. reflexivity.
  - apply (bool_decide_unpack _). vm_compute. exact I.
  - exact (ex_intro _ l (ex_intro _ cs (conj Hr (conj Hd (conj Hs Hl))))).
Defined.

Lemma pdcp_contexts_current_witness :
  exists e, pdcp_run (side true)
    [Op_set_security (mk_keys (-1) 1 [] (replicate 16 9)); Op_suspend;
     Op_reestablish (mk_keys 1 0 (replicate 16 8) [])] = Ok e /\
    has_ciphering e = false /\
    (forall msg c d, call_integrity e msg c d = integrity NIA1 (replicate 16 8) msg (rb_id e) c d).
Proof.
  eexists. split; [vm_compute; reflexivity|]. split; [reflexivity|].
  intros msg c d.
  apply (pdcp_contexts_current NR_PDCP_DRB_AM true 1 1 true true 12 100 0 Toy.keys (side true)
    [Op_set_security (mk_keys (-1) 1 [] (replicate 16 9)); Op_suspend;
     Op_reestablish (mk_keys 1 0 (replicate 16 8) [])]).
  - unfold params_ok, alg_ok. cbn. lia.
  - rewrite !Forall_cons. unfold op_ok, params_ok, alg_ok. cbn. repeat split; try lia. apply Forall_nil_2.
  - vm_compute. reflexivity.
  - vm_compute. reflexivity.
  - reflexivity.
Defined.
