(* ===== verification/Sdap.v ===== *)
(** * The SDAP entity (openair2/SDAP/nr_sdap/nr_sdap_entity.c, nr_sdap.c)

    QoS flow to DRB mapping, SDAP headers and the list of entities.  The
    calls of other layers (PDCP, GTP-U, the TUN socket) are recorded as
    events; what [nr_pdcp_data_req_drb] returns is an argument. *)
From S2P Require Import Prelude.

Definition SDAP_HDR_UL_DATA_PDU : Z := 1.
Definition SDAP_HDR_UL_CTRL_PDU : Z := 0.
Definition SDAP_HDR_LENGTH : Z := 1.
Definition SDAP_MAX_QFI : Z := 64.
Definition SDAP_MAP_RULE_EMPTY : Z := 0.
Definition AVLBL_DRB : Z := 5.
Definition SDAP_NO_MAPPING_RULE : Z := 0.
Definition SDAP_REFLECTIVE_MAPPING : Z := 1.
Definition SDAP_CTRL_PDU_MAP_DEF_DRB : Z := 0.
Definition SDAP_CTRL_PDU_MAP_RULE_DRB : Z := 1.
Definition SDAP_MAX_PDU : Z := 9000.
Definition MAX_DRBS_PER_UE : Z := 32.
Definition MAX_MOBILES_PER_ENB : Z := 40.
Definition SDAP_MAX_NUM_OF_ENTITIES : Z := MAX_DRBS_PER_UE * MAX_MOBILES_PER_ENB.
Definition SDAP_MAX_UE_ID : Z := 65536.
Definition NGAP_MAX_PDU_SESSION : Z := 256.

(** ** Data *)

(** the one-byte headers; the fields are the bit fields of the C structures,
    least significant first *)
Record nr_sdap_dl_hdr_t := mk_dl_hdr { dl_QFI : Z; dl_RQI : Z; dl_RDI : Z }.
Record nr_sdap_ul_hdr_t := mk_ul_hdr { ul_QFI : Z; ul_R : Z; ul_DC : Z }.

(** an assignment to a bit field keeps its low bits *)
Definition dl_hdr_of (qfi rqi rdi : Z) : nr_sdap_dl_hdr_t :=
  mk_dl_hdr (Z.land qfi 0x3f) (Z.land rqi 1) (Z.land rdi 1).
Definition ul_hdr_of (qfi r dc : Z) : nr_sdap_ul_hdr_t :=
  mk_ul_hdr (Z.land qfi 0x3f) (Z.land r 1) (Z.land dc 1).

Definition dl_hdr_byte (h : nr_sdap_dl_hdr_t) : Z :=
  Z.lor (dl_QFI h) (Z.lor (Z.shiftl (dl_RQI h) 6) (Z.shiftl (dl_RDI h) 7)).
Definition ul_hdr_byte (h : nr_sdap_ul_hdr_t) : Z :=
  Z.lor (ul_QFI h) (Z.lor (Z.shiftl (ul_R h) 6) (Z.shiftl (ul_DC h) 7)).

(** a byte of a buffer read through a pointer to the structure *)
Definition dl_hdr_of_byte (b : Z) : nr_sdap_dl_hdr_t :=
  mk_dl_hdr (Z.land b 0x3f) (Z.land (Z.shiftr b 6) 1) (Z.land (Z.shiftr b 7) 1).
Definition ul_hdr_of_byte (b : Z) : nr_sdap_ul_hdr_t :=
  mk_ul_hdr (Z.land b 0x3f) (Z.land (Z.shiftr b 6) 1) (Z.land (Z.shiftr b 7) 1).

Record qfi2drb_t := mk_qfi2drb { drb_id : Z; q_has_sdap_rx : bool; q_has_sdap_tx : bool }.
#[export] Instance eta_qfi2drb : Eta qfi2drb_t := fun r =>
  mk_qfi2drb (drb_id r) (q_has_sdap_rx r) (q_has_sdap_tx r).

Record nr_sdap_entity_t := mk_sdap {
  ue_id : Z;
  default_drb : Z;
  sd_is_gnb : bool;
  sd_pdusession_id : Z;
  pdusession_sock : Z;
  qfi : Z;
  qfi2drb_table : list qfi2drb_t
}.
#[export] Instance eta_sdap : Eta nr_sdap_entity_t := fun r =>
  mk_sdap (ue_id r) (default_drb r) (sd_is_gnb r) (sd_pdusession_id r) (pdusession_sock r)
    (qfi r) (qfi2drb_table r).

(** the calls of other layers *)
Inductive sdap_event :=
  | Pdcp_data_req (drb : Z) (data : list Z)           (** [nr_pdcp_data_req_drb] *)
  | Gtpv1u_send (ue_id pdusession_id : Z) (data : list Z)
  | Sock_write (sock : Z) (data : list Z)
  | Remove_ip_if (ue_id pdusession_id : Z)
  | Start_tun (ue_id : Z).

(** ** The mapping table *)

(** [entity->qfi2drb_table[qfi]], [qfi] a [uint8_t] *)
Definition rule (e : nr_sdap_entity_t) (qfi : Z) : res qfi2drb_t :=
  if qfi <? 0 then Err Out_of_bounds
  else of_option Out_of_bounds (qfi2drb_table e !! Z.to_nat qfi).
Definition set_rule (e : nr_sdap_entity_t) (qfi : Z) (r : qfi2drb_t) : nr_sdap_entity_t :=
  e <| qfi2drb_table := <[Z.to_nat qfi := r]> (qfi2drb_table e) |>.

Definition nr_sdap_qfi2drb_map_update (e : nr_sdap_entity_t) (qfi drb : Z)
    (has_sdap_rx has_sdap_tx : bool) : nr_sdap_entity_t :=
  if (qfi <? SDAP_MAX_QFI) && (SDAP_MAP_RULE_EMPTY <? qfi) && (0 <? drb) && (drb <=? AVLBL_DRB)
  then set_rule e qfi (mk_qfi2drb drb has_sdap_rx has_sdap_tx)
  else e.

Definition nr_sdap_qfi2drb_map_del (e : nr_sdap_entity_t) (qfi : Z) : res nr_sdap_entity_t :=
  let* r := rule e qfi in
  Ok (set_rule e qfi (r <| drb_id := SDAP_NO_MAPPING_RULE |>)).

Definition nr_sdap_qfi2drb_map (e : nr_sdap_entity_t) (qfi : Z) : res (nr_sdap_entity_t * Z) :=
  let* r := rule e qfi in
  if negb (drb_id r =? 0) then Ok (e, drb_id r)
  else if negb (default_drb e =? 0) then
    Ok (nr_sdap_qfi2drb_map_update e qfi (default_drb e) (q_has_sdap_rx r) (q_has_sdap_tx r),
        default_drb e)
  else Ok (e, SDAP_MAP_RULE_EMPTY).

(** ** Control PDUs *)

Definition nr_sdap_construct_ctrl_pdu (qfi : Z) : nr_sdap_ul_hdr_t :=
  ul_hdr_of qfi 0 SDAP_HDR_UL_CTRL_PDU.

Definition nr_sdap_map_ctrl_pdu (e : nr_sdap_entity_t) (map_type dl_qfi : Z)
  : res (nr_sdap_entity_t * Z) :=
  if map_type =? SDAP_CTRL_PDU_MAP_DEF_DRB then Ok (e, default_drb e)
  else if map_type =? SDAP_CTRL_PDU_MAP_RULE_DRB then nr_sdap_qfi2drb_map e dl_qfi
  else Ok (e, 0).

Definition nr_pdcp_submit_sdap_ctrl_pdu (sdap_ctrl_pdu_drb : Z) (ctrl_pdu : nr_sdap_ul_hdr_t)
  : sdap_event :=
  Pdcp_data_req sdap_ctrl_pdu_drb [ul_hdr_byte ctrl_pdu].

Definition nr_sdap_submit_ctrl_pdu (sdap_ctrl_pdu_drb : Z) (ctrl_pdu : nr_sdap_ul_hdr_t)
  : list sdap_event :=
  if negb (sdap_ctrl_pdu_drb =? 0)
  then [nr_pdcp_submit_sdap_ctrl_pdu sdap_ctrl_pdu_drb ctrl_pdu] else [].

(** the three calls that send an end marker *)
Definition send_end_marker (e : nr_sdap_entity_t) (map_type qfi : Z)
  : res (nr_sdap_entity_t * list sdap_event) :=
  let* '(e, drb) := nr_sdap_map_ctrl_pdu e map_type qfi in
  Ok (e, nr_sdap_submit_ctrl_pdu drb (nr_sdap_construct_ctrl_pdu qfi)).

(** ** Transmission and reception *)

(** the header a transmitting entity puts in front *)
Definition tx_header (enb_flag rqi : bool) (qfi : Z) : Z :=
  if enb_flag then dl_hdr_byte (dl_hdr_of qfi (Z.b2z rqi) 0)
  else ul_hdr_byte (ul_hdr_of qfi 0 (Z.b2z rqi)).

(** [accepts]: what [nr_pdcp_data_req_drb] returns.  Without a header the
    table is read again by the log message. *)
Definition nr_sdap_tx_entity (accepts : bool) (e : nr_sdap_entity_t) (enb_flag : bool) (rb_id : Z)
    (sdu_buffer : option (list Z)) (qfi : Z) (rqi : bool)
  : res (nr_sdap_entity_t * bool * list sdap_event) :=
  match sdu_buffer with
  | None => Err Exit
  | Some sdu =>
      let sdu_buffer_size := Z.of_nat (length sdu) in
      let* '(e, pdcp_entity) := nr_sdap_qfi2drb_map e qfi in
      let* r := rule e qfi in
      let sdap_drb_id := if negb (pdcp_entity =? 0) then pdcp_entity else rb_id in
      let pdcp_ent_has_sdap := if negb (pdcp_entity =? 0) then q_has_sdap_tx r else false in
      if negb pdcp_ent_has_sdap then Ok (e, accepts, [Pdcp_data_req sdap_drb_id sdu])
      else if (sdu_buffer_size =? 0) || (8999 <? sdu_buffer_size) then Ok (e, false, [])
      else
        let* sdap_buf := mem_write (replicate (Z.to_nat SDAP_MAX_PDU) 0) 0 [tx_header enb_flag rqi qfi] in
        let* sdap_buf := mem_write sdap_buf SDAP_HDR_LENGTH sdu in
        let* data := mem_read sdap_buf 0 (sdu_buffer_size + SDAP_HDR_LENGTH) in
        Ok (e, accepts, [Pdcp_data_req sdap_drb_id data])
  end.

(** reflective mapping of a received QoS flow to the DRB [pdcp_entity] *)
Definition reflective_mapping (e : nr_sdap_entity_t) (pdcp_entity qfi : Z)
  : res (nr_sdap_entity_t * list sdap_event) :=
  let* r := rule e qfi in
  let* '(e, ev1) :=
    (if (drb_id r =? 0) && negb (default_drb e =? 0)
     then send_end_marker e SDAP_CTRL_PDU_MAP_DEF_DRB qfi else Ok (e, [])) in
  let* r := rule e qfi in
  let* '(e, ev2) :=
    (if negb (pdcp_entity =? drb_id r)
     then send_end_marker e SDAP_CTRL_PDU_MAP_RULE_DRB qfi else Ok (e, [])) in
  let* r := rule e qfi in
  Ok (set_rule e qfi (r <| drb_id := pdcp_entity |>), ev1 ++ ev2).

(** [N3GTPUInst] is a pointer, dereferenced on the gNB *)
Definition nr_sdap_rx_entity (gtp_inst : option Z) (e : nr_sdap_entity_t) (pdcp_entity : Z)
    (is_gnb has_sdap_rx : bool) (pdusession_id ue_id : Z) (buf : list Z) (size : Z)
  : res (nr_sdap_entity_t * list sdap_event) :=
  let offset := if has_sdap_rx then SDAP_HDR_LENGTH else 0 in
  if is_gnb then
    let* data := mem_read buf offset (size - offset) in
    let* _ := of_option Null_deref gtp_inst in
    Ok (e, [Gtpv1u_send ue_id pdusession_id data])
  else
    let* '(e, ev) :=
      (if has_sdap_rx then
         let* b := of_option Out_of_bounds (buf !! 0%nat) in
         let sdap_hdr := dl_hdr_of_byte b in
         if dl_RDI sdap_hdr =? SDAP_REFLECTIVE_MAPPING
         then reflective_mapping e pdcp_entity (dl_QFI sdap_hdr)
         else Ok (e, [])
       else Ok (e, [])) in
    let* data := mem_read buf offset (size - offset) in
    Ok (e, ev ++ [Sock_write (pdusession_sock e) data]).

(** ** Configuration *)

(** one round of the loop over the QoS flows to add *)
Definition add_qfi (e : nr_sdap_entity_t) (qfi drb_identity : Z) (has_sdap_rx has_sdap_tx : bool)
  : res (nr_sdap_entity_t * list sdap_event) :=
  let* r := rule e qfi in
  let* '(e, ev1) :=
    (if negb (default_drb e =? 0) && (drb_id r =? SDAP_NO_MAPPING_RULE)
     then send_end_marker e SDAP_CTRL_PDU_MAP_DEF_DRB qfi else Ok (e, [])) in
  let* r := rule e qfi in
  let* '(e, ev2) :=
    (if negb (drb_id r =? drb_identity) && q_has_sdap_tx r
     then send_end_marker e SDAP_CTRL_PDU_MAP_RULE_DRB qfi else Ok (e, [])) in
  Ok (nr_sdap_qfi2drb_map_update e qfi drb_identity has_sdap_rx has_sdap_tx, ev1 ++ ev2).

(** [mapped_qfi_2_add[i]], a block of [NR_QFI_t]; the result is a [uint8_t] *)
Definition qfi_at (block : list Z) (i : nat) : res Z :=
  let* q := of_option Out_of_bounds (block !! i) in Ok (u8 q).

Fixpoint nr_sdap_ue_qfi2drb_config (e : nr_sdap_entity_t) (mapped_qfi_2_add : list Z)
    (i mappedQFIs2AddCount : nat) (drb_identity : Z) (has_sdap_rx has_sdap_tx : bool)
  : res (nr_sdap_entity_t * list sdap_event) :=
  match mappedQFIs2AddCount with
  | O => Ok (e, [])
  | S count =>
      let* qfi := qfi_at mapped_qfi_2_add i in
      let* '(e, ev) := add_qfi e qfi drb_identity has_sdap_rx has_sdap_tx in
      let* '(e, ev') := nr_sdap_ue_qfi2drb_config e mapped_qfi_2_add (S i) count drb_identity
                          has_sdap_rx has_sdap_tx in
      Ok (e, ev ++ ev')
  end.

(** the loop that maps the QoS flows of a new entity to its default DRB *)
Fixpoint map_to_default (e : nr_sdap_entity_t) (mapped_qfi_2_add : list Z) (i count : nat)
    (has_sdap_rx has_sdap_tx : bool) : res nr_sdap_entity_t :=
  match count with
  | O => Ok e
  | S count =>
      let* qfi := qfi_at mapped_qfi_2_add i in
      map_to_default (nr_sdap_qfi2drb_map_update e qfi (default_drb e) has_sdap_rx has_sdap_tx)
        mapped_qfi_2_add (S i) count has_sdap_rx has_sdap_tx
  end.

(** ** The list of entities *)

Definition is_entity (ue pdu : Z) (e : nr_sdap_entity_t) : bool :=
  (ue_id e =? ue) && (sd_pdusession_id e =? pdu).

(** the position of the entity, whose pointer the C function returns *)
Fixpoint nr_sdap_get_entity (l : list nr_sdap_entity_t) (ue pdu : Z) : option nat :=
  match l with
  | [] => None
  | e :: next => if is_entity ue pdu e then Some 0%nat
                 else S <$> nr_sdap_get_entity next ue pdu
  end.

Definition new_entity (is_gnb : bool) (ue pdu drb : Z) : nr_sdap_entity_t :=
  mk_sdap ue drb is_gnb pdu (-1) 0 (replicate (Z.to_nat SDAP_MAX_QFI) (mk_qfi2drb 0 false false)).

(** [sock]: what [tun_alloc] returns *)
Definition start_sdap_tun_gnb_first_ue_default_pdu_session (l : list nr_sdap_entity_t)
    (ue default_pdu_session_id sock : Z) : res (list nr_sdap_entity_t * list sdap_event) :=
  match nr_sdap_get_entity l ue default_pdu_session_id with
  | None => Err Exit
  | Some i =>
      let* e := of_option Bad_ptr (l !! i) in
      if negb (sd_is_gnb e) then Err Exit else
      Ok (<[i := e <| pdusession_sock := sock |>]> l, [Start_tun ue])
  end.

(** [nos1]: the default PDU session and the TUN socket in NOS1 mode; the
    result is the list and the position of the entity returned *)
Definition new_nr_sdap_entity (nos1 : option (Z * Z)) (l : list nr_sdap_entity_t) (is_gnb : bool)
    (has_sdap_rx has_sdap_tx : bool) (ue pdu : Z) (is_defaultDRB : bool) (drb_identity : Z)
    (mapped_qfi_2_add : list Z) (mappedQFIs2AddCount : nat)
  : res (list nr_sdap_entity_t * nat * list sdap_event) :=
  match nr_sdap_get_entity l ue pdu with
  | Some i =>
      let* e := of_option Bad_ptr (l !! i) in
      let* '(e, ev) :=
        (if negb is_gnb then nr_sdap_ue_qfi2drb_config e mapped_qfi_2_add 0 mappedQFIs2AddCount
                               drb_identity has_sdap_rx has_sdap_tx
         else Ok (e, [])) in
      Ok (<[i := e]> l, i, ev)
  | None =>
      let* e :=
        (if is_defaultDRB
         then map_to_default (new_entity is_gnb ue pdu drb_identity) mapped_qfi_2_add 0
                mappedQFIs2AddCount has_sdap_rx has_sdap_tx
         else Ok (new_entity is_gnb ue pdu 0)) in
      match nos1 with
      | Some (dflt, sock) =>
          if is_gnb then
            let* '(l, ev) := start_sdap_tun_gnb_first_ue_default_pdu_session (e :: l) ue dflt sock in
            Ok (l, 0%nat, ev)
          else Ok (e :: l, 0%nat, [])
      | None => Ok (e :: l, 0%nat, [])
      end
  end.

Definition release_rule (drb : Z) (r : qfi2drb_t) : qfi2drb_t :=
  if drb_id r =? drb then r <| drb_id := SDAP_NO_MAPPING_RULE |> else r.

Definition nr_sdap_release_drb (l : list nr_sdap_entity_t) (ue drb pdu : Z)
  : res (list nr_sdap_entity_t) :=
  match nr_sdap_get_entity l ue pdu with
  | None => Ok l
  | Some i =>
      let* e := of_option Bad_ptr (l !! i) in
      Ok (<[i := e <| qfi2drb_table := release_rule drb <$> qfi2drb_table e |>]> l)
  end.

Definition free_entity (e : nr_sdap_entity_t) : list sdap_event :=
  if negb (pdusession_sock e =? -1) then [Remove_ip_if (ue_id e) (sd_pdusession_id e)] else [].

(** the search of [nr_sdap_delete_entity] behind the head: [bound] rounds at most *)
Fixpoint delete_behind (bound : nat) (l : list nr_sdap_entity_t) (ue pdu : Z) {struct l}
  : option (list nr_sdap_entity_t * list sdap_event) :=
  match l with
  | [] => None
  | e :: next =>
      if is_entity ue pdu e then Some (next, free_entity e)
      else match bound, next with
           | S bound, _ :: _ =>
               match delete_behind bound next ue pdu with
               | Some (l', ev) => Some (e :: l', ev)
               | None => None
               end
           | _, _ => None
           end
  end.

Definition nr_sdap_delete_entity (l : list nr_sdap_entity_t) (ue pdu : Z)
  : res (list nr_sdap_entity_t * bool * list sdap_event) :=
  match l with
  | [] => if 0 <? pdu * (pdu - NGAP_MAX_PDU_SESSION) then Ok ([], false, []) else Err Null_deref
  | e :: next =>
      if is_entity ue pdu e then Ok (next, true, free_entity e)
      else match delete_behind (Z.to_nat SDAP_MAX_NUM_OF_ENTITIES) l ue pdu with
           | Some (l', ev) => Ok (l', true, ev)
           | None => Ok (l, false, [])
           end
  end.

(** the two loops of [nr_sdap_delete_ue_entities]; [upperBound] stays 0 *)
Fixpoint delete_ue_heads (l : list nr_sdap_entity_t) (ue : Z)
  : list nr_sdap_entity_t * bool * list sdap_event :=
  match l with
  | [] => ([], false, [])
  | e :: next =>
      if ue_id e =? ue
      then let '(l', _, ev) := delete_ue_heads next ue in (l', true, free_entity e ++ ev)
      else (l, false, [])
  end.
Fixpoint delete_ue_behind (l : list nr_sdap_entity_t) (ue : Z)
  : list nr_sdap_entity_t * bool * list sdap_event :=
  match l with
  | [] => ([], false, [])
  | e :: next =>
      let '(l', ret, ev) := delete_ue_behind next ue in
      if negb (ue_id e =? ue) then (e :: l', ret, ev) else (l', true, free_entity e ++ ev)
  end.

Definition nr_sdap_delete_ue_entities (l : list nr_sdap_entity_t) (ue : Z)
  : list nr_sdap_entity_t * bool * list sdap_event :=
  if bool_decide (l = []) && (0 <? u64 (ue * u64 (ue - SDAP_MAX_UE_ID))) then (l, false, []) else
  let '(l, ret, ev) := delete_ue_heads l ue in
  let '(l, ret', ev') := delete_ue_behind l ue in
  (l, ret || ret', ev ++ ev').

(** ** Reconfiguration *)

(** the fields of [NR_SDAP_Config_t] the code reads; an ASN.1 list is an
    array of pointers to its elements, each a block of its own *)
Record NR_SDAP_Config_t := mk_sdap_config {
  sdap_HeaderUL_present : bool;
  sdap_HeaderDL_present : bool;
  mappedQoS_FlowsToAdd : option (list (list Z));
  mappedQoS_FlowsToRelease : option (list (list Z))
}.

Definition is_sdap_rx (is_gnb : bool) (c : NR_SDAP_Config_t) : bool :=
  if is_gnb then sdap_HeaderUL_present c else sdap_HeaderDL_present c.
Definition is_sdap_tx (is_gnb : bool) (c : NR_SDAP_Config_t) : bool :=
  if is_gnb then sdap_HeaderDL_present c else sdap_HeaderUL_present c.

(** the release loop *)
Fixpoint release_qfis (e : nr_sdap_entity_t) (block : list Z) (i count : nat)
  : res nr_sdap_entity_t :=
  match count with
  | O => Ok e
  | S count =>
      let* qfi := qfi_at block i in
      let* e := nr_sdap_qfi2drb_map_del e qfi in
      release_qfis e block (S i) count
  end.

(** [(NR_QFI_t * )list.array[0]] *)
Definition array_0 (a : list (list Z)) : res (list Z) := of_option Null_deref (a !! 0%nat).

Definition nr_reconfigure_sdap_entity (l : list nr_sdap_entity_t) (c : NR_SDAP_Config_t)
    (ue pdu drb : Z) : res (list nr_sdap_entity_t * list sdap_event) :=
  match nr_sdap_get_entity l ue pdu with
  | None => Ok (l, [])
  | Some i =>
      let* e := of_option Bad_ptr (l !! i) in
      let* add := of_option Null_deref (mappedQoS_FlowsToAdd c) in
      let* block := array_0 add in
      let* '(e, ev) := nr_sdap_ue_qfi2drb_config e block 0 (length add mod 256)%nat (u8 drb)
                         (is_sdap_rx false c) (is_sdap_tx false c) in
      let* e :=
        match mappedQoS_FlowsToRelease c with
        | Some rel =>
            let* block := array_0 rel in release_qfis e block 0 (length rel mod 256)%nat
        | None => Ok e
        end in
      Ok (<[i := e]> l, ev)
  end.

Definition set_qfi (l : list nr_sdap_entity_t) (q pduid ue : Z) : res (list nr_sdap_entity_t) :=
  match nr_sdap_get_entity l ue pduid with
  | None => Err Exit
  | Some i =>
      let* e := of_option Bad_ptr (l !! i) in
      Ok (<[i := e <| qfi := q |>]> l)
  end.

(** ** The interface to the other layers (nr_sdap.c) *)

Definition sdap_data_req (accepts : bool) (l : list nr_sdap_entity_t) (enb_flag : bool)
    (ue rb_id : Z) (sdu_buffer : option (list Z)) (qfi : Z) (rqi : bool) (pdusession_id : Z)
  : res (list nr_sdap_entity_t * bool * list sdap_event) :=
  match nr_sdap_get_entity l ue pdusession_id with
  | None => Ok (l, false, [])
  | Some i =>
      let* e := of_option Bad_ptr (l !! i) in
      let* '(e, ret, ev) := nr_sdap_tx_entity accepts e enb_flag rb_id sdu_buffer qfi rqi in
      Ok (<[i := e]> l, ret, ev)
  end.

Definition sdap_data_ind (gtp_inst : option Z) (l : list nr_sdap_entity_t) (pdcp_entity : Z)
    (is_gnb has_sdap_rx : bool) (pdusession_id ue : Z) (buf : list Z) (size : Z)
  : res (list nr_sdap_entity_t * list sdap_event) :=
  match nr_sdap_get_entity l ue pdusession_id with
  | None => Ok (l, [])
  | Some i =>
      let* e := of_option Bad_ptr (l !! i) in
      let* '(e, ev) := nr_sdap_rx_entity gtp_inst e pdcp_entity is_gnb has_sdap_rx pdusession_id
                         ue buf size in
      Ok (<[i := e]> l, ev)
  end.

Definition start_sdap_tun_ue (l : list nr_sdap_entity_t) (ue pdu_session_id sock : Z)
  : res (list nr_sdap_entity_t * list sdap_event) :=
  match nr_sdap_get_entity l ue pdu_session_id with
  | None => Err Exit
  | Some i =>
      let* e := of_option Bad_ptr (l !! i) in
      if sd_is_gnb e then Err Exit else
      Ok (<[i := e <| pdusession_sock := sock |>]> l, [Start_tun ue])
  end.

(** a packet read from the TUN socket *)
Definition sdap_tun_read (accepts : bool) (e : nr_sdap_entity_t) (rx_buf : list Z)
  : res (nr_sdap_entity_t * bool * list sdap_event) :=
  let dc := if sd_is_gnb e then false else true in
  nr_sdap_tx_entity accepts e (sd_is_gnb e) 1 (Some rx_buf) (u8 (qfi e)) dc.
