(* ===== verification/SdapSpec.v ===== *)
(** * Properties of SDAP

    The list of entities implements a finite map from (UE, PDU session) to
    entities; headers written by one side are read by the other; the effect
    of reflective mapping and of reconfiguration. *)
From S2P Require Import Prelude Sdap.

(** ** The list of entities as a finite map *)

Abbreviation sdap_map := (gmap (Z * Z) nr_sdap_entity_t).

Definition sdap_key (e : nr_sdap_entity_t) : Z * Z := (ue_id e, sd_pdusession_id e).
Definition keyed (e : nr_sdap_entity_t) : (Z * Z) * nr_sdap_entity_t := (sdap_key e, e).
Definition abs (l : list nr_sdap_entity_t) : sdap_map := list_to_map (keyed <$> l).
Definition uniq (l : list nr_sdap_entity_t) : Prop := NoDup (sdap_key <$> l).

Lemma keyed_fst l : (keyed <$> l).*1 = sdap_key <$> l.
Proof. rewrite <- list_fmap_compose. done. Qed.

Lemma is_entity_spec ue pdu e : is_entity ue pdu e = true <-> sdap_key e = (ue, pdu).
Proof.
  unfold is_entity, sdap_key. rewrite andb_true_iff, !Z.eqb_eq. split; [intros [-> ->]|intros [=]]; done.
Qed.

Lemma abs_cons e l : abs (e :: l) = <[sdap_key e := e]> (abs l).
Proof. done. Qed.

(** the pointer found is the value of the map *)
Lemma get_entity_spec l ue pdu :
  (forall i, nr_sdap_get_entity l ue pdu = Some i ->
     exists e, l !! i = Some e /\ sdap_key e = (ue, pdu) /\ abs l !! (ue, pdu) = Some e) /\
  (nr_sdap_get_entity l ue pdu = None -> abs l !! (ue, pdu) = None).
Proof.
  induction l as [|x l [IH1 IH2]]; cbn [nr_sdap_get_entity]; [done|].
  rewrite abs_cons. destruct (is_entity ue pdu x) eqn:E.
  - apply is_entity_spec in E. split; [|done]. intros i [= <-]. exists x.
    rewrite E. by rewrite lookup_insert_eq.
  - assert (Hne : sdap_key x <> (ue, pdu)) by (intros Hx; apply is_entity_spec in Hx; congruence).
    rewrite lookup_insert_ne by done. split.
    + intros i Hi. apply fmap_Some in Hi as (j & Hj & ->). cbn. by apply IH1.
    + intros Hn. apply fmap_None in Hn. by apply IH2.
Qed.

(** writing through the pointer *)
Lemma abs_update l : forall i e e',
  uniq l -> l !! i = Some e -> sdap_key e' = sdap_key e ->
  abs (<[i := e']> l) = <[sdap_key e := e']> (abs l) /\ uniq (<[i := e']> l).
Proof.
  induction l as [|x l IH]; intros i e e' Hu Hi Hk; [done|].
  unfold uniq in *. rewrite fmap_cons in Hu. apply NoDup_cons in Hu as [Hx Hu].
  destruct i as [|i]; cbn in Hi.
  - change (<[0%nat:=e']> (x :: l)) with (e' :: l). injection Hi as ->. rewrite !abs_cons, Hk, insert_insert_eq. split; [done|].
    rewrite fmap_cons, Hk. by constructor.
  - assert (Hke : sdap_key e <> sdap_key x).
    { intros E. apply Hx. rewrite <- E. apply list_elem_of_fmap_2. by eapply list_elem_of_lookup_2. }
    destruct (IH i e e' Hu Hi Hk) as [IH1 IH2].
    change (<[S i:=e']> (x :: l)) with (x :: <[i:=e']> l).
    rewrite !abs_cons, IH1. split; [by rewrite insert_insert_ne|].
    rewrite fmap_cons. constructor; [|done].
    intros Hin. apply Hx. apply list_elem_of_fmap in Hin as (y & Ey & Hy). rewrite Ey.
    apply list_elem_of_lookup in Hy as [j Hj]. destruct (decide (i = j)) as [<-|Hne].
    + rewrite list_lookup_insert_eq in Hj by by eapply lookup_lt_Some. injection Hj as <-.
      rewrite Hk. apply list_elem_of_fmap_2. by eapply list_elem_of_lookup_2.
    + rewrite list_lookup_insert_ne in Hj by done. apply list_elem_of_fmap_2.
      by eapply list_elem_of_lookup_2.
Qed.

Lemma abs_lookup_None l k : k ∉ sdap_key <$> l -> abs l !! k = None.
Proof. intros Hk. apply not_elem_of_list_to_map_1. by rewrite keyed_fst. Qed.

Lemma delete_behind_spec ue pdu l : forall bound,
  uniq l -> (length l <= S bound)%nat ->
  match delete_behind bound l ue pdu with
  | Some (l', ev) => free_entity <$> abs l !! (ue, pdu) = Some ev /\ abs l' = delete (ue, pdu) (abs l) /\
      sublist l' l /\ length l = S (length l')
  | None => abs l !! (ue, pdu) = None
  end.
Proof.
  induction l as [|x l IH]; intros bound Hu Hb; [done|]. cbn [delete_behind].
  unfold uniq in *. rewrite fmap_cons in Hu. apply NoDup_cons in Hu as [Hx Hu].
  rewrite abs_cons. destruct (is_entity ue pdu x) eqn:E.
  - apply is_entity_spec in E. rewrite E in *. rewrite lookup_insert_eq, delete_insert_eq.
    split; [done|]. split; [|split; [apply sublist_cons; reflexivity|done]].
    rewrite delete_id; [done|]. by apply abs_lookup_None.
  - assert (Hne : sdap_key x <> (ue, pdu)) by (intros Hk; apply is_entity_spec in Hk; congruence).
    rewrite lookup_insert_ne by done.
    destruct bound as [|bound].
    { destruct l; [done|cbn in Hb; lia]. }
    destruct l as [|y l]; [done|]. specialize (IH bound Hu).
    destruct (delete_behind bound (y :: l) ue pdu) as [[l' ev]|].
    + destruct IH as (H1 & H2 & H3 & H4); [cbn in *; lia|]. split; [done|].
      rewrite abs_cons, H2, delete_insert_ne by done. split; [done|].
      split; [by apply sublist_skip|cbn in *; lia].
    + apply IH. cbn in *; lia.
Qed.

Definition of_ue (ue : Z) (l : list nr_sdap_entity_t) : list nr_sdap_entity_t :=
  filter (fun e => ue_id e = ue) l.
Definition not_of_ue (ue : Z) (l : list nr_sdap_entity_t) : list nr_sdap_entity_t :=
  filter (fun e => ue_id e <> ue) l.

Lemma delete_ue_behind_spec ue l :
  delete_ue_behind l ue =
    (not_of_ue ue l, bool_decide (of_ue ue l <> []), mjoin (free_entity <$> of_ue ue l)).
Proof.
  induction l as [|x l IH]; [done|]. cbn [delete_ue_behind]. rewrite IH.
  unfold not_of_ue, of_ue. rewrite !filter_cons.
  destruct (Z.eqb_spec (ue_id x) ue) as [E|E]; cbn [negb].
  - rewrite decide_False by (intros Hn; by apply Hn). by rewrite decide_True.
  - rewrite decide_True by done. by rewrite decide_False.
Qed.

Lemma delete_ue_heads_spec ue l :
  exists l1 l2, l = l1 ++ l2 /\ Forall (fun e => ue_id e = ue) l1 /\
    delete_ue_heads l ue = (l2, bool_decide (l1 <> []), mjoin (free_entity <$> l1)).
Proof.
  induction l as [|x l IH]; [by exists [], []|]. cbn [delete_ue_heads].
  destruct (Z.eqb_spec (ue_id x) ue) as [E|E].
  - destruct IH as (l1 & l2 & -> & H1 & ->). exists (x :: l1), l2.
    split; [done|]. split; [by constructor|]. by rewrite bool_decide_true.
  - by exists [], (x :: l).
Qed.

Lemma delete_ue_spec l ue :
  nr_sdap_delete_ue_entities l ue =
    (not_of_ue ue l, bool_decide (of_ue ue l <> []), mjoin (free_entity <$> of_ue ue l)).
Proof.
  unfold nr_sdap_delete_ue_entities. destruct (_ && _) eqn:E.
  { apply andb_true_iff in E as [E _]. apply bool_decide_eq_true in E. by subst. }
  destruct (delete_ue_heads_spec ue l) as (l1 & l2 & -> & H1 & ->).
  rewrite delete_ue_behind_spec. unfold not_of_ue, of_ue. rewrite !filter_app.
  assert (E1 : filter (fun e => ue_id e <> ue) l1 = []).
  { clear E. induction H1 as [|x l1 Hx _ IH]; [done|]. rewrite filter_cons, decide_False by auto. done. }
  assert (E2 : filter (fun e => ue_id e = ue) l1 = l1).
  { clear E E1. induction H1 as [|x l1 Hx _ IH]; [done|]. rewrite filter_cons, decide_True by done. by rewrite IH. }
  rewrite E1, E2, fmap_app, join_app. f_equal. f_equal.
  destruct l1 as [|x l1]; [done|]. rewrite (bool_decide_true (x :: l1 <> [])) by done. cbn [orb].
  by rewrite bool_decide_true.
Qed.

Lemma abs_filter ue l : uniq l ->
  abs (not_of_ue ue l) = filter (fun kv => kv.1.1 <> ue) (abs l) /\ uniq (not_of_ue ue l).
Proof.
  unfold not_of_ue. induction l as [|x l IH]; intros Hu.
  { split; [|done]. cbn. by rewrite map_filter_empty. }
  unfold uniq in *. rewrite fmap_cons in Hu. apply NoDup_cons in Hu as [Hx Hu].
  destruct (IH Hu) as [IH1 IH2]. rewrite filter_cons, abs_cons.
  destruct (decide (ue_id x <> ue)) as [E|E].
  - rewrite abs_cons, IH1, map_filter_insert_True by done. split; [done|].
    rewrite fmap_cons. constructor; [|done]. intros Hin. apply Hx.
    apply list_elem_of_fmap in Hin as (y & Ey & Hy). apply list_elem_of_filter in Hy as [_ Hy].
    rewrite Ey. by apply list_elem_of_fmap_2.
  - rewrite map_filter_insert_False by done. rewrite delete_id by by apply abs_lookup_None.
    done.
Qed.

Lemma abs_of_ue ue l : uniq l ->
  of_ue ue l ≡ₚ (map_to_list (filter (fun kv => kv.1.1 = ue) (abs l))).*2.
Proof.
  unfold of_ue. induction l as [|x l IH]; intros Hu.
  { cbn. by rewrite map_filter_empty, map_to_list_empty. }
  unfold uniq in *. rewrite fmap_cons in Hu. apply NoDup_cons in Hu as [Hx Hu].
  rewrite filter_cons, abs_cons. destruct (decide (ue_id x = ue)) as [E|E].
  - rewrite map_filter_insert_True by done.
    rewrite map_to_list_insert, fmap_cons by (apply map_lookup_filter_None; left; by apply abs_lookup_None).
    cbn [snd]. by rewrite <- IH.
  - rewrite map_filter_insert_False by done. rewrite delete_id by by apply abs_lookup_None.
    by apply IH.
Qed.

(** ** Operations of the other layers on the entities *)

Inductive sdap_op :=
  | Op_new (is_gnb has_sdap_rx has_sdap_tx : bool) (ue pdu : Z) (is_defaultDRB : bool) (drb : Z)
      (qfis : list Z)
  | Op_delete (ue pdu : Z)
  | Op_delete_ue (ue : Z)
  | Op_release_drb (ue drb pdu : Z)
  | Op_set_qfi (q pdu ue : Z)
  | Op_reconfigure (c : NR_SDAP_Config_t) (ue pdu drb : Z)
  | Op_data_req (accepts enb_flag : bool) (ue rb_id : Z) (sdu : option (list Z)) (q : Z) (rqi : bool)
      (pdu : Z)
  | Op_data_ind (gtp : option Z) (drb : Z) (is_gnb has_sdap_rx : bool) (pdu ue : Z)
      (buf : list Z) (size : Z).

(** the state, the value returned (true where there is none) and the calls made *)
Definition outcome (S : Type) : Type := res (S * bool * list sdap_event).

Definition sdap_step (l : list nr_sdap_entity_t) (op : sdap_op)
  : outcome (list nr_sdap_entity_t) :=
  match op with
  | Op_new g rx tx ue pdu dflt drb qfis =>
      let* '(l, _, ev) := new_nr_sdap_entity None l g rx tx ue pdu dflt drb qfis (length qfis) in
      Ok (l, true, ev)
  | Op_delete ue pdu => nr_sdap_delete_entity l ue pdu
  | Op_delete_ue ue => Ok (nr_sdap_delete_ue_entities l ue)
  | Op_release_drb ue drb pdu => let* l := nr_sdap_release_drb l ue drb pdu in Ok (l, true, [])
  | Op_set_qfi q pdu ue => let* l := set_qfi l q pdu ue in Ok (l, true, [])
  | Op_reconfigure c ue pdu drb =>
      let* '(l, ev) := nr_reconfigure_sdap_entity l c ue pdu drb in Ok (l, true, ev)
  | Op_data_req acc enb ue rb sdu q rqi pdu => sdap_data_req acc l enb ue rb sdu q rqi pdu
  | Op_data_ind gtp drb g rx pdu ue buf size =>
      let* '(l, ev) := sdap_data_ind gtp l drb g rx pdu ue buf size in Ok (l, true, ev)
  end.

(** ** The specification: a map from (UE, PDU session) to entities *)

(** an operation on the entity of a key *)
Definition at_key (M : sdap_map) (k : Z * Z) (absent : outcome unit)
    (f : nr_sdap_entity_t -> outcome nr_sdap_entity_t) : outcome sdap_map :=
  match M !! k with
  | None => let* '(_, b, ev) := absent in Ok (M, b, ev)
  | Some e => let* '(e, b, ev) := f e in Ok (<[k := e]> M, b, ev)
  end.

Definition config_entity (c : NR_SDAP_Config_t) (drb : Z) (e : nr_sdap_entity_t)
  : outcome nr_sdap_entity_t :=
  let* add := of_option Null_deref (mappedQoS_FlowsToAdd c) in
  let* block := array_0 add in
  let* '(e, ev) := nr_sdap_ue_qfi2drb_config e block 0 (length add mod 256)%nat (u8 drb)
                     (is_sdap_rx false c) (is_sdap_tx false c) in
  let* e :=
    match mappedQoS_FlowsToRelease c with
    | Some rel => let* block := array_0 rel in release_qfis e block 0 (length rel mod 256)%nat
    | None => Ok e
    end in
  Ok (e, true, ev).

Definition spec_step (M : sdap_map) (op : sdap_op) : outcome sdap_map :=
  match op with
  | Op_new g rx tx ue pdu dflt drb qfis =>
      match M !! (ue, pdu) with
      | Some e =>
          let* '(e, ev) :=
            (if negb g then nr_sdap_ue_qfi2drb_config e qfis 0 (length qfis) drb rx tx
             else Ok (e, [])) in
          Ok (<[(ue, pdu) := e]> M, true, ev)
      | None =>
          let* e := (if dflt then map_to_default (new_entity g ue pdu drb) qfis 0 (length qfis) rx tx
                     else Ok (new_entity g ue pdu 0)) in
          Ok (<[(ue, pdu) := e]> M, true, [])
      end
  | Op_delete ue pdu =>
      if bool_decide (M = ∅) && negb (0 <? pdu * (pdu - NGAP_MAX_PDU_SESSION)) then Err Null_deref
      else match M !! (ue, pdu) with
           | Some e => Ok (delete (ue, pdu) M, true, free_entity e)
           | None => Ok (M, false, [])
           end
  | Op_delete_ue ue =>
      let gone := filter (fun kv => kv.1.1 = ue) M in
      Ok (filter (fun kv => kv.1.1 <> ue) M, bool_decide (gone <> ∅),
          mjoin (free_entity <$> (map_to_list gone).*2))
  | Op_release_drb ue drb pdu =>
      at_key M (ue, pdu) (Ok (tt, true, []))
        (fun e => Ok (e <| qfi2drb_table := release_rule drb <$> qfi2drb_table e |>, true, []))
  | Op_set_qfi q pdu ue =>
      at_key M (ue, pdu) (Err Exit) (fun e => Ok (e <| qfi := q |>, true, []))
  | Op_reconfigure c ue pdu drb => at_key M (ue, pdu) (Ok (tt, true, [])) (config_entity c drb)
  | Op_data_req acc enb ue rb sdu q rqi pdu =>
      at_key M (ue, pdu) (Ok (tt, false, [])) (fun e => nr_sdap_tx_entity acc e enb rb sdu q rqi)
  | Op_data_ind gtp drb g rx pdu ue buf size =>
      at_key M (ue, pdu) (Ok (tt, true, []))
        (fun e => let* '(e, ev) := nr_sdap_rx_entity gtp e drb g rx pdu ue buf size in
                  Ok (e, true, ev))
  end.

(** same error, or same value returned, the same calls up to their order, and related states *)
Definition simulates (r : outcome (list nr_sdap_entity_t)) (s : outcome sdap_map) : Prop :=
  match r, s with
  | Ok (l, b, ev), Ok (M, b', ev') => abs l = M /\ uniq l /\ b = b' /\ ev ≡ₚ ev'
  | Err e, Err e' => e = e'
  | _, _ => False
  end.

(** ** The key of an entity never changes *)

Definition keeps_key {A} (e : nr_sdap_entity_t) (f : A -> nr_sdap_entity_t) (r : res A) : Prop :=
  match r with Ok a => sdap_key (f a) = sdap_key e | Err _ => True end.

Lemma map_update_key e q drb rx tx :
  sdap_key (nr_sdap_qfi2drb_map_update e q drb rx tx) = sdap_key e.
Proof. unfold nr_sdap_qfi2drb_map_update. by destruct (_ && _). Qed.

Lemma map_key e q : keeps_key e fst (nr_sdap_qfi2drb_map e q).
Proof.
  unfold nr_sdap_qfi2drb_map. destruct (rule e q); [|done]. cbn [res_bind].
  destruct (negb _); [done|]. destruct (negb _); [|done]. apply map_update_key.
Qed.

Lemma end_marker_key e t q : keeps_key e fst (send_end_marker e t q).
Proof.
  unfold send_end_marker, nr_sdap_map_ctrl_pdu. destruct (_ =? _); [done|].
  destruct (_ =? _); [|done]. pose proof (map_key e q) as H.
  destruct (nr_sdap_qfi2drb_map e q) as [[e' d]|]; done.
Qed.

Lemma end_marker_if_key e (b : bool) t q :
  keeps_key e fst (if b then send_end_marker e t q else Ok (e, [])).
Proof. destruct b; [apply end_marker_key|done]. Qed.

Lemma add_qfi_key e q drb rx tx : keeps_key e fst (add_qfi e q drb rx tx).
Proof.
  unfold add_qfi. destruct (rule e q) as [r|]; [|done]. cbn [res_bind].
  match goal with |- context [if ?b then send_end_marker e ?t q else _] =>
    pose proof (end_marker_if_key e b t q) as H; destruct (if b then _ else _) as [[e1 ev]|]; [|done] end.
  cbn [res_bind]. destruct (rule e1 q) as [r1|]; [|done]. cbn [res_bind].
  match goal with |- context [if ?b then send_end_marker e1 ?t q else _] =>
    pose proof (end_marker_if_key e1 b t q) as H1; destruct (if b then _ else _) as [[e2 ev2]|]; [|done] end.
  cbn in *. rewrite map_update_key. congruence.
Qed.

Lemma config_key block drb rx tx n : forall e i,
  keeps_key e fst (nr_sdap_ue_qfi2drb_config e block i n drb rx tx).
Proof.
  induction n as [|n IH]; intros e i; cbn [nr_sdap_ue_qfi2drb_config]; [done|].
  destruct (qfi_at block i) as [q|]; [|done]. cbn [res_bind].
  pose proof (add_qfi_key e q drb rx tx) as H. destruct (add_qfi _ _ _ _ _) as [[e1 ev]|]; [|done].
  cbn [res_bind]. specialize (IH e1 (S i)).
  destruct (nr_sdap_ue_qfi2drb_config _ _ _ _ _ _ _) as [[e2 ev2]|]; [|done]. cbn in *. congruence.
Qed.

Lemma release_qfis_key block n : forall e i, keeps_key e id (release_qfis e block i n).
Proof.
  induction n as [|n IH]; intros e i; cbn [release_qfis]; [done|].
  destruct (qfi_at block i) as [q|]; [|done]. cbn [res_bind]. unfold nr_sdap_qfi2drb_map_del.
  destruct (rule e q) as [r|]; [|done]. cbn [res_bind].
  specialize (IH (set_rule e q (r <| drb_id := SDAP_NO_MAPPING_RULE |>)) (S i)).
  destruct (release_qfis _ _ _ _); [|done]. exact IH.
Qed.

Lemma map_to_default_key block rx tx n : forall e i,
  keeps_key e id (map_to_default e block i n rx tx).
Proof.
  induction n as [|n IH]; intros e i; cbn [map_to_default]; [done|].
  destruct (qfi_at block i) as [q|]; [|done]. cbn [res_bind].
  specialize (IH (nr_sdap_qfi2drb_map_update e q (default_drb e) rx tx) (S i)).
  destruct (map_to_default _ _ _ _ _ _); [|done]. cbn in *. by rewrite map_update_key in IH.
Qed.

Lemma tx_key acc e enb rb sdu q rqi :
  keeps_key e (fun x => x.1.1) (nr_sdap_tx_entity acc e enb rb sdu q rqi).
Proof.
  unfold nr_sdap_tx_entity. destruct sdu as [sdu|]; [|done].
  pose proof (map_key e q) as H. destruct (nr_sdap_qfi2drb_map e q) as [[e1 d]|]; [|done].
  cbn [res_bind]. destruct (rule e1 q) as [r|]; [|done]. cbn [res_bind].
  destruct (negb _); [done|]. destruct (_ || _); [done|].
  destruct (mem_write _ _ _); [|done]. cbn [res_bind]. destruct (mem_write _ _ _); [|done].
  cbn [res_bind]. by destruct (mem_read _ _ _).
Qed.

Lemma reflective_key e drb q : keeps_key e fst (reflective_mapping e drb q).
Proof.
  unfold reflective_mapping. destruct (rule e q) as [r|]; [|done]. cbn [res_bind].
  match goal with |- context [if ?b then send_end_marker e ?t q else _] =>
    pose proof (end_marker_if_key e b t q) as H; destruct (if b then _ else _) as [[e1 ev]|]; [|done] end.
  cbn [res_bind]. destruct (rule e1 q) as [r1|]; [|done]. cbn [res_bind].
  match goal with |- context [if ?b then send_end_marker e1 ?t q else _] =>
    pose proof (end_marker_if_key e1 b t q) as H1; destruct (if b then _ else _) as [[e2 ev2]|]; [|done] end.
  cbn [res_bind]. destruct (rule e2 q); [|done].
  change (sdap_key e2 = sdap_key e). cbn in H, H1. congruence.
Qed.

Lemma rx_key gtp e drb g rx pdu ue buf size :
  keeps_key e fst (nr_sdap_rx_entity gtp e drb g rx pdu ue buf size).
Proof.
  unfold nr_sdap_rx_entity. destruct g.
  { destruct (mem_read _ _ _); [|done]. cbn [res_bind]. by destruct (of_option _ _). }
  assert (Hk : keeps_key e fst
    (if rx then let* b := of_option Out_of_bounds (buf !! 0%nat) in
       if dl_RDI (dl_hdr_of_byte b) =? SDAP_REFLECTIVE_MAPPING
       then reflective_mapping e drb (dl_QFI (dl_hdr_of_byte b)) else Ok (e, [])
     else Ok (e, []))).
  { destruct rx; [|done]. destruct (of_option _ _); [|done]. cbn [res_bind].
    destruct (_ =? _); [apply reflective_key|done]. }
  destruct (if rx then _ else _) as [[e1 ev]|]; [|done]. cbn [res_bind].
  by destruct (mem_read _ _ _).
Qed.

Lemma config_entity_key c drb e : keeps_key e (fun x => x.1.1) (config_entity c drb e).
Proof.
  unfold config_entity. destruct (of_option _ _) as [add|]; [|done]. cbn [res_bind].
  destruct (array_0 add) as [block|]; [|done]. cbn [res_bind].
  pose proof (config_key block (u8 drb) (is_sdap_rx false c) (is_sdap_tx false c) (length add mod 256) e 0) as H.
  destruct (nr_sdap_ue_qfi2drb_config _ _ _ _ _ _ _) as [[e1 ev]|]; [|done]. cbn [res_bind].
  destruct (mappedQoS_FlowsToRelease c) as [rel|]; [|done].
  destruct (array_0 rel) as [b2|]; [|done]. cbn [res_bind].
  pose proof (release_qfis_key b2 (length rel mod 256) e1 0) as H2.
  destruct (release_qfis _ _ _ _); [|done]. unfold id in *. cbn in *. congruence.
Qed.

(** ** Simulation *)

(** an operation on the entity found in the list is the operation on the
    entity of the map *)
Lemma at_entity_ok l ue pdu absent (f : nr_sdap_entity_t -> outcome nr_sdap_entity_t)
    (r : outcome (list nr_sdap_entity_t)) :
  uniq l -> (forall e, keeps_key e (fun x => x.1.1) (f e)) ->
  (nr_sdap_get_entity l ue pdu = None -> r = let* '(_, b, ev) := absent in Ok (l, b, ev)) ->
  (forall i e, nr_sdap_get_entity l ue pdu = Some i -> l !! i = Some e ->
     r = let* '(e, b, ev) := f e in Ok (<[i := e]> l, b, ev)) ->
  simulates r (at_key (abs l) (ue, pdu) absent f).
Proof.
  intros Hu Hk Hn Hs. destruct (get_entity_spec l ue pdu) as [G1 G2]. unfold at_key.
  destruct (nr_sdap_get_entity l ue pdu) as [i|].
  - destruct (G1 i eq_refl) as (e & Hi & He & ->). rewrite (Hs i e eq_refl Hi). specialize (Hk e).
    destruct (f e) as [[[e' b] ev]|]; [|done]. cbn [res_bind simulates]. cbn in Hk.
    destruct (abs_update l i e e' Hu Hi Hk) as [-> Hu']. by rewrite He.
  - rewrite G2 by done. rewrite Hn by done. by destruct absent as [[[? ?] ?]|].
Qed.

Lemma abs_empty l : abs l = ∅ <-> l = [].
Proof.
  split; [|by intros ->]. destruct l as [|x l]; [done|]. rewrite abs_cons.
  intros E. by apply insert_non_empty in E.
Qed.

Lemma delete_ok l ue pdu :
  uniq l -> (length l <= 1281)%nat ->
  simulates (nr_sdap_delete_entity l ue pdu) (spec_step (abs l) (Op_delete ue pdu)).
Proof.
  intros Hu Hl. destruct l as [|x l].
  { cbn -[Z.mul]. rewrite bool_decide_true by done. cbn [andb]. destruct (0 <? _); done. }
  cbn [spec_step]. rewrite bool_decide_false by (by intros E%abs_empty). cbn [andb].
  unfold nr_sdap_delete_entity. destruct (is_entity ue pdu x) eqn:E.
  - apply is_entity_spec in E. rewrite abs_cons, E, lookup_insert_eq, delete_insert_eq.
    unfold uniq in *. rewrite fmap_cons in Hu. apply NoDup_cons in Hu as [Hx Hu]. rewrite E in Hx.
    cbn [simulates]. rewrite delete_id by by apply abs_lookup_None. done.
  - pose proof (delete_behind_spec ue pdu (x :: l) (Z.to_nat SDAP_MAX_NUM_OF_ENTITIES) Hu) as Hd.
    specialize (Hd ltac:(change (Z.to_nat SDAP_MAX_NUM_OF_ENTITIES) with 1280%nat; lia)).
    destruct (delete_behind _ _ _ _) as [[l' ev]|].
    + destruct Hd as (H1 & H2 & H3 & _). apply fmap_Some in H1 as (e & -> & ->).
      split; [done|]. split; [|done]. eapply sublist_NoDup; [exact Hu|]. by apply fmap_sublist.
    + by rewrite Hd.
Qed.

Lemma delete_ue_ok l ue :
  uniq l -> simulates (Ok (nr_sdap_delete_ue_entities l ue)) (spec_step (abs l) (Op_delete_ue ue)).
Proof.
  intros Hu. rewrite delete_ue_spec. cbn [spec_step simulates].
  destruct (abs_filter ue l Hu) as [H1 H2]. pose proof (abs_of_ue ue l Hu) as Hp.
  split; [done|]. split; [done|]. split.
  - apply bool_decide_ext. split.
    + intros Hne E. apply Hne. rewrite E, map_to_list_empty in Hp. by apply Permutation_nil_r in Hp.
    + intros Hne E. apply Hne. rewrite E in Hp. symmetry in Hp. apply Permutation_nil_r in Hp.
      apply fmap_nil_inv in Hp. by apply map_to_list_empty_iff.
  - by rewrite Hp.
Qed.


Lemma new_ok l g rx tx ue pdu dflt drb qfis :
  uniq l ->
  simulates (sdap_step l (Op_new g rx tx ue pdu dflt drb qfis))
            (spec_step (abs l) (Op_new g rx tx ue pdu dflt drb qfis)).
Proof.
  intros Hu. cbn [sdap_step spec_step]. unfold new_nr_sdap_entity.
  destruct (get_entity_spec l ue pdu) as [G1 G2].
  destruct (nr_sdap_get_entity l ue pdu) as [i|].
  - destruct (G1 i eq_refl) as (e & Hi & He & ->). rewrite Hi. cbn [of_option res_bind].
    assert (Hk : keeps_key e fst (if negb g
      then nr_sdap_ue_qfi2drb_config e qfis 0 (length qfis) drb rx tx else Ok (e, [])))
      by (destruct g; [done|apply config_key]).
    destruct (if negb g then _ else _) as [[e' ev]|]; [|done]. cbn [res_bind simulates]. cbn in Hk.
    destruct (abs_update l i e e' Hu Hi Hk) as [-> Hu']. by rewrite He.
  - rewrite G2 by done. specialize (G2 eq_refl).
    assert (Hk : keeps_key (new_entity g ue pdu 0) id (if dflt
      then map_to_default (new_entity g ue pdu drb) qfis 0 (length qfis) rx tx
      else Ok (new_entity g ue pdu 0))).
    { destruct dflt; [|done].
      apply (map_to_default_key qfis rx tx (length qfis) (new_entity g ue pdu drb) 0). }
    destruct (if dflt then _ else _) as [e|]; [|done]. cbn in Hk. cbn [res_bind simulates].
    rewrite abs_cons. unfold id in Hk. rewrite Hk. split; [done|]. split; [|done].
    unfold uniq. rewrite fmap_cons, Hk. constructor; [|done].
    intros Hin. apply list_elem_of_fmap in Hin as (y & Ey & Hy).
    change (sdap_key (new_entity g ue pdu 0)) with (ue, pdu) in Ey.
    enough (is_Some (abs l !! (ue, pdu))) as [? ?] by congruence.
    exists y. rewrite Ey. apply elem_of_list_to_map_1; [by rewrite keyed_fst|].
    change (sdap_key y, y) with (keyed y). by apply list_elem_of_fmap_2.
Qed.

Lemma sdap_step_ok l op :
  uniq l -> (length l <= 1281)%nat -> simulates (sdap_step l op) (spec_step (abs l) op).
Proof.
  intros Hu Hl. destruct op; [by apply new_ok|by apply delete_ok|by apply delete_ue_ok|..];
    cbn [sdap_step spec_step]; apply at_entity_ok; try done.
  - intros E. unfold nr_sdap_release_drb. by rewrite E.
  - intros i e E Hi. unfold nr_sdap_release_drb. by rewrite E, Hi.
  - intros E. unfold set_qfi. by rewrite E.
  - intros i e E Hi. unfold set_qfi. by rewrite E, Hi.
  - intros e. apply config_entity_key.
  - intros E. unfold nr_reconfigure_sdap_entity. by rewrite E.
  - intros i e E Hi. unfold nr_reconfigure_sdap_entity, config_entity. rewrite E, Hi.
    change (of_option Bad_ptr (Some e)) with (Ok e). cbn [res_bind].
    destruct (of_option Null_deref (mappedQoS_FlowsToAdd c)) as [add|]; [|done].
    cbn [res_bind]. destruct (array_0 add); [|done]. cbn [res_bind].
    destruct (nr_sdap_ue_qfi2drb_config _ _ _ _ _ _ _) as [[e1 ev]|]; [|done]. cbn [res_bind].
    destruct (mappedQoS_FlowsToRelease c) as [rel|]; [|done]. destruct (array_0 rel); [|done].
    cbn [res_bind]. by destruct (release_qfis _ _ _ _).
  - intros e. apply tx_key.
  - intros E. unfold sdap_data_req. by rewrite E.
  - intros i e E Hi. unfold sdap_data_req. by rewrite E, Hi.
  - intros e. pose proof (rx_key gtp e drb is_gnb has_sdap_rx pdu ue buf size) as Hk.
    by destruct (nr_sdap_rx_entity _ _ _ _ _ _ _ _ _) as [[e1 ev]|].
  - intros E. unfold sdap_data_ind. by rewrite E.
  - intros i e E Hi. unfold sdap_data_ind. rewrite E, Hi. cbn [of_option res_bind].
    by destruct (nr_sdap_rx_entity _ _ _ _ _ _ _ _ _) as [[e1 ev]|].
Qed.

(** ** Runs *)

Fixpoint run {S} (step : S -> sdap_op -> outcome S) (s : S) (ops : list sdap_op)
  : list bool * list (list sdap_event) * res S :=
  match ops with
  | [] => ([], [], Ok s)
  | op :: ops =>
      match step s op with
      | Err e => ([], [], Err e)
      | Ok (s, b, ev) => let '(bs, evs, r) := run step s ops in (b :: bs, ev :: evs, r)
      end
  end.

Definition is_new (op : sdap_op) : bool :=
  match op with Op_new _ _ _ _ _ _ _ _ => true | _ => false end.

Lemma abs_size l : uniq l -> size (abs l) = length l.
Proof.
  induction l as [|x l IH]; intros Hu; [done|]. unfold uniq in *. rewrite fmap_cons in Hu.
  apply NoDup_cons in Hu as [Hx Hu]. rewrite abs_cons, map_size_insert, abs_lookup_None by done.
  cbn. by rewrite IH.
Qed.

Lemma at_key_size M k absent f M' b ev :
  at_key M k absent f = Ok (M', b, ev) -> size M' = size M.
Proof.
  unfold at_key. destruct (M !! k) as [e|] eqn:E; intros Hs.
  - destruct (f e) as [[[e' b'] ev']|]; [|done]. injection Hs as <- _ _.
    by rewrite map_size_insert, E.
  - destruct absent as [[[? ?] ?]|]; [|done]. by injection Hs as <- _ _.
Qed.

Lemma spec_step_size M op M' b ev :
  spec_step M op = Ok (M', b, ev) -> (size M' <= size M + if is_new op then 1 else 0)%nat.
Proof.
  destruct op; cbn [spec_step is_new]; intros Hs; try (apply at_key_size in Hs; lia).
  - destruct (M !! (ue, pdu)) as [e|] eqn:E.
    + destruct (if negb _ then _ else _) as [[e' ev']|]; [|done]. injection Hs as <- _ _.
      rewrite map_size_insert, E. cbn. lia.
    + destruct (if is_defaultDRB then _ else _) as [e'|]; [|done]. injection Hs as <- _ _.
      rewrite map_size_insert, E. lia.
  - destruct (_ && _); [done|]. destruct (M !! (ue, pdu)) eqn:E; injection Hs as <- _ _; [|lia].
    rewrite map_size_delete, E. cbn. lia.
  - injection Hs as <- _ _.
    etrans; [apply map_subseteq_size, map_filter_subseteq|lia].
Qed.

Lemma run_ok ops : forall l,
  uniq l -> (length l + length (filter is_new ops) <= 1281)%nat ->
  let '(bs, evs, r) := run sdap_step l ops in
  let '(bs', evs', r') := run spec_step (abs l) ops in
  bs = bs' /\ Forall2 (≡ₚ) evs evs' /\
  match r, r' with
  | Ok l', Ok M => abs l' = M /\ uniq l'
  | Err e, Err e' => e = e'
  | _, _ => False
  end.
Proof.
  induction ops as [|op ops IH]; intros l Hu Hl; [done|]. cbn [run].
  pose proof (sdap_step_ok l op Hu ltac:(lia)) as Hsim.
  destruct (sdap_step l op) as [[[l1 b] ev]|e], (spec_step (abs l) op) as [[[M1 b1] ev1]|e1] eqn:Es;
    try done.
  destruct Hsim as (<- & Hu1 & <- & Hev). apply spec_step_size in Es.
  rewrite !abs_size in Es by done.
  specialize (IH l1 Hu1). destruct (run sdap_step l1 ops) as [[bs evs] r].
  destruct (run spec_step (abs l1) ops) as [[bs' evs'] r'].
  destruct IH as (-> & H2 & H3).
  { rewrite filter_cons in Hl. destruct op; cbn in Hl, Es; destruct (decide _) in Hl; cbn in Hl; try done; lia. }
  split; [done|]. split; [by constructor|done].
Qed.



(** ** Headers and mapping *)

Lemma dl_hdr_roundtrip q rqi :
  0 <= q < 64 -> dl_hdr_of_byte (dl_hdr_byte (dl_hdr_of q (Z.b2z rqi) 0)) = mk_dl_hdr q (Z.b2z rqi) 0.
Proof.
  intros Hq.
  assert (Hall : forallb (fun n => let q := Z.of_nat n in
     forallb (fun rqi => let h := dl_hdr_of_byte (dl_hdr_byte (dl_hdr_of q (Z.b2z rqi) 0)) in
       (dl_QFI h =? q) && (dl_RQI h =? Z.b2z rqi) && (dl_RDI h =? 0)) [true; false]) (seq 0 64) = true)
    by (vm_compute; reflexivity).
  rewrite forallb_forall in Hall.
  specialize (Hall (Z.to_nat q) ltac:(apply in_seq; lia)). cbn zeta in Hall.
  rewrite Z2Nat.id in Hall by lia. rewrite forallb_forall in Hall.
  specialize (Hall rqi ltac:(destruct rqi; cbn; tauto)). destruct (dl_hdr_of_byte _) as [a b c].
  cbn [dl_QFI dl_RQI dl_RDI] in Hall. rewrite !andb_true_iff, !Z.eqb_eq in Hall.
  by destruct Hall as [[-> ->] ->].
Qed.

(** what a mapped DRB with headers sends *)
Lemma tx_mapped acc e enb rb sdu q rqi r :
  rule e q = Ok r -> drb_id r <> 0 -> q_has_sdap_tx r = true ->
  1 <= Z.of_nat (length sdu) <= 8999 ->
  nr_sdap_tx_entity acc e enb rb (Some sdu) q rqi =
    Ok (e, acc, [Pdcp_data_req (drb_id r) (tx_header enb rqi q :: sdu)]).
Proof.
  intros Hr Hd Ht Hl. unfold nr_sdap_tx_entity, nr_sdap_qfi2drb_map. rewrite Hr. cbn [res_bind].
  destruct (Z.eqb_spec (drb_id r) 0); [done|]. cbn [negb res_bind]. rewrite Hr. cbn [res_bind].
  destruct (Z.eqb_spec (drb_id r) 0); [done|]. rewrite Ht. cbn [negb].
  destruct (_ || _) eqn:E; [apply orb_true_iff in E; lia|].
  set (buf := replicate (Z.to_nat SDAP_MAX_PDU) 0).
  assert (Hb : length buf = Z.to_nat 9000) by apply length_replicate. clearbody buf.
  rewrite mem_write_total by (cbn; lia). cbn [res_bind]. rewrite take_0.
  rewrite mem_write_total by (unfold SDAP_HDR_LENGTH; rewrite ?length_app, ?length_drop; cbn; lia).
  cbn [res_bind app]. unfold SDAP_HDR_LENGTH.
  change (take (Z.to_nat 1) (tx_header enb rqi q :: ?x)) with [tx_header enb rqi q].
  rewrite mem_read_total by (rewrite ?length_app, ?length_drop; cbn; lia). cbn [res_bind].
  rewrite drop_0. do 4 f_equal. cbn [app].
  replace (Z.to_nat (Z.of_nat (length sdu) + 1)) with (S (length sdu)) by lia.
  cbn [take]. by rewrite take_app_length.
Qed.


(** a UE entity with 64 rules *)
Definition table_ok (e : nr_sdap_entity_t) : Prop := length (qfi2drb_table e) = 64%nat.

Lemma rule_total e q : table_ok e -> 0 <= q < 64 -> exists r, rule e q = Ok r /\
  qfi2drb_table e !! Z.to_nat q = Some r.
Proof.
  intros Ht Hq. unfold rule, table_ok in *. destruct (q <? 0) eqn:E; [lia|].
  destruct (lookup_lt_is_Some_2 (qfi2drb_table e) (Z.to_nat q)) as [r Hr]; [lia|].
  exists r. by rewrite Hr.
Qed.

Lemma rule_set e q q' r : table_ok e -> 0 <= q < 64 -> 0 <= q' < 64 ->
  rule (set_rule e q r) q' = if q =? q' then Ok r else rule e q'.
Proof.
  intros Ht Hq Hq'. unfold rule, set_rule, table_ok in *. destruct (q' <? 0) eqn:E; [lia|].
  cbn [qfi2drb_table update]. destruct (Z.eqb_spec q q') as [<-|Hne].
  - by rewrite list_lookup_insert_eq by lia.
  - by rewrite list_lookup_insert_ne by lia.
Qed.

(** the DRB a packet of the flow goes to *)
Definition drb_of (e : nr_sdap_entity_t) (q : Z) : option Z :=
  match nr_sdap_qfi2drb_map e q with Ok (_, d) => Some d | Err _ => None end.

Lemma drb_of_rule e q r : rule e q = Ok r ->
  drb_of e q = Some (if drb_id r =? 0 then default_drb e else drb_id r).
Proof.
  intros Hr. unfold drb_of, nr_sdap_qfi2drb_map. rewrite Hr. cbn [res_bind].
  destruct (Z.eqb_spec (drb_id r) 0); cbn [negb]; [|done].
  by destruct (Z.eqb_spec (default_drb e) 0) as [->|].
Qed.

(** C23: a flow goes to the DRB configured last, to the default DRB (or none)
    after the rule is deleted or its DRB released, and an operation on one
    flow or DRB leaves the flows of the others where they were. *)
Theorem sdap_flow_mapping e q q' drb rx tx :
  table_ok e -> 0 < q < 64 -> 0 <= q' < 64 -> 0 < drb <= AVLBL_DRB ->
  let upd := nr_sdap_qfi2drb_map_update e q drb rx tx in
  let rel := e <| qfi2drb_table := release_rule drb <$> qfi2drb_table e |> in
  drb_of upd q = Some drb /\
  (q' <> q -> drb_of upd q' = drb_of e q') /\
  (exists del, nr_sdap_qfi2drb_map_del e q = Ok del /\ drb_of del q = Some (default_drb e) /\
     (q' <> q -> drb_of del q' = drb_of e q')) /\
  drb_of rel q' = (if bool_decide (drb_of e q' = Some drb) then Some (default_drb e) else drb_of e q').
Proof.
  intros Ht Hq Hq' Hd upd rel.
  assert (Hupd : upd = set_rule e q (mk_qfi2drb drb rx tx)).
  { unfold upd, nr_sdap_qfi2drb_map_update, SDAP_MAX_QFI, SDAP_MAP_RULE_EMPTY.
    destruct (_ && _) eqn:E; [done|]. apply not_true_iff_false in E. exfalso. apply E.
    repeat (apply andb_true_iff; split); lia. }
  destruct (rule_total e q Ht ltac:(lia)) as (r & Hr & _).
  destruct (rule_total e q' Ht ltac:(lia)) as (r' & Hr' & Hl').
  split; [|split; [|split]].
  - rewrite Hupd. erewrite drb_of_rule by (rewrite rule_set, Z.eqb_refl by (done || lia); done).
    cbn [drb_id]. by destruct (Z.eqb_spec drb 0); [lia|].
  - intros Hne. rewrite Hupd.
    rewrite (drb_of_rule _ q' r') by (rewrite rule_set by (done || lia);
      by destruct (Z.eqb_spec q q'); [subst|]). by rewrite (drb_of_rule e q' r').
  - unfold nr_sdap_qfi2drb_map_del. rewrite Hr. cbn [res_bind]. eexists. split; [done|]. split.
    + erewrite drb_of_rule by (rewrite rule_set, Z.eqb_refl by (done || lia); done). done.
    + intros Hne. rewrite (drb_of_rule _ q' r') by (rewrite rule_set by (done || lia);
        by destruct (Z.eqb_spec q q'); [subst|]). by rewrite (drb_of_rule e q' r').
  - assert (Hrel : rule rel q' = Ok (release_rule drb r')).
    { unfold rule, rel. cbn [qfi2drb_table update]. destruct (q' <? 0) eqn:E; [lia|].
      by rewrite list_lookup_fmap, Hl'. }
    rewrite (drb_of_rule _ _ _ Hrel), (drb_of_rule _ _ _ Hr'). unfold release_rule.
    change (default_drb rel) with (default_drb e).
    destruct (Z.eqb_spec (drb_id r') drb) as [->|Hne]; cbn [drb_id update].
    + destruct (Z.eqb_spec drb 0); [lia|]. by rewrite bool_decide_true.
    + destruct (Z.eqb_spec (drb_id r') 0) as [E0|E0].
      * by case_bool_decide.
      * rewrite bool_decide_false; [done|]. intros [= ?]. done.
Qed.

(** ** Where the code departs from TS 37.324 *)

(** A UE that receives, with the reflective mapping bit, a packet of a flow
    without a rule sends two end markers on the default DRB (5.3.2 asks for
    one: there is no stored rule that could differ). *)
Theorem sdap_reflective_two_markers e q drb r :
  table_ok e -> 0 < q < 64 -> 0 < default_drb e <= AVLBL_DRB -> drb <> 0 ->
  rule e q = Ok r -> drb_id r = 0 ->
  exists e', reflective_mapping e drb q =
    Ok (e', [Pdcp_data_req (default_drb e) [q]; Pdcp_data_req (default_drb e) [q]]) /\
    drb_of e' q = Some drb.
Proof.
  intros Ht Hq Hdd Hd Hr H0. unfold reflective_mapping. rewrite Hr. cbn [res_bind].
  rewrite H0. destruct (Z.eqb_spec (default_drb e) 0); [lia|]. cbn [Z.eqb negb andb].
  assert (Hb : [ul_hdr_byte (nr_sdap_construct_ctrl_pdu q)] = [q]).
  { f_equal. unfold nr_sdap_construct_ctrl_pdu, ul_hdr_of, ul_hdr_byte.
    cbn [ul_QFI ul_R ul_DC SDAP_HDR_UL_CTRL_PDU]. change (Z.land 0 1) with 0.
    rewrite !Z.shiftl_0_l, !Z.lor_0_r. change 0x3f with (Z.ones 6). rewrite Z.land_ones by lia.
    apply Z.mod_small. lia. }
  unfold send_end_marker, nr_sdap_map_ctrl_pdu, nr_sdap_submit_ctrl_pdu, nr_pdcp_submit_sdap_ctrl_pdu.
  cbn [Z.eqb SDAP_CTRL_PDU_MAP_DEF_DRB SDAP_CTRL_PDU_MAP_RULE_DRB Pos.eqb res_bind].
  rewrite Hb, Hr. cbn [res_bind]. rewrite H0.
  destruct (Z.eqb_spec (default_drb e) 0); [lia|]. destruct (Z.eqb_spec drb 0); [lia|]. cbn [negb].
  unfold nr_sdap_qfi2drb_map. rewrite Hr. cbn [res_bind]. rewrite H0.
  destruct (Z.eqb_spec (default_drb e) 0); [lia|]. cbn [Z.eqb negb res_bind].
  set (e1 := nr_sdap_qfi2drb_map_update _ _ _ _ _).
  assert (H1 : e1 = set_rule e q (mk_qfi2drb (default_drb e) (q_has_sdap_rx r) (q_has_sdap_tx r))).
  { unfold e1, nr_sdap_qfi2drb_map_update, SDAP_MAX_QFI, SDAP_MAP_RULE_EMPTY.
    destruct (_ && _) eqn:E; [done|]. apply not_true_iff_false in E. exfalso. apply E.
    repeat (apply andb_true_iff; split); lia. }
  assert (Ht1 : table_ok e1) by (rewrite H1; unfold table_ok, set_rule; cbn; by rewrite length_insert).
  destruct (Z.eqb_spec (default_drb e) 0); [lia|]. cbn [negb].
  destruct (rule_total e1 q Ht1 ltac:(lia)) as (r1 & -> & _). cbn [res_bind app].
  eexists. split; [done|].
  erewrite drb_of_rule by (rewrite rule_set, Z.eqb_refl by (done || lia); done).
  cbn [drb_id update]. by destruct (Z.eqb_spec drb 0); [lia|].
Qed.

(** A reconfiguration that adds more than one QoS flow reads behind the
    first one: the C code takes the first element of the ASN.1 array of
    pointers for an array of flows. *)
Theorem sdap_reconfigure_two_flows l ue pdu drb i e c q1 q2 rest r :
  nr_sdap_get_entity l ue pdu = Some i -> l !! i = Some e -> rule e (u8 q1) = Ok r ->
  default_drb e = 0 -> q_has_sdap_tx r = false ->
  mappedQoS_FlowsToAdd c = Some ([q1] :: [q2] :: rest) -> (length rest < 250)%nat ->
  nr_reconfigure_sdap_entity l c ue pdu drb = Err Out_of_bounds.
Proof.
  intros Hi He Hr Hd Ht Hc Hl. unfold nr_reconfigure_sdap_entity. rewrite Hi, He, Hc.
  cbn [of_option res_bind array_0 lookup list_lookup length].
  replace ((S (S (length rest))) mod 256)%nat with (S (S (length rest)))
    by (symmetry; apply Nat.mod_small; lia).
  cbn [nr_sdap_ue_qfi2drb_config qfi_at lookup list_lookup of_option res_bind].
  unfold add_qfi. rewrite Hr. cbn [res_bind]. rewrite Hd. cbn [Z.eqb negb andb res_bind].
  rewrite Hr. cbn [res_bind]. rewrite Ht, andb_false_r. cbn [res_bind].
  done.
Qed.

(** ** Witnesses: the default DRB 1 and the flow 5 with headers *)
Definition entity_1 : nr_sdap_entity_t :=
  nr_sdap_qfi2drb_map_update (new_entity false 7 10 1) 5 2 true true.


Lemma sdap_flow_mapping_witness :
  drb_of (nr_sdap_qfi2drb_map_update entity_1 5 3 true true) 5 = Some 3.
Proof.
  apply (sdap_flow_mapping entity_1 5 6 3 true true); [reflexivity|lia|lia|unfold AVLBL_DRB; lia].
Defined.

Lemma sdap_reflective_two_markers_witness :
  exists e', reflective_mapping entity_1 3 9 = Ok (e', [Pdcp_data_req 1 [9]; Pdcp_data_req 1 [9]]).
Proof.
  destruct (sdap_reflective_two_markers entity_1 9 3 (mk_qfi2drb 0 false false)) as (e' & H & _);
    [reflexivity|lia|unfold AVLBL_DRB; cbn; lia|lia|reflexivity|reflexivity|].
  exists e'. exact H.
Defined.

Lemma sdap_reconfigure_two_flows_witness :
  nr_reconfigure_sdap_entity [new_entity false 7 10 0]
    (mk_sdap_config true true (Some [[3]; [4]]) None) 7 10 1 = Err Out_of_bounds.
Proof.
  apply (sdap_reconfigure_two_flows _ _ _ _ 0%nat (new_entity false 7 10 0) _ 3 4 []
           (mk_qfi2drb 0 false false)); try reflexivity. cbn; lia.
Defined.
