(* ===== verification/MacList.v ===== *)
(** * Lists of indices in an array (NR_list_t)

    gNB_scheduler_primitives.c of NR_MAC_gNB: a list of numbers below [len]
    whose links are an array of next indices, with head and tail.  The C code
    walks the list with pointers to the link it is at; such a pointer is a
    [cell]: the head of the list or an element of the array. *)
From S2P Require Import Prelude.

Record NR_list_t := mk_list { head : Z; next : list Z; tail : Z; len : Z }.
#[export] Instance eta_NR_list_t : Eta NR_list_t :=
  fun l => mk_list (head l) (next l) (tail l) (len l).

(** ** Pointers into the list *)

Inductive cell := Cell_head | Cell_next (i : Z).

Definition next_get (l : NR_list_t) (i : Z) : res Z :=
  if i <? 0 then Err Out_of_bounds else arr_get (next l) (Z.to_nat i).
Definition next_set (l : NR_list_t) (i v : Z) : res NR_list_t :=
  if i <? 0 then Err Out_of_bounds else
  let* n := arr_set (next l) (Z.to_nat i) v in Ok (l <| next := n |>).

Definition cell_get (l : NR_list_t) (c : cell) : res Z :=
  match c with Cell_head => Ok (head l) | Cell_next i => next_get l i end.
Definition cell_set (l : NR_list_t) (c : cell) (v : Z) : res NR_list_t :=
  match c with Cell_head => Ok (l <| head := v |>) | Cell_next i => next_set l i v end.

(** ** Operations *)

(** The size of a negative number of elements is too large for [malloc],
    which returns NULL; with the GNU C library [malloc(0)] does not return
    NULL, and [realloc] to 0 bytes does. *)
Definition create_nr_list (len : Z) : res NR_list_t :=
  if len <? 0 then Err Exit else Ok (mk_list (-1) (replicate (Z.to_nat len) (-1)) (-1) len).

Definition resize_nr_list (list : NR_list_t) (new_len : Z) : res NR_list_t :=
  if new_len =? len list then Ok list
  else if len list <? new_len then
    Ok (list <| next := next list ++ replicate (Z.to_nat (new_len - len list)) (-1) |>
             <| len := new_len |>)
  else if negb (head list <? new_len) then Err Exit
  else if negb (tail list <? new_len) then Err Exit
  else if negb (forallb (fun n => n <? new_len) (take (Z.to_nat (len list)) (next list)))
  then Err Exit
  else if new_len <=? 0 then Err Exit
  else Ok (list <| next := take (Z.to_nat new_len) (next list) |> <| len := new_len |>).

(** the loop of [add_nr_list]: the last link *)
Fixpoint last_link (fuel : nat) (l : NR_list_t) (cur : cell) (id : Z) : res cell :=
  match fuel with
  | O => Err No_fuel
  | S fuel =>
    let* v := cell_get l cur in
    if 0 <=? v then if v =? id then Err Exit else last_link fuel l (Cell_next v) id
    else Ok cur
  end.

Definition add_nr_list (listP : NR_list_t) (id : Z) : res NR_list_t :=
  let* cur := last_link (S (length (next listP))) listP Cell_head id in
  let* listP := cell_set listP cur id in
  let* n := next_get listP id in
  Ok (if n <? 0 then listP <| tail := id |> else listP).

(** the loop of [remove_nr_list]: the links before and at [id] *)
Fixpoint find_link (fuel : nat) (l : NR_list_t) (cur prev : cell) (id : Z) : res (cell * cell) :=
  match fuel with
  | O => Err No_fuel
  | S fuel =>
    let* v := cell_get l cur in
    if negb (v =? -1) && negb (v =? id) then find_link fuel l (Cell_next v) cur id
    else Ok (cur, prev)
  end.

Definition remove_nr_list (listP : NR_list_t) (id : Z) : res NR_list_t :=
  let* '(cur, prev) := find_link (S (length (next listP))) listP Cell_head Cell_head id in
  let* v := cell_get listP cur in
  if v =? -1 then Err Exit else
  let next := Cell_next v in
  let* w := next_get listP v in
  let* listP := cell_set listP cur w in
  let* listP := cell_set listP next (-1) in
  let* p := cell_get listP prev in
  let* q := if 0 <=? p then next_get listP p else Ok (-1) in
  Ok (listP <| tail := if (0 <=? p) && (0 <=? q) then tail listP else p |>).

Definition add_tail_nr_list (listP : NR_list_t) (id : Z) : res NR_list_t :=
  let last := if tail listP <? 0 then Cell_head else Cell_next (tail listP) in
  let* listP := cell_set listP last id in
  let* listP := next_set listP id (-1) in
  Ok (listP <| tail := id |>).

Definition add_front_nr_list (listP : NR_list_t) (id : Z) : res NR_list_t :=
  let ohead := head listP in
  let listP := listP <| head := id |> in
  let* listP := next_set listP id ohead in
  Ok (if tail listP <? 0 then listP <| tail := id |> else listP).

Definition remove_front_nr_list (listP : NR_list_t) : res NR_list_t :=
  if negb (0 <=? head listP) then Err Exit else
  let ohead := head listP in
  let* n := next_get listP ohead in
  let listP := listP <| head := n |> in
  let* listP := next_set listP ohead (-1) in
  Ok (if head listP <? 0 then listP <| tail := -1 |> else listP).

(** ** The list a value of [NR_list_t] stands for *)

(** [ids] are the links from [h] to [t] *)
Fixpoint lseg (n : list Z) (h : Z) (ids : list Z) (t : Z) : Prop :=
  match ids with
  | [] => h = t
  | x :: ids => h = x /\ exists y, n !! Z.to_nat x = Some y /\ lseg n y ids t
  end.

Record nr_list (l : NR_list_t) (ids : list Z) : Prop := {
  nl_len : Z.of_nat (length (next l)) = len l;
  nl_nodup : NoDup ids;
  nl_range : Forall (fun x => 0 <= x < len l) ids;
  nl_chain : lseg (next l) (head l) ids (-1);
  nl_tail : tail l = default (-1) (last ids);
  nl_free : forall x, 0 <= x < len l -> x ∉ ids -> next l !! Z.to_nat x = Some (-1) }.

(** walking the list *)
Fixpoint walk (fuel : nat) (n : list Z) (h : Z) : list Z :=
  match fuel with
  | O => []
  | S fuel => if h <? 0 then [] else h :: walk fuel n (default (-1) (n !! Z.to_nat h))
  end.
Definition ids_of (l : NR_list_t) : list Z := walk (length (next l)) (next l) (head l).

(** ** Segments *)

Lemma lseg_app n h a b t : lseg n h (a ++ b) t <-> exists m, lseg n h a m /\ lseg n m b t.
Proof.
  revert h. induction a as [|x a IH]; intros h; cbn.
  - split; [by exists h|]. by intros (m & -> & ?).
  - setoid_rewrite IH. split.
    + intros (-> & y & Hy & m & Ha & Hb). exists m. eauto.
    + intros (m & (-> & y & Hy & Ha) & Hb). eauto 6.
Qed.

Lemma lseg_ext n n' h ids t :
  (forall x, x ∈ ids -> n' !! Z.to_nat x = n !! Z.to_nat x) -> lseg n h ids t -> lseg n' h ids t.
Proof.
  revert h. induction ids as [|x ids IH]; intros h He; cbn; [done|].
  intros (-> & y & Hy & Hc). split; [done|]. exists y. rewrite He by set_solver.
  split; [done|]. apply IH; [set_solver|done].
Qed.

(** a write outside the segment *)
Lemma lseg_insert n h ids t x v : 0 <= x -> Forall (fun x => 0 <= x) ids -> x ∉ ids ->
  lseg n h ids t -> lseg (<[Z.to_nat x := v]> n) h ids t.
Proof.
  intros Hx Hr Hni. apply lseg_ext. intros y Hy. apply list_lookup_insert_ne.
  assert (x <> y) by set_solver. rewrite Forall_forall in Hr. specialize (Hr y Hy). lia.
Qed.

Lemma walk_lseg n h ids : Forall (fun x => 0 <= x) ids -> lseg n h ids (-1) ->
  forall fuel, (length ids <= fuel)%nat -> walk fuel n h = ids.
Proof.
  intros Hr. revert h. induction Hr as [|x ids Hx Hr IH]; intros h Hc fuel Hf; cbn in *.
  - destruct fuel; [done|]. cbn. by rewrite (proj2 (Z.ltb_lt h 0)) by lia.
  - destruct Hc as (-> & y & Hy & Hc). destruct fuel; [lia|]. cbn.
    rewrite (proj2 (Z.ltb_ge x 0)) by lia. rewrite Hy. cbn. f_equal. apply IH; [done|lia].
Qed.

(** numbers below [n] without repetition are at most [n] *)
Lemma nodup_range_length (ids : list Z) (n : Z) :
  NoDup ids -> Forall (fun x => 0 <= x < n) ids -> (length ids <= Z.to_nat n)%nat.
Proof.
  intros Hn Hr. rewrite <- (length_seqZ 0 n). apply submseteq_length, NoDup_submseteq; [done|].
  intros x Hx. rewrite Forall_forall in Hr. apply elem_of_seqZ. specialize (Hr x Hx). lia.
Qed.

(** ** What the operations do *)

Lemma nl_nonneg l ids : nr_list l ids -> Forall (fun x => 0 <= x) ids.
Proof. intros []. eapply Forall_impl; [done|]. cbn. lia. Qed.

Lemma nl_head l ids : nr_list l ids -> head l = default (-1) (hd_error ids).
Proof. intros H. pose proof (nl_chain _ _ H) as Hc. destruct ids; [done|apply Hc]. Qed.

Lemma nl_head_lt l ids : nr_list l ids -> head l < 0 <-> ids = [].
Proof.
  intros H. rewrite (nl_head _ _ H). pose proof (nl_nonneg _ _ H) as Hr.
  destruct ids; cbn; [naive_solver lia|]. inversion Hr; subst. split; [lia|done].
Qed.

Lemma nl_tail_lt l ids : nr_list l ids -> tail l < 0 <-> ids = [].
Proof.
  intros H. rewrite (nl_tail _ _ H). pose proof (nl_nonneg _ _ H) as Hr.
  destruct ids as [|x ids] using rev_ind; cbn; [naive_solver lia|].
  rewrite last_snoc. cbn. apply Forall_app in Hr as [_ Hr]. inversion Hr; subst.
  split; [lia|]. intros He. by apply app_eq_nil in He as [_ ?].
Qed.

Lemma next_get_ok l ids x : nr_list l ids -> 0 <= x < len l ->
  exists y, next l !! Z.to_nat x = Some y /\ next_get l x = Ok y.
Proof.
  intros H Hx. pose proof (nl_len _ _ H). destruct (arr_get_lt (next l) (Z.to_nat x)) as (y & Hy & Hg); [lia|].
  exists y. split; [done|]. unfold next_get. rewrite (proj2 (Z.ltb_ge x 0)) by lia. done.
Qed.

Lemma next_set_eq l x v : 0 <= x < Z.of_nat (length (next l)) ->
  next_set l x v = Ok (l <| next := <[Z.to_nat x := v]> (next l) |>).
Proof.
  intros Hx. unfold next_set. rewrite (proj2 (Z.ltb_ge x 0)) by lia.
  rewrite arr_set_ok by lia. done.
Qed.

Lemma nl_walk l ids : nr_list l ids -> ids_of l = ids.
Proof.
  intros H. unfold ids_of. apply walk_lseg; [by eapply nl_nonneg|apply H|].
  pose proof (nodup_range_length _ _ (nl_nodup _ _ H) (nl_range _ _ H)). pose proof (nl_len _ _ H). lia.
Qed.

Lemma create_ok n : 0 <= n -> exists l, create_nr_list n = Ok l /\ nr_list l [] /\ len l = n.
Proof.
  intros Hn. unfold create_nr_list. rewrite (proj2 (Z.ltb_ge n 0)) by lia. eexists. split; [done|].
  split; [|done]. split; cbn; try done; [rewrite length_replicate; lia|constructor|].
  intros x Hx _. apply lookup_replicate_2. lia.
Qed.

(** ** The link after a prefix of the list *)

(** the link to what follows [ids]: the head, or the element of its last *)
Definition cell_at (ids : list Z) : cell :=
  match last ids with Some x => Cell_next x | None => Cell_head end.

Lemma last_cell l ids : nr_list l ids ->
  (if tail l <? 0 then Cell_head else Cell_next (tail l)) = cell_at ids.
Proof.
  intros H. pose proof (nl_tail_lt _ _ H). pose proof (nl_tail _ _ H) as Ht. unfold cell_at.
  destruct (last ids) eqn:E; [|apply last_None in E as ->; by rewrite Ht].
  destruct (tail l <? 0) eqn:E2; [|by rewrite Ht].
  assert (ids = []) as -> by (apply H0; lia). done.
Qed.

Lemma cell_get_at l ids js t : lseg (next l) (head l) (ids ++ js) t -> Forall (fun x => 0 <= x) ids ->
  exists v, cell_get l (cell_at ids) = Ok v /\ lseg (next l) (head l) ids v /\ lseg (next l) v js t.
Proof.
  intros (v & Ha & Hb)%lseg_app Hr. exists v. split; [|done]. unfold cell_at.
  destruct ids as [|x ids _] using rev_ind; [cbn in *; congruence|]. rewrite last_snoc. cbn.
  apply lseg_app in Ha as (m & Ha & -> & y & Hy & ->). apply Forall_app in Hr as [_ Hr].
  inversion Hr; subst. unfold next_get, arr_get. rewrite (proj2 (Z.ltb_ge x 0)) by lia. by rewrite Hy.
Qed.

Lemma cell_set_at l ids w js v : lseg (next l) (head l) ids w ->
  Forall (fun x => 0 <= x < Z.of_nat (length (next l))) ids -> NoDup ids ->
  Forall (fun x => 0 <= x) js -> (forall x, x ∈ ids -> x ∉ js) -> lseg (next l) v js (-1) ->
  exists l', cell_set l (cell_at ids) v = Ok l' /\ tail l' = tail l /\ len l' = len l /\
    length (next l') = length (next l) /\ lseg (next l') (head l') (ids ++ js) (-1) /\
    (forall x, 0 <= x -> last ids <> Some x -> next l' !! Z.to_nat x = next l !! Z.to_nat x).
Proof.
  intros Ha Hr Hnd Hj Hd Hv. unfold cell_at.
  destruct ids as [|x ids _] using rev_ind; [by eexists|]. rewrite last_snoc. cbn [cell_set].
  apply lseg_app in Ha as (m & Ha & -> & _). apply Forall_app in Hr as [Hr Hx].
  inversion Hx; subst. rewrite next_set_eq by lia. eexists. split; [done|].
  apply NoDup_app in Hnd as (_ & Hnd & _). cbn. split; [done|]. split; [done|].
  split; [apply length_insert|]. split.
  - rewrite <- app_assoc. apply lseg_app. exists x. split.
    + apply lseg_insert; [lia| |set_solver|done]. eapply Forall_impl; [done|]. cbn. lia.
    + cbn. split; [done|]. exists v. split; [apply list_lookup_insert_eq; lia|].
      apply lseg_insert; [lia|done|set_solver|done].
  - intros y Hy Hne. apply list_lookup_insert_ne. assert (x <> y) by congruence. lia.
Qed.

(** ** The operations on lists *)

Lemma nl_free_nil l ids id : nr_list l ids -> 0 <= id < len l -> id ∉ ids ->
  lseg (next l) id [id] (-1).
Proof. intros H Hid Hni. split; [done|]. exists (-1). split; [by apply (nl_free _ _ H)|done]. Qed.

(** appending through the last link, as both [add_nr_list] and
    [add_tail_nr_list] do *)
Lemma append_link_ok l ids id : nr_list l ids -> 0 <= id < len l -> id ∉ ids ->
  exists l', cell_set l (cell_at ids) id = Ok l' /\ next l' !! Z.to_nat id = Some (-1) /\
    nr_list (l' <| tail := id |>) (ids ++ [id]) /\ len l' = len l.
Proof.
  intros H Hid Hni. pose proof (nl_len _ _ H) as Hlen. pose proof (nl_range _ _ H) as Hr.
  destruct (cell_set_at l ids (-1) [id] id) as (l' & Hs & Ht & Hn & Hl & Hc & He);
    [apply H|by rewrite Hlen|apply H|constructor; [lia|constructor]|set_solver|by eapply nl_free_nil|].
  assert (Hk : forall x, 0 <= x < len l -> x ∉ ids -> next l' !! Z.to_nat x = Some (-1)).
  { intros x Hx Hx'. rewrite He; [by apply (nl_free _ _ H)|lia|].
    intros Hla. by apply Hx', last_Some_elem_of. }
  exists l'. split; [done|]. split; [by apply Hk|]. split; [|done].
  split; cbn; rewrite ?Hl, ?Hn; try done.
  - apply NoDup_app. split; [apply H|]. split; [set_solver|]. apply NoDup_singleton.
  - apply Forall_app. split; [done|]. by constructor.
  - by rewrite last_snoc.
  - intros x Hx Hx'. apply Hk; [done|set_solver].
Qed.

Lemma add_tail_ok l ids id : nr_list l ids -> 0 <= id < len l -> id ∉ ids ->
  exists l', add_tail_nr_list l id = Ok l' /\ nr_list l' (ids ++ [id]) /\ len l' = len l.
Proof.
  intros H Hid Hni. destruct (append_link_ok l ids id H Hid Hni) as (l' & Hs & Hx & Hl & Hn).
  pose proof (nl_len _ _ Hl) as Hlen. cbn in Hlen.
  unfold add_tail_nr_list. rewrite (last_cell _ _ H), Hs. cbn [res_bind].
  rewrite next_set_eq by lia. cbn. rewrite (list_insert_id _ _ _ Hx). by eexists.
Qed.

Lemma add_front_ok l ids id : nr_list l ids -> 0 <= id < len l -> id ∉ ids ->
  exists l', add_front_nr_list l id = Ok l' /\ nr_list l' (id :: ids) /\ len l' = len l.
Proof.
  intros H Hid Hni. pose proof (nl_len _ _ H) as Hlen. pose proof (nl_tail_lt _ _ H) as Ht.
  unfold add_front_nr_list. rewrite next_set_eq by (cbn; lia). cbn [res_bind].
  eexists. split; [done|]. split; [|by case_match].
  assert (Ha : forall t, t = default (-1) (last (id :: ids)) ->
    nr_list (mk_list id (<[Z.to_nat id := head l]> (next l)) t (len l)) (id :: ids)).
  { intros t ->. split; cbn; try done.
    - by rewrite length_insert.
    - constructor; [done|apply H].
    - constructor; [done|apply H].
    - split; [done|]. exists (head l). split; [apply list_lookup_insert_eq; lia|].
      apply lseg_insert; [lia|by eapply nl_nonneg|done|apply H].
    - intros x Hx Hx'. rewrite list_lookup_insert_ne; [apply (nl_free _ _ H); [done|set_solver]|].
      assert (x <> id) by set_solver. lia. }
  cbn. destruct (tail l <? 0) eqn:E; apply Ha.
  - by rewrite (proj1 Ht) by lia.
  - rewrite (nl_tail _ _ H) in *. destruct ids; [done|]. cbn. by destruct (last _).
Qed.

Lemma remove_front_ok l x ids : nr_list l (x :: ids) ->
  exists l', remove_front_nr_list l = Ok l' /\ nr_list l' ids /\ len l' = len l.
Proof.
  intros H. pose proof (nl_len _ _ H) as Hlen. pose proof (nl_range _ _ H) as Hr. inversion Hr; subst.
  pose proof (nl_chain _ _ H) as (Hh & y & Hy & Hc). pose proof (nl_nodup _ _ H) as [Hni Hnd]%NoDup_cons.
  unfold remove_front_nr_list. rewrite Hh, (proj2 (Z.leb_le 0 x)) by lia. cbn [negb].
  unfold next_get, arr_get. rewrite (proj2 (Z.ltb_ge x 0)), Hy by lia. cbn [of_option res_bind].
  rewrite next_set_eq by (cbn; lia). cbn [res_bind]. eexists. split; [done|].
  split; [|by case_match].
  assert (Ha : forall t, t = default (-1) (last ids) ->
    nr_list (mk_list y (<[Z.to_nat x := -1]> (next l)) t (len l)) ids).
  { intros t ->. split; cbn; try done.
    - by rewrite length_insert.
    - apply lseg_insert; [lia|eapply Forall_impl; [done|cbn; lia]|done|done].
    - intros z Hz Hz'. destruct (decide (z = x)) as [->|]; [apply list_lookup_insert_eq; lia|].
      rewrite list_lookup_insert_ne by lia. apply (nl_free _ _ H); [done|set_solver]. }
  cbn. destruct ids as [|z ids].
  - cbn in Hc. subst y. cbn. by apply Ha.
  - destruct Hc as [-> _]. inversion H3; subst. rewrite (proj2 (Z.ltb_ge z 0)) by lia.
    apply Ha. by rewrite (nl_tail _ _ H).
Qed.

Lemma remove_front_nil l : nr_list l [] -> remove_front_nr_list l = Err Exit.
Proof. intros H. unfold remove_front_nr_list. by rewrite (nl_head _ _ H). Qed.

Lemma last_link_ok l ids id : nr_list l ids -> forall post pre fuel, ids = pre ++ post ->
  (length post < fuel)%nat ->
  last_link fuel l (cell_at pre) id =
    if bool_decide (id ∈ post) then Err Exit else Ok (cell_at ids).
Proof.
  intros H post. induction post as [|x post IH]; intros pre fuel Hi Hf;
    (destruct fuel; [cbn in Hf; lia|]); cbn [last_link];
    pose proof (nl_nonneg _ _ H) as Hr; rewrite Hi in Hr; apply Forall_app in Hr as [Hr Hx];
    pose proof (nl_chain _ _ H) as Hc; rewrite Hi in Hc;
    destruct (cell_get_at l _ _ _ Hc Hr) as (v & -> & Ha & Hb); cbn in Hb |- *.
  - subst v. cbn. rewrite Hi, app_nil_r. done.
  - destruct Hb as (-> & y & _ & _). inversion Hx; subst. rewrite (proj2 (Z.leb_le 0 x)) by lia.
    destruct (Z.eqb_spec x id) as [->|Hne].
    + by rewrite bool_decide_true by set_solver.
    + specialize (IH (pre ++ [x]) fuel). unfold cell_at in IH at 1. rewrite last_snoc in IH.
      rewrite IH by (rewrite <- ?app_assoc; cbn in *; done || lia).
      by rewrite (bool_decide_ext (id ∈ post) (id ∈ x :: post)) by set_solver.
Qed.

Lemma ids_length l ids : nr_list l ids -> (length ids <= length (next l))%nat.
Proof.
  intros H. pose proof (nl_len _ _ H).
  pose proof (nodup_range_length _ _ (nl_nodup _ _ H) (nl_range _ _ H)). lia.
Qed.

Lemma add_ok l ids id : nr_list l ids -> 0 <= id < len l -> id ∉ ids ->
  exists l', add_nr_list l id = Ok l' /\ nr_list l' (ids ++ [id]) /\ len l' = len l.
Proof.
  intros H Hid Hni. destruct (append_link_ok l ids id H Hid Hni) as (l' & Hs & Hx & Hl & Hn).
  pose proof (ids_length _ _ H). unfold add_nr_list.
  change Cell_head with (cell_at []). rewrite (last_link_ok _ _ id H ids []) by (done || lia).
  rewrite bool_decide_false by done. cbn [res_bind]. rewrite Hs. cbn [res_bind].
  unfold next_get, arr_get. rewrite (proj2 (Z.ltb_ge id 0)), Hx by lia. cbn. by eexists.
Qed.

Lemma add_present l ids id : nr_list l ids -> id ∈ ids -> add_nr_list l id = Err Exit.
Proof.
  intros H Hin. pose proof (ids_length _ _ H). unfold add_nr_list.
  change Cell_head with (cell_at []). rewrite (last_link_ok _ _ id H ids []) by (done || lia).
  by rewrite bool_decide_true.
Qed.

(** the loop stops at the first [id], or at the end *)
Lemma find_link_ok l a b id : nr_list l (a ++ b) ->
  (b = [] \/ exists b', b = id :: b') -> forall post pre fuel, a = pre ++ post -> id ∉ post ->
  (length post < fuel)%nat ->
  find_link fuel l (cell_at pre) (cell_at (removelast pre)) id =
    Ok (cell_at a, cell_at (removelast a)).
Proof.
  intros H Hb post. induction post as [|x post IH]; intros pre fuel Hi Hni Hf;
    (destruct fuel; [cbn in Hf; lia|]); cbn [find_link];
    pose proof (nl_nonneg _ _ H) as Hr; rewrite Hi in Hr; rewrite <- app_assoc in Hr;
    apply Forall_app in Hr as [Hr Hx]; apply Forall_app in Hx as [Hx Hrb];
    pose proof (nl_chain _ _ H) as Hc; rewrite Hi, <- app_assoc in Hc;
    destruct (cell_get_at l _ _ _ Hc Hr) as (v & -> & Ha & Hv); cbn in Hv |- *.
  - rewrite Hi, app_nil_r. destruct Hb as [->|[b' ->]].
    + cbn in Hv. by subst v.
    + destruct Hv as (-> & _). by rewrite Z.eqb_refl, andb_false_r.
  - destruct Hv as (-> & y & _ & _). inversion Hx; subst.
    rewrite (proj2 (Z.eqb_neq x (-1))), (proj2 (Z.eqb_neq x id)) by (lia || set_solver). cbn.
    specialize (IH (pre ++ [x]) fuel). unfold cell_at in IH at 1. rewrite last_snoc, removelast_last in IH.
    rewrite IH by (rewrite <- ?app_assoc; cbn in *; done || lia || set_solver). done.
Qed.

(** the tail computed from the link before the removed element *)
Lemma tail_after l ids a s p : Forall (fun x => 0 <= x) ids -> ids = a ++ s -> (s = [] -> a = []) ->
  cell_get l (cell_at a) = Ok p -> lseg (next l) p s (-1) ->
  exists q, (if 0 <=? p then next_get l p else Ok (-1)) = Ok q /\
    ((0 <=? p) && (0 <=? q) = false -> p = default (-1) (last ids)) /\
    ((0 <=? p) && (0 <=? q) = true -> exists x y s', s = x :: y :: s').
Proof.
  intros Hr -> Hs Hp Hc. apply Forall_app in Hr as [_ Hr].
  destruct s as [|x s]; cbn in Hc.
  - subst p. exists (-1). cbn. rewrite Hs by done. done.
  - destruct Hc as (-> & y & Hy & Hc). inversion Hr as [|?? Hx Hr']; subst.
    rewrite (proj2 (Z.leb_le 0 x)) by lia. exists y.
    unfold next_get, arr_get. rewrite (proj2 (Z.ltb_ge x 0)), Hy by lia. split; [done|]. cbn.
    destruct s as [|z s]; cbn in Hc.
    + subst y. rewrite last_snoc. done.
    + destruct Hc as [-> _]. inversion Hr'; subst. rewrite (proj2 (Z.leb_le 0 z)) by lia. split; [done|eauto].
Qed.

Lemma remove_ok l a id b : nr_list l (a ++ id :: b) ->
  exists l', remove_nr_list l id = Ok l' /\ nr_list l' (a ++ b) /\ len l' = len l.
Proof.
  intros H. pose proof (nl_range _ _ H) as Hr. apply Forall_app in Hr as [Ha [Hid Hb]%Forall_cons].
  pose proof (nl_nodup _ _ H) as (Hna & Hd & [Hnb Hdb]%NoDup_cons)%NoDup_app.
  pose proof (ids_length _ _ H) as Hl. rewrite length_app in Hl. cbn in Hl.
  pose proof (nl_len _ _ H) as Hlen. assert (Hnia : id ∉ a) by set_solver.
  assert (Hpos : Forall (fun x => 0 <= x) (a ++ b)).
  { apply Forall_app. split; (eapply Forall_impl; [done|cbn; lia]). }
  unfold remove_nr_list. change (find_link _ l Cell_head Cell_head id) with
    (find_link (S (length (next l))) l (cell_at []) (cell_at (removelast [])) id).
  rewrite (find_link_ok l a (id :: b) id H) with (post := a) by (done || lia || eauto).
  cbn [res_bind].
  destruct (cell_get_at l a (id :: b) (-1)) as (v & Hv & Hla & Hlb);
    [apply H|by apply Forall_app in Hpos as [??]|].
  destruct Hlb as (-> & w & Hw & Hlb). rewrite Hv. cbn [res_bind].
  rewrite (proj2 (Z.eqb_neq id (-1))) by lia.
  unfold next_get at 1, arr_get. rewrite (proj2 (Z.ltb_ge id 0)), Hw by lia. cbn [of_option res_bind].
  destruct (cell_set_at l a id b w) as (l1 & -> & Ht1 & Hn1 & Hl1 & Hc1 & He1); try done;
    [by rewrite Hlen|by apply Forall_app in Hpos as [??]|set_solver|].
  cbn [res_bind cell_set]. rewrite next_set_eq by lia. cbn [res_bind].
  set (l2 := l1 <| next := _ |>).
  assert (Hc2 : lseg (next l2) (head l2) (a ++ b) (-1)) by (apply lseg_insert; [lia|done|set_solver|done]).
  assert (H2 : forall t, t = default (-1) (last (a ++ b)) -> nr_list (l2 <| tail := t |>) (a ++ b)).
  { intros t ->. split; cbn; rewrite ?length_insert, ?Hl1, ?Hn1; try done.
    - apply NoDup_app. split; [done|]. split; [set_solver|done].
    - by apply Forall_app.
    - intros x Hx Hx'. destruct (decide (x = id)) as [->|]; [apply list_lookup_insert_eq; lia|].
      rewrite list_lookup_insert_ne by lia. rewrite He1; [apply (nl_free _ _ H); set_solver|lia|].
      intros Hla'. apply last_Some_elem_of in Hla'. set_solver. }
  set (a0 := removelast a). assert (exists s, a ++ b = a0 ++ s /\ (s = [] -> a0 = []) /\
    (forall x y s', s = x :: y :: s' -> b <> [])) as (s & Hs & Hs0 & Hs2).
  { destruct a as [|y a' _] using rev_ind.
    { exists b. split; [done|]. split; [done|]. intros ? ? ? He. by rewrite He. }
    exists (y :: b). unfold a0.
    rewrite removelast_last, <- app_assoc. split; [done|]. split; [done|]. intros ? ? ? He. by injection He as _ ->. }
  rewrite Hs in Hc2. destruct (cell_get_at l2 a0 s (-1) Hc2) as (p & Hp & _ & Hls).
  { rewrite Hs in Hpos. by apply Forall_app in Hpos as [??]. }
  rewrite Hp. cbn [res_bind].
  destruct (tail_after l2 (a ++ b) a0 s p Hpos Hs Hs0 Hp Hls) as (q & -> & Hq1 & Hq2).
  cbn [res_bind]. eexists. split; [done|]. split; [|done]. apply H2.
  destruct ((0 <=? p) && (0 <=? q)); [|by apply Hq1].
  destruct (Hq2 eq_refl) as (x & y & s' & ->). cbn. rewrite Ht1, (nl_tail _ _ H).
  rewrite !last_app. specialize (Hs2 _ _ _ eq_refl). destruct b; [done|]. cbn. by destruct (last _).
Qed.

Lemma remove_absent l ids id : nr_list l ids -> id ∉ ids -> remove_nr_list l id = Err Exit.
Proof.
  intros H Hni. pose proof (ids_length _ _ H). unfold remove_nr_list.
  change (find_link _ l Cell_head Cell_head id) with
    (find_link (S (length (next l))) l (cell_at []) (cell_at (removelast [])) id).
  rewrite (find_link_ok l ids [] id) with (post := ids); rewrite ?app_nil_r; try (done || lia); eauto.
  cbn [res_bind]. destruct (cell_get_at l ids [] (-1)) as (v & -> & _ & Hv);
    [rewrite app_nil_r; apply H|by eapply nl_nonneg|]. cbn in Hv. by subst v.
Qed.

Lemma lseg_below n h ids t m : lseg n h ids t -> h < m -> Forall (fun y => y < m) n ->
  Forall (fun x => x < m) ids.
Proof.
  intros Hc Hh Hn. revert h Hc Hh. induction ids as [|x ids IH]; intros h Hc Hh; [constructor|].
  destruct Hc as (-> & y & Hy & Hc). constructor; [done|]. eapply IH; [done|].
  by eapply (Forall_lookup_1 (fun y => y < m)).
Qed.

Lemma lseg_next n h ids x y : lseg n h ids (-1) -> x ∈ ids -> n !! Z.to_nat x = Some y ->
  y = -1 \/ y ∈ ids.
Proof.
  revert h. induction ids as [|z ids IH]; intros h Hc Hx Hy; [set_solver|].
  destruct Hc as (-> & w & Hw & Hc). apply elem_of_cons in Hx as [->|Hx].
  - rewrite Hw in Hy. injection Hy as ->. destruct ids as [|v ids]; [by left|].
    destruct Hc as [-> _]. right. set_solver.
  - destruct (IH _ Hc Hx Hy); [by left|]. right. set_solver.
Qed.

(** what [resize_nr_list] tests on the three places of a shorter list is that
    every number of the list is below the new length *)
Lemma shorten_test l ids n : nr_list l ids -> 0 <= n ->
  (head l < n /\ tail l < n /\ Forall (fun m => m < n) (next l)) <-> Forall (fun x => x < n) ids.
Proof.
  intros H Hn. pose proof (nl_chain _ _ H) as Hc. split.
  - intros (Hh & _ & Hx). by eapply lseg_below.
  - intros Hr. assert (Hd : forall o, (forall x, o = Some x -> x ∈ ids) -> default (-1) o < n).
    { intros [x|] Ho; cbn; [|lia]. rewrite Forall_forall in Hr. apply Hr. by apply Ho. }
    split; [|split].
    + rewrite (nl_head _ _ H). apply Hd. destruct ids; [done|]. cbn. intros x [= ->]. set_solver.
    + rewrite (nl_tail _ _ H). apply Hd. intros x. apply last_Some_elem_of.
    + apply Forall_lookup. intros i y Hy. pose proof (nl_len _ _ H) as Hlen.
      pose proof (lookup_lt_Some _ _ _ Hy). rewrite <- (Nat2Z.id i) in Hy.
      destruct (decide (Z.of_nat i ∈ ids)) as [Hi|Hi].
      * destruct (lseg_next _ _ _ _ _ Hc Hi Hy) as [->|Hin]; [lia|].
        rewrite Forall_forall in Hr. by apply Hr.
      * rewrite (nl_free _ _ H) in Hy by (done || lia). injection Hy as <-. lia.
Qed.

Definition fits (n : Z) (ids : list Z) : bool := (0 <? n) && forallb (fun x => x <? n) ids.

Lemma forallb_ltb l n : forallb (fun x => x <? n) l = true <-> Forall (fun x => x < n) l.
Proof.
  rewrite forallb_forall, Forall_forall. setoid_rewrite Z.ltb_lt.
  by setoid_rewrite list_elem_of_In.
Qed.

Lemma resize_ok l ids n : nr_list l ids -> len l <= n \/ fits n ids = true ->
  exists l', resize_nr_list l n = Ok l' /\ nr_list l' ids /\ len l' = n.
Proof.
  intros H Hn. pose proof (nl_len _ _ H) as Hlen. unfold resize_nr_list.
  destruct (Z.eqb_spec n (len l)) as [->|Hne]; [by exists l|].
  destruct (Z.ltb_spec (len l) n) as [Hlt|Hge].
  - eexists. split; [done|]. split; [|done]. split; cbn; try apply H.
    + rewrite length_app, length_replicate. lia.
    + eapply Forall_impl; [apply H|]. cbn. lia.
    + eapply lseg_ext; [|apply H]. intros x Hx. apply lookup_app_l.
      pose proof (nl_range _ _ H) as Hr. rewrite Forall_forall in Hr. specialize (Hr x Hx). lia.
    + intros x Hx Hni. destruct (decide (x < len l)).
      * rewrite lookup_app_l by lia. apply (nl_free _ _ H); [lia|done].
      * rewrite lookup_app_r by lia. apply lookup_replicate_2. lia.
  - destruct Hn as [?|[Hp%Z.ltb_lt Hf%forallb_ltb]%andb_prop]; [lia|].
    destruct (proj2 (shorten_test l ids n H ltac:(lia)) Hf) as (H1 & H2 & H3).
    rewrite (proj2 (Z.ltb_lt _ _) H1), (proj2 (Z.ltb_lt _ _) H2), take_ge by lia.
    rewrite (proj2 (forallb_ltb _ _) H3), (proj2 (Z.leb_gt n 0)) by lia. cbn.
    eexists. split; [done|]. split; [|done].
    assert (Hr : Forall (fun x => 0 <= x < n) ids).
    { apply Forall_forall. intros x Hx. rewrite Forall_forall in Hf. specialize (Hf x Hx).
      pose proof (nl_nonneg _ _ H) as Hr. rewrite Forall_forall in Hr. specialize (Hr x Hx). lia. }
    split; cbn; try apply H; try done.
    + rewrite length_take. lia.
    + eapply lseg_ext; [|apply H]. intros x Hx. rewrite Forall_forall in Hr. specialize (Hr x Hx).
      apply lookup_take_lt. lia.
    + intros x Hx Hni. rewrite lookup_take_lt by lia. apply (nl_free _ _ H); [lia|done].
Qed.

Lemma resize_exit l ids n : nr_list l ids -> n < len l -> fits n ids = false ->
  resize_nr_list l n = Err Exit.
Proof.
  intros H Hn Hf. pose proof (nl_len _ _ H) as Hlen. unfold resize_nr_list.
  rewrite (proj2 (Z.eqb_neq n (len l))), (proj2 (Z.ltb_ge (len l) n)) by lia.
  destruct (head l <? n) eqn:E1; cbn; [|done]. destruct (tail l <? n) eqn:E2; cbn; [|done].
  rewrite take_ge by lia. destruct (forallb _ (next l)) eqn:E3; cbn; [|done].
  destruct (n <=? 0) eqn:E4; [done|]. exfalso. rewrite forallb_ltb in E3.
  assert (Hr : Forall (fun x => x < n) ids).
  { apply (shorten_test l ids n H); [lia|]. repeat split; [lia|lia|done]. }
  apply not_true_iff_false in Hf. apply Hf. unfold fits. rewrite (proj2 (forallb_ltb _ _) Hr). lia.
Qed.

(** ** Refinement *)

Inductive list_op :=
  | Add (id : Z) | Add_tail (id : Z) | Add_front (id : Z)
  | Remove (id : Z) | Remove_front | Resize (n : Z).

Definition nr_step (l : NR_list_t) (op : list_op) : res NR_list_t :=
  match op with
  | Add id => add_nr_list l id
  | Add_tail id => add_tail_nr_list l id
  | Add_front id => add_front_nr_list l id
  | Remove id => remove_nr_list l id
  | Remove_front => remove_front_nr_list l
  | Resize n => resize_nr_list l n
  end.

(** The promise: a list of distinct numbers below a bound.  [Undefined] is a
    call the functions do not provide for: a number out of range, or one added
    in constant time that is already there. *)
Definition seq_step (q : Z * list Z) (op : list_op) : res (Z * list Z) :=
  let '(n, ids) := q in
  let fresh id := (0 <=? id) && (id <? n) && negb (bool_decide (id ∈ ids)) in
  match op with
  | Add id =>
    if bool_decide (id ∈ ids) then Err Exit
    else if fresh id then Ok (n, ids ++ [id]) else Err Undefined
  | Add_tail id => if fresh id then Ok (n, ids ++ [id]) else Err Undefined
  | Add_front id => if fresh id then Ok (n, id :: ids) else Err Undefined
  | Remove id =>
    if bool_decide (id ∈ ids) then Ok (n, filter (fun x => x <> id) ids) else Err Exit
  | Remove_front => match ids with [] => Err Exit | _ :: ids => Ok (n, ids) end
  | Resize m => if (n <=? m) || fits m ids then Ok (m, ids) else Err Exit
  end.

Definition view (l : NR_list_t) : Z * list Z := (len l, ids_of l).

Lemma filter_out (a b : list Z) id : id ∉ a -> id ∉ b ->
  filter (fun x => x <> id) (a ++ id :: b) = a ++ b.
Proof.
  intros Ha Hb. assert (Hk : forall l : list Z, id ∉ l -> filter (fun x => x <> id) l = l).
  { intros l Hl. induction l as [|x l IH]; [done|].
    rewrite filter_cons_True, IH by set_solver. done. }
  rewrite filter_app, filter_cons_False, !Hk by naive_solver. done.
Qed.

Lemma seq_step_ok l ids op : nr_list l ids -> seq_step (len l, ids) op <> Err Undefined ->
  match seq_step (len l, ids) op with
  | Ok (n, ids') => exists l', nr_step l op = Ok l' /\ nr_list l' ids' /\ len l' = n
  | Err e => nr_step l op = Err e
  end.
Proof.
  intros H. destruct op as [id|id|id|id| |n]; cbn [seq_step nr_step]; intros Hu.
  - case_bool_decide; [by eapply add_present|]. destruct (_ && _) eqn:E; [|done].
    apply add_ok; [done|lia|done].
  - destruct (_ && _) eqn:E; [|done]. apply andb_prop in E as [E Hni%negb_true_iff].
    apply add_tail_ok; [done|lia|by eapply bool_decide_eq_false_1].
  - destruct (_ && _) eqn:E; [|done]. apply andb_prop in E as [E Hni%negb_true_iff].
    apply add_front_ok; [done|lia|by eapply bool_decide_eq_false_1].
  - case_bool_decide as Hin; [|by eapply remove_absent].
    apply list_elem_of_split in Hin as (a & b & ->).
    pose proof (nl_nodup _ _ H) as (_ & Hd & [Hnb _]%NoDup_cons)%NoDup_app.
    rewrite filter_out by set_solver. by apply remove_ok.
  - destruct ids as [|x ids]; [by apply remove_front_nil|by eapply remove_front_ok].
  - destruct (Z.leb_spec (len l) n) as [Hle|Hgt]; cbn; [apply resize_ok; [done|by left]|].
    destruct (fits n ids) eqn:E; [apply resize_ok; [done|by right]|by eapply resize_exit].
Qed.

(** C19: for every sequence of the operations of [NR_list_t] on a new list, the
    array of links with head and tail behaves as a list of distinct numbers,
    assertion failures included, as long as nothing out of range or already
    there is added in constant time. *)
Theorem nr_list_refines_list n ops : 0 <= n ->
  let spec := fold_res seq_step ops (n, []) in
  spec <> Err Undefined ->
  (let* l := create_nr_list n in let* l := fold_res nr_step ops l in Ok (view l)) = spec.
Proof.
  intros Hn. destruct (create_ok n Hn) as (l0 & -> & H0 & Hl0). cbv zeta. cbn [res_bind].
  rewrite <- Hl0. clear Hl0 Hn n. generalize dependent (@nil Z). revert l0.
  induction ops as [|op ops IH]; intros l ids H Hu; cbn [fold_res] in *.
  - cbn. unfold view. by rewrite (nl_walk _ _ H).
  - assert (Hs : seq_step (len l, ids) op <> Err Undefined).
    { intros He. by rewrite He in Hu. }
    pose proof (seq_step_ok l ids op H Hs) as Hok.
    destruct (seq_step (len l, ids) op) as [[n' ids']|e]; [|by rewrite Hok].
    destruct Hok as (l' & -> & H' & <-). cbn [res_bind] in *. by apply IH.
Qed.

Lemma nr_list_refines_list_witness :
  (let* l := create_nr_list 4 in
   let* l := fold_res nr_step
     [Add_tail 2; Add_front 0; Add 3; Remove 0; Remove 3; Add_tail 1; Remove_front; Resize 6; Add_tail 5] l in
   Ok (view l)) = Ok (6, [1; 5]).
Proof.
  apply (nr_list_refines_list 4
    [Add_tail 2; Add_front 0; Add 3; Remove 0; Remove 3; Add_tail 1; Remove_front; Resize 6; Add_tail 5]);
    [lia|]. vm_compute. discriminate.
Defined.
