(* ===== verification/HarqDl.v ===== *)
(** * Downlink HARQ processes of a UE

    The lists of processes of NR_UE_sched_ctrl_t (gNB_scheduler_primitives.c),
    the scheduling of a process (the part of [nr_schedule_ue_spec] of
    gNB_scheduler_dlsch.c that handles it) and the feedback of the UE
    (gNB_scheduler_uci.c).

    A process is free, awaits feedback or awaits retransmission, and is then in
    the list of that name.  The bytes handed to the physical layer are recorded
    in [sent], in their order, with the process, its new data indicator and its
    round; a reset of the processes is recorded too. *)
From S2P Require Import Prelude MacList.

Definition NR_MAX_HARQ_PROCESSES : Z := 32.

(** [sched_pid] and [sched_tbs] are the fields [dl_harq_pid] and [tb_size] of
    the saved [sched_pdsch] *)
Record NR_UE_harq_t := mk_harq {
  is_waiting : bool;
  ndi : Z;
  round : Z;
  feedback_frame : Z;
  feedback_slot : Z;
  transportBlock : list Z;
  sched_pid : Z;
  sched_tbs : Z }.
#[export] Instance eta_NR_UE_harq_t : Eta NR_UE_harq_t :=
  fun h => mk_harq (is_waiting h) (ndi h) (round h) (feedback_frame h) (feedback_slot h)
    (transportBlock h) (sched_pid h) (sched_tbs h).

Inductive dl_sent :=
  | Sent (pid ndi round : Z) (data : list Z)
  | Reset.

Record dl_ctrl := mk_dl_ctrl {
  harq_processes : list NR_UE_harq_t;
  available_dl_harq : NR_list_t;
  feedback_dl_harq : NR_list_t;
  retrans_dl_harq : NR_list_t;
  errors : Z;
  rounds : list Z;
  sent : list dl_sent }.
#[export] Instance eta_dl_ctrl : Eta dl_ctrl :=
  fun s => mk_dl_ctrl (harq_processes s) (available_dl_harq s) (feedback_dl_harq s)
    (retrans_dl_harq s) (errors s) (rounds s) (sent s).

(** ** Processes *)

Definition get_harq (s : dl_ctrl) (pid : Z) : res NR_UE_harq_t :=
  if pid <? 0 then Err Out_of_bounds else arr_get (harq_processes s) (Z.to_nat pid).
Definition set_harq (s : dl_ctrl) (pid : Z) (h : NR_UE_harq_t) : res dl_ctrl :=
  if pid <? 0 then Err Out_of_bounds else
  let* l := arr_set (harq_processes s) (Z.to_nat pid) h in
  Ok (s <| harq_processes := l |>).

(** ** Creation of the lists *)

(** [nrofHARQ_ProcessesForPDSCH] is the number of the serving cell, with
    [None] when it is not configured, and [v1700] the presence of
    [nrofHARQ_ProcessesForPDSCH_v1700] *)
Definition get_nrofHARQ_ProcessesForPDSCH (v1700 : bool) (nrof : option Z) : res Z :=
  if v1700 then Ok 32 else
  match nrof with
  | None => Ok 8
  | Some i => if i <? 0 then Err Out_of_bounds else arr_get [2; 4; 6; 10; 12; 16] (Z.to_nat i)
  end.

(** [for (int harq = from; harq < to; harq++) add_tail_nr_list(l, harq);] *)
Definition add_range (l : NR_list_t) (from to : Z) : res NR_list_t :=
  fold_res add_tail_nr_list (seqZ from (to - from)) l.

Definition create_dl_harq_list (s : dl_ctrl) (v1700 : bool) (nrof : option Z) (dci_00_10 : bool)
  : res dl_ctrl :=
  let* nrofHARQ := get_nrofHARQ_ProcessesForPDSCH v1700 nrof in
  let nrofHARQ := if dci_00_10 && (16 <? nrofHARQ) then 16 else nrofHARQ in
  let old := len (available_dl_harq s) in
  if negb ((old =? len (feedback_dl_harq s)) && (old =? len (retrans_dl_harq s))) then Err Exit
  else if old =? 0 then
    let* a := create_nr_list nrofHARQ in
    let* a := add_range a 0 nrofHARQ in
    let* f := create_nr_list nrofHARQ in
    let* r := create_nr_list nrofHARQ in
    Ok (s <| available_dl_harq := a |> <| feedback_dl_harq := f |> <| retrans_dl_harq := r |>)
  else if old =? nrofHARQ then Ok s
  else if negb (old <? nrofHARQ) then Err Exit
  else
    let* a := resize_nr_list (available_dl_harq s) nrofHARQ in
    let* a := add_range a old nrofHARQ in
    let* f := resize_nr_list (feedback_dl_harq s) nrofHARQ in
    let* r := resize_nr_list (retrans_dl_harq s) nrofHARQ in
    Ok (s <| available_dl_harq := a |> <| feedback_dl_harq := f |> <| retrans_dl_harq := r |>).

(** ** The end of a transport block *)

Definition finish_nr_dl_harq (s : dl_ctrl) (harq_pid : Z) : res dl_ctrl :=
  let* h := get_harq s harq_pid in
  let* s := set_harq s harq_pid (h <| ndi := Z.lxor (ndi h) 1 |> <| round := 0 |>) in
  let* a := add_tail_nr_list (available_dl_harq s) harq_pid in
  Ok (s <| available_dl_harq := a |>).

Definition abort_nr_dl_harq (s : dl_ctrl) (harq_pid : Z) : res dl_ctrl :=
  let* s := finish_nr_dl_harq s harq_pid in
  Ok (s <| errors := u64 (errors s + 1) |>).

(** ** Feedback *)

Definition handle_dl_harq (s : dl_ctrl) (harq_pid : Z) (success : bool) (harq_round_max : Z)
  : res dl_ctrl :=
  let* h := get_harq s harq_pid in
  let h := h <| feedback_slot := u16 (-1) |> <| is_waiting := false |> in
  let* s := set_harq s harq_pid h in
  if success then finish_nr_dl_harq s harq_pid
  else if harq_round_max - 1 <=? round h then abort_nr_dl_harq s harq_pid
  else
    let* r := add_tail_nr_list (retrans_dl_harq s) harq_pid in
    set_harq (s <| retrans_dl_harq := r |>) harq_pid (h <| round := u8 (round h + 1) |>).

(** the feedback of [h] was due before [slot] of [frame], or is due after *)
Definition fb_past (h : NR_UE_harq_t) (frame slot : Z) : bool :=
  (512 <? (feedback_frame h - frame + 1024) `rem` 1024)
  || (feedback_frame h =? frame) && (feedback_slot h <? slot).
Definition fb_future (h : NR_UE_harq_t) (frame slot : Z) : bool :=
  (512 <? (frame - feedback_frame h + 1024) `rem` 1024)
  || (feedback_frame h =? frame) && (slot <? feedback_slot h).

(** the loop over the processes whose feedback was missed *)
Fixpoint skip_past (fuel : nat) (s : dl_ctrl) (frame slot harq_round_max : Z)
  : res (dl_ctrl * option Z) :=
  match fuel with
  | O => Err No_fuel
  | S fuel =>
    let pid := head (feedback_dl_harq s) in
    if pid <? 0 then Ok (s, None) else
    let* h := get_harq s pid in
    if fb_past h frame slot then
      let* f := remove_front_nr_list (feedback_dl_harq s) in
      let* s := handle_dl_harq (s <| feedback_dl_harq := f |>) pid false harq_round_max in
      skip_past fuel s frame slot harq_round_max
    else Ok (s, Some pid)
  end.

(** the process, by its number *)
Definition find_harq (s : dl_ctrl) (frame slot harq_round_max : Z) : res (dl_ctrl * option Z) :=
  let* '(s, o) := skip_past (S (Z.to_nat (len (feedback_dl_harq s)))) s frame slot harq_round_max in
  match o with
  | None => Ok (s, None)
  | Some pid =>
    let* h := get_harq s pid in
    Ok (s, if fb_future h frame slot then None else Some pid)
  end.

(** one HARQ bit of [handle_nr_uci_pucch_0_1] and of
    [handle_nr_uci_pucch_2_3_4], without a running random access; [false]: the
    loop over the bits is left *)
Definition harq_bit (s : dl_ctrl) (frame slot harq_round_max : Z) (success : bool)
  : res (dl_ctrl * bool) :=
  let* '(s, o) := find_harq s frame slot harq_round_max in
  match o with
  | None => Ok (s, false)
  | Some harq =>
    let* h := get_harq s harq in
    if negb (is_waiting h) then Err Exit else
    let pid := head (feedback_dl_harq s) in
    let* f := remove_front_nr_list (feedback_dl_harq s) in
    let* s := handle_dl_harq (s <| feedback_dl_harq := f |>) pid success harq_round_max in
    Ok (s, true)
  end.

Fixpoint uci_01_bits (s : dl_ctrl) (frame slot harq_round_max : Z) (harq_list : list Z)
    (harq_confidence : Z) : res dl_ctrl :=
  match harq_list with
  | [] => Ok s
  | harq_value :: harq_list =>
    let* '(s, go) := harq_bit s frame slot harq_round_max
                      ((harq_value =? 0) && (harq_confidence =? 0)) in
    if go then uci_01_bits s frame slot harq_round_max harq_list harq_confidence else Ok s
  end.

(** bit number [i] as the code reads it from the payload *)
Definition acknack_234 (harq_payload : list Z) (i : Z) : res Z :=
  let* b := arr_get harq_payload (Z.to_nat (Z.shiftr i 3)) in
  Ok (Z.land (Z.shiftr b i) 1).

(** [n] more bits from number [i] *)
Fixpoint uci_234_bits (n : nat) (i : Z) (s : dl_ctrl) (frame slot harq_round_max : Z)
    (harq_payload : list Z) (harq_crc : Z) : res dl_ctrl :=
  match n with
  | O => Ok s
  | S n =>
    let* acknack := acknack_234 harq_payload i in
    let* '(s, go) := harq_bit s frame slot harq_round_max
                      (negb (harq_crc =? 1) && negb (acknack =? 0)) in
    if go then uci_234_bits n (i + 1) s frame slot harq_round_max harq_payload harq_crc else Ok s
  end.

(** ** Scheduling *)

(** A buffer of at least [needed] bytes.  A fresh one is all zeros here: the
    only caller writes all [needed] bytes before it reads them. *)
Fixpoint tb_alloc_size (fuel : nat) (needed size : Z) : Z :=
  match fuel with
  | O => size
  | S fuel => if size <? needed then tb_alloc_size fuel needed (size * 2) else size
  end.
Definition allocate_transportBlock_buffer (tb : list Z) (needed : Z) : res (list Z) :=
  if negb (0 <? needed) then Err Exit
  else if needed <=? Z.of_nat (length tb) then Ok tb
  else Ok (replicate (Z.to_nat (tb_alloc_size 17 needed 32768)) 0).

(** a process is taken from the free ones or from those to be retransmitted *)
Definition take_process (s : dl_ctrl) (dl_harq_pid : Z) : res (dl_ctrl * Z) :=
  if dl_harq_pid <? 0 then
    let pid := head (available_dl_harq s) in
    if negb (0 <=? pid) then Err Exit else
    let* a := remove_front_nr_list (available_dl_harq s) in
    Ok (s <| available_dl_harq := a |>, pid)
  else
    let* h := get_harq s dl_harq_pid in
    if round h =? 0 then
      let* a := remove_nr_list (available_dl_harq s) dl_harq_pid in
      Ok (s <| available_dl_harq := a |>, dl_harq_pid)
    else
      let* r := remove_nr_list (retrans_dl_harq s) dl_harq_pid in
      Ok (s <| retrans_dl_harq := r |>, dl_harq_pid).

(** [pucch]: frame and slot of the feedback, [None] for a negative
    [pucch_allocation]; [pdu]: the MAC PDU of [TBS] bytes that is built for an
    initial transmission *)
Definition send_block (s : dl_ctrl) (pid TBS : Z) (pdu : list Z) : res dl_ctrl :=
  let* h := get_harq s pid in
  let* n := arr_get (rounds s) (Z.to_nat (round h)) in
  let* r := arr_set (rounds s) (Z.to_nat (round h)) (u64 (n + 1)) in
  let s := s <| rounds := r |> in
  let* h :=
    if negb (round h =? 0) then
      if negb (sched_tbs h =? TBS) then Err Exit else Ok h
    else
      let* buf := allocate_transportBlock_buffer (transportBlock h) TBS in
      let* buf := mem_write buf 0 pdu in
      Ok (h <| transportBlock := buf |> <| sched_pid := pid |> <| sched_tbs := TBS |>) in
  let* s := set_harq s pid h in
  let* data := mem_read (transportBlock h) 0 TBS in
  Ok (s <| sent := sent s ++ [Sent pid (ndi h) (round h) data] |>).

Definition send_process (s : dl_ctrl) (pid : Z) (pucch : option (Z * Z)) (TBS : Z) (pdu : list Z)
  : res dl_ctrl :=
  let* h := get_harq s pid in
  if is_waiting h then Err Exit else
  let* s :=
    match pucch with
    | None => finish_nr_dl_harq s pid
    | Some (frame, ul_slot) =>
      let* f := add_tail_nr_list (feedback_dl_harq s) pid in
      set_harq (s <| feedback_dl_harq := f |>) pid
        (h <| feedback_frame := u16 frame |> <| feedback_slot := u16 ul_slot |> <| is_waiting := true |>)
    end in
  send_block s pid TBS pdu.

Definition transmit_dl (s : dl_ctrl) (dl_harq_pid : Z) (pucch : option (Z * Z)) (TBS : Z) (pdu : list Z)
  : res dl_ctrl :=
  let* '(s, pid) := take_process s dl_harq_pid in
  send_process s pid pucch TBS pdu.

(** ** Reset *)

(** [while ((harq = from.head) >= 0) { remove_front(from); add_tail(to, harq); }] *)
Fixpoint move_all (fuel : nat) (from to : NR_list_t) : res (NR_list_t * NR_list_t) :=
  match fuel with
  | O => Err No_fuel
  | S fuel =>
    let harq := head from in
    if harq <? 0 then Ok (from, to) else
    let* from := remove_front_nr_list from in
    let* to := add_tail_nr_list to harq in
    move_all fuel from to
  end.

Definition reset_process (h : NR_UE_harq_t) : NR_UE_harq_t :=
  h <| feedback_slot := u16 (-1) |> <| round := 0 |> <| is_waiting := false |>.

Definition reset_dl_harq_list (s : dl_ctrl) : res dl_ctrl :=
  let* '(f, a) := move_all (S (Z.to_nat (len (feedback_dl_harq s)))) (feedback_dl_harq s)
                    (available_dl_harq s) in
  let* '(r, a) := move_all (S (Z.to_nat (len (retrans_dl_harq s)))) (retrans_dl_harq s) a in
  Ok (s <| feedback_dl_harq := f |> <| retrans_dl_harq := r |> <| available_dl_harq := a |>
        <| harq_processes := reset_process <$> harq_processes s |> <| sent := sent s ++ [Reset] |>).

(** ** The scheduler's choice *)

(** the bitmap of processes without feedback, the most significant bit of the
    first byte for process 0; [None]: not configured *)
Definition get_FeedbackDisabled (bitmap : option (list Z)) (harq_pid : Z) : res bool :=
  match bitmap with
  | None => Ok false
  | Some buf =>
    let byte_index := harq_pid `quot` 8 in
    let bit_index := harq_pid `rem` 8 in
    let* b := arr_get buf (Z.to_nat byte_index) in
    Ok (negb (Z.land (Z.shiftr b (7 - bit_index)) 1 =? 0))
  end.

(** new data: the first free process, if there is one; [fb]: the PUCCH
    occasion that is found when the process has feedback *)
Definition schedule_new (s : dl_ctrl) (bitmap : option (list Z)) (fb : Z * Z) (TBS : Z) (pdu : list Z)
  : res dl_ctrl :=
  if head (available_dl_harq s) <? 0 then Ok s else
  let dl_harq_pid := head (available_dl_harq s) in
  let* disabled := get_FeedbackDisabled bitmap dl_harq_pid in
  transmit_dl s dl_harq_pid (if disabled then None else Some fb) TBS pdu.

(** a retransmission reuses what was saved with the first process that waits
    for one *)
Definition schedule_retx (s : dl_ctrl) (bitmap : option (list Z)) (fb : Z * Z) : res dl_ctrl :=
  let current_harq_pid := head (retrans_dl_harq s) in
  if current_harq_pid <? 0 then Ok s else
  let* h := get_harq s current_harq_pid in
  let* disabled := get_FeedbackDisabled bitmap current_harq_pid in
  transmit_dl s (sched_pid h) (if disabled then None else Some fb) (sched_tbs h) [].
