(* ===== verification/HarqDlSpec.v ===== *)
(** * Downlink HARQ: every process in one list, every block sent as one

    The three lists partition the processes, the state of a process fits its
    list, no assertion fails, and the transmissions of a process form blocks:
    the same bytes and the same new data indicator, numbered from round 0, fewer
    than the maximum of rounds, and then another indicator. *)
From S2P Require Import Prelude MacList HarqDl.

(** ** The transmissions of a process *)

Definition tx_rec : Type := Z * Z * list Z.

Definition upd {A} (f : Z -> A) (i : Z) (x : A) : Z -> A := fun j => if decide (j = i) then x else f j.

(** the last transmission of every process since the last reset *)
Definition last_step (last : Z -> option tx_rec) (e : dl_sent) : Z -> option tx_rec :=
  match e with Sent pid n r d => upd last pid (Some (n, r, d)) | Reset => fun _ => None end.
Definition last_sent (tr : list dl_sent) : Z -> option tx_rec := foldl last_step (fun _ => None) tr.

(** a transmission starts a block or continues the last one of the process *)
Definition tx_ok (max : Z) (last : Z -> option tx_rec) (e : dl_sent) : bool :=
  match e with
  | Reset => true
  | Sent pid n r d =>
    match last pid with
    | None => r =? 0
    | Some (n0, r0, d0) =>
      (r =? 0) && negb (n =? n0)
      || (r =? r0 + 1) && (r <? max) && (n =? n0) && bool_decide (d = d0)
    end
  end.

Fixpoint sent_ok_from (max : Z) (last : Z -> option tx_rec) (tr : list dl_sent) : bool :=
  match tr with [] => true | e :: tr => tx_ok max last e && sent_ok_from max (last_step last e) tr end.
Definition sent_ok (max : Z) (tr : list dl_sent) : bool := sent_ok_from max (fun _ => None) tr.

#[local] Arguments sent_ok : simpl never.
#[local] Arguments last_sent : simpl never.

Lemma sent_ok_snoc max tr e :
  sent_ok max (tr ++ [e]) = sent_ok max tr && tx_ok max (last_sent tr) e.
Proof.
  unfold sent_ok, last_sent. generalize (fun _ : Z => @None tx_rec).
  induction tr as [|e' tr IH]; intros last; cbn; [by rewrite andb_true_r|].
  by rewrite IH, andb_assoc.
Qed.

Lemma last_sent_snoc tr e : last_sent (tr ++ [e]) = last_step (last_sent tr) e.
Proof. unfold last_sent. by rewrite foldl_app. Qed.

(** membership after an element was added or removed *)
Ltac solve_moves :=
  let q := fresh in let H := fresh in
  intros q H; clear -H; repeat split; set_solver.

(** rewrite a call with a result known for convertible arguments *)
Ltac rewrite_call H :=
  lazymatch type of H with ?f ?a ?b = _ => as_call2 f a b; rewrite H end; cbn [res_bind].

Lemma lxor_1_ne x : Z.lxor x 1 <> x.
Proof.
  intros H. assert (Hx : Z.lxor (Z.lxor x 1) x = 0) by (rewrite H; apply Z.lxor_nilpotent).
  rewrite (Z.lxor_comm x 1), Z.lxor_assoc, Z.lxor_nilpotent in Hx. done.
Qed.

(** ** The state of a process in each list *)

Lemma not_in_single (q pid : Z) : q ∉ [pid] <-> q <> pid.
Proof. set_solver. Qed.

Section Harq.
Context (max : Z) (bitmap : option (list Z)).
#[local] Set Default Proof Using "Type".

(** whether the process has no feedback *)
Definition disabled (pid : Z) : bool :=
  match get_FeedbackDisabled bitmap pid with Ok b => b | Err _ => false end.

Definition p_free (pid : Z) (last : option tx_rec) (h : NR_UE_harq_t) : Prop :=
  is_waiting h = false /\ round h = 0 /\
  forall n r d, last = Some (n, r, d) -> if disabled pid then n = ndi h else n <> ndi h.

(** the saved transmission can be repeated *)
Definition p_saved (pid : Z) (h : NR_UE_harq_t) : Prop :=
  disabled pid = false /\ sched_pid h = pid /\
  0 < sched_tbs h <= Z.of_nat (length (transportBlock h)).
Definition p_data (h : NR_UE_harq_t) : list Z := take (Z.to_nat (sched_tbs h)) (transportBlock h).

Definition p_wait (pid : Z) (last : option tx_rec) (h : NR_UE_harq_t) : Prop :=
  is_waiting h = true /\ 0 <= round h < max /\ p_saved pid h /\
  0 <= feedback_frame h < 1024 /\
  last = Some (ndi h, round h, p_data h).

Definition p_retx (pid : Z) (last : option tx_rec) (h : NR_UE_harq_t) : Prop :=
  is_waiting h = false /\ 1 <= round h < max /\ p_saved pid h /\
  last = Some (ndi h, round h - 1, p_data h).

(** [P] holds of the process, for its last transmission *)
Definition proc_ok (P : Z -> option tx_rec -> NR_UE_harq_t -> Prop)
    (procs : list NR_UE_harq_t) (last : Z -> option tx_rec) (pid : Z) : Prop :=
  exists h, procs !! Z.to_nat pid = Some h /\ P pid (last pid) h.

(** the lists stand for [A], [F] and [R], which have no process in common *)
Record lists (s : dl_ctrl) (n : Z) (A F R : list Z) : Prop := {
  ls_avail : nr_list (available_dl_harq s) A;
  ls_fb : nr_list (feedback_dl_harq s) F;
  ls_retx : nr_list (retrans_dl_harq s) R;
  ls_alen : len (available_dl_harq s) = n;
  ls_flen : len (feedback_dl_harq s) = n;
  ls_rlen : len (retrans_dl_harq s) = n;
  ls_nodup : NoDup (A ++ F ++ R) }.

(** every process but those of [X] is as its list says *)
Record procs_ok (X : list Z) (procs : list NR_UE_harq_t) (n : Z) (A F R : list Z)
    (last : Z -> option tx_rec) : Prop := {
  po_len : length procs = Z.to_nat NR_MAX_HARQ_PROCESSES;
  po_free pid : pid ∈ A -> pid ∉ X -> proc_ok p_free procs last pid;
  po_wait pid : pid ∈ F -> pid ∉ X -> proc_ok p_wait procs last pid;
  po_retx pid : pid ∈ R -> pid ∉ X -> proc_ok p_retx procs last pid;
  po_new pid : n <= pid < NR_MAX_HARQ_PROCESSES -> proc_ok p_free procs last pid }.

Lemma procs_open X procs n A F R last :
  procs_ok [] procs n A F R last -> procs_ok X procs n A F R last.
Proof. intros []. split; try done; intros ? ? _; eauto using not_elem_of_nil. Qed.

Lemma procs_move pid procs n A F R A' F' R' last :
  procs_ok [pid] procs n A F R last ->
  (forall q, q <> pid -> (q ∈ A' -> q ∈ A) /\ (q ∈ F' -> q ∈ F) /\ (q ∈ R' -> q ∈ R)) ->
  procs_ok [pid] procs n A' F' R' last.
Proof.
  intros [] Hq. split; try done; intros q Hin Hne;
    destruct (Hq q (proj1 (not_in_single q pid) Hne)) as (? & ? & ?); auto.
Qed.

Lemma proc_ok_other P procs last pid h l q : 0 <= pid -> 0 <= q -> q <> pid ->
  proc_ok P procs last q -> proc_ok P (<[Z.to_nat pid := h]> procs) (upd last pid l) q.
Proof.
  intros Hp Hq Hne (h' & Hh & HP). exists h'. rewrite list_lookup_insert_ne by lia.
  unfold upd. by rewrite decide_False.
Qed.

Lemma procs_set pid h l procs n A F R last : 0 <= pid < n ->
  Forall (fun q => 0 <= q) (A ++ F ++ R) ->
  procs_ok [pid] procs n A F R last ->
  procs_ok [pid] (<[Z.to_nat pid := h]> procs) n A F R (upd last pid l).
Proof.
  intros Hp Hpos []. rewrite Forall_forall in Hpos.
  assert (Hin : forall q, q ∈ A \/ q ∈ F \/ q ∈ R -> 0 <= q).
  { intros q Hq. apply Hpos. by rewrite !elem_of_app. }
  split; [by rewrite length_insert|..].
  1-3: intros q Hq Hne; apply proc_ok_other; [lia|auto|by apply not_in_single|auto].
  intros q Hq. apply proc_ok_other; [lia..|auto].
Qed.

Lemma procs_close pid h procs n A F R last :
  procs_ok [pid] procs n A F R last -> procs !! Z.to_nat pid = Some h ->
  (pid ∈ A -> p_free pid (last pid) h) -> (pid ∈ F -> p_wait pid (last pid) h) ->
  (pid ∈ R -> p_retx pid (last pid) h) -> procs_ok [] procs n A F R last.
Proof.
  intros [] Hh HA HF HR. split; try done; intros q Hin _;
    (destruct (decide (q = pid)) as [->|Hne%not_in_single]; [exists h|]; auto).
Qed.

(** *** States *)

Record good (s : dl_ctrl) (n : Z) (A F R : list Z) : Prop := {
  gd_lists : lists s n A F R;
  gd_n : 0 < n <= NR_MAX_HARQ_PROCESSES;
  gd_rounds : length (rounds s) = 8%nat;
  gd_sent : sent_ok max (sent s) = true;
  gd_procs : procs_ok [] (harq_processes s) n A F R (last_sent (sent s)) }.

(** process [pid] is [h], which need not fit its list *)
Record mid (s : dl_ctrl) (n : Z) (A F R : list Z) (pid : Z) (h : NR_UE_harq_t) : Prop := {
  md_lists : lists s n A F R;
  md_n : 0 < n <= NR_MAX_HARQ_PROCESSES;
  md_rounds : length (rounds s) = 8%nat;
  md_sent : sent_ok max (sent s) = true;
  md_procs : procs_ok [pid] (harq_processes s) n A F R (last_sent (sent s));
  md_pid : 0 <= pid < n;
  md_proc : harq_processes s !! Z.to_nat pid = Some h }.

Lemma lists_pos s n A F R : lists s n A F R -> Forall (fun q => 0 <= q) (A ++ F ++ R).
Proof. intros []. by rewrite !Forall_app; repeat split; eapply nl_nonneg. Qed.

Lemma lists_range s n A F R q : lists s n A F R -> q ∈ A ++ F ++ R -> 0 <= q < n.
Proof.
  intros [HA HF HR Ea Ef Er _]. rewrite !elem_of_app. apply nl_range in HA, HF, HR.
  rewrite !Forall_forall in *. rewrite Ea in HA. rewrite Ef in HF. rewrite Er in HR. naive_solver.
Qed.

Lemma mid_get s n A F R pid h : mid s n A F R pid h -> get_harq s pid = Ok h.
Proof.
  intros H. unfold get_harq. pose proof (md_pid _ _ _ _ _ _ _ H).
  rewrite (proj2 (Z.ltb_ge pid 0)) by lia. apply arr_get_ok, H.
Qed.

Lemma mid_set s n A F R pid h h' : mid s n A F R pid h ->
  set_harq s pid h' = Ok (s <| harq_processes := <[Z.to_nat pid := h']> (harq_processes s) |>) /\
  mid (s <| harq_processes := <[Z.to_nat pid := h']> (harq_processes s) |>) n A F R pid h'.
Proof.
  intros [Hl Hn Hr Hs Hp Hpid Hh]. pose proof (lookup_lt_Some _ _ _ Hh). split.
  - unfold set_harq. rewrite (proj2 (Z.ltb_ge pid 0)) by lia. by rewrite arr_set_ok.
  - split; try done; cbn; [by destruct Hl| |by apply list_lookup_insert_eq].
    pose proof (procs_set pid h' (last_sent (sent s) pid) _ _ _ _ _ _ Hpid (lists_pos _ _ _ _ _ Hl) Hp) as Hq.
    assert (He : forall q, upd (last_sent (sent s)) pid (last_sent (sent s) pid) q = last_sent (sent s) q).
    { intros q. unfold upd. by case_decide; subst. }
    destruct Hq. unfold proc_ok in *. setoid_rewrite He in po_free0.
    setoid_rewrite He in po_wait0. setoid_rewrite He in po_retx0. setoid_rewrite He in po_new0. by split.
Qed.

Lemma mid_sent s n A F R pid h nd r d : mid s n A F R pid h ->
  tx_ok max (last_sent (sent s)) (Sent pid nd r d) = true ->
  let s' := s <| sent := sent s ++ [Sent pid nd r d] |> in
  mid s' n A F R pid h /\ last_sent (sent s') pid = Some (nd, r, d).
Proof.
  intros [Hl Hn Hr Hs Hp Hpid Hh] Ht. cbv zeta. cbn. rewrite last_sent_snoc. cbn [last_step].
  split; [|by unfold upd; rewrite decide_True].
  split; try done; [by destruct Hl|cbn; by rewrite sent_ok_snoc, Hs, Ht|].
  cbn. rewrite last_sent_snoc. cbn [last_step].
  rewrite <- (list_insert_id _ _ _ Hh). apply procs_set; [done|by eapply lists_pos|done].
Qed.

Lemma mid_close s n A F R pid h : mid s n A F R pid h ->
  (pid ∈ A -> p_free pid (last_sent (sent s) pid) h) ->
  (pid ∈ F -> p_wait pid (last_sent (sent s) pid) h) ->
  (pid ∈ R -> p_retx pid (last_sent (sent s) pid) h) -> good s n A F R.
Proof. intros [] ???. split; try done. by eapply procs_close. Qed.

(** *** Moving a process between lists *)

Lemma perm_avail (A F R : list Z) pid : (A ++ [pid]) ++ F ++ R ≡ₚ pid :: A ++ F ++ R.
Proof. rewrite <- app_assoc. symmetry. apply Permutation_middle. Qed.
Lemma perm_fb (A F R : list Z) pid : A ++ (F ++ [pid]) ++ R ≡ₚ pid :: A ++ F ++ R.
Proof. rewrite <- app_assoc, !app_assoc, <- (app_assoc (A ++ F)). symmetry. apply Permutation_middle. Qed.
Lemma perm_retx (A F R : list Z) pid : A ++ F ++ R ++ [pid] ≡ₚ pid :: A ++ F ++ R.
Proof. rewrite !app_assoc. symmetry. apply Permutation_cons_append. Qed.
Lemma perm_fb_front (A F R : list Z) pid : A ++ (pid :: F) ++ R ≡ₚ pid :: A ++ F ++ R.
Proof. symmetry. apply Permutation_middle. Qed.
Lemma perm_retx_front (A F R : list Z) pid : A ++ F ++ pid :: R ≡ₚ pid :: A ++ F ++ R.
Proof. rewrite !app_assoc. symmetry. apply Permutation_middle. Qed.

Lemma nodup_put (l l' : list Z) pid : l' ≡ₚ pid :: l -> NoDup l -> pid ∉ l -> NoDup l'.
Proof. intros -> ??. by constructor. Qed.
Lemma nodup_take (l l' : list Z) pid : l' ≡ₚ pid :: l -> NoDup l' -> NoDup l /\ pid ∉ l.
Proof. intros -> [??]%NoDup_cons. done. Qed.

Lemma put_avail s n A F R pid : lists s n A F R -> 0 <= pid < n -> pid ∉ A ++ F ++ R ->
  exists a, add_tail_nr_list (available_dl_harq s) pid = Ok a /\
    lists (s <| available_dl_harq := a |>) n (A ++ [pid]) F R.
Proof.
  intros [HA HF HR Ea Ef Er Hd] Hp Hni. pose proof Hni as Hni'. rewrite !elem_of_app in Hni'.
  destruct (add_tail_ok _ _ pid HA) as (a & Ha & HA' & Hl); [lia|tauto|]. exists a. split; [done|].
  split; cbn; try done; [lia|]. eapply nodup_put; [apply perm_avail|done..].
Qed.

Lemma put_fb s n A F R pid : lists s n A F R -> 0 <= pid < n -> pid ∉ A ++ F ++ R ->
  exists f, add_tail_nr_list (feedback_dl_harq s) pid = Ok f /\
    lists (s <| feedback_dl_harq := f |>) n A (F ++ [pid]) R.
Proof.
  intros [HA HF HR Ea Ef Er Hd] Hp Hni. pose proof Hni as Hni'. rewrite !elem_of_app in Hni'.
  destruct (add_tail_ok _ _ pid HF) as (a & Ha & HA' & Hl); [lia|tauto|]. exists a. split; [done|].
  split; cbn; try done; [lia|]. eapply nodup_put; [apply perm_fb|done..].
Qed.

Lemma put_retx s n A F R pid : lists s n A F R -> 0 <= pid < n -> pid ∉ A ++ F ++ R ->
  exists r, add_tail_nr_list (retrans_dl_harq s) pid = Ok r /\
    lists (s <| retrans_dl_harq := r |>) n A F (R ++ [pid]).
Proof.
  intros [HA HF HR Ea Ef Er Hd] Hp Hni. pose proof Hni as Hni'. rewrite !elem_of_app in Hni'.
  destruct (add_tail_ok _ _ pid HR) as (a & Ha & HA' & Hl); [lia|tauto|]. exists a. split; [done|].
  split; cbn; try done; [lia|]. eapply nodup_put; [apply perm_retx|done..].
Qed.

Lemma take_avail s n A F R pid : lists s n (pid :: A) F R ->
  exists a, remove_nr_list (available_dl_harq s) pid = Ok a /\ pid ∉ A ++ F ++ R /\
    lists (s <| available_dl_harq := a |>) n A F R.
Proof.
  intros [HA HF HR Ea Ef Er Hd]. destruct (remove_ok _ [] _ _ HA) as (a & Ha & HA' & Hl).
  exists a. split; [done|]. apply (nodup_take (A ++ F ++ R) _ pid) in Hd as [Hd Hni]; [|done].
  split; [done|]. split; cbn; try done. lia.
Qed.

Lemma take_fb s n A F R pid : lists s n A (pid :: F) R ->
  exists f, remove_front_nr_list (feedback_dl_harq s) = Ok f /\ pid ∉ A ++ F ++ R /\
    lists (s <| feedback_dl_harq := f |>) n A F R.
Proof.
  intros [HA HF HR Ea Ef Er Hd]. destruct (remove_front_ok _ _ _ HF) as (a & Ha & HA' & Hl).
  exists a. split; [done|]. apply (nodup_take (A ++ F ++ R) _ pid) in Hd as [Hd Hni]; [|apply perm_fb_front].
  split; [done|]. split; cbn; try done. lia.
Qed.

Lemma take_retx s n A F R pid : lists s n A F (pid :: R) ->
  exists r, remove_nr_list (retrans_dl_harq s) pid = Ok r /\ pid ∉ A ++ F ++ R /\
    lists (s <| retrans_dl_harq := r |>) n A F R.
Proof.
  intros [HA HF HR Ea Ef Er Hd]. destruct (remove_ok _ [] _ _ HR) as (a & Ha & HA' & Hl).
  exists a. split; [done|]. apply (nodup_take (A ++ F ++ R) _ pid) in Hd as [Hd Hni]; [|apply perm_retx_front].
  split; [done|]. split; cbn; try done. lia.
Qed.

(** a state and the process taken out of its lists *)
Lemma good_mid s s' n A F R A' F' R' pid : good s n A' F' R' -> pid ∈ A' ++ F' ++ R' ->
  lists s' n A F R -> harq_processes s' = harq_processes s -> rounds s' = rounds s ->
  sent s' = sent s ->
  (forall q, q <> pid -> (q ∈ A -> q ∈ A') /\ (q ∈ F -> q ∈ F') /\ (q ∈ R -> q ∈ R')) ->
  exists h, mid s' n A F R pid h.
Proof.
  intros [Hl Hn Hr Hs Hp] Hin Hl' Ep Er Es Hq.
  pose proof (lists_range _ _ _ _ _ _ Hl Hin) as Hpid.
  destruct (lookup_lt_is_Some_2 (harq_processes s) (Z.to_nat pid)) as [h Hh].
  { rewrite (po_len _ _ _ _ _ _ _ Hp). lia. }
  exists h. split; rewrite ?Ep, ?Er, ?Es; try done.
  eapply procs_move; [by apply procs_open|done].
Qed.

Lemma mid_move s s' n A F R A' F' R' pid h : mid s n A' F' R' pid h ->
  lists s' n A F R -> harq_processes s' = harq_processes s -> rounds s' = rounds s ->
  sent s' = sent s ->
  (forall q, q <> pid -> (q ∈ A -> q ∈ A') /\ (q ∈ F -> q ∈ F') /\ (q ∈ R -> q ∈ R')) ->
  mid s' n A F R pid h.
Proof.
  intros [Hl Hn Hr Hs Hp Hpid Hh] Hl' Ep Er Es Hq. split; rewrite ?Ep, ?Er, ?Es; try done.
  by eapply procs_move.
Qed.

(** *** The end of a block and the feedback *)

Definition finished (h : NR_UE_harq_t) : NR_UE_harq_t := h <| ndi := Z.lxor (ndi h) 1 |> <| round := 0 |>.

(** what an operation on process [pid] leaves alone *)
Record frame_of (s s' : dl_ctrl) (pid : Z) : Prop := {
  fr_rounds : rounds s' = rounds s;
  fr_sent : sent s' = sent s;
  fr_fb : feedback_dl_harq s' = feedback_dl_harq s;
  fr_procs q : 0 <= q -> q <> pid ->
    harq_processes s' !! Z.to_nat q = harq_processes s !! Z.to_nat q }.

Lemma frame_set s pid h : 0 <= pid ->
  frame_of s (s <| harq_processes := <[Z.to_nat pid := h]> (harq_processes s) |>) pid.
Proof. intros Hp. split; try done. intros q Hq Hne. cbn. apply list_lookup_insert_ne. lia. Qed.

Lemma frame_trans s s' s'' pid : frame_of s s' pid -> frame_of s' s'' pid -> frame_of s s'' pid.
Proof. intros [] []. split; try congruence. intros q Hq Hne. rewrite fr_procs1; auto. Qed.

Lemma finish_ok s n A F R pid h : mid s n A F R pid h -> pid ∉ A ++ F ++ R ->
  exists s', finish_nr_dl_harq s pid = Ok s' /\ mid s' n (A ++ [pid]) F R pid (finished h) /\
    frame_of s s' pid.
Proof.
  intros H Hni. unfold finish_nr_dl_harq. rewrite (mid_get _ _ _ _ _ _ _ H). cbn [res_bind].
  destruct (mid_set _ _ _ _ _ _ _ (finished h) H) as [Hs Hm]. unfold finished in Hs. rewrite Hs.
  cbn [res_bind].
  destruct (put_avail _ _ _ _ _ _ (md_lists _ _ _ _ _ _ _ Hm) (md_pid _ _ _ _ _ _ _ H) Hni) as (a & Ha & Hl).
  rewrite_call Ha. eexists. split; [done|]. split.
  - eapply mid_move; [exact Hm|exact Hl|done..|solve_moves].
  - eapply frame_trans; [by apply frame_set, H|by split].
Qed.

Lemma abort_ok s n A F R pid h : mid s n A F R pid h -> pid ∉ A ++ F ++ R ->
  exists s', abort_nr_dl_harq s pid = Ok s' /\ mid s' n (A ++ [pid]) F R pid (finished h) /\
    frame_of s s' pid.
Proof.
  intros H Hni. unfold abort_nr_dl_harq.
  destruct (finish_ok _ _ _ _ _ _ _ H Hni) as (s' & -> & Hm & Hf). cbn [res_bind].
  eexists. split; [done|]. split; [|by destruct Hf; split].
  eapply mid_move; [exact Hm|destruct Hm as [[] _ _ _ _ _ _]; by split|done..].
Qed.

Hypothesis Hmax : 1 <= max <= 8.
Hypothesis Hbitmap : forall b, bitmap = Some b -> (4 <= length b)%nat.
#[local] Set Default Proof Using "All".

(** a process with feedback goes back to the free ones or waits for a
    retransmission *)
Lemma handle_ok s n A F R pid h success : mid s n A F R pid h -> pid ∉ A ++ F ++ R ->
  p_wait pid (last_sent (sent s) pid) h ->
  exists s' A' R', handle_dl_harq s pid success max = Ok s' /\ good s' n A' F R' /\
    A' ++ F ++ R' ≡ₚ pid :: A ++ F ++ R /\ frame_of s s' pid.
Proof.
  intros H Hni (Hw & Hr & Hsv & _ & Hl). unfold handle_dl_harq.
  rewrite (mid_get _ _ _ _ _ _ _ H). cbn [res_bind].
  set (h1 := h <| feedback_slot := _ |> <| is_waiting := _ |>).
  destruct (mid_set _ _ _ _ _ _ _ h1 H) as [Hs Hm]. rewrite Hs. cbn [res_bind].
  pose proof (frame_set s pid h1 (proj1 (md_pid _ _ _ _ _ _ _ H))) as Hf1.
  set (s1 := s <| harq_processes := _ |>) in *.
  assert (Hend : forall s', mid s' n (A ++ [pid]) F R pid (finished h1) -> frame_of s1 s' pid ->
    good s' n (A ++ [pid]) F R).
  { intros s' Hm' Hf'. eapply mid_close; [done|intros _|..].
    - split; [done|]. split; [done|]. rewrite (fr_sent _ _ _ Hf').
      change (sent s1) with (sent s). rewrite Hl.
      intros n' r' d' [= <- _ _]. rewrite (proj1 Hsv). cbn. pose proof (lxor_1_ne (ndi h)). congruence.
    - intros Hin. exfalso. apply Hni. rewrite !elem_of_app. auto.
    - intros Hin. exfalso. apply Hni. rewrite !elem_of_app. auto. }
  destruct success; [|destruct (max - 1 <=? round h1) eqn:Er].
  - destruct (finish_ok _ _ _ _ _ _ _ Hm Hni) as (s' & -> & Hm' & Hf').
    exists s', (A ++ [pid]), R. split; [done|]. split; [by apply Hend|].
    split; [apply perm_avail|by eapply frame_trans].
  - destruct (abort_ok _ _ _ _ _ _ _ Hm Hni) as (s' & -> & Hm' & Hf').
    exists s', (A ++ [pid]), R. split; [done|]. split; [by apply Hend|].
    split; [apply perm_avail|by eapply frame_trans].
  - destruct (put_retx _ _ _ _ _ _ (md_lists _ _ _ _ _ _ _ Hm) (md_pid _ _ _ _ _ _ _ H) Hni) as (r & Hr' & Hlr).
    rewrite_call Hr'.
    set (h2 := h1 <| round := _ |>).
    assert (Hm2 : mid (s1 <| retrans_dl_harq := r |>) n A F (R ++ [pid]) pid h1).
    { eapply mid_move; [exact Hm|exact Hlr|done..|solve_moves]. }
    destruct (mid_set _ _ _ _ _ _ _ h2 Hm2) as [Hs2 Hm3]. rewrite Hs2.
    eexists _, A, (R ++ [pid]). split; [done|]. split; [|split; [apply perm_retx|]].
    + eapply mid_close; [exact Hm3|..].
      * intros Hin. exfalso. apply Hni. rewrite !elem_of_app. auto.
      * intros Hin. exfalso. apply Hni. rewrite !elem_of_app. auto.
      * intros _. cbn in Er. unfold p_retx, p_saved, p_data, h2, h1. cbn. unfold u8.
        rewrite Z.mod_small by lia. split; [done|]. split; [lia|]. split; [done|].
        by replace (round h + 1 - 1) with (round h) by lia.
    + eapply frame_trans; [exact Hf1|]. eapply frame_trans; [|apply frame_set, H]. by split.
Qed.

Lemma pick_fb s n A F R pid : good s n A (pid :: F) R ->
  exists f h, remove_front_nr_list (feedback_dl_harq s) = Ok f /\ pid ∉ A ++ F ++ R /\
    mid (s <| feedback_dl_harq := f |>) n A F R pid h /\ p_wait pid (last_sent (sent s) pid) h /\
    get_harq s pid = Ok h /\ harq_processes s !! Z.to_nat pid = Some h /\ 0 <= pid.
Proof.
  intros H. destruct (take_fb _ _ _ _ _ _ (gd_lists _ _ _ _ _ H)) as (f & Hf & Hni & Hl).
  destruct (good_mid s (s <| feedback_dl_harq := f |>) n A F R A (pid :: F) R pid H) as [h Hm];
    [rewrite !elem_of_app; set_solver|done..|solve_moves|].
  exists f, h. split; [done|]. split; [done|]. split; [done|].
  destruct (po_wait _ _ _ _ _ _ _ (gd_procs _ _ _ _ _ H) pid) as (h' & Hh' & Hw);
    [left|apply not_elem_of_nil|].
  pose proof (md_proc _ _ _ _ _ _ _ Hm) as Hh. cbn in Hh. rewrite Hh in Hh'. injection Hh' as ->.
  split; [done|]. pose proof (md_pid _ _ _ _ _ _ _ Hm).
  split; [|split; [done|lia]]. unfold get_harq. rewrite (proj2 (Z.ltb_ge pid 0)) by lia. by apply arr_get_ok.
Qed.

Definition proc_is (s : dl_ctrl) (P : NR_UE_harq_t -> Prop) (pid : Z) : Prop :=
  exists h, harq_processes s !! Z.to_nat pid = Some h /\ P h.

(** the processes skipped are those whose feedback was due before, up to
    the first other one *)
Lemma skip_past_ok frame slot fuel s n A F R : good s n A F R -> (length F < fuel)%nat ->
  exists s' o sk A' F' R', skip_past fuel s frame slot max = Ok (s', o) /\ good s' n A' F' R' /\
    F = sk ++ F' /\ A' ++ F' ++ R' ≡ₚ A ++ F ++ R /\ sent s' = sent s /\
    Forall (proc_is s (fun h => fb_past h frame slot = true)) sk /\ o = hd_error F' /\
    (forall pid, o = Some pid -> proc_is s' (fun h => fb_past h frame slot = false) pid).
Proof.
  revert s A F R. induction fuel as [|fuel IH]; intros s A F R H Hf; [lia|]. cbn [skip_past].
  destruct F as [|pid F].
  - rewrite (nl_head _ _ (ls_fb _ _ _ _ _ (gd_lists _ _ _ _ _ H))). cbn.
    exists s, None, [], A, [], R. do 5 (split; [done|]). split; [constructor|done].
  - destruct (pick_fb _ _ _ _ _ _ H) as (f & h & Hrem & Hni & Hm & Hw & Hg & Hh & Hpos).
    rewrite (nl_head _ _ (ls_fb _ _ _ _ _ (gd_lists _ _ _ _ _ H))). cbn [hd_error default from_option id].
    rewrite (proj2 (Z.ltb_ge pid 0)), Hg by lia. cbn [res_bind].
    destruct (fb_past h frame slot) eqn:Ep.
    + rewrite Hrem. cbn [res_bind].
      destruct (handle_ok _ _ _ _ _ _ _ false Hm Hni Hw) as (s1 & A1 & R1 & -> & H1 & Hp1 & Hf1).
      cbn [res_bind].
      destruct (IH s1 A1 F R1 H1) as (s' & o & sk & A' & F' & R' & Hs' & H' & HF & Hp & Ht & Hsk & Ho & Ho');
        [cbn in Hf; lia|].
      exists s', o, (pid :: sk), A', F', R'. split; [done|]. split; [done|]. split; [by rewrite HF|].
      split; [by rewrite Hp, Hp1, perm_fb_front|]. split; [by rewrite Ht, (fr_sent _ _ _ Hf1)|].
      split; [|done]. constructor; [by exists h|].
      rewrite Forall_forall in Hsk |- *. intros q Hq. destruct (Hsk q Hq) as (h' & Hh' & Hp').
      exists h'. split; [|done]. rewrite <- Hh'. symmetry. apply (fr_procs _ _ _ Hf1).
      * apply (lists_range _ _ _ _ _ q (gd_lists _ _ _ _ _ H1)). rewrite HF. set_solver.
      * intros ->. apply Hni. rewrite HF. set_solver.
    + exists s, (Some pid), [], A, (pid :: F), R. do 5 (split; [done|]). split; [constructor|].
      split; [done|]. intros q [= <-]. by exists h.
Qed.

(** the feedback of [h] is due now: exactly, or half the frame numbers away,
    which the code cannot tell apart *)
Definition due (frame slot : Z) (h : NR_UE_harq_t) : Prop :=
  feedback_frame h = frame /\ feedback_slot h = slot \/ Z.abs (feedback_frame h - frame) = 512.

Lemma due_ok frame slot h : 0 <= frame < 1024 -> 0 <= feedback_frame h < 1024 ->
  fb_past h frame slot = false -> fb_future h frame slot = false -> due frame slot h.
Proof.
  unfold fb_past, fb_future, due. intros Hfr Hff.
  rewrite !rem_mod by lia. intros [P1 P2]%orb_false_elim [Q1 Q2]%orb_false_elim.
  set (a := feedback_frame h) in *. rewrite Z.mod_eq in P1 by lia. rewrite Z.mod_eq in Q1 by lia.
  assert (H1 : (a - frame + 1024) / 1024 = if a <? frame then 0 else 1).
  { destruct (a <? frame) eqn:E; [apply Z.div_small; lia|].
    symmetry. apply (Z.div_unique_pos _ _ _ (a - frame)); lia. }
  assert (H2 : (frame - a + 1024) / 1024 = if frame <? a then 0 else 1).
  { destruct (frame <? a) eqn:E; [apply Z.div_small; lia|].
    symmetry. apply (Z.div_unique_pos _ _ _ (frame - a)); lia. }
  rewrite H1 in P1. rewrite H2 in Q1. destruct (a <? frame) eqn:E1, (frame <? a) eqn:E2; lia.
Qed.

Definition found (frame slot : Z) (s s' : dl_ctrl) (F : list Z) (o : option Z) (F' : list Z) : Prop :=
  exists sk, F = sk ++ F' /\ Forall (proc_is s (fun h => fb_past h frame slot = true)) sk /\
    forall pid, o = Some pid -> hd_error F' = Some pid /\ proc_is s' (due frame slot) pid.

Lemma find_harq_ok frame slot s n A F R : 0 <= frame < 1024 -> good s n A F R ->
  exists s' o A' F' R', find_harq s frame slot max = Ok (s', o) /\ good s' n A' F' R' /\
    A' ++ F' ++ R' ≡ₚ A ++ F ++ R /\ sent s' = sent s /\ found frame slot s s' F o F'.
Proof.
  intros Hfr H. unfold find_harq. pose proof (gd_lists _ _ _ _ _ H) as Hl.
  destruct (skip_past_ok frame slot (S (Z.to_nat (len (feedback_dl_harq s)))) _ _ _ _ _ H)
    as (s' & o & sk & A' & F' & R' & -> & H' & HF & Hp & Ht & Hsk & Ho & Ho').
  { pose proof (ls_fb _ _ _ _ _ Hl) as Hf.
    pose proof (nodup_range_length _ _ (nl_nodup _ _ Hf) (nl_range _ _ Hf)). lia. }
  cbn [res_bind]. destruct o as [pid|].
  - destruct F' as [|pid' F']; [done|]. injection Ho as ->.
    destruct (pick_fb _ _ _ _ _ _ H') as (f & h & _ & _ & _ & Hw & Hg & Hh & _).
    rewrite Hg. cbn [res_bind]. eexists s', _, A', (pid' :: F'), R'. do 4 (split; [done|]).
    exists sk. split; [done|]. split; [done|]. intros q Hq.
    destruct (fb_future h frame slot) eqn:Ef; [done|]. injection Hq as <-. split; [done|].
    exists h. split; [done|]. destruct (Ho' _ eq_refl) as (h' & Hh' & Hp').
    rewrite Hh in Hh'. injection Hh' as <-. apply due_ok; try done. apply Hw.
  - exists s', None, A', F', R'. do 4 (split; [done|]). exists sk. done.
Qed.

Lemma harq_bit_ok frame slot success s n A F R : 0 <= frame < 1024 -> good s n A F R ->
  exists s' go A' F' R', harq_bit s frame slot max success = Ok (s', go) /\ good s' n A' F' R' /\
    A' ++ F' ++ R' ≡ₚ A ++ F ++ R.
Proof.
  intros Hfr H. unfold harq_bit.
  destruct (find_harq_ok frame slot s n A F R Hfr H) as (s1 & o & A1 & F1 & R1 & -> & H1 & Hp1 & _ & Hfound).
  cbn [res_bind]. destruct o as [pid|]; [|by eexists _, _, A1, F1, R1].
  destruct Hfound as (sk & _ & _ & Ho). destruct (Ho _ eq_refl) as [Hhd _].
  destruct F1 as [|pid' F1]; [done|]. injection Hhd as ->.
  destruct (pick_fb _ _ _ _ _ _ H1) as (f & h & Hrem & Hni & Hm & Hw & Hg & _ & _).
  rewrite Hg. cbn [res_bind]. rewrite (proj1 Hw). cbn [negb].
  rewrite Hrem. cbn [res_bind]. rewrite (nl_head _ _ (ls_fb _ _ _ _ _ (gd_lists _ _ _ _ _ H1))).
  cbn [hd_error default from_option id].
  destruct (handle_ok _ _ _ _ _ _ _ success Hm Hni Hw) as (s2 & A2 & R2 & -> & H2 & Hp2 & _).
  cbn [res_bind]. exists s2, true, A2, F1, R2. split; [done|]. split; [done|].
  by rewrite Hp2, <- Hp1, perm_fb_front.
Qed.

Lemma uci_01_ok frame slot l conf s n A F R : 0 <= frame < 1024 -> good s n A F R ->
  exists s' A' F' R', uci_01_bits s frame slot max l conf = Ok s' /\ good s' n A' F' R' /\
    A' ++ F' ++ R' ≡ₚ A ++ F ++ R.
Proof.
  intros Hfr. revert s A F R. induction l as [|v l IH]; intros s A F R H; [by exists s, A, F, R|].
  cbn [uci_01_bits].
  destruct (harq_bit_ok frame slot ((v =? 0) && (conf =? 0)) s n A F R Hfr H)
    as (s1 & go & A1 & F1 & R1 & -> & H1 & Hp1). cbn [res_bind].
  destruct go; [|by exists s1, A1, F1, R1].
  destruct (IH _ _ _ _ H1) as (s' & A' & F' & R' & Hs' & H' & Hp'). exists s', A', F', R'.
  split; [done|]. split; [done|]. by rewrite Hp'.
Qed.

Lemma uci_234_ok frame slot payload crc k i s n A F R : 0 <= frame < 1024 -> 0 <= i ->
  i + Z.of_nat k <= 8 * Z.of_nat (length payload) -> good s n A F R ->
  exists s' A' F' R', uci_234_bits k i s frame slot max payload crc = Ok s' /\ good s' n A' F' R' /\
    A' ++ F' ++ R' ≡ₚ A ++ F ++ R.
Proof.
  intros Hfr. revert i s A F R. induction k as [|k IH]; intros i s A F R Hi Hk H; [by exists s, A, F, R|].
  cbn [uci_234_bits]. unfold acknack_234.
  destruct (arr_get_lt payload (Z.to_nat (Z.shiftr i 3))) as (b & _ & ->).
  { rewrite Z.shiftr_div_pow2 by lia. change (2 ^ 3) with 8. Z.to_euclidean_division_equations. lia. }
  cbn [res_bind].
  destruct (harq_bit_ok frame slot (negb (crc =? 1) && negb (Z.land (Z.shiftr b i) 1 =? 0)) s n A F R Hfr H)
    as (s1 & go & A1 & F1 & R1 & -> & H1 & Hp1). cbn [res_bind].
  destruct go; [|by exists s1, A1, F1, R1].
  destruct (IH (i + 1) _ _ _ _ ltac:(lia) ltac:(lia) H1) as (s' & A' & F' & R' & Hs' & H' & Hp').
  exists s', A', F', R'. split; [done|]. split; [done|]. by rewrite Hp'.
Qed.

(** *** Transmissions *)

Lemma tb_alloc_ok fuel needed size : 0 < size -> needed <= size * 2 ^ Z.of_nat fuel ->
  needed <= tb_alloc_size fuel needed size.
Proof.
  revert size. induction fuel as [|fuel IH]; intros size Hs Hn; cbn [tb_alloc_size]; [lia|].
  destruct (Z.ltb_spec size needed); [|done]. apply IH; [lia|].
  rewrite Nat2Z.inj_succ, Z.pow_succ_r in Hn by lia. lia.
Qed.

(** the bytes of a new block are the first ones of its buffer *)
Lemma fill_ok tb TBS pdu : 0 < TBS < 2 ^ 32 -> Z.of_nat (length pdu) = TBS ->
  exists buf buf', allocate_transportBlock_buffer tb TBS = Ok buf /\ mem_write buf 0 pdu = Ok buf' /\
    take (Z.to_nat TBS) buf' = pdu /\ TBS <= Z.of_nat (length buf').
Proof.
  intros HT Hp. unfold allocate_transportBlock_buffer. rewrite (proj2 (Z.ltb_lt 0 TBS)) by lia. cbn [negb].
  assert (Hw : forall buf, TBS <= Z.of_nat (length buf) -> exists buf', mem_write buf 0 pdu = Ok buf' /\
    take (Z.to_nat TBS) buf' = pdu /\ TBS <= Z.of_nat (length buf')).
  { intros buf Hb. rewrite mem_write_total by lia. eexists. split; [done|].
    change (take (Z.to_nat 0) buf) with (@nil Z). cbn [app].
    rewrite take_app_length' by lia. split; [done|]. rewrite length_app, length_drop. lia. }
  destruct (Z.leb_spec TBS (Z.of_nat (length tb))).
  - destruct (Hw tb) as (buf' & ?); [done|]. by exists tb, buf'.
  - set (b := replicate _ 0). destruct (Hw b) as (buf' & ?); [|by exists b, buf'].
    unfold b. rewrite length_replicate. pose proof (tb_alloc_ok 17 TBS 32768 ltac:(lia) ltac:(cbn; lia)). lia.
Qed.

Lemma count_round s n A F R pid h : mid s n A F R pid h -> 0 <= round h < max ->
  exists k r, arr_get (rounds s) (Z.to_nat (round h)) = Ok k /\
    arr_set (rounds s) (Z.to_nat (round h)) (u64 (k + 1)) = Ok r /\
    mid (s <| rounds := r |>) n A F R pid h.
Proof.
  intros H Hr. pose proof (md_rounds _ _ _ _ _ _ _ H) as Hl.
  destruct (arr_get_lt (rounds s) (Z.to_nat (round h))) as (k & _ & ->); [lia|].
  exists k, (<[Z.to_nat (round h) := u64 (k + 1)]> (rounds s)). split; [done|].
  split; [apply arr_set_ok; lia|]. destruct H as [[] ? ? ? ? ? ?].
  split; try done. cbn. by rewrite length_insert.
Qed.

Lemma saved_read h TBS : TBS = sched_tbs h -> 0 < sched_tbs h <= Z.of_nat (length (transportBlock h)) ->
  mem_read (transportBlock h) 0 TBS = Ok (p_data h).
Proof. intros -> Hl. rewrite mem_read_total by lia. done. Qed.

(** the first half: the process goes to the list for feedback *)
Definition scheduled (h : NR_UE_harq_t) (fb : Z * Z) : NR_UE_harq_t :=
  h <| feedback_frame := u16 (fst fb) |> <| feedback_slot := u16 (snd fb) |> <| is_waiting := true |>.

Lemma to_feedback s n A F R pid h fb : mid s n A F R pid h -> pid ∉ A ++ F ++ R ->
  exists f s', add_tail_nr_list (feedback_dl_harq s) pid = Ok f /\
    set_harq (s <| feedback_dl_harq := f |>) pid (scheduled h fb) = Ok s' /\
    mid s' n A (F ++ [pid]) R pid (scheduled h fb) /\ sent s' = sent s.
Proof.
  intros H Hni.
  destruct (put_fb _ _ _ _ _ _ (md_lists _ _ _ _ _ _ _ H) (md_pid _ _ _ _ _ _ _ H) Hni) as (f & Hf & Hl).
  assert (Hm : mid (s <| feedback_dl_harq := f |>) n A (F ++ [pid]) R pid h).
  { eapply mid_move; [exact H|exact Hl|done..|solve_moves]. }
  destruct (mid_set _ _ _ _ _ _ _ (scheduled h fb) Hm) as [Hs Hm'].
  by exists f; eexists.
Qed.

Lemma not_in_lists (A F R : list Z) pid : pid ∉ A ++ F ++ R -> pid ∉ A /\ pid ∉ F /\ pid ∉ R.
Proof. rewrite !elem_of_app. tauto. Qed.

Definition fb_ok (fb : Z * Z) : Prop := 0 <= fst fb < 1024 /\ 0 <= snd fb < 65536.

(** [h'] is [h] with the bytes of a new block *)
Record filled (pid TBS : Z) (pdu : list Z) (h h' : NR_UE_harq_t) : Prop := {
  fl_waiting : is_waiting h' = is_waiting h;
  fl_ndi : ndi h' = ndi h;
  fl_round : round h' = 0;
  fl_frame : feedback_frame h' = feedback_frame h;
  fl_pid : sched_pid h' = pid;
  fl_tbs : 0 < sched_tbs h' <= Z.of_nat (length (transportBlock h'));
  fl_data : p_data h' = pdu }.

Lemma send_block_new s n A F R pid h TBS pdu : mid s n A F R pid h -> round h = 0 ->
  tx_ok max (last_sent (sent s)) (Sent pid (ndi h) 0 pdu) = true ->
  0 < TBS < 2 ^ 32 -> Z.of_nat (length pdu) = TBS ->
  exists s' h', send_block s pid TBS pdu = Ok s' /\ mid s' n A F R pid h' /\ filled pid TBS pdu h h' /\
    sent s' = sent s ++ [Sent pid (ndi h) 0 pdu] /\
    last_sent (sent s') pid = Some (ndi h, 0, pdu).
Proof.
  intros H Hr Htx HT Hp. unfold send_block. rewrite (mid_get _ _ _ _ _ _ _ H). cbn [res_bind].
  destruct (count_round _ _ _ _ _ _ _ H) as (k & r & -> & Hset & H2); [lia|].
  cbn [res_bind]. rewrite Hset. cbn [res_bind]. rewrite (proj2 (Z.eqb_eq (round h) 0) Hr). cbn [negb].
  destruct (fill_ok (transportBlock h) TBS pdu HT Hp) as (buf & buf' & Ha & Hm & Ht & Hlen).
  rewrite Ha. cbn [res_bind]. rewrite Hm. cbn [res_bind]. set (h3 := _ <| sched_tbs := TBS |>).
  destruct (mid_set _ _ _ _ _ _ _ h3 H2) as [Hset3 H3]. rewrite Hset3. cbn [res_bind].
  assert (Hdata : p_data h3 = pdu) by done.
  rewrite (saved_read h3 TBS), Hdata by (done || (cbn; lia)). cbn [res_bind].
  change (round h3) with (round h). change (ndi h3) with (ndi h). rewrite Hr.
  destruct (mid_sent _ _ _ _ _ _ _ (ndi h) 0 pdu H3 Htx) as [H4 Hlast].
  eexists _, h3. split; [done|]. split; [exact H4|]. split; [|done].
  split; try done; cbn; lia.
Qed.

Lemma tx_new s pid nd pdu :
  (forall n r d, last_sent (sent s) pid = Some (n, r, d) -> n <> nd) ->
  tx_ok max (last_sent (sent s)) (Sent pid nd 0 pdu) = true.
Proof.
  intros Hl. cbn. destruct (last_sent (sent s) pid) as [[[n0 r0] d0]|]; [|done].
  specialize (Hl _ _ _ eq_refl). by rewrite (proj2 (Z.eqb_neq nd n0)) by congruence.
Qed.

(** a new block on a process with feedback *)
Lemma send_new s n A F R pid h fb TBS pdu : mid s n A F R pid h -> pid ∉ A ++ F ++ R ->
  p_free pid (last_sent (sent s) pid) h -> disabled pid = false -> fb_ok fb ->
  0 < TBS < 2 ^ 32 -> Z.of_nat (length pdu) = TBS ->
  exists s', send_process s pid (Some fb) TBS pdu = Ok s' /\ good s' n A (F ++ [pid]) R.
Proof.
  intros H Hni (Hw & Hr & Hl) Hd [Hff _] HT Hp. unfold send_process.
  rewrite (mid_get _ _ _ _ _ _ _ H). cbn [res_bind]. rewrite Hw. destruct fb as [fr sl]. cbn [fst] in Hff.
  destruct (to_feedback _ _ _ _ _ _ _ (fr, sl) H Hni) as (f & s1 & -> & Hset & H1 & Hs1).
  cbn [res_bind]. unfold scheduled in Hset. cbn [fst snd] in Hset. rewrite Hset. cbn [res_bind].
  destruct (send_block_new _ _ _ _ _ _ _ TBS pdu H1) as (s' & h' & Hs' & H' & [] & _ & Hlast); try done.
  { apply tx_new. rewrite Hs1. intros n0 r0 d0 He. specialize (Hl _ _ _ He). by rewrite Hd in Hl. }
  exists s'. split; [done|]. apply not_in_lists in Hni as (NA & NF & NR).
  eapply mid_close; [exact H'|intros ?; by exfalso|intros _|intros ?; by exfalso].
  rewrite Hlast. split; [done|]. rewrite fl_round0. split; [lia|]. split; [by split|].
  rewrite fl_frame0, fl_ndi0, fl_data0. split; [|done]. cbn. unfold u16. rewrite Z.mod_small by lia. lia.
Qed.

(** a new block on a process without feedback *)
Lemma send_disabled s n A F R pid h TBS pdu : mid s n A F R pid h -> pid ∉ A ++ F ++ R ->
  p_free pid (last_sent (sent s) pid) h -> disabled pid = true ->
  0 < TBS < 2 ^ 32 -> Z.of_nat (length pdu) = TBS ->
  exists s', send_process s pid None TBS pdu = Ok s' /\ good s' n (A ++ [pid]) F R.
Proof.
  intros H Hni (Hw & Hr & Hl) Hd HT Hp. unfold send_process.
  rewrite (mid_get _ _ _ _ _ _ _ H). cbn [res_bind]. rewrite Hw.
  destruct (finish_ok _ _ _ _ _ _ _ H Hni) as (s1 & -> & H1 & Hf1). cbn [res_bind].
  destruct (send_block_new _ _ _ _ _ _ _ TBS pdu H1) as (s' & h' & Hs' & H' & [] & _ & Hlast); try done.
  { apply tx_new. rewrite (fr_sent _ _ _ Hf1). intros n0 r0 d0 He. specialize (Hl _ _ _ He).
    rewrite Hd in Hl. cbn. pose proof (lxor_1_ne (ndi h)). congruence. }
  exists s'. split; [done|]. apply not_in_lists in Hni as (NA & NF & NR).
  eapply mid_close; [exact H'|intros _|intros ?; by exfalso|intros ?; by exfalso].
  rewrite Hlast. split; [by rewrite fl_waiting0|]. split; [done|].
  intros n0 r0 d0 [= <- _ _]. rewrite Hd. by rewrite fl_ndi0.
Qed.

(** the same block again *)
Lemma send_again s n A F R pid h fb pdu : mid s n A F R pid h -> pid ∉ A ++ F ++ R ->
  p_retx pid (last_sent (sent s) pid) h -> fb_ok fb ->
  exists s', send_process s pid (Some fb) (sched_tbs h) pdu = Ok s' /\ good s' n A (F ++ [pid]) R.
Proof.
  intros H Hni (Hw & Hr & Hsv & Hl) [Hff _]. unfold send_process, send_block.
  rewrite (mid_get _ _ _ _ _ _ _ H). cbn [res_bind]. rewrite Hw. destruct fb as [fr sl]. cbn [fst] in Hff.
  destruct (to_feedback _ _ _ _ _ _ _ (fr, sl) H Hni) as (f & s1 & -> & Hset & H1 & Hs1).
  cbn [res_bind]. unfold scheduled in Hset. cbn [fst snd] in Hset. rewrite Hset. cbn [res_bind].
  rewrite (mid_get _ _ _ _ _ _ _ H1). cbn [res_bind]. set (h1 := scheduled h (fr, sl)) in *.
  destruct (count_round _ _ _ _ _ _ _ H1) as (k & r & -> & Hset2 & H2); [cbn; lia|].
  cbn [res_bind]. rewrite Hset2. cbn [res_bind].
  change (round h1) with (round h). change (sched_tbs h1) with (sched_tbs h).
  rewrite (proj2 (Z.eqb_neq (round h) 0)), Z.eqb_refl by lia. cbn [negb res_bind].
  destruct (mid_set _ _ _ _ _ _ _ h1 H2) as [Hset3 H3]. rewrite Hset3. cbn [res_bind].
  rewrite (saved_read h1 (sched_tbs h)) by (done || apply Hsv). cbn [res_bind].
  destruct (mid_sent _ _ _ _ _ _ _ (ndi h1) (round h1) (p_data h1) H3) as [H4 Hlast].
  { cbn. rewrite Hs1, Hl. change (p_data h1) with (p_data h). rewrite !Z.eqb_refl, bool_decide_true by done.
    lia. }
  apply not_in_lists in Hni as (NA & NF & NR).
  eexists. split; [done|].
  eapply mid_close; [exact H4|intros ?; by exfalso|intros _|intros ?; by exfalso].
  rewrite Hlast. split; [done|]. change (round h1) with (round h). split; [lia|]. split; [done|].
  split; [|done]. cbn. unfold u16. rewrite Z.mod_small by lia. lia.
Qed.

(** *** The scheduler *)

Lemma disabled_ok pid : 0 <= pid < NR_MAX_HARQ_PROCESSES ->
  get_FeedbackDisabled bitmap pid = Ok (disabled pid).
Proof.
  intros Hp. unfold disabled, get_FeedbackDisabled. destruct bitmap as [b|]; [|done].
  specialize (Hbitmap b eq_refl). unfold NR_MAX_HARQ_PROCESSES in Hp.
  rewrite Z.quot_div_nonneg by lia.
  destruct (arr_get_lt b (Z.to_nat (pid / 8))) as (x & _ & ->); [|done].
  Z.to_euclidean_division_equations. lia.
Qed.

Lemma good_head_proc s n A F R P pid : good s n A F R ->
  proc_ok P (harq_processes s) (last_sent (sent s)) pid -> 0 <= pid ->
  exists h, get_harq s pid = Ok h /\ harq_processes s !! Z.to_nat pid = Some h /\
    P pid (last_sent (sent s) pid) h.
Proof.
  intros H (h & Hh & HP) Hp. exists h. split; [|done]. unfold get_harq.
  rewrite (proj2 (Z.ltb_ge pid 0)) by lia. by apply arr_get_ok.
Qed.

Lemma schedule_new_ok s n A F R fb TBS pdu : good s n A F R -> fb_ok fb ->
  0 < TBS < 2 ^ 32 -> Z.of_nat (length pdu) = TBS ->
  exists s' A' F', schedule_new s bitmap fb TBS pdu = Ok s' /\ good s' n A' F' R /\
    A' ++ F' ++ R ≡ₚ A ++ F ++ R.
Proof.
  intros H Hfb HT Hp. unfold schedule_new. pose proof (gd_lists _ _ _ _ _ H) as Hl.
  rewrite (nl_head _ _ (ls_avail _ _ _ _ _ Hl)).
  destruct A as [|pid A]; [by exists s, [], F|]. cbn [hd_error default from_option id].
  assert (Hin : pid ∈ (pid :: A) ++ F ++ R) by left.
  pose proof (lists_range _ _ _ _ _ _ Hl Hin) as Hpid. pose proof (gd_n _ _ _ _ _ H) as Hn.
  rewrite (proj2 (Z.ltb_ge pid 0)), disabled_ok by lia. cbn [res_bind].
  destruct (good_head_proc _ _ _ _ _ p_free pid H) as (h & Hg & Hh & Hfree);
    [apply (po_free _ _ _ _ _ _ _ (gd_procs _ _ _ _ _ H)); [left|apply not_elem_of_nil]|lia|].
  unfold transmit_dl, take_process. rewrite (proj2 (Z.ltb_ge pid 0)), Hg by lia. cbn [res_bind].
  rewrite (proj1 (proj2 Hfree)). cbn [Z.eqb].
  destruct (take_avail _ _ _ _ _ _ Hl) as (a & -> & Hni & Hl'). cbn [res_bind].
  destruct (good_mid s (s <| available_dl_harq := a |>) n A F R (pid :: A) F R pid H Hin Hl')
    as [h' Hm]; [done..|solve_moves|].
  assert (h' = h) as ->.
  { pose proof (md_proc _ _ _ _ _ _ _ Hm) as Hh'. cbn in Hh'. congruence. }
  destruct (disabled pid) eqn:Ed.
  - destruct (send_disabled _ _ _ _ _ _ _ TBS pdu Hm Hni Hfree Ed HT Hp) as (s' & -> & H').
    exists s', (A ++ [pid]), F. split; [done|]. split; [done|]. apply perm_avail.
  - destruct (send_new _ _ _ _ _ _ _ fb TBS pdu Hm Hni Hfree Ed Hfb HT Hp) as (s' & -> & H').
    exists s', A, (F ++ [pid]). split; [done|]. split; [done|]. apply perm_fb.
Qed.

Lemma schedule_retx_ok s n A F R fb : good s n A F R -> fb_ok fb ->
  exists s' F' R', schedule_retx s bitmap fb = Ok s' /\ good s' n A F' R' /\
    A ++ F' ++ R' ≡ₚ A ++ F ++ R.
Proof.
  intros H Hfb. unfold schedule_retx. pose proof (gd_lists _ _ _ _ _ H) as Hl.
  rewrite (nl_head _ _ (ls_retx _ _ _ _ _ Hl)).
  destruct R as [|pid R]; [by exists s, F, []|]. cbn [hd_error default from_option id].
  assert (Hin : pid ∈ A ++ F ++ pid :: R) by (rewrite !elem_of_app; right; right; left).
  pose proof (lists_range _ _ _ _ _ _ Hl Hin) as Hpid. pose proof (gd_n _ _ _ _ _ H) as Hn.
  destruct (good_head_proc _ _ _ _ _ p_retx pid H) as (h & Hg & Hh & Hretx);
    [apply (po_retx _ _ _ _ _ _ _ (gd_procs _ _ _ _ _ H)); [left|apply not_elem_of_nil]|lia|].
  pose proof Hretx as (_ & Hr & (Hd & Hsp & _) & _).
  rewrite (proj2 (Z.ltb_ge pid 0)), Hg by lia. cbn [res_bind].
  rewrite disabled_ok, Hd by lia. cbn [res_bind]. rewrite Hsp.
  unfold transmit_dl, take_process. rewrite (proj2 (Z.ltb_ge pid 0)), Hg by lia. cbn [res_bind].
  rewrite (proj2 (Z.eqb_neq (round h) 0)) by lia.
  destruct (take_retx _ _ _ _ _ _ Hl) as (r & -> & Hni & Hl'). cbn [res_bind].
  destruct (good_mid s (s <| retrans_dl_harq := r |>) n A F R A F (pid :: R) pid H Hin Hl')
    as [h' Hm]; [done..|solve_moves|].
  assert (h' = h) as ->.
  { pose proof (md_proc _ _ _ _ _ _ _ Hm) as Hh'. cbn in Hh'. congruence. }
  destruct (send_again _ _ _ _ _ _ _ fb [] Hm Hni Hretx Hfb) as (s' & -> & H').
  exists s', (F ++ [pid]), R. split; [done|]. split; [done|]. by rewrite perm_fb, perm_retx_front.
Qed.

(** *** Reset and configuration *)

Lemma move_all_ok fuel from to F A : nr_list from F -> nr_list to A -> len to = len from ->
  NoDup (A ++ F) -> (length F < fuel)%nat ->
  exists from' to', move_all fuel from to = Ok (from', to') /\ nr_list from' [] /\
    nr_list to' (A ++ F) /\ len from' = len from /\ len to' = len to.
Proof.
  revert from to A F. induction fuel as [|fuel IH]; intros from to A F HF HA Hl Hd Hf; [lia|].
  cbn [move_all]. rewrite (nl_head _ _ HF). destruct F as [|x F]; cbn [hd_error default from_option id].
  - rewrite app_nil_r. by exists from, to.
  - pose proof (nl_range _ _ HF) as [Hx _]%Forall_cons. rewrite (proj2 (Z.ltb_ge x 0)) by lia.
    destruct (remove_front_ok _ _ _ HF) as (from1 & -> & HF1 & Hl1). cbn [res_bind].
    assert (Hni : x ∉ A). { apply NoDup_app in Hd as (_ & Hd & _). intros Hin. apply (Hd x Hin). left. }
    destruct (add_tail_ok _ _ x HA) as (to1 & -> & HA1 & Hl2); [lia|done|]. cbn [res_bind].
    destruct (IH from1 to1 (A ++ [x]) F HF1 HA1) as (from' & to' & -> & HF' & HA' & Hl3 & Hl4);
      [lia|by rewrite <- app_assoc|cbn in Hf; lia|].
    rewrite <- app_assoc in HA'. exists from', to'. do 3 (split; [done|]). lia.
Qed.

Lemma fuel_ok l ids : nr_list l ids -> (length ids < S (Z.to_nat (len l)))%nat.
Proof. intros H. pose proof (nodup_range_length _ _ (nl_nodup _ _ H) (nl_range _ _ H)). lia. Qed.

Lemma reset_process_ok pid h : p_free pid None (reset_process h).
Proof. done. Qed.

Lemma reset_ok s n A F R : good s n A F R ->
  exists s', reset_dl_harq_list s = Ok s' /\ good s' n ((A ++ F) ++ R) [] [].
Proof.
  intros [[HA HF HR Ea Ef Er Hd] Hn Hr Hs Hp]. unfold reset_dl_harq_list.
  assert (Hd1 : NoDup (A ++ F)) by (rewrite app_assoc in Hd; by apply NoDup_app in Hd as [? _]).
  destruct (move_all_ok _ _ _ _ _ HF HA ltac:(lia) Hd1 (fuel_ok _ _ HF)) as (f & a & -> & HF' & HA' & L1 & L2).
  cbn [res_bind].
  destruct (move_all_ok _ _ _ _ _ HR HA' ltac:(lia) ltac:(by rewrite <- app_assoc) (fuel_ok _ _ HR))
    as (r & a' & -> & HR' & HA'' & L3 & L4). cbn [res_bind].
  eexists. split; [done|].
  assert (Hproc : forall pid, 0 <= pid < NR_MAX_HARQ_PROCESSES ->
    proc_ok p_free (reset_process <$> harq_processes s) (fun _ => None) pid).
  { intros pid Hpid. destruct (lookup_lt_is_Some_2 (harq_processes s) (Z.to_nat pid)) as [h Hh].
    { rewrite (po_len _ _ _ _ _ _ _ Hp). lia. }
    exists (reset_process h). rewrite list_lookup_fmap, Hh. split; [done|apply reset_process_ok]. }
  split; cbn; try done.
  - split; cbn; try done; try lia. by rewrite !app_nil_r, <- app_assoc.
  - by rewrite sent_ok_snoc, Hs.
  - rewrite last_sent_snoc. cbn. split; try (intros ? Hin; by apply not_elem_of_nil in Hin).
    + rewrite length_fmap. apply Hp.
    + intros pid Hin _. apply Hproc. pose proof (nl_range _ _ HA'') as Hra.
      rewrite Forall_forall in Hra. specialize (Hra pid Hin). lia.
    + intros pid Hpid. apply Hproc. lia.
Qed.

Lemma add_all_ok xs l ids : nr_list l ids -> NoDup (ids ++ xs) ->
  Forall (fun x => 0 <= x < len l) xs ->
  exists l', fold_res add_tail_nr_list xs l = Ok l' /\ nr_list l' (ids ++ xs) /\ len l' = len l.
Proof.
  revert l ids. induction xs as [|x xs IH]; intros l ids H Hd Hr; cbn [fold_res].
  - rewrite app_nil_r. by exists l.
  - inversion Hr; subst. assert (Hni : x ∉ ids).
    { apply NoDup_app in Hd as (_ & Hd & _). intros Hin. apply (Hd x Hin). left. }
    destruct (add_tail_ok _ _ x H) as (l1 & -> & H1 & Hl); [lia|done|]. cbn [res_bind].
    destruct (IH l1 (ids ++ [x]) H1) as (l' & -> & H' & Hl');
      [by rewrite <- app_assoc|eapply Forall_impl; [done|cbn; lia]|].
    rewrite <- app_assoc in H'. exists l'. split; [done|]. split; [done|lia].
Qed.

Lemma add_range_ok l ids from to : nr_list l ids -> Forall (fun x => x < from) ids ->
  0 <= from <= to -> to <= len l ->
  exists l', add_range l from to = Ok l' /\ nr_list l' (ids ++ seqZ from (to - from)) /\ len l' = len l.
Proof.
  intros H Hi Hft Hl. apply add_all_ok; [done|..].
  - apply NoDup_app. split; [apply H|]. split; [|apply NoDup_seqZ].
    intros x Hx [? ?]%elem_of_seqZ. rewrite Forall_forall in Hi. specialize (Hi x Hx). lia.
  - apply Forall_forall. intros x [? ?]%elem_of_seqZ. lia.
Qed.

(** the number of processes that a configuration asks for *)
Definition nrofHARQ (v1700 : bool) (nrof : option Z) (dci_00_10 : bool) : Z :=
  let k := if v1700 then 32 else
    match nrof with None => 8 | Some i => default 0 ([2; 4; 6; 10; 12; 16] !! Z.to_nat i) end in
  if dci_00_10 then Z.min k 16 else k.
Definition nrof_ok (nrof : option Z) : Prop := forall i, nrof = Some i -> 0 <= i < 6.

Lemma nrof_step v1700 nrof dci k : nrof_ok nrof ->
  get_nrofHARQ_ProcessesForPDSCH v1700 nrof = Ok k ->
  (if dci && (16 <? k) then 16 else k) = nrofHARQ v1700 nrof dci.
Proof.
  unfold get_nrofHARQ_ProcessesForPDSCH, nrofHARQ, arr_get. intros Hi Hk.
  assert (k = if v1700 then 32 else match nrof with None => 8
    | Some i => default 0 ([2; 4; 6; 10; 12; 16] !! Z.to_nat i) end) as <-.
  { destruct v1700; [by injection Hk as <-|]. destruct nrof as [i|]; [|by injection Hk as <-].
    destruct (i <? 0); [done|].
    destruct ([2; 4; 6; 10; 12; 16] !! Z.to_nat i); [by injection Hk as <-|done]. }
  destruct dci; cbn; [|done]. destruct (Z.ltb_spec 16 k); lia.
Qed.

Lemma nrof_total v1700 nrof dci : nrof_ok nrof ->
  (exists k, get_nrofHARQ_ProcessesForPDSCH v1700 nrof = Ok k) /\
  0 < nrofHARQ v1700 nrof dci <= NR_MAX_HARQ_PROCESSES.
Proof.
  intros Hi. unfold get_nrofHARQ_ProcessesForPDSCH, nrofHARQ, NR_MAX_HARQ_PROCESSES.
  destruct v1700; [split; [by eexists|destruct dci; lia]|].
  destruct nrof as [i|]; [|split; [by eexists|destruct dci; lia]].
  specialize (Hi i eq_refl). rewrite (proj2 (Z.ltb_ge i 0)) by lia.
  assert (i = 0 \/ i = 1 \/ i = 2 \/ i = 3 \/ i = 4 \/ i = 5) as Hc by lia.
  destruct Hc as [->|[->|[->|[->|[->| ->]]]]]; (split; [by eexists|by destruct dci]).
Qed.

(** more processes, all of them free *)
Lemma grow_ok s n A F R v1700 nrof dci : good s n A F R -> nrof_ok nrof ->
  n <= nrofHARQ v1700 nrof dci ->
  let m := nrofHARQ v1700 nrof dci in
  exists s', create_dl_harq_list s v1700 nrof dci = Ok s' /\ good s' m (A ++ seqZ n (m - n)) F R.
Proof.
  intros H Hi Hm m. destruct (nrof_total v1700 nrof dci Hi) as [[k Hk] Hk0].
  pose proof (nrof_step _ _ dci _ Hi Hk) as Hstep. fold m in Hm, Hstep, Hk0.
  pose proof (gd_n _ _ _ _ _ H) as Hn. pose proof (gd_lists _ _ _ _ _ H) as [HA HF HR Ea Ef Er Hd].
  unfold create_dl_harq_list. rewrite Hk. cbn [res_bind]. rewrite Hstep, Ea, Ef, Er.
  rewrite Z.eqb_refl. cbn [negb andb]. rewrite (proj2 (Z.eqb_neq n 0)) by lia.
  destruct (Z.eqb_spec n m) as [<-|Hne].
  { exists s. split; [done|]. rewrite Z.sub_diag. cbn. by rewrite app_nil_r. }
  rewrite (proj2 (Z.ltb_lt n m)) by lia. cbn [negb].
  destruct (resize_ok _ _ m HA ltac:(lia)) as (a & -> & HA' & La). cbn [res_bind].
  destruct (add_range_ok a A n m HA') as (a' & -> & HA'' & La'); [|lia..|].
  { eapply Forall_impl; [apply HA|]. cbn. lia. }
  cbn [res_bind].
  destruct (resize_ok _ _ m HF ltac:(lia)) as (f & -> & HF' & Lf). cbn [res_bind].
  destruct (resize_ok _ _ m HR ltac:(lia)) as (r & -> & HR' & Lr). cbn [res_bind].
  eexists. split; [done|]. destruct H as [Hl _ Hrd Hs Hp].
  split; cbn; try done.
  - split; cbn; try done; try lia.
    apply (NoDup_Permutation_proper (seqZ n (m - n) ++ A ++ F ++ R)).
    { rewrite <- app_assoc, Permutation_app_comm, <- app_assoc. apply Permutation_app_head.
      by rewrite Permutation_app_comm. }
    apply NoDup_app. split; [apply NoDup_seqZ|]. split; [|done].
    intros x [? ?]%elem_of_seqZ Hin. pose proof (lists_range _ _ _ _ _ _ Hl Hin). lia.
  - destruct Hp. split; try done.
    + intros pid Hin _. apply elem_of_app in Hin as [Hin|[? ?]%elem_of_seqZ]; [apply po_free0; [done|]|].
      * apply not_elem_of_nil.
      * apply po_new0. lia.
    + intros pid Hpid. apply po_new0. lia.
Qed.

Lemma create_first_ok s v1700 nrof dci : nrof_ok nrof ->
  len (available_dl_harq s) = 0 -> len (feedback_dl_harq s) = 0 -> len (retrans_dl_harq s) = 0 ->
  length (rounds s) = 8%nat -> sent s = [] -> length (harq_processes s) = Z.to_nat NR_MAX_HARQ_PROCESSES ->
  Forall (fun h => is_waiting h = false /\ round h = 0) (harq_processes s) ->
  let m := nrofHARQ v1700 nrof dci in
  exists s', create_dl_harq_list s v1700 nrof dci = Ok s' /\ good s' m (seqZ 0 m) [] [].
Proof.
  intros Hi Ea Ef Er Hr Hs Hl Hp m. destruct (nrof_total v1700 nrof dci Hi) as [[k Hk] Hk0].
  pose proof (nrof_step _ _ dci _ Hi Hk) as Hstep. fold m in Hstep, Hk0.
  unfold create_dl_harq_list. rewrite Hk. cbn [res_bind]. rewrite Hstep, Ea, Ef, Er. cbn [Z.eqb andb negb].
  destruct (create_ok m ltac:(lia)) as (a & Ha & HA & La). rewrite Ha. cbn [res_bind].
  destruct (add_range_ok a [] 0 m HA) as (a' & -> & HA' & La'); [constructor|lia..|].
  cbn [res_bind]. eexists. split; [done|]. rewrite Z.sub_0_r in HA'. cbn in HA'.
  assert (Hproc : forall pid, 0 <= pid < NR_MAX_HARQ_PROCESSES ->
    proc_ok p_free (harq_processes s) (fun _ => None) pid).
  { intros pid Hpid. destruct (lookup_lt_is_Some_2 (harq_processes s) (Z.to_nat pid)) as [h Hh]; [lia|].
    exists h. split; [done|]. destruct (Forall_lookup_1 _ _ _ _ Hp Hh). done. }
  split; cbn; try done; rewrite ?Hs; try done.
  - split; cbn; try done; try lia. rewrite app_nil_r. apply NoDup_seqZ.
  - split; try done; try (intros ? Hin; by apply not_elem_of_nil in Hin).
    + intros pid [? ?]%elem_of_seqZ _. apply Hproc. lia.
    + intros pid Hpid. apply Hproc. lia.
Qed.
End Harq.

(** ** Runs *)

Inductive dl_op :=
  | Op_new (fb : Z * Z) (TBS : Z) (pdu : list Z)
  | Op_retx (fb : Z * Z)
  | Op_uci_01 (frame slot : Z) (harq_list : list Z) (harq_confidence : Z)
  | Op_uci_234 (frame slot : Z) (harq_bit_len : nat) (harq_payload : list Z) (harq_crc : Z)
  | Op_reset
  | Op_configure (v1700 : bool) (nrof : option Z) (dci_00_10 : bool).

Definition dl_step (max : Z) (bitmap : option (list Z)) (s : dl_ctrl) (op : dl_op) : res dl_ctrl :=
  match op with
  | Op_new fb TBS pdu => schedule_new s bitmap fb TBS pdu
  | Op_retx fb => schedule_retx s bitmap fb
  | Op_uci_01 frame slot l conf => uci_01_bits s frame slot max l conf
  | Op_uci_234 frame slot n payload crc => uci_234_bits n 0 s frame slot max payload crc
  | Op_reset => reset_dl_harq_list s
  | Op_configure v1700 nrof dci => create_dl_harq_list s v1700 nrof dci
  end.

(** blocks have as many bytes as their size says, times are times, payloads
    have the bits announced, and the number of processes never shrinks *)
Fixpoint ops_ok (n : Z) (ops : list dl_op) : Prop :=
  match ops with
  | [] => True
  | op :: ops =>
    match op with
    | Op_new fb TBS pdu => fb_ok fb /\ 0 < TBS < 2 ^ 32 /\ Z.of_nat (length pdu) = TBS /\ ops_ok n ops
    | Op_retx fb => fb_ok fb /\ ops_ok n ops
    | Op_uci_01 frame _ _ _ => 0 <= frame < 1024 /\ ops_ok n ops
    | Op_uci_234 frame _ k payload _ =>
      0 <= frame < 1024 /\ Z.of_nat k <= 8 * Z.of_nat (length payload) /\ ops_ok n ops
    | Op_reset => ops_ok n ops
    | Op_configure v1700 nrof dci =>
      nrof_ok nrof /\ n <= nrofHARQ v1700 nrof dci /\ ops_ok (nrofHARQ v1700 nrof dci) ops
    end
  end.

(** a UE before its first configuration: everything is zero *)
Definition dl_init : dl_ctrl :=
  let l := mk_list 0 [] 0 0 in
  mk_dl_ctrl (replicate (Z.to_nat NR_MAX_HARQ_PROCESSES) (mk_harq false 0 0 0 0 [] 0 0)) l l l 0
    (replicate 8 0) [].

Lemma dl_run_ok max bitmap n ops s A F R : 1 <= max <= 8 ->
  (forall b, bitmap = Some b -> (4 <= length b)%nat) -> ops_ok n ops ->
  good max bitmap s n A F R -> A ++ F ++ R ≡ₚ seqZ 0 n ->
  exists s' n' A' F' R', fold_res (dl_step max bitmap) ops s = Ok s' /\
    good max bitmap s' n' A' F' R' /\ A' ++ F' ++ R' ≡ₚ seqZ 0 n'.
Proof.
  intros Hmax Hb. revert n s A F R.
  induction ops as [|op ops IH]; intros n s A F R Hops H Hp; [by exists s, n, A, F, R|].
  destruct op as [fb TBS pdu|fb|frame slot l conf|frame slot k payload crc| |v1700 nrof dci];
    cbn [ops_ok fold_res dl_step] in *.
  - destruct Hops as (Hfb & HT & Hl & Hops).
    destruct (schedule_new_ok max bitmap Hmax Hb s n A F R fb TBS pdu H Hfb HT Hl) as (s1 & A1 & F1 & -> & H1 & P1).
    apply (IH n s1 A1 F1 R); [done|done|by rewrite P1].
  - destruct Hops as (Hfb & Hops).
    destruct (schedule_retx_ok max bitmap Hmax Hb s n A F R fb H Hfb) as (s1 & F1 & R1 & -> & H1 & P1).
    apply (IH n s1 A F1 R1); [done|done|by rewrite P1].
  - destruct Hops as (Hfr & Hops).
    destruct (uci_01_ok max bitmap Hmax Hb frame slot l conf s n A F R Hfr H) as (s1 & A1 & F1 & R1 & -> & H1 & P1).
    apply (IH n s1 A1 F1 R1); [done|done|by rewrite P1].
  - destruct Hops as (Hfr & Hk & Hops).
    destruct (uci_234_ok max bitmap Hmax Hb frame slot payload crc k 0 s n A F R Hfr ltac:(lia) ltac:(lia) H)
      as (s1 & A1 & F1 & R1 & -> & H1 & P1).
    apply (IH n s1 A1 F1 R1); [done|done|by rewrite P1].
  - destruct (reset_ok max bitmap Hmax Hb s n A F R H) as (s1 & -> & H1).
    apply (IH n s1 ((A ++ F) ++ R) [] []); [done|done|by rewrite !app_nil_r, <- app_assoc].
  - destruct Hops as (Hi & Hn & Hops).
    destruct (grow_ok max bitmap Hmax Hb s n A F R v1700 nrof dci H Hi Hn) as (s1 & -> & H1).
    apply (IH _ _ _ _ _ Hops H1). set (m := nrofHARQ v1700 nrof dci) in *.
    pose proof (gd_n _ _ _ _ _ _ _ H). replace m with (n + (m - n)) at 2 by lia.
    rewrite seqZ_app by lia. rewrite <- Hp. rewrite <- !app_assoc.
    apply Permutation_app_head. rewrite Permutation_app_comm, <- app_assoc. done.
Qed.



(** ** Where the code departs from what it means *)

(** the bit after the eighth of a PUCCH of format 2, 3 or 4 is shifted out of
    its byte: it is read as a NACK, whatever the UE sent *)
Lemma uci_234_ninth_bit_nack payload i b : Forall is_byte payload -> 8 <= i ->
  acknack_234 payload i = Ok b -> b = 0.
Proof.
  intros Hp Hi. unfold acknack_234, arr_get. destruct (_ !! _) as [x|] eqn:E; [|done].
  cbn. intros [= <-]. assert (0 <= x < 256) by exact (Forall_lookup_1 _ _ _ _ Hp E).
  rewrite Z.shiftr_div_pow2, Z.div_small; [done|split; [lia|]|lia].
  assert (2 ^ 8 <= 2 ^ i) by (apply Z.pow_le_mono_r; lia). lia.
Qed.

(** the configuration does not bound the number of rounds by the size of the
    statistics: with nine rounds the last one is counted outside the array *)
Lemma ninth_round_out_of_bounds :
  let nack := Op_uci_01 10 7 [1] 0 in
  let again := [nack; Op_retx (10, 7)] in
  fold_res (dl_step 9 None)
    (Op_configure false None false :: Op_new (10, 7) 1 [0]
      :: again ++ again ++ again ++ again ++ again ++ again ++ again ++ again) dl_init
  = Err Out_of_bounds.
Proof. vm_compute. reflexivity. Qed.
