(* ===== verification/MacPdu.v ===== *)
(** * Bit fields and subheaders of a MAC PDU

    The packed structures of NR_MAC_COMMON/nr_mac.h as lists of fields from
    the lowest bit (the layout of GCC on a little-endian machine), the logical
    channel identities, and the reading of a subheader in both directions
    ([get_mac_len] of nr_mac.h for the UE, [decode_ul_mac_sub_pdu_header] of
    gNB_scheduler_ulsch.c for the gNB).

    A PDU is a block of bytes; its reader holds the position of the next
    subheader and the number of bytes it believes are left. *)
From S2P Require Import Prelude.

(** ** Bit fields *)

(** a storage unit with fields of the given widths and values; a value that
    does not fit loses its upper bits *)
Fixpoint pack (fs : list (Z * Z)) : Z :=
  match fs with
  | [] => 0
  | (w, v) :: fs => v mod 2 ^ w + 2 ^ w * pack fs
  end.
Definition width (fs : list (Z * Z)) : Z := foldr (fun f n => fst f + n) 0 fs.

(** the field of [w] bits from bit [off] *)
Definition bits (off w b : Z) : Z := Z.land (Z.shiftr b off) (Z.ones w).

(** ** Logical channel identities *)

Definition DL_SCH_LCID_CCCH : Z := 0.
Definition DL_SCH_LCID_RECOMMENDED_BITRATE : Z := 47.
Definition DL_SCH_LCID_SP_ZP_CSI_RS_RES_SET_ACT : Z := 48.
Definition DL_SCH_LCID_PUCCH_SPATIAL_RELATION_ACT : Z := 49.
Definition DL_SCH_LCID_SP_SRS_ACTIVATION : Z := 50.
Definition DL_SCH_LCID_SP_CSI_REP_PUCCH_ACT : Z := 51.
Definition DL_SCH_LCID_TCI_STATE_IND_UE_SPEC_PDCCH : Z := 52.
Definition DL_SCH_LCID_TCI_STATE_ACT_UE_SPEC_PDSCH : Z := 53.
Definition DL_SCH_LCID_APERIODIC_CSI_TRI_STATE_SUBSEL : Z := 54.
Definition DL_SCH_LCID_SP_CSI_RS_CSI_IM_RES_SET_ACT : Z := 55.
Definition DL_SCH_LCID_DUPLICATION_ACT : Z := 56.
Definition DL_SCH_LCID_SCell_ACT_4_OCT : Z := 57.
Definition DL_SCH_LCID_SCell_ACT_1_OCT : Z := 58.
Definition DL_SCH_LCID_L_DRX : Z := 59.
Definition DL_SCH_LCID_DRX : Z := 60.
Definition DL_SCH_LCID_TA_COMMAND : Z := 61.
Definition DL_SCH_LCID_CON_RES_ID : Z := 62.
Definition DL_SCH_LCID_PADDING : Z := 63.

Definition UL_SCH_LCID_CCCH_64_BITS : Z := 0.
Definition UL_SCH_LCID_SRB1 : Z := 1.
Definition UL_SCH_LCID_SRB2 : Z := 2.
Definition UL_SCH_LCID_DTCH : Z := 4.
Definition UL_SCH_LCID_CCCH_48_BITS_REDCAP : Z := 35.
Definition UL_SCH_LCID_CCCH_48_BITS : Z := 52.
Definition UL_SCH_LCID_RECOMMENDED_BITRATE_QUERY : Z := 53.
Definition UL_SCH_LCID_MULTI_ENTRY_PHR_4_OCT : Z := 54.
Definition UL_SCH_LCID_CONFIGURED_GRANT_CONFIRMATION : Z := 55.
Definition UL_SCH_LCID_MULTI_ENTRY_PHR_1_OCT : Z := 56.
Definition UL_SCH_LCID_SINGLE_ENTRY_PHR : Z := 57.
Definition UL_SCH_LCID_C_RNTI : Z := 58.
Definition UL_SCH_LCID_S_TRUNCATED_BSR : Z := 59.
Definition UL_SCH_LCID_L_TRUNCATED_BSR : Z := 60.
Definition UL_SCH_LCID_S_BSR : Z := 61.
Definition UL_SCH_LCID_L_BSR : Z := 62.
Definition UL_SCH_LCID_PADDING : Z := 63.

(** ** Subheaders *)

Definition NR_MAC_SUBHEADER_FIXED (R LCID : Z) : list Z := [pack [(6, LCID); (2, R)]].
Definition NR_MAC_SUBHEADER_SHORT (R F LCID L : Z) : list Z :=
  [pack [(6, LCID); (1, F); (1, R)]; u8 L].
(** with [L] in network byte order, as [htons] leaves it *)
Definition NR_MAC_SUBHEADER_LONG (R F LCID L : Z) : list Z :=
  [pack [(6, LCID); (1, F); (1, R)]; Z.shiftr (u16 L) 8; Z.land (u16 L) 255].

(** byte [i] of the PDU *)
Definition pdu_at (pdu : list Z) (i : Z) : res Z :=
  if i <? 0 then Err Out_of_bounds else arr_get pdu (Z.to_nat i).

(** The result with [mac_ce_len] and [mac_subheader_len], which keep the
    caller's values [len0] and [sub0] where the function leaves them alone. *)
Definition get_mac_len (pdu : list Z) (pos pdu_len len0 sub0 : Z) : res (bool * Z * Z) :=
  if pdu_len <? 2 then Ok (false, len0, sub0) else
  let* b := pdu_at pdu pos in
  let F := bits 6 1 b in
  if negb (F =? 0) && (pdu_len <? 3) then Ok (false, len0, sub0) else
  let* '(ce_len, sub) :=
    if negb (F =? 0) then
      let* h := pdu_at pdu (pos + 1) in
      let* l := pdu_at pdu (pos + 2) in
      Ok (256 * h + l, 3)
    else let* l := pdu_at pdu (pos + 1) in Ok (l, 2) in
  Ok (negb (pdu_len <? ce_len), ce_len, sub).

(** the channels that carry SDUs with a length *)
Definition ul_has_length (lcid : Z) : bool :=
  (lcid =? UL_SCH_LCID_SRB1) || (lcid =? UL_SCH_LCID_SRB2)
  || ((UL_SCH_LCID_DTCH <=? lcid) && (lcid <=? UL_SCH_LCID_DTCH + 28))
  || (lcid =? UL_SCH_LCID_L_TRUNCATED_BSR) || (lcid =? UL_SCH_LCID_L_BSR).

(** the length of the subheader, the identity and the length of the payload,
    which keeps the caller's [len0] for padding and unknown identities *)
Definition decode_ul_mac_sub_pdu_header (pdu : list Z) (pos len0 : Z) : res (Z * Z * Z) :=
  let* b := pdu_at pdu pos in
  let lcid := Z.land b 63 in
  if lcid =? UL_SCH_LCID_CCCH_64_BITS then Ok (1, lcid, 8)
  else if ul_has_length lcid then
    if negb (Z.land b 64 =? 0) then
      let* h := pdu_at pdu (pos + 1) in
      let* l := pdu_at pdu (pos + 2) in
      Ok (3, lcid, Z.shiftl h 8 + l)
    else let* l := pdu_at pdu (pos + 1) in Ok (2, lcid, l)
  else if (lcid =? UL_SCH_LCID_CCCH_48_BITS_REDCAP) || (lcid =? UL_SCH_LCID_CCCH_48_BITS) then Ok (1, lcid, 6)
  else if (lcid =? UL_SCH_LCID_SINGLE_ENTRY_PHR) || (lcid =? UL_SCH_LCID_C_RNTI) then Ok (1, lcid, 2)
  else if (lcid =? UL_SCH_LCID_S_TRUNCATED_BSR) || (lcid =? UL_SCH_LCID_S_BSR) then Ok (1, lcid, 1)
  else Ok (1, lcid, len0).

(** ** Lemmas *)

Lemma bits_eq off w b : 0 <= off -> 0 <= w -> bits off w b = b / 2 ^ off mod 2 ^ w.
Proof. intros. unfold bits. by rewrite Z.land_ones, Z.shiftr_div_pow2. Qed.

Lemma bits_range off w b : 0 <= off -> 0 <= w -> 0 <= bits off w b < 2 ^ w.
Proof. intros. rewrite bits_eq by done. apply Z.mod_pos_bound, Z.pow_pos_nonneg; lia. Qed.

Lemma bits_head w v fs : 0 <= w -> bits 0 w (pack ((w, v) :: fs)) = v mod 2 ^ w.
Proof.
  intros. rewrite bits_eq by lia. cbn [pack]. rewrite Z.pow_0_r, Z.div_1_r.
  rewrite (Z.mul_comm (2 ^ w)), Z_mod_plus_full. apply Z.mod_mod. apply Z.pow_nonzero; lia.
Qed.

Lemma bits_tail off w w' v fs : 0 <= w -> w <= off -> 0 <= w' ->
  bits off w' (pack ((w, v) :: fs)) = bits (off - w) w' (pack fs).
Proof.
  intros. rewrite !bits_eq by lia. cbn [pack]. f_equal.
  replace off with (w + (off - w)) at 1 by lia. rewrite Z.pow_add_r by lia.
  rewrite <- Z.div_div by (try apply Z.pow_nonzero; try apply Z.pow_pos_nonneg; lia).
  f_equal. rewrite (Z.mul_comm (2 ^ w)), Z_div_plus by (apply Z.lt_gt, Z.pow_pos_nonneg; lia).
  rewrite Z.div_small; [lia|]. apply Z.mod_pos_bound, Z.pow_pos_nonneg; lia.
Qed.

Lemma pack_range fs : Forall (fun f => 0 <= fst f) fs -> 0 <= pack fs < 2 ^ width fs.
Proof.
  induction 1 as [|[w v] fs Hw _ IH]; [cbn; lia|]. cbn [pack width foldr fst] in *. fold (width fs).
  assert (0 <= width fs). { destruct (Z.le_gt_cases 0 (width fs)) as [|Hn]; [done|].
    rewrite Z.pow_neg_r in IH by lia. lia. }
  rewrite Z.pow_add_r by lia. pose proof (Z.mod_pos_bound v (2 ^ w) ltac:(apply Z.pow_pos_nonneg; lia)). nia.
Qed.

(** the fields of a structure, by evaluation *)
Ltac solve_bits :=
  repeat (first [rewrite bits_head by lia | rewrite bits_tail by lia]); cbn [Z.sub Z.pow_pos].
