(* ===== verification/MacRlc.v ===== *)
(** * What the MAC asks of the RLC

    The MAC of both sides fetches SDUs with [nr_mac_rlc_data_req].  [RlcData]
    is that function over a state of the RLC; [RlcDataLaws] is what the
    theorems on the MAC use of it, with an invariant that the client chooses
    and that sees the SDUs handed over so far with their channels. *)
From S2P Require Import Prelude.

Class RlcData (St : Type) := rlc_data_req : St -> Z -> Z -> res (St * list Z).

(** [nr_mac_rlc_status_ind]: the bytes in the buffer of a channel *)
Class RlcStatus (St : Type) := rlc_status_ind : St -> Z -> res (St * Z).

(** the log after a request *)
Definition log_sdu (log : list (Z * list Z)) (lcid : Z) (sdu : list Z) : list (Z * list Z) :=
  match sdu with [] => log | _ => log ++ [(lcid, sdu)] end.

Class RlcDataLaws (St : Type) `{RlcData St} (lcs : list Z) (Inv : St -> list (Z * list Z) -> Prop) := {
  rlc_data_ok s log lcid n : Inv s log -> lcid ∈ lcs -> 0 <= n ->
    exists s' sdu, rlc_data_req s lcid n = Ok (s', sdu) /\
      Z.of_nat (length sdu) <= n /\ Z.of_nat (length sdu) < 65536 /\
      Inv s' (log_sdu log lcid sdu) }.

(** an RLC of queues of PDUs, one per channel, each given when it fits *)
Definition pdu_queues := Z -> list (list Z).
#[export] Instance queues_data : RlcData pdu_queues := fun q lcid n =>
  match q lcid with
  | pdu :: rest => if Z.of_nat (length pdu) <=? n
      then Ok (fun l => if l =? lcid then rest else q l, pdu) else Ok (q, [])
  | [] => Ok (q, [])
  end.
#[export] Instance queues_laws lcs :
  RlcDataLaws pdu_queues lcs (fun q _ => forall l, Forall (fun p : list Z => Z.of_nat (length p) < 65536) (q l)).
Proof.
  constructor. intros q log lcid n Hq _ Hn. unfold rlc_data_req, queues_data.
  destruct (q lcid) as [|pdu rest] eqn:E; [exists q, []; by split_and!; [|cbn; lia| |]|].
  pose proof (Hq lcid) as H. rewrite E in H. inversion H as [|? ? Hp Hr]; subst.
  destruct (Z.leb_spec (Z.of_nat (length pdu)) n).
  - eexists _, pdu. split_and!; [done|lia|lia|]. intros l. cbn. case_match; [done|apply Hq].
  - exists q, []. split_and!; [done|cbn; lia|done|done].
Qed.
