(* ===== verification/MacDl.v ===== *)
(** * Downlink MAC PDUs of the gNB

    The MAC control elements ([nr_write_ce_dlsch_pdu] of
    gNB_scheduler_dlsch.c), the transport block with the SDUs of the logical
    channels (the initial transmission in [nr_schedule_ue_spec]) and the
    messages of random access: [nr_fill_rar], [nr_fill_successrar] and the
    payload of Msg4 or MsgB of gNB_scheduler_RA.c.

    A writer gives the bytes it appends at its pointer.  The RLC is the
    interface [RlcData] with its own state, which may write fewer bytes than
    the MAC asks for. *)
From S2P Require Import Prelude MacPdu MacRlc.

(** ** What the control elements are made of (nr_mac_gNB.h) *)

Record sp_zp_csirs_t := mk_zp {
  zp_is_scheduled : bool; zp_act_deact : bool; zp_serv_cell_id : Z; zp_bwpid : Z; zp_rsc_id : Z }.
Record csi_rs_im_t := mk_im {
  im_is_scheduled : bool; im_act_deact : bool; im_serv_cellid : Z; im_bwp_id : Z; im_im : bool;
  im_csi_im_rsc_id : Z; im_nzp_csi_rsc_id : Z; im_nb_tci_resource_set_id : Z; im_tci_state_id : list Z }.
Record pdcchStateInd_t := mk_pdcch {
  pi_is_scheduled : bool; pi_servingCellId : Z; pi_coresetId : Z; pi_tciStateId : Z }.
Record SPCSIReportingpucch_t := mk_spcsi {
  sr_is_scheduled : bool; sr_servingCellId : Z; sr_bwpId : Z; sr_s0tos3_actDeact : list bool;
  sr_R1 : Z            (** what the stack holds in the field [R1], which is never assigned *) }.
(** [aperiodicCSI_triggerStateSelection_t] and [pdschTciStatesActDeact_t] *)
Record state_list_t := mk_states {
  sl_is_scheduled : bool; sl_servingCellId : Z; sl_bwpId : Z; sl_highest : Z; sl_states : list bool }.

Record NR_UE_mac_ce_ctrl_t := mk_ce_ctrl {
  ta_apply : bool;     (** these two are fields of NR_UE_sched_ctrl_t *)
  ta_update : Z;
  sp_zp_csi_rs : sp_zp_csirs_t;
  csi_im : csi_rs_im_t;
  pdcch_state_ind : pdcchStateInd_t;
  SP_CSI_reporting_pucch : SPCSIReportingpucch_t;
  aperi_CSI_trigger : state_list_t;
  pdsch_TCI_States_ActDeact : state_list_t }.
#[export] Instance eta_NR_UE_mac_ce_ctrl_t : Eta NR_UE_mac_ce_ctrl_t :=
  fun c => mk_ce_ctrl (ta_apply c) (ta_update c) (sp_zp_csi_rs c) (csi_im c) (pdcch_state_ind c)
    (SP_CSI_reporting_pucch c) (aperi_CSI_trigger c) (pdsch_TCI_States_ActDeact c).

(** ** Control elements *)

Definition drx_ce (drx_cmd : Z) : list Z :=
  if negb (drx_cmd =? 255) then NR_MAC_SUBHEADER_FIXED 0 DL_SCH_LCID_DRX else [].

Definition ta_ce (c : NR_UE_mac_ce_ctrl_t) (tag_id : Z) : res (list Z) :=
  if ta_apply c then
    if negb (ta_update c <? 64) then Err Exit
    else Ok (NR_MAC_SUBHEADER_FIXED 0 DL_SCH_LCID_TA_COMMAND ++ [pack [(6, ta_update c); (2, tag_id)]])
  else Ok [].

Definition con_res_ce (ue_cont_res_id : option (list Z)) : res (list Z) :=
  match ue_cont_res_id with
  | None => Ok []
  | Some id =>
    let* id := mem_read id 0 6 in
    Ok (NR_MAC_SUBHEADER_FIXED 0 DL_SCH_LCID_CON_RES_ID ++ id)
  end.

Definition tci_pdcch_ce (p : pdcchStateInd_t) : list Z :=
  if pi_is_scheduled p then
    NR_MAC_SUBHEADER_FIXED 0 DL_SCH_LCID_TCI_STATE_IND_UE_SPEC_PDCCH ++
    [pack [(3, Z.shiftr (Z.land (pi_coresetId p) 15) 1); (5, Z.land (pi_servingCellId p) 31)];
     pack [(7, Z.land (pi_tciStateId p) 127); (1, Z.land (pi_coresetId p) 1)]]
  else [].

Definition sp_csi_ce (s : SPCSIReportingpucch_t) : res (list Z) :=
  if sr_is_scheduled s then
    let* s0 := arr_get (sr_s0tos3_actDeact s) 0 in
    let* s1 := arr_get (sr_s0tos3_actDeact s) 1 in
    let* s2 := arr_get (sr_s0tos3_actDeact s) 2 in
    let* s3 := arr_get (sr_s0tos3_actDeact s) 3 in
    Ok (NR_MAC_SUBHEADER_FIXED 0 DL_SCH_LCID_SP_CSI_REP_PUCCH_ACT ++
        [pack [(2, Z.land (sr_bwpId s) 3); (5, Z.land (sr_servingCellId s) 31); (1, sr_R1 s)];
         pack [(1, Z.b2z s0); (1, Z.b2z s1); (1, Z.b2z s2); (1, Z.b2z s3); (4, 0)]])
  else Ok [].

(** the octets [T] with a bit for each state *)
Definition state_octets (num_octects : nat) (states : list bool) : res (list Z) :=
  fold_res (fun T i =>
      let* b := arr_get states i in
      if b : bool then
        let* t := arr_get T (Nat.div i 8) in
        arr_set T (Nat.div i 8) (Z.lor t (Z.shiftl 1 (Z.of_nat (Nat.modulo i 8))))
      else Ok T)
    (seq 0 (8 * num_octects)) (replicate num_octects 0).

(** the control element of variable size for the states [s] *)
Definition states_ce (lcid : Z) (s : state_list_t) : res (list Z) :=
  if sl_is_scheduled s then
    let num_octects := u8 (sl_highest s `quot` 8 + 1) in
    let* T := state_octets (Z.to_nat num_octects) (sl_states s) in
    Ok (NR_MAC_SUBHEADER_SHORT 0 0 lcid (1 + num_octects) ++
        pack [(2, Z.land (sl_bwpId s) 3); (5, Z.land (sl_servingCellId s) 31); (1, 0)] :: T)
  else Ok [].

Definition sp_zp_ce (z : sp_zp_csirs_t) : list Z :=
  if zp_is_scheduled z then
    NR_MAC_SUBHEADER_FIXED 0 DL_SCH_LCID_SP_ZP_CSI_RS_RES_SET_ACT ++
    [pack [(2, Z.land (zp_bwpid z) 3); (5, Z.land (zp_serv_cell_id z) 31); (1, Z.b2z (zp_act_deact z))];
     pack [(4, Z.land (zp_rsc_id z) 15); (4, 0)]]
  else [].

(** the TCI states of an activation *)
Definition tci_states (ids : list Z) (n : Z) : res (list Z) :=
  fold_res (fun acc i => let* id := arr_get ids i in Ok (acc ++ [pack [(6, Z.land id 127); (2, 0)]]))
    (seq 0 (Z.to_nat n)) [].

Definition csi_im_ce (c : csi_rs_im_t) : res (list Z) :=
  if im_is_scheduled c then
    let* tci := if im_act_deact c then tci_states (im_tci_state_id c) (im_nb_tci_resource_set_id c) else Ok [] in
    Ok (NR_MAC_SUBHEADER_FIXED 0 DL_SCH_LCID_SP_CSI_RS_CSI_IM_RES_SET_ACT ++
        [pack [(2, im_bwp_id c); (5, Z.land (im_serv_cellid c) 63); (1, Z.b2z (im_act_deact c))];
         pack [(6, im_nzp_csi_rsc_id c); (1, Z.b2z (im_im c)); (1, 0)]] ++
        (if im_im c then [pack [(6, im_csi_im_rsc_id c); (2, 0)]] else []) ++ tci)
  else Ok [].

Definition nr_write_ce_dlsch_pdu (c : NR_UE_mac_ce_ctrl_t) (tag_id drx_cmd : Z)
    (ue_cont_res_id : option (list Z)) : res (list Z) :=
  let* ta := ta_ce c tag_id in
  let* cr := con_res_ce ue_cont_res_id in
  let* csi := sp_csi_ce (SP_CSI_reporting_pucch c) in
  let* tci := states_ce DL_SCH_LCID_TCI_STATE_ACT_UE_SPEC_PDSCH (pdsch_TCI_States_ActDeact c) in
  let* trig := states_ce DL_SCH_LCID_APERIODIC_CSI_TRI_STATE_SUBSEL (aperi_CSI_trigger c) in
  let* im := csi_im_ce (csi_im c) in
  Ok (drx_ce drx_cmd ++ ta ++ cr ++ tci_pdcch_ce (pdcch_state_ind c) ++ csi ++ tci ++ trig
      ++ sp_zp_ce (sp_zp_csi_rs c) ++ im).

(** ** The transport block *)

(** [padding->R = 0; padding->LCID = PADDING; memset(buf, 0, bufEnd - buf)] *)
Definition pad (room : Z) : list Z :=
  if 0 <? room then NR_MAC_SUBHEADER_FIXED 0 DL_SCH_LCID_PADDING ++ replicate (Z.to_nat (room - 1)) 0 else [].

(** counters of [UE->mac_stats.dl] *)
Record dl_pdu_stats := mk_dl_stats {
  total_bytes : Z; current_bytes : Z; num_mac_sdu : Z; total_sdu_bytes : Z; lc_bytes : list Z }.
#[export] Instance eta_dl_pdu_stats : Eta dl_pdu_stats :=
  fun s => mk_dl_stats (total_bytes s) (current_bytes s) (num_mac_sdu s) (total_sdu_bytes s) (lc_bytes s).

Section Rlc.
Context `{RlcData St}.

(** The subPDUs of one logical channel in the [room] bytes that are left,
    with the bytes of SDUs and their number.  An SDU that is longer than the
    MAC asked for is a write behind the buffer. *)
Fixpoint lc_sub_pdus (fuel : nat) (s : St) (lcid bytes_in_buffer room : Z) : res (St * list Z * Z * Z) :=
  match fuel with
  | O => Err No_fuel
  | S fuel =>
    if negb (3 + 1 <? room) then Ok (s, [], 0, 0) else
    let ndata := Z.min bytes_in_buffer (room - 3) in
    let* '(s, sdu) := rlc_data_req s lcid ndata in
    let len := Z.of_nat (length sdu) in
    if room - 3 <? len then Err Out_of_bounds
    else if len =? 0 then Ok (s, [], 0, 0)
    else
      let* '(s, rest, bytes, sdus) := lc_sub_pdus fuel s lcid bytes_in_buffer (room - (len + 3)) in
      Ok (s, NR_MAC_SUBHEADER_LONG 0 1 lcid len ++ sdu ++ rest, len + bytes, sdus + 1)
  end.

(** all logical channels in their order; [rlc_status] gives the bytes in the
    buffer of each *)
Fixpoint lcs_sub_pdus (lcs : list Z) (rlc_status : list Z) (s : St) (room : Z) (st : dl_pdu_stats)
  : res (St * list Z * dl_pdu_stats) :=
  match lcs with
  | [] => Ok (s, [], st)
  | lcid :: lcs =>
    let* n := arr_get rlc_status (Z.to_nat lcid) in
    if n =? 0 then lcs_sub_pdus lcs rlc_status s room st else
    let* '(s, out, bytes, sdus) := lc_sub_pdus (S (Z.to_nat room)) s lcid n room in
    let* b := arr_get (lc_bytes st) (Z.to_nat lcid) in
    let* lcb := arr_set (lc_bytes st) (Z.to_nat lcid) (u64 (b + bytes)) in
    let st := st <| lc_bytes := lcb |> <| num_mac_sdu := u64 (num_mac_sdu st + sdus) |>
                 <| total_sdu_bytes := u64 (total_sdu_bytes st + bytes) |> in
    let* '(s, rest, st) := lcs_sub_pdus lcs rlc_status s (room - Z.of_nat (length out)) st in
    Ok (s, out ++ rest, st)
  end.

(** [random] gives the bytes of [lrand48] when the MAC is tested without
    upper layers *)
Definition random_sub_pdu (random : option (Z -> list Z)) (room : Z) : list Z * Z :=
  match random with
  | Some r =>
    if 3 <? room then (NR_MAC_SUBHEADER_LONG 0 1 DL_SCH_LCID_PADDING (room - 3) ++ r (room - 3), 1)
    else ([], 0)
  | None => ([], 0)
  end.

(** the transport block of an initial transmission and [ta_apply] afterwards *)
Definition dlsch_pdu (c : NR_UE_mac_ce_ctrl_t) (tag_id num_total_bytes : Z) (lcs rlc_status : list Z)
    (random : option (Z -> list Z)) (s : St) (TBS : Z) (st : dl_pdu_stats)
  : res (St * list Z * dl_pdu_stats * NR_UE_mac_ce_ctrl_t) :=
  let* ces := nr_write_ce_dlsch_pdu c tag_id 255 None in
  let written := Z.of_nat (length ces) in
  if negb (written <? TBS) then Err Exit else
  let* '(s, body, st) :=
    if 0 <? num_total_bytes then lcs_sub_pdus lcs rlc_status s (TBS - written) st
    else
      let '(body, n) := random_sub_pdu random (TBS - written) in
      Ok (s, body, st <| num_mac_sdu := u64 (num_mac_sdu st + n) |>) in
  let pdu := ces ++ body ++ pad (TBS - written - Z.of_nat (length body)) in
  let st := st <| total_bytes := u64 (total_bytes st + TBS) |> <| current_bytes := TBS |> in
  Ok (s, pdu, st, c <| ta_apply := false |>).

(** ** Messages of random access *)

(** [nr_fill_successrar] *)
Definition nr_fill_successrar (ta_update tpc0 crnti : Z) (ue_cont_res_id : list Z)
    (resource_indicator timing_indicator : Z) : res (list Z) :=
  let* id := mem_read ue_cont_res_id 0 6 in
  Ok ([pack [(4, 0); (1, 0); (1, 0); (1, 0); (1, 1)];
       pack [(4, 0); (1, 0); (1, 1); (1, 0); (1, 0)]] ++ id ++
      [pack [(3, timing_indicator); (2, tpc0); (2, 1); (1, 0)];
       pack [(4, u8 (Z.shiftr ta_update 8)); (4, resource_indicator)];
       u8 (Z.land ta_update 255); u8 (Z.shiftr crnti 8); u8 (Z.land crnti 255)]).

(** the transport block of Msg4 ([RA_4_STEP]) or MsgB: the message of random
    access, the SDU of the SRB and padding; [CCCH_SDU_SIZE] bytes are asked for *)
Definition CCCH_SDU_SIZE : Z := 1024.
Definition msg4_pdu (two_step : bool) (c : NR_UE_mac_ce_ctrl_t) (tag_id tpc0 crnti : Z)
    (cont_res_id : list Z) (resource_indicator timing_indicator lcid tb_size : Z) (s : St)
  : res (St * list Z) :=
  let* head :=
    if two_step then nr_fill_successrar (ta_update c) tpc0 crnti cont_res_id resource_indicator timing_indicator
    else nr_write_ce_dlsch_pdu c tag_id 255 (Some cont_res_id) in
  let* '(s, sdu) := rlc_data_req s lcid CCCH_SDU_SIZE in
  let mac_sdu_length := Z.of_nat (length sdu) in
  let pdu := head ++ (if mac_sdu_length <? 256 then NR_MAC_SUBHEADER_SHORT 0 0 lcid mac_sdu_length
                      else NR_MAC_SUBHEADER_LONG 0 1 lcid mac_sdu_length) ++ sdu in
  Ok (s, take (Z.to_nat tb_size) (pdu ++ pad (tb_size - Z.of_nat (length pdu)))).
End Rlc.

(** [PRBalloc_to_locationandbandwidth0] of nr_common.c *)
Definition PRBalloc_to_locationandbandwidth0 (NPRB RBstart BWPsize : Z) : res Z :=
  if negb ((0 <? NPRB) && (NPRB + RBstart <=? BWPsize)) then Err Exit
  else if NPRB <=? 1 + Z.shiftr BWPsize 1 then Ok (BWPsize * (NPRB - 1) + RBstart)
  else Ok (BWPsize * (BWPsize + 1 - NPRB) + (BWPsize - 1 - RBstart)).

(** what [nr_fill_rar] takes from the random access procedure and the PUSCH *)
Record rar_in := mk_rar_in {
  preamble_index : Z; timing_offset : Z; rar_rnti : Z; frequency_hopping : Z; bwp_size : Z;
  msg3_nb_rb : Z; msg3_first_rb : Z; msg3_TPC : Z; mcs_index : Z; Msg3_tda_id : Z }.
#[export] Instance eta_rar_in : Eta rar_in :=
  fun r => mk_rar_in (preamble_index r) (timing_offset r) (rar_rnti r) (frequency_hopping r) (bwp_size r)
    (msg3_nb_rb r) (msg3_first_rb r) (msg3_TPC r) (mcs_index r) (Msg3_tda_id r).

Definition rar_ul_grant (r : rar_in) : res Z :=
  let* prb_alloc := PRBalloc_to_locationandbandwidth0 (msg3_nb_rb r) (msg3_first_rb r) (bwp_size r) in
  let f_alloc := Z.land prb_alloc (Z.shiftl 1 14 - 1) in
  Ok (u32 (Z.lor (Z.lor (Z.lor (Z.lor (Z.lor 0 (Z.shiftl (msg3_TPC r) 1)) (Z.shiftl (mcs_index r) 4))
        (Z.shiftl (Msg3_tda_id r) 8)) (Z.shiftl f_alloc 12)) (Z.shiftl (frequency_hopping r) 26))).

(** the bytes of the response, and the procedure with its power command reset
    for retransmissions of Msg3 *)
Definition nr_fill_rar (r : rar_in) : res (list Z * rar_in) :=
  if negb (frequency_hopping r =? 0) then Err Exit else
  let* ul_grant := rar_ul_grant r in
  Ok ([pack [(4, 0); (2, 0); (1, 0); (1, 1)];
      pack [(6, preamble_index r); (1, 1); (1, 0)];
      pack [(7, u8 (Z.shiftr (timing_offset r) 5)); (1, 0)];
      pack [(3, Z.land (u8 (Z.shiftr ul_grant 24)) 7); (5, u8 (Z.land (timing_offset r) 31))];
      Z.land (u8 (Z.shiftr ul_grant 16)) 255; Z.land (u8 (Z.shiftr ul_grant 8)) 255;
      Z.land (u8 ul_grant) 255; u8 (Z.shiftr (rar_rnti r) 8); u8 (Z.land (rar_rnti r) 255)],
      r <| msg3_TPC := 1 |>).
