(* ===== verification/MacDlUe.v ===== *)
(** * Downlink MAC PDUs at the UE

    The parser of a transport block ([nr_ue_process_mac_pdu]) with the
    successRAR of MsgB ([nr_ue_validate_successrar]), and the random access
    response ([nr_ue_process_rar]); NR_MAC_UE/nr_ue_procedures.c and
    nr_ra_procedures.c.

    Indications to the RLC and the RRC and the use of timers are a trace. *)
From S2P Require Import Prelude MacPdu.

Inductive nrRA_UE_state_t :=
  | nrRA_UE_IDLE | nrRA_GENERATE_PREAMBLE | nrRA_WAIT_RAR | nrRA_WAIT_MSGB
  | nrRA_WAIT_CONTENTION_RESOLUTION | nrRA_SUCCEEDED | nrRA_FAILED.
#[export] Instance nrRA_UE_state_t_eq_dec : EqDecision nrRA_UE_state_t.
Proof. solve_decision. Defined.

Inductive ta_type_t := no_ta | adjustment_ta | rar_ta.

Inductive timer := Response_window | Contention_resolution | Time_alignment.

Inductive ue_event :=
  | Rlc_data_ind (lcid : Z) (data : list Z)
  | Rrc_ra_ind (success : bool)
  | Rrc_msg3_ind (rnti : Z) (prepare_payload : bool)
  | Timer_start (t : timer)
  | Timer_stop (t : timer)
  | Timer_suspension (t : timer)
  | Backoff (limit : Z)                (** a random time of less than [limit] slots *)
  | Schedule_msg3 (mcs t_alloc f_alloc freq_hopping : Z).

Record RA_config_t := mk_ra {
  ra_state : nrRA_UE_state_t;
  cfra : bool;
  two_step : bool;                     (** [ra_type == RA_2_STEP] *)
  MsgB_R : Z; MsgB_CH_ACESS_CPEXT : Z; MsgB_TPC : Z; MsgB_HARQ_FTI : Z;
  timing_advance_command : Z;
  PUCCH_RI : Z;
  t_crnti : Z;
  RA_active : bool;
  ra_PreambleIndex : Z;
  RA_backoff_limit : Z;
  scaling_factor_bi : Z;
  preambleTransMax : Z;
  preamble_tx_counter : Z;
  Msg3_TPC : Z;
  cont_res_id : list Z }.
#[export] Instance eta_RA_config_t : Eta RA_config_t :=
  fun r => mk_ra (ra_state r) (cfra r) (two_step r) (MsgB_R r) (MsgB_CH_ACESS_CPEXT r) (MsgB_TPC r)
    (MsgB_HARQ_FTI r) (timing_advance_command r) (PUCCH_RI r) (t_crnti r) (RA_active r)
    (ra_PreambleIndex r) (RA_backoff_limit r) (scaling_factor_bi r) (preambleTransMax r)
    (preamble_tx_counter r) (Msg3_TPC r) (cont_res_id r).

Record NR_UL_TIME_ALIGNMENT_t := mk_ta {
  ue_ta_apply : ta_type_t; ta_command : Z; ta_frame : Z; ta_slot : Z }.

Record NR_UE_MAC_INST_t := mk_ue {
  crnti : Z;
  msg3_C_RNTI : bool;
  connected : bool;                    (** [state == UE_CONNECTED] *)
  tag_Id : Z;
  lc_ordered_list : list (Z * bool);   (** identity and [rb_suspended] *)
  ra : RA_config_t;
  ul_time_alignment : NR_UL_TIME_ALIGNMENT_t;
  ue_trace : list ue_event }.
#[export] Instance eta_NR_UE_MAC_INST_t : Eta NR_UE_MAC_INST_t :=
  fun m => mk_ue (crnti m) (msg3_C_RNTI m) (connected m) (tag_Id m) (lc_ordered_list m) (ra m)
    (ul_time_alignment m) (ue_trace m).

Definition ue_emit (m : NR_UE_MAC_INST_t) (l : list ue_event) : NR_UE_MAC_INST_t :=
  m <| ue_trace := ue_trace m ++ l |>.

Definition is_lcid_suspended (m : NR_UE_MAC_INST_t) (lcid : Z) : bool :=
  match list_find (fun lc : Z * bool => fst lc = lcid) (lc_ordered_list m) with
  | Some (_, (_, suspended)) => suspended
  | None => false
  end.

(** [table_7_2_1] has 16 entries, the last two of them 0 *)
Definition table_7_2_1 : list Z := [5; 10; 20; 30; 40; 60; 80; 120; 160; 240; 320; 480; 960; 1920; 0; 0].

Section Ue.
(** where the PDU was received, slots per frame, the offset of a
    non-terrestrial network, and whether IQ samples are replayed *)
Context (frame slot n_slots_frame ntn_ue_koffset : Z) (iqplayer : bool).

Definition set_time_alignment (m : NR_UE_MAC_INST_t) (ta : Z) (type : ta_type_t) (frame slot : Z)
  : NR_UE_MAC_INST_t :=
  ue_emit (m <| ul_time_alignment :=
      mk_ta type ta ((frame + (slot + ntn_ue_koffset) `quot` n_slots_frame) `rem` 1024)
        ((slot + ntn_ue_koffset) `rem` n_slots_frame) |>)
    [Timer_start Time_alignment].

Definition check_ra_contention_resolution (pdu cont_res : list Z) : bool :=
  iqplayer || bool_decide (take 6 pdu = take 6 cont_res).

Definition nr_ra_succeeded (m : NR_UE_MAC_INST_t) : NR_UE_MAC_INST_t :=
  let m :=
    if cfra (ra m) then m
    else ue_emit (m <| crnti := t_crnti (ra m) |> <| ra := ra m <| t_crnti := 0 |> |>)
           [Timer_stop Contention_resolution] in
  ue_emit (m <| ra := ra m <| RA_active := false |> <| ra_state := nrRA_SUCCEEDED |> |>
             <| msg3_C_RNTI := false |> <| connected := true |>)
    [Rrc_ra_ind true].

Definition nr_ra_backoff_setting (m : NR_UE_MAC_INST_t) : NR_UE_MAC_INST_t :=
  ue_emit m [Backoff (RA_backoff_limit (ra m))].

Definition nr_ra_contention_resolution_failed (m : NR_UE_MAC_INST_t) : NR_UE_MAC_INST_t :=
  let counter := u8 (preamble_tx_counter (ra m) + 1) in
  let m := ue_emit (m <| ra := ra m <| t_crnti := 0 |> <| preamble_tx_counter := counter |> |>)
             [Rrc_msg3_ind 0 true] in
  if counter =? preambleTransMax (ra m) + 1 then ue_emit m [Rrc_ra_ind false]
  else nr_ra_backoff_setting m.

(** ** MsgB *)

Definition backoff_limit (m : NR_UE_MAC_INST_t) (b : Z) : res Z :=
  let* t := arr_get table_7_2_1 (Z.to_nat (Z.land b 15)) in
  Ok (t * scaling_factor_bi (ra m) * (n_slots_frame `quot` 10)).

(** a successRAR of 11 bytes *)
Definition success_rar (m : NR_UE_MAC_INST_t) (b : list Z) : NR_UE_MAC_INST_t :=
  let at_ i := nth i b 0 in
  let m := m <| ra := ra m
      <| MsgB_R := 0 |>
      <| MsgB_CH_ACESS_CPEXT := Z.land (Z.shiftr (at_ 6%nat) 5) 3 |>
      <| MsgB_TPC := Z.land (Z.shiftr (at_ 6%nat) 3) 3 |>
      <| MsgB_HARQ_FTI := Z.land (at_ 6%nat) 7 |>
      <| PUCCH_RI := Z.land (Z.shiftr (at_ 7%nat) 4) 15 |>
      <| timing_advance_command := Z.lor (u16 (Z.shiftl (Z.land (at_ 7%nat) 15) 8)) (at_ 8%nat) |>
      <| t_crnti := Z.lor (u16 (Z.shiftl (at_ 9%nat) 8)) (at_ 10%nat) |> |> in
  let ra_success := check_ra_contention_resolution b (cont_res_id (ra m)) in
  if RA_active (ra m) && ra_success then nr_ra_succeeded (ue_emit m [Timer_stop Response_window])
  else if negb ra_success then nr_ra_backoff_setting m
  else m.

Fixpoint successrar_loop (fuel : nat) (pdu : list Z) (pdu_len n E : Z) (m : NR_UE_MAC_INST_t)
  : res (NR_UE_MAC_INST_t * Z) :=
  match fuel with
  | O => Err No_fuel
  | S fuel =>
    if negb ((n <? pdu_len) && negb (E =? 0)) then Ok (m, n) else
    let* b := pdu_at pdu n in
    let E := bits 7 1 b in
    if bits 6 1 b =? 0 then
      if bits 5 1 b =? 0 then
        let* limit := backoff_limit m b in
        successrar_loop fuel pdu pdu_len (n + 1) E (m <| ra := ra m <| RA_backoff_limit := limit |> |>)
      else
        let* rar := mem_read pdu (n + 1) 11 in
        successrar_loop fuel pdu pdu_len (n + 12) E (success_rar m rar)
    else Err Exit
  end.

Definition nr_ue_validate_successrar (pdu : list Z) (pdu_len : Z) (m : NR_UE_MAC_INST_t)
  : res (NR_UE_MAC_INST_t * Z) :=
  let m := m <| ra := ra m <| RA_backoff_limit := 0 |> |> in
  let* '(m, n) := successrar_loop (S (Z.to_nat pdu_len)) pdu pdu_len 0 1 m in
  let* b := pdu_at pdu 1 in
  Ok (set_time_alignment m (bits 0 6 b) adjustment_ta frame slot, n).

(** ** Transport blocks *)

(** how the subPDU ends: the loop goes on behind it, or it is the last one,
    or the function returns *)
Inductive sub_pdu_end := Next (mac_subheader_len mac_len : Z) | Done | Return.

Definition variable_ce (rx_lcid : Z) : bool :=
  (rx_lcid =? DL_SCH_LCID_TCI_STATE_ACT_UE_SPEC_PDSCH) || (rx_lcid =? DL_SCH_LCID_APERIODIC_CSI_TRI_STATE_SUBSEL)
  || (rx_lcid =? DL_SCH_LCID_SP_CSI_RS_CSI_IM_RES_SET_ACT) || (rx_lcid =? DL_SCH_LCID_SP_SRS_ACTIVATION).

(** the control elements of fixed size that are skipped *)
Definition fixed_ce (rx_lcid : Z) : option Z :=
  if rx_lcid =? DL_SCH_LCID_RECOMMENDED_BITRATE then Some 2
  else if rx_lcid =? DL_SCH_LCID_SP_ZP_CSI_RS_RES_SET_ACT then Some 2
  else if rx_lcid =? DL_SCH_LCID_PUCCH_SPATIAL_RELATION_ACT then Some 3
  else if rx_lcid =? DL_SCH_LCID_SP_CSI_REP_PUCCH_ACT then Some 2
  else if rx_lcid =? DL_SCH_LCID_TCI_STATE_IND_UE_SPEC_PDCCH then Some 2
  else if rx_lcid =? DL_SCH_LCID_DUPLICATION_ACT then Some 1
  else if rx_lcid =? DL_SCH_LCID_SCell_ACT_4_OCT then Some 4
  else if rx_lcid =? DL_SCH_LCID_SCell_ACT_1_OCT then Some 1
  else if rx_lcid =? DL_SCH_LCID_L_DRX then Some 0
  else if rx_lcid =? DL_SCH_LCID_DRX then Some 0
  else None.

Definition ccch_sub_pdu (m : NR_UE_MAC_INST_t) (pdu : list Z) (pos pdu_len : Z)
  : res (NR_UE_MAC_INST_t * sub_pdu_end) :=
  let* '(ret, mac_len, sub) := get_mac_len pdu pos pdu_len 0 1 in
  if negb ret then Err Exit else
  let* all := mem_read pdu pos (sub + mac_len) in
  if forallb (Z.eqb 0) all then Ok (m, Done)
  else if 0 <? mac_len then
    let* data := mem_read pdu (pos + sub) mac_len in
    Ok (ue_emit m [Rlc_data_ind DL_SCH_LCID_CCCH data], Next sub mac_len)
  else Ok (m, Next sub mac_len).

Definition ta_sub_pdu (m : NR_UE_MAC_INST_t) (pdu : list Z) (pos : Z)
  : res (NR_UE_MAC_INST_t * sub_pdu_end) :=
  let* b := pdu_at pdu (pos + 1) in
  if negb (bits 6 2 b =? tag_Id m) then Ok (m, Done)
  else Ok (set_time_alignment m (bits 0 6 b) adjustment_ta frame slot, Next 1 1).

Definition con_res_sub_pdu (m : NR_UE_MAC_INST_t) (pdu : list Z) (pos : Z)
  : res (NR_UE_MAC_INST_t * sub_pdu_end) :=
  if bool_decide (ra_state (ra m) = nrRA_WAIT_CONTENTION_RESOLUTION) then
    let m := ue_emit m [Timer_stop Contention_resolution] in
    let* id := mem_read pdu (pos + 1) 6 in
    let ra_success := check_ra_contention_resolution id (cont_res_id (ra m)) in
    if RA_active (ra m) && ra_success then Ok (nr_ra_succeeded m, Next 1 6)
    else if negb ra_success then Ok (nr_ra_contention_resolution_failed m, Return)
    else Ok (m, Next 1 6)
  else Ok (m, Next 1 6).

Definition sdu_sub_pdu (m : NR_UE_MAC_INST_t) (pdu : list Z) (pos pdu_len rx_lcid : Z)
  : res (NR_UE_MAC_INST_t * sub_pdu_end) :=
  let* '(ret, mac_len, sub) := get_mac_len pdu pos pdu_len 0 1 in
  if negb ret then Ok (m, Return)
  else if is_lcid_suspended m rx_lcid then Ok (m, Next sub mac_len)
  else
    let* data := mem_read pdu (pos + sub) mac_len in
    Ok (ue_emit m [Rlc_data_ind rx_lcid data], Next sub mac_len).

(** the switch of the loop *)
Definition dl_sub_pdu (m : NR_UE_MAC_INST_t) (pdu : list Z) (pos pdu_len : Z)
  : res (NR_UE_MAC_INST_t * sub_pdu_end) :=
  let* b := pdu_at pdu pos in
  let rx_lcid := bits 0 6 b in
  if rx_lcid =? DL_SCH_LCID_CCCH then ccch_sub_pdu m pdu pos pdu_len
  else if variable_ce rx_lcid then
    let* '(_, mac_len, sub) := get_mac_len pdu pos pdu_len 0 1 in
    Ok (m, Next sub mac_len)
  else match fixed_ce rx_lcid with
  | Some mac_len => Ok (m, Next 1 mac_len)
  | None =>
    if rx_lcid =? DL_SCH_LCID_TA_COMMAND then ta_sub_pdu m pdu pos
    else if rx_lcid =? DL_SCH_LCID_CON_RES_ID then con_res_sub_pdu m pdu pos
    else if rx_lcid =? DL_SCH_LCID_PADDING then Ok (m, Done)
    else if (1 <=? rx_lcid) && (rx_lcid <=? 32) then sdu_sub_pdu m pdu pos pdu_len rx_lcid
    else Ok (m, Next 1 0)
  end.

Fixpoint dl_sub_pdus (fuel : nat) (m : NR_UE_MAC_INST_t) (pdu : list Z) (pos pdu_len : Z)
  : res NR_UE_MAC_INST_t :=
  match fuel with
  | O => Err No_fuel
  | S fuel =>
    if negb (0 <? pdu_len) then Ok m else
    let* '(m, e) := dl_sub_pdu m pdu pos pdu_len in
    match e with
    | Next sub mac_len => dl_sub_pdus fuel m pdu (pos + (sub + mac_len)) (pdu_len - (sub + mac_len))
    | Done | Return => Ok m
    end
  end.

(** the PDU is the whole buffer of [pdu_len] bytes *)
Definition nr_ue_process_mac_pdu (m : NR_UE_MAC_INST_t) (pdu : list Z) : res NR_UE_MAC_INST_t :=
  let pdu_len := Z.of_nat (length pdu) in
  let* '(m, n) :=
    if two_step (ra m) && bool_decide (ra_state (ra m) = nrRA_WAIT_MSGB)
    then nr_ue_validate_successrar pdu pdu_len m
    else Ok (m, 0) in
  dl_sub_pdus (S (length pdu)) m pdu n (pdu_len - n).

(** ** Random access response *)

(** what the reception of a RAR takes from the configuration: whether there is
    a time domain allocation for an index, the answer of
    [nr_ue_pusch_scheduler] with frame and slot, and whether the
    timeAlignmentTimer runs *)
Record rar_env := mk_rar_env {
  tda_valid : Z -> bool; pusch_scheduled : bool; frame_tx : Z; slot_tx : Z; ta_timer_active : bool }.

(** [rar]: the 7 bytes of a NR_MAC_RAR *)
Definition handle_rar_reception (e : rar_env) (m : NR_UE_MAC_INST_t) (rar : list Z) : NR_UE_MAC_INST_t :=
  let at_ i := nth i rar 0 in
  let UL_GRANT_1 := bits 0 3 (at_ 1%nat) in
  let UL_GRANT_2 := at_ 2%nat in
  let UL_GRANT_3 := at_ 3%nat in
  let UL_GRANT_4 := at_ 4%nat in
  let tpc_command := Z.land (Z.shiftr UL_GRANT_4 1) 7 in
  let m := m <| ra := ra m <| Msg3_TPC := Z.shiftl tpc_command 1 - 6 |> |> in
  let mcs := Z.shiftr UL_GRANT_4 4 in
  let t_alloc := Z.land UL_GRANT_3 15 in
  let f_alloc := u16 (Z.lor (Z.lor (Z.shiftr UL_GRANT_3 4) (Z.shiftl UL_GRANT_2 4))
                        (Z.shiftl (Z.land UL_GRANT_1 3) 12)) in
  let freq_hopping := Z.shiftr UL_GRANT_1 2 in
  if negb (tda_valid e t_alloc) then ue_emit m [Timer_suspension Response_window] else
  let m :=
    if negb (ta_timer_active e) then
      set_time_alignment m (bits 3 5 (at_ 1%nat) + Z.shiftl (bits 0 7 (at_ 0%nat)) 5) rar_ta
        (frame_tx e) (slot_tx e)
    else m in
  if negb (pusch_scheduled e) then m else
  let m :=
    if cfra (ra m) then m
    else
      let rnti := u16 (at_ 6%nat + Z.shiftl (at_ 5%nat) 8) in
      let m := m <| ra := ra m <| t_crnti := rnti |> |> in
      if negb (msg3_C_RNTI m) then ue_emit m [Rrc_msg3_ind rnti false] else m in
  ue_emit m [Schedule_msg3 mcs t_alloc f_alloc freq_hopping].

Fixpoint rar_loop (fuel : nat) (e : rar_env) (buf : list Z) (rarh n_subheaders n_subPDUs : Z)
    (m : NR_UE_MAC_INST_t) : res NR_UE_MAC_INST_t :=
  match fuel with
  | O => Err No_fuel
  | S fuel =>
    let n_subheaders := u8 (n_subheaders + 1) in
    let* b := pdu_at buf rarh in
    if bits 6 1 b =? 1 then
      let n_subPDUs := u8 (n_subPDUs + 1) in
      if bits 0 6 b =? ra_PreambleIndex (ra m) then
        let m := ue_emit m [Timer_stop Response_window] in
        let* rar := mem_read buf (n_subheaders + (n_subPDUs - 1) * 7) 7 in
        let m := handle_rar_reception e m rar in
        Ok (if cfra (ra m) then nr_ra_succeeded m else m)
      else if bits 7 1 b =? 0 then Ok (ue_emit m [Timer_suspension Response_window])
      else rar_loop fuel e buf (rarh + (7 + 1)) n_subheaders n_subPDUs m
    else
      let* limit := backoff_limit m b in
      let m := m <| ra := ra m <| RA_backoff_limit := limit |> |> in
      if bits 7 1 b =? 1 then rar_loop fuel e buf (rarh + 1) n_subheaders n_subPDUs m else Ok m
  end.

(** [ack_nack]: whether the CRC was correct *)
Definition nr_ue_process_rar (e : rar_env) (m : NR_UE_MAC_INST_t) (ack_nack : bool) (buf : list Z)
  : res NR_UE_MAC_INST_t :=
  if negb ack_nack then Ok m else
  rar_loop (S (length buf)) e buf 0 0 0
    (m <| ra := ra m <| t_crnti := 0 |> <| RA_backoff_limit := 0 |> |>).
End Ue.

(** the blocks of a resource indication value, as [NRRIV2BW] and
    [NRRIV2PRBOFFSET] of nr_common.c decode it *)
Definition NRRIV2BW (locationAndBandwidth N_RB : Z) : Z :=
  let tmp := locationAndBandwidth `quot` N_RB in
  let tmp2 := locationAndBandwidth `rem` N_RB in
  if (tmp <=? Z.shiftr N_RB 1 + 1) && (tmp + tmp2 <? N_RB) then tmp + 1 else N_RB + 1 - tmp.
Definition NRRIV2PRBOFFSET (locationAndBandwidth N_RB : Z) : Z :=
  let tmp := locationAndBandwidth `quot` N_RB in
  let tmp2 := locationAndBandwidth `rem` N_RB in
  if (tmp <=? Z.shiftr N_RB 1 + 1) && (tmp + tmp2 <? N_RB) then tmp2 else N_RB - 1 - tmp2.
