(* ===== verification/MacDlSpec.v ===== *)
(** * From the MAC of the gNB to the MAC of the UE

    Every transport block that the gNB builds is parsed by the UE into the
    commands and the SDUs that went into it, in their order; the messages of
    random access arrive with their fields; and the places where the two sides
    or the code and its intention differ. *)
From S2P Require Import Prelude MacPdu MacRlc MacDl MacDlUe.

(** ** Reading behind a prefix *)

Abbreviation blen l := (Z.of_nat (length l)).

Lemma pdu_at_app pre l k : 0 <= k -> pdu_at (pre ++ l) (blen pre + k) = pdu_at l k.
Proof.
  intros Hk. unfold pdu_at. destruct (Z.ltb_spec (blen pre + k) 0); [lia|].
  destruct (Z.ltb_spec k 0); [lia|]. unfold arr_get. f_equal.
  rewrite lookup_app_r by lia. f_equal. lia.
Qed.

Lemma mem_read_app pre l k n : 0 <= k -> mem_read (pre ++ l) (blen pre + k) n = mem_read l k n.
Proof.
  intros Hk. unfold mem_read. rewrite length_app.
  replace (blen pre + k <? 0) with (k <? 0) by (destruct (Z.ltb_spec k 0); destruct (Z.ltb_spec (blen pre + k) 0); lia).
  replace (Z.of_nat (length pre + length l) <? blen pre + k + n) with (blen l <? k + n)
    by (destruct (Z.ltb_spec (blen l) (k + n)); destruct (Z.ltb_spec (Z.of_nat (length pre + length l)) (blen pre + k + n)); lia).
  case_match; [done|]. do 2 f_equal.
  replace (Z.to_nat (blen pre + k)) with (length pre + Z.to_nat k)%nat by lia.
  by rewrite drop_app_add'.
Qed.

Lemma pdu_at_cons_0 b l : pdu_at (b :: l) 0 = Ok b.
Proof. done. Qed.
Lemma pdu_at_cons b l k : 0 < k -> pdu_at (b :: l) k = pdu_at l (k - 1).
Proof.
  intros. unfold pdu_at. destruct (Z.ltb_spec k 0); [lia|]. destruct (Z.ltb_spec (k - 1) 0); [lia|].
  unfold arr_get. replace (Z.to_nat k) with (S (Z.to_nat (k - 1))) by lia. done.
Qed.

Lemma u16_split n : 0 <= n < 65536 -> 256 * Z.shiftr (u16 n) 8 + Z.land (u16 n) 255 = n.
Proof.
  intros. unfold u16. rewrite Z.mod_small by lia.
  change 255 with (Z.ones 8). rewrite Z.land_ones, Z.shiftr_div_pow2 by lia. change (2 ^ 8) with 256.
  rewrite (Z.div_mod n 256) at 3 by lia. lia.
Qed.

(** ** Parsing a sequence of subPDUs *)

Section Ue.
Context (frame slot n_slots_frame ntn_ue_koffset : Z) (iqplayer : bool).
Abbreviation dl_sub_pdu := (dl_sub_pdu frame slot n_slots_frame ntn_ue_koffset iqplayer).
Abbreviation dl_sub_pdus := (dl_sub_pdus frame slot n_slots_frame ntn_ue_koffset iqplayer).

(** the loop takes [m] to [m'] over the bytes [chunk] *)
Definition parses (chunk : list Z) (m m' : NR_UE_MAC_INST_t) : Prop :=
  forall fuel pre rest, (length (chunk ++ rest) < fuel)%nat ->
  exists fuel', (length rest < fuel')%nat /\
    dl_sub_pdus fuel m (pre ++ chunk ++ rest) (blen pre) (blen (chunk ++ rest)) =
    dl_sub_pdus fuel' m' ((pre ++ chunk) ++ rest) (blen (pre ++ chunk)) (blen rest).

Lemma parses_nil m : parses [] m m.
Proof. intros fuel pre rest H. exists fuel. split; [done|]. by rewrite app_nil_r. Qed.

Lemma parses_app a b m m1 m2 : parses a m m1 -> parses b m1 m2 -> parses (a ++ b) m m2.
Proof.
  intros Ha Hb fuel pre rest Hf. rewrite <- app_assoc in Hf.
  destruct (Ha fuel pre (b ++ rest)) as (f1 & H1 & E1); [done|].
  destruct (Hb f1 (pre ++ a) rest) as (f2 & H2 & E2); [done|].
  exists f2. split; [done|]. rewrite <- !app_assoc in *. by rewrite E1.
Qed.

(** one subPDU *)
Lemma parses_sub_pdu chunk m m' sub n : 0 < blen chunk -> sub + n = blen chunk ->
  (forall pre rest, dl_sub_pdu m (pre ++ chunk ++ rest) (blen pre) (blen (chunk ++ rest)) = Ok (m', Next sub n)) ->
  parses chunk m m'.
Proof.
  intros Hc Hn Hs fuel pre rest Hf. destruct fuel as [|fuel]; [lia|].
  exists fuel. rewrite length_app in Hf. split; [lia|]. cbn [MacDlUe.dl_sub_pdus].
  destruct (Z.ltb_spec 0 (blen (chunk ++ rest))) as [_|Hle]; [|rewrite length_app in Hle; lia].
  cbn [negb]. rewrite Hs. cbn [res_bind]. rewrite Hn, !length_app, <- app_assoc. f_equal; lia.
Qed.

(** the end: padding or nothing *)
Lemma parse_end m pre b l fuel : (0 < fuel)%nat -> bits 0 6 b = DL_SCH_LCID_PADDING ->
  dl_sub_pdus fuel m (pre ++ b :: l) (blen pre) (blen (b :: l)) = Ok m.
Proof.
  intros Hf Hb. destruct fuel as [|fuel]; [lia|]. cbn [MacDlUe.dl_sub_pdus].
  destruct (Z.ltb_spec 0 (blen (b :: l))) as [_|Hle]; [|cbn in Hle; lia].
  cbn [negb]. unfold MacDlUe.dl_sub_pdu. rewrite <- (Z.add_0_r (blen pre)), pdu_at_app, pdu_at_cons_0 by lia.
  cbn [res_bind]. by rewrite Hb.
Qed.

Lemma parse_pad m pre room fuel : (0 < fuel)%nat ->
  dl_sub_pdus fuel m (pre ++ pad room) (blen pre) (blen (pad room)) = Ok m.
Proof.
  intros Hf. unfold pad. destruct (Z.ltb_spec 0 room); [by apply parse_end|]. by destruct fuel; [lia|].
Qed.

Lemma pad_length room : blen (pad room) = Z.max 0 room.
Proof. unfold pad. destruct (Z.ltb_spec 0 room); cbn; rewrite ?length_replicate; lia. Qed.

(** a control element of fixed size that the UE skips *)
Lemma parses_fixed lcid body m n : fixed_ce lcid = Some n -> blen body = n -> 0 <= lcid < 64 ->
  variable_ce lcid = false -> lcid <> 0 -> parses (NR_MAC_SUBHEADER_FIXED 0 lcid ++ body) m m.
Proof.
  intros Hf Hb Hl Hv H0. apply (parses_sub_pdu _ _ _ 1 n); [cbn; lia|cbn [NR_MAC_SUBHEADER_FIXED app length]; lia|].
  intros pre rest. unfold MacDlUe.dl_sub_pdu. cbn [NR_MAC_SUBHEADER_FIXED app].
  rewrite <- (Z.add_0_r (blen pre)), pdu_at_app, pdu_at_cons_0 by lia. cbn [res_bind].
  rewrite bits_head by lia. change (2 ^ 6) with 64. rewrite Z.mod_small by lia.
  destruct (Z.eqb_spec lcid DL_SCH_LCID_CCCH); [done|]. by rewrite Hv, Hf.
Qed.

(** the length field of the two forms of subheader *)
Lemma get_mac_len_short pre lcid n l : 0 <= n < 256 -> n <= blen l ->
  get_mac_len (pre ++ NR_MAC_SUBHEADER_SHORT 0 0 lcid n ++ l) (blen pre)
    (blen (NR_MAC_SUBHEADER_SHORT 0 0 lcid n ++ l)) 0 1 = Ok (true, n, 2).
Proof.
  intros Hn Hl. unfold get_mac_len. cbn [NR_MAC_SUBHEADER_SHORT app].
  destruct (Z.ltb_spec (blen (pack [(6, lcid); (1, 0); (1, 0)] :: u8 n :: l)) 2) as [Hlt|_]; [cbn in Hlt; lia|].
  rewrite <- (Z.add_0_r (blen pre)) at 1. rewrite !pdu_at_app, pdu_at_cons_0, pdu_at_cons by lia.
  cbn [res_bind]. rewrite bits_tail, bits_head by lia. change (0 mod 2 ^ 1) with 0. cbn [Z.eqb negb andb].
  rewrite pdu_at_cons_0. cbn [res_bind]. unfold u8. rewrite Z.mod_small by lia.
  match goal with |- context [?x <? n] => destruct (Z.ltb_spec x n) as [Hlt|] end; [|done].
  cbn [length] in Hlt. lia.
Qed.

Lemma get_mac_len_long pre lcid n l : 0 <= n < 65536 -> n <= blen l ->
  get_mac_len (pre ++ NR_MAC_SUBHEADER_LONG 0 1 lcid n ++ l) (blen pre)
    (blen (NR_MAC_SUBHEADER_LONG 0 1 lcid n ++ l)) 0 1 = Ok (true, n, 3).
Proof.
  intros Hn Hl. unfold get_mac_len. cbn [NR_MAC_SUBHEADER_LONG app].
  match goal with |- context [?x <? 2] => destruct (Z.ltb_spec x 2) as [Hlt|_]; [cbn in Hlt; lia|] end.
  rewrite <- (Z.add_0_r (blen pre)) at 1. rewrite !pdu_at_app, pdu_at_cons_0 by lia.
  rewrite (pdu_at_cons _ _ 1), (pdu_at_cons _ _ 2), (pdu_at_cons _ _ (2 - 1)) by lia.
  cbn [res_bind]. rewrite bits_tail, bits_head by lia. change (1 mod 2 ^ 1) with 1. cbn [Z.eqb Pos.eqb negb andb].
  match goal with |- context [?x <? 3] => destruct (Z.ltb_spec x 3) as [Hlt|_]; [cbn in Hlt; lia|] end.
  change (2 - 1 - 1) with 0. change (1 - 1) with 0. rewrite !pdu_at_cons_0. cbn [res_bind].
  rewrite u16_split by done.
  match goal with |- context [?x <? n] => destruct (Z.ltb_spec x n) as [Hlt|] end; [|done].
  cbn [length] in Hlt. lia.
Qed.

(** the two forms as one: the subheader of [n] bytes for [lcid] *)
Definition sdu_header (h : list Z) (lcid n : Z) : Prop :=
  h = NR_MAC_SUBHEADER_SHORT 0 0 lcid n /\ 0 <= n < 256 \/
  h = NR_MAC_SUBHEADER_LONG 0 1 lcid n /\ 0 <= n < 65536.

Lemma sdu_header_len h lcid n pre l : sdu_header h lcid n -> n <= blen l ->
  get_mac_len (pre ++ h ++ l) (blen pre) (blen (h ++ l)) 0 1 = Ok (true, n, blen h) /\ 0 < blen h.
Proof.
  intros [[-> H]|[-> H]] Hn; (split; [|done]).
  - by apply get_mac_len_short.
  - by apply get_mac_len_long.
Qed.

Lemma sdu_header_lcid h lcid n pre l : sdu_header h lcid n -> 0 <= lcid < 64 ->
  exists b, pdu_at (pre ++ h ++ l) (blen pre) = Ok b /\ bits 0 6 b = lcid.
Proof.
  intros H Hl. assert (exists b h', h = b :: h' /\ bits 0 6 b = lcid) as (b & h' & -> & Hb).
  { destruct H as [[-> _]|[-> _]]; eexists _, _; (split; [reflexivity|]);
      rewrite bits_head by lia; change (2 ^ 6) with 64; by rewrite Z.mod_small. }
  exists b. split; [|done]. rewrite <- (Z.add_0_r (blen pre)), pdu_at_app by lia. done.
Qed.

(** a control element of variable size that the UE skips *)
Lemma parses_variable h lcid body m : variable_ce lcid = true -> sdu_header h lcid (blen body) ->
  0 <= lcid < 64 -> parses (h ++ body) m m.
Proof.
  intros Hv Hh Hl. destruct (sdu_header_len h lcid (blen body) [] body Hh) as [_ Hp]; [lia|].
  apply (parses_sub_pdu _ _ _ (blen h) (blen body)); [rewrite length_app; lia|rewrite length_app; lia|].
  intros pre rest. rewrite <- !app_assoc. unfold MacDlUe.dl_sub_pdu.
  destruct (sdu_header_lcid h lcid (blen body) pre (body ++ rest) Hh Hl) as (b & -> & Hb). cbn [res_bind].
  rewrite Hb. destruct (Z.eqb_spec lcid DL_SCH_LCID_CCCH) as [->|]; [done|]. rewrite Hv.
  destruct (sdu_header_len h lcid (blen body) pre (body ++ rest) Hh) as [-> _]; [rewrite length_app; lia|].
  done.
Qed.

(** the branch of the SDUs *)
Lemma dl_sub_pdu_sdu m pdu pos n b lcid : pdu_at pdu pos = Ok b -> bits 0 6 b = lcid -> 1 <= lcid <= 32 ->
  dl_sub_pdu m pdu pos n = sdu_sub_pdu m pdu pos n lcid.
Proof.
  intros Hb <- Hl. unfold MacDlUe.dl_sub_pdu. rewrite Hb. cbn [res_bind].
  generalize dependent (bits 0 6 b). intros lcid Hl. unfold variable_ce, fixed_ce. clear Hb.
  repeat match goal with |- context [lcid =? ?c] => destruct (Z.eqb_spec lcid c); [exfalso; unfold c in *; lia|] end.
  cbn [orb]. destruct (Z.leb_spec 1 lcid); [|lia]. by destruct (Z.leb_spec lcid 32); [|lia].
Qed.

(** an SDU of a logical channel that is not suspended *)
Lemma parses_sdu h lcid sdu m : 1 <= lcid <= 32 -> is_lcid_suspended m lcid = false ->
  sdu_header h lcid (blen sdu) -> parses (h ++ sdu) m (ue_emit m [Rlc_data_ind lcid sdu]).
Proof.
  intros Hl Hs Hh. destruct (sdu_header_len h lcid (blen sdu) [] sdu Hh) as [_ Hp]; [lia|].
  apply (parses_sub_pdu _ _ _ (blen h) (blen sdu)); [rewrite length_app; lia|rewrite length_app; lia|].
  intros pre rest. rewrite <- !app_assoc.
  destruct (sdu_header_lcid h lcid (blen sdu) pre (sdu ++ rest) Hh) as (b & Eb & Hb); [lia|].
  rewrite (dl_sub_pdu_sdu _ _ _ _ _ _ Eb Hb Hl). unfold sdu_sub_pdu.
  destruct (sdu_header_len h lcid (blen sdu) pre (sdu ++ rest) Hh) as [-> _]; [rewrite length_app; lia|].
  cbn [res_bind negb]. rewrite Hs.
  rewrite app_assoc, mem_read_mid by (rewrite ?length_app; lia). done.
Qed.

(** the message of the CCCH; one of zeros only is taken for noise *)
Lemma parses_ccch h sdu m : 0 < blen sdu -> Exists (fun b => b <> 0) sdu ->
  sdu_header h DL_SCH_LCID_CCCH (blen sdu) -> parses (h ++ sdu) m (ue_emit m [Rlc_data_ind DL_SCH_LCID_CCCH sdu]).
Proof.
  intros Hpos Hne Hh. destruct (sdu_header_len h DL_SCH_LCID_CCCH (blen sdu) [] sdu Hh) as [_ Hp]; [lia|].
  apply (parses_sub_pdu _ _ _ (blen h) (blen sdu)); [rewrite length_app; lia|rewrite length_app; lia|].
  intros pre rest. rewrite <- !app_assoc. unfold MacDlUe.dl_sub_pdu.
  destruct (sdu_header_lcid h DL_SCH_LCID_CCCH (blen sdu) pre (sdu ++ rest) Hh) as (b & -> & Hb); [done|].
  cbn [res_bind]. rewrite Hb. change (DL_SCH_LCID_CCCH =? DL_SCH_LCID_CCCH) with true. cbv iota. unfold ccch_sub_pdu.
  destruct (sdu_header_len h DL_SCH_LCID_CCCH (blen sdu) pre (sdu ++ rest) Hh) as [-> _]; [rewrite length_app; lia|].
  cbn [res_bind negb].
  replace (blen h + blen sdu) with (blen (h ++ sdu)) by (rewrite length_app; lia).
  rewrite (app_assoc h sdu rest), mem_read_mid by done. cbn [res_bind].
  destruct (forallb (Z.eqb 0) (h ++ sdu)) eqn:E.
  - exfalso. rewrite forallb_app in E. apply andb_prop in E as [_ E].
    apply Exists_exists in Hne as (x & Hx & Hnx). apply list_elem_of_In in Hx.
    pose proof (proj1 (forallb_forall _ _) E x Hx) as Hz. apply Z.eqb_eq in Hz. by subst.
  - destruct (Z.ltb_spec 0 (blen sdu)); [|lia].
    rewrite <- app_assoc, app_assoc, mem_read_mid by (rewrite ?length_app; lia). done.
Qed.

(** the subPDUs with a branch of their own *)
Lemma dl_sub_pdu_fixed m pre lcid l n k : 0 <= lcid < 64 -> pre ++ NR_MAC_SUBHEADER_FIXED 0 lcid ++ l = k ->
  lcid <> 0 -> variable_ce lcid = false -> fixed_ce lcid = None ->
  dl_sub_pdu m k (blen pre) n =
    if lcid =? DL_SCH_LCID_TA_COMMAND then ta_sub_pdu frame slot n_slots_frame ntn_ue_koffset m k (blen pre)
    else if lcid =? DL_SCH_LCID_CON_RES_ID then con_res_sub_pdu iqplayer m k (blen pre)
    else if lcid =? DL_SCH_LCID_PADDING then Ok (m, Done)
    else if (1 <=? lcid) && (lcid <=? 32) then sdu_sub_pdu m k (blen pre) n lcid
    else Ok (m, Next 1 0).
Proof.
  intros Hl <- H0 Hv Hf. unfold MacDlUe.dl_sub_pdu. rewrite <- (Z.add_0_r (blen pre)) at 1.
  rewrite pdu_at_app by lia. cbn [NR_MAC_SUBHEADER_FIXED app]. rewrite pdu_at_cons_0. cbn [res_bind].
  rewrite bits_head by lia. change (2 ^ 6) with 64. rewrite Z.mod_small by lia.
  destruct (Z.eqb_spec lcid DL_SCH_LCID_CCCH); [done|]. by rewrite Hv, Hf.
Qed.

(** the timing advance command *)
Lemma parses_ta m ta tag : 0 <= ta < 64 -> tag_Id m = tag -> 0 <= tag < 4 ->
  parses (NR_MAC_SUBHEADER_FIXED 0 DL_SCH_LCID_TA_COMMAND ++ [pack [(6, ta); (2, tag)]]) m
    (set_time_alignment n_slots_frame ntn_ue_koffset m ta adjustment_ta frame slot).
Proof.
  intros Hta Ht Hr. apply (parses_sub_pdu _ _ _ 1 1); [done|done|].
  intros pre rest. rewrite <- (app_assoc _ [_]).
  rewrite (dl_sub_pdu_fixed m pre DL_SCH_LCID_TA_COMMAND _ _ _ ltac:(done) eq_refl) by done.
  rewrite Z.eqb_refl. cbv iota. unfold ta_sub_pdu.
  rewrite pdu_at_app by lia. cbn [NR_MAC_SUBHEADER_FIXED app]. rewrite pdu_at_cons, pdu_at_cons_0 by lia.
  cbn [res_bind]. rewrite bits_head, bits_tail, bits_head by lia. change (2 ^ 6) with 64. change (2 ^ 2) with 4.
  rewrite !Z.mod_small, Ht, Z.eqb_refl by lia. done.
Qed.

(** the contention resolution identity when the UE does not wait for it *)
Lemma parses_con_res m id : length id = 6%nat -> ra_state (ra m) <> nrRA_WAIT_CONTENTION_RESOLUTION ->
  parses (NR_MAC_SUBHEADER_FIXED 0 DL_SCH_LCID_CON_RES_ID ++ id) m m.
Proof.
  intros Hid Hw. apply (parses_sub_pdu _ _ _ 1 6); [done|rewrite length_app; cbn [length NR_MAC_SUBHEADER_FIXED]; lia|].
  intros pre rest. rewrite <- (app_assoc _ id).
  rewrite (dl_sub_pdu_fixed m pre DL_SCH_LCID_CON_RES_ID _ _ _ ltac:(done) eq_refl) by done.
  change (DL_SCH_LCID_CON_RES_ID =? DL_SCH_LCID_TA_COMMAND) with false. rewrite Z.eqb_refl. cbv iota.
  unfold con_res_sub_pdu. by rewrite bool_decide_eq_false_2.
Qed.

(** and when it does, and it is its own *)
Lemma parses_con_res_mine m id : length id = 6%nat -> ra_state (ra m) = nrRA_WAIT_CONTENTION_RESOLUTION ->
  RA_active (ra m) = true -> cont_res_id (ra m) = id ->
  parses (NR_MAC_SUBHEADER_FIXED 0 DL_SCH_LCID_CON_RES_ID ++ id) m
    (nr_ra_succeeded (ue_emit m [Timer_stop Contention_resolution])).
Proof.
  intros Hid Hw Ha Hc. apply (parses_sub_pdu _ _ _ 1 6); [done|rewrite length_app; cbn [length NR_MAC_SUBHEADER_FIXED]; lia|].
  intros pre rest. rewrite <- (app_assoc _ id).
  rewrite (dl_sub_pdu_fixed m pre DL_SCH_LCID_CON_RES_ID _ _ _ ltac:(done) eq_refl) by done.
  change (DL_SCH_LCID_CON_RES_ID =? DL_SCH_LCID_TA_COMMAND) with false. rewrite Z.eqb_refl. cbv iota.
  unfold con_res_sub_pdu. rewrite bool_decide_eq_true_2, (app_assoc pre) by done.
  replace 6 with (blen id) by lia. rewrite mem_read_mid by (rewrite ?length_app; cbn [length NR_MAC_SUBHEADER_FIXED]; lia).
  cbn [res_bind]. change (ra (ue_emit m _)) with (ra m). unfold check_ra_contention_resolution.
  rewrite Ha, Hc, bool_decide_eq_true_2, orb_true_r by done. cbn [andb]. by replace (blen id) with 6 by lia.
Qed.

(** ** The control elements of the gNB *)

Record ce_ok (c : NR_UE_mac_ce_ctrl_t) : Prop := mk_ce_ok {
  co_ta : ta_apply c = true -> 0 <= ta_update c < 64;
  co_csi : (4 <= length (sr_s0tos3_actDeact (SP_CSI_reporting_pucch c)))%nat;
  co_tci : 0 <= sl_highest (pdsch_TCI_States_ActDeact c) < 128 /\
    length (sl_states (pdsch_TCI_States_ActDeact c)) = 128%nat;
  co_trig : 0 <= sl_highest (aperi_CSI_trigger c) < 128 /\
    length (sl_states (aperi_CSI_trigger c)) = 128%nat;
  co_im : im_is_scheduled (csi_im c) = false }.

Lemma state_octets_ok num states : (8 * num <= length states)%nat ->
  exists T, state_octets num states = Ok T /\ length T = num.
Proof.
  intros Hn. unfold state_octets.
  assert (forall k start T, (start + k <= 8 * num)%nat -> length T = num -> exists T',
    fold_res (fun T i =>
      let* b := arr_get states i in
      if b : bool then
        let* t := arr_get T (Nat.div i 8) in
        arr_set T (Nat.div i 8) (Z.lor t (Z.shiftl 1 (Z.of_nat (Nat.modulo i 8))))
      else Ok T) (seq start k) T = Ok T' /\ length T' = num) as Hk.
  { induction k as [|k IH]; intros start T Hs HT; [by exists T|]. cbn [seq fold_res].
    destruct (arr_get_lt states start ltac:(lia)) as (b & _ & ->). cbn [res_bind].
    destruct b; [|apply IH; [lia|done]].
    assert (Nat.div start 8 < length T)%nat by (apply Nat.Div0.div_lt_upper_bound; lia).
    destruct (arr_get_lt T (Nat.div start 8)) as (x & _ & ->); [done|]. cbn [res_bind].
    rewrite arr_set_ok by done. cbn [res_bind]. apply IH; [lia|by rewrite length_insert]. }
  apply Hk; [lia|apply length_replicate].
Qed.

Lemma states_ce_ok lcid s m : variable_ce lcid = true -> 0 <= lcid < 64 ->
  0 <= sl_highest s < 128 /\ length (sl_states s) = 128%nat ->
  exists l, states_ce lcid s = Ok l /\ parses l m m.
Proof.
  intros Hv Hl [Hh Hs]. unfold states_ce. destruct (sl_is_scheduled s); [|eexists; split; [done|apply parses_nil]].
  set (n := u8 (sl_highest s `quot` 8 + 1)).
  assert (0 <= sl_highest s / 8 < 16) by (split; [apply Z.div_pos|apply Z.div_lt_upper_bound]; lia).
  assert (n = sl_highest s / 8 + 1) as Hn.
  { unfold n, u8. rewrite Z.quot_div_nonneg, Z.mod_small by lia. done. }
  destruct (state_octets_ok (Z.to_nat n) (sl_states s)) as (T & -> & HT); [lia|]. cbn [res_bind].
  eexists. split; [done|]. apply parses_variable with (lcid := lcid); [done| |done].
  left. cbn [length]. split; [|lia]. do 2 f_equal. lia.
Qed.

Definition after_ta (c : NR_UE_mac_ce_ctrl_t) (m : NR_UE_MAC_INST_t) : NR_UE_MAC_INST_t :=
  if ta_apply c then set_time_alignment n_slots_frame ntn_ue_koffset m (ta_update c) adjustment_ta frame slot else m.

Lemma write_ce_ok c tag cr m m' : ce_ok c -> 0 <= tag < 4 -> tag_Id m = tag ->
  (exists crs, con_res_ce cr = Ok crs /\ parses crs (after_ta c m) m') ->
  exists ces, nr_write_ce_dlsch_pdu c tag 255 cr = Ok ces /\ parses ces m m'.
Proof.
  intros [Hta Hcsi Htci Htrig Him] Ht Hm (crs & Ecr & Hcr). unfold nr_write_ce_dlsch_pdu.
  assert (exists l, ta_ce c tag = Ok l /\ parses l m (after_ta c m)) as (l1 & -> & P1).
  { unfold ta_ce, after_ta. destruct (ta_apply c); [|eexists; split; [done|apply parses_nil]].
    specialize (Hta eq_refl). destruct (Z.ltb_spec (ta_update c) 64); [|lia]. cbn [negb].
    eexists. split; [done|]. by apply parses_ta. }
  cbn [res_bind]. rewrite Ecr. cbn [res_bind].
  assert (exists l, sp_csi_ce (SP_CSI_reporting_pucch c) = Ok l /\ parses l m' m') as (l2 & -> & P2).
  { unfold sp_csi_ce. destruct (sr_is_scheduled _); [|eexists; split; [done|apply parses_nil]].
    destruct (arr_get_lt (sr_s0tos3_actDeact (SP_CSI_reporting_pucch c)) 0 ltac:(lia)) as (? & _ & ->).
    destruct (arr_get_lt (sr_s0tos3_actDeact (SP_CSI_reporting_pucch c)) 1 ltac:(lia)) as (? & _ & ->).
    destruct (arr_get_lt (sr_s0tos3_actDeact (SP_CSI_reporting_pucch c)) 2 ltac:(lia)) as (? & _ & ->).
    destruct (arr_get_lt (sr_s0tos3_actDeact (SP_CSI_reporting_pucch c)) 3 ltac:(lia)) as (? & _ & ->). cbn [res_bind].
    eexists. split; [done|]. by apply parses_fixed with (n := 2). }
  cbn [res_bind].
  destruct (states_ce_ok DL_SCH_LCID_TCI_STATE_ACT_UE_SPEC_PDSCH _ m' eq_refl ltac:(done) Htci) as (l3 & -> & P3).
  destruct (states_ce_ok DL_SCH_LCID_APERIODIC_CSI_TRI_STATE_SUBSEL _ m' eq_refl ltac:(done) Htrig) as (l4 & -> & P4).
  unfold csi_im_ce. rewrite Him. cbn [res_bind]. eexists. split; [done|].
  assert (parses (tci_pdcch_ce (pdcch_state_ind c)) m' m') as P5.
  { unfold tci_pdcch_ce. destruct (pi_is_scheduled _); [by apply parses_fixed with (n := 2)|apply parses_nil]. }
  assert (parses (sp_zp_ce (sp_zp_csi_rs c)) m' m') as P6.
  { unfold sp_zp_ce. destruct (zp_is_scheduled _); [by apply parses_fixed with (n := 2)|apply parses_nil]. }
  change (drx_ce 255) with (@nil Z). cbn [app]. rewrite app_nil_r.
  eauto 10 using parses_app.
Qed.

(** ** The SDUs *)

Definition ind (log : list (Z * list Z)) : list ue_event := (fun x => Rlc_data_ind (fst x) (snd x)) <$> log.

Lemma ue_emit_app m l l' : ue_emit (ue_emit m l) l' = ue_emit m (l ++ l').
Proof. unfold ue_emit. cbn. by rewrite <- app_assoc. Qed.
Lemma ue_emit_nil m : ue_emit m [] = m.
Proof. unfold ue_emit. cbn. rewrite app_nil_r. by destruct m. Qed.

Definition log_bytes (log : list (Z * list Z)) : Z := foldr (fun x n => blen (snd x) + n) 0 log.
Lemma log_bytes_app a b : log_bytes (a ++ b) = log_bytes a + log_bytes b.
Proof. unfold log_bytes. induction a as [|x a IH]; cbn [app foldr]; lia. Qed.
Lemma ind_app a b : ind (a ++ b) = ind a ++ ind b.
Proof. apply fmap_app. Qed.

(** the channels the UE may receive on *)
Definition receives (m : NR_UE_MAC_INST_t) (lcs : list Z) : Prop :=
  forall lcid, lcid ∈ lcs -> 1 <= lcid <= 32 /\ is_lcid_suspended m lcid = false.

(** an array with an element for each channel *)
Definition indexed (lcs l : list Z) : Prop := forall lcid, lcid ∈ lcs -> (Z.to_nat lcid < length l)%nat.

Section Rlc.
Context `{L : RlcDataLaws St lcs Inv}.
#[local] Set Default Proof Using "All".

Lemma lc_sub_pdus_ok lcid n : lcid ∈ lcs -> 0 < n -> forall fuel s log room m,
  Inv s log -> receives m lcs -> Z.max 0 room < Z.of_nat fuel ->
  exists s' out bytes sdus log', lc_sub_pdus fuel s lcid n room = Ok (s', out, bytes, sdus) /\
    Inv s' (log ++ log') /\ blen out <= Z.max 0 room /\ parses out m (ue_emit m (ind log')) /\
    bytes = log_bytes log' /\ sdus = blen log' /\
    (log' = [] -> 4 < room -> rlc_data_req s lcid (Z.min n (room - 3)) = Ok (s', [])).
Proof.
  intros Hin Hn. induction fuel as [|fuel IH]; intros s log room m HI Hr Hf; [lia|].
  cbn [lc_sub_pdus]. destruct (Z.ltb_spec (3 + 1) room) as [Hroom|Hroom]; cbn [negb].
  2:{ exists s, [], 0, 0, []. rewrite app_nil_r. cbn [ind fmap list_fmap]. rewrite ue_emit_nil.
      split_and!; try done; [cbn; lia|apply parses_nil|lia]. }
  destruct (rlc_data_ok s log lcid (Z.min n (room - 3)) HI Hin) as (s1 & sdu & E & Hle & Hlt & HI1); [lia|].
  rewrite E. cbn [res_bind]. destruct (Z.ltb_spec (room - 3) (blen sdu)); [lia|].
  destruct sdu as [|b sdu]; cbn [log_sdu] in HI1.
  { exists s1, [], 0, 0, []. rewrite app_nil_r. cbn [ind fmap list_fmap length Z.of_nat Z.eqb]. rewrite ue_emit_nil.
    split_and!; try done; [cbn; lia|apply parses_nil]. }
  set (x := b :: sdu) in *. assert (0 < blen x) by (unfold x; cbn; lia).
  destruct (Z.eqb_spec (blen x) 0); [lia|].
  destruct (Hr lcid Hin) as [Hl Hs].
  destruct (IH s1 (log ++ [(lcid, x)]) (room - (blen x + 3)) (ue_emit m [Rlc_data_ind lcid x]))
    as (s2 & out & bytes & sdus & log' & -> & HI2 & Hlen & Hp & -> & -> & _); [done|done|lia|].
  cbn [res_bind]. eexists s2, _, _, _, ((lcid, x) :: log'). split; [done|].
  split; [by rewrite <- app_assoc in HI2|]. split; [rewrite !length_app; cbn [NR_MAC_SUBHEADER_LONG length]; lia|].
  split; [|split; [done|split; [cbn [length]; lia|done]]].
  rewrite app_assoc. eapply parses_app.
  - apply parses_sdu; [done|done|]. right. split; [done|lia].
  - cbn [ind fmap list_fmap fst snd]. by rewrite ue_emit_app in Hp.
Qed.

(** the counters after the SDUs of [log] *)
Record counted (st : dl_pdu_stats) (log : list (Z * list Z)) (st' : dl_pdu_stats) : Prop := mk_counted {
  ct_sdus : num_mac_sdu st' = u64 (num_mac_sdu st + blen log);
  ct_bytes : total_sdu_bytes st' = u64 (total_sdu_bytes st + log_bytes log);
  ct_len : length (lc_bytes st') = length (lc_bytes st) }.

Lemma u64_add_u64 a b c : u64 (u64 (a + b) + c) = u64 (a + (b + c)).
Proof. unfold u64. rewrite Zplus_mod_idemp_l. f_equal. lia. Qed.

Lemma lcs_sub_pdus_ok status : forall cs s log room st m,
  Inv s log -> receives m lcs -> (forall lcid, lcid ∈ cs -> lcid ∈ lcs) ->
  Forall (fun n => 0 <= n) status -> indexed lcs status -> indexed lcs (lc_bytes st) ->
  0 <= room -> num_mac_sdu st = u64 (num_mac_sdu st) -> total_sdu_bytes st = u64 (total_sdu_bytes st) ->
  exists s' out st' log', lcs_sub_pdus cs status s room st = Ok (s', out, st') /\
    Inv s' (log ++ log') /\ blen out <= room /\ parses out m (ue_emit m (ind log')) /\ counted st log' st' /\
    (log' = [] -> forall lcid n, cs = [lcid] -> status !! Z.to_nat lcid = Some n -> 0 < n -> 4 < room ->
      rlc_data_req s lcid (Z.min n (room - 3)) = Ok (s', [])).
Proof.
  induction cs as [|lcid cs IH]; intros s log room st m HI Hr Hcs Hst Hls Hlb Hroom Hn Ht; cbn [lcs_sub_pdus].
  { exists s, [], st, []. rewrite app_nil_r. cbn [ind fmap list_fmap]. rewrite ue_emit_nil.
    split_and!; try done; [apply parses_nil|split; cbn; rewrite ?Z.add_0_r; done]. }
  assert (lcid ∈ lcs) as Hin by (apply Hcs; left). destruct (Hr lcid Hin) as [Hl _].
  destruct (arr_get_lt status (Z.to_nat lcid) (Hls lcid Hin)) as (n & En & ->). cbn [res_bind].
  assert (0 <= n) by exact (Forall_lookup_1 _ _ _ _ Hst En).
  destruct (Z.eqb_spec n 0).
  { destruct (IH s log room st m HI Hr) as (s' & out & st' & log' & E & H1 & H2 & H3 & H4 & _); try done.
    { intros; apply Hcs; by right. }
    exists s', out, st', log'. split_and!; try done. intros _ ? n' [= -> ->]. rewrite En. intros [= <-]. lia. }
  destruct (lc_sub_pdus_ok lcid n Hin ltac:(lia) (S (Z.to_nat room)) s log room m HI Hr ltac:(lia))
    as (s1 & out & bytes & sdus & log1 & -> & HI1 & Hlen & Hp & -> & -> & Hnone). cbn [res_bind].
  destruct (arr_get_lt (lc_bytes st) (Z.to_nat lcid) (Hlb lcid Hin)) as (b & _ & ->). cbn [res_bind].
  rewrite arr_set_ok by by apply Hlb. cbn [res_bind].
  match goal with |- context [lcs_sub_pdus cs status s1 ?r ?st1] =>
    destruct (IH s1 (log ++ log1) r st1 (ue_emit m (ind log1)))
      as (s2 & out2 & st2 & log2 & E2 & HI2 & Hlen2 & Hp2 & Hc & _) end; try done.
  { intros; apply Hcs; by right. }
  { intros l Hl'. cbn. rewrite length_insert. by apply Hlb. }
  { lia. }
  { cbn. unfold u64. by rewrite Z.mod_mod. }
  { cbn. unfold u64. by rewrite Z.mod_mod. }
  rewrite E2. cbn [res_bind]. exists s2, (out ++ out2), st2, (log1 ++ log2). split; [done|].
  split; [by rewrite app_assoc|]. split; [rewrite length_app; lia|]. split; [|split].
  - rewrite ind_app, <- ue_emit_app. eapply parses_app; done.
  - destruct Hc as [C1 C2 C3]. cbn in C1, C2, C3. split.
    + rewrite C1, u64_add_u64, length_app. f_equal. lia.
    + rewrite C2, u64_add_u64, log_bytes_app. done.
    + by rewrite C3, length_insert.
  - intros [-> ->]%app_nil l' n' [= -> ->]. rewrite En. intros [= <-] _ H4. cbn in E2.
    injection E2 as -> _ _. by apply Hnone.
Qed.
End Rlc.

(** a whole PDU from its parts *)
Lemma parse_whole chunk last m m' : (two_step (ra m) = true -> ra_state (ra m) <> nrRA_WAIT_MSGB) ->
  parses chunk m m' ->
  (forall fuel, (length last < fuel)%nat -> dl_sub_pdus fuel m' (chunk ++ last) (blen chunk) (blen last) = Ok m') ->
  nr_ue_process_mac_pdu frame slot n_slots_frame ntn_ue_koffset iqplayer m (chunk ++ last) = Ok m'.
Proof.
  intros Hw Hp Hl. unfold nr_ue_process_mac_pdu.
  assert (two_step (ra m) && bool_decide (ra_state (ra m) = nrRA_WAIT_MSGB) = false) as ->.
  { destruct (two_step (ra m)); [|done]. cbn [andb]. apply bool_decide_eq_false_2. by apply Hw. }
  cbn [res_bind]. rewrite Z.sub_0_r.
  destruct (Hp (S (length (chunk ++ last))) [] last) as (fuel & Hf & E); [lia|].
  cbn [app] in E. change (blen (@nil Z)) with 0 in E. rewrite E. by apply Hl.
Qed.
End Ue.

(** ** Where the two sides differ *)

(** the control element of the CSI-IM resource sets has a subheader without a
    length, but the UE takes its first octet for one *)
Lemma csi_im_read_as_length frame slot n_slots koffset iqplayer c ce m pre rest :
  im_is_scheduled c = true -> csi_im_ce c = Ok ce -> exists tail,
  ce = NR_MAC_SUBHEADER_FIXED 0 DL_SCH_LCID_SP_CSI_RS_CSI_IM_RES_SET_ACT ++
       pack [(2, im_bwp_id c); (5, Z.land (im_serv_cellid c) 63); (1, Z.b2z (im_act_deact c))] :: tail /\
  dl_sub_pdu frame slot n_slots koffset iqplayer m (pre ++ ce ++ rest) (blen pre) (blen (ce ++ rest)) =
    Ok (m, Next 2 (pack [(2, im_bwp_id c); (5, Z.land (im_serv_cellid c) 63); (1, Z.b2z (im_act_deact c))])).
Proof.
  intros Hs E. unfold csi_im_ce in E. rewrite Hs in E. apply res_bind_ok in E as (tci & _ & E). injection E as <-.
  set (v := pack _). eexists. split; [reflexivity|].
  cbn [NR_MAC_SUBHEADER_FIXED app]. unfold MacDlUe.dl_sub_pdu.
  rewrite <- (Z.add_0_r (blen pre)), pdu_at_app, pdu_at_cons_0 by lia. cbn [res_bind].
  change (bits 0 6 (pack [(6, DL_SCH_LCID_SP_CSI_RS_CSI_IM_RES_SET_ACT); (2, 0)])) with 55.
  change (55 =? DL_SCH_LCID_CCCH) with false. change (variable_ce 55) with true. cbv iota.
  unfold get_mac_len. match goal with |- context [?x <? 2] => destruct (Z.ltb_spec x 2) as [Hlt|_]; [cbn [length] in Hlt; lia|] end.
  rewrite pdu_at_app, pdu_at_cons_0, <- Z.add_assoc, pdu_at_app, pdu_at_cons by lia. cbn [res_bind].
  change (bits 6 1 (pack [(6, DL_SCH_LCID_SP_CSI_RS_CSI_IM_RES_SET_ACT); (2, 0)]) =? 0) with true. done.
Qed.

(** the length of an SDU is compared with the bytes left with the subheader *)
Lemma sdu_past_end frame slot n_slots koffset iqplayer m lcid (sdu : list Z) :
  (two_step (ra m) = true -> ra_state (ra m) <> nrRA_WAIT_MSGB) ->
  1 <= lcid <= 32 -> is_lcid_suspended m lcid = false -> blen sdu < 254 ->
  nr_ue_process_mac_pdu frame slot n_slots koffset iqplayer m
    (NR_MAC_SUBHEADER_SHORT 0 0 lcid (blen sdu + 2) ++ sdu) = Err Out_of_bounds.
Proof.
  intros Hw Hl Hs Hn. unfold nr_ue_process_mac_pdu.
  assert (two_step (ra m) && bool_decide (ra_state (ra m) = nrRA_WAIT_MSGB) = false) as ->.
  { destruct (two_step (ra m)); [|done]. cbn [andb]. apply bool_decide_eq_false_2. by apply Hw. }
  cbn [res_bind MacDlUe.dl_sub_pdus NR_MAC_SUBHEADER_SHORT app].
  set (h := pack _). set (pdu := h :: _).
  assert (blen pdu = blen sdu + 2) as Hlen by (unfold pdu; cbn [length]; lia).
  rewrite Z.sub_0_r, Hlen. destruct (Z.ltb_spec 0 (blen sdu + 2)); [|lia]. cbn [negb].
  assert (bits 0 6 h = lcid) as Hh by (unfold h; rewrite bits_head by lia; apply Z.mod_small; lia).
  rewrite (dl_sub_pdu_sdu _ _ _ _ _ m pdu 0 _ h lcid eq_refl Hh Hl).
  unfold sdu_sub_pdu, get_mac_len. destruct (Z.ltb_spec (blen sdu + 2) 2); [lia|].
  change (pdu_at pdu 0) with (Ok h). change (pdu_at pdu (0 + 1)) with (Ok (u8 (blen sdu + 2))). cbn [res_bind].
  assert (bits 6 1 h = 0) as -> by (unfold h; by rewrite bits_tail, bits_head by lia).
  cbn [Z.eqb negb andb res_bind]. unfold u8. rewrite Z.mod_small by lia.
  destruct (Z.ltb_spec (blen sdu + 2) (blen sdu + 2)); [lia|]. cbn [negb res_bind]. rewrite Hs.
  unfold mem_read. rewrite Hlen. destruct (Z.ltb_spec (blen sdu + 2) (0 + 2 + (blen sdu + 2))); [|lia].
  by rewrite orb_true_r.
Qed.

(** the transport block at both ends *)
Lemma dl_pdu_ok {St} `{L : RlcDataLaws St lcs Inv} frame slot n_slots koffset iqplayer
    c tag total status random s log TBS st m :
  Inv s log -> ce_ok c -> 0 <= tag < 4 -> tag_Id m = tag ->
  (two_step (ra m) = true -> ra_state (ra m) <> nrRA_WAIT_MSGB) -> receives m lcs ->
  Forall (fun n => 0 <= n) status -> indexed lcs status -> indexed lcs (lc_bytes st) ->
  num_mac_sdu st = u64 (num_mac_sdu st) -> total_sdu_bytes st = u64 (total_sdu_bytes st) ->
  (forall r k, random = Some r -> 0 <= k -> blen (r k : list Z) = k) ->
  (forall ces, nr_write_ce_dlsch_pdu c tag 255 None = Ok ces -> blen ces < TBS) ->
  exists s' pdu st' log',
    dlsch_pdu c tag total lcs status random s TBS st = Ok (s', pdu, st', c <| ta_apply := false |>) /\
    blen pdu = TBS /\ Inv s' (log ++ log') /\
    total_sdu_bytes st' = u64 (total_sdu_bytes st + log_bytes log') /\
    nr_ue_process_mac_pdu frame slot n_slots koffset iqplayer m pdu =
      Ok (ue_emit (after_ta frame slot n_slots koffset c m) (ind log')) /\
    num_mac_sdu st' = u64 (num_mac_sdu st') /\ length (lc_bytes st') = length (lc_bytes st) /\
    (forall ces lcid n, nr_write_ce_dlsch_pdu c tag 255 None = Ok ces -> 0 < total ->
      log' = [] -> lcs = [lcid] -> status !! Z.to_nat lcid = Some n -> 0 < n -> blen ces + 4 < TBS ->
      rlc_data_req s lcid (Z.min n (TBS - blen ces - 3)) = Ok (s', [])).
Proof.
  intros HI Hc Ht Hm Hw Hr Hst Hls Hlb Hn Hb Hrnd Hces. unfold dlsch_pdu.
  destruct (write_ce_ok frame slot n_slots koffset iqplayer c tag None m (after_ta frame slot n_slots koffset c m))
    as (ces & E & Pc); [done..|eexists; split; [done|apply parses_nil]|].
  specialize (Hces ces E). rewrite E. cbn [res_bind]. destruct (Z.ltb_spec (blen ces) TBS); [|lia]. cbn [negb].
  set (m1 := after_ta frame slot n_slots koffset c m) in *.
  assert (receives m1 lcs) as Hr1 by (unfold m1, after_ta; by destruct (ta_apply c)).
  destruct (Z.ltb_spec 0 total).
  - destruct (lcs_sub_pdus_ok frame slot n_slots koffset iqplayer status lcs s log (TBS - blen ces) st m1)
      as (s1 & out & st1 & log1 & -> & HI1 & Hlen & Hp & [C1 C2 C3] & Hnone); try done; [lia|].
    cbn [res_bind]. eexists s1, _, _, log1. split; [done|].
    split; [rewrite !length_app, !Nat2Z.inj_add, pad_length; lia|]. split; [done|]. split; [done|]. split.
    + rewrite app_assoc. apply parse_whole; [done|by eapply parses_app|].
      intros fuel Hf. apply parse_pad. lia.
    + split; [cbn; rewrite C1; unfold u64; by rewrite Z.mod_mod|]. split; [done|].
      intros ces' lcid n [= <-] _ Hl Hcs Hst' Hpos H4. apply Hnone; try done. lia.
  - destruct (random_sub_pdu random (TBS - blen ces)) as [body n] eqn:Er. cbn [res_bind].
    eexists s, _, _, []. split; [done|]. cbn [ind fmap list_fmap]. rewrite ue_emit_nil, app_nil_r.
    assert (blen (ces ++ body ++ pad (TBS - blen ces - blen body)) = TBS /\
      nr_ue_process_mac_pdu frame slot n_slots koffset iqplayer m
        (ces ++ body ++ pad (TBS - blen ces - blen body)) = Ok m1) as [-> ->].
    { unfold random_sub_pdu in Er. destruct random as [r|]; [destruct (Z.ltb_spec 3 (TBS - blen ces))|];
        injection Er as <- <-; rewrite ?app_nil_l, ?Z.sub_0_r.
      1: pose proof (Hrnd r (TBS - blen ces - 3) eq_refl ltac:(lia)) as Hk.
      all: (split; [rewrite !length_app, !Nat2Z.inj_add, pad_length; cbn [length NR_MAC_SUBHEADER_LONG app]; lia|]).
      all: apply parse_whole; [done|done|]; intros fuel Hf.
      1: apply parse_end; [lia|done].
      all: apply parse_pad; lia. }
    split_and!; try done; [cbn; by rewrite Z.add_0_r|cbn; unfold u64; by rewrite Z.mod_mod|lia].
Qed.


Definition ce_example : NR_UE_mac_ce_ctrl_t :=
  mk_ce_ctrl true 35 (mk_zp true true 1 0 3) (mk_im false false 0 0 false 0 0 0 []) (mk_pdcch true 1 2 3)
    (mk_spcsi true 1 2 [true; false; true; false] 0) (mk_states true 1 0 9 (replicate 128 true))
    (mk_states false 0 0 0 (replicate 128 false)).
Definition ue_connected : NR_UE_MAC_INST_t :=
  mk_ue 4660 false true 2 [(1, false); (4, false)]
    (mk_ra nrRA_SUCCEEDED false false 0 0 0 0 0 0 0 false 17 0 1 10 1 0 []) (mk_ta no_ta 0 0 0) [].
Definition queues_example : pdu_queues := fun lcid =>
  if lcid =? 1 then [[1; 2; 3]] else if lcid =? 4 then [[4; 5]; replicate 300 6] else [].

