(* ===== verification/MacUmLink.v ===== *)
(** * A DRB in unacknowledged mode from PDCP to PDCP

    The composition of the RLC of the gNB, the MAC of the gNB, the MAC of the
    UE and the RLC of the UE for the downlink of one DRB: the RLC of the gNB
    stands behind the interface [RlcData] of the MAC, and the indications of
    the MAC of the UE go to its RLC.  SDUs come from PDCP at any time, and each
    transport block has its size and its control elements.

    With SNs of 6 bits nothing fails and nothing is lost, whatever the sizes of
    the transport blocks; with SNs of 12 bits the MAC makes the RLC lose an
    SDU. *)
From S2P Require Import Prelude RlcSdu TimeStat RlcCommon RlcUm RlcUmTx RlcUmRx RlcUmLink HashTable F1apIds RlcConfig RlcApi RlcApiSpec RlcChannel.
From S2P Require Import MacPdu MacRlc MacDl MacDlUe MacDlSpec.

Section Drb.
(** the numbers of the UE at both sides, the logical channel, the DRB with
    its index, the timing advance group and the numerology *)
Context (rnti ue_num lcid : Z) (j : nat) (tag n_slots koffset : Z).

Definition drb_id : Z := Z.of_nat j + 1.

(** ** The two stations *)

Record drb_link := mk_drb_link {
  dl_gnb : nr_rlc_t;
  dl_ue : nr_rlc_t;
  dl_mac : NR_UE_MAC_INST_t;
  dl_stats : dl_pdu_stats;
  dl_sent : list (list Z) }.           (** the SDUs that the RLC had room for *)

Inductive drb_op :=
  | Pdcp_sdu (now mui : Z) (sdu : list Z)
  | Gnb_tick
  | Ue_tick
  | Transport_block (now frame slot : Z) (c : NR_UE_mac_ce_ctrl_t) (TBS : Z).

(** an indication of the MAC of the UE to its RLC *)
Definition indicate (s : nr_rlc_t) (ev : ue_event) : res nr_rlc_t :=
  match ev with
  | Rlc_data_ind lcid data => nr_mac_rlc_data_ind s ue_num lcid data
  | _ => Ok s
  end.

Definition gnb_rlc (now : Z) : RlcData nr_rlc_t := fun s lcid n => nr_mac_rlc_data_req now s rnti lcid n.

(** the buffer status, the transport block, and its reception *)
Definition transport_block (l : drb_link) (now frame slot : Z) (c : NR_UE_mac_ce_ctrl_t) (TBS : Z) : res drb_link :=
  let* '(g, bytes_in_buffer) := nr_mac_rlc_status_ind (dl_gnb l) rnti lcid in
  let rlc_status := <[Z.to_nat lcid := bytes_in_buffer]> (replicate 32 0) in
  let* '(g, pdu, st, _) := dlsch_pdu (H := gnb_rlc now) c tag bytes_in_buffer [lcid] rlc_status None g TBS (dl_stats l) in
  let* m := nr_ue_process_mac_pdu frame slot n_slots koffset false (dl_mac l <| ue_trace := [] |>) pdu in
  let* u := fold_res indicate (ue_trace m) (dl_ue l) in
  Ok (mk_drb_link g u m st (dl_sent l)).

Definition drb_step (l : drb_link) (op : drb_op) : res drb_link :=
  match op with
  | Pdcp_sdu now mui sdu =>
    let* '(g, space) := nr_rlc_get_available_tx_space (dl_gnb l) rnti lcid in
    let* g := nr_rlc_data_req now g rnti false drb_id mui sdu in
    Ok (mk_drb_link g (dl_ue l) (dl_mac l) (dl_stats l)
          (if Z.of_nat (length sdu) <=? space then dl_sent l ++ [sdu] else dl_sent l))
  | Gnb_tick => Ok (mk_drb_link (nr_rlc_ms_tick (dl_gnb l)) (dl_ue l) (dl_mac l) (dl_stats l) (dl_sent l))
  | Ue_tick => Ok (mk_drb_link (dl_gnb l) (nr_rlc_ms_tick (dl_ue l)) (dl_mac l) (dl_stats l) (dl_sent l))
  | Transport_block now frame slot c TBS => transport_block l now frame slot c TBS
  end.

Definition drb_run (l : drb_link) (ops : list drb_op) : res drb_link := fold_res drb_step ops l.

(** the stations after the DRB has been added at both sides *)
Definition um_bearer (t_reassembly sn : Z) : NR_RLC_BearerConfig_t :=
  mk_bearer lcid (Some (drb_Identity drb_id)) (Some (RLC_Config_um_Bi (mk_rlc_um t_reassembly (Some sn) (Some sn)))).

Definition drb_start (mode : nr_rlc_op_mode_t) (map : ue_mapping) (m : NR_UE_MAC_INST_t) (t_reassembly sn : Z) : res drb_link :=
  let rlc mode map := mk_rlc (Some mode) [] 0 true true map [] in
  let* g := nr_rlc_add_drb (rlc mode map) rnti drb_id (um_bearer t_reassembly sn) in
  let* u := nr_rlc_add_drb (rlc NR_RLC_OP_MODE_UE None) ue_num drb_id (um_bearer t_reassembly sn) in
  Ok (mk_drb_link g u m (mk_dl_stats 0 0 0 0 (replicate 64 0)) []).

(** ** The invariant *)

(** the entity of the gNB is [es] and that of the UE [er]; [acc] has been
    accepted at the gNB and [d] has reached PDCP at the UE *)
Record drb_pair (sg su : nr_rlc_t) (es er : nr_rlc_entity_um_t) (acc d : list (list Z)) : Prop := {
  dp_gnb : channel sg rnti lcid j es;
  dp_ue : channel su ue_num lcid j er;
  dp_pipe : um_pipe es er acc d;
  dp_timer : t_reassembly_start es = 0;
  dp_snlen : sn_field_length es = 6;
  dp_trace : rlc_trace su = (Pdcp_data_ind ue_num false false drb_id <$> d);
  dp_mode : rlc_manager su = Some NR_RLC_OP_MODE_UE }.

(** the bytes that wait *)
Abbreviation waiting es := (sum_seg s_size (tx_list es)).

Definition indications (su : nr_rlc_t) (log : list (Z * list Z)) : res nr_rlc_t :=
  fold_res (fun s x => nr_mac_rlc_data_ind s ue_num (fst x) (snd x)) log su.

(** during a transport block: the UE will take the SDUs of the log *)
Definition pipe_inv (su0 : nr_rlc_t) (acc : list (list Z)) (k : Z) (sg : nr_rlc_t) (log : list (Z * list Z)) : Prop :=
  exists su es er d, indications su0 log = Ok su /\ drb_pair sg su es er acc d /\ waiting es + Z.of_nat (length log) <= k.

Lemma indications_app su log lcid' sdu :
  indications su (log ++ [(lcid', sdu)]) = let* su := indications su log in nr_mac_rlc_data_ind su ue_num lcid' sdu.
Proof.
  unfold indications. revert su. induction log as [|x log IH]; intros su.
  - cbn. by destruct (nr_mac_rlc_data_ind su ue_num lcid' sdu).
  - cbn [app fold_res]. destruct (nr_mac_rlc_data_ind su ue_num (fst x) (snd x)); cbn [res_bind]; auto.
Qed.

Lemma no_bad_grant e n : sn_field_length e = 6 -> um_bad_grant e n = false.
Proof. intros H. unfold um_bad_grant. rewrite H. by destruct (tx_list e). Qed.

(** a request of the MAC in this state *)
Lemma pair_request now sg su es er acc d n : drb_pair sg su es er acc d -> 0 <= n ->
  exists sg' sdu es', nr_mac_rlc_data_req now sg rnti lcid n = Ok (sg', sdu) /\
    Z.of_nat (length sdu) <= n /\ Z.of_nat (length sdu) < 65536 /\
    ((sdu = [] /\ drb_pair sg' su es' er acc d /\ waiting es' = waiting es /\
      match tx_list es with [] => True | g :: _ => n <= compute_pdu_header_size es g end) \/
     (sdu <> [] /\ exists su' er' d', nr_mac_rlc_data_ind su ue_num lcid sdu = Ok su' /\
        drb_pair sg' su' es' er' acc d' /\ waiting es' < waiting es)).
Proof.
  intros [Cg Cu P Ht Hs Htr Hm] Hn.
  set (es1 := es <| t_current := nr_rlc_current_time sg |>).
  set (er1 := er <| t_current := nr_rlc_current_time su |>).
  assert (P1 : um_pipe es1 er1 acc d) by by apply pipe_time.
  assert (Hlen : Z.of_nat (length (replicate (Z.to_nat n) 0)) = n) by (rewrite length_replicate; lia).
  destruct (pipe_grant_ok es1 er1 acc d now (replicate (Z.to_nat n) 0) P1)
    as (es' & buf' & n' & E & Hb & Es & Et & H); [by apply no_bad_grant|]. rewrite Hlen in H.
  pose proof (um_generate_timer _ _ _ _ _ _ E) as Ht'.
  destruct (channel_pdu now sg rnti lcid j es n es' buf' n' Cg Ht E) as (sg' & Er & Cg' & Tg & Mg).
  { rewrite Et. apply Cg. }
  exists sg', (take (Z.to_nat n') buf'), es'. split; [done|].
  assert (Z.of_nat (length buf') = n) as Hbl by lia.
  destruct H as [(-> & -> & Hno)|(Hn' & Hmax & er' & d' & Ei & P' & Etr & Hlt)].
  - change (take (Z.to_nat 0) buf') with (@nil Z). split; [cbn [length Z.of_nat]; lia|].
    split; [cbn [length Z.of_nat]; lia|]. left. split; [done|]. split; [|done]. split; try done.
    replace er with (er <| t_current := t_current er |>) by by destruct er. by apply pipe_time.
  - split; [rewrite length_take; lia|]. split; [rewrite length_take; lia|]. right. split.
    { intros E0. apply (f_equal length) in E0. rewrite length_take in E0. cbn in E0. lia. }
    destruct (channel_ind su ue_num lcid j er (take (Z.to_nat n') buf') er' d' Cu) as (su' & E' & Cu' & Tu & Mu); try done.
    { apply (ui_timer _ _ _ _ (up_rx _ _ _ _ P)). }
    { rewrite Etr. change (trace (common er1)) with (trace (common er)). by rewrite (ch_trace _ _ _ _ _ Cu). }
    exists su', (no_events er'), (d ++ d'). split; [done|]. split; [|done]. split; try done.
    + by apply pipe_common.
    + by rewrite Ht'.
    + by rewrite Es.
    + by rewrite Tu, Htr, fmap_app.
    + by rewrite Mu.
Qed.

#[local] Instance gnb_laws now su0 acc k : RlcDataLaws nr_rlc_t (H := gnb_rlc now) [lcid] (pipe_inv su0 acc k).
Proof.
  constructor. intros sg log lcid' n (su & es & er & d & Ef & P & Hk) Hin Hn.
  apply list_elem_of_singleton in Hin as ->.
  destruct (pair_request now sg su es er acc d n P Hn) as (sg' & sdu & es' & E & Hle & Hlt & H).
  exists sg', sdu. split; [done|]. split; [done|]. split; [done|].
  destruct H as [(-> & P' & Hw & _)|(Hne & su' & er' & d' & Ei & P' & Hw)].
  - cbn [log_sdu]. exists su, es', er, d. split; [done|]. split; [done|]. lia.
  - unfold log_sdu. destruct sdu as [|x sdu]; [done|]. exists su', es', er', d'. rewrite indications_app, Ef.
    split; [done|]. split; [done|]. rewrite length_app. cbn [length]. lia.
Qed.

(** an SDU of PDCP *)
Lemma pair_sdu now mui sdu sg su es er acc d : drb_pair sg su es er acc d -> 0 < Z.of_nat (length sdu) <= NR_SDU_MAX ->
  exists sg0 space sg' es', nr_rlc_get_available_tx_space sg rnti lcid = Ok (sg0, space) /\
    nr_rlc_data_req now sg0 rnti false drb_id mui sdu = Ok sg' /\
    drb_pair sg' su es' er (if Z.of_nat (length sdu) <=? space then acc ++ [sdu] else acc) d.
Proof.
  intros [Cg Cu P Ht Hs Htr Hm] Hsdu.
  destruct (channel_space sg rnti lcid j es Cg) as (sg0 & Esp & Cg0).
  exists sg0, (nr_rlc_entity_um_available_tx_space es). set (es1 := es <| t_current := nr_rlc_current_time sg0 |>).
  assert (P1 : um_pipe es1 er acc d).
  { replace er with (er <| t_current := t_current er |>) by by destruct er. by apply pipe_time. }
  destruct (pipe_send_ok es1 er acc d now sdu mui P1 Hsdu) as (es' & E & P' & Es & Et & _).
  pose proof (um_recv_sdu_timer _ _ _ _ _ E) as Ht'.
  destruct (channel_sdu now sg0 rnti lcid j es sdu mui es' Cg0 Ht E) as (sg' & E' & Cg' & _ & _).
  { rewrite Et. apply Cg. }
  exists sg', es'. split; [done|]. split; [done|]. split; try done; [by rewrite Ht'|by rewrite Es].
Qed.

Lemma channel_tick s id j' e : channel s id lcid j' e -> channel (nr_rlc_ms_tick s) id lcid j' e.
Proof. intros []. by split. Qed.

(** ** A transport block *)

(** the indications of a transport block at the RLC of the UE *)
Lemma indicate_log su log ev : indications su log = fold_res indicate (ind log) su /\
  (match ev with Rlc_data_ind _ _ => False | _ => True end -> fold_res indicate (ev :: ind log) su = fold_res indicate (ind log) su).
Proof.
  split; [|by destruct ev]. unfold indications. revert su. induction log as [|x log IH]; intros su; [done|].
  cbn [ind fmap list_fmap fold_res indicate]. destruct (nr_mac_rlc_data_ind su ue_num (fst x) (snd x)); [|done].
  cbn [res_bind]. apply IH.
Qed.

(** the MAC of the UE can receive *)
Record mac_ready (m : NR_UE_MAC_INST_t) : Prop := {
  mr_tag : tag_Id m = tag;
  mr_ra : two_step (ra m) = true -> ra_state (ra m) <> nrRA_WAIT_MSGB;
  mr_lc : receives m [lcid] }.

Lemma mac_ready_after frame slot c m log : mac_ready m ->
  mac_ready (ue_emit (after_ta frame slot n_slots koffset c m) log).
Proof. intros []. unfold after_ta. destruct (ta_apply c); by split. Qed.

Record stats_ok (st : dl_pdu_stats) : Prop := {
  so_len : length (lc_bytes st) = 64%nat;
  so_sdus : num_mac_sdu st = u64 (num_mac_sdu st);
  so_bytes : total_sdu_bytes st = u64 (total_sdu_bytes st) }.

(** the two ends between the steps *)
Record drb_inv (l : drb_link) (es er : nr_rlc_entity_um_t) (d : list (list Z)) : Prop := {
  di_pair : drb_pair (dl_gnb l) (dl_ue l) es er (dl_sent l) d;
  di_mac : mac_ready (dl_mac l);
  di_stats : stats_ok (dl_stats l) }.

Lemma header_sum es l : 0 <= sum_seg s_size l -> (forall g, g ∈ l -> 0 < s_size g) ->
  0 <= sum_seg (fun g => compute_pdu_header_size es g + s_size g) l /\
  match l with [] => True | g :: _ => compute_pdu_header_size es g < sum_seg (fun g => compute_pdu_header_size es g + s_size g) l end.
Proof.
  intros _ Hp. assert (forall k, (forall g, g ∈ k -> 0 < s_size g) -> 0 <= sum_seg (fun g => compute_pdu_header_size es g + s_size g) k) as Hk.
  { intros k Hk. apply sum_seg_nonneg. intros g Hg. pose proof (um_header_pos es g). pose proof (Hk g Hg). lia. }
  split; [by apply Hk|]. destruct l as [|g l]; [done|]. rewrite sum_seg_cons.
  pose proof (Hk l ltac:(intros; apply Hp; by right)). pose proof (Hp g ltac:(left)). lia.
Qed.

Lemma block_ok now frame slot c TBS l es er d : drb_inv l es er d -> 1 <= lcid <= 31 -> 0 <= tag < 4 -> ce_ok c ->
  (forall ces, nr_write_ce_dlsch_pdu c tag 255 None = Ok ces -> Z.of_nat (length ces) < TBS) ->
  exists l' es' er' d', transport_block l now frame slot c TBS = Ok l' /\ drb_inv l' es' er' d' /\
    dl_sent l' = dl_sent l /\ waiting es' <= waiting es /\
    ((forall ces, nr_write_ce_dlsch_pdu c tag 255 None = Ok ces -> Z.of_nat (length ces) + 8 <= TBS) ->
     waiting es' <= Z.max 0 (waiting es - 1)).
Proof.
  intros [P M S] Hl Htag Hc Hces. unfold transport_block.
  destruct (channel_status (dl_gnb l) rnti lcid j es (dp_gnb _ _ _ _ _ _ P) (dp_timer _ _ _ _ _ _ P))
    as (sg1 & t & Est & C1 & T1 & M1).
  rewrite Est. cbn [res_bind]. set (bytes := bs_tx_size _). set (es1 := es <| t_current := t |>) in *.
  assert (P1 : drb_pair sg1 (dl_ue l) es1 er (dl_sent l) d).
  { destruct P as [Cg Cu P Ht Hs Htr Hm]. split; try done.
    replace er with (er <| t_current := t_current er |>) by by destruct er. by apply pipe_time. }
  pose proof (uw_bs _ (up_tx _ _ _ _ (dp_pipe _ _ _ _ _ _ P))) as Hbs. fold bytes in Hbs.
  destruct (header_sum es (tx_list es)) as [Hb0 Hb1];
    [by eapply pipe_pending_nonneg, (dp_pipe _ _ _ _ _ _ P)|apply (up_pos _ _ _ _ (dp_pipe _ _ _ _ _ _ P))|].
  rewrite <- Hbs in Hb0, Hb1.
  assert (Hst : indexed [lcid] (<[Z.to_nat lcid:=bytes]> (replicate 32 0))).
  { intros x ->%list_elem_of_singleton. rewrite length_insert, length_replicate. lia. }
  destruct (dl_pdu_ok (H := gnb_rlc now) (L := gnb_laws now (dl_ue l) (dl_sent l) (waiting es)) frame slot n_slots koffset false c tag bytes
    (<[Z.to_nat lcid:=bytes]> (replicate 32 0)) None sg1 [] TBS (dl_stats l) (dl_mac l <| ue_trace := [] |>))
    as (sg2 & pdu & st & log & E & _ & (su & es2 & er2 & d2 & Ef & P2 & Hw) & Hb & Eu & Hsn & Hlen & Hnone).
  { exists (dl_ue l), es1, er, d. split; [done|]. split; [done|]. change (waiting es1) with (waiting es). change (Z.of_nat (length (@nil (Z * list Z)))) with 0. lia. }
  all: try done.
  { apply M. }
  { apply M. }
  { apply M. }
  { apply Forall_insert; [by apply Forall_replicate|done]. }
  { intros x ->%list_elem_of_singleton. pose proof (so_len _ S). lia. }
  { apply S. }
  { apply S. }
  rewrite E. cbn [res_bind]. rewrite Eu. cbn [res_bind].
  set (m' := ue_emit _ _). cbn [app] in Ef.
  assert (fold_res indicate (ue_trace m') (dl_ue l) = Ok su) as ->.
  { unfold m', after_ta. destruct (indicate_log (dl_ue l) log (Timer_start Time_alignment)) as [E1 E2].
    rewrite <- Ef, E1. destruct (ta_apply c); [|done]. cbn. rewrite <- E2 by done. done. }
  cbn [res_bind]. eexists _, es2, er2, d2. split; [done|].
  assert (mac_ready m') as M' by (apply mac_ready_after; destruct M; by split).
  split; [|split; [done|split; [lia|]]].
  - split; cbn; [done|done|]. split; [by rewrite Hlen, (so_len _ S)|done|]. rewrite Hb. unfold u64. by rewrite Z.mod_mod.
  - intros H8. destruct log as [|x log]; [|cbn in Hw; lia].
    destruct (tx_list es) as [|g rest] eqn:Eq; [cbn in Hw |- *; lia|]. exfalso.
    pose proof E as E'. unfold dlsch_pdu in E'. apply res_bind_ok in E' as (ces & Ec & _). specialize (H8 ces Ec).
    pose proof (um_header_pos es g) as Hh.
    specialize (Hnone ces lcid bytes Ec ltac:(lia) eq_refl eq_refl).
    rewrite list_lookup_insert_eq in Hnone by (rewrite length_replicate; lia).
    specialize (Hnone eq_refl ltac:(lia) ltac:(lia)).
    destruct (pair_request now sg1 (dl_ue l) es1 er (dl_sent l) d (Z.min bytes (TBS - Z.of_nat (length ces) - 3)) P1 ltac:(lia))
      as (sg' & sdu & es' & Er & _ & _ & H).
    change (rlc_data_req sg1 lcid) with (nr_mac_rlc_data_req now sg1 rnti lcid) in Hnone.
    rewrite Er in Hnone. injection Hnone as -> ->. destruct H as [(_ & _ & _ & H)|(H & _)]; [|done].
    change (tx_list es1) with (tx_list es) in H. rewrite Eq in H.
    change (compute_pdu_header_size es1 g) with (compute_pdu_header_size es g) in H. lia.
Qed.

(** ** Runs *)

Definition drb_op_ok (op : drb_op) : Prop :=
  match op with
  | Pdcp_sdu _ _ sdu => 0 < Z.of_nat (length sdu) <= NR_SDU_MAX
  | Transport_block _ _ _ c TBS => ce_ok c /\
    forall ces, nr_write_ce_dlsch_pdu c tag 255 None = Ok ces -> Z.of_nat (length ces) < TBS
  | _ => True
  end.

(** a transport block with room for a byte of an SDU behind the control elements *)
Definition with_room (op : drb_op) : Prop :=
  match op with
  | Transport_block _ _ _ c TBS => ce_ok c /\
    forall ces, nr_write_ce_dlsch_pdu c tag 255 None = Ok ces -> Z.of_nat (length ces) + 8 <= TBS
  | _ => False
  end.

Lemma drb_step_ok l es er d op : drb_inv l es er d -> 1 <= lcid <= 31 -> 0 <= tag < 4 -> drb_op_ok op ->
  exists l' es' er' d', drb_step l op = Ok l' /\ drb_inv l' es' er' d'.
Proof.
  intros I Hl Htag Hop. destruct op as [now mui sdu| | |now frame slot c TBS]; cbn [drb_step].
  - destruct (pair_sdu now mui sdu _ _ _ _ _ _ (di_pair _ _ _ _ I) Hop) as (g0 & space & g & es' & -> & E & P).
    cbn [res_bind]. rewrite E. cbn [res_bind]. eexists _, es', er, d. split; [done|]. split; [done|apply I..].
  - eexists _, es, er, d. split; [done|]. destruct I as [[] ? ?]. split; try done. split; try done. by apply channel_tick.
  - eexists _, es, er, d. split; [done|]. destruct I as [[] ? ?]. split; try done. split; try done. by apply channel_tick.
  - destruct Hop as [Hc Hces].
    destruct (block_ok now frame slot c TBS l es er d I Hl Htag Hc Hces) as (l' & es' & er' & d' & E & I' & _).
    by exists l', es', er', d'.
Qed.

Lemma drb_run_ok ops : 1 <= lcid <= 31 -> 0 <= tag < 4 -> Forall drb_op_ok ops -> forall l es er d, drb_inv l es er d ->
  exists l' es' er' d', drb_run l ops = Ok l' /\ drb_inv l' es' er' d'.
Proof.
  intros Hl Htag. unfold drb_run. induction 1 as [|op ops Hop _ IH]; intros l es er d I; [by exists l, es, er, d|].
  destruct (drb_step_ok l es er d op I Hl Htag Hop) as (l1 & es1 & er1 & d1 & E & I1). cbn [fold_res]. rewrite E.
  cbn [res_bind]. by apply IH in I1.
Qed.

(** transport blocks with room empty the queue of the gNB *)
Lemma drb_drain tbs : 1 <= lcid <= 31 -> 0 <= tag < 4 -> Forall with_room tbs -> forall l es er d, drb_inv l es er d ->
  waiting es <= Z.of_nat (length tbs) ->
  exists l' es' er', drb_run l tbs = Ok l' /\ drb_inv l' es' er' (dl_sent l') /\ dl_sent l' = dl_sent l.
Proof.
  intros Hl Htag. unfold drb_run. induction 1 as [|op tbs Hop _ IH]; intros l es er d I Hw.
  - exists l, es, er. split; [done|]. split; [|done]. pose proof (dp_pipe _ _ _ _ _ _ (di_pair _ _ _ _ I)) as P.
    assert (tx_list es = []) as En by (eapply pipe_empty; [exact P|exact Hw]).
    pose proof (up_accepted _ _ _ _ P) as Ha. rewrite En, app_nil_r in Ha. by rewrite Ha.
  - destruct op as [| | |now frame slot c TBS]; [done..|]. destruct Hop as [Hc H8].
    destruct (block_ok now frame slot c TBS l es er d I Hl Htag Hc) as (l1 & es1 & er1 & d1 & E & I1 & Es & _ & Hd).
    { intros ces Ec. pose proof (H8 ces Ec). lia. }
    cbn [fold_res drb_step]. rewrite E. cbn [res_bind].
    destruct (IH l1 es1 er1 d1 I1) as (l2 & es2 & er2 & E2 & I2 & Es2); [specialize (Hd H8); cbn [length] in Hw; lia|].
    exists l2, es2, er2. split; [done|]. split; [done|]. congruence.
Qed.

(** ** The start *)

Lemma add_drb_channel mode map id t_reassembly sn s : 1 <= lcid <= 32 -> (j < 32)%nat ->
  nr_rlc_add_drb (mk_rlc (Some mode) [] 0 true true map []) id drb_id (um_bearer t_reassembly sn) = Ok s ->
  exists t n e, decode_sn_field_length_um sn = Ok n /\ new_nr_rlc_entity_um RLC_RX_MAXSIZE RLC_TX_MAXSIZE t n = Ok e /\
    channel s id lcid j e /\ rlc_trace s = [] /\ rlc_manager s = Some mode.
Proof.
  intros Hl Hj H. unfold nr_rlc_add_drb, um_bearer, add_drb_um, drb_id, MAX_DRBS_PER_UE in H. cbn [rlc_Config] in H.
  destruct (Z.ltb_spec 0 (Z.of_nat j + 1)); [|lia]. destruct (Z.leb_spec (Z.of_nat j + 1) 32); [|lia]. cbn [andb negb] in H.
  apply res_bind_ok in H as (t & _ & H). cbn [dl_um_sn_FieldLength ul_um_sn_FieldLength] in H.
  rewrite Z.eqb_refl in H. cbn [negb] in H. apply res_bind_ok in H as (n & En & H).
  apply res_bind_ok in H as ([s1 []] & H & Hs). injection Hs as <-.
  rewrite (with_ue_open _ id _ [] (new_ue id) []) in H; [|by eexists|by split_and!; [|constructor|right]].
  cbn [servedRadioBearer logicalChannelIdentity] in H.
  apply res_bind_ok in H as ([[u' out] []] & H & Hs). injection Hs as <-.
  apply res_bind_ok in H as (u1 & E1 & H). unfold set_lcid2rb in E1. destruct (Z.ltb_spec lcid 1); [done|].
  rewrite arr_set_ok in E1 by (change (lcid2rb (new_ue id)) with (replicate 32 NR_LCID_NONE); rewrite length_replicate; lia).
  assert (Ok_inj : forall (A : Type) (x y : A), Ok x = Ok y -> x = y) by by intros A x y [= ->].
  apply Ok_inj in E1. assert (Hd : drb u1 = replicate 32 None) by by subst u1.
  assert (Hid : ue_id u1 = id) by by subst u1.
  assert (Hr : lcid2rb u1 !! Z.to_nat (lcid - 1) = Some (NR_LCID_DRB (Z.of_nat j + 1))).
  { subst u1. cbn [lcid2rb]. apply list_lookup_insert_eq. change (lcid2rb (new_ue id)) with (replicate 32 NR_LCID_NONE).
    rewrite length_replicate. lia. }
  clear E1. replace (Z.to_nat (Z.of_nat j + 1 - 1)) with j in H by lia. rewrite Hd in H.
  assert (Hj' : replicate 32 (None : option nr_rlc_entity) !! j = Some None) by by apply lookup_replicate.
  unfold arr_get in H. rewrite Hj' in H. cbn [of_option res_bind] in H.
  apply res_bind_ok in H as (e0 & En0 & H). apply res_bind_ok in En0 as (e & Ee & En0). apply Ok_inj in En0 as <-.
  apply res_bind_ok in H as (u2 & Eu & H). injection H as <- <-.
  unfold nr_rlc_ue_add_drb_rlc_entity, MAX_DRBS_PER_UE in Eu.
  destruct (Z.ltb_spec (Z.of_nat j + 1) 1); [lia|]. destruct (Z.ltb_spec 32 (Z.of_nat j + 1)); [lia|]. cbn [orb] in Eu.
  replace (Z.to_nat (Z.of_nat j + 1 - 1)) with j in Eu by lia. rewrite Hd in Eu.
  unfold arr_get in Eu. rewrite Hj' in Eu. cbn [of_option res_bind] in Eu.
  rewrite arr_set_ok in Eu by (rewrite length_replicate; lia). cbn [res_bind] in Eu. apply Ok_inj in Eu.
  assert (Hd2 : drb u2 = <[j := Some (Um e)]> (replicate 32 None)) by by subst u2.
  assert (ue_id u2 = id /\ lcid2rb u2 = lcid2rb u1) as [Hid2 Hr2] by by subst u2.
  clear Eu.
  exists t, n, e. split; [done|]. split; [done|]. split; [|done].
  split; cbn; [by eexists|lia|done| |].
  - unfold new_nr_rlc_entity_um, common_init in Ee. destruct (negb _); [done|].
    apply res_bind_ok in Ee as (c & Ec & Ee). injection Ee as <-. apply res_bind_ok in Ec as (a & _ & Ec). by injection Ec as <-.
  - exists 0%nat, u2. split; [cbn [list_find]; by rewrite decide_True|]. split; [by rewrite Hr2|].
    rewrite Hd2. apply list_lookup_insert_eq. rewrite length_replicate. lia.
Qed.

Lemma drb_start_inv mode map m t_reassembly l : 1 <= lcid <= 32 -> (j < 32)%nat -> mac_ready m ->
  drb_start mode map m t_reassembly 0 = Ok l -> exists es er, drb_inv l es er [] /\ dl_sent l = [].
Proof.
  intros Hl Hj M H. apply res_bind_ok in H as (g & Eg & H). apply res_bind_ok in H as (u & Eu & H). injection H as <-.
  destruct (add_drb_channel _ _ _ _ _ _ Hl Hj Eg) as (t & n & es & En & Es & Cg & _ & _).
  destruct (add_drb_channel _ _ _ _ _ _ Hl Hj Eu) as (t' & n' & er & En' & Er & Cu & Tu & Mu).
  assert (n = 6) as -> by by injection En. assert (n' = 6) as -> by by injection En'.
  destruct (um_pipe_new _ _ _ _ _ _ _ _ _ Es Er ltac:(done)) as (P & Hsn & _).
  exists es, er. split; [|done]. split; [|done|by split]. split; try done.
  unfold new_nr_rlc_entity_um in Es. destruct (negb _); [done|]. apply res_bind_ok in Es as (c & _ & Es). by injection Es as <-.
Qed.
End Drb.


(** no control elements *)
Definition no_ce : NR_UE_mac_ce_ctrl_t :=
  mk_ce_ctrl false 0 (mk_zp false false 0 0 0) (mk_im false false 0 0 false 0 0 0 []) (mk_pdcch false 0 0 0)
    (mk_spcsi false 0 0 [false; false; false; false] 0) (mk_states false 0 0 0 (replicate 128 false))
    (mk_states false 0 0 0 (replicate 128 false)).
Definition ta_ce_only : NR_UE_mac_ce_ctrl_t :=
  mk_ce_ctrl true 31 (mk_zp false false 0 0 0) (mk_im false false 0 0 false 0 0 0 []) (mk_pdcch false 0 0 0)
    (mk_spcsi false 0 0 [false; false; false; false] 0) (mk_states false 0 0 0 (replicate 128 false))
    (mk_states false 0 0 0 (replicate 128 false)).

Definition drb_example : list drb_op :=
  [Pdcp_sdu 0 0 [1; 2; 3; 4; 5; 6; 7; 8]; Gnb_tick; Transport_block 0 3 7 ta_ce_only 9; Pdcp_sdu 1 1 [9; 10]; Ue_tick;
   Transport_block 1 3 8 no_ce 4].


