(* ===== verification/MacRaSpec.v ===== *)
(** * Messages of random access from the gNB to the UE

    A random access response with its uplink grant, its timing advance and its
    temporary identity arrives at the UE whose preamble it names; Msg4 resolves
    the contention of the UE with that identity; a successRAR arrives with all
    its fields, but the UE takes the timing advance that it applies from the
    subheader and not from the field. *)
From S2P Require Import Prelude MacPdu MacRlc MacDl MacDlUe MacDlSpec.

(** ** Resource indication values *)

Lemma riv_roundtrip n s N v : 0 <= s -> PRBalloc_to_locationandbandwidth0 n s N = Ok v ->
  NRRIV2BW v N = n /\ NRRIV2PRBOFFSET v N = s.
Proof.
  intros Hs. unfold PRBalloc_to_locationandbandwidth0, NRRIV2BW, NRRIV2PRBOFFSET.
  destruct (Z.ltb_spec 0 n); cbn [andb negb]; [|done].
  destruct (Z.leb_spec (n + s) N); cbn [negb]; [|done].
  change (Z.shiftr N 1) with (Z.div2 N). rewrite Z.div2_div.
  assert (N / 2 * 2 <= N < N / 2 * 2 + 2) by (pose proof (Z.div_mod N 2); pose proof (Z.mod_pos_bound N 2); lia).
  assert (forall q r, 0 <= q -> 0 <= r < N -> (N * q + r) `quot` N = q /\ (N * q + r) `rem` N = r) as Hd.
  { intros q r Hq Hr. rewrite Z.quot_div_nonneg, Z.rem_mod_nonneg by nia.
    rewrite (Z.add_comm (N * q)), (Z.mul_comm N), Z_div_plus, Z_mod_plus_full by lia.
    rewrite Z.div_small, Z.mod_small by lia. lia. }
  destruct (Z.leb_spec n (1 + N / 2)); intros [= <-].
  - destruct (Hd (n - 1) s) as [-> ->]; [lia|lia|].
    destruct (Z.leb_spec (n - 1) (N / 2 + 1)); [|lia]. destruct (Z.ltb_spec (n - 1 + s) N); [|lia].
    cbn [andb]. lia.
  - destruct (Hd (N + 1 - n) (N - 1 - s)) as [-> ->]; [lia|lia|].
    destruct (Z.ltb_spec (N + 1 - n + (N - 1 - s)) N); [lia|]. rewrite andb_false_r. lia.
Qed.

Lemma riv_nonneg n s N v : 0 <= s -> PRBalloc_to_locationandbandwidth0 n s N = Ok v -> 0 <= v.
Proof.
  intros Hs. unfold PRBalloc_to_locationandbandwidth0.
  destruct (Z.ltb_spec 0 n); cbn [andb negb]; [|done].
  destruct (Z.leb_spec (n + s) N); cbn [negb]; [|done].
  case_match; intros [= <-]; nia.
Qed.

(** ** The uplink grant *)

Record rar_ok (r : rar_in) (riv : Z) : Prop := mk_rar_ok {
  ro_preamble : 0 <= preamble_index r < 64;
  ro_ta : 0 <= timing_offset r < 4096;
  ro_rnti : 0 <= rar_rnti r < 65536;
  ro_hop : frequency_hopping r = 0;
  ro_first : 0 <= msg3_first_rb r;
  ro_riv : PRBalloc_to_locationandbandwidth0 (msg3_nb_rb r) (msg3_first_rb r) (bwp_size r) = Ok riv;
  ro_fits : riv < 2 ^ 14;
  ro_tpc : 0 <= msg3_TPC r < 8;
  ro_mcs : 0 <= mcs_index r < 16;
  ro_tda : 0 <= Msg3_tda_id r < 16 }.

Lemma lor_add a b k : 0 <= k -> 0 <= a < 2 ^ k -> Z.lor a (Z.shiftl b k) = a + 2 ^ k * b.
Proof. intros. rewrite Z.lor_comm, lor_shiftl_add by done. lia. Qed.

Lemma rar_grant_value r riv : rar_ok r riv ->
  rar_ul_grant r = Ok (2 * msg3_TPC r + 16 * mcs_index r + 256 * Msg3_tda_id r + 4096 * riv).
Proof.
  intros [_ _ _ Hh Hs Hv Hf Ht Hm Hd]. unfold rar_ul_grant. rewrite Hv. cbn [res_bind]. f_equal.
  pose proof (riv_nonneg _ _ _ _ Hs Hv).
  change (Z.shiftl 1 14 - 1) with (2 ^ 14 - 1). rewrite land_low, (Z.mod_small riv) by lia.
  rewrite Hh, Z.shiftl_0_l, Z.lor_0_r, Z.lor_0_l.
  change (2 ^ 14) with 16384 in *.
  rewrite (Z.shiftl_mul_pow2 (msg3_TPC r)) by lia. change (2 ^ 1) with 2.
  rewrite (lor_add _ _ 4) by lia. change (2 ^ 4) with 16.
  rewrite (lor_add _ _ 8) by lia. change (2 ^ 8) with 256.
  rewrite (lor_add _ _ 12) by lia. change (2 ^ 12) with 4096.
  unfold u32. rewrite Z.mod_small; lia.
Qed.

(** the octets of a grant *)
Lemma grant_octets t m d v G : 0 <= t < 8 -> 0 <= m < 16 -> 0 <= d < 16 -> 0 <= v < 16384 ->
  G = 2 * t + 16 * m + 256 * d + 4096 * v ->
  G mod 256 = 2 * t + 16 * m /\ G / 256 mod 256 = d + 16 * (v mod 16) /\
  G / 65536 mod 256 = v / 16 mod 256 /\ G / 16777216 mod 256 = v / 4096.
Proof. intros. subst. split_and!; Z.to_euclidean_division_equations; lia. Qed.

Lemma octet_eq G k : 0 <= k -> Z.land (u8 (Z.shiftr G k)) 255 = G / 2 ^ k mod 256.
Proof.
  intros. change 255 with (2 ^ 8 - 1). rewrite land_low, Z.shiftr_div_pow2 by lia.
  unfold u8. change (2 ^ 8) with 256. by rewrite Z.mod_mod.
Qed.

Lemma f_alloc_eq v : 0 <= v < 16384 ->
  u16 (Z.lor (Z.lor (v mod 16) (Z.shiftl (v / 16 mod 256) 4)) (Z.shiftl (Z.land (v / 4096) 3) 12)) = v.
Proof.
  intros. change 3 with (2 ^ 2 - 1). rewrite land_low by lia. change (2 ^ 2) with 4.
  rewrite (lor_add _ _ 4) by (try apply Z.mod_pos_bound; lia).
  pose proof (Z.mod_pos_bound v 16 ltac:(lia)). pose proof (Z.mod_pos_bound (v / 16) 256 ltac:(lia)).
  change (2 ^ 4) with 16. rewrite (lor_add _ _ 12) by (change (2 ^ 12) with 4096; lia). change (2 ^ 12) with 4096.
  unfold u16. Z.to_euclidean_division_equations; lia.
Qed.

Section Ue.
Context (n_slots_frame ntn_ue_koffset : Z).
Abbreviation process_rar := (nr_ue_process_rar n_slots_frame ntn_ue_koffset).

(** the UE after the response that is meant for it *)
Definition after_rar (e : rar_env) (r : rar_in) (riv : Z) (m : NR_UE_MAC_INST_t) : NR_UE_MAC_INST_t :=
  let m := m <| ra := ra m <| RA_backoff_limit := 5 * scaling_factor_bi (ra m) * (n_slots_frame `quot` 10) |>
      <| Msg3_TPC := 2 * msg3_TPC r - 6 |> <| t_crnti := rar_rnti r |> |> in
  let m := ue_emit m [Timer_stop Response_window] in
  let m := set_time_alignment n_slots_frame ntn_ue_koffset m (timing_offset r) rar_ta (frame_tx e) (slot_tx e) in
  ue_emit (if msg3_C_RNTI m then m else ue_emit m [Rrc_msg3_ind (rar_rnti r) false])
    [Schedule_msg3 (mcs_index r) (Msg3_tda_id r) riv 0].

(** a UE with another preamble *)
Definition other_rar (m : NR_UE_MAC_INST_t) : NR_UE_MAC_INST_t :=
  ue_emit (m <| ra := ra m <| t_crnti := 0 |>
             <| RA_backoff_limit := 5 * scaling_factor_bi (ra m) * (n_slots_frame `quot` 10) |> |>)
    [Timer_suspension Response_window].

(** the two kinds of subheader *)
Lemma rar_step_bi fuel e buf rarh nsh nsub m b : pdu_at buf rarh = Ok b ->
  bits 6 1 b = 0 -> bits 7 1 b = 1 -> Z.land b 15 = 0 ->
  rar_loop n_slots_frame ntn_ue_koffset (S fuel) e buf rarh nsh nsub m =
    rar_loop n_slots_frame ntn_ue_koffset fuel e buf (rarh + 1) (u8 (nsh + 1)) nsub
      (m <| ra := ra m <| RA_backoff_limit := 5 * scaling_factor_bi (ra m) * (n_slots_frame `quot` 10) |> |>).
Proof. intros Hb H6 H7 H0. cbn [rar_loop]. rewrite Hb. cbn [res_bind]. unfold backoff_limit. by rewrite H6, H7, H0. Qed.

Lemma rar_step_rapid fuel e buf rarh nsh nsub m b rar : pdu_at buf rarh = Ok b ->
  bits 6 1 b = 1 -> bits 7 1 b = 0 -> mem_read buf (u8 (nsh + 1) + (u8 (nsub + 1) - 1) * 7) 7 = Ok rar ->
  rar_loop n_slots_frame ntn_ue_koffset (S fuel) e buf rarh nsh nsub m =
    Ok (if bits 0 6 b =? ra_PreambleIndex (ra m) then
          let m2 := handle_rar_reception n_slots_frame ntn_ue_koffset e (ue_emit m [Timer_stop Response_window]) rar in
          if cfra (ra m2) then nr_ra_succeeded m2 else m2
        else ue_emit m [Timer_suspension Response_window]).
Proof.
  intros Hb H6 H7 Hr. cbn [rar_loop]. rewrite Hb. cbn [res_bind]. rewrite H6, H7, Hr. cbn [Z.eqb Pos.eqb res_bind].
  by case_match.
Qed.

(** a response with a backoff indicator and one RAR of 7 octets *)
Lemma rar_loop_one e m preamble rar : 0 <= preamble < 64 -> length rar = 7%nat ->
  process_rar e m true (pack [(4, 0); (2, 0); (1, 0); (1, 1)] :: pack [(6, preamble); (1, 1); (1, 0)] :: rar) =
    Ok (let m1 := m <| ra := ra m <| t_crnti := 0 |>
            <| RA_backoff_limit := 5 * scaling_factor_bi (ra m) * (n_slots_frame `quot` 10) |> |> in
        if preamble =? ra_PreambleIndex (ra m) then
          let m2 := handle_rar_reception n_slots_frame ntn_ue_koffset e (ue_emit m1 [Timer_stop Response_window]) rar in
          if cfra (ra m2) then nr_ra_succeeded m2 else m2
        else ue_emit m1 [Timer_suspension Response_window]).
Proof.
  intros Hp Hr. unfold nr_ue_process_rar. cbn [negb].
  erewrite rar_step_bi by reflexivity. cbn [length].
  rewrite (rar_step_rapid _ _ _ _ _ _ _ (pack [(6, preamble); (1, 1); (1, 0)]) rar).
  - rewrite bits_head by lia. change (2 ^ 6) with 64. by rewrite Z.mod_small by lia.
  - change (0 + 1) with 1. by rewrite pdu_at_cons by lia.
  - by rewrite bits_tail, bits_head by lia.
  - by rewrite bits_tail, bits_tail, bits_head by lia.
  - change (u8 (u8 (0 + 1) + 1) + (u8 (0 + 1) - 1) * 7) with 2. unfold mem_read. cbn [length].
    destruct (Z.ltb_spec (Z.of_nat (S (S (length rar)))) (2 + 7)); [lia|]. cbn [orb Z.ltb Z.compare].
    change (Z.to_nat 2) with 2%nat. cbn [drop]. change (Z.to_nat 7) with 7%nat. rewrite <- Hr. f_equal. apply firstn_all.
Qed.

(** the reception of a response with the given fields *)
Lemma handle_rar_fields e m rar tpc mcs tda f_alloc ta rnti :
  Z.land (Z.shiftr (nth 4 rar 0) 1) 7 = tpc -> Z.shiftr (nth 4 rar 0) 4 = mcs -> Z.land (nth 3 rar 0) 15 = tda ->
  u16 (Z.lor (Z.lor (Z.shiftr (nth 3 rar 0) 4) (Z.shiftl (nth 2 rar 0) 4))
         (Z.shiftl (Z.land (bits 0 3 (nth 1 rar 0)) 3) 12)) = f_alloc ->
  Z.shiftr (bits 0 3 (nth 1 rar 0)) 2 = 0 ->
  bits 3 5 (nth 1 rar 0) + Z.shiftl (bits 0 7 (nth 0 rar 0)) 5 = ta ->
  u16 (nth 6 rar 0 + Z.shiftl (nth 5 rar 0) 8) = rnti ->
  tda_valid e tda = true -> pusch_scheduled e = true -> ta_timer_active e = false -> cfra (ra m) = false ->
  handle_rar_reception n_slots_frame ntn_ue_koffset e m rar =
    (let m := m <| ra := ra m <| Msg3_TPC := 2 * tpc - 6 |> <| t_crnti := rnti |> |> in
     let m := set_time_alignment n_slots_frame ntn_ue_koffset m ta rar_ta (frame_tx e) (slot_tx e) in
     ue_emit (if msg3_C_RNTI m then m else ue_emit m [Rrc_msg3_ind rnti false])
       [Schedule_msg3 mcs tda f_alloc 0]).
Proof.
  intros Et Em Ed Ef Eh Ea Er Hd Hs Htm Hc. unfold handle_rar_reception.
  rewrite Et, Em, Ed, Ef, Eh, Ea, Er, Hd, Hs, Htm. cbn [negb].
  rewrite (Z.shiftl_mul_pow2 tpc) by lia. change (2 ^ 1) with 2. rewrite (Z.mul_comm tpc).
  unfold set_time_alignment, ue_emit. cbn. rewrite Hc. by destruct (msg3_C_RNTI m).
Qed.

(** the two halves of a number of 12 or 16 bits *)
Lemma timing_halves t : 0 <= t < 4096 ->
  u8 (Z.land t 31) mod 2 ^ 5 + Z.shiftl (u8 (Z.shiftr t 5) mod 2 ^ 7) 5 = t.
Proof.
  intros. change 31 with (2 ^ 5 - 1). rewrite land_low, Z.shiftr_div_pow2, Z.shiftl_mul_pow2 by lia.
  unfold u8. change (2 ^ 5) with 32. change (2 ^ 7) with 128. Z.to_euclidean_division_equations; lia.
Qed.
Lemma rnti_halves t : 0 <= t < 65536 -> u16 (u8 (Z.land t 255) + Z.shiftl (u8 (Z.shiftr t 8)) 8) = t.
Proof.
  intros. change 255 with (2 ^ 8 - 1). rewrite land_low, Z.shiftr_div_pow2, Z.shiftl_mul_pow2 by lia.
  unfold u8, u16. change (2 ^ 8) with 256. Z.to_euclidean_division_equations; lia.
Qed.

Lemma nr_fill_rar_ok r riv : rar_ok r riv -> exists rar, length rar = 7%nat /\
  nr_fill_rar r = Ok (pack [(4, 0); (2, 0); (1, 0); (1, 1)] ::
                      pack [(6, preamble_index r); (1, 1); (1, 0)] :: rar, r <| msg3_TPC := 1 |>) /\
  forall e m, tda_valid e (Msg3_tda_id r) = true -> pusch_scheduled e = true -> ta_timer_active e = false ->
    cfra (ra m) = false ->
    handle_rar_reception n_slots_frame ntn_ue_koffset e m rar =
      (let m := m <| ra := ra m <| Msg3_TPC := 2 * msg3_TPC r - 6 |> <| t_crnti := rar_rnti r |> |> in
       let m := set_time_alignment n_slots_frame ntn_ue_koffset m (timing_offset r) rar_ta (frame_tx e) (slot_tx e) in
       ue_emit (if msg3_C_RNTI m then m else ue_emit m [Rrc_msg3_ind (rar_rnti r) false])
         [Schedule_msg3 (mcs_index r) (Msg3_tda_id r) riv 0]).
Proof.
  intros H. unfold nr_fill_rar. rewrite (ro_hop _ _ H), (rar_grant_value _ _ H). cbn [Z.eqb negb res_bind].
  destruct H as [_ Hta Hrn _ Hs Hv Hf Ht Hm Hd]. pose proof (riv_nonneg _ _ _ _ Hs Hv).
  change (2 ^ 14) with 16384 in *.
  set (G := 2 * msg3_TPC r + _ + _ + _).
  destruct (grant_octets (msg3_TPC r) (mcs_index r) (Msg3_tda_id r) riv G) as (G4 & G3 & G2 & G1); [lia..|].
  assert (forall k, 0 <= k -> Z.land (u8 (Z.shiftr G k)) 7 = G / 2 ^ k mod 256 mod 8) as Hl7.
  { intros. change 7 with (2 ^ 3 - 1). rewrite land_low, Z.shiftr_div_pow2 by lia. done. }
  assert ((G / 2 ^ 24) mod 256 mod 8 mod 2 ^ 3 = riv / 4096) as Hv24.
  { change (2 ^ 24) with 16777216. rewrite G1. change (2 ^ 3) with 8. Z.to_euclidean_division_equations; lia. }
  eexists. split; [|split; [reflexivity|]]; [reflexivity|].
  intros e m Htda Hsched Htimer Hcf. apply handle_rar_fields; try done; cbn [nth].
  all: rewrite ?octet_eq, ?Hl7, ?G3, ?G2, ?G1 by lia.
  all: try (replace (Z.land (u8 G) 255) with (G / 2 ^ 0 mod 256)
              by (rewrite <- octet_eq by lia; by rewrite Z.shiftr_0_r); rewrite Z.pow_0_r, Z.div_1_r, G4).
  - change 7 with (2 ^ 3 - 1). rewrite land_low, Z.shiftr_div_pow2 by lia.
    change (2 ^ 3) with 8. change (2 ^ 1) with 2. Z.to_euclidean_division_equations; lia.
  - rewrite Z.shiftr_div_pow2 by lia. change (2 ^ 4) with 16. Z.to_euclidean_division_equations; lia.
  - change 15 with (2 ^ 4 - 1). rewrite land_low by lia. change (2 ^ 8) with 256. change (2 ^ 4) with 16.
    rewrite G3. Z.to_euclidean_division_equations; lia.
  - rewrite bits_head, Hv24 by lia. change (2 ^ 16) with 65536. change (2 ^ 8) with 256. rewrite G3, G2.
    replace (Z.shiftr (Msg3_tda_id r + 16 * (riv mod 16)) 4) with (riv mod 16)
      by (rewrite Z.shiftr_div_pow2 by lia; change (2 ^ 4) with 16; Z.to_euclidean_division_equations; lia).
    by apply f_alloc_eq.
  - rewrite bits_head, Hv24, Z.shiftr_div_pow2 by lia. apply Z.div_small.
    change (2 ^ 2) with 4. Z.to_euclidean_division_equations; lia.
  - rewrite bits_tail, !bits_head by lia. by apply timing_halves.
  - by apply rnti_halves.
Qed.

Lemma rar_arrives r riv : rar_ok r riv -> exists buf, nr_fill_rar r = Ok (buf, r <| msg3_TPC := 1 |>) /\
  forall e m, tda_valid e (Msg3_tda_id r) = true -> pusch_scheduled e = true -> ta_timer_active e = false ->
    cfra (ra m) = false ->
    process_rar e m true buf =
      Ok (if preamble_index r =? ra_PreambleIndex (ra m) then after_rar e r riv m else other_rar m).
Proof.
  intros H. destruct (nr_fill_rar_ok r riv H) as (rar & Hl & -> & Hr). eexists. split; [done|].
  intros e m H1 H2 H3 H4. rewrite rar_loop_one by (done || apply (ro_preamble _ _ H)). f_equal. cbv zeta.
  case_match; [|done]. rewrite Hr by done. unfold after_rar, ue_emit, set_time_alignment. cbn.
  destruct (msg3_C_RNTI m); cbn; by rewrite H4.
Qed.
End Ue.

(** C34: the random access response that the gNB writes for a preamble: a UE
    that sent it takes over the temporary C-RNTI, the timing advance and the
    power command and schedules Msg3 with the MCS, the time allocation and the
    blocks of the grant, and the power command is back at 0 dB for
    retransmissions; a UE with another preamble suspends its response
    window and keeps no identity; the resource indication value decodes to the
    first block and the number of blocks of Msg3. *)
Theorem rar_received r riv n_slots_frame ntn_ue_koffset : rar_ok r riv -> exists buf,
  nr_fill_rar r = Ok (buf, r <| msg3_TPC := 1 |>) /\
  NRRIV2BW riv (bwp_size r) = msg3_nb_rb r /\ NRRIV2PRBOFFSET riv (bwp_size r) = msg3_first_rb r /\
  forall e m, tda_valid e (Msg3_tda_id r) = true -> pusch_scheduled e = true -> ta_timer_active e = false ->
    cfra (ra m) = false ->
    nr_ue_process_rar n_slots_frame ntn_ue_koffset e m true buf =
      Ok (if preamble_index r =? ra_PreambleIndex (ra m)
          then after_rar n_slots_frame ntn_ue_koffset e r riv m
          else other_rar n_slots_frame m).
Proof.
  intros H. destruct (rar_arrives n_slots_frame ntn_ue_koffset r riv H) as (buf & E & Hm).
  exists buf. split; [done|].
  destruct (riv_roundtrip _ _ _ _ (ro_first _ _ H) (ro_riv _ _ H)) as [-> ->]. done.
Qed.

Definition rar_example : rar_in :=
  mk_rar_in 17 300 4660 0 106 8 90 3 9 2.
Lemma rar_received_witness :
  let riv := 832 in
  exists buf, nr_fill_rar rar_example = Ok (buf, rar_example <| msg3_TPC := 1 |>) /\ NRRIV2BW riv 106 = 8 /\ NRRIV2PRBOFFSET riv 106 = 90 /\ length buf = 9%nat.
Proof.
  destruct (rar_received rar_example 832 20 0) as (buf & E & H1 & H2 & _).
  { split; cbn; lia || reflexivity. }
  exists buf. split; [exact E|split; [exact H1|split; [exact H2|]]].
  vm_compute in E. injection E as <-. reflexivity.
Defined.

(** ** Contention resolution: Msg4 and MsgB *)

(** the SDU of the SRB behind the head of the message *)
Definition srb_sdu (lcid : Z) (sdu : list Z) : list Z :=
  (if blen sdu <? 256 then NR_MAC_SUBHEADER_SHORT 0 0 lcid (blen sdu)
   else NR_MAC_SUBHEADER_LONG 0 1 lcid (blen sdu)) ++ sdu.

Lemma srb_sdu_length lcid sdu : blen (srb_sdu lcid sdu) <= blen sdu + 3.
Proof. unfold srb_sdu. rewrite length_app. case_match; cbn [length NR_MAC_SUBHEADER_SHORT NR_MAC_SUBHEADER_LONG]; lia. Qed.

Lemma srb_header lcid (sdu : list Z) : blen sdu < 65536 ->
  sdu_header (if blen sdu <? 256 then NR_MAC_SUBHEADER_SHORT 0 0 lcid (blen sdu)
              else NR_MAC_SUBHEADER_LONG 0 1 lcid (blen sdu)) lcid (blen sdu).
Proof. intros. destruct (Z.ltb_spec (blen sdu) 256); [left|right]; (split; [done|lia]). Qed.

Lemma take_whole (pdu : list Z) n : blen pdu <= n -> take (Z.to_nat n) (pdu ++ pad (n - blen pdu)) = pdu ++ pad (n - blen pdu).
Proof. intros. apply firstn_all2. pose proof (pad_length (n - blen pdu)). rewrite length_app. lia. Qed.

Section Msg4.
Context `{RlcData St}.
Context (frame slot n_slots_frame ntn_ue_koffset : Z) (iqplayer : bool).
Abbreviation parses := (parses frame slot n_slots_frame ntn_ue_koffset iqplayer).
Abbreviation dl_sub_pdus := (dl_sub_pdus frame slot n_slots_frame ntn_ue_koffset iqplayer).
Abbreviation after_ta := (after_ta frame slot n_slots_frame ntn_ue_koffset).

(** SRB0, or another SRB that is not suspended *)
Definition srb_open (m : NR_UE_MAC_INST_t) (lcid : Z) : Prop :=
  lcid = DL_SCH_LCID_CCCH \/ 1 <= lcid <= 32 /\ is_lcid_suspended m lcid = false.

Lemma parses_srb m lcid sdu : srb_open m lcid -> Exists (fun b => b <> 0) sdu -> blen sdu < 65536 ->
  parses (srb_sdu lcid sdu) m (ue_emit m [Rlc_data_ind lcid sdu]).
Proof.
  intros [->|[Hl Hs]] He Hlen.
  - apply parses_ccch; [|done|by apply srb_header]. destruct sdu; [by inversion He|cbn; lia].
  - apply parses_sdu; [done|done|by apply srb_header].
Qed.

(** Msg4 with its padding *)
Lemma msg4_bytes c tag tpc0 crnti id ri ti lcid tb_size s s' sdu ces :
  nr_write_ce_dlsch_pdu c tag 255 (Some id) = Ok ces -> rlc_data_req s lcid CCCH_SDU_SIZE = Ok (s', sdu) ->
  blen ces + 3 + blen sdu <= tb_size ->
  msg4_pdu false c tag tpc0 crnti id ri ti lcid tb_size s =
    Ok (s', (ces ++ srb_sdu lcid sdu) ++ pad (tb_size - blen (ces ++ srb_sdu lcid sdu))).
Proof.
  intros E1 E2 Hl. unfold msg4_pdu. rewrite E1, E2. cbn [res_bind]. fold (srb_sdu lcid sdu).
  rewrite take_whole; [done|]. pose proof (srb_sdu_length lcid sdu). rewrite length_app. lia.
Qed.

Lemma msgb_bytes c tag tpc0 crnti id ri ti lcid tb_size s s' sdu head :
  nr_fill_successrar (ta_update c) tpc0 crnti id ri ti = Ok head -> rlc_data_req s lcid CCCH_SDU_SIZE = Ok (s', sdu) ->
  blen head + 3 + blen sdu <= tb_size ->
  msg4_pdu true c tag tpc0 crnti id ri ti lcid tb_size s =
    Ok (s', head ++ srb_sdu lcid sdu ++ pad (tb_size - blen (head ++ srb_sdu lcid sdu))).
Proof.
  intros E1 E2 Hl. unfold msg4_pdu. rewrite E1, E2. cbn [res_bind]. fold (srb_sdu lcid sdu).
  rewrite take_whole, <- app_assoc; [done|]. pose proof (srb_sdu_length lcid sdu). rewrite length_app. lia.
Qed.

(** the octets of a successRAR *)
Definition success_octets (ta tpc0 crnti : Z) (id : list Z) (ri ti : Z) : list Z :=
  id ++ [pack [(3, ti); (2, tpc0); (2, 1); (1, 0)]; pack [(4, u8 (Z.shiftr ta 8)); (4, ri)];
         u8 (Z.land ta 255); u8 (Z.shiftr crnti 8); u8 (Z.land crnti 255)].

(** the steps of the loop *)
Abbreviation loop := (successrar_loop n_slots_frame iqplayer).
Lemma successrar_step fuel pdu pdu_len n E m b : (n <? pdu_len) = true -> E <> 0 -> pdu_at pdu n = Ok b ->
  bits 6 1 b = 0 ->
  loop (S fuel) pdu pdu_len n E m =
    (if bits 5 1 b =? 0 then
       let* limit := backoff_limit n_slots_frame m b in
       loop fuel pdu pdu_len (n + 1) (bits 7 1 b) (m <| ra := ra m <| RA_backoff_limit := limit |> |>)
     else
       let* rar := mem_read pdu (n + 1) 11 in
       loop fuel pdu pdu_len (n + 12) (bits 7 1 b) (success_rar iqplayer m rar)).
Proof. intros Hn HE Hb H6. cbn [successrar_loop]. rewrite Hn, Hb, (proj2 (Z.eqb_neq _ _) HE). cbn [negb andb res_bind]. by rewrite H6. Qed.

Lemma successrar_end fuel pdu pdu_len n m : loop (S fuel) pdu pdu_len n 0 m = Ok (m, n).
Proof. cbn [successrar_loop Z.eqb negb]. by rewrite andb_false_r. Qed.

Lemma successrar_read m id ta tpc0 crnti ri ti rest : length id = 6%nat ->
  nr_ue_validate_successrar frame slot n_slots_frame ntn_ue_koffset iqplayer
    ([0x80; 0x20] ++ success_octets ta tpc0 crnti id ri ti ++ rest)
    (blen ([0x80; 0x20] ++ success_octets ta tpc0 crnti id ri ti ++ rest)) m =
  Ok (set_time_alignment n_slots_frame ntn_ue_koffset
        (success_rar iqplayer (m <| ra := ra m <| RA_backoff_limit :=
            5 * scaling_factor_bi (ra m) * (n_slots_frame `quot` 10) |> |>)
          (success_octets ta tpc0 crnti id ri ti))
        32 adjustment_ta frame slot, 13).
Proof.
  intros Hid. unfold nr_ue_validate_successrar.
  set (pdu := [0x80; 0x20] ++ _).
  assert (blen (success_octets ta tpc0 crnti id ri ti) = 11) as H11
    by (unfold success_octets; rewrite length_app; cbn [length]; lia).
  assert (13 <= blen pdu) by (unfold pdu; rewrite !length_app; cbn [length]; lia).
  assert (exists k, S (Z.to_nat (blen pdu)) = S (S (S k))) as [k ->] by (exists (length pdu - 2)%nat; lia).
  rewrite (successrar_step _ _ _ _ _ _ 0x80) by (done || apply Z.ltb_lt; lia).
  change (bits 5 1 0x80 =? 0) with true. change (bits 7 1 0x80) with 1.
  change (backoff_limit n_slots_frame ?x 0x80) with (Ok (5 * scaling_factor_bi (ra x) * (n_slots_frame `quot` 10))).
  cbn [res_bind]. rewrite (successrar_step _ _ _ _ _ _ 0x20) by (done || apply Z.ltb_lt; lia).
  change (bits 5 1 0x20 =? 0) with false. change (bits 7 1 0x20) with 0.
  change (0 + 1 + 1) with 2. rewrite <- H11. unfold pdu. rewrite mem_read_mid by done.
  cbn [res_bind]. by rewrite successrar_end.
Qed.
End Msg4.


Definition ce_none (ta : bool) (v : Z) : NR_UE_mac_ce_ctrl_t :=
  mk_ce_ctrl ta v (mk_zp false false 0 0 0) (mk_im false false 0 0 false 0 0 0 []) (mk_pdcch false 0 0 0)
    (mk_spcsi false 0 0 (replicate 4 false) 0) (mk_states false 0 0 0 (replicate 128 false))
    (mk_states false 0 0 0 (replicate 128 false)).
Definition ue_waiting (two : bool) (st : nrRA_UE_state_t) : NR_UE_MAC_INST_t :=
  mk_ue 0 false false 0 [(1, false)]
    (mk_ra st false two 0 0 0 0 0 0 4660 true 17 0 1 10 1 0 [1; 2; 3; 4; 5; 6]) (mk_ta no_ta 0 0 0) [].
Definition srb0_queue (pdu : list Z) : pdu_queues := fun lcid => if lcid =? 0 then [pdu] else [].


(** the fields of a successRAR *)
Lemma low_bits w b : Z.land b (Z.ones w) = bits 0 w b.
Proof. unfold bits. by rewrite Z.shiftr_0_r. Qed.

Lemma success_fields ta tpc0 crnti id ri ti : length id = 6%nat -> 0 <= ta < 4096 -> 0 <= tpc0 < 4 ->
  0 <= crnti < 65536 -> 0 <= ri < 16 -> 0 <= ti < 8 ->
  let at_ i := nth i (success_octets ta tpc0 crnti id ri ti) 0 in
  take 6 (success_octets ta tpc0 crnti id ri ti) = id /\
  Z.land (at_ 6%nat) 7 = ti /\ Z.land (Z.shiftr (at_ 6%nat) 3) 3 = tpc0 /\
  Z.land (Z.shiftr (at_ 7%nat) 4) 15 = ri /\
  Z.lor (u16 (Z.shiftl (Z.land (at_ 7%nat) 15) 8)) (at_ 8%nat) = ta /\
  Z.lor (u16 (Z.shiftl (at_ 9%nat) 8)) (at_ 10%nat) = crnti.
Proof.
  intros Hid Hta Htp Hcr Hri Hti. unfold success_octets.
  do 6 (destruct id as [|? id]; [done|]). destruct id; [|done]. cbn [app nth take]. cbv zeta.
  change (Z.land ?b 7) with (Z.land b (Z.ones 3)). change (Z.land (Z.shiftr ?b 3) 3) with (bits 3 2 b).
  change (Z.land (Z.shiftr ?b 4) 15) with (bits 4 4 b). change (Z.land ?b 15) with (Z.land b (Z.ones 4)).
  rewrite !low_bits, (bits_tail 3), (bits_tail 4), !bits_head by lia.
  assert (forall x, 0 <= x < 65536 -> Z.lor (u16 (Z.shiftl (x / 256) 8)) (x mod 256) = x) as Hj.
  { intros x Hx. rewrite Z.lor_comm, Z.shiftl_mul_pow2 by lia. unfold u16.
    rewrite (Z.mod_small (x / 256 * 2 ^ 8)) by (change (2 ^ 8) with 256; Z.to_euclidean_division_equations; lia).
    rewrite <- Z.shiftl_mul_pow2, (lor_add _ _ 8) by (try (change (2 ^ 8) with 256; apply Z.mod_pos_bound); lia).
    change (2 ^ 8) with 256. rewrite (Z.div_mod x 256) at 3 by lia. lia. }
  change 255 with (2 ^ 8 - 1). rewrite !land_low, !Z.shiftr_div_pow2 by lia. unfold u8.
  change (2 ^ 8) with 256. change (2 ^ 4) with 16. change (2 ^ 3) with 8. change (2 ^ 2) with 4.
  rewrite !Z.mod_mod, !(Z.mod_small ti), !(Z.mod_small tpc0), !(Z.mod_small ri) by lia.
  rewrite (Z.mod_small (ta / 256) 256), (Z.mod_small (ta / 256) 16), (Z.mod_small (crnti / 256))
    by (Z.to_euclidean_division_equations; lia).
  rewrite !Hj by lia. done.
Qed.

(** a UE takes a successRAR with its identity *)
Lemma success_rar_mine iqplayer m ta tpc0 crnti ri ti : length (cont_res_id (ra m)) = 6%nat -> 0 <= ta < 4096 ->
  0 <= tpc0 < 4 -> 0 <= crnti < 65536 -> 0 <= ri < 16 -> 0 <= ti < 8 -> RA_active (ra m) = true ->
  success_rar iqplayer m (success_octets ta tpc0 crnti (cont_res_id (ra m)) ri ti) =
  nr_ra_succeeded (ue_emit (m <| ra := ra m <| MsgB_R := 0 |>
      <| MsgB_CH_ACESS_CPEXT :=
           Z.land (Z.shiftr (nth 6 (success_octets ta tpc0 crnti (cont_res_id (ra m)) ri ti) 0) 5) 3 |>
      <| MsgB_TPC := tpc0 |> <| MsgB_HARQ_FTI := ti |> <| PUCCH_RI := ri |>
      <| timing_advance_command := ta |> <| t_crnti := crnti |> |>) [Timer_stop Response_window]).
Proof.
  intros Hid Hta Htp Hcr Hri Hti Ha.
  destruct (success_fields ta tpc0 crnti (cont_res_id (ra m)) ri ti) as (H1 & H2 & H3 & H4 & H5 & H6); [done..|].
  revert H1 H2 H3 H4 H5 H6. generalize (success_octets ta tpc0 crnti (cont_res_id (ra m)) ri ti).
  cbv zeta. intros o H1 H2 H3 H4 H5 H6.
  unfold success_rar, check_ra_contention_resolution. cbv zeta. rewrite H1, H2, H3, H4, H5, H6.
  cbn -[nth take]. rewrite Ha, (firstn_all2 (cont_res_id (ra m))) by lia.
  by rewrite bool_decide_eq_true_2, orb_true_r.
Qed.

(** A MsgB of the gNB with a successRAR for the UE: whatever the timing
    advance, the TPC, the C-RNTI and the PUCCH fields, the UE decodes them all,
    takes the C-RNTI as its own, reports success and hands the message of the
    SRB to the RLC; but the timing advance that it applies is not the one it
    decoded: it is the constant 32, the low bits of the subheader in the second
    octet of the PDU. *)
Theorem msgb_time_alignment_constant `{RlcData St} frame slot n_slots_frame koffset iqplayer
    c tag tpc0 crnti' ri ti lcid tb_size s s' sdu m :
  length (cont_res_id (ra m)) = 6%nat -> two_step (ra m) = true -> ra_state (ra m) = nrRA_WAIT_MSGB ->
  RA_active (ra m) = true -> cfra (ra m) = false ->
  0 <= ta_update c < 4096 -> 0 <= tpc0 < 4 -> 0 <= crnti' < 65536 -> 0 <= ri < 16 -> 0 <= ti < 8 ->
  srb_open m lcid -> rlc_data_req s lcid CCCH_SDU_SIZE = Ok (s', sdu) ->
  Exists (fun b => b <> 0) sdu -> blen sdu <= CCCH_SDU_SIZE -> 16 + blen sdu <= tb_size ->
  exists pdu m', msg4_pdu true c tag tpc0 crnti' (cont_res_id (ra m)) ri ti lcid tb_size s = Ok (s', pdu) /\
    blen pdu = tb_size /\
    nr_ue_process_mac_pdu frame slot n_slots_frame koffset iqplayer m pdu = Ok m' /\
    crnti m' = crnti' /\ ra_state (ra m') = nrRA_SUCCEEDED /\ connected m' = true /\
    MsgB_TPC (ra m') = tpc0 /\ MsgB_HARQ_FTI (ra m') = ti /\ PUCCH_RI (ra m') = ri /\
    timing_advance_command (ra m') = ta_update c /\ ta_command (ul_time_alignment m') = 32 /\
    ue_trace m' = ue_trace m ++ [Timer_stop Response_window; Timer_stop Contention_resolution; Rrc_ra_ind true;
                                 Timer_start Time_alignment; Rlc_data_ind lcid sdu].
Proof.
  intros Hid Hts Hst Ha Hcf Hta Htp Hcr Hri Hti Hl E He Hlen Hfit. set (id := cont_res_id (ra m)) in *.
  assert (nr_fill_successrar (ta_update c) tpc0 crnti' id ri ti =
    Ok ([0x80; 0x20] ++ success_octets (ta_update c) tpc0 crnti' id ri ti)) as Eh.
  { unfold nr_fill_successrar. rewrite mem_read_total by lia. cbn [res_bind]. change (Z.to_nat 0) with 0%nat.
    rewrite drop_0, firstn_all2 by lia. done. }
  set (o := success_octets _ _ _ _ _ _) in *.
  assert (blen ([0x80; 0x20] ++ o) = 13) as H13 by (unfold o, success_octets; rewrite !length_app; cbn [length]; lia).
  rewrite (msgb_bytes _ _ _ _ _ _ _ _ _ _ _ _ _ Eh E) by lia.
  set (m1 := m <| ra := ra m <| RA_backoff_limit := 5 * scaling_factor_bi (ra m) * (n_slots_frame `quot` 10) |> |>).
  set (m2 := set_time_alignment n_slots_frame koffset (success_rar iqplayer m1 o) 32 adjustment_ta frame slot).
  exists (([0x80; 0x20] ++ o) ++ srb_sdu lcid sdu ++ pad (tb_size - blen (([0x80; 0x20] ++ o) ++ srb_sdu lcid sdu))).
  exists (ue_emit m2 [Rlc_data_ind lcid sdu]). split; [done|]. split.
  { pose proof (srb_sdu_length lcid sdu). rewrite (app_assoc _ (srb_sdu lcid sdu)), length_app, Nat2Z.inj_add, pad_length.
    rewrite (length_app (_ ++ o)). lia. }
  assert (success_rar iqplayer m1 o = _) as Esr
    by (exact (success_rar_mine iqplayer m1 _ _ _ _ _ Hid Hta Htp Hcr Hri Hti Ha)).
  assert (srb_open m2 lcid) as Hl2.
  { destruct Hl as [|[? Hs]]; [by left|right]. split; [done|]. unfold is_lcid_suspended in *.
    replace (lc_ordered_list m2) with (lc_ordered_list m); [done|]. unfold m2. rewrite Esr.
    unfold nr_ra_succeeded, ue_emit. cbn. by rewrite Hcf. }
  split.
  - unfold nr_ue_process_mac_pdu. rewrite Hts, bool_decide_eq_true_2 by done. cbn [andb].
    rewrite <- !(app_assoc [0x80; 0x20] o). unfold o.
    rewrite successrar_read by done. cbn [res_bind]. fold o. fold m1. fold m2.
    set (p := pad _). rewrite (app_assoc _ o).
    replace (blen (([0x80; 0x20] ++ o) ++ srb_sdu lcid sdu ++ p) - 13) with (blen (srb_sdu lcid sdu ++ p))
      by (rewrite (length_app (_ ++ o)); lia).
    rewrite <- H13 at 1.
    destruct (parses_srb frame slot n_slots_frame koffset iqplayer m2 lcid sdu Hl2 He ltac:(unfold CCCH_SDU_SIZE in *; lia)
      (S (length (([0x80; 0x20] ++ o) ++ srb_sdu lcid sdu ++ p))) ([0x80; 0x20] ++ o) p) as (f & Hf & ->);
      [rewrite (length_app (_ ++ o)); lia|].
    apply parse_pad. lia.
  - unfold m2. rewrite Esr. unfold nr_ra_succeeded, ue_emit. cbn -[nth]. rewrite Hcf. cbn -[nth].
    rewrite <- !app_assoc. done.
Qed.

Lemma msgb_time_alignment_constant_witness :
  exists pdu m', msg4_pdu true (ce_none true 300) 0 1 4661 [1; 2; 3; 4; 5; 6] 3 2 0 40 (srb0_queue [7; 8; 9]) =
      Ok (fun l => if l =? 0 then [] else srb0_queue [7; 8; 9] l, pdu) /\ blen pdu = 40 /\
    nr_ue_process_mac_pdu 5 3 20 0 false (ue_waiting true nrRA_WAIT_MSGB) pdu = Ok m' /\
    crnti m' = 4661 /\ timing_advance_command (ra m') = 300 /\ ta_command (ul_time_alignment m') = 32.
Proof.
  destruct (msgb_time_alignment_constant 5 3 20 0 false (ce_none true 300) 0 1 4661 3 2 0 40 (srb0_queue [7; 8; 9])
    (fun l => if l =? 0 then [] else srb0_queue [7; 8; 9] l) [7; 8; 9] (ue_waiting true nrRA_WAIT_MSGB))
    as (pdu & m' & E & L & P & Hc & _ & _ & _ & _ & _ & Ht & Ha & _);
    try reflexivity; try (cbn; lia); try (cbn; discriminate).
  - left. reflexivity.
  - left. discriminate.
  - exists pdu, m'. split; [exact E|]. split; [exact L|]. split; [exact P|]. split; [exact Hc|]. split; [exact Ht|exact Ha].
Defined.
