(* ===== verification/NrTimer.v ===== *)
(** * Timers (common/utils/nr/nr_common.c)

    A timer counts in steps towards a target; [UINT_MAX] is a target that is
    never reached. *)
From S2P Require Import Prelude.

Definition UINT_MAX : Z := 4294967295.

Record NR_timer_t := mk_timer { active : bool; suspended : bool; counter : Z; target : Z; step : Z }.
#[export] Instance eta_NR_timer_t : Eta NR_timer_t :=
  fun t => mk_timer (active t) (suspended t) (counter t) (target t) (step t).

Definition nr_timer_start (t : NR_timer_t) : NR_timer_t :=
  t <| active := true |> <| suspended := false |> <| counter := 0 |>.
Definition nr_timer_stop (t : NR_timer_t) : NR_timer_t :=
  t <| active := false |> <| suspended := false |> <| counter := 0 |>.
Definition nr_timer_suspension (t : NR_timer_t) : NR_timer_t := t <| suspended := negb (suspended t) |>.
Definition nr_timer_is_active (t : NR_timer_t) : bool := active t.

Definition nr_timer_expired (t : NR_timer_t) : bool :=
  if (target t =? UINT_MAX) || suspended t then false else target t <=? counter t.

Definition nr_timer_tick (t : NR_timer_t) : NR_timer_t * bool :=
  if active t then
    let t := t <| counter := u32 (counter t + step t) |> in
    if (target t =? UINT_MAX) || suspended t then (t, false) else
    let expired := nr_timer_expired t in
    (if expired then t <| active := false |> else t, expired)
  else (t, false).

Definition nr_timer_elapsed_time (t : NR_timer_t) : Z := counter t.
Definition nr_timer_remaining_time (t : NR_timer_t) : Z := u32 (target t - counter t).
Definition nr_timer_setup (t : NR_timer_t) (target_ step_ : Z) : NR_timer_t :=
  nr_timer_stop (t <| target := target_ |> <| step := step_ |>).

(** ** A started timer expires after the least number of ticks that reaches its target *)

Definition ticks (k : nat) (t : NR_timer_t) : NR_timer_t := Nat.iter k (fun t => fst (nr_timer_tick t)) t.

Lemma ticks_running t k : active t = true -> suspended t = false -> target t <> UINT_MAX -> 0 < step t ->
  counter t + step t * Z.of_nat k < target t -> 0 <= counter t -> target t < 4294967296 ->
  ticks k t = t <| counter := counter t + step t * Z.of_nat k |>.
Proof.
  intros Ha Hs Ht Hp. induction k as [|k IH]; intros Hk Hc Hmax.
  { cbn. rewrite Z.mul_0_r, Z.add_0_r. by destruct t. }
  unfold ticks in *. cbn [Nat.iter nat_rect]. change (nat_rect _ _ _ k) with (Nat.iter k (fun t => fst (nr_timer_tick t)) t).
  rewrite IH by lia. destruct t as [a s c tg st]. cbn in *. subst a s. unfold nr_timer_tick, nr_timer_expired, u32. cbn.
  destruct (Z.eqb_spec tg UINT_MAX); [done|]. cbn. rewrite Z.mod_small by lia.
  destruct (Z.leb_spec tg (c + st * Z.of_nat k + st)); cbn; [lia|]. f_equal. lia.
Qed.

Lemma timer_expires t k : 0 < step t -> target t <> UINT_MAX -> target t + step t < 4294967296 ->
  step t * Z.of_nat k < target t <= step t * (Z.of_nat k + 1) ->
  let t0 := nr_timer_start t in
  (forall i, (i < k)%nat -> snd (nr_timer_tick (ticks i t0)) = false) /\ snd (nr_timer_tick (ticks k t0)) = true.
Proof.
  intros Hp Ht Hmax Hk t0. split.
  - intros i Hi. subst t0. rewrite ticks_running by (cbn; nia). destruct t as [a s c tg st]. cbn in *.
    unfold nr_timer_tick, nr_timer_expired, u32. cbn. destruct (Z.eqb_spec tg UINT_MAX); [done|]. cbn.
    rewrite Z.mod_small by nia. apply Z.leb_gt. nia.
  - subst t0. rewrite ticks_running by (cbn; nia). destruct t as [a s c tg st]. cbn in *.
    unfold nr_timer_tick, nr_timer_expired, u32. cbn. destruct (Z.eqb_spec tg UINT_MAX); [done|]. cbn.
    rewrite Z.mod_small by nia. apply Z.leb_le. nia.
Qed.
