(* ===== verification/MacBsr.v ===== *)
(** * Buffer status reports

    The tables of buffer sizes (38.321, tables 6.1.3.1-1 and 6.1.3.1-2;
    nr_mac_common.c), the index that the UE reports for a number of bytes
    ([nr_locate_BsrIndexByBufferSize] of nr_ue_scheduler.c), the long report
    itself ([nr_write_ce_ulsch_pdu] of nr_ue_procedures.c), and the number of
    bytes that the gNB reads from a report (gNB_scheduler_ulsch.c). *)
From S2P Require Import Prelude MacPdu.

Definition NR_SHORT_BSR_TABLE_SIZE : Z := 32.
Definition NR_LONG_BSR_TABLE_SIZE : Z := 256.

Definition NR_SHORT_BSR_TABLE : list Z := [
    0; 10; 14; 20; 28; 38; 53; 74; 102; 142; 198; 276; 384; 535; 745; 1038;
    1446; 2014; 2806; 3909; 5446; 7587; 10570; 14726;
    20516; 28581; 39818; 55474; 77284; 107669; 150000; 300000].

Definition NR_LONG_BSR_TABLE : list Z := [
    0; 10; 11; 12; 13; 14; 15; 16; 17; 18; 19; 20; 22; 23; 25; 26;
    28; 30; 32; 34; 36; 38; 40; 43; 46; 49; 52; 55; 59; 62; 66; 71;
    75; 80; 85; 91; 97; 103; 110; 117; 124; 132; 141; 150; 160; 170; 181; 193;
    205; 218; 233; 248; 264; 281; 299; 318; 339; 361; 384; 409; 436; 464; 494; 526;
    560; 597; 635; 677; 720; 767; 817; 870; 926; 987; 1051; 1119; 1191; 1269; 1351; 1439;
    1532; 1631; 1737; 1850; 1970; 2098; 2234; 2379; 2533; 2698; 2873; 3059; 3258; 3469; 3694; 3934;
    4189; 4461; 4751; 5059; 5387; 5737; 6109; 6506; 6928; 7378; 7857; 8367; 8910; 9488; 10104; 10760;
    11458; 12202; 12994; 13838; 14736; 15692; 16711; 17795; 18951; 20181; 21491; 22885; 24371; 25953; 27638; 29431;
    31342; 33376; 35543; 37850; 40307; 42923; 45709; 48676; 51836; 55200; 58784; 62599; 66663; 70990; 75598; 80505;
    85730; 91295; 97221; 103532; 110252; 117409; 125030; 133146; 141789; 150992; 160793; 171231; 182345; 194182; 206786; 220209;
    234503; 249725; 265935; 283197; 301579; 321155; 342002; 364202; 387842; 413018; 439827; 468377; 498780; 531156; 565634; 602350;
    641449; 683087; 727427; 774645; 824928; 878475; 935498; 996222; 1060888; 1129752; 1203085; 1281179; 1364342; 1452903; 1547213; 1647644;
    1754595; 1868488; 1989774; 2118933; 2256475; 2402946; 2558924; 2725027; 2901912; 3090279; 3290873; 3504487; 3731968; 3974215; 4232186; 4506902;
    4799451; 5110989; 5442750; 5796046; 6172275; 6572925; 6999582; 7453933; 7937777; 8453028; 9001725; 9586039; 10208280; 10870913; 11576557; 12328006;
    13128233; 13980403; 14887889; 15854280; 16883401; 17979324; 19146385; 20389201; 21712690; 23122088; 24622972; 26221280; 27923336; 29735875; 31666069; 33721553;
    35910462; 38241455; 40723756; 43367187; 46182206; 49179951; 52372284; 55771835; 59392055; 63247269; 67352729; 71724679; 76380419; 81338368; 162676736; 4294967295].

Definition get_short_bsr_value (idx : Z) : res Z :=
  if negb (idx <? NR_SHORT_BSR_TABLE_SIZE) then Err Exit else pdu_at NR_SHORT_BSR_TABLE idx.
Definition get_long_bsr_value (idx : Z) : res Z :=
  if negb (idx <? NR_LONG_BSR_TABLE_SIZE) then Err Exit else pdu_at NR_LONG_BSR_TABLE idx.

(** ** The index for a number of bytes *)

(** [while (ju - jl > 1)]; the bounds at its end.  The comparison of an [int]
    with a [uint32_t] is unsigned. *)
Fixpoint bsr_search (fuel : nat) (get_bsr_value : Z -> res Z) (ascend : bool) (value jl ju : Z) : res (Z * Z) :=
  match fuel with
  | O => Err No_fuel
  | S fuel =>
    if negb (1 <? ju - jl) then Ok (jl, ju) else
    let jm := (ju + jl) `quot` 2 in
    let* v := get_bsr_value jm in
    if Bool.eqb (v <=? u32 value) ascend then bsr_search fuel get_bsr_value ascend value jm ju
    else bsr_search fuel get_bsr_value ascend value jl jm
  end.

Definition nr_locate_BsrIndexByBufferSize (size value : Z) : res Z :=
  if value =? 0 then Ok 0 else
  let get_bsr_value := if size =? NR_SHORT_BSR_TABLE_SIZE then get_short_bsr_value else get_long_bsr_value in
  let* first := get_bsr_value 0 in
  let* last := get_bsr_value (size - 1) in
  let ascend := first <=? last in
  let* '(jl, _) := bsr_search (Z.to_nat size) get_bsr_value ascend value 0 (size - 1) in
  let* v := get_bsr_value jl in
  Ok (u8 (if u32 value =? v then jl else jl + 1)).

(** ** The long report *)

(** the flags of the groups and the octets of their indices, as far as the
    [room] bytes behind the flags go *)
Fixpoint lcg_octets (lcg_bsr : list Z) (room : Z) : list bool * list Z :=
  match lcg_bsr with
  | [] => ([], [])
  | b :: l =>
    if negb (b =? 0) && (0 <? room) then
      let '(flags, octets) := lcg_octets l (room - 1) in (true :: flags, b :: octets)
    else let '(flags, octets) := lcg_octets l room in (false :: flags, octets)
  end.

Definition NR_BSR_LONG (flags : list bool) : Z := pack ((fun f => (1, Z.b2z f)) <$> flags).
Definition NR_BSR_SHORT (Buffer_size LcgID : Z) : Z := pack [(5, Buffer_size); (3, LcgID)].

(** ** What the gNB makes of a report *)

Definition overestim_bsr_index (real_index : Z) : Z :=
  let add_overestim := 1 in if 0 <? real_index then real_index + add_overestim else real_index.

Definition estimate_ul_buffer_short_bsr (bsr : Z) : res Z :=
  let rep_idx := bits 0 5 bsr in
  let estim_idx := overestim_bsr_index rep_idx in
  let max := NR_SHORT_BSR_TABLE_SIZE - 1 in
  let idx := Z.min estim_idx max in
  let* estim_size := get_short_bsr_value idx in
  Ok (i32 estim_size).

(** the report starts at [pos]; [m] counts the octets read *)
Definition long_bsr_step (pdu : list Z) (pos bsr : Z) (acc : Z * Z) (n : nat) : res (Z * Z) :=
  let '(estim_size, m) := acc in
  if bits (Z.of_nat n) 1 bsr =? 0 then Ok (estim_size, m) else
  let* rep_idx := pdu_at pdu (pos + 1 + m) in
  let idx := Z.min (overestim_bsr_index rep_idx) (NR_LONG_BSR_TABLE_SIZE - 1) in
  let* v := get_long_bsr_value idx in
  Ok (i32 (u32 (estim_size + v)), m + 1).

Definition estimate_ul_buffer_long_bsr (pdu : list Z) (pos : Z) : res Z :=
  let* bsr := pdu_at pdu pos in
  let* '(estim_size, _) := fold_res (long_bsr_step pdu pos bsr) (seq 0 8) (0, 0) in
  Ok estim_size.

(** ** The search finds the least index *)

(** the value at an index of a table *)
Definition bsr_at (T : list Z) (i : Z) : Z := default 0 (T !! Z.to_nat i).

Lemma pdu_at_bsr T i : 0 <= i < Z.of_nat (length T) -> pdu_at T i = Ok (bsr_at T i).
Proof.
  intros. unfold pdu_at, arr_get, bsr_at. destruct (i <? 0) eqn:E; [lia|].
  destruct (lookup_lt_is_Some_2 T (Z.to_nat i)) as [x ->]; [lia|done].
Qed.

(** increasing, by comparing neighbours *)
Fixpoint increasing (T : list Z) : bool :=
  match T with
  | a :: T => match T with b :: _ => (a <? b) && increasing T | [] => true end
  | [] => true
  end.

Lemma increasing_lt T : increasing T = true -> forall i j : nat, (i < j < length T)%nat -> bsr_at T (Z.of_nat i) < bsr_at T (Z.of_nat j).
Proof.
  unfold bsr_at. induction T as [|a T IH]; intros H i j Hij; [cbn in Hij; lia|].
  destruct j as [|j]; [lia|]. rewrite !Nat2Z.id in *. cbn [length] in Hij. cbn [lookup list_lookup].
  destruct T as [|b T]; [cbn in Hij; lia|]. cbn [increasing] in H. apply andb_true_iff in H as [Hab H].
  assert (forall k : nat, (k < length (b :: T))%nat -> a < default 0 ((b :: T) !! k)) as Ha.
  { intros [|k] Hk; [cbn; lia|]. specialize (IH H O (S k) ltac:(cbn in *; lia)). rewrite !Nat2Z.id in IH.
    change ((b :: T) !! O) with (Some b) in IH. cbn [default] in IH. unfold default, from_option, id in *. lia. }
  destruct i as [|i]; [apply Ha; cbn in *; lia|]. cbn [lookup list_lookup].
  specialize (IH H i j ltac:(cbn in *; lia)). by rewrite !Nat2Z.id in IH.
Qed.

Lemma increasing_le T i j : increasing T = true -> 0 <= i <= j -> j < Z.of_nat (length T) -> bsr_at T i <= bsr_at T j.
Proof.
  intros H Hij Hj. destruct (decide (i = j)) as [->|]; [lia|].
  pose proof (increasing_lt T H (Z.to_nat i) (Z.to_nat j) ltac:(lia)) as L. rewrite !Z2Nat.id in L by lia. lia.
Qed.

Section Search.
Context (T : list Z) (get : Z -> res Z).
Context (H_get : forall i, 0 <= i < Z.of_nat (length T) -> get i = Ok (bsr_at T i)).
Context (H_inc : increasing T = true).
#[local] Set Default Proof Using "All".

(** everything up to [jl] is at most the value, everything from [ju] above it *)
Lemma bsr_search_ok fuel value jl ju : 0 <= value < 4294967296 -> 0 <= jl < ju -> ju < Z.of_nat (length T) ->
  ju - jl < Z.of_nat fuel -> bsr_at T jl <= value ->
  exists jl' ju', bsr_search fuel get true value jl ju = Ok (jl', ju') /\ jl <= jl' < ju /\ ju' = jl' + 1 /\
    bsr_at T jl' <= value /\ (ju' < ju -> value < bsr_at T ju').
Proof.
  intros Hv. revert jl ju. induction fuel as [|fuel IH]; intros jl ju Hl Hu Hf Hjl; [lia|]. cbn [bsr_search].
  destruct (Z.ltb_spec 1 (ju - jl)); cbn [negb]; [|exists jl, ju; split_and!; try done; lia].
  set (jm := (ju + jl) `quot` 2). assert (jl < jm < ju) as Hm.
  { unfold jm. rewrite Z.quot_div_nonneg by lia. pose proof (Z.div_mod (ju + jl) 2). pose proof (Z.mod_pos_bound (ju + jl) 2). lia. }
  rewrite H_get by lia. cbn [res_bind]. unfold u32. rewrite Z.mod_small by lia.
  destruct (Z.leb_spec (bsr_at T jm) value); cbn [Bool.eqb].
  - destruct (IH jm ju) as (a & b & E & ? & -> & ? & ?); [lia..|]. exists a, (a + 1). split_and!; try done; lia.
  - destruct (IH jl jm) as (a & b & E & ? & -> & ? & Hb); [lia..|]. exists a, (a + 1). split_and!; try done; try lia.
    intros _. destruct (decide (a + 1 = jm)) as [->|]; [done|]. apply Hb. lia.
Qed.
End Search.

(** the table of a size *)
Definition bsr_table (size : Z) : list Z := if size =? NR_SHORT_BSR_TABLE_SIZE then NR_SHORT_BSR_TABLE else NR_LONG_BSR_TABLE.

Lemma bsr_get size i : size = NR_SHORT_BSR_TABLE_SIZE \/ size = NR_LONG_BSR_TABLE_SIZE -> 0 <= i < size ->
  (if size =? NR_SHORT_BSR_TABLE_SIZE then get_short_bsr_value else get_long_bsr_value) i = Ok (bsr_at (bsr_table size) i).
Proof.
  intros [-> | ->] Hi; cbn [Z.eqb Pos.eqb NR_SHORT_BSR_TABLE_SIZE NR_LONG_BSR_TABLE_SIZE];
    unfold get_short_bsr_value, get_long_bsr_value; rewrite (proj2 (Z.ltb_lt _ _) (proj2 Hi)); cbn [negb]; by apply pdu_at_bsr.
Qed.

Lemma bsr_table_facts size : size = NR_SHORT_BSR_TABLE_SIZE \/ size = NR_LONG_BSR_TABLE_SIZE ->
  increasing (bsr_table size) = true /\ Z.of_nat (length (bsr_table size)) = size /\ bsr_at (bsr_table size) 0 = 0.
Proof. intros [-> | ->]; vm_compute; done. Qed.

(** the index that the UE reports for a number of bytes is the least one of
    the table whose value is not below it, or the last one *)
Lemma bsr_index_least size value :
  size = NR_SHORT_BSR_TABLE_SIZE \/ size = NR_LONG_BSR_TABLE_SIZE -> 0 <= value < 4294967296 ->
  exists i, nr_locate_BsrIndexByBufferSize size value = Ok i /\ 0 <= i < size /\
    (forall k, 0 <= k < i -> bsr_at (bsr_table size) k < value) /\
    (value <= bsr_at (bsr_table size) i \/ i = size - 1) /\ (i = 0 <-> value = 0).
Proof.
  intros Hs Hv. destruct (bsr_table_facts size Hs) as (Hi & Hlen & H0).
  assert (2 < size <= 256) as Hsz by (destruct Hs as [-> | ->]; done).
  unfold nr_locate_BsrIndexByBufferSize. destruct (Z.eqb_spec value 0) as [->|Hn0].
  { exists 0. split_and!; [done|lia|lia|intros; lia|left; lia|done]. }
  cbv zeta. rewrite !(bsr_get size) by (try exact Hs; lia). cbn [res_bind].
  assert (bsr_at (bsr_table size) 0 <= bsr_at (bsr_table size) (size - 1)) as Hle by (apply increasing_le; try done; lia).
  rewrite (proj2 (Z.leb_le _ _) Hle).
  destruct (bsr_search_ok (bsr_table size) (if size =? NR_SHORT_BSR_TABLE_SIZE then get_short_bsr_value else get_long_bsr_value)
    ltac:(intros i; rewrite Hlen; by apply bsr_get) Hi
    (Z.to_nat size) value 0 (size - 1)) as (jl & ju & -> & Hjl & -> & Hlo & Hhi); [lia..|].
  cbn [res_bind]. rewrite (bsr_get size) by (try exact Hs; lia). cbn [res_bind]. unfold u32. rewrite Z.mod_small by lia.
  destruct (Z.eqb_spec value (bsr_at (bsr_table size) jl)) as [Hj|Hj].
  - exists jl. unfold u8. rewrite Z.mod_small by lia. split_and!; try done; try lia.
    + intros k Hk. rewrite Hj. pose proof (increasing_lt _ Hi (Z.to_nat k) (Z.to_nat jl) ltac:(lia)) as L.
      by rewrite !Z2Nat.id in L by lia.
    + split; [intros ->; lia|lia].
  - exists (jl + 1). unfold u8. rewrite Z.mod_small by lia. split_and!; try done; try lia.
    + intros k Hk. pose proof (increasing_le _ k jl Hi ltac:(lia) ltac:(lia)). lia.
Qed.

(** ** The gNB reads a long report *)

(** what one octet adds *)
Definition octet_bytes (b : Z) : Z := bsr_at NR_LONG_BSR_TABLE (Z.min (overestim_bsr_index b) 255).
Definition sum_Z (l : list Z) : Z := foldr Z.add 0 l.

(** the largest index whose octet is read as a number of bytes *)
Definition max_octet : Z := 253.

Lemma octet_bytes_range b : 0 <= b <= max_octet -> 0 <= octet_bytes b <= 162676736.
Proof.
  intros Hb. unfold octet_bytes, max_octet in *.
  assert (0 <= overestim_bsr_index b <= 254) by (unfold overestim_bsr_index; destruct (0 <? b); lia).
  pose proof (increasing_le NR_LONG_BSR_TABLE 0 (Z.min (overestim_bsr_index b) 255) ltac:(reflexivity) ltac:(lia) ltac:(cbn; lia)) as H1.
  pose proof (increasing_le NR_LONG_BSR_TABLE (Z.min (overestim_bsr_index b) 255) 254 ltac:(reflexivity) ltac:(lia) ltac:(cbn; lia)) as H2.
  change (bsr_at NR_LONG_BSR_TABLE 0) with 0 in H1. change (bsr_at NR_LONG_BSR_TABLE 254) with 162676736 in H2. lia.
Qed.

Lemma flag_bit flags n : (n < length flags)%nat -> bits (Z.of_nat n) 1 (NR_BSR_LONG flags) = Z.b2z (default false (flags !! n)).
Proof.
  unfold NR_BSR_LONG. revert n. induction flags as [|f flags IH]; intros n Hn; [cbn in Hn; lia|]. cbn [fmap list_fmap].
  destruct n as [|n].
  - change (Z.of_nat 0) with 0. rewrite bits_head by lia. by destruct f.
  - cbn [length] in Hn. rewrite bits_tail by lia. replace (Z.of_nat (S n) - 1) with (Z.of_nat n) by lia. apply IH. lia.
Qed.

Lemma lcg_octets_length lcg room : length (lcg_octets lcg room).1 = length lcg.
Proof.
  revert room. induction lcg as [|b lcg IH]; intros room; [done|]. cbn [lcg_octets].
  destruct (negb _ && _); [specialize (IH (room - 1))|specialize (IH room)]; destruct (lcg_octets lcg _); cbn in *; lia.
Qed.

Lemma lcg_octets_room lcg room : 0 <= room -> Z.of_nat (length (lcg_octets lcg room).2) <= room /\
  (length (lcg_octets lcg room).2 <= length lcg)%nat.
Proof.
  revert room. induction lcg as [|b lcg IH]; intros room Hr; [cbn; lia|]. cbn [lcg_octets].
  destruct (negb _ && _) eqn:E; [specialize (IH (room - 1) ltac:(lia))|specialize (IH room Hr)];
    destruct (lcg_octets lcg _); cbn in *; lia.
Qed.

Lemma lcg_octets_forall P lcg room : Forall P lcg -> Forall (fun b => P b /\ b <> 0) (lcg_octets lcg room).2.
Proof.
  intros H. revert room. induction H as [|b lcg Hb _ IH]; intros room; [constructor|]. cbn [lcg_octets].
  destruct (negb _ && _) eqn:E; [specialize (IH (room - 1))|specialize (IH room)]; destruct (lcg_octets lcg _);
    [|done]. constructor; [|done]. split; [done|lia].
Qed.

(** with room for the groups with data every one of them has its octet *)
Lemma lcg_octets_all lcg room f : Z.of_nat (length (filter (fun b => b <> 0) lcg)) <= room -> f 0 = 0 ->
  sum_Z (f <$> (lcg_octets lcg room).2) = sum_Z (f <$> lcg).
Proof.
  revert room. induction lcg as [|b lcg IH]; intros room Hr Hf; [done|]. cbn [lcg_octets]. rewrite filter_cons in Hr.
  destruct (Z.eqb_spec b 0) as [->|Hb]; cbn [negb andb].
  - rewrite decide_False in Hr by (intros H; by apply H). specialize (IH room ltac:(lia) Hf). destruct (lcg_octets lcg room).
    unfold sum_Z in *. cbn [fst snd fmap list_fmap foldr] in *. lia.
  - rewrite decide_True in Hr by done. cbn [length] in Hr.
    rewrite (proj2 (Z.ltb_lt 0 room)) by lia. specialize (IH (room - 1) ltac:(lia) Hf).
    destruct (lcg_octets lcg (room - 1)).
    unfold sum_Z in *. cbn [fst snd fmap list_fmap foldr] in *. lia.
Qed.

Lemma octet_value b : 0 <= b <= max_octet ->
  get_long_bsr_value (Z.min (overestim_bsr_index b) (NR_LONG_BSR_TABLE_SIZE - 1)) = Ok (octet_bytes b).
Proof.
  intros Hb. apply (bsr_get NR_LONG_BSR_TABLE_SIZE); [by right|].
  unfold overestim_bsr_index, max_octet, NR_LONG_BSR_TABLE_SIZE in *. destruct (0 <? b); lia.
Qed.

Lemma long_bsr_fold pdu pos bsr lcg : Forall (fun b => 0 <= b <= max_octet) lcg -> forall room n e m,
  (forall k, (k < length lcg)%nat -> bits (Z.of_nat (n + k)) 1 bsr = Z.b2z (default false ((lcg_octets lcg room).1 !! k))) ->
  (forall k b, (lcg_octets lcg room).2 !! k = Some b -> pdu_at pdu (pos + 1 + m + Z.of_nat k) = Ok b) ->
  0 <= e -> e + 162676736 * Z.of_nat (length lcg) < 2147483648 ->
  fold_res (long_bsr_step pdu pos bsr) (seq n (length lcg)) (e, m) =
    Ok (e + sum_Z (octet_bytes <$> (lcg_octets lcg room).2), m + Z.of_nat (length (lcg_octets lcg room).2)).
Proof.
  induction 1 as [|b lcg Hb _ IH]; intros room n e m Hbits Hpdu He Hmax; [cbn; do 2 f_equal; lia|].
  cbn [length seq fold_res]. cbn [length] in *. pose proof (Hbits O ltac:(lia)) as H0. rewrite Nat.add_0_r in H0.
  unfold long_bsr_step at 1. rewrite H0. cbn [lcg_octets] in *.
  destruct (negb (b =? 0) && (0 <? room)) eqn:Eb.
  - specialize (IH (room - 1)). destruct (lcg_octets lcg (room - 1)) as [flags octets] eqn:El. cbn in Hbits, Hpdu, IH |- *.
    pose proof (Hpdu O b ltac:(done)) as Hp. rewrite Z.add_0_r in Hp. rewrite Hp. cbn [res_bind].
    pose proof (octet_bytes_range b Hb) as Ho. rewrite octet_value by done. cbn [res_bind].
    unfold u32. rewrite Z.mod_small, i32_id by lia. rewrite IH.
    + do 2 f_equal; lia.
    + intros k Hk. replace (S n + k)%nat with (n + S k)%nat by lia. apply (Hbits (S k)). lia.
    + intros k c Hc. rewrite <- (Hpdu (S k) c Hc). f_equal. lia.
    + lia.
    + lia.
  - specialize (IH room). destruct (lcg_octets lcg room) as [flags octets] eqn:El. cbn in Hbits, Hpdu, IH |- *.
    apply IH; [|done|lia|lia]. intros k Hk. replace (S n + k)%nat with (n + S k)%nat by lia. apply (Hbits (S k)). lia.
Qed.

(** the flags and octets written at [pos] of a PDU are read back *)
Lemma long_bsr_read pdu pos lcg room : length lcg = 8%nat -> Forall (fun b => 0 <= b <= max_octet) lcg ->
  pdu_at pdu pos = Ok (NR_BSR_LONG (lcg_octets lcg room).1) ->
  (forall k b, (lcg_octets lcg room).2 !! k = Some b -> pdu_at pdu (pos + 1 + Z.of_nat k) = Ok b) ->
  estimate_ul_buffer_long_bsr pdu pos = Ok (sum_Z (octet_bytes <$> (lcg_octets lcg room).2)).
Proof.
  intros Hlen Hl Hb Hp. unfold estimate_ul_buffer_long_bsr. rewrite Hb. cbn [res_bind]. rewrite <- Hlen.
  rewrite (long_bsr_fold _ _ _ _ Hl room); [done| | |lia|rewrite Hlen; lia].
  - intros k Hk. rewrite Nat.add_0_l, flag_bit by (by rewrite lcg_octets_length). done.
  - intros k b Hk. rewrite Z.add_0_r. by apply Hp.
Qed.

(** the bytes that an index reports are at most those that the gNB reads *)
Lemma octet_covers v i : 0 <= v <= bsr_at NR_LONG_BSR_TABLE max_octet -> nr_locate_BsrIndexByBufferSize NR_LONG_BSR_TABLE_SIZE v = Ok i ->
  0 <= i <= max_octet /\ v <= octet_bytes i.
Proof.
  intros Hv E. change (bsr_at NR_LONG_BSR_TABLE max_octet) with 81338368 in Hv.
  destruct (bsr_index_least NR_LONG_BSR_TABLE_SIZE v) as (j & E' & Hj & L & C & Z0); [by right|lia|].
  rewrite E in E'. injection E' as <-. change (bsr_table NR_LONG_BSR_TABLE_SIZE) with NR_LONG_BSR_TABLE in *.
  unfold NR_LONG_BSR_TABLE_SIZE, max_octet in *.
  assert (i <= 253) as Hi. { destruct (Z.le_gt_cases i 253) as [|Hg]; [done|]. specialize (L 253 ltac:(lia)).
    change (bsr_at NR_LONG_BSR_TABLE 253) with 81338368 in L. lia. }
  split; [lia|]. unfold octet_bytes. destruct C as [C|C]; [|lia].
  assert (0 <= i <= Z.min (overestim_bsr_index i) 255) as Hm by (unfold overestim_bsr_index; destruct (0 <? i) eqn:?; lia).
  assert (Z.min (overestim_bsr_index i) 255 < 256) by lia.
  pose proof (increasing_le NR_LONG_BSR_TABLE _ _ ltac:(reflexivity) Hm ltac:(cbn; lia)). lia.
Qed.
