(* ===== verification/MacUlLc.v ===== *)
(** * Logical channels of the uplink at the UE

    The list of channels in the order of their priorities, with what the MAC
    keeps for each: configuration (NR_MAC_UE/config_ue.c), the bytes waiting,
    the group and the bucket of the token bucket algorithm
    (nr_ue_scheduler.c).

    The entries of the list are pointers to structures that nothing else owns,
    so here they are values.  [qsort] is the stable sort of glibc, which has
    memory for the lists of this size. *)
From S2P Require Import Prelude NrTimer RlcApi MacRlc.

Definition NR_MAX_NUM_LCID : nat := 32.
Definition NR_MAX_NUM_LCGID : nat := 8.
Definition NR_INVALID_LCGID : Z := 8.
Definition NR_MAX_SR_ID : Z := 8.
Definition NR_BSR_TRIGGER_NONE : Z := 0.
Definition NR_BSR_TRIGGER_REGULAR : Z := 1.
Definition NR_BSR_TRIGGER_PERIODIC : Z := 2.

Record NR_LC_SCHEDULING_INFO := mk_lc_sched { LCID_buffer_remain : Z; LCGID : Z; Bj : Z; Bj_timer : NR_timer_t }.
#[export] Instance eta_NR_LC_SCHEDULING_INFO : Eta NR_LC_SCHEDULING_INFO :=
  fun i => mk_lc_sched (LCID_buffer_remain i) (LCGID i) (Bj i) (Bj_timer i).

Record nr_lcordered_info_t := mk_lc {
  lcid : Z; sr_id : Z; priority : Z; pbr : Z; bucket_size : Z; sr_DelayTimerApplied : bool; lc_SRMask : bool;
  rb : nr_lcid_rb_t; rb_suspended : bool }.
#[export] Instance eta_nr_lcordered_info_t : Eta nr_lcordered_info_t :=
  fun i => mk_lc (lcid i) (sr_id i) (priority i) (pbr i) (bucket_size i) (sr_DelayTimerApplied i) (lc_SRMask i)
    (rb i) (rb_suspended i).

Record nr_sr_info_t := mk_sr { active_SR_ID : bool; pending : bool; sr_counter : Z; prohibitTimer : NR_timer_t }.
#[export] Instance eta_nr_sr_info_t : Eta nr_sr_info_t := fun s => mk_sr (active_SR_ID s) (pending s) (sr_counter s) (prohibitTimer s).

Record nr_phr_info_t := mk_phr {
  is_configured : bool; periodicPHR_Timer : NR_timer_t; prohibitPHR_Timer : NR_timer_t; PathlossLastValue : Z;
  PathlossChange_db : Z; phr_reporting : Z }.
#[export] Instance eta_nr_phr_info_t : Eta nr_phr_info_t :=
  fun p => mk_phr (is_configured p) (periodicPHR_Timer p) (prohibitPHR_Timer p) (PathlossLastValue p)
    (PathlossChange_db p) (phr_reporting p).

(** [lc_ordered_list] and [scheduling_info] of NR_UE_MAC_INST_t *)
Record ul_mac := mk_ul_mac {
  lc_ordered_list : list nr_lcordered_info_t;
  lc_sched_info : list NR_LC_SCHEDULING_INFO;
  sr_info : list nr_sr_info_t;
  BSR_reporting_active : Z;
  regularBSR_trigger_lcid : Z;
  sr_DelayTimer : NR_timer_t;
  retxBSR_Timer : NR_timer_t;
  periodicBSR_Timer : NR_timer_t;
  phr_info : nr_phr_info_t }.
#[export] Instance eta_ul_mac : Eta ul_mac :=
  fun m => mk_ul_mac (lc_ordered_list m) (lc_sched_info m) (sr_info m) (BSR_reporting_active m)
    (regularBSR_trigger_lcid m) (sr_DelayTimer m) (retxBSR_Timer m) (periodicBSR_Timer m) (phr_info m).

(** ** Access to a channel *)

Definition get_lc_info_from_lcid (m : ul_mac) (lcid_ : Z) : option nr_lcordered_info_t :=
  snd <$> list_find (fun i => lcid i = lcid_) (lc_ordered_list m).

Definition lcid_buffer_index (lcid : Z) : res nat :=
  if negb ((0 <? lcid) && (lcid <=? Z.of_nat NR_MAX_NUM_LCID)) then Err Exit else Ok (Z.to_nat (lcid - 1)).

Definition get_scheduling_info_from_lcid (m : ul_mac) (lcid : Z) : res NR_LC_SCHEDULING_INFO :=
  let* idx := lcid_buffer_index lcid in arr_get (lc_sched_info m) idx.

(** an assignment through the pointer of the previous function *)
Definition set_scheduling_info (m : ul_mac) (lcid : Z) (i : NR_LC_SCHEDULING_INFO) : res ul_mac :=
  let* idx := lcid_buffer_index lcid in
  let* l := arr_set (lc_sched_info m) idx i in Ok (m <| lc_sched_info := l |>).

Definition is_lcid_suspended (m : ul_mac) (lcid : Z) : bool :=
  match get_lc_info_from_lcid m lcid with Some i => rb_suspended i | None => false end.

Definition nr_rrc_mac_resume_rb (m : ul_mac) (is_srb : bool) (rb_id : Z) : ul_mac :=
  m <| lc_ordered_list := (fun i =>
    match rb i with
    | NR_LCID_SRB srb_id => if is_srb && (srb_id =? rb_id) then i <| rb_suspended := false |> else i
    | NR_LCID_DRB drb_id => if negb is_srb && (drb_id =? rb_id) then i <| rb_suspended := false |> else i
    | NR_LCID_NONE => i
    end) <$> lc_ordered_list m |>.

(** [nr_rrc_mac_config_req_reset] on a re-establishment: all radio bearers but
    SRB0 are suspended *)
Definition suspend_rbs (m : ul_mac) : ul_mac :=
  m <| lc_ordered_list := (fun i =>
    match rb i with NR_LCID_SRB srb_id => if srb_id =? 0 then i else i <| rb_suspended := true |> | _ => i <| rb_suspended := true |> end)
    <$> lc_ordered_list m |>.

(** the channels, timers, scheduling requests and reports of [reset_mac_inst] *)
Definition reset_mac_inst (m : ul_mac) : ul_mac :=
  m <| lc_sched_info := (fun i => i <| Bj := 0 |> <| LCID_buffer_remain := 0 |> <| Bj_timer := nr_timer_stop (Bj_timer i) |>)
         <$> lc_sched_info m |>
    <| sr_DelayTimer := nr_timer_stop (sr_DelayTimer m) |>
    <| retxBSR_Timer := nr_timer_stop (retxBSR_Timer m) |>
    <| sr_info := (fun s => s <| pending := false |> <| sr_counter := 0 |> <| prohibitTimer := nr_timer_stop (prohibitTimer s) |>)
         <$> sr_info m |>
    <| BSR_reporting_active := NR_BSR_TRIGGER_NONE |>
    <| phr_info := phr_info m <| phr_reporting := 0 |> |>.

(** ** Configuration *)

Definition prioritisedBitRate_kBps : list Z :=
  [0; 8; 16; 32; 64; 128; 256; 512; 1024; 2048; 4096; 8192; 16384; 32768; 65536].
Definition prioritisedBitRate_infinity : Z := 15.

(** in bytes per second *)
Definition nr_get_pbr (prioritizedbitrate : Z) : res Z :=
  if prioritizedbitrate =? prioritisedBitRate_infinity then Ok UINT_MAX
  else if prioritizedbitrate <? 0 then Err Exit
  else let* pbr := of_option Exit (prioritisedBitRate_kBps !! Z.to_nat prioritizedbitrate) in Ok (u32 (pbr * 1000)).

Definition bucketSizeDuration_ms : list Z := [5; 10; 20; 50; 100; 150; 300; 500; 1000].
Definition nr_get_ms_bucketsizeduration (bucketsizeduration : Z) : res Z :=
  if bucketsizeduration <? 0 then Err Exit else of_option Exit (bucketSizeDuration_ms !! Z.to_nat bucketsizeduration).

Definition get_lc_bucket_size (prioritisedBitRate bucketSizeDuration : Z) : res Z :=
  let* pbr := nr_get_pbr prioritisedBitRate in
  let* bsd := if prioritisedBitRate =? prioritisedBitRate_infinity then Ok 1
              else nr_get_ms_bucketsizeduration bucketSizeDuration in
  Ok (u32 (pbr * bsd)).

Definition set_default_logicalchannelconfig (lc_info : nr_lcordered_info_t) (srb_id : Z) : nr_lcordered_info_t :=
  lc_info <| lcid := srb_id |> <| priority := if srb_id =? 2 then 3 else 1 |> <| pbr := UINT_MAX |>
          <| bucket_size := UINT_MAX |>.

(** NR_LogicalChannelConfig__ul_SpecificParameters *)
Record ul_SpecificParameters := mk_ul_parm {
  ul_priority : Z; prioritisedBitRate : Z; bucketSizeDuration : Z; logicalChannelGroup : option Z;
  schedulingRequestID : option Z; logicalChannelSR_Mask : bool; logicalChannelSR_DelayTimerApplied : bool }.

(** [mac_lc_config]: the parameters when they are there *)
Definition nr_configure_lc_config (m : ul_mac) (lc_info : nr_lcordered_info_t) (mac_lc_config : option ul_SpecificParameters)
    (rb_ : nr_lcid_rb_t) : res (ul_mac * nr_lcordered_info_t) :=
  let* i := get_scheduling_info_from_lcid m (lcid lc_info) in
  let lc_info := lc_info <| rb := rb_ |> <| rb_suspended := false |> in
  match mac_lc_config, rb_ with
  | None, NR_LCID_SRB srb_id =>
    let idx := lcid lc_info in
    let* m := set_scheduling_info m idx (i <| LCGID := NR_INVALID_LCGID |>) in
    Ok (m, set_default_logicalchannelconfig lc_info srb_id)
  | None, _ => Err Exit
  | Some p, _ =>
    let* pbr_ := nr_get_pbr (prioritisedBitRate p) in
    let* bucket := get_lc_bucket_size (prioritisedBitRate p) (bucketSizeDuration p) in
    let lc_info := lc_info <| priority := ul_priority p |> <| sr_id := default (-1) (schedulingRequestID p) |>
                     <| sr_DelayTimerApplied := logicalChannelSR_DelayTimerApplied p |>
                     <| lc_SRMask := logicalChannelSR_Mask p |> <| pbr := pbr_ |> <| bucket_size := bucket |> in
    let* m := set_scheduling_info m (lcid lc_info)
                (i <| LCGID := default NR_INVALID_LCGID (logicalChannelGroup p) |>
                   <| Bj_timer := nr_timer_start (nr_timer_setup (Bj_timer i) UINT_MAX 1) |>) in
    Ok (m, lc_info)
  end.

(** NR_RLC_BearerConfig as the MAC reads it; [NR_LCID_NONE] is a bearer of
    another kind, and the MAC configuration may lack the uplink parameters *)
Record mac_bearer_t := mk_mac_bearer {
  logicalChannelIdentity : Z; servedRadioBearer : nr_lcid_rb_t;
  mac_LogicalChannelConfig : option (option ul_SpecificParameters) }.

(** [calloc] *)
Definition new_lc (lc_identity : Z) : nr_lcordered_info_t :=
  mk_lc lc_identity 0 0 0 0 false false NR_LCID_NONE false.

Definition lcid_cmp (a b : nr_lcordered_info_t) : res Z :=
  if negb ((0 <? priority a) && (priority a <? 17)) || negb ((0 <? priority b) && (priority b <? 17)) then Err Exit
  else Ok (priority a - priority b).

(** the insertion of an element behind those that are not greater *)
Fixpoint lc_insert (x : nr_lcordered_info_t) (l : list nr_lcordered_info_t) : res (list nr_lcordered_info_t) :=
  match l with
  | [] => Ok [x]
  | y :: l => let* c := lcid_cmp y x in if c <=? 0 then let* l := lc_insert x l in Ok (y :: l) else Ok (x :: y :: l)
  end.
Definition lc_sort (l : list nr_lcordered_info_t) : res (list nr_lcordered_info_t) :=
  fold_res (fun acc x => lc_insert x acc) l [].

Definition add_bearer (m : ul_mac) (b : mac_bearer_t) : res ul_mac :=
  match servedRadioBearer b with
  | NR_LCID_NONE => Ok m
  | rb_ =>
    match list_find (fun i => lcid i = logicalChannelIdentity b) (lc_ordered_list m) with
    | Some (j, lc_info) =>
      match mac_LogicalChannelConfig b with
      | Some c =>
        let* '(m, lc_info) := nr_configure_lc_config m lc_info c rb_ in
        Ok (m <| lc_ordered_list := <[j := lc_info]> (lc_ordered_list m) |>)
      | None => Ok m
      end
    | None =>
      let lc_info := new_lc (logicalChannelIdentity b) in
      let* '(m, lc_info) :=
        match mac_LogicalChannelConfig b, rb_ with
        | Some c, _ => nr_configure_lc_config m lc_info c rb_
        | None, NR_LCID_SRB srb_id => Ok (m, set_default_logicalchannelconfig lc_info srb_id)
        | None, _ => Err Exit
        end in
      Ok (m <| lc_ordered_list := lc_ordered_list m ++ [lc_info] |>)
    end
  end.

Definition release_bearer (m : ul_mac) (id : Z) : ul_mac :=
  match list_find (fun i => lcid i = id) (lc_ordered_list m) with
  | Some (j, _) => m <| lc_ordered_list := delete j (lc_ordered_list m) |>
  | None => m
  end.

(** the two lists may be absent *)
Definition configure_logicalChannelBearer (m : ul_mac) (toadd : option (list mac_bearer_t)) (torelease : option (list Z))
  : res ul_mac :=
  let m := foldl release_bearer m (default [] torelease) in
  match toadd with
  | Some l =>
    let* m := fold_res add_bearer l m in
    let* sorted := lc_sort (lc_ordered_list m) in
    Ok (m <| lc_ordered_list := sorted |>)
  | None => Ok m
  end.

(** ** Buckets *)

Definition INT_MAX : Z := 2147483647.

(** [min(bj, bucketSize_max)] of an [int32_t] and a [uint32_t] *)
Definition bucket_min (bj bucketSize_max : Z) : Z :=
  i32 (if u32 bj <? bucketSize_max then u32 bj else bucketSize_max).

(** the loop of [nr_ue_ul_scheduler] over the channels, for the subcarrier
    spacing index [scs] *)
Definition update_Bj (scs : Z) (m : ul_mac) : res ul_mac :=
  fold_res (fun m lc_info =>
      let* i := get_scheduling_info_from_lcid m (lcid lc_info) in
      let bj :=
        if pbr lc_info <? UINT_MAX then
          let pbr_ms := pbr lc_info / 1000 in
          i32 (u32 (Bj i + Z.shiftr (u32 (pbr_ms * nr_timer_elapsed_time (Bj_timer i))) scs))
        else INT_MAX in
      set_scheduling_info m (lcid lc_info)
        (i <| Bj := bucket_min bj (bucket_size lc_info) |> <| Bj_timer := nr_timer_start (Bj_timer i) |>))
    (lc_ordered_list m) m.

(** ** Buffer status *)

Section Rlc.
Context `{RlcStatus St}.

Definition nr_update_rlc_buffers_status (m : ul_mac) (s : St) : res (ul_mac * St) :=
  fold_res (fun '(m, s) lc_info =>
      if rb_suspended lc_info then Ok (m, s) else
      let* i := get_scheduling_info_from_lcid m (lcid lc_info) in
      let* '(s, bytes_in_buffer) := rlc_status_ind s (lcid lc_info) in
      if 0 <? bytes_in_buffer then
        let* m := set_scheduling_info m (lcid lc_info) (i <| LCID_buffer_remain := i32 bytes_in_buffer |>) in Ok (m, s)
      else Ok (m, s))
    (lc_ordered_list m) (m, s).
End Rlc.

Definition trigger_regular_bsr (m : ul_mac) (lcid : Z) (sr_DelayTimerApplied : bool) : ul_mac :=
  m <| BSR_reporting_active := Z.lor (BSR_reporting_active m) NR_BSR_TRIGGER_REGULAR |>
    <| regularBSR_trigger_lcid := lcid |>
    <| sr_DelayTimer := if sr_DelayTimerApplied then nr_timer_start (sr_DelayTimer m) else nr_timer_stop (sr_DelayTimer m) |>.

(** the bytes of each group; [bsr_regular_triggered] is the accumulator's last
    component *)
Definition nr_update_bsr_step (acc : ul_mac * list Z * bool) (lc_info : nr_lcordered_info_t) : res (ul_mac * list Z * bool) :=
  let '(m, LCG_bytes, triggered) := acc in
  let* i := get_scheduling_info_from_lcid m (lcid lc_info) in
  let lcgid := LCGID i in
  if lcgid =? NR_INVALID_LCGID then Ok (m, LCG_bytes, triggered) else
  if lcgid <? 0 then Err Out_of_bounds else
  let* b := arr_get LCG_bytes (Z.to_nat lcgid) in
  let* LCG_bytes := arr_set LCG_bytes (Z.to_nat lcgid) (u32 (b + LCID_buffer_remain i)) in
  if triggered : bool then Ok (m, LCG_bytes, triggered)
  else Ok (trigger_regular_bsr m (lcid lc_info) (sr_DelayTimerApplied lc_info), LCG_bytes, true).

Definition nr_update_bsr (m : ul_mac) (LCG_bytes : list Z) : res (ul_mac * list Z) :=
  let triggered := negb (Z.land (BSR_reporting_active m) NR_BSR_TRIGGER_REGULAR =? 0) in
  let* '(m, LCG_bytes, _) := fold_res nr_update_bsr_step (lc_ordered_list m) (m, LCG_bytes, triggered) in
  Ok (m, LCG_bytes).

(** the part of [update_mac_ul_timers] for the retransmission of a report *)
Fixpoint retx_bsr (m : ul_mac) (l : list nr_lcordered_info_t) : res ul_mac :=
  match l with
  | [] => Ok m
  | lc_info :: l =>
    let* i := get_scheduling_info_from_lcid m (lcid lc_info) in
    if negb (LCGID i =? NR_INVALID_LCGID) && (0 <? LCID_buffer_remain i)
    then Ok (trigger_regular_bsr m (lcid lc_info) (sr_DelayTimerApplied lc_info))
    else retx_bsr m l
  end.

(** the power headroom report in [update_mac_ul_timers], for the [pathloss]
    measured *)
Definition phr_cause_prohibit_timer : Z := 0.
Definition phr_cause_periodic_timer : Z := 1.
Definition phr_timers (pathloss : Z) (p : nr_phr_info_t) : nr_phr_info_t :=
  if is_configured p then
    let '(t, prohibit_expired) := nr_timer_tick (prohibitPHR_Timer p) in
    let p := p <| prohibitPHR_Timer := t |> in
    let p := if prohibit_expired && (PathlossChange_db p <? Z.abs (pathloss - PathlossLastValue p))
             then p <| phr_reporting := Z.lor (phr_reporting p) (Z.shiftl 1 phr_cause_prohibit_timer) |> else p in
    let '(t, periodic_expired) := nr_timer_tick (periodicPHR_Timer p) in
    let p := p <| periodicPHR_Timer := t |> in
    if periodic_expired : bool
    then p <| phr_reporting := Z.lor (phr_reporting p) (Z.shiftl 1 phr_cause_periodic_timer) |> else p
  else p.

(** the timers of the uplink: scheduling requests, buffer status, buckets,
    power headroom *)
Definition update_mac_ul_timers (pathloss : Z) (m : ul_mac) : res ul_mac :=
  let m := m <| sr_info := (fun s => s <| prohibitTimer := fst (nr_timer_tick (prohibitTimer s)) |>) <$> sr_info m |>
             <| sr_DelayTimer := fst (nr_timer_tick (sr_DelayTimer m)) |> in
  let '(t, retxBSR_expired) := nr_timer_tick (retxBSR_Timer m) in
  let m := m <| retxBSR_Timer := t |> in
  let* m := if retxBSR_expired : bool then retx_bsr m (lc_ordered_list m) else Ok m in
  let '(t, periodicBSR_expired) := nr_timer_tick (periodicBSR_Timer m) in
  let m := m <| periodicBSR_Timer := t |> in
  let m := if periodicBSR_expired : bool
           then m <| BSR_reporting_active := Z.lor (BSR_reporting_active m) NR_BSR_TRIGGER_PERIODIC |> else m in
  if existsb (fun i => snd (nr_timer_tick (Bj_timer i))) (lc_sched_info m) then Err Exit else
  let m := m <| lc_sched_info := (fun i => i <| Bj_timer := fst (nr_timer_tick (Bj_timer i)) |>) <$> lc_sched_info m |> in
  Ok (m <| phr_info := phr_timers pathloss (phr_info m) |>).

(** ** Scheduling requests *)

(** [sr->pending = false; sr->counter = 0; nr_timer_stop(&sr->prohibitTimer)] *)
Definition clear_sr (s : nr_sr_info_t) : nr_sr_info_t :=
  s <| pending := false |> <| sr_counter := 0 |> <| prohibitTimer := nr_timer_stop (prohibitTimer s) |>.

(** the first channel of the list with bytes waiting *)
Fixpoint first_with_data (m : ul_mac) (l : list nr_lcordered_info_t) : res (option nr_lcordered_info_t) :=
  match l with
  | [] => Ok None
  | lc_info :: l =>
    let* i := get_scheduling_info_from_lcid m (lcid lc_info) in
    if negb (LCID_buffer_remain i =? 0) then Ok (Some lc_info) else first_with_data m l
  end.

(** [configured_grant]: [configuredGrantConfig]; [sr_resources]: whether the
    PUCCH configuration has a resource for an SR, [None] when it has no list
    of such resources.  The result says whether a random access procedure is
    started ([schedule_RA_after_SR_failure]). *)
Definition nr_update_sr (configured_grant : bool) (sr_resources : option (Z -> bool)) (m : ul_mac) (BSRsent : bool)
  : res (ul_mac * bool) :=
  let* lc := first_with_data m (lc_ordered_list m) in
  match lc with
  | None => Ok (m <| sr_info := (fun s => if active_SR_ID s then clear_sr s else s) <$> sr_info m |>, false)
  | Some lc_info =>
    if BSRsent || nr_timer_is_active (sr_DelayTimer m) then Ok (m, false)
    else if configured_grant && lc_SRMask lc_info then Ok (m, false)
    else match sr_resources with
    | None => Ok (m, false)
    | Some check_pucchres_for_pending_SR =>
      if (sr_id lc_info <? 0) || (NR_MAX_SR_ID <=? sr_id lc_info) then Ok (m, false) else
      let* sr := arr_get (sr_info m) (Z.to_nat (sr_id lc_info)) in
      if pending sr then Ok (m, false)
      else
        let found := check_pucchres_for_pending_SR (sr_id lc_info) in
        let sr := if found : bool then sr <| pending := true |> <| sr_counter := 0 |> else clear_sr sr in
        let* l := arr_set (sr_info m) (Z.to_nat (sr_id lc_info)) sr in
        Ok (m <| sr_info := l |>, negb found)
    end
  end.
