(* ===== verification/MacUl.v ===== *)
(** * Uplink MAC PDUs of the UE

    The logical channel prioritization and the transport block that it fills
    ([nr_ue_get_sdu] of NR_MAC_UE/nr_ue_scheduler.c), with the buffer status and
    power headroom reports behind the SDUs ([nr_write_ce_ulsch_pdu] of
    nr_ue_procedures.c).

    The bytes written so far are a list, whose length is the place of
    [cur_ptr]; the pointers to the end are distances from the start of the
    buffer.  The RLC is the interface [RlcData]. *)
From S2P Require Import Prelude NrTimer MacPdu MacBsr MacRlc RlcApi MacUlLc.

(** ** Reports *)

Inductive type_bsr_t :=
  | b_none
  | b_long (lcg_bsr : list Z)
  | b_short (LcgID Buffer_size : Z)
  | b_short_trunc (LcgID Buffer_size : Z)
  | b_long_trunc (lcg_bsr : list Z).

Record NR_SINGLE_ENTRY_PHR_MAC_CE := mk_phr_ce { PH : Z; PCMAX : Z }.
Definition phr_octets (p : NR_SINGLE_ENTRY_PHR_MAC_CE) : list Z := [pack [(6, PH p); (2, 0)]; pack [(6, PCMAX p); (2, 0)]].

(** a long report of at most [room] bytes behind its subheader and flags *)
Definition long_bsr_ce (lcid : Z) (lcg_bsr : list Z) (room : Z) : list Z :=
  let '(flags, octets) := lcg_octets lcg_bsr room in
  NR_MAC_SUBHEADER_SHORT 0 0 lcid (1 + Z.of_nat (length octets)) ++ NR_BSR_LONG flags :: octets.

(** [room] is [mac_ce_end - mac_ce] *)
Definition nr_write_ce_ulsch_pdu (power_headroom : option NR_SINGLE_ENTRY_PHR_MAC_CE) (bsr : type_bsr_t) (room : Z) : list Z :=
  let phr := match power_headroom with
             | Some p => NR_MAC_SUBHEADER_FIXED 0 UL_SCH_LCID_SINGLE_ENTRY_PHR ++ phr_octets p
             | None => []
             end in
  let room := room - Z.of_nat (length phr) - 3 in
  phr ++
  match bsr with
  | b_short g b => NR_MAC_SUBHEADER_FIXED 0 UL_SCH_LCID_S_BSR ++ [NR_BSR_SHORT b g]
  | b_short_trunc g b => NR_MAC_SUBHEADER_FIXED 0 UL_SCH_LCID_S_TRUNCATED_BSR ++ [NR_BSR_SHORT b g]
  | b_long l => long_bsr_ce UL_SCH_LCID_L_BSR l room
  | b_long_trunc l => long_bsr_ce UL_SCH_LCID_L_TRUNCATED_BSR l room
  | b_none => []
  end.

(** the powers are integers at every call, and [float] is exact for them *)
Definition nr_ue_fill_phr (pathloss : Z) (p : nr_phr_info_t) (P_CMAX tx_power : Z) : NR_SINGLE_ENTRY_PHR_MAC_CE * nr_phr_info_t :=
  let headroom := P_CMAX - tx_power in
  let PH := if headroom <? 22 then Z.max 0 (headroom + 32) else Z.min 63 (55 + (headroom - 22) `quot` 2) in
  (mk_phr_ce PH (Z.land (Z.max 0 (P_CMAX + 29)) 63),
   p <| PathlossLastValue := pathloss |> <| periodicPHR_Timer := nr_timer_start (periodicPHR_Timer p) |>
     <| prohibitPHR_Timer := nr_timer_start (prohibitPHR_Timer p) |> <| phr_reporting := 0 |>).

(** ** The transport block under construction *)

Record NR_UE_MAC_CE_INFO := mk_ce_info {
  phr_len : Z;
  phr : option NR_SINGLE_ENTRY_PHR_MAC_CE;
  pdu_end : Z;
  end_for_tailer : Z;
  buf : list Z;                       (** from the start of the buffer to [cur_ptr] *)
  num_sdus : Z;
  lcids_data_status : list bool;
  lcp_allocation_counter : Z }.
#[export] Instance eta_NR_UE_MAC_CE_INFO : Eta NR_UE_MAC_CE_INFO :=
  fun c => mk_ce_info (phr_len c) (phr c) (pdu_end c) (end_for_tailer c) (buf c) (num_sdus c) (lcids_data_status c)
    (lcp_allocation_counter c).

(** [end_for_tailer - cur_ptr] *)
Definition rest (c : NR_UE_MAC_CE_INFO) : Z := end_for_tailer c - Z.of_nat (length (buf c)).

(** the bytes reserved for the report *)
Definition bsr_reserve (m : ul_mac) (buflen : Z) (LCG_bytes : list Z) : Z :=
  if BSR_reporting_active m =? 0 then 0 else
  let num_lcg_id_with_data := Z.of_nat (length (filter (fun b => b <> 0) LCG_bytes)) in
  let size_for_long := num_lcg_id_with_data + 1 + 2 in
  let size_for_short := 1 + 1 in
  if (1 <? num_lcg_id_with_data) && (size_for_long <=? buflen) then size_for_long
  else if ((0 <? num_lcg_id_with_data) && (size_for_short <=? buflen))
          || negb (Z.land (BSR_reporting_active m) NR_BSR_TRIGGER_PERIODIC =? 0)
  then size_for_short else 0.

Definition nr_ue_get_sdu_mac_ce_pre (m : ul_mac) (pathloss buflen : Z) (LCG_bytes : list Z) (tx_power P_CMAX : Z)
  : ul_mac * NR_UE_MAC_CE_INFO :=
  let bsr_len := bsr_reserve m buflen LCG_bytes in
  let c := mk_ce_info 0 None buflen (buflen - bsr_len) [] 0 (replicate NR_MAX_NUM_LCID true) 0 in
  let needed := 1 + 2 in
  if (is_configured (phr_info m) && (0 <? phr_reporting (phr_info m))) && (bsr_len + needed <=? buflen) then
    let '(ce, p) := nr_ue_fill_phr pathloss (phr_info m) P_CMAX tx_power in
    (m <| phr_info := p |>,
     c <| phr_len := needed |> <| phr := Some ce |> <| end_for_tailer := buflen - bsr_len - needed |>)
  else (m, c).

(** ** The report behind the SDUs *)

(** a short report on the group [g] *)
Definition short_bsr (LCG_bytes : list Z) (g : Z) : res (Z * Z) :=
  if g <? 0 then Err Out_of_bounds else
  let* b := arr_get LCG_bytes (Z.to_nat g) in
  let* i := nr_locate_BsrIndexByBufferSize NR_SHORT_BSR_TABLE_SIZE (i32 b) in
  Ok (g, i).

(** the indices of all groups *)
Fixpoint lcg_indices (LCG_bytes : list Z) : res (list Z) :=
  match LCG_bytes with
  | [] => Ok []
  | b :: l =>
    let* i := nr_locate_BsrIndexByBufferSize NR_LONG_BSR_TABLE_SIZE (i32 b) in
    let* l := lcg_indices l in Ok (i :: l)
  end.

(** [LCG_bytes > 0] in the loop that counts the groups compares the pointer, so
    every group counts *)
Definition num_lcg_id_with_data : Z := 8.

Definition choose_bsr (m : ul_mac) (padding_len : Z) (LCG_bytes : list Z) : res type_bsr_t :=
  let* lc := first_with_data m (lc_ordered_list m) in
  let* lcg_id_bsr_max :=
    match lc with
    | Some i => let* i := get_scheduling_info_from_lcid m (lcid i) in Ok (i32 (LCGID i))
    | None => Ok 0
    end in
  let short_bsr_sz := 1 + 1 in
  let long_bsr_sz := num_lcg_id_with_data + 1 + 2 in
  if (num_lcg_id_with_data <? 2) && (short_bsr_sz <=? padding_len) then
    let* '(g, i) := short_bsr LCG_bytes lcg_id_bsr_max in Ok (b_short g i)
  else if long_bsr_sz <=? padding_len then let* l := lcg_indices LCG_bytes in Ok (b_long l)
  else if padding_len =? short_bsr_sz then
    let* '(g, i) := short_bsr LCG_bytes lcg_id_bsr_max in Ok (b_short_trunc g i)
  else if 1 + 2 <=? padding_len then let* l := lcg_indices LCG_bytes in Ok (b_long_trunc l)
  else Ok b_none.

(** what the MAC does when a report is sent *)
Definition bsr_sent (m : ul_mac) (bsr : type_bsr_t) : res ul_mac :=
  match bsr with
  | b_none => Ok m
  | _ =>
    let m := m <| retxBSR_Timer := nr_timer_start (retxBSR_Timer m) |> in
    let m := match bsr with
             | b_long_trunc _ | b_short_trunc _ _ => m
             | _ => m <| periodicBSR_Timer := nr_timer_start (periodicBSR_Timer m) |>
             end in
    if 0 <? regularBSR_trigger_lcid m then
      match get_lc_info_from_lcid m (regularBSR_trigger_lcid m) with
      | None => Err Exit
      | Some lc_info =>
        if (0 <=? sr_id lc_info) && (sr_id lc_info <? NR_MAX_SR_ID) then
          let* sr := arr_get (sr_info m) (Z.to_nat (sr_id lc_info)) in
          let* l := arr_set (sr_info m) (Z.to_nat (sr_id lc_info)) (clear_sr sr) in
          Ok (m <| sr_info := l |>)
        else Ok m
      end
    else Ok m
  end.

(** with [*BSRsent] *)
Definition nr_ue_get_sdu_mac_ce_post (m : ul_mac) (c : NR_UE_MAC_CE_INFO) (LCG_bytes : list Z)
  : res (ul_mac * NR_UE_MAC_CE_INFO * bool) :=
  let cur := Z.of_nat (length (buf c)) in
  let padding_len := u32 (pdu_end c - cur - phr_len c) in
  let* bsr := choose_bsr m padding_len LCG_bytes in
  let* m := bsr_sent m bsr in
  let ces := nr_write_ce_ulsch_pdu (if phr_len c =? 0 then None else phr c) bsr (pdu_end c - cur) in
  if pdu_end c <? cur + Z.of_nat (length ces) then Err Out_of_bounds else
  Ok (m, c <| buf := buf c ++ ces |>, match bsr with b_none => false | _ => true end).

(** ** Logical channel prioritization *)

Definition get_count_lcids_same_priority (start : nat) (a : list nr_lcordered_info_t) : res Z :=
  let* x := arr_get a start in
  Ok (u8 (Z.of_nat (length (filter (fun i => priority i = priority x) (drop start a))))).

(** the bytes to ask for, and [*target] *)
Definition get_num_bytes_to_reqlc (m : ul_mac) (same_priority_count lc_num buflen_remain_ep buflen_remain round_id : Z)
    (bytes_read_fromlc : list Z) : res (Z * Z) :=
  match get_lc_info_from_lcid m lc_num with
  | None => Err Exit
  | Some lc_info =>
    let pbr := pbr lc_info in
    let* i := get_scheduling_info_from_lcid m lc_num in
    let lcid_remain_buffer := LCID_buffer_remain i in
    let target := if 1 <? same_priority_count then Z.min buflen_remain_ep pbr else pbr in
    let* read := arr_get bytes_read_fromlc (Z.to_nat (lc_num - 1)) in
    let '(num_remaining_bytes, num_bytes_requested) :=
      if round_id =? 0 then
        let pdu_remain := if 1 <? same_priority_count then buflen_remain_ep else u32 buflen_remain in
        let requested := if pdu_remain <? pbr then Z.min pdu_remain (u32 lcid_remain_buffer)
                         else Z.min pbr (u32 lcid_remain_buffer) in
        (target - read, Z.min requested (target - read))
      else if 1 <? same_priority_count then
        let remaining := u32 (buflen_remain_ep - read) in
        (remaining, Z.min (Z.min buflen_remain_ep (u32 lcid_remain_buffer)) remaining)
      else (0, Z.min buflen_remain lcid_remain_buffer) in
    if negb ((0 <=? num_remaining_bytes) && (num_bytes_requested <=? buflen_remain)) then Err Exit
    else Ok (num_bytes_requested, target)
  end.

Definition get_dataavailability_buffers (a : list nr_lcordered_info_t) (status : list bool) : res bool :=
  fold_res (fun found i =>
      if found : bool then Ok true else let* idx := lcid_buffer_index (lcid i) in arr_get status idx) a false.

(** the channels with a positive bucket *)
Definition select_logical_channels (m : ul_mac) : res (list nr_lcordered_info_t) :=
  fold_res (fun l lc_info =>
      if rb_suspended lc_info then Ok l else
      let* i := get_scheduling_info_from_lcid m (lcid lc_info) in
      Ok (if 0 <? Bj i then l ++ [lc_info] else l))
    (lc_ordered_list m) [].

(** the variables of [nr_ue_get_sdu] that the loops change *)
Record lcp (St : Type) := mk_lcp {
  lp_mac : ul_mac;
  lp_rlc : St;
  lp_ce : NR_UE_MAC_CE_INFO;
  LCG_bytes : list Z;
  lcids_bytes_tot : list Z;
  num_lcids_same_priority : Z;
  count_same_priority_lcids : Z;
  buflen_ep : Z }.
Arguments mk_lcp {St}. Arguments lp_mac {St}. Arguments lp_rlc {St}. Arguments lp_ce {St}. Arguments LCG_bytes {St}.
Arguments lcids_bytes_tot {St}. Arguments num_lcids_same_priority {St}. Arguments count_same_priority_lcids {St}.
Arguments buflen_ep {St}.
#[export] Instance eta_lcp {St} : Eta (lcp St) :=
  fun l => mk_lcp (lp_mac l) (lp_rlc l) (lp_ce l) (LCG_bytes l) (lcids_bytes_tot l) (num_lcids_same_priority l)
    (count_same_priority_lcids l) (buflen_ep l).

Section Rlc.
Context `{RlcData St}.

Definition sdu_header (header_sz lcid sdu_length : Z) : list Z :=
  if header_sz =? 2 then NR_MAC_SUBHEADER_SHORT 0 0 lcid sdu_length else NR_MAC_SUBHEADER_LONG 0 1 lcid sdu_length.

(** an SDU that has arrived: the counters of its channel, the bytes left for
    the report, and whether to go on with the channel *)
Definition mac_sdu_served (l : lcp St) (lcid header_sz target : Z) (sdu : list Z) : res (lcp St * bool) :=
  let sdu_length := Z.of_nat (length sdu) in
  let c := lp_ce l in
  let c := c <| num_sdus := u32 (num_sdus c + 1) |> <| buf := buf c ++ sdu_header header_sz lcid sdu_length ++ sdu |> in
  let* i := get_scheduling_info_from_lcid (lp_mac l) lcid in
  let* m := set_scheduling_info (lp_mac l) lcid (i <| LCID_buffer_remain := LCID_buffer_remain i - sdu_length |>) in
  if LCGID i <? 0 then Err Out_of_bounds else
  let* b := arr_get (LCG_bytes l) (Z.to_nat (LCGID i)) in
  let* lcg := arr_set (LCG_bytes l) (Z.to_nat (LCGID i)) (u32 (b - sdu_length)) in
  let* lc_idx := lcid_buffer_index lcid in
  let* t := arr_get (lcids_bytes_tot l) lc_idx in
  let t := u32 (t + (sdu_length + (if 1 <? count_same_priority_lcids l then 1 else 0) * 3)) in
  let* tot := arr_set (lcids_bytes_tot l) lc_idx t in
  let l := l <| lp_mac := m |> <| lp_ce := c |> <| LCG_bytes := lcg |> <| lcids_bytes_tot := tot |> in
  if ((lcp_allocation_counter c =? 0) && (target <=? t))
     || ((1 <? count_same_priority_lcids l) && (buflen_ep l <=? t))
  then Ok (l <| num_lcids_same_priority := u32 (num_lcids_same_priority l - 1) |>, false)
  else Ok (l, true).

Definition fill_mac_sdu (l : lcp St) (lcid : Z) : res (lcp St * bool) :=
  let c := lp_ce l in
  let* _ := get_scheduling_info_from_lcid (lp_mac l) lcid in
  let usable := u32 (rest c) in
  if is_lcid_suspended (lp_mac l) lcid then Ok (l, false)
  else if u64 (rest c) <? 3 then Ok (l, false)
  else
  let header_sz := if usable <? 256 then 2 else 3 in
  let* '(bytes_requested, target) :=
    get_num_bytes_to_reqlc (lp_mac l) (u8 (count_same_priority_lcids l)) lcid (buflen_ep l) (i32 (u32 (usable - header_sz)))
      (u8 (lcp_allocation_counter c)) (lcids_bytes_tot l) in
  let header_sz := if bytes_requested <? 256 then 2 else 3 in
  let* '(s, sdu) := rlc_data_req (lp_rlc l) lcid bytes_requested in
  let sdu_length := Z.of_nat (length sdu) in
  if pdu_end c <? Z.of_nat (length (buf c)) + header_sz + sdu_length then Err Out_of_bounds
  else if negb (sdu_length <=? bytes_requested) then Err Exit
  else
  let* i := get_scheduling_info_from_lcid (lp_mac l) lcid in
  let* m := set_scheduling_info (lp_mac l) lcid (i <| Bj := i32 (Bj i - sdu_length) |>) in
  let l := l <| lp_rlc := s |> <| lp_mac := m |> in
  let* lc_idx := lcid_buffer_index lcid in
  if 0 <? sdu_length then mac_sdu_served l lcid header_sz target sdu
  else
    let* d := arr_set (lcids_data_status c) lc_idx false in
    Ok (l <| lp_ce := c <| lcids_data_status := d |> |>
          <| num_lcids_same_priority := u32 (num_lcids_same_priority l - 1) |>, false).

(** [while (end_for_tailer - cur_ptr > 0) if (!fill_mac_sdu(...)) break] *)
Fixpoint fill_mac_sdus (fuel : nat) (l : lcp St) (lcid : Z) : res (lcp St) :=
  match fuel with
  | O => Err No_fuel
  | S fuel =>
    if 0 <? rest (lp_ce l) then
      let* '(l, more) := fill_mac_sdu l lcid in
      if more : bool then fill_mac_sdus fuel l lcid else Ok l
    else Ok l
  end.

(** the group of channels of the priority of [lcids_bj_pos[id]] *)
Definition start_group (a : list nr_lcordered_info_t) (id : nat) (l : lcp St) : res (lcp St) :=
  let* l := if num_lcids_same_priority l =? 0 then
              let* n := get_count_lcids_same_priority id a in
              Ok (l <| num_lcids_same_priority := n |> <| count_same_priority_lcids := n |>)
            else Ok l in
  let remain := rest (lp_ce l) in
  let count := count_same_priority_lcids l in
  if num_lcids_same_priority l =? count then
    if count =? 0 then Err Undefined
    else Ok (l <| buflen_ep := if u64 remain <? count * 3 then 0 else u32 (u64 (remain - count * 3) / count) |>)
  else Ok l.

Definition lcp_channel (a : list nr_lcordered_info_t) (l : lcp St) (id : nat) : res (lcp St) :=
  let* lc := arr_get a id in
  let* idx := lcid_buffer_index (lcid lc) in
  let* d := arr_get (lcids_data_status (lp_ce l)) idx in
  if negb d then Ok l else
  let* l := start_group a id l in
  fill_mac_sdus (S (Z.to_nat (rest (lp_ce l)))) l (lcid lc).

(** one pass over the channels *)
Definition lcp_round (a : list nr_lcordered_info_t) (l : lcp St) : res (lcp St) :=
  let l := l <| lcids_bytes_tot := replicate NR_MAX_NUM_LCID 0 |> <| num_lcids_same_priority := 0 |>
             <| count_same_priority_lcids := 0 |> in
  let* l := fold_res (lcp_channel a) (seq 0 (length a)) l in
  Ok (l <| lp_ce := lp_ce l <| lcp_allocation_counter := u32 (lcp_allocation_counter (lp_ce l) + 1) |> |>).

(** [do ... while] *)
Fixpoint lcp_rounds (fuel : nat) (a : list nr_lcordered_info_t) (l : lcp St) : res (lcp St) :=
  match fuel with
  | O => Err No_fuel
  | S fuel =>
    let* l := lcp_round a l in
    let* more := if 3 <? u64 (rest (lp_ce l)) then get_dataavailability_buffers a (lcids_data_status (lp_ce l)) else Ok false in
    if more : bool then lcp_rounds fuel a l else Ok l
  end.

Definition lcp_fuel : nat := 300.

(** the bytes behind the last subPDU; [random] gives those of [lrand48] when the
    UE runs without upper layers *)
Definition ul_padding (random : option (Z -> list Z)) (remain : Z) : list Z :=
  if remain =? 0 then [] else
  NR_MAC_SUBHEADER_FIXED 0 UL_SCH_LCID_PADDING ++
  match random with Some r => r (remain - 1) | None => replicate (Z.to_nat (remain - 1)) 0 end.

(** the buffer, [None] when nothing is written to it, the return value and
    [*BSRsent] *)
Definition nr_ue_get_sdu (m : ul_mac) (s : St) (random : option (Z -> list Z)) (pathloss buflen tx_power P_CMAX : Z)
  : res (ul_mac * St * option (list Z) * bool * bool) :=
  let* '(m, lcg) := nr_update_bsr m (replicate NR_MAX_NUM_LCGID 0) in
  let '(m, c) := nr_ue_get_sdu_mac_ce_pre m pathloss buflen lcg tx_power P_CMAX in
  match lc_ordered_list m with
  | [] => Ok (m, s, None, false, false)
  | _ =>
    let* a := select_logical_channels m in
    let* l := lcp_rounds lcp_fuel a (mk_lcp m s c lcg (replicate NR_MAX_NUM_LCID 0) 0 0 0) in
    let* '(m, c, sent) := nr_ue_get_sdu_mac_ce_post (lp_mac l) (lp_ce l) (LCG_bytes l) in
    let pdu := buf c ++ ul_padding random (pdu_end c - Z.of_nat (length (buf c))) in
    Ok (m, lp_rlc l, Some pdu, 0 <? num_sdus c, sent)
  end.
End Rlc.
