(* ===== verification/MacUlGnb.v ===== *)
(** * Uplink MAC PDUs at the gNB

    The logical channels of a UE at the gNB (gNB_scheduler_primitives.c) and
    the parser of a transport block ([nr_process_mac_pdu] and
    [lcid_crnti_lookahead] of gNB_scheduler_ulsch.c).

    The indications to the RLC are recorded in [rlc_inds] in their order. *)
From S2P Require Import Prelude MacPdu MacBsr.

(** ** Logical channels *)

Record nr_lc_config_t := mk_lc_config { lc_lcid : Z; lc_suspended : bool; lc_priority : Z }.

Definition cmp_lc_config (a b : nr_lc_config_t) : Z :=
  if lc_priority a <? lc_priority b then -1 else if lc_priority a =? lc_priority b then 0 else 1.

(** the stable sort of [qsort] *)
Fixpoint lc_config_insert (x : nr_lc_config_t) (l : list nr_lc_config_t) : list nr_lc_config_t :=
  match l with
  | [] => [x]
  | y :: l => if cmp_lc_config y x <=? 0 then y :: lc_config_insert x l else x :: y :: l
  end.
Definition lc_config_sort (l : list nr_lc_config_t) : list nr_lc_config_t := foldl (fun acc x => lc_config_insert x acc) [] l.

Definition nr_mac_get_lc_config (l : list nr_lc_config_t) (lcid : Z) : option nr_lc_config_t :=
  snd <$> list_find (fun c => lc_lcid c = u8 lcid) l.

Definition nr_mac_add_lcid (l : list nr_lc_config_t) (c : nr_lc_config_t) : list nr_lc_config_t :=
  lc_config_sort (match list_find (fun it => lc_lcid it = lc_lcid c) l with
                  | Some (i, _) => <[i := c]> l
                  | None => l ++ [c]
                  end).

Definition nr_mac_remove_lcid (l : list nr_lc_config_t) (lcid : Z) : list nr_lc_config_t * bool :=
  match list_find (fun c => lc_lcid c = u8 lcid) l with
  | Some (i, _) => (delete i l, true)
  | None => (l, false)
  end.

(** ** The parser *)

(** what it reads and writes of NR_UE_info_t *)
Record ul_ue := mk_ul_ue {
  lc_config : list nr_lc_config_t;
  has_CellGroup : bool;
  ra_idle : bool;                (** a random access procedure in the state [nrRA_gNB_IDLE] *)
  is_redcap : bool;
  estimated_ul_buffer : Z;
  ul_ph : Z; ul_ph0 : Z; ul_pcmax : Z;
  ul_num_mac_sdu : Z; ul_total_sdu_bytes : Z; ul_lc_bytes : list Z;
  rlc_inds : list (Z * list Z) }.
#[export] Instance eta_ul_ue : Eta ul_ue :=
  fun u => mk_ul_ue (lc_config u) (has_CellGroup u) (ra_idle u) (is_redcap u) (estimated_ul_buffer u) (ul_ph u) (ul_ph0 u)
    (ul_pcmax u) (ul_num_mac_sdu u) (ul_total_sdu_bytes u) (ul_lc_bytes u) (rlc_inds u).

(** the next subPDU, or the value that the function returns *)
Inductive ul_end := Ul_next | Ul_return (r : Z).

Definition data_ind (u : ul_ue) (lcid : Z) (sdu : list Z) : ul_ue := u <| rlc_inds := rlc_inds u ++ [(lcid, sdu)] |>.

Definition add_lc_bytes (u : ul_ue) (lcid mac_len : Z) : res ul_ue :=
  let* b := arr_get (ul_lc_bytes u) (Z.to_nat lcid) in
  let* l := arr_set (ul_lc_bytes u) (Z.to_nat lcid) (u64 (b + mac_len)) in Ok (u <| ul_lc_bytes := l |>).

Section Parser.
(** the result of [prepare_initial_ul_rrc_message], the factor of the power
    headroom ([compute_ph_factor]) and the HARQ process *)
Context (initial_ok : bool) (ph_factor harq_pid : Z).

Definition ccch_ul_sub_pdu (u : ul_ue) (pdu : list Z) (pos lcid sub mac_len : Z) : res (ul_ue * ul_end) :=
  let* whole := mem_read pdu pos (sub + mac_len) in
  if (lcid =? UL_SCH_LCID_CCCH_64_BITS) && negb (existsb (fun b => negb (b =? 0)) whole) then Ok (u, Ul_return 0) else
  let u := if lcid =? UL_SCH_LCID_CCCH_48_BITS_REDCAP then u <| is_redcap := true |> else u in
  let* sdu := mem_read pdu (pos + sub) mac_len in
  Ok (if initial_ok then data_ind u 0 sdu else u, Ul_next).

Definition srb_ul_sub_pdu (u : ul_ue) (pdu : list Z) (pos lcid sub mac_len : Z) : res (ul_ue * ul_end) :=
  if negb (has_CellGroup u) then Err Exit else
  match nr_mac_get_lc_config (lc_config u) lcid with
  | Some c =>
    if lc_suspended c then Ok (u, Ul_next) else
    let* sdu := mem_read pdu (pos + sub) mac_len in
    let* u := add_lc_bytes (data_ind u lcid sdu) lcid mac_len in
    Ok (u <| ul_total_sdu_bytes := u64 (ul_total_sdu_bytes u + mac_len) |>, Ul_next)
  | None => Ok (u, Ul_next)
  end.

(** [sdus] counts the SDUs *)
Definition drb_ul_sub_pdu (u : ul_ue) (sdus : Z) (pdu : list Z) (pos lcid sub mac_len : Z) : res (ul_ue * Z * ul_end) :=
  match nr_mac_get_lc_config (lc_config u) lcid with
  | Some c =>
    if lc_suspended c then Ok (u, sdus, Ul_next) else
    let* u := add_lc_bytes u lcid mac_len in
    let* sdu := mem_read pdu (pos + sub) mac_len in
    let u := data_ind u lcid sdu in
    Ok (u <| estimated_ul_buffer := if mac_len <=? estimated_ul_buffer u then estimated_ul_buffer u - mac_len else 0 |>,
        sdus + 1, Ul_next)
  | None => Ok (u, sdus, Ul_next)
  end.

(** the power headroom in dB for the reported index (38.133, table 10.1.17.1-1) *)
Definition ph_of_index (PH : Z) : Z :=
  if PH <? 55 then PH - 32 else if PH <? 63 then 24 + (PH - 55) * 2 else 38.

Definition phr_ul_sub_pdu (u : ul_ue) (pdu : list Z) (pos sub : Z) : res (ul_ue * ul_end) :=
  if harq_pid <? 0 then Ok (u, Ul_return 0) else
  let* b0 := pdu_at pdu (pos + sub) in
  let* b1 := pdu_at pdu (pos + sub + 1) in
  let PCMAX := bits 0 6 b1 in
  let PH := ph_of_index (bits 0 6 b0) in
  Ok (u <| ul_ph := PH + ph_factor |> <| ul_ph0 := PH |> <| ul_pcmax := PCMAX - 29 |>, Ul_next).

Definition ul_sub_pdu (u : ul_ue) (sdus : Z) (pdu : list Z) (pos lcid sub mac_len : Z) : res (ul_ue * Z * ul_end) :=
  let keep r := let* '(u, e) := r in Ok (u, sdus, e) in
  if (lcid =? UL_SCH_LCID_CCCH_64_BITS) || (lcid =? UL_SCH_LCID_CCCH_48_BITS_REDCAP) || (lcid =? UL_SCH_LCID_CCCH_48_BITS)
  then keep (ccch_ul_sub_pdu u pdu pos lcid sub mac_len)
  else if (lcid =? UL_SCH_LCID_SRB1) || (lcid =? UL_SCH_LCID_SRB2) then keep (srb_ul_sub_pdu u pdu pos lcid sub mac_len)
  else if (UL_SCH_LCID_DTCH <=? lcid) && (lcid <=? UL_SCH_LCID_DTCH + 28) then drb_ul_sub_pdu u sdus pdu pos lcid sub mac_len
  else if (lcid =? UL_SCH_LCID_RECOMMENDED_BITRATE_QUERY) || (lcid =? UL_SCH_LCID_MULTI_ENTRY_PHR_4_OCT)
          || (lcid =? UL_SCH_LCID_CONFIGURED_GRANT_CONFIRMATION) || (lcid =? UL_SCH_LCID_MULTI_ENTRY_PHR_1_OCT)
  then Ok (u, sdus, Ul_next)
  else if lcid =? UL_SCH_LCID_SINGLE_ENTRY_PHR then keep (phr_ul_sub_pdu u pdu pos sub)
  else if lcid =? UL_SCH_LCID_C_RNTI then if ra_idle u then Err Exit else Ok (u, sdus, Ul_next)
  else if (lcid =? UL_SCH_LCID_S_TRUNCATED_BSR) || (lcid =? UL_SCH_LCID_S_BSR) then
    let* b := pdu_at pdu (pos + sub) in
    let* e := estimate_ul_buffer_short_bsr b in
    Ok (u <| estimated_ul_buffer := e |>, sdus, Ul_next)
  else if (lcid =? UL_SCH_LCID_L_TRUNCATED_BSR) || (lcid =? UL_SCH_LCID_L_BSR) then
    let* e := estimate_ul_buffer_long_bsr pdu (pos + sub) in
    Ok (u <| estimated_ul_buffer := e |>, sdus, Ul_next)
  else if lcid =? UL_SCH_LCID_PADDING then Ok (u, sdus, Ul_return 0)
  else Ok (u, sdus, Ul_return (-1)).

Fixpoint ul_sub_pdus (fuel : nat) (u : ul_ue) (sdus : Z) (pdu : list Z) (pos pdu_len : Z) : res (ul_ue * Z) :=
  match fuel with
  | O => Err No_fuel
  | S fuel =>
    if pdu_len <=? 0 then Ok (u <| ul_num_mac_sdu := u32 (ul_num_mac_sdu u + sdus) |>, 0) else
    let* '(sub, lcid, mac_len) := decode_ul_mac_sub_pdu_header pdu pos 0 in
    if pdu_len <? sub + mac_len then Ok (u, 0) else
    let* '(u, sdus, e) := ul_sub_pdu u sdus pdu pos lcid sub mac_len in
    match e with
    | Ul_next => ul_sub_pdus fuel u sdus pdu (pos + (sub + mac_len)) (pdu_len - (sub + mac_len))
    | Ul_return r => Ok (u, r)
    end
  end.

(** with the return value; the first octet is read for a trace *)
Definition nr_process_mac_pdu (u : ul_ue) (pdu : list Z) : res (ul_ue * Z) :=
  let* _ := pdu_at pdu 0 in
  ul_sub_pdus (S (length pdu)) u 0 pdu 0 (Z.of_nat (length pdu)).
End Parser.

(** the C-RNTI in a PDU, 0 when it has none *)
Fixpoint crnti_lookahead (fuel : nat) (pdu : list Z) (pos pdu_len : Z) : res Z :=
  match fuel with
  | O => Err No_fuel
  | S fuel =>
    if pdu_len <=? 0 then Ok 0 else
    let* '(sub, lcid, mac_len) := decode_ul_mac_sub_pdu_header pdu pos 0 in
    if pdu_len <? sub + mac_len then Ok 0
    else if lcid =? UL_SCH_LCID_C_RNTI then
      let* h := pdu_at pdu (pos + 1) in
      let* l := pdu_at pdu (pos + 2) in
      Ok (Z.lor (Z.shiftl (Z.land h 255) 8) (Z.land l 255))
    else if lcid =? UL_SCH_LCID_PADDING then Ok 0
    else crnti_lookahead fuel pdu (pos + (sub + mac_len)) (pdu_len - (sub + mac_len))
  end.
Definition lcid_crnti_lookahead (pdu : list Z) : res Z := crnti_lookahead (S (length pdu)) pdu 0 (Z.of_nat (length pdu)).
