(* ===== verification/MacUlLcp.v ===== *)
(** * Logical channel prioritization: it ends, fits and accounts for every byte

    Every pass over the channels marks a channel as served or takes a share of
    the room, so the passes end, fewer than 256 of them; what is asked of the
    RLC always fits; the bytes waiting of each channel and of each group go
    down by exactly what is sent. *)
From S2P Require Import Prelude NrTimer MacPdu MacBsr MacRlc RlcApi MacUlLc MacUl.

(** ** Channels with their scheduling information *)

Definition no_timer : NR_timer_t := mk_timer false false 0 0 0.
Definition no_sched : NR_LC_SCHEDULING_INFO := mk_lc_sched 0 0 0 no_timer.
Definition sched_at (m : ul_mac) (lcid : Z) : NR_LC_SCHEDULING_INFO :=
  default no_sched (lc_sched_info m !! Z.to_nat (lcid - 1)).

Definition lcids (m : ul_mac) : list Z := lcid <$> lc_ordered_list m.
(** the bytes waiting of channel [c] *)
Definition remain_at (m : ul_mac) (c : Z) : Z := LCID_buffer_remain (sched_at m c).

(** the bytes waiting in a group *)
Definition lcg_sum (m : ul_mac) (l : list Z) (g : Z) : Z :=
  sum_Z ((fun c => if LCGID (sched_at m c) =? g then remain_at m c else 0) <$> l).

(** The channels of a UE: identities in their range and different, each with a
    group, the bytes waiting together fit an [int].  [MAX_SAME] bounds the
    channels of one priority. *)
Definition MAX_SAME : Z := 16.
Record ul_ok (m : ul_mac) : Prop := {
  uo_nodup : NoDup (lcids m);
  uo_range c : c ∈ lcids m -> 1 <= c <= 32;
  uo_sched : length (lc_sched_info m) = NR_MAX_NUM_LCID;
  uo_group c : c ∈ lcids m -> 0 <= LCGID (sched_at m c) < 8;
  uo_remain c : c ∈ lcids m -> 0 <= remain_at m c;
  uo_total : sum_Z (remain_at m <$> lcids m) < 2147483648;
  uo_pbr i : i ∈ lc_ordered_list m -> 0 <= pbr i < 4294967296;
  uo_same i : i ∈ lc_ordered_list m ->
    Z.of_nat (length (filter (fun j => priority j = priority i) (lc_ordered_list m))) <= MAX_SAME;
  uo_sr : length (sr_info m) = 8%nat;
  uo_trigger : regularBSR_trigger_lcid m <= 0 \/ regularBSR_trigger_lcid m ∈ lcids m }.

Lemma buffer_index_ok c : 1 <= c <= 32 -> lcid_buffer_index c = Ok (Z.to_nat (c - 1)).
Proof.
  intros. unfold lcid_buffer_index. change (Z.of_nat NR_MAX_NUM_LCID) with 32.
  by rewrite (proj2 (Z.ltb_lt 0 c)), (proj2 (Z.leb_le c 32)) by lia.
Qed.

Section Access.
Context (m : ul_mac) (H_len : length (lc_sched_info m) = NR_MAX_NUM_LCID).
#[local] Set Default Proof Using "All".

Lemma get_sched_ok c : 1 <= c <= 32 -> get_scheduling_info_from_lcid m c = Ok (sched_at m c).
Proof.
  intros Hc. unfold get_scheduling_info_from_lcid. rewrite buffer_index_ok by done. cbn [res_bind].
  unfold arr_get, sched_at. destruct (lookup_lt_is_Some_2 (lc_sched_info m) (Z.to_nat (c - 1))) as [i ->]; [|done].
  rewrite H_len. unfold NR_MAX_NUM_LCID. lia.
Qed.

Lemma set_sched_ok c i : 1 <= c <= 32 -> exists m', set_scheduling_info m c i = Ok m' /\
  m' = m <| lc_sched_info := <[Z.to_nat (c - 1) := i]> (lc_sched_info m) |> /\
  length (lc_sched_info m') = NR_MAX_NUM_LCID /\
  forall d, 1 <= d <= 32 -> sched_at m' d = if d =? c then i else sched_at m d.
Proof.
  intros Hc. unfold set_scheduling_info. rewrite buffer_index_ok by done. cbn [res_bind].
  unfold arr_set. rewrite H_len. destruct (Nat.ltb_spec (Z.to_nat (c - 1)) NR_MAX_NUM_LCID) as [Hl|Hl];
    [|unfold NR_MAX_NUM_LCID in Hl; lia].
  eexists. split; [done|]. split; [done|]. cbn. split; [by rewrite length_insert|]. intros d Hd.
  unfold sched_at. cbn. destruct (Z.eqb_spec d c) as [->|Hn].
  - rewrite list_lookup_insert_eq; [done|]. rewrite H_len. done.
  - rewrite list_lookup_insert_ne; [done|]. lia.
Qed.
End Access.

(** only the scheduling information of the channels changes *)
Lemma ul_frame_set (m m1 : ul_mac) s x : m1 = m <| lc_sched_info := s |> -> m1 <| lc_sched_info := x |> = m <| lc_sched_info := x |>.
Proof. by intros ->. Qed.

Lemma find_lc m c : c ∈ lcids m -> exists i, get_lc_info_from_lcid m c = Some i /\ i ∈ lc_ordered_list m /\ lcid i = c.
Proof.
  intros Hc. unfold lcids in Hc. apply list_elem_of_fmap in Hc as (i & -> & Hi).
  unfold get_lc_info_from_lcid. destruct (list_find _ _) as [[k j]|] eqn:E.
  - apply list_find_Some in E as (Hk & Hj & _). exists j. cbn. split; [done|]. split; [by eapply list_elem_of_lookup_2|done].
  - apply list_find_None in E. rewrite Forall_forall in E. by specialize (E i Hi).
Qed.

Lemma find_lc_unique m i : NoDup (lcids m) -> i ∈ lc_ordered_list m -> get_lc_info_from_lcid m (lcid i) = Some i.
Proof.
  intros Hnd Hi. destruct (find_lc m (lcid i)) as (j & E & Hj & Ej); [by apply list_elem_of_fmap; exists i|].
  rewrite E. f_equal. apply list_elem_of_lookup in Hi as [a Ha]. apply list_elem_of_lookup in Hj as [b Hb].
  assert (a = b) as ->; [|congruence]. eapply NoDup_lookup; [exact Hnd| |]; unfold lcids; rewrite list_lookup_fmap.
  - by rewrite Ha. - rewrite Hb. cbn. by rewrite Ej.
Qed.

(** ** Sums over the channels *)

Lemma sum_Z_app l l' : sum_Z (l ++ l') = sum_Z l + sum_Z l'.
Proof. unfold sum_Z. induction l; cbn; [done|]. rewrite IHl. lia. Qed.

Lemma sum_Z_ext {A} (f g : A -> Z) l : (forall x, x ∈ l -> f x = g x) -> sum_Z (f <$> l) = sum_Z (g <$> l).
Proof.
  induction l as [|x l IH]; intros H; [done|]. cbn. rewrite (H x) by by left. unfold sum_Z in IH.
  rewrite IH; [done|]. intros y Hy. apply H. by right.
Qed.

Lemma sum_Z_nonneg {A} (f : A -> Z) l : (forall x, x ∈ l -> 0 <= f x) -> 0 <= sum_Z (f <$> l).
Proof.
  unfold sum_Z. induction l as [|x l IH]; intros H; [done|]. cbn.
  pose proof (H x ltac:(by left)). specialize (IH ltac:(intros y Hy; apply H; by right)). lia.
Qed.

Lemma sum_Z_le {A} (f g : A -> Z) l : (forall x, x ∈ l -> f x <= g x) -> sum_Z (f <$> l) <= sum_Z (g <$> l).
Proof.
  unfold sum_Z. induction l as [|x l IH]; intros H; [done|]. cbn.
  pose proof (H x ltac:(by left)). specialize (IH ltac:(intros y Hy; apply H; by right)). lia.
Qed.

(** one element changes *)
Lemma sum_Z_change {A} `{EqDecision A} (f g : A -> Z) l c d : NoDup l -> c ∈ l -> g c = f c + d ->
  (forall x, x ∈ l -> x <> c -> g x = f x) -> sum_Z (g <$> l) = sum_Z (f <$> l) + d.
Proof.
  unfold sum_Z. induction l as [|x l IH]; intros Hnd Hc Hg Hne; [by apply not_elem_of_nil in Hc|].
  apply NoDup_cons in Hnd as [Hx Hnd]. cbn. apply elem_of_cons in Hc as [->|Hc].
  - rewrite Hg. pose proof (sum_Z_ext g f l) as E. unfold sum_Z in E. rewrite E; [lia|].
    intros y Hy. apply Hne; [by right|]. by intros ->.
  - rewrite IH; [|done|done|done|intros y Hy; apply Hne; by right]. rewrite (Hne x); [lia|by left|]. by intros ->.
Qed.

Lemma lcg_sum_le m l g : (forall c, c ∈ l -> 0 <= remain_at m c) -> 0 <= lcg_sum m l g <= sum_Z (remain_at m <$> l).
Proof.
  intros H. unfold lcg_sum. split.
  - apply sum_Z_nonneg. intros c Hc. case_match; [by apply H|lia].
  - apply sum_Z_le. intros c Hc. specialize (H c Hc). case_match; lia.
Qed.

(** the groups when channel [c] is served [n] bytes *)
Lemma lcg_sum_change m m' l c n g : NoDup l -> c ∈ l ->
  (forall d, d ∈ l -> LCGID (sched_at m' d) = LCGID (sched_at m d)) ->
  (forall d, d ∈ l -> remain_at m' d = remain_at m d - (if d =? c then n else 0)) ->
  lcg_sum m' l g = lcg_sum m l g - (if LCGID (sched_at m c) =? g then n else 0).
Proof.
  intros Hnd Hc Hg Hr. unfold lcg_sum.
  rewrite (sum_Z_change (fun c => if LCGID (sched_at m c) =? g then remain_at m c else 0) _ l c
    (- (if LCGID (sched_at m c) =? g then n else 0))); [lia|done|done| |].
  - rewrite Hg, Hr, Z.eqb_refl by done. destruct (_ =? g); lia.
  - intros d Hd Hne. rewrite Hg, Hr by done. destruct (Z.eqb_spec d c); [done|]. destruct (_ =? g); lia.
Qed.

Lemma fmap_seqZ_insert (f f' : Z -> Z) n k x : 0 <= k < n -> f' k = x -> (forall g, g <> k -> f' g = f g) ->
  <[Z.to_nat k := x]> (f <$> seqZ 0 n) = f' <$> seqZ 0 n.
Proof.
  intros Hk Hx Hne. apply list_eq. intros i. rewrite list_lookup_fmap.
  destruct (decide (i = Z.to_nat k)) as [->|Hi].
  - rewrite list_lookup_insert_eq by (rewrite length_fmap, length_seqZ; lia).
    rewrite lookup_seqZ_lt by lia. cbn. rewrite <- Hx. do 2 f_equal. lia.
  - rewrite list_lookup_insert_ne, list_lookup_fmap by done. destruct (seqZ 0 n !! i) as [g|] eqn:E; [|done].
    apply lookup_seqZ in E as [-> Hl]. cbn. rewrite Hne; [done|lia].
Qed.

(** ** The subPDUs written *)

(** the bytes of the SDUs of a log, each behind a subheader with its length *)
Inductive ul_subs : list (Z * list Z) -> list Z -> Prop :=
  | ul_subs_nil : ul_subs [] []
  | ul_subs_snoc log b c sdu h : ul_subs log b -> 1 <= c <= 32 -> sdu <> [] ->
      (h = 2 /\ Z.of_nat (length sdu) < 256) \/ (h = 3 /\ Z.of_nat (length sdu) < 65536) ->
      ul_subs (log ++ [(c, sdu)]) (b ++ sdu_header h c (Z.of_nat (length sdu)) ++ sdu).

(** the bytes of a channel in a log *)
Definition chan_bytes (log : list (Z * list Z)) (c : Z) : Z :=
  sum_Z ((fun x => if fst x =? c then Z.of_nat (length (snd x)) else 0) <$> log).

Lemma chan_bytes_snoc log c sdu d :
  chan_bytes (log ++ [(c, sdu)]) d = chan_bytes log d + (if c =? d then Z.of_nat (length sdu) else 0).
Proof. unfold chan_bytes. rewrite fmap_app, sum_Z_app. cbn. lia. Qed.

Lemma chan_bytes_nonneg log c : 0 <= chan_bytes log c.
Proof. unfold chan_bytes. apply sum_Z_nonneg. intros x _. cbn. case_match; lia. Qed.

Lemma sdu_header_length h c n : h = 2 \/ h = 3 -> Z.of_nat (length (sdu_header h c n)) = h.
Proof. by intros [-> | ->]. Qed.

(** ** Rounds *)

(** the channels that are not known to be empty *)
Definition pending_lcs (status : list bool) : nat := length (filter (fun b => b = true) status).

Lemma pending_clear status k : (pending_lcs (<[k := false]> status) <= pending_lcs status)%nat /\
  (status !! k = Some true -> (pending_lcs (<[k := false]> status) < pending_lcs status)%nat).
Proof.
  unfold pending_lcs. revert k. induction status as [|b status IH]; intros k; [done|].
  destruct k as [|k]; cbn [insert list_insert lookup list_lookup].
  - rewrite (filter_cons_False _ false) by done. destruct b; [rewrite filter_cons_True by done|rewrite filter_cons_False by done];
      cbn [length]; split; intros; [lia|lia|lia|congruence].
  - destruct (IH k) as [Ha Hb]. change (alter (const false) k status) with (<[k := false]> status) in *.
    destruct b; [rewrite !filter_cons_True by done|rewrite !filter_cons_False by done]; cbn [length]; [|by split].
    split; [by apply le_n_S|]. intros Hk. apply (proj1 (Nat.succ_lt_mono _ _)). by apply Hb.
Qed.

Lemma sublist_filter_length {A} (P : A -> Prop) `{!forall x, Decision (P x)} l l' : l `sublist_of` l' ->
  (length (filter P l) <= length (filter P l'))%nat.
Proof.
  induction 1 as [|x l l' _ IH|x l l' _ IH]; [done| |]; rewrite !filter_cons; destruct (decide (P x)); cbn; lia.
Qed.

(** a share of the room, for at most [MAX_SAME] channels of one priority *)
Definition shrinks (R R' : Z) : Prop := 3 <= R - R' /\ 3 * (R - 63) <= 64 * (R - R').

(** the most room that [k] shares leave at most three bytes of *)
Fixpoint room_bound (k : nat) : Z :=
  match k with O => 3 | S k => let r := room_bound k in Z.max (r + 3) ((64 * r - 189) / 61) end.

Lemma room_bound_step k R R' : shrinks R R' -> R <= room_bound (S k) -> R' <= room_bound k.
Proof.
  intros [H3 Hs] HR. cbn [room_bound] in HR. cbv zeta in HR. apply Z.max_le_iff in HR as [HR|HR]; [lia|].
  pose proof (Z.mul_div_le (64 * room_bound k - 189) 61 ltac:(lia)). lia.
Qed.

Definition MAX_TBS : Z := 160000.
Lemma room_bound_max : MAX_TBS <= room_bound 210.
Proof. apply Z.leb_le. by vm_compute. Qed.

(** ** One request *)

Section Lcp.
Context {St : Type} `{RlcData St} (m0 : ul_mac) (c0 : NR_UE_MAC_CE_INFO) (a : list nr_lcordered_info_t).
Context (Inv : St -> list (Z * list Z) -> Prop) `{!RlcDataLaws St (lcid <$> a) Inv}.
Context (H_m0 : ul_ok m0) (H_a : a `sublist_of` lc_ordered_list m0) (H_live : forall i, i ∈ a -> rb_suspended i = false).
Context (H_c0 : 0 <= end_for_tailer c0 <= pdu_end c0 /\ pdu_end c0 < 2147483648).
#[local] Set Default Proof Using "All".

Record lcp_ok (l : lcp St) (log : list (Z * list Z)) : Prop := {
  lo_inv : Inv (lp_rlc l) log;
  lo_subs : ul_subs log (buf (lp_ce l));
  lo_log x : x ∈ log -> fst x ∈ lcid <$> a;
  lo_rest : 0 <= rest (lp_ce l);
  lo_frame : lp_mac l = m0 <| lc_sched_info := lc_sched_info (lp_mac l) |>;
  lo_sched : length (lc_sched_info (lp_mac l)) = NR_MAX_NUM_LCID;
  lo_group c : c ∈ lcids m0 -> LCGID (sched_at (lp_mac l) c) = LCGID (sched_at m0 c);
  lo_remain c : c ∈ lcids m0 -> 0 <= remain_at (lp_mac l) c /\ remain_at (lp_mac l) c = remain_at m0 c - chan_bytes log c;
  lo_lcg : LCG_bytes l = lcg_sum (lp_mac l) (lcids m0) <$> seqZ 0 8;
  lo_tot : length (lcids_bytes_tot l) = NR_MAX_NUM_LCID;
  lo_status : length (lcids_data_status (lp_ce l)) = NR_MAX_NUM_LCID;
  lo_end : end_for_tailer (lp_ce l) = end_for_tailer c0;
  lo_pdu_end : pdu_end (lp_ce l) = pdu_end c0;
  lo_phr : phr_len (lp_ce l) = phr_len c0 /\ phr (lp_ce l) = phr c0 }.

Lemma a_lcids c : c ∈ lcid <$> a -> c ∈ lcids m0.
Proof.
  intros Hc. apply list_elem_of_fmap in Hc as (i & -> & Hi). apply list_elem_of_fmap. exists i.
  split; [done|]. by eapply elem_of_sublist.
Qed.

Lemma a_range c : c ∈ lcid <$> a -> 1 <= c <= 32.
Proof. intros Hc. by apply (uo_range m0 H_m0), a_lcids. Qed.

Lemma lo_lists l log : lcp_ok l log -> lc_ordered_list (lp_mac l) = lc_ordered_list m0.
Proof. intros I. by rewrite (lo_frame _ _ I). Qed.

Lemma remain_le l log c : lcp_ok l log -> c ∈ lcids m0 -> remain_at m0 c < 2147483648.
Proof.
  intros I Hc. pose proof (uo_total m0 H_m0) as Ht.
  assert (forall k, k ∈ lcids m0 -> remain_at m0 k <= sum_Z (remain_at m0 <$> lcids m0)) as Hk; [|specialize (Hk c Hc); lia].
  clear -H_m0. pose proof (uo_remain m0 H_m0) as Hr. revert Hr. generalize (lcids m0). unfold sum_Z.
  induction l as [|x l IH]; intros Hr k Hk; [by apply not_elem_of_nil in Hk|]. cbn.
  pose proof (Hr x ltac:(by left)). pose proof (sum_Z_nonneg (remain_at m0) l ltac:(intros y Hy; apply Hr; by right)) as Hn. unfold sum_Z in Hn.
  apply elem_of_cons in Hk as [->|Hk]; [lia|]. specialize (IH ltac:(intros y Hy; apply Hr; by right) k Hk). lia.
Qed.

Lemma suspended_ok l log c : lcp_ok l log -> c ∈ lcid <$> a -> is_lcid_suspended (lp_mac l) c = false.
Proof.
  intros I Hc. apply list_elem_of_fmap in Hc as (i & -> & Hi). unfold is_lcid_suspended, get_lc_info_from_lcid.
  rewrite (lo_lists l log I).
  pose proof (find_lc_unique m0 i (uo_nodup m0 H_m0) ltac:(by eapply elem_of_sublist)) as E.
  unfold get_lc_info_from_lcid in E. rewrite E. by apply H_live.
Qed.

(** what a channel has been given in this round *)
Definition tot_at (l : lcp St) (c : Z) : Z := default 0 (lcids_bytes_tot l !! Z.to_nat (c - 1)).

Lemma tot_get l log c : lcp_ok l log -> 1 <= c <= 32 -> arr_get (lcids_bytes_tot l) (Z.to_nat (c - 1)) = Ok (tot_at l c).
Proof.
  intros I Hc. unfold arr_get, tot_at.
  destruct (lookup_lt_is_Some_2 (lcids_bytes_tot l) (Z.to_nat (c - 1))) as [x ->]; [|done].
  rewrite (lo_tot _ _ I). unfold NR_MAX_NUM_LCID. lia.
Qed.

(** Channel [i] is being served: the group has a share for every channel that
    is still to come, and this one is below its share. *)
Record serving (l : lcp St) (i : nr_lcordered_info_t) : Prop := {
  sv_in : i ∈ a;
  sv_counter : 0 <= lcp_allocation_counter (lp_ce l) < 255;
  sv_count : 1 <= count_same_priority_lcids l <= MAX_SAME;
  sv_num : 1 <= num_lcids_same_priority l <= count_same_priority_lcids l;
  sv_ep : 0 <= buflen_ep l < 2147483648;
  sv_tot : 0 <= tot_at l (lcid i);
  sv_round0 : lcp_allocation_counter (lp_ce l) = 0 ->
    tot_at l (lcid i) <= (if 1 <? count_same_priority_lcids l then Z.min (buflen_ep l) (pbr i) else pbr i);
  sv_single : count_same_priority_lcids l = 1 -> tot_at l (lcid i) + rest (lp_ce l) < 2147483648;
  sv_share : 1 < count_same_priority_lcids l -> tot_at l (lcid i) <= buflen_ep l /\
    (buflen_ep l = 0 \/ num_lcids_same_priority l * (buflen_ep l + 3) <= rest (lp_ce l) + tot_at l (lcid i)) }.

Lemma info_of l log i : lcp_ok l log -> i ∈ a -> get_lc_info_from_lcid (lp_mac l) (lcid i) = Some i.
Proof.
  intros I Hi. unfold get_lc_info_from_lcid. rewrite (lo_lists l log I).
  apply (find_lc_unique m0 i (uo_nodup m0 H_m0)). by eapply elem_of_sublist.
Qed.

Lemma request_ok l log i hs : lcp_ok l log -> serving l i -> 3 <= rest (lp_ce l) ->
  hs = (if rest (lp_ce l) <? 256 then 2 else 3) ->
  exists req target, get_num_bytes_to_reqlc (lp_mac l) (u8 (count_same_priority_lcids l)) (lcid i) (buflen_ep l)
      (i32 (u32 (u32 (rest (lp_ce l)) - hs))) (u8 (lcp_allocation_counter (lp_ce l))) (lcids_bytes_tot l) = Ok (req, target) /\
    0 <= req <= rest (lp_ce l) - hs /\ req <= remain_at (lp_mac l) (lcid i) /\
    target = (if 1 <? count_same_priority_lcids l then Z.min (buflen_ep l) (pbr i) else pbr i) /\
    (1 < count_same_priority_lcids l -> req <= buflen_ep l - tot_at l (lcid i)) /\
    (lcp_allocation_counter (lp_ce l) = 0 -> req <= target - tot_at l (lcid i)).
Proof.
  intros I [Hi Hctr Hcnt Hnum Hep Ht H0 Hsg Hsh] Hr Hhs.
  assert (rest (lp_ce l) < 2147483648) as Hmax.
  { unfold rest. rewrite (lo_end _ _ I). destruct H_c0. lia. }
  assert (lcid i ∈ lcid <$> a) as Hc by (apply list_elem_of_fmap; by exists i).
  pose proof (uo_pbr m0 H_m0 i ltac:(by eapply elem_of_sublist)) as Hp.
  pose proof (lo_remain _ _ I (lcid i) (a_lcids _ Hc)) as Hrem.
  pose proof (remain_le l log (lcid i) I (a_lcids _ Hc)) as Hrm.
  pose proof (chan_bytes_nonneg log (lcid i)) as Hcb.
  unfold get_num_bytes_to_reqlc. rewrite (info_of l log i I Hi), (get_sched_ok _ (lo_sched _ _ I)) by by apply a_range.
  cbn [res_bind]. rewrite (tot_get l log) by (try done; by apply a_range). cbn [res_bind].
  fold (remain_at (lp_mac l) (lcid i)).
  assert (Hu8 : u8 (count_same_priority_lcids l) = count_same_priority_lcids l)
    by (unfold u8, MAX_SAME in *; apply Z.mod_small; lia).
  assert (Hu8' : u8 (lcp_allocation_counter (lp_ce l)) = lcp_allocation_counter (lp_ce l)) by (apply Z.mod_small; lia).
  assert (Hu32 : forall x, 0 <= x < 2147483648 -> u32 x = x) by (intros x Hx; apply Z.mod_small; lia).
  assert (2 <= hs <= 3) as Hhs' by (subst hs; destruct (_ <? 256); lia).
  rewrite Hu8, Hu8', (Hu32 (rest (lp_ce l))), (Hu32 (rest (lp_ce l) - hs)), (Hu32 (remain_at _ _)) by lia.
  rewrite i32_id by lia. rewrite (Hu32 (rest (lp_ce l) - hs)) by lia. clear Hhs.
  set (R := rest (lp_ce l)) in *. set (t := tot_at l (lcid i)) in *. set (ep := buflen_ep l) in *.
  set (rem := remain_at (lp_mac l) (lcid i)) in *. set (cnt := count_same_priority_lcids l) in *.
  assert (1 < cnt -> ep - t <= R - hs) as Hfit.
  { intros Hg. destruct (Hsh Hg) as [? [?|Hs]]; [lia|]. nia. }
  destruct (Z.eqb_spec (lcp_allocation_counter (lp_ce l)) 0) as [E0|E0]; destruct (Z.ltb_spec 1 cnt) as [Hg|Hg];
    cbv zeta in *.
  - specialize (H0 E0). specialize (Hfit Hg). destruct (Hsh Hg).
    match goal with |- context [Z.min (if ?b then ?x else ?y) ?z] => set (req := Z.min (if b then x else y) z) in * end.
    assert (0 <= req <= Z.min ep (pbr i) - t /\ req <= rem) by (unfold req; match goal with |- context [if ?b then _ else _] => destruct b eqn:? end; lia).
    rewrite (proj2 (Z.leb_le 0 (Z.min ep (pbr i) - t))), (proj2 (Z.leb_le req (R - hs))) by lia. cbn [andb negb].
    eexists _, _. split; [done|]. repeat split; intros; lia.
  - specialize (H0 E0).
    match goal with |- context [Z.min (if ?b then ?x else ?y) ?z] => set (req := Z.min (if b then x else y) z) in * end.
    assert (0 <= req <= pbr i - t /\ req <= rem /\ req <= R - hs) by (unfold req; match goal with |- context [if ?b then _ else _] => destruct b eqn:? end; lia).
    rewrite (proj2 (Z.leb_le 0 (pbr i - t))), (proj2 (Z.leb_le req (R - hs))) by lia. cbn [andb negb].
    eexists _, _. split; [done|]. repeat split; intros; lia.
  - specialize (Hfit Hg). destruct (Hsh Hg). rewrite (Hu32 (ep - t)) by lia.
    match goal with |- context [Z.min (Z.min ep rem) ?z] => set (req := Z.min (Z.min ep rem) z) in * end.
    assert (0 <= req <= ep - t /\ req <= rem) by (unfold req; lia).
    rewrite (proj2 (Z.leb_le 0 (ep - t))), (proj2 (Z.leb_le req (R - hs))) by lia. cbn [andb negb].
    eexists _, _. split; [done|]. repeat split; intros; lia.
  - rewrite (proj2 (Z.leb_le 0 0)), (proj2 (Z.leb_le (Z.min (R - hs) rem) (R - hs))) by lia. cbn [andb negb].
    eexists _, _. split; [done|]. repeat split; intros; lia.
Qed.

(** the variables of a round that one request leaves alone *)
Definition same_group (l l' : lcp St) : Prop :=
  lcp_allocation_counter (lp_ce l') = lcp_allocation_counter (lp_ce l) /\
  count_same_priority_lcids l' = count_same_priority_lcids l /\ buflen_ep l' = buflen_ep l.

Definition share (l : lcp St) (i : nr_lcordered_info_t) : Z :=
  if 1 <? count_same_priority_lcids l then Z.min (buflen_ep l) (pbr i) else pbr i.

(** a channel that got nothing *)
Lemma nothing_ok l log i s b : lcp_ok l log -> serving l i -> Inv s log ->
  let c := lcid i in
  exists m d, set_scheduling_info (lp_mac l) c (sched_at (lp_mac l) c <| Bj := b |>) = Ok m /\
    arr_set (lcids_data_status (lp_ce l)) (Z.to_nat (c - 1)) false = Ok d /\
    d = <[Z.to_nat (c - 1) := false]> (lcids_data_status (lp_ce l)) /\
    let l' := l <| lp_rlc := s |> <| lp_mac := m |> in
    let l' := l' <| lp_ce := lp_ce l <| lcids_data_status := d |> |>
                 <| num_lcids_same_priority := u32 (num_lcids_same_priority l' - 1) |> in
    lcp_ok l' log /\ num_lcids_same_priority l' = num_lcids_same_priority l - 1.
Proof.
  intros I [Hi Hctr Hcnt Hnum Hep Ht H0 Hsg Hsh] Hs c.
  assert (1 <= c <= 32) as Hc by (apply a_range, list_elem_of_fmap; by exists i).
  destruct (set_sched_ok (lp_mac l) (lo_sched _ _ I) c (sched_at (lp_mac l) c <| Bj := b |>) Hc) as (m & -> & Em & Hlm & Hat).
  assert (forall d, 1 <= d <= 32 -> LCGID (sched_at m d) = LCGID (sched_at (lp_mac l) d) /\ remain_at m d = remain_at (lp_mac l) d) as Hsame.
  { intros d Hd. unfold remain_at. rewrite !Hat by done. by destruct (Z.eqb_spec d c) as [->|]. }
  eexists _, _. split; [done|]. unfold arr_set. rewrite (lo_status _ _ I).
  destruct (Nat.ltb_spec (Z.to_nat (c - 1)) NR_MAX_NUM_LCID) as [_|Hx]; [|unfold NR_MAX_NUM_LCID in Hx; lia].
  split; [done|]. split; [done|]. cbv zeta. split; [|cbn; unfold u32, MAX_SAME in *; rewrite Z.mod_small; lia].
  destruct I; split; cbn; try done.
  - rewrite Em. exact (ul_frame_set _ _ _ _ lo_frame0).
  - intros d Hd. rewrite (proj1 (Hsame d (uo_range m0 H_m0 d Hd))). auto.
  - intros d Hd. rewrite (proj2 (Hsame d (uo_range m0 H_m0 d Hd))). auto.
  - rewrite lo_lcg0. apply list_fmap_ext. intros k g Hg. unfold lcg_sum. apply sum_Z_ext. intros d Hd.
    destruct (Hsame d (uo_range m0 H_m0 d Hd)) as [-> ->]. done.
  - by rewrite length_insert.
Qed.

Definition stops (l : lcp St) (target t : Z) : bool :=
  ((lcp_allocation_counter (lp_ce l) =? 0) && (target <=? t)) || ((1 <? count_same_priority_lcids l) && (buflen_ep l <=? t)).

(** the MAC after [n] bytes of channel [c] *)
Definition served_mac (m m2 : ul_mac) (c n : Z) : Prop :=
  m2 = m <| lc_sched_info := lc_sched_info m2 |> /\ length (lc_sched_info m2) = NR_MAX_NUM_LCID /\
  forall d, d ∈ lcids m0 -> LCGID (sched_at m2 d) = LCGID (sched_at m d) /\
    remain_at m2 d = remain_at m d - (if d =? c then n else 0).

Lemma served_groups l log c n m2 : lcp_ok l log -> c ∈ lcids m0 -> 0 <= n <= remain_at (lp_mac l) c ->
  served_mac (lp_mac l) m2 c n ->
  let g := LCGID (sched_at m0 c) in
  <[Z.to_nat g := u32 (lcg_sum (lp_mac l) (lcids m0) g - n)]> (LCG_bytes l) = lcg_sum m2 (lcids m0) <$> seqZ 0 8.
Proof.
  intros I Hcm Hn (_ & _ & Hd) g. pose proof (uo_group m0 H_m0 c Hcm) as Hg. pose proof (lo_group _ _ I c Hcm) as Hgc.
  fold g in Hg, Hgc.
  assert (Hch : forall k, lcg_sum m2 (lcids m0) k = lcg_sum (lp_mac l) (lcids m0) k - (if g =? k then n else 0)).
  { intros k. rewrite <- Hgc. apply lcg_sum_change; [apply (uo_nodup m0 H_m0)|done| |]; intros d Hdm; by apply Hd. }
  rewrite (lo_lcg _ _ I). apply fmap_seqZ_insert; [lia| |].
  - pose proof (Hch g) as E. rewrite Z.eqb_refl in E. rewrite E. unfold u32. rewrite Z.mod_small; [done|]. rewrite <- E.
    assert (forall d, d ∈ lcids m0 -> 0 <= remain_at m2 d <= remain_at m0 d) as Hr.
    { intros d Hdm. rewrite (proj2 (Hd d Hdm)). pose proof (lo_remain _ _ I d Hdm). pose proof (chan_bytes_nonneg log d).
      destruct (Z.eqb_spec d c) as [->|]; lia. }
    pose proof (lcg_sum_le m2 (lcids m0) g ltac:(intros d Hdm; apply Hr; done)).
    pose proof (sum_Z_le (remain_at m2) (remain_at m0) (lcids m0) ltac:(intros d Hdm; apply Hr; done)).
    pose proof (uo_total m0 H_m0). lia.
  - intros k Hk. rewrite Hch. destruct (Z.eqb_spec g k); [by subst|lia].
Qed.

(** the block with one more SDU *)
Definition with_sdu (ce : NR_UE_MAC_CE_INFO) (hs c : Z) (sdu : list Z) : NR_UE_MAC_CE_INFO :=
  ce <| num_sdus := u32 (num_sdus ce + 1) |> <| buf := buf ce ++ sdu_header hs c (Z.of_nat (length sdu)) ++ sdu |>.

Lemma with_sdu_rest ce hs c sdu : hs = 2 \/ hs = 3 -> rest (with_sdu ce hs c sdu) = rest ce - (hs + Z.of_nat (length sdu)).
Proof. intros Hh. unfold rest, with_sdu. cbn. rewrite !length_app, !Nat2Z.inj_add, sdu_header_length by done. lia. Qed.

Lemma served_inv l log c s m2 sdu hs t' num : lcp_ok l log -> c ∈ lcid <$> a -> Inv s (log ++ [(c, sdu)]) -> sdu <> [] ->
  (hs = 2 /\ Z.of_nat (length sdu) < 256) \/ (hs = 3 /\ Z.of_nat (length sdu) < 65536) ->
  hs + Z.of_nat (length sdu) <= rest (lp_ce l) -> Z.of_nat (length sdu) <= remain_at (lp_mac l) c ->
  served_mac (lp_mac l) m2 c (Z.of_nat (length sdu)) ->
  lcp_ok (mk_lcp m2 s (with_sdu (lp_ce l) hs c sdu) (lcg_sum m2 (lcids m0) <$> seqZ 0 8)
    (<[Z.to_nat (c - 1) := t']> (lcids_bytes_tot l)) num (count_same_priority_lcids l) (buflen_ep l)) (log ++ [(c, sdu)]).
Proof.
  intros I Hca Hs Hne Hh Hfit Hrem (Em & Hlm & Hd). pose proof (a_range _ Hca) as Hc.
  pose proof (with_sdu_rest (lp_ce l) hs c sdu ltac:(destruct Hh as [[-> _]|[-> _]]; auto)) as Hrest.
  destruct I. split; try done.
  - by constructor.
  - intros x Hx. apply elem_of_app in Hx as [Hx|Hx%list_elem_of_singleton]; [auto|]. by subst x.
  - cbn [lp_ce]. rewrite Hrest. lia.
  - cbn [lp_mac]. rewrite Em. exact (ul_frame_set _ _ _ _ lo_frame0).
  - intros d Hdm. cbn [lp_mac]. rewrite (proj1 (Hd d Hdm)). auto.
  - intros d Hdm. cbn [lp_mac]. rewrite (proj2 (Hd d Hdm)), chan_bytes_snoc. destruct (lo_remain0 d Hdm).
    rewrite (Z.eqb_sym c d). destruct (Z.eqb_spec d c) as [->|]; lia.
  - cbn. by rewrite length_insert.
Qed.

(** the two assignments to the scheduling information *)
Lemma serve_mac l log c n b : lcp_ok l log -> c ∈ lcids m0 -> exists m m2,
  set_scheduling_info (lp_mac l) c (sched_at (lp_mac l) c <| Bj := b |>) = Ok m /\
  get_scheduling_info_from_lcid m c = Ok (sched_at m c) /\ LCGID (sched_at m c) = LCGID (sched_at m0 c) /\
  set_scheduling_info m c (sched_at m c <| LCID_buffer_remain := LCID_buffer_remain (sched_at m c) - n |>) = Ok m2 /\
  served_mac (lp_mac l) m2 c n.
Proof.
  intros I Hcm. pose proof (uo_range m0 H_m0 c Hcm) as Hc.
  destruct (set_sched_ok (lp_mac l) (lo_sched _ _ I) c (sched_at (lp_mac l) c <| Bj := b |>) Hc) as (m & E1 & Em & Hlm & Hat).
  assert (sched_at m c = sched_at (lp_mac l) c <| Bj := b |>) as Hatc by (rewrite Hat, Z.eqb_refl by done; done).
  destruct (set_sched_ok m Hlm c (sched_at m c <| LCID_buffer_remain := LCID_buffer_remain (sched_at m c) - n |>) Hc)
    as (m2 & E2 & Em2 & Hlm2 & Hat2).
  exists m, m2. split; [done|]. split; [by apply get_sched_ok|].
  split; [rewrite Hatc; exact (lo_group _ _ I c Hcm)|]. split; [done|]. split; [rewrite Em2, Em; by destruct (lp_mac l)|].
  split; [done|]. intros d Hdm. pose proof (uo_range m0 H_m0 d Hdm) as Hdr. unfold remain_at. rewrite Hat2, Hatc by done.
  destruct (Z.eqb_spec d c) as [->|Hdc]; [done|]. rewrite Hat by done. destruct (Z.eqb_spec d c); [done|]. split; [done|lia].
Qed.

(** an SDU of a channel *)
Lemma served_ok l log i s b hs sdu : lcp_ok l log -> serving l i -> Inv s (log ++ [(lcid i, sdu)]) -> sdu <> [] ->
  (hs = 2 /\ Z.of_nat (length sdu) < 256) \/ (hs = 3 /\ Z.of_nat (length sdu) < 65536) ->
  hs + Z.of_nat (length sdu) <= rest (lp_ce l) -> Z.of_nat (length sdu) <= remain_at (lp_mac l) (lcid i) ->
  let t' := tot_at l (lcid i) + (Z.of_nat (length sdu) + (if 1 <? count_same_priority_lcids l then 1 else 0) * 3) in
  exists m l' more, set_scheduling_info (lp_mac l) (lcid i) (sched_at (lp_mac l) (lcid i) <| Bj := b |>) = Ok m /\
    mac_sdu_served (l <| lp_rlc := s |> <| lp_mac := m |>) (lcid i) hs (share l i) sdu = Ok (l', more) /\
    lcp_ok l' (log ++ [(lcid i, sdu)]) /\ same_group l l' /\ lcids_data_status (lp_ce l') = lcids_data_status (lp_ce l) /\
    rest (lp_ce l') = rest (lp_ce l) - (hs + Z.of_nat (length sdu)) /\
    lcids_bytes_tot l' = <[Z.to_nat (lcid i - 1) := t']> (lcids_bytes_tot l) /\
    more = negb (stops l (share l i) t') /\
    num_lcids_same_priority l' = (if more then num_lcids_same_priority l else num_lcids_same_priority l - 1).
Proof.
  intros I [Hi Hctr Hcnt Hnum Hep Ht H0 Hsg Hsh] Hs Hne Hh Hfit Hrem t'. set (c := lcid i) in *.
  assert (c ∈ lcid <$> a) as Hca by (apply list_elem_of_fmap; by exists i).
  pose proof (a_range _ Hca) as Hc. pose proof (a_lcids _ Hca) as Hcm.
  destruct (serve_mac l log c (Z.of_nat (length sdu)) b I Hcm) as (m & m2 & E1 & Eg & Hgm & E2 & SM).
  pose proof (served_groups l log c (Z.of_nat (length sdu)) m2 I Hcm ltac:(lia) SM) as Hlcg. cbv zeta in Hlcg.
  pose proof (uo_group m0 H_m0 c Hcm) as Hg.
  assert (rest (lp_ce l) < 2147483648) as Hmax.
  { unfold rest. rewrite (lo_end _ _ I). destruct H_c0. lia. }
  assert (0 <= t' < 4294967296) as Ht'.
  { unfold t'. destruct (Z.ltb_spec 1 (count_same_priority_lcids l)) as [Hx|Hx]; [destruct (Hsh Hx); lia|].
    specialize (Hsg ltac:(lia)). lia. }
  pose proof (fun num => served_inv l log c s m2 sdu hs t' num I Hca Hs Hne Hh Hfit Hrem SM) as Hok.
  pose proof (with_sdu_rest (lp_ce l) hs c sdu ltac:(destruct Hh as [[-> _]|[-> _]]; auto)) as Hrest.
  exists m. set (l1 := l <| lp_rlc := s |> <| lp_mac := m |>).
  assert (l1 = mk_lcp m s (lp_ce l) (LCG_bytes l) (lcids_bytes_tot l) (num_lcids_same_priority l)
    (count_same_priority_lcids l) (buflen_ep l)) as El1 by reflexivity. clearbody l1. subst l1.
  unfold mac_sdu_served. cbn [lp_mac lp_rlc lp_ce LCG_bytes lcids_bytes_tot num_lcids_same_priority count_same_priority_lcids buflen_ep].
  rewrite Eg. cbn [res_bind]. rewrite E2. cbn [res_bind]. rewrite Hgm.
  destruct (Z.ltb_spec (LCGID (sched_at m0 c)) 0); [lia|].
  assert (arr_get (LCG_bytes l) (Z.to_nat (LCGID (sched_at m0 c))) = Ok (lcg_sum (lp_mac l) (lcids m0) (LCGID (sched_at m0 c)))) as ->.
  { unfold arr_get. rewrite (lo_lcg _ _ I), list_lookup_fmap, lookup_seqZ_lt by lia. cbn. do 2 f_equal. lia. }
  assert (length (LCG_bytes l) = 8%nat) as Hl8 by by rewrite (lo_lcg _ _ I).
  cbn [res_bind]. unfold arr_set. rewrite Hl8.
  destruct (Nat.ltb_spec (Z.to_nat (LCGID (sched_at m0 c))) 8) as [_|Hx]; [|lia]. cbn [res_bind]. rewrite Hlcg.
  rewrite buffer_index_ok by done. cbn [res_bind]. rewrite (tot_get l log c I Hc). cbn [res_bind]. fold t'.
  assert (u32 t' = t') as -> by (unfold u32; by apply Z.mod_small).
  rewrite (lo_tot _ _ I).
  destruct (Nat.ltb_spec (Z.to_nat (c - 1)) NR_MAX_NUM_LCID) as [_|Hx]; [|unfold NR_MAX_NUM_LCID in Hx; lia]. cbn [res_bind].
  match goal with |- context [if ?b then Ok (_, false) else Ok (_, true)] => change b with (stops l (share l i) t') end.
  destruct (stops l (share l i) t'); eexists _, _; (split; [exact E1|]); (split; [reflexivity|]); (split; [apply Hok|]);
    (split; [done|]); (split; [done|]); (split; [exact Hrest|]); (split; [done|]); (split; [done|]); cbn;
    [|done]. unfold u32, MAX_SAME in *. rewrite Z.mod_small; lia.
Qed.

(** how a call of [fill_mac_sdu] ends: no room, no data, or an SDU *)
Inductive fill_end (l : lcp St) (i : nr_lcordered_info_t) (l' : lcp St) : bool -> Prop :=
  | fe_full : rest (lp_ce l) < 3 -> l' = l -> fill_end l i l' false
  | fe_nothing : 3 <= rest (lp_ce l) -> rest (lp_ce l') = rest (lp_ce l) ->
      lcids_data_status (lp_ce l') = <[Z.to_nat (lcid i - 1) := false]> (lcids_data_status (lp_ce l)) ->
      lcids_bytes_tot l' = lcids_bytes_tot l -> num_lcids_same_priority l' = num_lcids_same_priority l - 1 ->
      fill_end l i l' false
  | fe_sdu used t' more : 3 <= used -> rest (lp_ce l') = rest (lp_ce l) - used ->
      lcids_data_status (lp_ce l') = lcids_data_status (lp_ce l) ->
      lcids_bytes_tot l' = <[Z.to_nat (lcid i - 1) := t']> (lcids_bytes_tot l) -> tot_at l (lcid i) < t' ->
      (1 < count_same_priority_lcids l -> used <= t' - tot_at l (lcid i) /\ 3 * (t' - tot_at l (lcid i)) <= 4 * used /\
        t' <= buflen_ep l + 3 /\ 0 < buflen_ep l) ->
      (count_same_priority_lcids l = 1 -> t' - tot_at l (lcid i) <= used) ->
      (count_same_priority_lcids l = 1 -> lcp_allocation_counter (lp_ce l) = 0 -> t' <= pbr i) ->
      more = negb (stops l (share l i) t') ->
      num_lcids_same_priority l' = (if more then num_lcids_same_priority l else num_lcids_same_priority l - 1) ->
      fill_end l i l' more.

Lemma ul_fill_ok l log i : lcp_ok l log -> serving l i ->
  exists l' more log', fill_mac_sdu l (lcid i) = Ok (l', more) /\ lcp_ok l' log' /\ same_group l l' /\ fill_end l i l' more.
Proof.
  intros I SV. pose proof (sv_in _ _ SV) as Hi.
  assert (lcid i ∈ lcid <$> a) as Hca by (apply list_elem_of_fmap; by exists i).
  pose proof (a_range _ Hca) as Hc. pose proof (lo_rest _ _ I) as Hr0.
  assert (rest (lp_ce l) < 2147483648) as Hmax.
  { unfold rest. rewrite (lo_end _ _ I). destruct H_c0. lia. }
  unfold fill_mac_sdu. rewrite (get_sched_ok _ (lo_sched _ _ I)) by done. cbn [res_bind].
  rewrite (suspended_ok l log) by done. unfold u64. rewrite Z.mod_small by lia.
  destruct (Z.ltb_spec (rest (lp_ce l)) 3) as [Hf|Hf].
  { exists l, false, log. split_and!; try done. by apply fe_full. }
  assert (u32 (rest (lp_ce l)) = rest (lp_ce l)) as Hu by (unfold u32; apply Z.mod_small; lia). rewrite Hu.
  set (hs := if rest (lp_ce l) <? 256 then 2 else 3).
  destruct (request_ok l log i hs I SV Hf eq_refl) as (req & target & E & Hreq & Hrem & Ht & Hgrp & Hz).
  rewrite Hu in E. rewrite E. cbn [res_bind]. clear E. fold (share l i) in Ht. subst target.
  destruct (rlc_data_ok (lp_rlc l) log (lcid i) req (lo_inv _ _ I) Hca ltac:(lia)) as (s & sdu & -> & Hlen & H64 & Hinv).
  cbn [res_bind].
  set (hs' := if req <? 256 then 2 else 3).
  assert (hs' = 2 /\ Z.of_nat (length sdu) < 256 \/ hs' = 3 /\ Z.of_nat (length sdu) < 65536) as Hh.
  { unfold hs'. destruct (Z.ltb_spec req 256); [left|right]; lia. }
  assert (hs' + req <= rest (lp_ce l)) as Hfit.
  { unfold hs', hs in *. destruct (Z.ltb_spec req 256), (Z.ltb_spec (rest (lp_ce l)) 256); lia. }
  destruct (Z.ltb_spec (pdu_end (lp_ce l)) (Z.of_nat (length (buf (lp_ce l))) + hs' + Z.of_nat (length sdu))) as [Hx|_].
  { unfold rest in Hfit. rewrite (lo_end _ _ I) in Hfit. rewrite (lo_pdu_end _ _ I) in Hx. destruct H_c0. lia. }
  rewrite (proj2 (Z.leb_le _ _) Hlen). cbn [negb]. cbn [res_bind].
  destruct (Z.ltb_spec 0 (Z.of_nat (length sdu))) as [Hpos|Hzero].
  - assert (sdu <> []) as Hne by (intros ->; cbn in Hpos; lia).
    assert (log_sdu log (lcid i) sdu = log ++ [(lcid i, sdu)]) as El by by destruct sdu. rewrite El in Hinv.
    destruct (served_ok l log i s (i32 (Bj (sched_at (lp_mac l) (lcid i)) - Z.of_nat (length sdu))) hs' sdu I SV Hinv Hne Hh
      ltac:(lia) ltac:(lia)) as (m & l' & more & -> & E & I' & G & Hst & Hrest & Htot & Hmore & Hnum).
    cbn [res_bind]. rewrite buffer_index_ok by done. cbn [res_bind]. rewrite E.
    exists l', more, (log ++ [(lcid i, sdu)]). split_and!; try done.
    assert (2 <= hs' <= 3) by (unfold hs'; destruct (req <? 256); lia). pose proof (sv_tot _ _ SV) as Ht0.
    eapply fe_sdu; [|exact Hrest|done|exact Htot| | | | |exact Hmore|exact Hnum]; [lia| | | |].
    + destruct (1 <? count_same_priority_lcids l); lia.
    + intros Hg. rewrite (proj2 (Z.ltb_lt 1 _) Hg). specialize (Hgrp Hg). lia.
    + intros ->. cbn. lia.
    + intros Hg Hz0. specialize (Hz Hz0). unfold share in Hz. rewrite Hg in *. cbn in *. lia.
  - assert (sdu = []) as -> by (destruct sdu; [done|cbn in Hzero; lia]). cbn [log_sdu] in Hinv.
    destruct (nothing_ok l log i s (i32 (Bj (sched_at (lp_mac l) (lcid i)) - Z.of_nat (length (@nil Z)))) I SV Hinv)
      as (m & d & -> & Ed & Edd & I' & Hn').
    cbn [res_bind]. rewrite buffer_index_ok by done. cbn [res_bind].
    change (lp_ce (l <| lp_rlc := s |> <| lp_mac := m |>)) with (lp_ce l). rewrite Ed. cbn [res_bind].
    eexists _, false, log. split; [reflexivity|]. split; [exact I'|]. split; [done|].
    apply fe_nothing; [done|done|by subst d|done|exact Hn'].
Qed.

(** after an SDU that does not end the channel it is served on *)
Lemma serving_next l log i l' : lcp_ok l log -> serving l i -> fill_end l i l' true -> same_group l l' -> serving l' i.
Proof.
  intros I SV F (Gc & Gn & Ge). inversion F as [| |used t' more Hu Hr Hs Ht Htt Hg H1 Hp Hmore Hn]; subst more.
  destruct SV as [Hi Hctr Hcnt Hnum Hep Ht0 H0 Hsg Hsh].
  assert (lcid i ∈ lcid <$> a) as Hca by (apply list_elem_of_fmap; by exists i). pose proof (a_range _ Hca) as Hc.
  assert (tot_at l' (lcid i) = t') as Et.
  { unfold tot_at. rewrite Ht, list_lookup_insert_eq; [done|]. rewrite (lo_tot _ _ I). unfold NR_MAX_NUM_LCID. lia. }
  symmetry in Hmore. apply negb_true_iff in Hmore. unfold stops in Hmore. apply orb_false_elim in Hmore as [Hm1 Hm2].
  split; rewrite ?Gc, ?Gn, ?Ge, ?Et, ?Hn, ?Hr; try done.
  - lia.
  - intros E0. rewrite E0 in Hm1. cbn in Hm1. fold (share l i). lia.
  - intros E1. specialize (H1 E1). specialize (Hsg E1). lia.
  - intros Hg1. rewrite (proj2 (Z.ltb_lt 1 _) Hg1) in Hm2. cbn in Hm2. destruct (Hg Hg1) as (? & ? & ? & ?).
    destruct (Hsh Hg1) as [? [?|?]]; lia.
Qed.

(** ** One channel *)

(** the group after a channel: a share for each channel still to come *)
Definition group_left (l : lcp St) : Prop :=
  1 < count_same_priority_lcids l -> buflen_ep l = 0 \/ num_lcids_same_priority l * (buflen_ep l + 3) <= rest (lp_ce l).

(** what a channel does to the variables of the round; [R0] is the room at its
    start *)
Record channel_done (R0 : Z) (l : lcp St) (i : nr_lcordered_info_t) (l' : lcp St) : Prop := {
  cd_group : same_group l l';
  cd_rest : rest (lp_ce l') <= rest (lp_ce l);
  cd_tot d : 1 <= d <= 32 -> d <> lcid i -> tot_at l' d = tot_at l d;
  cd_status : lcids_data_status (lp_ce l') = lcids_data_status (lp_ce l) \/
    lcids_data_status (lp_ce l') = <[Z.to_nat (lcid i - 1) := false]> (lcids_data_status (lp_ce l));
  cd_num : 0 <= num_lcids_same_priority l' <= num_lcids_same_priority l;
  cd_left : group_left l';
  cd_progress : lcids_data_status (lp_ce l') = <[Z.to_nat (lcid i - 1) := false]> (lcids_data_status (lp_ce l)) \/
    rest (lp_ce l') < 3 \/ lcp_allocation_counter (lp_ce l) = 0 \/
    (1 < count_same_priority_lcids l /\ 0 < buflen_ep l /\ 3 * buflen_ep l <= 4 * (R0 - rest (lp_ce l')) /\ 3 <= R0 - rest (lp_ce l')) }.

Lemma tot_insert l log c t d : lcp_ok l log -> 1 <= c <= 32 -> 1 <= d <= 32 -> d <> c -> forall l',
  lcids_bytes_tot l' = <[Z.to_nat (c - 1) := t]> (lcids_bytes_tot l) -> tot_at l' d = tot_at l d.
Proof. intros I Hc Hd Hn l' E. unfold tot_at. rewrite E, list_lookup_insert_ne; [done|lia]. Qed.

Lemma no_room l log i : lcp_ok l log -> serving l i -> rest (lp_ce l) < 3 -> group_left l.
Proof. intros I [_ _ _ Hnum Hep _ _ _ Hsh] Hr Hg. destruct (Hsh Hg) as [Ht [?|?]]; [by left|nia]. Qed.

(** the last call for the channel *)
Lemma channel_last R0 l log i l' : lcp_ok l log -> serving l i -> same_group l l' -> fill_end l i l' false ->
  rest (lp_ce l) <= R0 -> (1 < count_same_priority_lcids l -> 3 * tot_at l (lcid i) <= 4 * (R0 - rest (lp_ce l))) ->
  channel_done R0 l i l'.
Proof.
  intros I SV G F HR HR3. pose proof G as (Gc & Gn & Ge).
  assert (1 <= lcid i <= 32) as Hc by (apply a_range, list_elem_of_fmap; exists i; split; [done|apply SV]).
  pose proof SV as [_ _ _ Hnum Hep Ht0 _ _ Hsh].
  inversion F as [Hf El|Hf Hr Hs Ht Hn|used t' more Hu Hr Hs Ht Htt Hg H1 Hp Hmore Hn].
  - subst l'. split; [done|lia|done|by left|lia|by eapply no_room|by right; left].
  - split; [done|lia| |by right|lia| |by left].
    + intros d _ _. unfold tot_at. by rewrite Ht.
    + intros Hgt. rewrite Gn in Hgt. rewrite Ge, Hn, Hr. destruct (Hsh Hgt) as [? [?|?]]; [by left|right; nia].
  - subst more. split; [done|lia| |by left|lia| |].
    + intros d Hd Hne. exact (tot_insert l log (lcid i) t' d I Hc Hd Hne l' Ht).
    + intros Hgt. rewrite Gn in Hgt. rewrite Ge, Hn, Hr. destruct (Hg Hgt) as (? & ? & ? & ?).
      destruct (Hsh Hgt) as [? [?|?]]; [by left|right; nia].
    + symmetry in Hmore. apply negb_false_iff in Hmore. unfold stops in Hmore. apply orb_true_iff in Hmore as [Hm|Hm].
      * right. right. left. lia.
      * right. right. right. apply andb_true_iff in Hm as [Hgt Hm]. destruct (Hg ltac:(lia)) as (? & ? & ? & ?).
        specialize (HR3 ltac:(lia)). lia.
Qed.

Lemma channel_more R0 l log i l1 l' : lcp_ok l log -> serving l i -> same_group l l1 -> fill_end l i l1 true ->
  channel_done R0 l1 i l' -> channel_done R0 l i l'.
Proof.
  intros I SV (Gc & Gn & Ge) F [(Dc & Dn & De) Dr Dt Ds Dnum Dl Dp].
  assert (1 <= lcid i <= 32) as Hc by (apply a_range, list_elem_of_fmap; exists i; split; [done|apply SV]).
  inversion F as [| |used t' more Hu Hr Hs Ht Htt Hg H1 Hp Hmore Hn]. subst more. rewrite Hs in *. rewrite Gc, Gn, Ge in *.
  split; try done.
  - lia.
  - intros d Hd Hne. rewrite Dt by done. exact (tot_insert l log (lcid i) t' d I Hc Hd Hne l1 Ht).
  - lia.
Qed.

Lemma fill_all fuel : forall l log i R0, lcp_ok l log -> serving l i -> rest (lp_ce l) < Z.of_nat fuel ->
  rest (lp_ce l) <= R0 -> (1 < count_same_priority_lcids l -> 3 * tot_at l (lcid i) <= 4 * (R0 - rest (lp_ce l))) ->
  exists l' log', fill_mac_sdus fuel l (lcid i) = Ok l' /\ lcp_ok l' log' /\ channel_done R0 l i l'.
Proof.
  induction fuel as [|fuel IH]; intros l log i R0 I SV Hf HR HR3; [pose proof (lo_rest _ _ I); lia|]. cbn [fill_mac_sdus].
  destruct (Z.ltb_spec 0 (rest (lp_ce l))) as [Hpos|Hz].
  2: { exists l, log. split; [done|]. split; [done|]. apply (channel_last R0 l log); try done. apply fe_full; [lia|done]. }
  destruct (ul_fill_ok l log i I SV) as (l1 & more & log1 & -> & I1 & G & F). cbn [res_bind].
  destruct more.
  - pose proof (serving_next l log i l1 I SV F G) as SV1.
    destruct (IH l1 log1 i R0 I1 SV1) as (l' & log' & -> & I' & D).
    + inversion F. lia.
    + inversion F. lia.
    + inversion F as [| |used t' more Hu Hr Hs Ht Htt Hg H1 Hp Hmore Hn]; subst more. destruct G as (_ & -> & _). intros Hgt.
      assert (tot_at l1 (lcid i) = t') as ->.
      { unfold tot_at. rewrite Ht, list_lookup_insert_eq; [done|]. rewrite (lo_tot _ _ I).
        pose proof (a_range (lcid i) ltac:(apply list_elem_of_fmap; exists i; split; [done|apply SV])). unfold NR_MAX_NUM_LCID. lia. }
      destruct (Hg Hgt) as (? & ? & ? & ?). specialize (HR3 Hgt). lia.
    + exists l', log'. split; [done|]. split; [done|]. by eapply channel_more.
  - exists l1, log1. split; [done|]. split; [done|]. by eapply channel_last.
Qed.

(** ** The pass over the channels *)

Record group_ok (l : lcp St) : Prop := {
  gr_counter : 0 <= lcp_allocation_counter (lp_ce l) < 255;
  gr_num : num_lcids_same_priority l = 0 \/
    (1 <= num_lcids_same_priority l <= count_same_priority_lcids l /\ count_same_priority_lcids l <= MAX_SAME /\
     0 <= buflen_ep l < 2147483648);
  gr_left : group_left l }.

Lemma same_count id i : a !! id = Some i -> exists n, get_count_lcids_same_priority id a = Ok n /\ 1 <= n <= MAX_SAME.
Proof.
  intros Hi. unfold get_count_lcids_same_priority, arr_get. rewrite Hi. cbn [of_option res_bind]. eexists. split; [done|].
  assert (i ∈ lc_ordered_list m0) as Him by (eapply elem_of_sublist; [by eapply list_elem_of_lookup_2|done]).
  pose proof (uo_same m0 H_m0 i Him) as Hs.
  assert (drop id a `sublist_of` lc_ordered_list m0) as Hd.
  { transitivity a; [|done]. rewrite <- (take_drop id a) at 2. by apply sublist_inserts_l. }
  pose proof (sublist_filter_length (fun j => priority j = priority i) _ _ Hd) as Hl.
  rewrite (drop_S _ _ _ Hi), filter_cons_True in * by done. cbn [length] in *. unfold u8, MAX_SAME in *.
  rewrite Z.mod_small; lia.
Qed.

(** the group counters do not matter to the rest *)
Lemma lcp_ok_group l log n c e : lcp_ok l log ->
  lcp_ok (mk_lcp (lp_mac l) (lp_rlc l) (lp_ce l) (LCG_bytes l) (lcids_bytes_tot l) n c e) log.
Proof. intros []. by split. Qed.

Definition fresh_ep (R c : Z) : Z := if R <? c * 3 then 0 else (R - c * 3) / c.

Lemma fresh_share R c : 0 <= R < 2147483648 -> 1 <= c -> 0 <= fresh_ep R c < 2147483648 /\
  (fresh_ep R c = 0 \/ c * (fresh_ep R c + 3) <= R).
Proof.
  intros HR Hc. unfold fresh_ep. destruct (Z.ltb_spec R (c * 3)); [lia|].
  pose proof (Z.mul_div_le (R - c * 3) c ltac:(lia)). pose proof (Z.div_pos (R - c * 3) c ltac:(lia) ltac:(lia)).
  assert ((R - c * 3) / c <= R - c * 3) by (apply Z.div_le_upper_bound; nia). lia.
Qed.

Lemma fresh_shrinks R c R' : 1 < c <= MAX_SAME -> 0 < fresh_ep R c -> 3 * fresh_ep R c <= 4 * (R - R') -> 3 <= R - R' -> shrinks R R'.
Proof.
  intros Hc Hp H4 H3. split; [done|]. unfold fresh_ep, MAX_SAME in *. destruct (Z.ltb_spec R (c * 3)); [lia|].
  pose proof (Z.mul_succ_div_gt (R - c * 3) c ltac:(lia)). nia.
Qed.

Lemma start_ok l log id i : lcp_ok l log -> group_ok l -> a !! id = Some i -> tot_at l (lcid i) = 0 ->
  exists l1, start_group a id l = Ok l1 /\ lcp_ok l1 log /\ serving l1 i /\ lp_ce l1 = lp_ce l /\
    lcids_bytes_tot l1 = lcids_bytes_tot l /\
    (num_lcids_same_priority l = 0 -> buflen_ep l1 = fresh_ep (rest (lp_ce l)) (count_same_priority_lcids l1)).
Proof.
  intros I [Gc Gn Gl] Hi Ht. pose proof (lo_rest _ _ I) as Hr0.
  assert (rest (lp_ce l) < 2147483648) as Hmax.
  { unfold rest. rewrite (lo_end _ _ I). destruct H_c0. lia. }
  destruct (same_count id i Hi) as (n & En & Hn).
  assert (Hep : forall c, 1 <= c <= MAX_SAME -> (if u64 (rest (lp_ce l)) <? c * 3 then 0
      else u32 (u64 (rest (lp_ce l) - c * 3) / c)) = fresh_ep (rest (lp_ce l)) c).
  { intros c Hc. pose proof (fresh_share (rest (lp_ce l)) c ltac:(lia) ltac:(lia)) as [Hf _]. unfold fresh_ep, u64, u32 in *.
    rewrite Z.mod_small by lia. destruct (Z.ltb_spec (rest (lp_ce l)) (c * 3)); [done|].
    rewrite (Z.mod_small (_ - _)) by lia. apply Z.mod_small. lia. }
  assert (Hsv : forall num cnt ep, 1 <= num <= cnt -> cnt <= MAX_SAME -> 0 <= ep < 2147483648 ->
    (1 < cnt -> ep = 0 \/ num * (ep + 3) <= rest (lp_ce l)) ->
    serving (mk_lcp (lp_mac l) (lp_rlc l) (lp_ce l) (LCG_bytes l) (lcids_bytes_tot l) num cnt ep) i).
  { intros num cnt ep Hnum Hcnt He Hsh.
    assert (Ht' : tot_at (mk_lcp (lp_mac l) (lp_rlc l) (lp_ce l) (LCG_bytes l) (lcids_bytes_tot l) num cnt ep) (lcid i) = 0) by done.
    pose proof (uo_pbr m0 H_m0 i ltac:(eapply elem_of_sublist; [by eapply list_elem_of_lookup_2|done])).
    split; rewrite ?Ht'; cbn [lp_ce num_lcids_same_priority count_same_priority_lcids buflen_ep]; try done; try lia.
    - by eapply list_elem_of_lookup_2.
    - intros _. destruct (1 <? cnt); lia.
    }
  unfold start_group. destruct (Z.eqb_spec (num_lcids_same_priority l) 0) as [E0|E0].
  - rewrite En. cbn [res_bind update]. cbn. rewrite Z.eqb_refl. destruct (Z.eqb_spec n 0); [lia|]. rewrite Hep by done.
    pose proof (fresh_share (rest (lp_ce l)) n ltac:(lia) ltac:(lia)) as [Hf Hs].
    eexists. split; [reflexivity|]. split; [by apply lcp_ok_group|]. split; [apply Hsv; try done; lia|]. done.
  - destruct Gn as [?|(Hnum & Hcnt & He)]; [lia|]. cbn [res_bind]. cbv zeta.
    destruct (Z.eqb_spec (num_lcids_same_priority l) (count_same_priority_lcids l)) as [E1|E1].
    + destruct (Z.eqb_spec (count_same_priority_lcids l) 0); [lia|]. rewrite Hep by lia.
      pose proof (fresh_share (rest (lp_ce l)) (count_same_priority_lcids l) ltac:(lia) ltac:(lia)) as [Hf Hs].
      eexists. split; [reflexivity|]. split; [by apply lcp_ok_group|]. split; [|done]. apply Hsv; try done. rewrite E1. done.
    + exists l. split; [done|]. split; [done|]. split; [|split_and!; try done; lia].
      specialize (Hsv _ _ _ Hnum Hcnt He Gl). by destruct l.
Qed.

Definition pending_of (l : lcp St) : nat := pending_lcs (lcids_data_status (lp_ce l)).
Definition status_at (l : lcp St) (c : Z) : bool := default false (lcids_data_status (lp_ce l) !! Z.to_nat (c - 1)).

(** a channel is found empty, the room is used up, or a share of it is *)
Definition progress (l l' : lcp St) : Prop :=
  (pending_of l' < pending_of l)%nat \/ rest (lp_ce l') <= 3 \/ shrinks (rest (lp_ce l)) (rest (lp_ce l')).

(** what a part of a pass leaves *)
Record passed (l l' : lcp St) : Prop := {
  pa_group : group_ok l';
  pa_counter : lcp_allocation_counter (lp_ce l') = lcp_allocation_counter (lp_ce l);
  pa_rest : rest (lp_ce l') <= rest (lp_ce l);
  pa_pending : (pending_of l' <= pending_of l)%nat }.

Lemma status_get l log c : lcp_ok l log -> 1 <= c <= 32 -> lcids_data_status (lp_ce l) !! Z.to_nat (c - 1) = Some (status_at l c).
Proof.
  intros I Hc. unfold status_at. destruct (lookup_lt_is_Some_2 (lcids_data_status (lp_ce l)) (Z.to_nat (c - 1))) as [x ->]; [|done].
  rewrite (lo_status _ _ I). unfold NR_MAX_NUM_LCID. lia.
Qed.

Lemma channel_ok l log id i : lcp_ok l log -> group_ok l -> a !! id = Some i -> tot_at l (lcid i) = 0 ->
  exists l' log', lcp_channel a l id = Ok l' /\ lcp_ok l' log' /\ passed l l' /\
    (forall d, 1 <= d <= 32 -> d <> lcid i -> tot_at l' d = tot_at l d) /\
    (status_at l (lcid i) = false -> l' = l) /\
    (status_at l (lcid i) = true -> num_lcids_same_priority l = 0 -> lcp_allocation_counter (lp_ce l) <> 0 -> progress l l').
Proof.
  intros I G Hi Ht. assert (1 <= lcid i <= 32) as Hc.
  { apply a_range, list_elem_of_fmap. exists i. split; [done|]. by eapply list_elem_of_lookup_2. }
  unfold lcp_channel, arr_get at 1. rewrite Hi. cbn [of_option res_bind]. rewrite buffer_index_ok by done. cbn [res_bind].
  unfold arr_get. rewrite (status_get l log (lcid i) I Hc). cbn [of_option res_bind].
  destruct (status_at l (lcid i)) eqn:Es; cbn [negb].
  2: { exists l, log. split_and!; try done. }
  destruct (start_ok l log id i I G Hi Ht) as (l1 & -> & I1 & SV & Ece & Etot & Hfresh). cbn [res_bind].
  assert (Ht1 : tot_at l1 (lcid i) = 0) by (unfold tot_at; by rewrite Etot).
  destruct (fill_all (S (Z.to_nat (rest (lp_ce l1)))) l1 log i (rest (lp_ce l1)) I1 SV) as (l' & log' & -> & I' & D);
    [pose proof (lo_rest _ _ I1); lia|lia|intros; lia|].
  exists l', log'. split; [done|]. split; [done|]. destruct D as [(Gc & Gn & Ge) Dr Dt Ds Dnum Dl Dp]. rewrite Ece in *.
  destruct (pending_clear (lcids_data_status (lp_ce l)) (Z.to_nat (lcid i - 1))) as [Hle Hlt].
  split; [split|split; [|split; [done|]]].
  - destruct SV as [_ Sctr Scnt Snum Sep _ _ _ _]. rewrite Ece in Sctr. split; rewrite ?Gc, ?Gn, ?Ge; try done.
    destruct (decide (num_lcids_same_priority l' = 0)); [by left|right]. lia.
  - done.
  - done.
  - unfold pending_of. destruct Ds as [-> | ->]; lia.
  - intros d Hd Hne. rewrite Dt by done. unfold tot_at. by rewrite Etot.
  - intros _ E0 Hctr. destruct Dp as [Dp|[Dp|[Dp|(Hg & Hep & H4 & H3)]]].
    + left. unfold pending_of. rewrite Dp. apply Hlt. rewrite (status_get l log (lcid i) I Hc). by rewrite Es.
    + right. left. lia.
    + done.
    + right. right. rewrite (Hfresh E0) in *. eapply fresh_shrinks; [|done..]. destruct SV as [_ _ Scnt _ _ _ _ _ _]. lia.
Qed.

Lemma passed_trans l l1 l' : passed l l1 -> passed l1 l' -> passed l l'.
Proof. intros [_ C R P] [G' C' R' P']. split; [done|congruence|lia|lia]. Qed.

Lemma progress_mono l l1 l' : progress l l1 -> passed l1 l' -> progress l l'.
Proof.
  intros Hp [_ _ R P]. destruct Hp as [Hp|[Hp|[H3 Hs]]]; [left; lia|right; left; lia|].
  right. right. split; [lia|]. lia.
Qed.

Lemma channels_ok n : forall k l log, (k + n = length a)%nat -> lcp_ok l log -> group_ok l ->
  (forall id i, (k <= id)%nat -> a !! id = Some i -> tot_at l (lcid i) = 0) ->
  exists l' log', fold_res (lcp_channel a) (seq k n) l = Ok l' /\ lcp_ok l' log' /\ passed l l' /\
    (num_lcids_same_priority l = 0 -> lcp_allocation_counter (lp_ce l) <> 0 ->
     (exists id i, (k <= id)%nat /\ a !! id = Some i /\ status_at l (lcid i) = true) -> progress l l').
Proof.
  induction n as [|n IH]; intros k l log Hk I G Ht.
  { exists l, log. cbn. split_and!; try done. intros _ _ (id & i & Hid & Hi & _).
    apply lookup_lt_Some in Hi. lia. }
  cbn [seq fold_res]. destruct (lookup_lt_is_Some_2 a k) as [i Hi]; [lia|].
  destruct (channel_ok l log k i I G Hi (Ht k i ltac:(lia) Hi)) as (l1 & log1 & -> & I1 & P1 & Htot & Hskip & Hprog). cbn [res_bind].
  destruct (IH (S k) l1 log1) as (l' & log' & -> & I' & P' & Hp'); [lia|done|apply P1| |].
  { intros id j Hid Hj. rewrite Htot; [apply (Ht id j); [lia|done]| |].
    - apply a_range, list_elem_of_fmap. exists j. split; [done|]. by eapply list_elem_of_lookup_2.
    - intros E. assert (id = k); [|lia].
      assert (NoDup (lcid <$> a)) as Hnd by (eapply sublist_NoDup; [exact (uo_nodup m0 H_m0)|by apply fmap_sublist]).
      eapply (NoDup_lookup _ id k (lcid i) Hnd); rewrite list_lookup_fmap; [rewrite Hj; cbn; by rewrite E|by rewrite Hi]. }
  exists l', log'. split; [done|]. split; [done|]. split; [by eapply passed_trans|]. intros E0 Hctr (id & j & Hid & Hj & Hst).
  destruct (status_at l (lcid i)) eqn:Es.
  - eapply progress_mono; [|done]. by apply Hprog.
  - specialize (Hskip eq_refl). subst l1. apply Hp'; try done. exists id, j. split; [|done].
    destruct (decide (id = k)) as [->|]; [congruence|lia].
Qed.

(** one pass *)
Lemma round_ok l log : lcp_ok l log -> 0 <= lcp_allocation_counter (lp_ce l) < 254 ->
  exists l' log', lcp_round a l = Ok l' /\ lcp_ok l' log' /\
    lcp_allocation_counter (lp_ce l') = lcp_allocation_counter (lp_ce l) + 1 /\
    rest (lp_ce l') <= rest (lp_ce l) /\ (pending_of l' <= pending_of l)%nat /\
    (lcp_allocation_counter (lp_ce l) <> 0 -> (exists i, i ∈ a /\ status_at l (lcid i) = true) -> progress l l').
Proof.
  intros I Hctr. unfold lcp_round.
  set (l0 := l <| lcids_bytes_tot := replicate NR_MAX_NUM_LCID 0 |> <| num_lcids_same_priority := 0 |>
               <| count_same_priority_lcids := 0 |>).
  assert (lcp_ok l0 log) as I0 by (destruct I; by split).
  assert (group_ok l0) as G0 by (split; cbn; [lia|by left|intros ?; cbn in *; lia]).
  destruct (channels_ok (length a) 0 l0 log eq_refl I0 G0) as (l' & log' & -> & I' & P & Hp).
  { intros id i _ _. unfold tot_at. change (lcids_bytes_tot l0) with (replicate NR_MAX_NUM_LCID 0).
    destruct (replicate NR_MAX_NUM_LCID 0 !! _) eqn:E; [|done]. apply lookup_replicate in E as [-> _]. done. }
  cbn [res_bind]. destruct P as [_ Pc Pr Pp].
  change (lcp_allocation_counter (lp_ce l0)) with (lcp_allocation_counter (lp_ce l)) in *.
  assert (u32 (lcp_allocation_counter (lp_ce l') + 1) = lcp_allocation_counter (lp_ce l) + 1) as Eu
    by (rewrite Pc; unfold u32; apply Z.mod_small; lia).
  eexists _, log'. split; [reflexivity|]. split; [destruct I'; by split|]. split; [exact Eu|]. split; [exact Pr|].
  split; [exact Pp|]. intros Hne (i & Hi & Hst). apply (Hp eq_refl Hne). apply list_elem_of_lookup in Hi as [id Hid].
  exists id, i. split; [lia|done].
Qed.

(** ** The passes end *)

Lemma available_ok l log : lcp_ok l log -> exists b,
  get_dataavailability_buffers a (lcids_data_status (lp_ce l)) = Ok b /\
  (b = true <-> exists i, i ∈ a /\ status_at l (lcid i) = true).
Proof.
  intros I. assert (Hr : forall i, i ∈ a -> 1 <= lcid i <= 32).
  { intros i Hi. apply a_range, list_elem_of_fmap. by exists i. }
  unfold get_dataavailability_buffers. revert Hr. generalize a at 1 2 3. intros a' Hr.
  assert (Hgen : forall found, exists b, fold_res (fun (found : bool) i =>
      if found then Ok true else let* idx := lcid_buffer_index (lcid i) in arr_get (lcids_data_status (lp_ce l)) idx) a' found = Ok b /\
    (b = true <-> found = true \/ exists i, i ∈ a' /\ status_at l (lcid i) = true)); [|destruct (Hgen false) as (b & E & Hb); exists b; split; [done|naive_solver]].
  induction a' as [|i a' IH]; intros found.
  { exists found. split; [done|]. split; [by left|]. intros [?|(i & Hi & _)]; [done|]. by apply not_elem_of_nil in Hi. }
  cbn [fold_res]. specialize (IH ltac:(intros j Hj; apply Hr; by right)).
  destruct found; cbn [res_bind].
  - destruct (IH true) as (b & E & Hb). exists b. split; [done|]. rewrite Hb. naive_solver.
  - rewrite buffer_index_ok by (apply Hr; by left). cbn [res_bind]. unfold arr_get.
    rewrite (status_get l log (lcid i) I) by (apply Hr; by left). cbn [of_option res_bind].
    destruct (IH (status_at l (lcid i))) as (b & E & Hb). exists b. split; [done|]. rewrite Hb.
    split; [intros [Hs|(j & Hj & Hs)]; right; [exists i|exists j]; (split; [|done]); [by left|by right]|].
    intros [?|(j & Hj & Hs)]; [done|]. apply elem_of_cons in Hj as [->|Hj]; [by left|right; by exists j].
Qed.

(** little room or nothing to send *)
Definition lcp_done (l : lcp St) : Prop :=
  rest (lp_ce l) <= 3 \/ forall i, i ∈ a -> status_at l (lcid i) = false.

Lemma more_rounds l log : lcp_ok l log -> exists b,
  (if 3 <? u64 (rest (lp_ce l)) then get_dataavailability_buffers a (lcids_data_status (lp_ce l)) else Ok false) = Ok b /\
  (b = true -> 3 < rest (lp_ce l) /\ exists i, i ∈ a /\ status_at l (lcid i) = true) /\ (b = false -> lcp_done l).
Proof.
  intros I. assert (0 <= rest (lp_ce l) < 2147483648) as Hr.
  { split; [apply I|]. unfold rest. rewrite (lo_end _ _ I). destruct H_c0. lia. }
  unfold u64. rewrite Z.mod_small by lia. destruct (Z.ltb_spec 3 (rest (lp_ce l))).
  - destruct (available_ok l log I) as (b & E & Hb). exists b. split; [done|]. split; [intros ?; split; [done|by apply Hb]|].
    intros ->. right. intros i Hi. destruct (status_at l (lcid i)) eqn:Es; [|done].
    assert (false = true); [apply Hb; by exists i|done].
  - exists false. split; [done|]. split; [done|]. by left.
Qed.

Lemma rounds_ok fuel : forall k l log, lcp_ok l log -> 1 <= lcp_allocation_counter (lp_ce l) ->
  lcp_allocation_counter (lp_ce l) + Z.of_nat (pending_of l) + Z.of_nat k <= 254 ->
  (pending_of l + k < fuel)%nat -> rest (lp_ce l) <= room_bound k -> 3 < rest (lp_ce l) ->
  (exists i, i ∈ a /\ status_at l (lcid i) = true) ->
  exists l' log', lcp_rounds fuel a l = Ok l' /\ lcp_ok l' log' /\ lcp_done l'.
Proof.
  induction fuel as [|fuel IH]; intros k l log I Hctr Hsum Hf Hk H3 Hst; [lia|]. cbn [lcp_rounds].
  destruct k as [|k]; [cbn in Hk; lia|].
  destruct (round_ok l log I ltac:(lia)) as (l1 & log1 & -> & I1 & Ec & Hr & Hp & Hprog). cbn [res_bind].
  specialize (Hprog ltac:(lia) Hst).
  destruct (more_rounds l1 log1 I1) as (b & -> & Hb & Hb'). cbn [res_bind]. destruct b; [|exists l1, log1; auto].
  destruct (Hb eq_refl) as [H31 Hst1].
  destruct Hprog as [Hprog|[Hprog|Hprog]]; [|lia|].
  - apply (IH (S k) l1 log1 I1); try done; lia.
  - pose proof (room_bound_step k _ _ Hprog Hk). apply (IH k l1 log1 I1); try done; lia.
Qed.

Lemma pending_all : pending_lcs (replicate NR_MAX_NUM_LCID true) = 32%nat.
Proof. done. Qed.

(** all passes, from the first one *)
Lemma lcp_ok_rounds l log : lcp_ok l log -> lcp_allocation_counter (lp_ce l) = 0 -> pending_of l = 32%nat ->
  rest (lp_ce l) <= MAX_TBS ->
  exists l' log', lcp_rounds lcp_fuel a l = Ok l' /\ lcp_ok l' log' /\ lcp_done l'.
Proof.
  intros I E0 Hp Hmax. unfold lcp_fuel. cbn [lcp_rounds].
  destruct (round_ok l log I ltac:(lia)) as (l1 & log1 & -> & I1 & Ec & Hr & Hpp & _). cbn [res_bind].
  destruct (more_rounds l1 log1 I1) as (b & -> & Hb & Hb'). cbn [res_bind]. destruct b; [|exists l1, log1; auto].
  destruct (Hb eq_refl) as [H31 Hst1]. pose proof room_bound_max.
  apply (rounds_ok 299 210 l1 log1 I1); try done; lia.
Qed.
End Lcp.
