(* ===== verification/MacUlParse.v ===== *)
(** * How the gNB parses an uplink transport block

    The loop of [nr_process_mac_pdu] over a sequence of subPDUs: SDUs of
    configured channels, the power headroom report, the buffer status reports
    and the padding. *)
From S2P Require Import Prelude MacPdu MacBsr MacDlSpec MacUlLc MacUl MacUlGnb MacUlLcp.

(** decides the conditions that compare constants *)
Ltac eval_ifs :=
  repeat match goal with |- context [if ?b then _ else _] =>
    let v := eval vm_compute in b in
    lazymatch v with true => change b with true | false => change b with false end; cbn iota
  end.

Section Gnb.
Context (initial_ok : bool) (ph_factor harq_pid : Z).
Abbreviation ul_sub_pdu := (ul_sub_pdu initial_ok ph_factor harq_pid).
Abbreviation ul_sub_pdus := (ul_sub_pdus initial_ok ph_factor harq_pid).

(** the loop takes [u] to [u'] over the bytes [chunk] *)
Definition ul_parses (chunk : list Z) (u : ul_ue) (n : Z) (u' : ul_ue) (n' : Z) : Prop :=
  forall fuel pre rest, (length (chunk ++ rest) < fuel)%nat ->
  exists fuel', (length rest < fuel')%nat /\
    ul_sub_pdus fuel u n (pre ++ chunk ++ rest) (blen pre) (blen (chunk ++ rest)) =
    ul_sub_pdus fuel' u' n' ((pre ++ chunk) ++ rest) (blen (pre ++ chunk)) (blen rest).

Lemma ul_parses_nil u n : ul_parses [] u n u n.
Proof. intros fuel pre rest H. exists fuel. split; [done|]. by rewrite app_nil_r. Qed.

Lemma ul_parses_app a b u n u1 n1 u2 n2 : ul_parses a u n u1 n1 -> ul_parses b u1 n1 u2 n2 -> ul_parses (a ++ b) u n u2 n2.
Proof.
  intros Ha Hb fuel pre rest Hf. rewrite <- app_assoc in Hf.
  destruct (Ha fuel pre (b ++ rest)) as (f1 & H1 & E1); [done|].
  destruct (Hb f1 (pre ++ a) rest) as (f2 & H2 & E2); [done|].
  exists f2. split; [done|]. rewrite <- !app_assoc in *. by rewrite E1.
Qed.

(** one subPDU *)
Lemma ul_parses_sub_pdu chunk u n u' n' sub lcid len : 0 < blen chunk -> sub + len = blen chunk ->
  (forall pre rest, decode_ul_mac_sub_pdu_header (pre ++ chunk ++ rest) (blen pre) 0 = Ok (sub, lcid, len)) ->
  (forall pre rest, ul_sub_pdu u n (pre ++ chunk ++ rest) (blen pre) lcid sub len = Ok (u', n', Ul_next)) ->
  ul_parses chunk u n u' n'.
Proof.
  intros Hc Hn Hd Hs fuel pre rest Hf. destruct fuel as [|fuel]; [lia|].
  exists fuel. rewrite length_app in Hf. split; [lia|]. cbn [MacUlGnb.ul_sub_pdus].
  destruct (Z.leb_spec (blen (chunk ++ rest)) 0) as [Hle|_]; [rewrite length_app in Hle; lia|].
  rewrite Hd. cbn [res_bind]. destruct (Z.ltb_spec (blen (chunk ++ rest)) (sub + len)) as [Hlt|_]; [rewrite length_app in Hlt; lia|].
  rewrite Hs. cbn [res_bind]. rewrite Hn, !length_app, <- app_assoc. f_equal; lia.
Qed.

(** ** Subheaders *)

Lemma land_63 b : Z.land b 63 = bits 0 6 b.
Proof. unfold bits. by rewrite Z.shiftr_0_r. Qed.

Lemma head_lcid fs lcid : 0 <= lcid < 64 -> Z.land (pack ((6, lcid) :: fs)) 63 = lcid.
Proof. intros. rewrite land_63, bits_head by lia. change (2 ^ 6) with 64. apply Z.mod_small. lia. Qed.

Lemma head_flag lcid F R : 0 <= lcid < 64 -> F = 0 \/ F = 1 -> (Z.land (pack [(6, lcid); (1, F); (1, R)]) 64 =? 0) = (F =? 0).
Proof.
  intros Hl HF. assert (Z.testbit (pack [(6, lcid); (1, F); (1, R)]) 6 = (F =? 1)) as Hb.
  { pose proof (bits_eq 6 1 (pack [(6, lcid); (1, F); (1, R)]) ltac:(lia) ltac:(lia)) as E.
    rewrite bits_tail, bits_head in E by lia. change (2 ^ 1) with 2 in E. rewrite Z.testbit_eqb, <- E by lia. by destruct HF as [-> | ->]. }
  change 64 with (2 ^ 6). destruct HF as [-> | ->]; cbn [Z.eqb] in *.
  - apply Z.eqb_eq, Z.bits_inj'. intros k Hk. rewrite Z.land_spec, Z.pow2_bits_eqb, Z.bits_0 by lia.
    destruct (Z.eqb_spec 6 k) as [<-|]; [by rewrite Hb|by rewrite andb_false_r].
  - apply Z.eqb_neq. intros E. assert (Z.testbit (Z.land (pack [(6, lcid); (1, 1); (1, R)]) (2 ^ 6)) 6 = true) as Ht.
    { rewrite Z.land_spec, Hb, Z.pow2_bits_true by lia. done. }
    by rewrite E in Ht.
Qed.

Lemma at_pre pre b l : pdu_at (pre ++ b :: l) (blen pre) = Ok b.
Proof. rewrite <- (Z.add_0_r (blen pre)), pdu_at_app by lia. done. Qed.

Lemma decode_sdu pre lcid hs len l : ul_has_length lcid = true -> lcid <> 0 -> 0 <= lcid < 64 ->
  (hs = 2 /\ 0 <= len < 256) \/ (hs = 3 /\ 0 <= len < 65536) ->
  decode_ul_mac_sub_pdu_header (pre ++ sdu_header hs lcid len ++ l) (blen pre) 0 = Ok (hs, lcid, len).
Proof.
  intros Hl H0 Hr Hh. unfold decode_ul_mac_sub_pdu_header, sdu_header.
  destruct Hh as [[-> Hn]|[-> Hn]]; cbn [Z.eqb Pos.eqb NR_MAC_SUBHEADER_SHORT NR_MAC_SUBHEADER_LONG app];
    rewrite at_pre; cbn [res_bind]; rewrite head_lcid, Hl, head_flag by auto;
    (destruct (Z.eqb_spec lcid UL_SCH_LCID_CCCH_64_BITS); [done|]); cbn [Z.eqb negb].
  - rewrite pdu_at_app, pdu_at_cons by lia. change (1 - 1) with 0. rewrite pdu_at_cons_0. cbn [res_bind].
    unfold u8. rewrite Z.mod_small by lia. done.
  - rewrite !pdu_at_app, (pdu_at_cons _ _ 1), (pdu_at_cons _ _ 2), (pdu_at_cons _ _ (2 - 1)) by lia.
    change (2 - 1 - 1) with 0. change (1 - 1) with 0. rewrite !pdu_at_cons_0. cbn [res_bind].
    rewrite Z.shiftl_mul_pow2 by lia. change (2 ^ 8) with 256. rewrite Z.mul_comm, u16_split by lia. done.
Qed.

(** ** SDUs *)

(** the channel [c] carries SDUs *)
Definition lc_ready (u : ul_ue) (c : Z) : Prop :=
  1 <= c <= 32 /\ c <> 3 /\ exists cfg, nr_mac_get_lc_config (lc_config u) c = Some cfg /\ lc_suspended cfg = false.

(** the gNB takes SDUs of the channels of the UE *)
Record gnb_ready (u : ul_ue) (lcs : list Z) : Prop := {
  gr_lcs c : c ∈ lcs -> lc_ready u c;
  gr_cell : has_CellGroup u = true;
  gr_counters : (32 < length (ul_lc_bytes u))%nat }.

(** the SDUs of a log are handed to the RLC, nothing else changes for the
    rest of the transport block *)
Record received (u : ul_ue) (log : list (Z * list Z)) (u' : ul_ue) : Prop := {
  re_inds : rlc_inds u' = rlc_inds u ++ log;
  re_config : lc_config u' = lc_config u;
  re_cell : has_CellGroup u' = has_CellGroup u;
  re_counters : length (ul_lc_bytes u') = length (ul_lc_bytes u) }.

Lemma received_ready u log u' lcs : received u log u' -> gnb_ready u lcs -> gnb_ready u' lcs.
Proof. intros [_ E1 E2 E3] [H1 H2 H3]. split; [|congruence|lia]. intros c Hc. unfold lc_ready. rewrite E1. by apply H1. Qed.

Lemma received_nil u : received u [] u.
Proof. split; [by rewrite app_nil_r|done..]. Qed.

Lemma received_app u log u1 log' u' : received u log u1 -> received u1 log' u' -> received u (log ++ log') u'.
Proof. intros [A1 A2 A3 A4] [B1 B2 B3 B4]. split; [rewrite B1, A1; by rewrite app_assoc|congruence..]. Qed.

Lemma add_lc_bytes_ok u c n : 1 <= c <= 32 -> (32 < length (ul_lc_bytes u))%nat ->
  exists l, add_lc_bytes u c n = Ok (u <| ul_lc_bytes := l |>) /\ length l = length (ul_lc_bytes u).
Proof.
  intros Hc Hl. unfold add_lc_bytes, arr_get, arr_set.
  destruct (lookup_lt_is_Some_2 (ul_lc_bytes u) (Z.to_nat c)) as [b ->]; [lia|]. cbn [of_option res_bind].
  destruct (Nat.ltb_spec (Z.to_nat c) (length (ul_lc_bytes u))); [|lia]. cbn [res_bind].
  eexists. split; [done|]. by rewrite length_insert.
Qed.

Lemma ready_length u c : lc_ready u c -> ul_has_length c = true.
Proof.
  intros (Hr & H3 & _). unfold ul_has_length.
  destruct (Z.eqb_spec c UL_SCH_LCID_SRB1); [done|]. destruct (Z.eqb_spec c UL_SCH_LCID_SRB2); [done|].
  unfold UL_SCH_LCID_SRB1, UL_SCH_LCID_SRB2, UL_SCH_LCID_DTCH in *.
  by rewrite (proj2 (Z.leb_le 4 c)), (proj2 (Z.leb_le c (4 + 28))) by lia.
Qed.

Lemma ul_sub_pdu_sdu u n pre h c sdu rest lcs : gnb_ready u lcs -> c ∈ lcs ->
  exists u' n', received u [(c, sdu)] u' /\
    ul_sub_pdu u n (pre ++ (h ++ sdu) ++ rest) (blen pre) c (blen h) (blen sdu) = Ok (u', n', Ul_next) /\
    forall pre' rest', ul_sub_pdu u n (pre' ++ (h ++ sdu) ++ rest') (blen pre') c (blen h) (blen sdu) = Ok (u', n', Ul_next).
Proof.
  intros [Hl Hc Hb] Hin. destruct (Hl c Hin) as (Hr & H3 & cfg & Ecfg & Es).
  assert (forall pre rest, mem_read (pre ++ (h ++ sdu) ++ rest) (blen pre + blen h) (blen sdu) = Ok sdu) as Hmem.
  { intros p r. rewrite <- app_assoc, app_assoc. apply mem_read_mid; [rewrite length_app; lia|done]. }
  assert (exists u' n', received u [(c, sdu)] u' /\ forall pre' rest',
    ul_sub_pdu u n (pre' ++ (h ++ sdu) ++ rest') (blen pre') c (blen h) (blen sdu) = Ok (u', n', Ul_next)) as (u' & n' & R & E);
    [|by exists u', n'].
  unfold MacUlGnb.ul_sub_pdu.
  repeat match goal with |- context [c =? ?k] => let v := eval cbv in k in
    match v with 1 => fail 1 | 2 => fail 1 | _ => replace (c =? k) with false by (unfold k; lia) end end.
  cbn [orb]. destruct ((c =? UL_SCH_LCID_SRB1) || (c =? UL_SCH_LCID_SRB2)) eqn:E12.
  - unfold srb_ul_sub_pdu. rewrite Hc, Ecfg, Es. cbn [negb].
    destruct (add_lc_bytes_ok (data_ind u c sdu) c (blen sdu) Hr Hb) as (l & El & Hlen).
    eexists _, _. split; [|intros p r; rewrite Hmem; cbn [res_bind]; rewrite El; cbn [res_bind]; reflexivity].
    by split.
  - apply orb_false_elim in E12 as [E1 E2]. unfold UL_SCH_LCID_SRB1, UL_SCH_LCID_SRB2, UL_SCH_LCID_DTCH in *.
    rewrite (proj2 (Z.leb_le 4 c)), (proj2 (Z.leb_le c (4 + 28))) by lia. cbn [andb].
    unfold drb_ul_sub_pdu. rewrite Ecfg, Es. destruct (add_lc_bytes_ok u c (blen sdu) Hr Hb) as (l & -> & Hlen). cbn [res_bind].
    eexists _, _. split; [|intros p r; rewrite Hmem; cbn [res_bind]; reflexivity]. by split.
Qed.

Lemma ul_parses_sdu u n hs c sdu lcs : gnb_ready u lcs -> c ∈ lcs ->
  (hs = 2 /\ blen sdu < 256) \/ (hs = 3 /\ blen sdu < 65536) ->
  exists u' n', received u [(c, sdu)] u' /\ ul_parses (sdu_header hs c (blen sdu) ++ sdu) u n u' n'.
Proof.
  intros G Hin Hh. pose proof (gr_lcs _ _ G c Hin) as Hr.
  assert (blen (sdu_header hs c (blen sdu)) = hs) as Ehs by (apply sdu_header_length; lia).
  destruct (ul_sub_pdu_sdu u n [] (sdu_header hs c (blen sdu)) c sdu [] lcs G Hin) as (u' & n' & R & _ & E).
  exists u', n'. split; [done|]. apply (ul_parses_sub_pdu _ _ _ _ _ hs c (blen sdu)).
  - rewrite length_app. lia.
  - rewrite length_app. lia.
  - intros pre rest. rewrite <- app_assoc. destruct Hr as ((? & ?) & _ & _). apply decode_sdu; [|lia..].
    by apply (ready_length u), (gr_lcs _ _ G).
  - intros pre rest. rewrite <- Ehs at 2. apply E.
Qed.

(** all SDUs of a transport block *)
Lemma ul_parses_subs u n log b lcs : gnb_ready u lcs -> ul_subs log b -> (forall x, x ∈ log -> fst x ∈ lcs) ->
  exists u' n', received u log u' /\ ul_parses b u n u' n'.
Proof.
  intros G H. induction H as [|log b c sdu h Hs IH Hc Hne Hh]; intros Hl.
  { exists u, n. split; [apply received_nil|apply ul_parses_nil]. }
  destruct IH as (u1 & n1 & R1 & P1); [intros x Hx; apply Hl, elem_of_app; by left|].
  destruct (ul_parses_sdu u1 n1 h c sdu lcs) as (u2 & n2 & R2 & P2).
  - by eapply received_ready. - apply (Hl (c, sdu)), elem_of_app. right. by apply list_elem_of_singleton. - done.
  - exists u2, n2. split; [by eapply received_app|by eapply ul_parses_app].
Qed.
(** ** Reports *)

(** the power headroom report sets two values and nothing else that matters *)
Lemma ul_parses_phr u n ce : 0 <= harq_pid -> 0 <= PH ce < 64 -> 0 <= PCMAX ce < 64 ->
  ul_parses (NR_MAC_SUBHEADER_FIXED 0 UL_SCH_LCID_SINGLE_ENTRY_PHR ++ phr_octets ce) u n
    (u <| ul_ph := ph_of_index (PH ce) + ph_factor |> <| ul_ph0 := ph_of_index (PH ce) |> <| ul_pcmax := PCMAX ce - 29 |>) n.
Proof.
  intros Hh Hp Hc. apply (ul_parses_sub_pdu _ _ _ _ _ 1 UL_SCH_LCID_SINGLE_ENTRY_PHR 2); [done|done| |].
  - intros pre rest. unfold decode_ul_mac_sub_pdu_header. cbn [app NR_MAC_SUBHEADER_FIXED]. rewrite at_pre. cbn [res_bind].
    by rewrite head_lcid by (unfold UL_SCH_LCID_SINGLE_ENTRY_PHR; lia).
  - intros pre rest. unfold MacUlGnb.ul_sub_pdu, phr_ul_sub_pdu. eval_ifs.
    destruct (Z.ltb_spec harq_pid 0); [lia|]. cbn [app NR_MAC_SUBHEADER_FIXED phr_octets].
    rewrite <- Z.add_assoc, !pdu_at_app, (pdu_at_cons _ _ 1), (pdu_at_cons _ _ (1 + 1)), (pdu_at_cons _ _ (1 + 1 - 1)) by lia.
    change (1 - 1) with 0. change (1 + 1 - 1 - 1) with 0.
    rewrite !pdu_at_cons_0. cbn [res_bind]. rewrite !bits_head by lia. change (2 ^ 6) with 64. rewrite !Z.mod_small by lia. done.
Qed.

(** a report of one group *)
Lemma ul_parses_short u n g b : exists e, estimate_ul_buffer_short_bsr (NR_BSR_SHORT b g) = Ok e /\
  ul_parses (NR_MAC_SUBHEADER_FIXED 0 UL_SCH_LCID_S_TRUNCATED_BSR ++ [NR_BSR_SHORT b g]) u n (u <| estimated_ul_buffer := e |>) n.
Proof.
  assert (exists e, estimate_ul_buffer_short_bsr (NR_BSR_SHORT b g) = Ok e) as (e & He).
  { unfold estimate_ul_buffer_short_bsr. pose proof (bits_range 0 5 (NR_BSR_SHORT b g) ltac:(lia) ltac:(lia)) as Hr.
    set (i := bits 0 5 _) in *. assert (0 <= Z.min (overestim_bsr_index i) (NR_SHORT_BSR_TABLE_SIZE - 1) < NR_SHORT_BSR_TABLE_SIZE) as Hm.
    { unfold overestim_bsr_index, NR_SHORT_BSR_TABLE_SIZE. change (2 ^ 5) with 32 in Hr. destruct (0 <? i); lia. }
    pose proof (bsr_get NR_SHORT_BSR_TABLE_SIZE _ (or_introl eq_refl) Hm) as E. change (NR_SHORT_BSR_TABLE_SIZE =? NR_SHORT_BSR_TABLE_SIZE) with true in E.
    cbn iota in E. rewrite E. cbn [res_bind]. by eexists. }
  exists e. split; [done|]. apply (ul_parses_sub_pdu _ _ _ _ _ 1 UL_SCH_LCID_S_TRUNCATED_BSR 1); [done|done| |].
  - intros pre rest. unfold decode_ul_mac_sub_pdu_header. cbn [app NR_MAC_SUBHEADER_FIXED]. rewrite at_pre. cbn [res_bind].
    by rewrite head_lcid by (unfold UL_SCH_LCID_S_TRUNCATED_BSR; lia).
  - intros pre rest. unfold MacUlGnb.ul_sub_pdu.
    eval_ifs.
    cbn [app NR_MAC_SUBHEADER_FIXED]. rewrite pdu_at_app, pdu_at_cons by lia. change (1 - 1) with 0. rewrite pdu_at_cons_0.
    cbn [res_bind]. by rewrite He.
Qed.

(** a report of all groups *)
Lemma ul_parses_long u n lcid l room : lcid = UL_SCH_LCID_L_TRUNCATED_BSR \/ lcid = UL_SCH_LCID_L_BSR ->
  length l = 8%nat -> Forall (fun b => 0 <= b <= max_octet) l -> 0 <= room ->
  ul_parses (long_bsr_ce lcid l room) u n
    (u <| estimated_ul_buffer := sum_Z (octet_bytes <$> (lcg_octets l room).2) |>) n.
Proof.
  intros Hlc Hl Hf Hr. pose proof (lcg_octets_room l room Hr) as [_ H8]. rewrite Hl in H8.
  assert (0 <= lcid < 64 /\ lcid <> 0 /\ ul_has_length lcid = true) as (Hr6 & H0 & Hlen) by (by destruct Hlc as [-> | ->]).
  unfold long_bsr_ce. destruct (lcg_octets l room) as [flags octets] eqn:Eo. cbn [snd] in *.
  change (NR_MAC_SUBHEADER_SHORT 0 0 lcid (1 + blen octets)) with (sdu_header 2 lcid (1 + blen octets)).
  apply (ul_parses_sub_pdu _ _ _ _ _ 2 lcid (1 + blen octets)); [done|rewrite length_app; cbn; lia| |].
  - intros pre rest. rewrite <- app_assoc. apply decode_sdu; try done. left. lia.
  - intros pre rest. assert (estimate_ul_buffer_long_bsr (pre ++ (sdu_header 2 lcid (1 + blen octets) ++ NR_BSR_LONG flags :: octets) ++ rest)
      (blen pre + 2) = Ok (sum_Z (octet_bytes <$> octets))) as He.
    { rewrite <- app_assoc, app_assoc.
      replace (blen pre + 2) with (blen (pre ++ sdu_header 2 lcid (1 + blen octets)) + 0) by (rewrite length_app; cbn; lia).
      replace octets with (lcg_octets l room).2 at 4 by by rewrite Eo. apply long_bsr_read; [done|done| |].
      - rewrite pdu_at_app by lia. by rewrite Eo.
      - intros k b Hk. rewrite Eo in Hk. cbn [snd] in Hk. match goal with |- pdu_at _ (?p + 0 + 1 + ?k) = _ => replace (p + 0 + 1 + k) with (p + (1 + k)) by lia end. rewrite pdu_at_app by lia.
        cbn [app]. rewrite pdu_at_cons by lia. unfold pdu_at. destruct (Z.ltb_spec (1 + Z.of_nat k - 1) 0); [lia|].
        replace (Z.to_nat (1 + Z.of_nat k - 1)) with k by lia. unfold arr_get. by rewrite (lookup_app_l_Some _ _ _ _ Hk). }
    unfold MacUlGnb.ul_sub_pdu. destruct Hlc as [-> | ->];
      eval_ifs;
      rewrite He; done.
Qed.

(** ** The end *)

Lemma parse_ul_padding u n pre random room fuel : (0 < fuel)%nat -> 0 <= room ->
  (forall r, random = Some r -> forall k, 0 <= k -> blen (r k) = k) ->
  exists u', ul_sub_pdus fuel u n (pre ++ ul_padding random room) (blen pre) (blen (ul_padding random room)) = Ok (u', 0) /\
    (u' = u \/ exists k, u' = u <| ul_num_mac_sdu := k |>).
Proof.
  intros Hf Hr Hrand. destruct fuel as [|fuel]; [lia|]. cbn [MacUlGnb.ul_sub_pdus]. unfold ul_padding.
  destruct (Z.eqb_spec room 0); [eexists; split; [done|]; right; by eexists|].
  exists u. split; [|by left]. cbn [app NR_MAC_SUBHEADER_FIXED].
  match goal with |- context [blen (?b :: ?l) <=? 0] => destruct (Z.leb_spec (blen (b :: l)) 0) as [Hle|_]; [cbn in Hle; lia|];
    set (tail := l) end.
  unfold decode_ul_mac_sub_pdu_header. rewrite at_pre. cbn [res_bind].
  match goal with |- context [Z.land ?b 63] => change (Z.land b 63) with 63 end.
  eval_ifs. cbn [res_bind]. match goal with |- context [?x <? 1 + 0] => destruct (Z.ltb_spec x (1 + 0)) as [Hlt|_]; [cbn in Hlt; lia|] end.
  unfold MacUlGnb.ul_sub_pdu.
  eval_ifs. done.
Qed.

(** a chunk and the padding behind it are the whole transport block *)
Lemma parse_ul_whole u chunk random room u1 n1 : chunk ++ ul_padding random room <> [] -> 0 <= room ->
  (forall r, random = Some r -> forall k, 0 <= k -> blen (r k) = k) -> ul_parses chunk u 0 u1 n1 ->
  exists u', nr_process_mac_pdu initial_ok ph_factor harq_pid u (chunk ++ ul_padding random room) = Ok (u', 0) /\
    (u' = u1 \/ exists k, u' = u1 <| ul_num_mac_sdu := k |>).
Proof.
  intros Hne Hr Hrand Hp. unfold nr_process_mac_pdu. set (pdu := chunk ++ _) in *.
  assert (exists b l, pdu = b :: l) as (b & l & E) by (destruct pdu; [done|by eexists _, _]). assert (pdu_at pdu 0 = Ok b) as -> by (by rewrite E). cbn [res_bind].
  destruct (Hp (S (length pdu)) [] (ul_padding random room)) as (f & Hf & Ep); [unfold pdu; lia|]. cbn [app] in Ep. fold pdu in Ep.
  change (blen []) with 0 in Ep. rewrite Ep. apply parse_ul_padding; [lia|done|done].
Qed.
End Gnb.
