(* ===== verification/MacUlSpec.v ===== *)
(** * From the MAC of the UE to the MAC of the gNB

    Every transport block that the UE builds is parsed by the gNB into the SDUs
    that the RLC of the UE handed over, in their order, and into its reports;
    what the gNB takes for the bytes waiting covers what is left at the UE. *)
From S2P Require Import Prelude NrTimer MacPdu MacBsr MacRlc RlcApi MacDlSpec MacUlLc MacUl MacUlGnb MacUlLcp MacUlParse.

(** ** What comes before the passes *)

Lemma lc_range m i : ul_ok m -> i ∈ lc_ordered_list m -> 1 <= lcid i <= 32.
Proof. intros O Hi. apply (uo_range m O), list_elem_of_fmap. by exists i. Qed.

Lemma ul_select_ok m : ul_ok m -> exists a, select_logical_channels m = Ok a /\ a `sublist_of` lc_ordered_list m /\
  (forall i, i ∈ a -> rb_suspended i = false /\ 0 < Bj (sched_at m (lcid i))).
Proof.
  intros O. unfold select_logical_channels.
  assert (forall l acc, (forall i, i ∈ l -> 1 <= lcid i <= 32) -> exists a', fold_res (fun l lc_info =>
      if rb_suspended lc_info then Ok l else
      let* i := get_scheduling_info_from_lcid m (lcid lc_info) in Ok (if 0 <? Bj i then l ++ [lc_info] else l)) l acc = Ok (acc ++ a') /\
      a' `sublist_of` l /\ (forall i, i ∈ a' -> rb_suspended i = false /\ 0 < Bj (sched_at m (lcid i)))) as Hgen.
  { induction l as [|i l IH]; intros acc Hr.
    { exists []. cbn. rewrite app_nil_r. split_and!; try done. intros i Hi. by apply not_elem_of_nil in Hi. }
    cbn [fold_res]. specialize (fun acc => IH acc ltac:(intros j Hj; apply Hr; by right)).
    destruct (rb_suspended i) eqn:Es; cbn [res_bind].
    { destruct (IH acc) as (a' & E & Hs & Ha). exists a'. split; [done|]. split; [by apply sublist_cons|done]. }
    rewrite (get_sched_ok m (uo_sched m O)) by (apply Hr; by left). cbn [res_bind].
    destruct (Z.ltb_spec 0 (Bj (sched_at m (lcid i)))).
    - destruct (IH (acc ++ [i])) as (a' & E & Hs & Ha). exists (i :: a'). rewrite E, <- app_assoc. split; [done|].
      split; [by apply sublist_skip|]. intros j Hj. apply elem_of_cons in Hj as [->|Hj]; [done|by apply Ha].
    - destruct (IH acc) as (a' & E & Hs & Ha). exists a'. split; [done|]. split; [by apply sublist_cons|done]. }
  destruct (Hgen (lc_ordered_list m) []) as (a & E & Hs & Ha); [by intros i Hi; apply (lc_range m)|]. by exists a.
Qed.

(** what triggering a report changes *)
Definition bsr_frame (m m' : ul_mac) : Prop :=
  exists act trig t, m' = m <| BSR_reporting_active := act |> <| regularBSR_trigger_lcid := trig |> <| sr_DelayTimer := t |> /\
    (trig = regularBSR_trigger_lcid m \/ trig ∈ lcids m).

(** a regular report is pending *)
Definition regular (m : ul_mac) : Prop := Z.land (BSR_reporting_active m) NR_BSR_TRIGGER_REGULAR <> 0.

Lemma trigger_frame m m1 c d : bsr_frame m m1 -> c ∈ lcids m ->
  bsr_frame m (trigger_regular_bsr m1 c d) /\ regular (trigger_regular_bsr m1 c d).
Proof.
  intros (act & tr & t & -> & Htr) Hc. split; [eexists _, c, _; split; [reflexivity|by right]|].
  unfold regular, trigger_regular_bsr, NR_BSR_TRIGGER_REGULAR. cbn. intros E.
  assert (Z.testbit (Z.land (Z.lor act 1) 1) 0 = true) as Hb by (by rewrite Z.land_spec, Z.lor_spec, orb_true_r).
  by rewrite E in Hb.
Qed.

Lemma frame_sched m m1 c : bsr_frame m m1 -> sched_at m1 c = sched_at m c.
Proof. by intros (act & tr & t & -> & _). Qed.

Lemma update_bsr_step_ok m m1 i f trig : ul_ok m -> i ∈ lc_ordered_list m -> bsr_frame m m1 -> (trig = true -> regular m1) ->
  let g := LCGID (sched_at m (lcid i)) in 0 <= f g -> f g + remain_at m (lcid i) < 4294967296 ->
  exists m2, nr_update_bsr_step (m1, f <$> seqZ 0 8, trig) i =
    Ok (m2, (fun k => f k + (if g =? k then remain_at m (lcid i) else 0)) <$> seqZ 0 8, true) /\ bsr_frame m m2 /\ regular m2.
Proof.
  intros O Hi F Htr g Hf Hmax. pose proof (lc_range m i O Hi) as Hr.
  assert (lcid i ∈ lcids m) as Hin by (apply list_elem_of_fmap; by exists i).
  pose proof (uo_group m O (lcid i) Hin) as Hg. pose proof (uo_remain m O (lcid i) Hin) as Hrem. fold g in Hg.
  assert (length (lc_sched_info m1) = NR_MAX_NUM_LCID) as Hlen by (destruct F as (? & ? & ? & -> & _); apply O).
  unfold nr_update_bsr_step. rewrite (get_sched_ok m1 Hlen), (frame_sched m m1 _ F) by done. cbn [res_bind]. fold g.
  destruct (Z.eqb_spec g NR_INVALID_LCGID) as [E|_]; [unfold NR_INVALID_LCGID in E; lia|].
  destruct (Z.ltb_spec g 0); [lia|].
  assert (arr_get (f <$> seqZ 0 8) (Z.to_nat g) = Ok (f g)) as ->.
  { unfold arr_get. rewrite list_lookup_fmap, lookup_seqZ_lt by lia. cbn. do 2 f_equal. lia. }
  cbn [res_bind]. fold (remain_at m (lcid i)). unfold arr_set. rewrite length_fmap, length_seqZ.
  destruct (Nat.ltb_spec (Z.to_nat g) (Z.to_nat 8)); [|lia]. cbn [res_bind].
  rewrite (fmap_seqZ_insert f (fun k => f k + (if g =? k then remain_at m (lcid i) else 0))).
  - destruct trig; [by exists m1; auto|]. eexists. split; [reflexivity|]. by apply trigger_frame.
  - lia.
  - rewrite Z.eqb_refl. unfold u32. rewrite Z.mod_small; lia.
  - intros k Hk. destruct (Z.eqb_spec g k); [congruence|lia].
Qed.

Lemma update_bsr_fold m l : ul_ok m -> (forall i, i ∈ l -> i ∈ lc_ordered_list m) -> forall m1 f trig,
  bsr_frame m m1 -> (trig = true -> regular m1) -> (forall g, 0 <= f g) ->
  (forall g, f g + sum_Z (remain_at m <$> (lcid <$> l)) < 4294967296) ->
  exists m2 trig', fold_res nr_update_bsr_step l (m1, f <$> seqZ 0 8, trig) =
    Ok (m2, (fun g => f g + lcg_sum m (lcid <$> l) g) <$> seqZ 0 8, trig') /\ bsr_frame m m2 /\ (trig = true \/ l <> [] -> regular m2).
Proof.
  intros O. induction l as [|i l IH]; intros Hl m1 f trig Hm1 Htr Hf Hmax.
  { exists m1, trig. cbn [fold_res]. split; [|split; [done|intros [Ht|Ht]; [by apply Htr|done]]]. do 3 f_equal. apply list_fmap_ext. intros k g _. cbn. lia. }
  assert (forall c, c ∈ lcid <$> (i :: l) -> 0 <= remain_at m c) as Hrem.
  { intros c Hc. apply (uo_remain m O). apply list_elem_of_fmap in Hc as (j & -> & Hj). apply list_elem_of_fmap. exists j. auto. }
  pose proof (Hrem (lcid i) ltac:(by left)) as Hri.
  assert (0 <= sum_Z (remain_at m <$> (lcid <$> l))) as Hs0 by (apply sum_Z_nonneg; intros c Hc; apply Hrem; by right).
  assert (forall g, f g + (remain_at m (lcid i) + sum_Z (remain_at m <$> (lcid <$> l))) < 4294967296) as Hmax' by exact Hmax.
  clear Hmax. cbn [fold_res].
  destruct (update_bsr_step_ok m m1 i f trig O (Hl i ltac:(by left)) Hm1 Htr (Hf _)) as (m2 & -> & F2 & R2);
    [specialize (Hmax' (LCGID (sched_at m (lcid i)))); lia|]. cbn [res_bind].
  destruct (IH ltac:(intros j Hj; apply Hl; by right) m2 (fun k => f k + (if LCGID (sched_at m (lcid i)) =? k then remain_at m (lcid i) else 0))
    true F2 ltac:(done)) as (m3 & tg & -> & F3 & R3).
  - intros k. specialize (Hf k). case_match; lia.
  - intros k. specialize (Hmax' k). case_match; lia.
  - exists m3, tg. split; [|split; [done|intros _; apply R3; by left]].
    do 3 f_equal. apply list_fmap_ext. intros k h _. unfold lcg_sum, sum_Z. cbn. lia.
Qed.

Lemma update_bsr_ok m : ul_ok m -> lc_ordered_list m <> [] ->
  exists m1, nr_update_bsr m (replicate NR_MAX_NUM_LCGID 0) = Ok (m1, lcg_sum m (lcids m) <$> seqZ 0 8) /\ bsr_frame m m1 /\ regular m1.
Proof.
  intros O Hne. unfold nr_update_bsr. change (replicate NR_MAX_NUM_LCGID 0) with ((fun _ => 0) <$> seqZ 0 8).
  assert (bsr_frame m m) as F0 by (exists (BSR_reporting_active m), (regularBSR_trigger_lcid m), (sr_DelayTimer m); split; [by destruct m|by left]).
  destruct (update_bsr_fold m (lc_ordered_list m) O ltac:(done) m (fun _ => 0)
    (negb (Z.land (BSR_reporting_active m) NR_BSR_TRIGGER_REGULAR =? 0)) F0) as (m1 & tg & -> & F & R).
  - intros Ht. unfold regular. destruct (Z.eqb_spec (Z.land (BSR_reporting_active m) NR_BSR_TRIGGER_REGULAR) 0); [done|done].
  - done.
  - intros _. pose proof (uo_total m O). unfold lcids in *. lia.
  - cbn [res_bind]. exists m1. split; [|split; [done|apply R; by right]]. done.
Qed.

(** ** The report of the power headroom and the room for the reports *)

(** the parts of the MAC that the passes read *)
Record same_channels (m m' : ul_mac) : Prop := {
  sc_list : lc_ordered_list m' = lc_ordered_list m;
  sc_sched : lc_sched_info m' = lc_sched_info m;
  sc_sr : sr_info m' = sr_info m;
  sc_trigger : regularBSR_trigger_lcid m' <= 0 \/ regularBSR_trigger_lcid m' ∈ lcids m }.

Lemma ul_ok_same m m' : ul_ok m -> same_channels m m' -> ul_ok m'.
Proof.
  intros O [El Es Er Et]. destruct O. unfold lcids, remain_at, sched_at in *.
  split; unfold lcids, remain_at, sched_at; rewrite ?El, ?Es, ?Er; auto.
Qed.

Lemma frame_same m m' : ul_ok m -> bsr_frame m m' -> same_channels m m'.
Proof.
  intros O (act & tr & t & -> & Ht). split; try done. cbn. destruct Ht as [->|?]; [apply O|by right].
Qed.

(** the power headroom report that is due, if any *)
Definition phr_due (m : ul_mac) (pathloss buflen tx_power P_CMAX : Z) (LCG_bytes : list Z) : option NR_SINGLE_ENTRY_PHR_MAC_CE :=
  if (is_configured (phr_info m) && (0 <? phr_reporting (phr_info m))) && (bsr_reserve m buflen LCG_bytes + 3 <=? buflen)
  then Some (fst (nr_ue_fill_phr pathloss (phr_info m) P_CMAX tx_power)) else None.

Lemma bsr_reserve_range m buflen lcg : 2 <= buflen -> 0 <= bsr_reserve m buflen lcg <= buflen.
Proof.
  intros Hb. unfold bsr_reserve. destruct (_ =? 0); [lia|].
  set (n := Z.of_nat (length (filter (fun b => b <> 0) lcg))). destruct (_ && _) eqn:E; [lia|]. destruct (_ || _); lia.
Qed.

Lemma pre_ok m pathloss buflen lcg tx_power P_CMAX : 2 <= buflen ->
  exists m1 c, nr_ue_get_sdu_mac_ce_pre m pathloss buflen lcg tx_power P_CMAX = (m1, c) /\
    (exists p, m1 = m <| phr_info := p |>) /\ buf c = [] /\ pdu_end c = buflen /\ num_sdus c = 0 /\
    lcids_data_status c = replicate NR_MAX_NUM_LCID true /\ lcp_allocation_counter c = 0 /\
    phr c = phr_due m pathloss buflen tx_power P_CMAX lcg /\ phr_len c = (match phr c with Some _ => 3 | None => 0 end) /\
    end_for_tailer c = buflen - bsr_reserve m buflen lcg - phr_len c /\ 0 <= end_for_tailer c <= buflen.
Proof.
  intros Hb. pose proof (bsr_reserve_range m buflen lcg Hb) as Hr. unfold nr_ue_get_sdu_mac_ce_pre, phr_due. change (1 + 2) with 3.
  destruct (_ && (_ <=? buflen)) eqn:E.
  - destruct (nr_ue_fill_phr pathloss (phr_info m) P_CMAX tx_power) as [ce p] eqn:Ef. eexists _, _. split; [reflexivity|].
    cbn. apply andb_true_iff in E as [_ E]. split; [by exists p|]. split_and!; try done; lia.
  - eexists _, _. split; [reflexivity|]. cbn. split; [exists (phr_info m); by destruct m|]. split_and!; try done; lia.
Qed.

(** ** The report of the buffers *)

Lemma locate_ok size b : size = NR_SHORT_BSR_TABLE_SIZE \/ size = NR_LONG_BSR_TABLE_SIZE -> 0 <= b < 2147483648 ->
  exists i, nr_locate_BsrIndexByBufferSize size (i32 b) = Ok i /\ 0 <= i < size /\ nr_locate_BsrIndexByBufferSize size b = Ok i /\
    (i = 0 <-> b = 0).
Proof.
  intros Hs Hb. rewrite i32_id by lia. destruct (bsr_index_least size b Hs ltac:(lia)) as (i & E & Hi & _ & _ & H0). by exists i.
Qed.

Lemma lcg_indices_ok l : Forall (fun b => 0 <= b < 2147483648) l ->
  exists idx, lcg_indices l = Ok idx /\ Forall2 (fun b i => 0 <= i < 256 /\ nr_locate_BsrIndexByBufferSize NR_LONG_BSR_TABLE_SIZE b = Ok i /\
    (i = 0 <-> b = 0)) l idx.
Proof.
  induction 1 as [|b l Hb _ IH]; [by exists []|]. cbn [lcg_indices].
  destruct (locate_ok NR_LONG_BSR_TABLE_SIZE b (or_intror eq_refl) Hb) as (i & -> & Hi & E & H0). cbn [res_bind].
  destruct IH as (idx & -> & H2). cbn [res_bind]. exists (i :: idx). split; [done|]. by constructor.
Qed.

Lemma first_with_data_ok m l : length (lc_sched_info m) = NR_MAX_NUM_LCID -> (forall i, i ∈ l -> 1 <= lcid i <= 32) ->
  exists o, first_with_data m l = Ok o /\ match o with Some i => i ∈ l /\ remain_at m (lcid i) <> 0 | None => True end.
Proof.
  intros Hlen. induction l as [|i l IH]; intros Hr; [by exists None|]. cbn [first_with_data].
  rewrite (get_sched_ok m Hlen) by (apply Hr; by left). cbn [res_bind]. fold (remain_at m (lcid i)).
  destruct (Z.eqb_spec (remain_at m (lcid i)) 0) as [E|E]; cbn [negb].
  - destruct IH as (o & -> & Ho); [intros j Hj; apply Hr; by right|]. exists o. split; [done|]. destruct o; [|done].
    destruct Ho. split; [by apply elem_of_cons; right|done].
  - exists (Some i). split; [done|]. split; [by apply elem_of_cons; left|done].
Qed.

(** the report that is chosen for the room behind the SDUs *)
Inductive bsr_for (lcg : list Z) (room : Z) : type_bsr_t -> Prop :=
  | bf_none : room < 2 -> bsr_for lcg room b_none
  | bf_short g i : room = 2 -> 0 <= i < 32 -> bsr_for lcg room (b_short_trunc g i)
  | bf_trunc idx : 3 <= room < 11 -> Forall2 (fun b i => 0 <= i < 256 /\ nr_locate_BsrIndexByBufferSize NR_LONG_BSR_TABLE_SIZE b = Ok i /\
      (i = 0 <-> b = 0)) lcg idx -> bsr_for lcg room (b_long_trunc idx)
  | bf_long idx : 11 <= room -> Forall2 (fun b i => 0 <= i < 256 /\ nr_locate_BsrIndexByBufferSize NR_LONG_BSR_TABLE_SIZE b = Ok i /\
      (i = 0 <-> b = 0)) lcg idx -> bsr_for lcg room (b_long idx).

Lemma choose_bsr_ok m room lcg : length (lc_sched_info m) = NR_MAX_NUM_LCID -> (forall i, i ∈ lc_ordered_list m -> 1 <= lcid i <= 32) ->
  (forall i, i ∈ lc_ordered_list m -> 0 <= LCGID (sched_at m (lcid i)) < 8) ->
  length lcg = 8%nat -> Forall (fun b => 0 <= b < 2147483648) lcg -> 0 <= room ->
  exists b, choose_bsr m room lcg = Ok b /\ bsr_for lcg room b.
Proof.
  intros Hlen Hr Hg Hl8 Hl Hroom. unfold choose_bsr.
  destruct (first_with_data_ok m (lc_ordered_list m) Hlen Hr) as (o & -> & Ho). cbn [res_bind].
  assert (exists g, match o with Some i => let* i := get_scheduling_info_from_lcid m (lcid i) in Ok (i32 (LCGID i)) | None => Ok 0 end = Ok g
    /\ 0 <= g < 8) as (g & -> & Hg8).
  { destruct o as [i|]; [|exists 0; split; [done|lia]]. destruct Ho as [Hi _]. rewrite (get_sched_ok m Hlen) by by apply Hr.
    cbn [res_bind]. specialize (Hg i Hi). eexists. split; [done|]. rewrite i32_id; lia. }
  cbn [res_bind]. destruct (lcg_indices_ok lcg Hl) as (idx & Ei & H2). rewrite Ei. cbn [res_bind].
  change (num_lcg_id_with_data <? 2) with false. cbn [andb]. change (num_lcg_id_with_data + 1 + 2) with 11. change (1 + 1) with 2. change (1 + 2) with 3.
  destruct (Z.leb_spec 11 room); [exists (b_long idx); split; [done|by apply bf_long]|].
  destruct (Z.eqb_spec room 2) as [->|].
  - unfold short_bsr. destruct (Z.ltb_spec g 0); [lia|]. unfold arr_get.
    destruct (lookup_lt_is_Some_2 lcg (Z.to_nat g)) as [b Hb]; [lia|]. rewrite Hb. cbn [of_option res_bind].
    rewrite Forall_lookup in Hl. destruct (locate_ok NR_SHORT_BSR_TABLE_SIZE b (or_introl eq_refl) (Hl _ _ Hb)) as (i & -> & Hi & _).
    cbn [res_bind]. exists (b_short_trunc g i). split; [done|]. by apply bf_short.
  - destruct (Z.leb_spec 3 room); [exists (b_long_trunc idx); split; [done|apply bf_trunc; [lia|done]]|].
    exists b_none. split; [done|]. apply bf_none. lia.
Qed.

(** the bytes of a report *)
Definition bsr_bytes (bsr : type_bsr_t) (room : Z) : list Z := nr_write_ce_ulsch_pdu None bsr room.
Definition phr_bytes (p : option NR_SINGLE_ENTRY_PHR_MAC_CE) : list Z := nr_write_ce_ulsch_pdu p b_none 0.

Lemma phr_bytes_length p : Z.of_nat (length (phr_bytes p)) = match p with Some _ => 3 | None => 0 end.
Proof. by destruct p. Qed.

Lemma write_ce_split p bsr room :
  nr_write_ce_ulsch_pdu p bsr room = phr_bytes p ++ bsr_bytes bsr (room - Z.of_nat (length (phr_bytes p))).
Proof.
  unfold phr_bytes, bsr_bytes, nr_write_ce_ulsch_pdu. rewrite app_nil_r. cbn [app]. f_equal.
  change (Z.of_nat (length (@nil Z))) with 0. rewrite Z.sub_0_r. done.
Qed.

Lemma bsr_bytes_fit lcg room bsr : length lcg = 8%nat -> bsr_for lcg room bsr -> 0 <= room ->
  Z.of_nat (length (bsr_bytes bsr room)) <= room.
Proof.
  intros Hl H Hr. unfold bsr_bytes, nr_write_ce_ulsch_pdu. cbn [app length Z.of_nat]. rewrite Z.sub_0_r.
  destruct H as [|g i|idx Hx H2|idx Hx H2]; [cbn; lia|cbn; lia| |]; unfold long_bsr_ce;
    pose proof (lcg_octets_room idx (room - 3) ltac:(lia)) as [H1 H3]; rewrite <- (Forall2_length _ _ _ H2), Hl in H3;
    destruct (lcg_octets idx (room - 3)) as [flags octets]; cbn [fst snd] in *;
    rewrite length_app, Nat2Z.inj_add; cbn; lia.
Qed.

(** ** A transport block is built *)

#[local] Lemma laws_sub {St} `{RlcData St} l l' Inv : RlcDataLaws St l Inv -> l' ⊆ l -> RlcDataLaws St l' Inv.
Proof. intros L Hs. constructor. intros s log c n HI Hc Hn. apply rlc_data_ok; auto. Qed.

(** the groups with bytes waiting *)
Definition groups_with_data (m : ul_mac) : Z := Z.of_nat (length (filter (fun b => b <> 0) (lcg_sum m (lcids m) <$> seqZ 0 8))).

Lemma groups_le m : 0 <= groups_with_data m <= 8.
Proof.
  unfold groups_with_data. pose proof (length_filter (fun b => b <> 0) (lcg_sum m (lcids m) <$> seqZ 0 8)) as H.
  rewrite length_fmap, length_seqZ in H. lia.
Qed.

Lemma reserve_regular m1 lcg buflen n : regular m1 -> n = Z.of_nat (length (filter (fun b => b <> 0) lcg)) ->
  (1 < n -> n + 3 <= buflen -> bsr_reserve m1 buflen lcg = n + 3) /\ bsr_reserve m1 buflen lcg <= Z.max 2 (n + 3) /\
  (0 < n -> 2 <= buflen -> 2 <= bsr_reserve m1 buflen lcg).
Proof.
  intros R ->. unfold bsr_reserve, regular in *. destruct (Z.eqb_spec (BSR_reporting_active m1) 0) as [E|_].
  { by rewrite E in R. }
  cbv zeta. set (n := Z.of_nat _). split_and!.
  - intros. by rewrite (proj2 (Z.ltb_lt 1 n)), (proj2 (Z.leb_le (n + 1 + 2) buflen)) by lia; cbn [andb]; lia.
  - repeat match goal with |- context [if ?b then _ else _] => destruct b end; lia.
  - intros. rewrite (proj2 (Z.ltb_lt 0 n)), (proj2 (Z.leb_le (1 + 1) buflen)) by lia. cbn [andb orb].
    destruct ((1 <? n) && _) eqn:E; lia.
Qed.

Section Build.
Context {St : Type} `{RlcData St} (m : ul_mac) (Inv : St -> list (Z * list Z) -> Prop) `{!RlcDataLaws St (lcids m) Inv}.
Context (H_m : ul_ok m) (H_lcs : lc_ordered_list m <> []).
#[local] Set Default Proof Using "All".

(** what the transport block of [buflen] bytes holds, and what is left *)
Record built (random : option (Z -> list Z)) (buflen tx_power P_CMAX : Z) (phr_ : option NR_SINGLE_ENTRY_PHR_MAC_CE)
    (m' : ul_mac) (s' : St) (pdu : list Z) (log : list (Z * list Z)) (b : list Z) (bsr : type_bsr_t) (room : Z) : Prop := {
  bu_inv : Inv s' log;
  bu_subs : ul_subs log b;
  bu_log x : x ∈ log -> exists i, i ∈ lc_ordered_list m /\ fst x = lcid i /\ rb_suspended i = false /\ 0 < Bj (sched_at m (lcid i));
  bu_room : room = buflen - Z.of_nat (length b) - Z.of_nat (length (phr_bytes phr_)) /\ 0 <= room;
  bu_pdu : pdu = b ++ phr_bytes phr_ ++ bsr_bytes bsr room ++ ul_padding random (room - Z.of_nat (length (bsr_bytes bsr room)));
  bu_fit : Z.of_nat (length (bsr_bytes bsr room)) <= room;
  bu_reserve : 1 < groups_with_data m -> groups_with_data m + 3 <= buflen -> groups_with_data m + 3 <= room;
  bu_reserve_any : 0 < groups_with_data m -> 2 <= room;
  bu_bsr : bsr_for (lcg_sum m' (lcids m) <$> seqZ 0 8) room bsr;
  bu_phr : is_configured (phr_info m) = true -> 0 < phr_reporting (phr_info m) -> 14 <= buflen ->
    exists p, phr_ = Some (fst (nr_ue_fill_phr p (phr_info m) P_CMAX tx_power));
  bu_ce ce : phr_ = Some ce -> exists p, ce = fst (nr_ue_fill_phr p (phr_info m) P_CMAX tx_power);
  bu_list : lc_ordered_list m' = lc_ordered_list m;
  bu_group c : c ∈ lcids m -> LCGID (sched_at m' c) = LCGID (sched_at m c);
  bu_remain c : c ∈ lcids m -> 0 <= remain_at m' c /\ remain_at m' c = remain_at m c - chan_bytes log c }.

Lemma bsr_sent_ok m1 lcg room bsr : bsr_for lcg room bsr -> length (sr_info m1) = 8%nat ->
  (regularBSR_trigger_lcid m1 <= 0 \/ regularBSR_trigger_lcid m1 ∈ lcids m1) ->
  exists m2, bsr_sent m1 bsr = Ok m2 /\ lc_ordered_list m2 = lc_ordered_list m1 /\ lc_sched_info m2 = lc_sched_info m1.
Proof.
  intros Hb Hsr Ht. destruct Hb as [|g i|idx|idx]; [by exists m1| | |]; unfold bsr_sent;
    (match goal with |- context [regularBSR_trigger_lcid ?x] => change (regularBSR_trigger_lcid x) with (regularBSR_trigger_lcid m1) end);
    (destruct (Z.ltb_spec 0 (regularBSR_trigger_lcid m1)) as [Hp|Hp]; [|by eexists]);
    (destruct Ht as [Ht|Ht]; [lia|]); destruct (find_lc m1 _ Ht) as (i' & E & _ & _);
    (match goal with |- context [get_lc_info_from_lcid ?x ?y] => change (get_lc_info_from_lcid x y) with (get_lc_info_from_lcid m1 y) end);
    rewrite E; (destruct ((0 <=? sr_id i') && (sr_id i' <? NR_MAX_SR_ID)) eqn:Es; [|by eexists]);
    apply andb_true_iff in Es as [Es1 Es2]; unfold NR_MAX_SR_ID in Es2; unfold arr_get, arr_set; cbn [sr_info update];
    destruct (lookup_lt_is_Some_2 (sr_info m1) (Z.to_nat (sr_id i'))) as [x Hx]; [lia| |lia| |lia|];
    (match goal with |- context [?l !! Z.to_nat (sr_id i')] => change l with (sr_info m1) end);
    rewrite Hx; cbn [of_option res_bind]; 
    (destruct (Nat.ltb_spec (Z.to_nat (sr_id i')) (length (sr_info m1))) as [Hl|Hl]; [|lia]); by eexists.
Qed.

Lemma lcg_range m2 c0 a l log : ul_ok m2 -> lcp_ok m2 c0 a Inv l log -> length (LCG_bytes l) = 8%nat /\
  Forall (fun b => 0 <= b < 2147483648) (LCG_bytes l).
Proof.
  intros O I. rewrite (lo_lcg _ _ _ _ _ _ I). rewrite length_fmap, length_seqZ. split; [done|].
  apply Forall_fmap, Forall_forall. intros g _. cbn.
  pose proof (lcg_sum_le (lp_mac l) (lcids m2) g ltac:(intros c Hc; apply (lo_remain _ _ _ _ _ _ I c Hc))) as Hle.
  pose proof (sum_Z_le (remain_at (lp_mac l)) (remain_at m2) (lcids m2)) as Hs.
  assert (sum_Z (remain_at (lp_mac l) <$> lcids m2) <= sum_Z (remain_at m2 <$> lcids m2)); [|pose proof (uo_total _ O); lia].
  apply Hs. intros c Hc. pose proof (lo_remain _ _ _ _ _ _ I c Hc). pose proof (chan_bytes_nonneg log c). lia.
Qed.

Lemma post_ok m2 c0 a l log : ul_ok m2 -> lcp_ok m2 c0 a Inv l log ->
  phr_len c0 = match phr c0 with Some _ => 3 | None => 0 end ->
  end_for_tailer c0 + phr_len c0 <= pdu_end c0 -> pdu_end c0 <= MAX_TBS ->
  exists m3 c3 sent bsr room, nr_ue_get_sdu_mac_ce_post (lp_mac l) (lp_ce l) (LCG_bytes l) = Ok (m3, c3, sent) /\
    room = pdu_end c0 - Z.of_nat (length (buf (lp_ce l))) - phr_len c0 /\ pdu_end c0 - end_for_tailer c0 - phr_len c0 <= room /\
    bsr_for (LCG_bytes l) room bsr /\ buf c3 = buf (lp_ce l) ++ phr_bytes (phr c0) ++ bsr_bytes bsr room /\
    Z.of_nat (length (bsr_bytes bsr room)) <= room /\ lc_ordered_list m3 = lc_ordered_list m2 /\
    lc_sched_info m3 = lc_sched_info (lp_mac l) /\ pdu_end c3 = pdu_end c0.
Proof.
  intros O I Hp He Hmax. unfold nr_ue_get_sdu_mac_ce_post. pose proof (lo_rest _ _ _ _ _ _ I) as Hr. unfold rest in Hr.
  rewrite (lo_end _ _ _ _ _ _ I) in Hr. rewrite (lo_pdu_end _ _ _ _ _ _ I). destruct (lo_phr _ _ _ _ _ _ I) as [-> ->].
  set (cur := Z.of_nat (length (buf (lp_ce l)))) in *.
  assert (0 <= phr_len c0) as Hp0 by (rewrite Hp; destruct (phr c0); lia).
  unfold u32. rewrite Z.mod_small by (unfold MAX_TBS in *; lia). set (room := pdu_end c0 - cur - phr_len c0).
  destruct (lcg_range m2 c0 a l log O I) as [Hl8 Hlf]. assert (lc_ordered_list (lp_mac l) = lc_ordered_list m2) as El by (by rewrite (lo_frame _ _ _ _ _ _ I)).
  assert (forall i, i ∈ lc_ordered_list (lp_mac l) -> lcid i ∈ lcids m2) as Hin.
  { rewrite El. intros i Hi. apply list_elem_of_fmap. by exists i. }
  destruct (choose_bsr_ok (lp_mac l) room (LCG_bytes l) (lo_sched _ _ _ _ _ _ I)) as (bsr & -> & Hbsr); try done; try (subst room; lia).
  { intros i Hi. by apply (uo_range _ O), Hin. }
  { intros i Hi. rewrite (lo_group _ _ _ _ _ _ I) by by apply Hin. by apply (uo_group _ O), Hin. }
  cbn [res_bind].
  destruct (bsr_sent_ok (lp_mac l) _ _ _ Hbsr) as (m3 & -> & E1 & E2).
  { rewrite (lo_frame _ _ _ _ _ _ I). apply O. }
  { unfold lcids. rewrite El. rewrite (lo_frame _ _ _ _ _ _ I). apply O. }
  cbn [res_bind]. assert ((if phr_len c0 =? 0 then None else phr c0) = phr c0) as ->.
  { rewrite Hp. by destruct (phr c0). }
  rewrite write_ce_split, phr_bytes_length. rewrite <- Hp. change (pdu_end c0 - cur - phr_len c0) with room.
  pose proof (bsr_bytes_fit _ _ _ Hl8 Hbsr ltac:(subst room; lia)) as Hfit.
  destruct (Z.ltb_spec (pdu_end c0) (cur + Z.of_nat (length (phr_bytes (phr c0) ++ bsr_bytes bsr room)))) as [Hlt|_].
  { rewrite length_app, Nat2Z.inj_add, phr_bytes_length, <- Hp in Hlt. subst room. lia. }
  eexists m3, _, _, bsr, room. split; [reflexivity|]. cbn [buf update pdu_end]. rewrite E1, El.
  split_and!; try done; try (subst room; lia). apply (lo_pdu_end _ _ _ _ _ _ I).
Qed.

Lemma ul_get_sdu_ok s random pathloss buflen tx_power P_CMAX : Inv s [] -> 2 <= buflen <= MAX_TBS ->
  exists m' s' pdu sdus sent phr_ log b bsr room,
    nr_ue_get_sdu m s random pathloss buflen tx_power P_CMAX = Ok (m', s', Some pdu, sdus, sent) /\
    built random buflen tx_power P_CMAX phr_ m' s' pdu log b bsr room.
Proof.
  intros Hs Hb. unfold nr_ue_get_sdu.
  destruct (update_bsr_ok m H_m H_lcs) as (m1 & -> & F1 & R1). cbn [res_bind].
  set (lcg := lcg_sum m (lcids m) <$> seqZ 0 8).
  pose proof (ul_ok_same m m1 H_m (frame_same m m1 H_m F1)) as O1.
  destruct (pre_ok m1 pathloss buflen lcg tx_power P_CMAX ltac:(lia))
    as (m2 & c0 & -> & (p & Em2) & Ebuf & Eend & _ & Est & Ectr & Ephr & Eplen & Etail & Hc0).
  assert (lc_ordered_list m2 = lc_ordered_list m /\ lc_sched_info m2 = lc_sched_info m /\ phr_info m1 = phr_info m) as (El & Es & Ep).
  { rewrite Em2. by destruct F1 as (? & ? & ? & -> & _). }
  assert (ul_ok m2) as O2. { apply (ul_ok_same m1); [done|]. rewrite Em2. split; try done. apply O1. }
  assert (lcids m2 = lcids m) as Elc by (unfold lcids; by rewrite El).
  assert (forall c, sched_at m2 c = sched_at m c) as Eat by (intros c; unfold sched_at; by rewrite Es).
  destruct (lc_ordered_list m2) as [|i0 l0] eqn:E0; [by rewrite <- El in H_lcs|]. rewrite <- E0 in *. clear i0 l0 E0.
  destruct (ul_select_ok m2 O2) as (a & -> & Hsub & Ha). cbn [res_bind].
  assert (RlcDataLaws St (lcid <$> a) Inv) as La.
  { apply (laws_sub (lcids m)); [done|]. intros c Hc. rewrite <- Elc. unfold lcids.
    apply list_elem_of_fmap in Hc as (i & -> & Hi). apply list_elem_of_fmap. exists i. split; [done|]. by eapply elem_of_sublist. }
  set (l0 := mk_lcp m2 s c0 lcg _ 0 0 0).
  assert (lcp_ok m2 c0 a Inv l0 []) as I0.
  { split; unfold l0; cbn; try done; try (by rewrite ?Ebuf; constructor); try apply O2.
    - by intros x Hx%not_elem_of_nil.
    - unfold rest. rewrite Ebuf. cbn. lia.
    - by destruct m2.
    - intros c Hc. split; [by apply (uo_remain _ O2)|]. unfold chan_bytes. cbn. lia.
    - unfold lcg, lcg_sum, remain_at. rewrite Elc. apply list_fmap_ext. intros k g _. f_equal. apply list_fmap_ext.
      intros k' c _. by rewrite Eat.
    - by rewrite Est. }
  destruct (lcp_ok_rounds m2 c0 a Inv O2 Hsub (fun i Hi => proj1 (Ha i Hi)) ltac:(rewrite Eend; unfold MAX_TBS in Hb; lia) l0 [] I0)
    as (l' & log & -> & I' & _).
  { done. } { unfold pending_of, l0. cbn [lp_ce]. by rewrite Est. } { unfold rest, l0. cbn [lp_ce]. rewrite Ebuf. cbn. lia. }
  cbn [res_bind]. pose proof (groups_le m) as Hg8.
  pose proof (bsr_reserve_range m1 buflen lcg ltac:(lia)) as Hrr.
  destruct (post_ok m2 c0 a l' log O2 I' Eplen ltac:(lia) ltac:(lia)) as (m3 & c3 & snt & bsr & room & -> & Er & Hroom & Hbsr & Eb3 & Hfit & El3 & Es3 & Ee3).
  cbn [res_bind]. rewrite Eend in *.
  exists m3, (lp_rlc l'), (buf c3 ++ ul_padding random (pdu_end c3 - Z.of_nat (length (buf c3)))), (0 <? num_sdus c3), snt, (phr c0), log,
    (buf (lp_ce l')), bsr, room. split; [done|].
  assert (forall c, c ∈ lcids m -> sched_at m3 c = sched_at (lp_mac l') c) as Eat3 by (intros c _; unfold sched_at; by rewrite Es3).
  destruct (reserve_regular m1 lcg buflen (groups_with_data m) R1 eq_refl) as (Hres1 & Hres2 & Hres3).
  split.
  - apply I'.
  - apply I'.
  - intros x Hx. pose proof (lo_log _ _ _ _ _ _ I' x Hx) as Hxa.
    apply list_elem_of_fmap in Hxa as (i & E & Hi). exists i. rewrite <- El, <- Eat. split; [by eapply elem_of_sublist|]. split; [done|]. by apply Ha.
  - rewrite phr_bytes_length, <- Eplen. lia.
  - rewrite Ee3, Eb3, <- !app_assoc. do 4 f_equal. rewrite !length_app, !Nat2Z.inj_add, phr_bytes_length, <- Eplen. lia.
  - done.
  - intros H1 H2. specialize (Hres1 H1 H2). lia.
  - intros H1. specialize (Hres3 H1 ltac:(lia)). lia.
  - rewrite (lo_lcg _ _ _ _ _ _ I') in Hbsr. replace (lcg_sum m3 (lcids m) <$> seqZ 0 8) with (lcg_sum (lp_mac l') (lcids m2) <$> seqZ 0 8); [done|].
    apply list_fmap_ext. intros k g _. unfold lcg_sum, remain_at. rewrite Elc. f_equal. apply list_fmap_ext.
    intros k' c Hc. by rewrite Eat3 by by eapply list_elem_of_lookup_2.
  - intros Hc1 Hc2 Hc3. rewrite Ephr. unfold phr_due. rewrite Ep, Hc1, (proj2 (Z.ltb_lt 0 _) Hc2). cbn [andb].
    destruct (Z.leb_spec (bsr_reserve m1 buflen lcg + 3) buflen); [exists pathloss; reflexivity|lia].
  - intros ce. rewrite Ephr. unfold phr_due. rewrite Ep. destruct (_ && _); [|discriminate]. intros [= <-]. exists pathloss. reflexivity.
  - by rewrite El3.
  - intros c Hc. rewrite Eat3 by done. rewrite (lo_group _ _ _ _ _ _ I') by (by rewrite Elc). by rewrite Eat.
  - intros c Hc. unfold remain_at. rewrite Eat3 by done. fold (remain_at (lp_mac l') c).
    pose proof (lo_remain _ _ _ _ _ _ I' c ltac:(by rewrite Elc)) as Hrm. unfold remain_at in *. by rewrite Eat in Hrm.
Qed.
End Build.

(** ** What the gNB makes of the reports *)

(** the largest number of bytes that an index stands for *)
Definition MAX_REPORTED : Z := 81338368.

Lemma sum_groups m l : (forall c, c ∈ l -> 0 <= LCGID (sched_at m c) < 8) ->
  sum_Z (lcg_sum m l <$> seqZ 0 8) = sum_Z (remain_at m <$> l).
Proof.
  change (seqZ 0 8) with [0; 1; 2; 3; 4; 5; 6; 7]. induction l as [|c l IH]; intros H; [done|].
  specialize (IH ltac:(intros d Hd; apply H; by right)). pose proof (H c ltac:(by left)) as Hc.
  unfold lcg_sum, sum_Z in *. cbn [fmap list_fmap foldr] in *. rewrite <- IH. clear IH.
  set (g := LCGID (sched_at m c)) in *. set (r := remain_at m c).
  assert (g = 0 \/ g = 1 \/ g = 2 \/ g = 3 \/ g = 4 \/ g = 5 \/ g = 6 \/ g = 7) as Hg by lia.
  repeat destruct Hg as [Hg|Hg]; rewrite Hg; cbn [Z.eqb Pos.eqb]; lia.
Qed.

Lemma filter_count_le (f g : Z -> Z) l : (forall x, x ∈ l -> f x <> 0 -> g x <> 0) ->
  (length (filter (fun b : Z => b <> 0%Z) (f <$> l)) <= length (filter (fun b : Z => b <> 0%Z) (g <$> l)))%nat.
Proof.
  induction l as [|x l IH]; intros H; [done|]. cbn [fmap list_fmap]. rewrite !filter_cons.
  specialize (IH ltac:(intros y Hy; apply H; by right)). pose proof (H x ltac:(by left)) as Hx.
  destruct (decide (f x <> 0)), (decide (g x <> 0)); cbn [length]; try lia. all: exfalso; auto.
Qed.

(** the octets of a report for [lcg] *)
Definition indices_of (lcg idx : list Z) : Prop :=
  Forall2 (fun b i => 0 <= i < 256 /\ nr_locate_BsrIndexByBufferSize NR_LONG_BSR_TABLE_SIZE b = Ok i /\ (i = 0 <-> b = 0)) lcg idx.

Lemma indices_cover lcg idx : indices_of lcg idx -> Forall (fun b => 0 <= b <= MAX_REPORTED) lcg ->
  Forall (fun b => 0 <= b <= max_octet) idx /\ sum_Z lcg <= sum_Z (octet_bytes <$> idx) /\
  length (filter (fun b => b <> 0) idx) = length (filter (fun b => b <> 0) lcg).
Proof.
  intros H. induction H as [|b i lcg idx (Hi & E & H0) _ IH]; intros Hl; [split_and!; [constructor|done|done]|].
  apply Forall_cons in Hl as [Hb Hl]. destruct (IH Hl) as (IH1 & IH2 & IH3).
  destruct (octet_covers b i Hb E) as [Hm Ho]. split; [by constructor|]. split.
  - unfold sum_Z in *. cbn [fmap list_fmap foldr]. lia.
  - rewrite !filter_cons. destruct (decide (i <> 0)), (decide (b <> 0)); cbn [length]; try (by rewrite IH3); exfalso; naive_solver.
Qed.

(** the power headroom in dB that the gNB takes from a report *)
Definition headroom_read (h ph0 : Z) : Prop := (-32 <= h < 22 -> ph0 = h) /\ (22 <= h <= 38 -> h <= ph0 <= h + 2).

Lemma fill_phr_read p i P_CMAX tx_power : let ce := fst (nr_ue_fill_phr p i P_CMAX tx_power) in
  0 <= PH ce < 64 /\ 0 <= PCMAX ce < 64 /\ headroom_read (P_CMAX - tx_power) (ph_of_index (PH ce)) /\
  (-29 <= P_CMAX <= 34 -> PCMAX ce - 29 = P_CMAX).
Proof.
  cbn. set (h := P_CMAX - tx_power). change 63 with (Z.ones 6). rewrite Z.land_ones by lia. change (2 ^ 6) with 64. change (Z.ones 6) with 63.
  pose proof (Z.mod_pos_bound (Z.max 0 (P_CMAX + 29)) 64 ltac:(lia)).
  unfold headroom_read, ph_of_index. destruct (Z.ltb_spec h 22).
  - split_and!; try lia; [|intros; rewrite Z.mod_small; lia]. destruct (Z.ltb_spec (Z.max 0 (h + 32)) 55); lia.
  - rewrite Z.quot_div_nonneg by lia. pose proof (Z.div_mod (h - 22) 2 ltac:(lia)). pose proof (Z.mod_pos_bound (h - 22) 2 ltac:(lia)).
    split_and!; try lia; [|intros; rewrite Z.mod_small; lia].
    destruct (Z.ltb_spec (Z.min 63 (55 + (h - 22) / 2)) 55); [lia|].
    destruct (Z.ltb_spec (Z.min 63 (55 + (h - 22) / 2)) 63); lia.
Qed.

Section Received.
Context (initial_ok : bool) (ph_factor harq_pid : Z) (H_pid : 0 <= harq_pid).
Abbreviation ul_parses := (ul_parses initial_ok ph_factor harq_pid).
#[local] Set Default Proof Using "All".

Lemma parse_phr u n phr_ h P_CMAX : (forall ce, phr_ = Some ce -> 0 <= PH ce < 64 /\ 0 <= PCMAX ce < 64 /\
    headroom_read h (ph_of_index (PH ce)) /\ (-29 <= P_CMAX <= 34 -> PCMAX ce - 29 = P_CMAX)) ->
  exists u', ul_parses (phr_bytes phr_) u n u' n /\ rlc_inds u' = rlc_inds u /\
    (phr_ <> None -> headroom_read h (ul_ph0 u') /\ (-29 <= P_CMAX <= 34 -> ul_pcmax u' = P_CMAX)).
Proof.
  intros H. destruct phr_ as [ce|].
  - destruct (H ce eq_refl) as (Hp & Hc & Hr & Hm). eexists. split; [by apply ul_parses_phr|]. done.
  - exists u. split; [apply ul_parses_nil|done].
Qed.

Lemma parse_bsr u n lcg room bsr : bsr_for lcg room bsr -> length lcg = 8%nat -> Forall (fun b => 0 <= b <= MAX_REPORTED) lcg ->
  0 <= room -> exists u', ul_parses (bsr_bytes bsr room) u n u' n /\ rlc_inds u' = rlc_inds u /\ ul_ph0 u' = ul_ph0 u /\ ul_pcmax u' = ul_pcmax u /\
    (3 <= room -> Z.of_nat (length (filter (fun b => b <> 0) lcg)) + 3 <= room -> sum_Z lcg <= estimated_ul_buffer u').
Proof.
  intros Hb Hl8 Hl Hr. assert (Hlong : forall lcid idx, lcid = UL_SCH_LCID_L_TRUNCATED_BSR \/ lcid = UL_SCH_LCID_L_BSR ->
    indices_of lcg idx -> 3 <= room -> exists u', ul_parses (long_bsr_ce lcid idx (room - 3)) u n u' n /\ rlc_inds u' = rlc_inds u /\
      ul_ph0 u' = ul_ph0 u /\ ul_pcmax u' = ul_pcmax u /\
      (3 <= room -> Z.of_nat (length (filter (fun b => b <> 0) lcg)) + 3 <= room -> sum_Z lcg <= estimated_ul_buffer u')).
  { intros c idx Hc Hi H3. destruct (indices_cover lcg idx Hi Hl) as (Hm & Hsum & Hcnt).
    eexists. split; [apply ul_parses_long; [done|by rewrite <- (Forall2_length _ _ _ Hi)|done|lia]|].
    split; [done|]. split; [done|]. split; [done|]. intros _ Hroom. cbn [estimated_ul_buffer update].
    rewrite lcg_octets_all; [done|rewrite Hcnt; lia|done]. }
  unfold bsr_bytes, nr_write_ce_ulsch_pdu. cbn [app length Z.of_nat]. rewrite Z.sub_0_r.
  destruct Hb as [Hn|g i Hrm Hi|idx Hx Hi|idx Hx Hi].
  - exists u. split; [apply ul_parses_nil|]. split_and!; try done. lia.
  - destruct (ul_parses_short initial_ok ph_factor harq_pid u n g i) as (e & _ & Hp). eexists. split; [exact Hp|]. split_and!; try done. lia.
  - apply Hlong; [by left|done|lia].
  - apply Hlong; [by right|done|lia].
Qed.
End Received.

Lemma ul_padding_length random n : (forall r, random = Some r -> forall k, 0 <= k -> blen (r k) = k) -> 0 <= n -> blen (ul_padding random n) = n.
Proof.
  intros Hr Hn. unfold ul_padding. destruct (Z.eqb_spec n 0) as [->|]; [done|]. cbn [NR_MAC_SUBHEADER_FIXED app length].
  destruct random as [r|]; [specialize (Hr r eq_refl (n - 1) ltac:(lia)); lia|]. rewrite length_replicate. lia.
Qed.

(** sending leaves no group with more bytes *)
Lemma reported_small m m' log : ul_ok m -> sum_Z (remain_at m <$> lcids m) <= MAX_REPORTED ->
  (forall c, c ∈ lcids m -> 0 <= remain_at m' c /\ remain_at m' c = remain_at m c - chan_bytes log c) ->
  (forall c, c ∈ lcids m -> LCGID (sched_at m' c) = LCGID (sched_at m c)) ->
  length (lcg_sum m' (lcids m) <$> seqZ 0 8) = 8%nat /\
  Forall (fun b => 0 <= b <= MAX_REPORTED) (lcg_sum m' (lcids m) <$> seqZ 0 8) /\
  Z.of_nat (length (filter (fun b => b <> 0) (lcg_sum m' (lcids m) <$> seqZ 0 8))) <= groups_with_data m.
Proof.
  intros O Ht Hr Hg. split; [by rewrite length_fmap, length_seqZ|].
  assert (forall c, c ∈ lcids m -> remain_at m' c <= remain_at m c) as Hle.
  { intros c Hc. pose proof (Hr c Hc). pose proof (chan_bytes_nonneg log c). lia. }
  assert (forall g, 0 <= lcg_sum m' (lcids m) g <= lcg_sum m (lcids m) g) as Hs.
  { intros g. split; [apply lcg_sum_le; intros c Hc; by apply Hr|]. unfold lcg_sum. apply sum_Z_le. intros c Hc.
    rewrite Hg by done. specialize (Hle c Hc). destruct (_ =? g); lia. }
  split.
  - apply Forall_fmap, Forall_forall. intros g _. cbn. specialize (Hs g).
    pose proof (lcg_sum_le m (lcids m) g ltac:(intros c Hc; by apply (uo_remain m O))). lia.
  - unfold groups_with_data. apply inj_le, filter_count_le. intros g _ Hn. specialize (Hs g). lia.
Qed.


(** an SRB and a DRB in two groups, with a power headroom report due *)
Definition timer_off : NR_timer_t := mk_timer false false 0 100 1.
Definition ue_example : ul_mac :=
  mk_ul_mac
    [mk_lc 1 0 1 UINT_MAX UINT_MAX false false (NR_LCID_SRB 1) false;
     mk_lc 4 0 5 8000 40000 false false (NR_LCID_DRB 1) false]
    (mk_lc_sched 12 0 INT_MAX timer_off :: replicate 2 no_sched ++ mk_lc_sched 30 1 8 timer_off :: replicate 28 no_sched)
    (replicate 8 (mk_sr false false 0 timer_off)) 0 0 timer_off timer_off timer_off
    (mk_phr true timer_off timer_off 0 3 1).
Definition ul_queues : pdu_queues := fun c =>
  if c =? 1 then [[1; 2; 3; 4]] else if c =? 4 then [replicate 10 7; replicate 20 9] else [].
Definition gnb_example : ul_ue :=
  mk_ul_ue [mk_lc_config 1 false 1; mk_lc_config 4 false 5] true true false 0 0 0 0 0 0 (replicate 64 0) [].

Lemma ue_example_ok : ul_ok ue_example.
Proof.
  assert (lcids ue_example = [1; 4]) as E by done.
  split; rewrite ?E.
  - by apply (bool_decide_unpack _).
  - intros c Hc. apply elem_of_cons in Hc as [->|Hc%list_elem_of_singleton]; [lia|subst c; lia].
  - done.
  - intros c Hc. apply elem_of_cons in Hc as [->|Hc%list_elem_of_singleton]; [|subst c]; vm_compute; split; done.
  - intros c Hc. apply elem_of_cons in Hc as [->|Hc%list_elem_of_singleton]; [|subst c]; vm_compute; done.
  - by vm_compute.
  - intros i Hi. apply elem_of_cons in Hi as [->|Hi%list_elem_of_singleton]; [|subst i]; vm_compute; split; done.
  - intros i Hi. apply elem_of_cons in Hi as [->|Hi%list_elem_of_singleton]; [|subst i]; vm_compute; done.
  - done.
  - by left.
Qed.

Lemma gnb_example_ready : gnb_ready gnb_example (lcids ue_example).
Proof.
  split; [|done|by apply Nat.ltb_lt]. intros c Hc. change (lcids ue_example) with [1; 4] in Hc.
  apply elem_of_cons in Hc as [->|Hc%list_elem_of_singleton]; [|subst c]; (split; [lia|]; split; [done|]; by eexists).
Qed.

