(* ===== verification/MacUlLimits.v ===== *)
(** * Where the uplink of the UE loses its bytes

    A grant of three bytes makes the gNB forget the data of a UE; a channel
    with the prioritised bit rate 0 is never served; an SRB with the default
    configuration ends the program. *)
From S2P Require Import Prelude NrTimer MacPdu MacBsr MacRlc RlcApi MacDlSpec MacUlLc MacUl MacUlGnb MacUlLcp MacUlParse MacUlSpec.

(** ** A report without octets *)

Lemma ul_subs_short log b : ul_subs log b -> log = [] /\ b = [] \/ 3 <= blen b.
Proof.
  intros H. destruct H as [|log b c sdu h H Hc Hne Hh]; [by left|]. right.
  rewrite !length_app, !Nat2Z.inj_add, sdu_header_length by lia. destruct sdu; [done|]. cbn [length]. lia.
Qed.

Lemma lcg_octets_no_room l : (lcg_octets l 0).2 = [].
Proof. induction l as [|b l IH]; [done|]. cbn [lcg_octets]. rewrite andb_false_r. by destruct (lcg_octets l 0). Qed.

(** C36: a grant of three bytes to a UE with bytes waiting carries a truncated
    report without an octet: the gNB takes the UE for one that has nothing to
    send, whatever it knew before. *)
Theorem three_byte_grant_hides_data {St} `{RlcData St} (m : ul_mac) Inv `{!RlcDataLaws St (lcids m) Inv} s random pathloss tx_power P_CMAX
    initial_ok ph_factor harq_pid u :
  ul_ok m -> lc_ordered_list m <> [] -> sum_Z (remain_at m <$> lcids m) <= MAX_REPORTED -> Inv s [] -> 0 <= harq_pid ->
  (forall r, random = Some r -> forall k, 0 <= k -> blen (r k) = k) -> 0 < groups_with_data m ->
  exists m' s' pdu sdus sent u', nr_ue_get_sdu m s random pathloss 3 tx_power P_CMAX = Ok (m', s', Some pdu, sdus, sent) /\
    (forall c, c ∈ lcids m -> remain_at m' c = remain_at m c) /\
    nr_process_mac_pdu initial_ok ph_factor harq_pid u pdu = Ok (u', 0) /\ rlc_inds u' = rlc_inds u /\ estimated_ul_buffer u' = 0.
Proof.
  intros O Hne Htot Hs Hpid Hrand Hg.
  destruct (ul_get_sdu_ok m Inv O Hne s random pathloss 3 tx_power P_CMAX Hs ltac:(unfold MAX_TBS; lia))
    as (m' & s' & pdu & sdus & sent & phr_ & log & b & bsr & room & E & [Bi Bs Bl [Br Br0] Bp Bf _ Bres Bbsr Bphr Bce Blist Bg Brem]).
  specialize (Bres Hg). rewrite (phr_bytes_length) in Br.
  destruct phr_ as [ce|]; [lia|]. destruct (ul_subs_short log b Bs) as [[-> ->]|Hb]; [|lia]. assert (room = 3) as -> by (cbn in Br; lia). clear Br.
  pose proof (reported_small m m' [] O Htot Brem Bg) as (Hl8 & Hlf & _).
  inversion Bbsr as [|g i Hr|idx Hx Hi Eb|idx Hx Hi Eb]; try lia. subst bsr.
  destruct (indices_cover _ _ Hi Hlf) as (Hm & _ & _).
  pose proof (ul_parses_long initial_ok ph_factor harq_pid u 0 UL_SCH_LCID_L_TRUNCATED_BSR idx 0 (or_introl eq_refl)
    ltac:(by rewrite <- (Forall2_length _ _ _ Hi)) Hm ltac:(lia)) as P.
  rewrite lcg_octets_no_room in P. change (long_bsr_ce UL_SCH_LCID_L_TRUNCATED_BSR idx 0) with (bsr_bytes (b_long_trunc idx) 3) in P.
  assert (blen (bsr_bytes (b_long_trunc idx) 3) = 3) as E3.
  { change (bsr_bytes (b_long_trunc idx) 3) with (long_bsr_ce UL_SCH_LCID_L_TRUNCATED_BSR idx 0). unfold long_bsr_ce.
    pose proof (lcg_octets_no_room idx) as E0. destruct (lcg_octets idx 0) as [f o]. cbn [snd] in E0. by subst o. }
  destruct (parse_ul_whole initial_ok ph_factor harq_pid u (bsr_bytes (b_long_trunc idx) 3) random 0 _ _ ltac:(intros E0; apply (f_equal length) in E0; rewrite length_app in E0; cbn [length] in E0; lia)
    ltac:(lia) Hrand P) as (u' & Eu & Hu).
  rewrite E3 in Bp. change (pdu = bsr_bytes (b_long_trunc idx) 3 ++ ul_padding random 0) in Bp.
  exists m', s', pdu, sdus, sent, u'. split; [done|]. split; [intros c Hc; destruct (Brem c Hc) as [_ ->]; unfold chan_bytes; cbn; lia|].
  split; [rewrite Bp; done|]. by destruct Hu as [->|[k ->]].
Qed.

Lemma three_byte_grant_hides_data_witness : exists m' s' pdu sdus sent u',
  nr_ue_get_sdu ue_example ul_queues None 80 3 10 23 = Ok (m', s', Some pdu, sdus, sent) /\ remain_at m' 1 = 12 /\
  nr_process_mac_pdu true 0 0 (gnb_example <| estimated_ul_buffer := 42 |>) pdu = Ok (u', 0) /\ estimated_ul_buffer u' = 0.
Proof.
  destruct (three_byte_grant_hides_data ue_example _ (H := queues_data) (RlcDataLaws0 := queues_laws (lcids ue_example)) ul_queues None 80 10 23
    true 0 0 (gnb_example <| estimated_ul_buffer := 42 |>)) as (m' & s' & pdu & sdus & sent & u' & E & Er & Eg & _ & Ee).
  - apply ue_example_ok.
  - done.
  - by vm_compute.
  - intros l. unfold ul_queues. destruct (l =? 1); [|destruct (l =? 4)]; repeat constructor.
  - lia.
  - done.
  - by vm_compute.
  - exists m', s', pdu, sdus, sent, u'. split; [exact E|]. split; [|by split]. rewrite Er by by left. done.
Defined.

(** ** The buckets *)

(** the bucket of a channel after its update *)
Definition bucket_of (scs : Z) (lc : nr_lcordered_info_t) (i : NR_LC_SCHEDULING_INFO) : NR_LC_SCHEDULING_INFO :=
  let bj := if pbr lc <? UINT_MAX then i32 (u32 (Bj i + Z.shiftr (u32 (pbr lc / 1000 * nr_timer_elapsed_time (Bj_timer i))) scs)) else INT_MAX in
  i <| Bj := bucket_min bj (bucket_size lc) |> <| Bj_timer := nr_timer_start (Bj_timer i) |>.

Lemma update_Bj_fold scs l : forall m, length (lc_sched_info m) = NR_MAX_NUM_LCID -> NoDup (lcid <$> l) -> (forall i, i ∈ l -> 1 <= lcid i <= 32) ->
  exists m', fold_res (fun m lc_info =>
      let* i := get_scheduling_info_from_lcid m (lcid lc_info) in
      let bj :=
        if pbr lc_info <? UINT_MAX then
          let pbr_ms := pbr lc_info / 1000 in
          i32 (u32 (Bj i + Z.shiftr (u32 (pbr_ms * nr_timer_elapsed_time (Bj_timer i))) scs))
        else INT_MAX in
      set_scheduling_info m (lcid lc_info)
        (i <| Bj := bucket_min bj (bucket_size lc_info) |> <| Bj_timer := nr_timer_start (Bj_timer i) |>)) l m = Ok m' /\
    m' = m <| lc_sched_info := lc_sched_info m' |> /\ length (lc_sched_info m') = NR_MAX_NUM_LCID /\
    (forall d, 1 <= d <= 32 -> d ∉ lcid <$> l -> sched_at m' d = sched_at m d) /\
    (forall i, i ∈ l -> sched_at m' (lcid i) = bucket_of scs i (sched_at m (lcid i))).
Proof.
  induction l as [|i l IH]; intros m Hlen Hnd Hr.
  { exists m. split_and!; try done; [by destruct m|]. by intros i Hi%not_elem_of_nil. }
  cbn [fold_res]. pose proof (Hr i ltac:(by left)) as Hi. rewrite (get_sched_ok m Hlen) by done. cbn [res_bind].
  apply NoDup_cons in Hnd as [Hnin Hnd].
  destruct (set_sched_ok m Hlen (lcid i) (bucket_of scs i (sched_at m (lcid i))) Hi) as (m1 & E1 & Em1 & Hl1 & Hat).
  match goal with |- context [set_scheduling_info m (lcid i) ?x] => change (set_scheduling_info m (lcid i) x) with (set_scheduling_info m (lcid i) (bucket_of scs i (sched_at m (lcid i)))) end.
  rewrite E1. cbn [res_bind].
  destruct (IH m1 Hl1 Hnd ltac:(intros j Hj; apply Hr; by right)) as (m' & E2 & Em' & Hl' & Hout & Hin).
  exists m'. split; [exact E2|]. split; [rewrite Em', Em1; by destruct m|]. split; [done|]. split.
  - intros d Hd Hnd'. rewrite Hout, Hat by (try done; intros Hc; apply Hnd'; by right).
    destruct (Z.eqb_spec d (lcid i)) as [->|]; [|done]. exfalso. apply Hnd'. by left.
  - intros j Hj. apply elem_of_cons in Hj as [->|Hj].
    + rewrite Hout, Hat, Z.eqb_refl by done. done.
    + rewrite Hin by done. rewrite Hat by (apply Hr; by right). destruct (Z.eqb_spec (lcid j) (lcid i)) as [E|]; [|done].
      exfalso. apply Hnin. rewrite <- E. apply list_elem_of_fmap. by exists j.
Qed.

Lemma update_Bj_ok scs m : length (lc_sched_info m) = NR_MAX_NUM_LCID -> NoDup (lcids m) -> (forall c, c ∈ lcids m -> 1 <= c <= 32) ->
  exists m', update_Bj scs m = Ok m' /\ m' = m <| lc_sched_info := lc_sched_info m' |> /\ length (lc_sched_info m') = NR_MAX_NUM_LCID /\
    (forall i, i ∈ lc_ordered_list m -> sched_at m' (lcid i) = bucket_of scs i (sched_at m (lcid i))).
Proof.
  intros Hl Hnd Hr. destruct (update_Bj_fold scs (lc_ordered_list m) m Hl Hnd) as (m' & E & Em & Hl' & _ & Hin).
  { intros i Hi. apply Hr, list_elem_of_fmap. by exists i. }
  by exists m'.
Qed.

Lemma update_Bj_keeps scs m m' : ul_ok m -> update_Bj scs m = Ok m' -> ul_ok m' /\ lc_ordered_list m' = lc_ordered_list m /\
  (forall c, c ∈ lcids m -> remain_at m' c = remain_at m c) /\
  (forall i, i ∈ lc_ordered_list m -> sched_at m' (lcid i) = bucket_of scs i (sched_at m (lcid i))).
Proof.
  intros O E. destruct (update_Bj_ok scs m (uo_sched m O) (uo_nodup m O) (uo_range m O)) as (m1 & E1 & Em & Hl & Hin).
  rewrite E in E1. injection E1 as <-.
  assert (lc_ordered_list m' = lc_ordered_list m) as El by by rewrite Em.
  assert (lcids m' = lcids m) as Elc by (unfold lcids; by rewrite El).
  assert (forall c, c ∈ lcids m -> exists i, i ∈ lc_ordered_list m /\ c = lcid i) as Hc.
  { intros c Hc. apply list_elem_of_fmap in Hc as (i & -> & Hi). by exists i. }
  assert (forall c, c ∈ lcids m -> remain_at m' c = remain_at m c) as Hrem.
  { intros c Hci. destruct (Hc c Hci) as (i & Hi & ->). unfold remain_at. by rewrite Hin. }
  split; [|done]. split; rewrite ?Elc, ?El; try apply O; try done.
  - intros c Hci. destruct (Hc c Hci) as (i & Hi & ->). rewrite Hin by done. by apply (uo_group m O).
  - intros c Hci. rewrite Hrem by done. by apply (uo_remain m O).
  - rewrite (sum_Z_ext (remain_at m') (remain_at m)) by done. apply O.
  - rewrite Em. apply O.
  - rewrite Em. apply O.
Qed.

Lemma config_kBps0 m lc p rb m' lc' : nr_configure_lc_config m lc (Some p) rb = Ok (m', lc') -> prioritisedBitRate p = 0 ->
  pbr lc' = 0 /\ bucket_size lc' = 0.
Proof.
  intros E Hp. unfold nr_configure_lc_config in E. destruct (get_scheduling_info_from_lcid _ _) as [i|]; [|done]. cbn [res_bind] in E.
  rewrite Hp in E. change (nr_get_pbr 0) with (Ok 0) in E. cbn [res_bind] in E.
  unfold get_lc_bucket_size in E. change (nr_get_pbr 0) with (Ok 0) in E. cbn [res_bind] in E.
  change (0 =? prioritisedBitRate_infinity) with false in E. cbn iota in E.
  destruct (nr_get_ms_bucketsizeduration _) as [bsd|]; [|done]. cbn [res_bind] in E.
  destruct (set_scheduling_info _ _ _) as [m1|]; [|done]. cbn [res_bind] in E. injection E as <- <-. done.
Qed.

Lemma chan_bytes_none log c : (forall x, x ∈ log -> fst x <> c) -> chan_bytes log c = 0.
Proof.
  unfold chan_bytes, sum_Z. induction log as [|x log IH]; intros H; [done|]. cbn [fmap list_fmap foldr].
  rewrite IH by (intros y Hy; apply H; by right). destruct (Z.eqb_spec (fst x) c) as [E|]; [|done].
  exfalso. apply (H x); [by left|done].
Qed.

(** C37: a channel that RRC configures with the prioritised bit rate 0 sends
    nothing, whatever waits in it and however large the grants are: its bucket
    is always empty, and the channels with an empty bucket are left out of all
    passes, not only of the first. *)
Theorem kBps0_never_served {St} `{RlcData St} m0 lc p rb m1 i scs (m m' : ul_mac) Inv `{!RlcDataLaws St (lcids m') Inv}
    s random pathloss buflen tx_power P_CMAX :
  nr_configure_lc_config m0 lc (Some p) rb = Ok (m1, i) -> prioritisedBitRate p = 0 ->
  ul_ok m -> i ∈ lc_ordered_list m -> update_Bj scs m = Ok m' -> Inv s [] -> 2 <= buflen <= MAX_TBS ->
  exists m'' s' pdu sdus sent log b reports, nr_ue_get_sdu m' s random pathloss buflen tx_power P_CMAX = Ok (m'', s', Some pdu, sdus, sent) /\
    pdu = b ++ reports /\ ul_subs log b /\ Inv s' log /\ (forall x, x ∈ log -> fst x <> lcid i) /\
    remain_at m'' (lcid i) = remain_at m (lcid i).
Proof.
  intros Ecfg Hp O Hi Eup Hs Hb. destruct (config_kBps0 _ _ _ _ _ _ Ecfg Hp) as [Hpbr Hbk].
  destruct (update_Bj_keeps scs m m' O Eup) as (O' & El & Hrem & Hat).
  assert (lcid i ∈ lcids m) as Hc by (apply list_elem_of_fmap; by exists i).
  assert (lcids m' = lcids m) as Elc by (unfold lcids; by rewrite El).
  assert (lc_ordered_list m' <> []) as Hne by (rewrite El; intros E0; rewrite E0 in Hi; by apply not_elem_of_nil in Hi).
  assert (Bj (sched_at m' (lcid i)) = 0) as HBj.
  { rewrite Hat by done. unfold bucket_of, bucket_min. cbn. rewrite Hbk. destruct (Z.ltb_spec (u32 (if pbr i <? UINT_MAX then
      i32 (u32 (Bj (sched_at m (lcid i)) + Z.shiftr (u32 (pbr i / 1000 * nr_timer_elapsed_time (Bj_timer (sched_at m (lcid i))))) scs)) else INT_MAX)) 0) as [Hlt|]; [|done].
    unfold u32 in Hlt at 1. match type of Hlt with ?x mod ?y < 0 => pose proof (Z.mod_pos_bound x y ltac:(lia)) end. lia. }
  destruct (ul_get_sdu_ok m' Inv O' Hne s random pathloss buflen tx_power P_CMAX Hs Hb)
    as (m'' & s' & pdu & sdus & sent & phr_ & log & b & bsr & room & E & [Bi Bs Bl _ Bp _ _ _ _ _ _ _ _ Brem]).
  assert (forall x, x ∈ log -> fst x <> lcid i) as Hlog.
  { intros x Hx E0. destruct (Bl x Hx) as (j & Hj & Ej & _ & Hpos). rewrite E0 in Ej. rewrite <- Ej in Hpos. lia. }
  eexists m'', s', pdu, sdus, sent, log, b, _. split; [exact E|]. split; [exact Bp|]. split; [done|]. split; [done|]. split; [done|].
  destruct (Brem (lcid i) ltac:(by rewrite Elc)) as [_ ->]. rewrite Hrem by done.
  rewrite (chan_bytes_none log (lcid i) Hlog). lia.
Qed.

(** the DRB of the example, configured with the prioritised bit rate 0 *)
Definition parm_kBps0 : ul_SpecificParameters := mk_ul_parm 5 0 4 (Some 1) None false false.
Definition lc_kBps0 : nr_lcordered_info_t := mk_lc 4 (-1) 5 0 0 false false (NR_LCID_DRB 1) false.
Definition ue_kBps0 : ul_mac := ue_example <| lc_ordered_list := [mk_lc 1 0 1 UINT_MAX UINT_MAX false false (NR_LCID_SRB 1) false; lc_kBps0] |>.

Lemma ue_kBps0_ok : ul_ok ue_kBps0.
Proof.
  destruct ue_example_ok. split; try done;
    intros i Hi; (apply elem_of_cons in Hi as [->|Hi%list_elem_of_singleton]; [|subst i]); by vm_compute.
Qed.

Lemma kBps0_never_served_witness : exists m1 m' m'' s' pdu sdus sent,
  nr_configure_lc_config ue_example (new_lc 4) (Some parm_kBps0) (NR_LCID_DRB 1) = Ok (m1, lc_kBps0) /\
  update_Bj 1 ue_kBps0 = Ok m' /\
  nr_ue_get_sdu m' ul_queues None 80 1000 10 23 = Ok (m'', s', Some pdu, sdus, sent) /\ remain_at m'' 4 = 30.
Proof.
  destruct (nr_configure_lc_config ue_example (new_lc 4) (Some parm_kBps0) (NR_LCID_DRB 1)) as [[m1 i]|] eqn:Ec; [|by vm_compute in Ec].
  assert (i = lc_kBps0) as -> by (vm_compute in Ec; by injection Ec).
  destruct (update_Bj 1 ue_kBps0) as [m'|] eqn:Eu; [|by vm_compute in Eu].
  destruct (kBps0_never_served ue_example (new_lc 4) parm_kBps0 (NR_LCID_DRB 1) m1 lc_kBps0 1 ue_kBps0 m' _ (H := queues_data)
    (RlcDataLaws0 := queues_laws (lcids m')) ul_queues None 80 1000 10 23)
    as (m'' & s' & pdu & sdus & sent & log & b & reports & E & _ & _ & _ & _ & Er); try done.
  - apply ue_kBps0_ok.
  - by right; left.
  - intros l. unfold ul_queues. destruct (l =? 1); [|destruct (l =? 4)]; repeat constructor.
  - exists m1, m', m'', s', pdu, sdus, sent. done.
Defined.

(** ** An SRB with the default configuration *)

Lemma retx_bsr_ok m l : length (lc_sched_info m) = NR_MAX_NUM_LCID -> (forall i, i ∈ l -> 1 <= lcid i <= 32) ->
  exists m', retx_bsr m l = Ok m' /\ lc_sched_info m' = lc_sched_info m.
Proof.
  intros Hl. induction l as [|i l IH]; intros Hr; [by exists m|]. cbn [retx_bsr].
  rewrite (get_sched_ok m Hl) by (apply Hr; by left). cbn [res_bind].
  destruct (negb _ && _); [by eexists|]. apply IH. intros j Hj. apply Hr. by right.
Qed.

(** a bucket timer that expires ends the program *)
Lemma timers_exit pathloss m c : length (lc_sched_info m) = NR_MAX_NUM_LCID -> (forall i, i ∈ lc_ordered_list m -> 1 <= lcid i <= 32) ->
  1 <= c <= 32 -> snd (nr_timer_tick (Bj_timer (sched_at m c))) = true -> update_mac_ul_timers pathloss m = Err Exit.
Proof.
  intros Hl Hr Hc Ht. unfold update_mac_ul_timers.
  set (m1 := m <| sr_info := _ |> <| sr_DelayTimer := _ |>).
  destruct (nr_timer_tick (retxBSR_Timer m1)) as [t ex]. set (m2 := m1 <| retxBSR_Timer := t |>).
  assert (exists m3, (if ex then retx_bsr m2 (lc_ordered_list m2) else Ok m2) = Ok m3 /\ lc_sched_info m3 = lc_sched_info m) as (m3 & -> & E3).
  { destruct ex; [|by exists m2]. by apply (retx_bsr_ok m2 (lc_ordered_list m2)). }
  cbn [res_bind]. destruct (nr_timer_tick (periodicBSR_Timer m3)) as [t' ex'].
  set (m4 := if ex' then _ else _).
  assert (lc_sched_info m4 = lc_sched_info m) as E4 by (unfold m4; destruct ex'; exact E3). rewrite E4.
  assert (existsb (fun i => snd (nr_timer_tick (Bj_timer i))) (lc_sched_info m) = true) as ->; [|done].
  apply existsb_exists. exists (sched_at m c). split; [|done]. apply list_elem_of_In. unfold sched_at.
  destruct (lookup_lt_is_Some_2 (lc_sched_info m) (Z.to_nat (c - 1))) as [x Hx]; [rewrite Hl; unfold NR_MAX_NUM_LCID; lia|].
  rewrite Hx. by eapply list_elem_of_lookup_2.
Qed.

Definition zero_timer : NR_timer_t := mk_timer false false 0 0 0.

Lemma add_default_srb m b srb : length (lc_sched_info m) = NR_MAX_NUM_LCID -> 1 <= srb <= 32 ->
  servedRadioBearer b = NR_LCID_SRB srb -> logicalChannelIdentity b = srb -> srb ∉ lcids m ->
  (mac_LogicalChannelConfig b = None \/ mac_LogicalChannelConfig b = Some None) ->
  exists m' lc, add_bearer m b = Ok m' /\ lc_ordered_list m' = lc_ordered_list m ++ [lc] /\ lcid lc = srb /\
    length (lc_sched_info m') = NR_MAX_NUM_LCID /\ Bj_timer (sched_at m' srb) = Bj_timer (sched_at m srb).
Proof.
  intros Hl Hr Hrb Hid Hnin Hcfg. unfold add_bearer. rewrite Hrb, Hid.
  destruct (list_find _ _) as [[j i]|] eqn:E.
  { exfalso. apply list_find_Some in E as (Hj & Hi & _). apply Hnin, list_elem_of_fmap. exists i. split; [done|]. by eapply list_elem_of_lookup_2. }
  destruct Hcfg as [-> | ->].
  - cbn [res_bind]. by eexists _, _.
  - unfold nr_configure_lc_config. cbn [lcid new_lc]. rewrite (get_sched_ok m Hl) by done. cbn [res_bind].
    change (lcid (new_lc srb <| rb := NR_LCID_SRB srb |> <| rb_suspended := false |>)) with srb.
    destruct (set_sched_ok m Hl srb (sched_at m srb <| LCGID := NR_INVALID_LCGID |>) Hr) as (m1 & -> & Em & Hl1 & Hat). cbn [res_bind].
    eexists _, _. split; [reflexivity|]. cbn [lc_ordered_list update]. split; [by rewrite Em|]. split; [done|]. split; [done|].
    match goal with |- Bj_timer (sched_at ?x srb) = _ => change (sched_at x srb) with (sched_at m1 srb) end.
    by rewrite Hat, Z.eqb_refl.
Qed.

(** C38: an SRB that comes without a MAC configuration, as 38.331 allows for SRB1,
    gets the default one, and that leaves the timer of its bucket at zero.
    The update of the buckets starts the timer, and at the next tick it
    expires, which the program does not expect. *)
Theorem default_srb_exits m b srb scs pathloss :
  length (lc_sched_info m) = NR_MAX_NUM_LCID -> NoDup (lcids m) -> (forall c, c ∈ lcids m -> 1 <= c <= 32) -> 1 <= srb <= 32 ->
  servedRadioBearer b = NR_LCID_SRB srb -> logicalChannelIdentity b = srb -> srb ∉ lcids m ->
  mac_LogicalChannelConfig b = None \/ mac_LogicalChannelConfig b = Some None -> Bj_timer (sched_at m srb) = zero_timer ->
  exists m1 m2, add_bearer m b = Ok m1 /\ update_Bj scs m1 = Ok m2 /\ update_mac_ul_timers pathloss m2 = Err Exit.
Proof.
  intros Hl Hnd Hr Hsr Hrb Hid Hnin Hcfg Ht.
  destruct (add_default_srb m b srb Hl Hsr Hrb Hid Hnin Hcfg) as (m1 & lc & E1 & El1 & Elc & Hl1 & Et).
  assert (lcids m1 = lcids m ++ [srb]) as Elcs by (unfold lcids; by rewrite El1, fmap_app; cbn; rewrite Elc).
  assert (forall c, c ∈ lcids m1 -> 1 <= c <= 32) as Hr1.
  { rewrite Elcs. intros c Hc. apply elem_of_app in Hc as [Hc|Hc%list_elem_of_singleton]; [by apply Hr|by subst c]. }
  destruct (update_Bj_ok scs m1 Hl1) as (m2 & E2 & Em2 & Hl2 & Hat); [|done|].
  { rewrite Elcs. apply NoDup_app. split; [done|]. split; [|apply NoDup_singleton]. intros c Hc Hc'. apply list_elem_of_singleton in Hc'. by subst c. }
  exists m1, m2. split; [done|]. split; [done|]. apply (timers_exit pathloss m2 srb Hl2); [|done|].
  - rewrite Em2. intros i Hi. apply Hr1, list_elem_of_fmap. by exists i.
  - rewrite <- Elc, Hat by (rewrite El1; apply elem_of_app; right; by apply list_elem_of_singleton).
    cbn [bucket_of Bj_timer update]. rewrite Elc, Et, Ht. done.
Qed.

Definition ue_no_channels : ul_mac :=
  ue_example <| lc_ordered_list := [] |> <| lc_sched_info := replicate 32 (mk_lc_sched 0 0 0 zero_timer) |>.

Lemma default_srb_exits_witness : exists m1 m2,
  add_bearer ue_no_channels (mk_mac_bearer 1 (NR_LCID_SRB 1) None) = Ok m1 /\ update_Bj 1 m1 = Ok m2 /\
  update_mac_ul_timers 80 m2 = Err Exit.
Proof.
  apply (default_srb_exits ue_no_channels (mk_mac_bearer 1 (NR_LCID_SRB 1) None) 1 1 80); try done.
  - apply NoDup_nil_2.
  - by intros c Hc%not_elem_of_nil.
  - by apply not_elem_of_nil.
  - by left.
Defined.
