(* ===== verification/Slices.v ===== *)
(** * RAN slices of the MAC: table and policies

    openair2/LAYER2/NR_MAC_gNB/nr_mac_slice_cfg.c.  The table holds pointers
    to slices that nothing else owns; a pointer returned by a function is the
    index of its entry.  The mutex of the table is not modelled: every
    function holds it from its first to its last access.

    The JSON library is a parameter ([Json]). *)
From S2P Require Import Prelude.
From stdpp Require Import strings.
Local Open Scope Z_scope.

Definition MAX_NUM_SLICE : nat := 8.

Record nssai_t := mk_nssai { sst : Z; sd : Z }.
#[export] Instance nssai_eq_dec : EqDecision nssai_t.
Proof. solve_decision. Defined.

Record NR_slice_prb_policy_t := mk_policy {
  dedicated_ratio : Z; min_ratio : Z; max_ratio : Z   (** uint8_t *)
}.

Record NR_slice_info_t := mk_slice {
  sid : Z; nssai : nssai_t; spolicy : NR_slice_prb_policy_t
}.
#[export] Instance eta_slice : Eta NR_slice_info_t := fun r => mk_slice (sid r) (nssai r) (spolicy r).

(** [slots] has [MAX_NUM_SLICE + 1] entries, NULL behind the first [scount] *)
Record NR_Slices_t := mk_slices {
  initialized : bool; scount : nat; slots : list (option NR_slice_info_t)
}.
#[export] Instance eta_slices : Eta NR_Slices_t := fun r =>
  mk_slices (initialized r) (scount r) (slots r).

Definition no_slots : list (option NR_slice_info_t) := replicate (S MAX_NUM_SLICE) None.

(** ** The table *)

(** the first entry below [count] that satisfies [p] *)
Fixpoint find_slot (p : NR_slice_info_t -> bool) (l : list (option NR_slice_info_t)) (count : nat)
  : option nat :=
  match count, l with
  | S count, entry :: l =>
      match entry with
      | Some s => if p s then Some 0%nat else S <$> find_slot p l count
      | None => S <$> find_slot p l count
      end
  | _, _ => None
  end.

Definition find_slice_by_nssai (info : NR_Slices_t) (sst_ sd_ : Z) : option nat :=
  find_slot (fun s => (sst (nssai s) =? sst_) && (sd (nssai s) =? sd_)) (slots info) (scount info).

Definition default_slice_policy : NR_slice_prb_policy_t := mk_policy 0 0 100.

Definition nr_mac_init_slice_list (info : NR_Slices_t) : NR_Slices_t := mk_slices true 0 no_slots.

Definition nr_mac_free_slice_list (info : NR_Slices_t) : NR_Slices_t :=
  if negb (initialized info) then info else mk_slices false 0 no_slots.

(** the index of the new slice is the old count *)
Definition nr_mac_create_slice (info : NR_Slices_t) (sid_ : Z) (nssai_ : option nssai_t)
  : res (NR_Slices_t * nat) :=
  if negb (initialized info) then Err Exit else
  if negb (Nat.ltb (scount info) MAX_NUM_SLICE) then Err Exit else
  let slice := mk_slice sid_ (default (mk_nssai 0 0xffffff) nssai_) default_slice_policy in
  let i := scount info in
  Ok (info <| scount := S i |> <| slots := <[S i := None]> (<[i := Some slice]> (slots info)) |>, i).

(** ** Policies *)

Definition apply_policy (slice : NR_slice_info_t) (min_ratio max_ratio dedicated_ratio : Z)
  : NR_slice_info_t :=
  let min_ratio := if min_ratio <? dedicated_ratio then dedicated_ratio else min_ratio in
  let max_ratio := if max_ratio <? min_ratio then min_ratio else max_ratio in
  slice <| spolicy := mk_policy dedicated_ratio min_ratio max_ratio |>.

(** writing through a pointer of the table *)
Definition set_slot (info : NR_Slices_t) (i : nat) (s : NR_slice_info_t) : NR_Slices_t :=
  info <| slots := <[i := Some s]> (slots info) |>.
Definition get_slot (info : NR_Slices_t) (i : nat) : res NR_slice_info_t :=
  match slots info !! i with
  | Some (Some s) => Ok s
  | Some None => Err Null_deref
  | None => Err Out_of_bounds
  end.

(** the sum of a ratio over the slices of the table *)
Definition total_ratio (f : NR_slice_prb_policy_t -> Z) (info : NR_Slices_t) : Z :=
  fold_left (fun t entry => match entry with Some s => u32 (t + f (spolicy s)) | None => t end)
    (take (scount info) (slots info)) 0.

Definition reset_slot (entry : option NR_slice_info_t) : option NR_slice_info_t :=
  (fun s => s <| spolicy := default_slice_policy |>) <$> entry.
Definition reset_policies (info : NR_Slices_t) : NR_Slices_t :=
  info <| slots := (reset_slot <$> take (scount info) (slots info))
                   ++ drop (scount info) (slots info) |>.

(** the check after the entries of a file *)
Definition check_totals (info : NR_Slices_t) : NR_Slices_t :=
  let total_min := total_ratio min_ratio info in
  let total_dedicated := total_ratio dedicated_ratio info in
  if (100 <? total_min) || (100 <? total_dedicated) then reset_policies info else info.

(** ** Reading a policy file *)

Inductive json_kind := json_type_string | json_type_array | json_type_other.

(** the functions of json-c the code calls *)
Class Json := {
  json_object : Type;
  json_object_from_file : list Z -> option json_object;
  json_object_object_get_ex : json_object -> string -> option json_object;
  json_object_get_type : json_object -> json_kind;
  json_object_array : json_object -> list (option json_object);  (** length and get_idx *)
  json_object_get_int : json_object -> Z;
  json_object_get_string : json_object -> option (list Z)
}.

(** [strtoul(s, &end, 16)] of the C library in the C locale on the bytes of a
    string: the value, whether something was read, and whether errno was set *)
Definition is_space (c : Z) : bool := (c =? 32) || ((9 <=? c) && (c <=? 13)).
Definition hex_digit (c : Z) : option Z :=
  if (48 <=? c) && (c <=? 57) then Some (c - 48)
  else if (97 <=? c) && (c <=? 102) then Some (c - 87)
  else if (65 <=? c) && (c <=? 70) then Some (c - 55)
  else None.
Fixpoint skip_spaces (s : list Z) : list Z :=
  match s with c :: s' => if is_space c then skip_spaces s' else s | [] => [] end.
Fixpoint hex_value (s : list Z) (acc : Z) (any : bool) : Z * bool :=
  match s with
  | c :: s' => match hex_digit c with
               | Some d => hex_value s' (acc * 16 + d) true
               | None => (acc, any)
               end
  | [] => (acc, any)
  end.
Definition skip_0x (s : list Z) : list Z :=
  match s with
  | 48 :: x :: d :: s' =>
      if ((x =? 120) || (x =? 88)) && bool_decide (is_Some (hex_digit d)) then d :: s' else s
  | _ => s
  end.
Definition strtoul16 (s : list Z) : Z * bool * bool :=
  let s := skip_spaces s in
  let '(neg, s) := match s with
                   | 45 :: s' => (true, s')
                   | 43 :: s' => (false, s')
                   | _ => (false, s)
                   end in
  let '(v, any) := hex_value (skip_0x s) 0 false in
  if 18446744073709551615 <? v then (18446744073709551615, any, true)
  else (if neg : bool then u64 (- v) else v, any, false).

Section Policy.
Context `{Json}.

(** the slice differentiator of an entry of the file *)
Definition read_sd (entry : json_object) : Z :=
  match json_object_object_get_ex entry "sd" with
  | None => 0xffffff
  | Some sd_obj =>
      match json_object_get_type sd_obj with
      | json_type_string =>
          match json_object_get_string sd_obj with
          | None => 0xffffff
          | Some sd_str =>
              let '(parsed, any, erange) := strtoul16 sd_str in
              if negb erange && any && (parsed <=? 0xffffff) then parsed else 0xffffff
          end
      | _ => u32 (json_object_get_int sd_obj)
      end
  end.

(** one round of the loop over the entries *)
Definition load_entry (info : NR_Slices_t) (entry : option json_object) : res NR_Slices_t :=
  match entry with
  | None => Ok info
  | Some entry =>
      match json_object_object_get_ex entry "sst", json_object_object_get_ex entry "min_ratio",
            json_object_object_get_ex entry "max_ratio",
            json_object_object_get_ex entry "dedicated_ratio" with
      | Some sst_obj, Some min_obj, Some max_obj, Some dedicated_obj =>
          match find_slice_by_nssai info (u8 (json_object_get_int sst_obj)) (read_sd entry) with
          | None => Ok info
          | Some i =>
              let* slice := get_slot info i in
              Ok (set_slot info i (apply_policy slice (u8 (json_object_get_int min_obj))
                                     (u8 (json_object_get_int max_obj))
                                     (u8 (json_object_get_int dedicated_obj))))
          end
      | _, _, _, _ => Ok info
      end
  end.

Fixpoint load_entries (info : NR_Slices_t) (entries : list (option json_object))
  : res NR_Slices_t :=
  match entries with
  | [] => Ok info
  | entry :: entries => let* info := load_entry info entry in load_entries info entries
  end.

Definition nr_mac_load_slice_policy (info : NR_Slices_t) (file_path : option (list Z))
  : res (NR_Slices_t * bool) :=
  match file_path with
  | None => Ok (info, false)
  | Some path =>
      if negb (initialized info) then Ok (info, false) else
      match json_object_from_file path with
      | None => Ok (info, false)
      | Some root =>
          match json_object_object_get_ex root "rrmPolicyRatio" with
          | None => Ok (info, false)
          | Some ratio_array =>
              match json_object_get_type ratio_array with
              | json_type_array =>
                  let* info := load_entries info (json_object_array ratio_array) in
                  Ok (check_totals info, true)
              | _ => Ok (info, false)
              end
          end
      end
  end.

(** ** The MAC instance *)

(** the fields of [gNB_MAC_INST] this component uses *)
Record gNB_MAC_INST := mk_mac {
  SL_info : NR_Slices_t;
  dl_num_slice : Z;
  SliceConfigFile : option (list Z)
}.
#[export] Instance eta_mac : Eta gNB_MAC_INST := fun r =>
  mk_mac (SL_info r) (dl_num_slice r) (SliceConfigFile r).

(** the slices of the configured S-NSSAIs: [i] from [i] to [i + n - 1] *)
Fixpoint create_slices (info : NR_Slices_t) (nssai_list : list nssai_t) (i n : nat)
  : res NR_Slices_t :=
  match n with
  | O => Ok info
  | S n =>
      let* nssai_ := of_option Out_of_bounds (nssai_list !! i) in
      let* '(info, _) := nr_mac_create_slice info (Z.of_nat i + 1) (Some nssai_) in
      create_slices info nssai_list (S i) n
  end.

(** a path that is NULL or empty counts as none *)
Definition duplicate_path (policy_path : option (list Z)) : option (list Z) :=
  match policy_path with Some [] => None | p => p end.

Definition nr_mac_configure_slices (mac : gNB_MAC_INST) (nssai_list : list nssai_t)
    (num_slices : nat) (policy_path : option (list Z)) : res gNB_MAC_INST :=
  let info := nr_mac_init_slice_list (nr_mac_free_slice_list (SL_info mac)) in
  let* '(info, i) := nr_mac_create_slice info 0 (Some (mk_nssai 0 0xffffff)) in
  let* slice := get_slot info i in
  let info := set_slot info i
    (slice <| spolicy := mk_policy (dedicated_ratio (spolicy slice)) (min_ratio (spolicy slice)) 100 |>) in
  let num_slices := Nat.min num_slices (MAX_NUM_SLICE - 1) in
  let* info := create_slices info nssai_list 0 num_slices in
  let file := duplicate_path policy_path in
  let* '(info', _) := nr_mac_load_slice_policy info file in
  Ok (mk_mac info' (Z.of_nat (scount info)) file).

(** [RC.nrmac]; a module out of range or without a file changes nothing *)
Definition nr_update_slice_policy (nrmac : list (option gNB_MAC_INST)) (module_id : nat)
  : res (list (option gNB_MAC_INST)) :=
  match nrmac !! module_id with
  | Some (Some mac) =>
      match SliceConfigFile mac with
      | None => Ok nrmac
      | Some path =>
          let* '(info, _) := nr_mac_load_slice_policy (SL_info mac) (Some path) in
          Ok (<[module_id := Some (mac <| SL_info := info |>)]> nrmac)
      end
  | _ => Ok nrmac
  end.

End Policy.
