(* ===== verification/SlicesInv.v ===== *)
(** * The slice table stays consistent

    [slices_inv]: the table holds its slices in the first entries and NULL
    behind, every policy has ratios of one byte with minimum at most maximum,
    and the minimum and the dedicated ratios add up to at most 100 percent.
    Every operation of nr_mac_slice_cfg.c keeps it. *)
From S2P Require Import Prelude Slices.
From stdpp Require Import strings.
Local Open Scope Z_scope.

(** ** Policies and sums *)

Definition policy_ok (p : NR_slice_prb_policy_t) : Prop :=
  0 <= dedicated_ratio p < 256 /\ 0 <= min_ratio p <= max_ratio p /\ max_ratio p < 256.

Definition sum_ratio (f : NR_slice_prb_policy_t -> Z) (l : list NR_slice_info_t) : Z :=
  foldr (fun s t => f (spolicy s) + t) 0 l.

(** the slices of a table of 9 entries *)
Record table_of (info : NR_Slices_t) (l : list NR_slice_info_t) : Prop := mk_table_of {
  to_init : initialized info = true;
  to_count : scount info = length l;
  to_max : (length l <= MAX_NUM_SLICE)%nat;
  to_slots : slots info = (Some <$> l) ++ replicate (S MAX_NUM_SLICE - length l) None;
  to_policy : Forall (fun s => policy_ok (spolicy s)) l;
  to_sid : sid <$> l = Z.of_nat <$> seq 0 (length l)
}.

Definition sums_ok (l : list NR_slice_info_t) : Prop :=
  sum_ratio min_ratio l <= 100 /\ sum_ratio dedicated_ratio l <= 100.

Definition slices_inv (info : NR_Slices_t) : Prop :=
  info = mk_slices false 0 no_slots \/ exists l, table_of info l /\ sums_ok l.

Lemma take_table info l : table_of info l -> take (scount info) (slots info) = Some <$> l.
Proof.
  intros [_ Hc _ Hs _ _]. rewrite Hc, Hs. by rewrite <- (length_fmap Some l), take_app_length.
Qed.
Lemma drop_table info l : table_of info l ->
  drop (scount info) (slots info) = replicate (S MAX_NUM_SLICE - length l) None.
Proof.
  intros [_ Hc _ Hs _ _]. rewrite Hc, Hs. by rewrite <- (length_fmap Some l) at 1; rewrite drop_app_length.
Qed.

Definition byte_ratio (f : NR_slice_prb_policy_t -> Z) : Prop :=
  forall p, policy_ok p -> 0 <= f p < 256.
Lemma min_byte : byte_ratio min_ratio.
Proof. intros p (? & ? & ?). lia. Qed.
Lemma dedicated_byte : byte_ratio dedicated_ratio.
Proof. intros p (? & ? & ?). lia. Qed.

Lemma sum_ratio_bounds f l : byte_ratio f -> Forall (fun s => policy_ok (spolicy s)) l ->
  0 <= sum_ratio f l <= 255 * Z.of_nat (length l).
Proof.
  intros Hf. induction 1 as [|s l Hs Hl IH]; cbn [sum_ratio foldr length]; [lia|].
  specialize (Hf _ Hs). fold (sum_ratio f l). lia.
Qed.

Lemma total_ratio_sum f info l :
  table_of info l -> byte_ratio f -> total_ratio f info = sum_ratio f l.
Proof.
  intros Ht Hf. unfold total_ratio. rewrite (take_table _ _ Ht). destruct Ht as [_ _ Hm _ Hp _].
  enough (forall t, 0 <= t -> t + 255 * Z.of_nat (length l) < 2 ^ 32 ->
    fold_left (fun t entry => match entry with Some s => u32 (t + f (spolicy s)) | None => t end)
      (Some <$> l) t = t + sum_ratio f l) as Hg.
  { rewrite Hg; [lia|lia|unfold MAX_NUM_SLICE in Hm; lia]. }
  clear Hm. induction Hp as [|s l Hs Hl IH]; intros t H0 Hb; cbn; [lia|].
  specialize (Hf _ Hs). rewrite IH; cbn [length] in Hb; unfold u32; rewrite Z.mod_small; try lia.
  fold (sum_ratio f l). lia.
Qed.

(** ** Slots *)

Lemma find_slot_spec p l : forall count i,
  find_slot p l count = Some i ->
  exists s, l !! i = Some (Some s) /\ p s = true /\ (i < count)%nat.
Proof.
  induction l as [|x l IH]; intros [|count] i; cbn [find_slot]; try done.
  destruct x as [s|].
  - destruct (p s) eqn:E; [intros [= <-]; exists s; split; [done|split; [done|lia]]|].
    intros (j & Hj & ->)%fmap_Some. destruct (IH _ _ Hj) as (s' & H1 & H2 & H3).
    exists s'. split; [done|split; [done|lia]].
  - intros (j & Hj & ->)%fmap_Some. destruct (IH _ _ Hj) as (s' & H1 & H2 & H3).
    exists s'. split; [done|split; [done|lia]].
Qed.

Lemma table_lookup info l i s : table_of info l -> (i < scount info)%nat ->
  slots info !! i = Some (Some s) -> l !! i = Some s.
Proof.
  intros [_ Hc _ Hs _ _] Hi. rewrite Hs, lookup_app_l by (rewrite length_fmap; lia).
  rewrite list_lookup_fmap. destruct (l !! i) as [x|]; [|done]. by intros [= ->].
Qed.

Lemma table_set info l i s s0 : table_of info l -> l !! i = Some s0 -> sid s = sid s0 ->
  policy_ok (spolicy s) -> table_of (set_slot info i s) (<[i := s]> l).
Proof.
  intros [Hi Hc Hm Hs Hp Hsid] Hl Heq Hok. pose proof (lookup_lt_Some _ _ _ Hl) as Hlt.
  split; cbn [set_slot initialized scount slots update].
  - done.
  - by rewrite length_insert.
  - by rewrite length_insert.
  - rewrite Hs, length_insert, insert_app_l by (rewrite length_fmap; lia).
    by rewrite list_fmap_insert.
  - by apply Forall_insert.
  - rewrite length_insert, list_fmap_insert, Heq, list_insert_id; [done|].
    by rewrite list_lookup_fmap, Hl.
Qed.

Lemma table_create info l sid_ ns :
  table_of info l -> (length l < MAX_NUM_SLICE)%nat -> sid_ = Z.of_nat (length l) ->
  exists info', nr_mac_create_slice info sid_ ns = Ok (info', length l) /\
    table_of info' (l ++ [mk_slice sid_ (default (mk_nssai 0 0xffffff) ns) default_slice_policy]).
Proof.
  intros [Hi Hc Hm Hs Hp Hsid] Hlt Heq. unfold nr_mac_create_slice. rewrite Hi, Hc. cbn [negb].
  destruct (Nat.ltb_spec (length l) MAX_NUM_SLICE); [|lia]. cbn [negb].
  set (s := mk_slice _ _ _). eexists. split; [done|]. unfold MAX_NUM_SLICE in *.
  split; cbn [initialized scount slots update].
  - done.
  - rewrite length_app. cbn. lia.
  - rewrite length_app. unfold MAX_NUM_SLICE. cbn. lia.
  - rewrite Hs, length_app. unfold MAX_NUM_SLICE. cbn [length].
    replace (9 - length l)%nat with (S (S (9 - (length l + 2)))) by lia.
    replace (9 - (length l + 1))%nat with (S (9 - (length l + 2))) by lia.
    cbn [replicate]. rewrite fmap_app, <- app_assoc. cbn [app fmap list_fmap].
    assert (Hlen : length (Some <$> l) = length l) by apply length_fmap.
    rewrite insert_app_r_alt, Hlen, Nat.sub_diag by lia.
    rewrite insert_app_r_alt, Hlen by lia.
    by replace (S (length l) - length l)%nat with 1%nat by lia.
  - apply Forall_app. split; [done|]. constructor; [|done]. unfold policy_ok. cbn. lia.
  - rewrite fmap_app, length_app, seq_app, fmap_app, Hsid. cbn. by rewrite Heq.
Qed.

Lemma apply_policy_ok s mn mx dd : 0 <= mn < 256 -> 0 <= mx < 256 -> 0 <= dd < 256 ->
  let p := spolicy (apply_policy s mn mx dd) in
  policy_ok p /\ dedicated_ratio p = dd /\ dd <= min_ratio p /\ mn <= min_ratio p.
Proof.
  intros. unfold apply_policy, policy_ok in *. cbn.
  destruct (mn <? dd) eqn:E1; destruct (mx <? _) eqn:E2; cbn in *; lia.
Qed.

Lemma sum_insert f l : forall i s s0, l !! i = Some s0 ->
  sum_ratio f (<[i := s]> l) = sum_ratio f l - f (spolicy s0) + f (spolicy s).
Proof.
  induction l as [|x l IH]; intros [|i] s s0 Hi; try done.
  - injection Hi as ->. cbn. lia.
  - change (<[S i := s]> (x :: l)) with (x :: <[i := s]> l). cbn [sum_ratio foldr].
    fold (sum_ratio f (<[i := s]> l)) (sum_ratio f l). rewrite (IH i s s0 Hi). lia.
Qed.

Lemma reset_table info l : table_of info l ->
  table_of (reset_policies info) ((fun s => s <| spolicy := default_slice_policy |>) <$> l).
Proof.
  intros Ht. pose proof Ht as [Hi Hc Hm Hs Hp Hsid]. split; cbn [reset_policies initialized scount slots update].
  - done.
  - by rewrite length_fmap.
  - by rewrite length_fmap.
  - rewrite (take_table _ _ Ht), (drop_table _ _ Ht), length_fmap. f_equal.
    rewrite <- !list_fmap_compose. done.
  - apply Forall_fmap, Forall_true. intros s. unfold policy_ok. cbn. lia.
  - by rewrite length_fmap, <- list_fmap_compose, <- Hsid.
Qed.

Lemma sum_default f l : f default_slice_policy = 0 ->
  sum_ratio f ((fun s => s <| spolicy := default_slice_policy |>) <$> l) = 0.
Proof. intros Hf. induction l as [|s l IH]; [done|]. cbn in *. rewrite Hf. exact IH. Qed.

Lemma check_totals_ok info l : table_of info l ->
  exists l', table_of (check_totals info) l' /\ sums_ok l' /\ length l' = length l.
Proof.
  intros Ht. unfold check_totals. cbn zeta.
  rewrite (total_ratio_sum _ _ _ Ht min_byte), (total_ratio_sum _ _ _ Ht dedicated_byte).
  destruct (_ || _) eqn:E.
  - eexists. split; [by apply reset_table|]. split; [|by rewrite length_fmap].
    split; rewrite sum_default; done || lia.
  - exists l. split; [done|]. split; [|done]. apply orb_false_iff in E. split; lia.
Qed.

Section Load.
Context `{Json}.

Lemma load_entry_ok info l entry : table_of info l ->
  exists info' l', load_entry info entry = Ok info' /\ table_of info' l' /\ length l' = length l.
Proof.
  intros Ht. unfold load_entry. destruct entry as [e|]; [|by exists info, l].
  destruct (json_object_object_get_ex e "sst"%string), (json_object_object_get_ex e "min_ratio"%string),
    (json_object_object_get_ex e "max_ratio"%string), (json_object_object_get_ex e "dedicated_ratio"%string);
    try (by exists info, l).
  destruct (find_slice_by_nssai _ _ _) as [i|] eqn:Ef; [|by exists info, l].
  unfold find_slice_by_nssai in Ef. apply find_slot_spec in Ef as (s & Hs & _ & Hi).
  unfold get_slot. rewrite Hs. cbn [res_bind]. pose proof Ht as [_ Hc _ _ _ _].
  eexists _, _. split; [done|]. split.
  - apply (table_set info l i _ s); [done|by eapply table_lookup|done|].
    apply apply_policy_ok; auto with c_ranges.
  - apply length_insert.
Qed.

Lemma load_entries_ok es : forall info l, table_of info l ->
  exists info' l', load_entries info es = Ok info' /\ table_of info' l' /\ length l' = length l.
Proof.
  induction es as [|e es IH]; intros info l Ht; cbn [load_entries]; [by exists info, l|].
  destruct (load_entry_ok info l e Ht) as (i1 & l1 & -> & H1 & E1). cbn [res_bind].
  destruct (IH i1 l1 H1) as (i2 & l2 & -> & H2 & E2). exists i2, l2. by rewrite E2.
Qed.

Lemma load_slice_policy_ok info path : slices_inv info ->
  exists info' b, nr_mac_load_slice_policy info path = Ok (info', b) /\ slices_inv info' /\
    scount info' = scount info.
Proof.
  intros Hinv. unfold nr_mac_load_slice_policy.
  destruct path as [path|]; [|by eexists _, _].
  destruct Hinv as [->|(l & Ht & Hs)]; [eexists _, _; split; [done|]; split; [by left|done]|].
  assert (Hkeep : slices_inv info) by (right; by exists l).
  rewrite (to_init _ _ Ht). cbn [negb].
  destruct (json_object_from_file path); [|by eexists _, _].
  destruct (json_object_object_get_ex _ _); [|by eexists _, _].
  destruct (json_object_get_type _); try (by eexists _, _).
  destruct (load_entries_ok (json_object_array j0) info l Ht) as (i1 & l1 & -> & H1 & E1).
  cbn [res_bind]. destruct (check_totals_ok _ _ H1) as (l2 & H2 & S2 & E2).
  eexists _, _. split; [done|]. split; [right; by exists l2|].
  rewrite (to_count _ _ H2), (to_count _ _ Ht). congruence.
Qed.

Lemma create_slices_ok nss n : forall info l i,
  table_of info l -> sums_ok l -> length l = S i ->
  (length l + n <= MAX_NUM_SLICE)%nat -> (i + n <= length nss)%nat ->
  exists info' l', create_slices info nss i n = Ok info' /\ table_of info' l' /\ sums_ok l' /\
    length l' = (length l + n)%nat.
Proof.
  induction n as [|n IH]; intros info l i Ht Hs Hsi Hl Hi; cbn [create_slices].
  { exists info, l. split; [done|]. split; [done|]. split; [done|lia]. }
  destruct (nss !! i) as [ns|] eqn:E; [|apply lookup_ge_None in E; lia]. cbn [of_option res_bind].
  destruct (table_create info l (Z.of_nat i + 1) (Some ns) Ht ltac:(lia) ltac:(lia)) as (i1 & -> & H1).
  cbn [res_bind].
  assert (Hs1 : sums_ok (l ++ [mk_slice (Z.of_nat i + 1) ns default_slice_policy])).
  { destruct Hs as [S1 S2]. unfold sums_ok, sum_ratio in *. rewrite !foldr_app. cbn. done. }
  destruct (IH i1 _ (S i) H1 Hs1) as (i2 & l2 & -> & H2 & S2 & E2).
  - rewrite length_app. cbn. lia.
  - rewrite length_app. cbn. lia.
  - lia.
  - exists i2, l2. split; [done|]. split; [done|]. split; [done|].
    rewrite E2, length_app. cbn. lia.
Qed.

Lemma configure_slices_ok mac nss num path :
  slices_inv (SL_info mac) -> (Nat.min num 7 <= length nss)%nat ->
  exists mac', nr_mac_configure_slices mac nss num path = Ok mac' /\ slices_inv (SL_info mac') /\
    dl_num_slice mac' = 1 + Z.of_nat (Nat.min num 7).
Proof.
  intros _ Hn. unfold nr_mac_configure_slices, nr_mac_init_slice_list.
  assert (H0 : table_of (mk_slices true 0 no_slots) []) by (split; [done|done|cbn; lia|done|done|done]).
  destruct (table_create _ [] 0 (Some (mk_nssai 0 0xffffff)) H0 ltac:(cbn; unfold MAX_NUM_SLICE; lia) eq_refl) as (i1 & -> & H1).
  cbn [res_bind app length default] in *.
  assert (Hg : get_slot i1 0 = Ok (mk_slice 0 (mk_nssai 0 0xffffff) default_slice_policy)).
  { unfold get_slot. by rewrite (to_slots _ _ H1). }
  rewrite Hg. cbn [res_bind spolicy dedicated_ratio min_ratio default_slice_policy].
  match goal with |- context [set_slot i1 0 ?s] => set (s0 := s) end.
  assert (H2 : table_of (set_slot i1 0 s0) [s0]).
  { apply (table_set i1 [_] 0 s0 _ H1 eq_refl eq_refl). unfold policy_ok, s0. cbn. lia. }
  destruct (create_slices_ok nss (Nat.min num (MAX_NUM_SLICE - 1)) (set_slot i1 0 s0) [s0] 0 H2)
    as (i3 & l3 & -> & H3 & S3 & E3).
  - split; cbn; lia.
  - done.
  - cbn. unfold MAX_NUM_SLICE. lia.
  - unfold MAX_NUM_SLICE. cbn. lia.
  - cbn [res_bind]. destruct (load_slice_policy_ok i3 (duplicate_path path)) as (i4 & b & -> & H4 & E4).
    { right. by exists l3. }
    cbn [res_bind]. eexists. split; [done|]. split; [done|]. cbn [dl_num_slice].
    rewrite (to_count _ _ H3), E3. unfold MAX_NUM_SLICE. cbn [length]. lia.
Qed.

End Load.
