(* ===== verification/SliceUe.v ===== *)
(** * Slices of a UE: assignment of the channels, backlog, and selection

    The passes over the connected UEs that [nr_dlsch_preprocessor] of
    NR_MAC_gNB/gNB_scheduler_dlsch.c runs before it schedules, and
    [nr_mac_select_slice_for_ue] of nr_mac_slice_sched_utils.c.

    What the RLC reports for a channel ([nr_mac_rlc_status_ind]) is the
    argument [status]. *)
From S2P Require Import Prelude Slices.

Definition MAX_NUM_PDU_SESSION : nat := 8.
Definition NR_MAX_NUM_LCID : nat := 32.
Definition DL_SCH_LCID_DTCH : nat := 4.

(** ** Data *)

(** the fields of the structures this component uses *)
Record nr_lc_config_t := mk_lc { lcid : nat; suspended : bool; lc_nssai : nssai_t }.

Record nr_macrlc_slice_info_t := mk_ms { ms_sid : Z; ms_nssai : nssai_t; bytes : Z }.
#[export] Instance eta_ms : Eta nr_macrlc_slice_info_t := fun r =>
  mk_ms (ms_sid r) (ms_nssai r) (bytes r).

Record mac_rlc_status_resp_t := mk_status { bytes_in_buffer : Z; pdus_in_buffer : Z }.

Record NR_UE_sched_ctrl_t := mk_ctrl {
  num_total_bytes : Z;          (** uint32_t *)
  dl_pdus_total : Z;            (** uint16_t *)
  lc_config : list nr_lc_config_t;
  transm_interrupt : bool;      (** the timer is active *)
  ul_failure : bool;
  rlc_status : list mac_rlc_status_resp_t;          (** [NR_MAX_NUM_LCID] entries *)
  dl_sl_info : list nr_macrlc_slice_info_t;         (** [NR_MAX_NUM_LCID] entries *)
  avail_slice_list : list nr_macrlc_slice_info_t;   (** [MAX_NUM_PDU_SESSION + 1] entries *)
  num_slice_d : nat;
  slice_for_this_sched : Z
}.
#[export] Instance eta_ctrl : Eta NR_UE_sched_ctrl_t := fun r =>
  mk_ctrl (num_total_bytes r) (dl_pdus_total r) (lc_config r) (transm_interrupt r) (ul_failure r)
    (rlc_status r) (dl_sl_info r) (avail_slice_list r) (num_slice_d r) (slice_for_this_sched r).

(** ** [nr_store_dl_slice_info] *)

Definition interrupted (ctrl : NR_UE_sched_ctrl_t) (c : nr_lc_config_t) : bool :=
  (Nat.eqb (lcid c) DL_SCH_LCID_DTCH) && transm_interrupt ctrl.

(** the slice with the S-NSSAI of the channel, slice 0 without one *)
Definition slice_of_nssai (info : NR_Slices_t) (n : nssai_t) : res Z :=
  match find_slice_by_nssai info (sst n) (sd n) with
  | Some i => let* s := get_slot info i in Ok (sid s)
  | None => Ok 0
  end.

Definition store_slice_of_lc (info : NR_Slices_t) (ctrl : NR_UE_sched_ctrl_t) (lc : nr_lc_config_t)
  : res NR_UE_sched_ctrl_t :=
  if interrupted ctrl lc then Ok ctrl else
  let* entry := arr_get (dl_sl_info ctrl) (lcid lc) in
  let* id := slice_of_nssai info (lc_nssai lc) in
  let* l := arr_set (dl_sl_info ctrl) (lcid lc) (mk_ms id (lc_nssai lc) (bytes entry)) in
  Ok (ctrl <| dl_sl_info := l |>).

Definition nr_store_dl_slice_info (info : NR_Slices_t) (ctrl : NR_UE_sched_ctrl_t)
  : res NR_UE_sched_ctrl_t :=
  fold_res (store_slice_of_lc info) (lc_config ctrl) ctrl.

(** ** [nr_get_ue_active_slice_list] *)

Definition count_slice (ctrl : NR_UE_sched_ctrl_t) (counts : list Z) (lc : nr_lc_config_t)
  : res (list Z) :=
  let* entry := arr_get (dl_sl_info ctrl) (lcid lc) in
  let id := ms_sid entry in
  if (0 <? id) && (id <? Z.of_nat MAX_NUM_PDU_SESSION + 1) then
    let* n := arr_get counts (Z.to_nat id) in
    arr_set counts (Z.to_nat id) (u16 (n + 1))
  else Ok counts.

(** the list of the slices with a channel, from entry [cursor] on *)
Definition append_slice (counts : list Z) (a : list nr_macrlc_slice_info_t * nat) (id : nat)
  : res (list nr_macrlc_slice_info_t * nat) :=
  let '(avail, cursor) := a in
  let* n := arr_get counts id in
  if n =? 0 then Ok (avail, cursor) else
  let* entry := arr_get avail cursor in
  let* avail := arr_set avail cursor (entry <| ms_sid := Z.of_nat id |>) in
  Ok (avail, S cursor).

Definition reset_avail (entry : nr_macrlc_slice_info_t) : nr_macrlc_slice_info_t :=
  mk_ms (-1) (ms_nssai entry) 0.

Definition nr_get_ue_active_slice_list (ctrl : NR_UE_sched_ctrl_t) : res NR_UE_sched_ctrl_t :=
  let avail := reset_avail <$> avail_slice_list ctrl in
  let* first := arr_get avail 0 in
  let* avail := arr_set avail 0 (first <| ms_sid := 0 |>) in
  let* counts := fold_res (count_slice ctrl) (lc_config ctrl) (replicate (S MAX_NUM_PDU_SESSION) 0) in
  let* '(avail, cursor) :=
    fold_res (append_slice counts) (seq 1 MAX_NUM_PDU_SESSION) (avail, 1%nat) in
  Ok (ctrl <| avail_slice_list := avail |> <| num_slice_d := cursor |>).

(** ** [nr_store_dlsch_buffer] *)

(** the bytes of a channel go to the first listed entry of its slice *)
Fixpoint add_slice_bytes (avail : list nr_macrlc_slice_info_t) (n : nat) (id b : Z)
  : res (list nr_macrlc_slice_info_t) :=
  match n with
  | O => Ok avail
  | S n =>
      match avail with
      | [] => Err Out_of_bounds
      | e :: avail =>
          if ms_sid e =? id then Ok (e <| bytes := u32 (bytes e + b) |> :: avail)
          else let* avail := add_slice_bytes avail n id b in Ok (e :: avail)
      end
  end.

Section Buffer.
Variable status : nat -> mac_rlc_status_resp_t.

Definition store_lc_buffer (ctrl : NR_UE_sched_ctrl_t) (c : nr_lc_config_t)
  : res NR_UE_sched_ctrl_t :=
  let* l := arr_set (rlc_status ctrl) (lcid c) (mk_status 0 0) in
  let ctrl := ctrl <| rlc_status := l |> in
  if suspended c then Ok ctrl else
  if interrupted ctrl c then Ok ctrl else
  let st := status (lcid c) in
  let* l := arr_set (rlc_status ctrl) (lcid c) st in
  let ctrl := ctrl <| rlc_status := l |> in
  if bytes_in_buffer st =? 0 then Ok ctrl else
  let* entry := arr_get (dl_sl_info ctrl) (lcid c) in
  let* avail := add_slice_bytes (avail_slice_list ctrl) (num_slice_d ctrl) (ms_sid entry)
                  (bytes_in_buffer st) in
  Ok (ctrl <| dl_pdus_total := u16 (dl_pdus_total ctrl + pdus_in_buffer st) |>
           <| num_total_bytes := u32 (num_total_bytes ctrl + bytes_in_buffer st) |>
           <| avail_slice_list := avail |>).

Definition nr_store_dlsch_buffer (ctrl : NR_UE_sched_ctrl_t) : res NR_UE_sched_ctrl_t :=
  fold_res store_lc_buffer (lc_config ctrl) (ctrl <| num_total_bytes := 0 |> <| dl_pdus_total := 0 |>).
End Buffer.

Fixpoint bytes_in (avail : list nr_macrlc_slice_info_t) (n : nat) (id : Z) : Z :=
  match n, avail with
  | S n, e :: avail => if ms_sid e =? id then bytes e else bytes_in avail n id
  | _, _ => 0
  end.
Definition bytes_for_slice (ctrl : NR_UE_sched_ctrl_t) (id : Z) : Z :=
  bytes_in (avail_slice_list ctrl) (num_slice_d ctrl) id.

(** ** The selection *)

(** the slice with the most bytes after the default slice; the first one of equals *)
Definition better_slice (best : Z * Z) (e : nr_macrlc_slice_info_t) : Z * Z :=
  if ms_sid e <? 0 then best
  else if snd best <? bytes e then (ms_sid e, bytes e) else best.

Definition nr_mac_select_slice_for_ue (ctrl : NR_UE_sched_ctrl_t) (slot ue_index : Z) : res Z :=
  let n := num_slice_d ctrl in
  if Nat.eqb n 0 then Ok (-1) else
  let* d := arr_get (avail_slice_list ctrl) 0 in
  if ms_sid d <? 0 then Ok (-1) else
  if 0 <? bytes d then Ok (ms_sid d) else
  if Nat.ltb (length (avail_slice_list ctrl)) n then Err Out_of_bounds else
  let '(best_sid, best_bytes) :=
    fold_left better_slice (drop 1 (take n (avail_slice_list ctrl))) (ms_sid d, 0) in
  if 0 <? best_bytes then Ok best_sid else
  if Nat.eqb n 2 then let* e := arr_get (avail_slice_list ctrl) 1 in Ok (ms_sid e) else
  if Nat.leb 3 n then
    let even_slot := Z.land slot 1 =? 0 in
    let even_ue := Z.land ue_index 1 =? 0 in
    let* first := arr_get (avail_slice_list ctrl) 1 in
    let* second := arr_get (avail_slice_list ctrl) 2 in
    Ok (if Bool.eqb even_slot even_ue then ms_sid first else ms_sid second)
  else Ok (ms_sid d).

(** [nr_slice_preprocess]: a UE in uplink failure keeps its slice *)
Definition select_ue (slot : Z) (ue_index : nat) (ctrl : NR_UE_sched_ctrl_t) : res NR_UE_sched_ctrl_t :=
  if ul_failure ctrl then Ok ctrl else
  let* selected := nr_mac_select_slice_for_ue ctrl slot (Z.of_nat ue_index) in
  if selected <? 0 then Err Exit else Ok (ctrl <| slice_for_this_sched := selected |>).

(** a pass over the connected UEs, with their positions *)
Fixpoint pass (f : nat -> NR_UE_sched_ctrl_t -> res NR_UE_sched_ctrl_t) (i : nat)
    (ues : list NR_UE_sched_ctrl_t) : res (list NR_UE_sched_ctrl_t) :=
  match ues with
  | [] => Ok []
  | ue :: ues => let* ue := f i ue in let* ues := pass f (S i) ues in Ok (ue :: ues)
  end.

(** the four passes of [nr_dlsch_preprocessor]; [status i] is the report of
    the RLC for the UE at position [i] *)
Definition slice_passes (info : NR_Slices_t) (status : nat -> nat -> mac_rlc_status_resp_t)
    (slot : Z) (ues : list NR_UE_sched_ctrl_t) : res (list NR_UE_sched_ctrl_t) :=
  let* ues := pass (fun _ => nr_store_dl_slice_info info) 0 ues in
  let* ues := pass (fun _ => nr_get_ue_active_slice_list) 0 ues in
  let* ues := pass (fun i => nr_store_dlsch_buffer (status i)) 0 ues in
  pass (select_ue slot) 0 ues.
