(* ===== verification/SliceUeSpec.v ===== *)
(** * The slice passes over the UEs keep the backlog and never fail

    For a consistent slice table and a UE with its channels configured, the
    four passes return: they assign every byte the RLC reports to one listed
    slice, and they select a listed slice that has data whenever the UE has. *)
From S2P Require Import Prelude Slices SlicesInv SliceUe.

(** ** A UE as RRC configures it *)

Record ctrl_ok (ctrl : NR_UE_sched_ctrl_t) : Prop := mk_ctrl_ok {
  ck_rlc : length (rlc_status ctrl) = NR_MAX_NUM_LCID;
  ck_dl : length (dl_sl_info ctrl) = NR_MAX_NUM_LCID;
  ck_avail : length (avail_slice_list ctrl) = S MAX_NUM_PDU_SESSION;
  ck_lcid : Forall (fun c => (lcid c < NR_MAX_NUM_LCID)%nat) (lc_config ctrl);
  ck_sid : Forall (fun e => 0 <= ms_sid e <= Z.of_nat MAX_NUM_PDU_SESSION) (dl_sl_info ctrl)
}.

(** the parts of a UE the passes read and do not change *)
Definition same_config (c c' : NR_UE_sched_ctrl_t) : Prop :=
  lc_config c' = lc_config c /\ transm_interrupt c' = transm_interrupt c /\
  ul_failure c' = ul_failure c.

#[export] Instance same_config_refl : Reflexive same_config.
Proof. done. Qed.
#[export] Instance same_config_trans : Transitive same_config.
Proof. intros a b c (? & ? & ?) (? & ? & ?). split_and!; congruence. Qed.

(** ** First pass: the slice of every channel *)

Lemma slice_of_nssai_ok info l n : table_of info l ->
  exists id, slice_of_nssai info n = Ok id /\ 0 <= id < Z.of_nat MAX_NUM_SLICE.
Proof.
  intros Ht. unfold slice_of_nssai. destruct (find_slice_by_nssai _ _ _) as [i|] eqn:E.
  2:{ exists 0. split; [done|]. unfold MAX_NUM_SLICE. lia. }
  apply find_slot_spec in E as (s & Hs & _ & Hi).
  exists (sid s). unfold get_slot. rewrite Hs. split; [done|].
  pose proof (table_lookup _ _ _ _ Ht Hi Hs) as Hl.
  assert (Hf : (sid <$> l) !! i = Some (sid s)) by (by rewrite list_lookup_fmap, Hl).
  rewrite (to_sid _ _ Ht), list_lookup_fmap in Hf.
  pose proof (lookup_lt_Some _ _ _ Hl). rewrite lookup_seq_lt in Hf by lia. cbn in Hf.
  injection Hf as Hf. pose proof (to_max _ _ Ht). unfold MAX_NUM_SLICE in *. lia.
Qed.

Lemma store_slice_ok info l ctrl c : table_of info l -> ctrl_ok ctrl -> c ∈ lc_config ctrl ->
  exists ctrl', store_slice_of_lc info ctrl c = Ok ctrl' /\ ctrl_ok ctrl' /\ same_config ctrl ctrl'.
Proof.
  intros Ht Hk Hc. unfold store_slice_of_lc. destruct (interrupted ctrl c); [by exists ctrl|].
  pose proof Hk as [K1 K2 K3 K4 K5]. pose proof (proj1 (Forall_forall _ _) K4 c Hc) as Hlt. cbn in Hlt.
  destruct (arr_get_lt (dl_sl_info ctrl) (lcid c)) as (e & _ & ->); [lia|]. cbn [res_bind].
  destruct (slice_of_nssai_ok info l (lc_nssai c) Ht) as (id & -> & Hid). cbn [res_bind].
  rewrite arr_set_ok by lia. cbn [res_bind]. eexists. split; [done|]. split; [|done].
  split; try done; cbn [dl_sl_info update].
  - by rewrite length_insert.
  - apply Forall_insert; [done|]. cbn. unfold MAX_NUM_SLICE, MAX_NUM_PDU_SESSION in *. lia.
Qed.

(** a loop over the channels of a UE that keeps an invariant *)
Lemma fold_lc_ok {S} (I : S -> Prop) f (l : list nr_lc_config_t) :
  (forall s c, I s -> c ∈ l -> exists s', f s c = Ok s' /\ I s') ->
  forall s, I s -> exists s', fold_res f l s = Ok s' /\ I s'.
Proof.
  intros Hf s Hs. revert s Hs Hf. induction l as [|c l IH]; intros s Hs Hf; [by exists s|].
  cbn [fold_res]. destruct (Hf s c Hs) as (s1 & -> & H1); [apply list_elem_of_here|].
  cbn [res_bind]. apply IH; [done|]. intros s2 c2 H2 Hc. apply Hf; [done|]. by apply list_elem_of_further.
Qed.

Lemma store_info_ok info l ctrl : table_of info l -> ctrl_ok ctrl ->
  exists ctrl', nr_store_dl_slice_info info ctrl = Ok ctrl' /\ ctrl_ok ctrl' /\ same_config ctrl ctrl'.
Proof.
  intros Ht Hk. unfold nr_store_dl_slice_info.
  apply (fold_lc_ok (fun c => ctrl_ok c /\ same_config ctrl c)); [|done].
  intros s c [Hs Hc] Hin. destruct (store_slice_ok info l s c Ht Hs) as (s' & H1 & H2 & H3).
  { by rewrite (proj1 Hc). }
  exists s'. split; [done|]. split; [done|]. by transitivity s.
Qed.

(** ** Second pass: the listed slices *)

Definition sids (avail : list nr_macrlc_slice_info_t) (n : nat) : list Z := ms_sid <$> take n avail.
Definition sum_bytes (avail : list nr_macrlc_slice_info_t) (n : nat) : Z :=
  foldr (fun e t => bytes e + t) 0 (take n avail).

Lemma count_ok ctrl l : ctrl_ok ctrl -> Forall (fun c => (lcid c < NR_MAX_NUM_LCID)%nat) l ->
  (Z.of_nat (length l) < 65536) -> forall counts,
  length counts = 9%nat -> Forall (fun n => 0 <= n /\ n + Z.of_nat (length l) < 65536) counts ->
  exists counts', fold_res (count_slice ctrl) l counts = Ok counts' /\ length counts' = 9%nat /\
    (forall i n, counts !! i = Some n -> exists n', counts' !! i = Some n' /\ n <= n') /\
    (forall c e, c ∈ l -> dl_sl_info ctrl !! lcid c = Some e -> 0 < ms_sid e ->
      exists n', counts' !! Z.to_nat (ms_sid e) = Some n' /\ 0 < n').
Proof.
  intros Hk. induction 1 as [|c l Hc Hl IH]; intros Hlen counts H9 Hcs; cbn [fold_res].
  { exists counts. split_and!; try done. { intros i n Hi. exists n. split; [done|lia]. }
    by intros c e ?%elem_of_nil. }
  pose proof Hk as [K1 K2 K3 K4 K5].
  destruct (arr_get_lt (dl_sl_info ctrl) (lcid c)) as (e & He & Hge); [lia|].
  unfold count_slice at 1. rewrite Hge. cbn [res_bind].
  pose proof (Forall_lookup_1 _ _ _ _ K5 He) as Hsid. cbn in Hsid. unfold MAX_NUM_PDU_SESSION in *.
  cbn [length] in Hlen, Hcs. destruct (Z.ltb_spec 0 (ms_sid e)) as [Hp|Hp]; cbn [andb].
  - destruct (Z.ltb_spec (ms_sid e) (Z.of_nat 8 + 1)) as [_|]; [|lia].
    destruct (arr_get_lt counts (Z.to_nat (ms_sid e))) as (n & Hn & ->); [lia|]. cbn [res_bind].
    rewrite arr_set_ok by lia. cbn [res_bind].
    pose proof (Forall_lookup_1 _ _ _ _ Hcs Hn) as Hnb. cbn in Hnb.
    unfold u16. rewrite Z.mod_small by lia.
    destruct (IH ltac:(lia) (<[Z.to_nat (ms_sid e) := n + 1]> counts)) as (cs & -> & C1 & C2 & C3).
    + by rewrite length_insert.
    + apply Forall_insert; [|lia]. eapply Forall_impl; [exact Hcs|]. cbn. intros; lia.
    + exists cs. split_and!; try done.
      * intros i m Hi. destruct (decide (i = Z.to_nat (ms_sid e))) as [->|Hne].
        -- destruct (C2 (Z.to_nat (ms_sid e)) (n + 1)) as (m' & ? & ?).
           { rewrite list_lookup_insert_eq by lia. done. }
           exists m'. split; [done|]. rewrite Hi in Hn. injection Hn as ->. lia.
        -- apply C2. by rewrite list_lookup_insert_ne.
      * intros c2 e2 [->|Hin]%elem_of_cons He2 Hp2; [|by eapply C3].
        rewrite He in He2. injection He2 as <-.
        destruct (C2 (Z.to_nat (ms_sid e)) (n + 1)) as (m' & ? & ?).
        { rewrite list_lookup_insert_eq by lia. done. }
        exists m'. split; [done|lia].
  - cbn [res_bind]. destruct (IH ltac:(lia) counts H9) as (cs & -> & C1 & C2 & C3).
    { eapply Forall_impl; [exact Hcs|]. cbn. intros; lia. }
    exists cs. split_and!; try done. intros c2 e2 [->|Hin]%elem_of_cons He2 Hp2; [|by eapply C3].
    rewrite He in He2. injection He2 as <-. lia.
Qed.

Lemma append_ok counts ids : Forall (fun i => (i < length counts)%nat) ids -> forall avail cursor,
  Forall (fun e => bytes e = 0) avail -> (cursor + length ids <= length avail)%nat ->
  exists avail' cursor', fold_res (append_slice counts) ids (avail, cursor) = Ok (avail', cursor') /\
    length avail' = length avail /\ (cursor <= cursor' <= cursor + length ids)%nat /\
    Forall (fun e => bytes e = 0) avail' /\
    sids avail' cursor' = sids avail cursor ++
      (Z.of_nat <$> filter (fun i => counts !! i <> Some 0) ids).
Proof.
  induction 1 as [|i ids Hi Hids IH]; intros avail cursor H0 Hlen; cbn [fold_res].
  { exists avail, cursor. split_and!; try done; try lia. by rewrite app_nil_r. }
  cbn [length] in Hlen. unfold append_slice at 1.
  destruct (arr_get_lt counts i Hi) as (n & Hn & ->). cbn [res_bind].
  destruct (Z.eqb_spec n 0) as [->|Hne].
  - cbn [res_bind]. destruct (IH avail cursor H0 ltac:(lia)) as (a & k & -> & A1 & A2 & A3 & A4).
    exists a, k. split_and!; try done; try lia. cbn [length]. lia. rewrite A4. f_equal.
    rewrite filter_cons_False; [done|]. rewrite Hn. intros Hc. by apply Hc.
  - destruct (arr_get_lt avail cursor ltac:(lia)) as (e & He & ->). cbn [res_bind].
    rewrite arr_set_ok by lia. cbn [res_bind].
    set (e' := e <| ms_sid := Z.of_nat i |>).
    destruct (IH (<[cursor := e']> avail) (S cursor)) as (a & k & -> & A1 & A2 & A3 & A4).
    { apply Forall_insert; [done|]. exact (Forall_lookup_1 _ _ _ _ H0 He). }
    { rewrite length_insert. lia. }
    exists a, k. rewrite length_insert in A1. split_and!; try done; try lia. cbn [length]. lia.
    rewrite A4. unfold sids. rewrite (take_S_r _ _ e') by (rewrite list_lookup_insert_eq by lia; done).
    rewrite take_insert_ge by lia. rewrite fmap_app, <- app_assoc. f_equal.
    rewrite filter_cons_True by (rewrite Hn; congruence). done.
Qed.

(** the listed slices of a UE: the default slice first, then other slices in
    increasing order, and every slice of a channel *)
Record listed (ctrl : NR_UE_sched_ctrl_t) (l : list Z) : Prop := mk_listed {
  ls_num : num_slice_d ctrl = S (length l);
  ls_avail : (num_slice_d ctrl <= length (avail_slice_list ctrl))%nat;
  ls_sids : sids (avail_slice_list ctrl) (num_slice_d ctrl) = 0 :: l;
  ls_nodup : NoDup (0 :: l);
  ls_pos : Forall (fun id => 0 < id) l;
  ls_lc : forall c e, c ∈ lc_config ctrl -> dl_sl_info ctrl !! lcid c = Some e -> ms_sid e ∈ 0 :: l
}.

Lemma nodup_sids (f : nat -> bool) n m : NoDup (Z.of_nat <$> filter (fun i => f i = true) (seq n m)).
Proof. apply NoDup_fmap; [intros ? ?; lia|]. apply NoDup_filter, NoDup_seq. Qed.

Lemma active_ok ctrl : ctrl_ok ctrl -> Z.of_nat (length (lc_config ctrl)) < 65536 ->
  exists ctrl' l, nr_get_ue_active_slice_list ctrl = Ok ctrl' /\ ctrl_ok ctrl' /\
    same_config ctrl ctrl' /\ listed ctrl' l /\
    Forall (fun e => bytes e = 0) (avail_slice_list ctrl').
Proof.
  intros Hk Hlen. pose proof Hk as [K1 K2 K3 K4 K5]. unfold nr_get_ue_active_slice_list.
  set (av := reset_avail <$> avail_slice_list ctrl).
  assert (Hav : length av = 9%nat) by (unfold av; by rewrite length_fmap, K3).
  destruct (arr_get_lt av 0 ltac:(lia)) as (e0 & He0 & ->). cbn [res_bind].
  rewrite arr_set_ok by lia. cbn [res_bind].
  destruct (count_ok ctrl (lc_config ctrl) Hk K4 Hlen (replicate (S MAX_NUM_PDU_SESSION) 0))
    as (counts & -> & C1 & _ & C3); [done| |].
  { apply Forall_replicate. lia. }
  cbn [res_bind].
  assert (Hz : Forall (fun e => bytes e = 0) av).
  { apply Forall_fmap, Forall_true. done. }
  destruct (append_ok counts (seq 1 MAX_NUM_PDU_SESSION)) with
    (avail := <[0%nat := e0 <| ms_sid := 0 |>]> av) (cursor := 1%nat)
    as (a & k & -> & A1 & A2 & A3 & A4).
  { apply Forall_forall. intros i [_ ?]%elem_of_seq. unfold MAX_NUM_PDU_SESSION in *. lia. }
  { apply Forall_insert; [done|]. exact (Forall_lookup_1 _ _ _ _ Hz He0). }
  { rewrite length_insert, Hav. unfold MAX_NUM_PDU_SESSION. cbn. lia. }
  cbn [res_bind]. rewrite length_insert, Hav in A1. rewrite length_seq in A2.
  set (l := Z.of_nat <$> filter (fun i => counts !! i <> Some 0) (seq 1 MAX_NUM_PDU_SESSION)) in *.
  assert (Hs : sids a k = 0 :: l).
  { rewrite A4. unfold sids. destruct av as [|x av]; [done|]. done. }
  assert (Hkl : k = S (length l)).
  { assert (Hl : length (sids a k) = k) by (unfold sids; rewrite length_fmap, length_take; unfold MAX_NUM_PDU_SESSION in *; lia).
    rewrite Hs in Hl. exact (eq_sym Hl). }
  assert (Hpos : Forall (fun id => 0 < id) l).
  { apply Forall_forall. intros x (i & -> & [_ [? _]%elem_of_seq]%list_elem_of_filter)%list_elem_of_fmap. lia. }
  eexists _, l. split; [done|]. split; [by split|]. split; [done|]. split; [|done].
  split; cbn [num_slice_d avail_slice_list dl_sl_info lc_config update]; try done.
  - unfold MAX_NUM_PDU_SESSION in *. lia.
  - constructor; [|by apply NoDup_fmap; [intros ? ?; lia|apply NoDup_filter, NoDup_seq]].
    intros Hin. pose proof (proj1 (Forall_forall _ _) Hpos 0 Hin). cbn in *. lia.
  - intros c e Hc He. pose proof (Forall_lookup_1 _ _ _ _ K5 He) as Hb. cbn in Hb.
      destruct (decide (ms_sid e = 0)) as [->|Hne]; [apply list_elem_of_here|].
      apply list_elem_of_further. destruct (C3 c e Hc He ltac:(lia)) as (n' & Hn & Hnp).
      apply list_elem_of_fmap. exists (Z.to_nat (ms_sid e)). split; [lia|].
      apply list_elem_of_filter. split; [rewrite Hn; intros [=]; lia|].
      apply elem_of_seq. unfold MAX_NUM_PDU_SESSION in *. lia.
Qed.

(** ** Third pass: the backlog *)

Lemma add_bytes_ok n : forall avail id b,
  (n <= length avail)%nat -> id ∈ sids avail n -> 0 <= b ->
  Forall (fun e => 0 <= bytes e) avail -> sum_bytes avail n + b < 4294967296 ->
  exists avail', add_slice_bytes avail n id b = Ok avail' /\ length avail' = length avail /\
    sids avail' n = sids avail n /\ sum_bytes avail' n = sum_bytes avail n + b /\
    Forall (fun e => 0 <= bytes e) avail'.
Proof.
  induction n as [|n IH]; intros [|e avail] id b Hn Hid Hb Hpos Hsum; try (cbn in *; lia);
    try (by apply elem_of_nil in Hid).
  cbn [add_slice_bytes]. apply Forall_cons in Hpos as [He Hpos].
  assert (Hnn : 0 <= sum_bytes avail n).
  { clear -Hpos. unfold sum_bytes. revert avail Hpos. induction n as [|n IH]; intros [|e avail] Hp; cbn; try lia.
    apply Forall_cons in Hp as [? Hp]. specialize (IH _ Hp). lia. }
  unfold sum_bytes in Hsum. cbn [take foldr] in Hsum. fold (sum_bytes avail n) in Hsum.
  destruct (Z.eqb_spec (ms_sid e) id) as [Heq|Hne].
  - eexists. split; [done|]. unfold u32. rewrite Z.mod_small by lia. split_and!; try done.
    + unfold sum_bytes. cbn. lia.
    + constructor; [cbn; lia|done].
  - unfold sids in Hid. cbn [take fmap list_fmap] in Hid.
    apply elem_of_cons in Hid as [Hid|Hid]; [congruence|]. cbn in Hn.
    destruct (IH avail id b ltac:(lia) Hid Hb Hpos ltac:(lia)) as (a & -> & A1 & A2 & A3 & A4).
    cbn [res_bind]. eexists. split; [done|]. split_and!.
    + cbn. by rewrite A1.
    + unfold sids in *. cbn. by rewrite A2.
    + unfold sum_bytes in *. cbn [take foldr]. rewrite A3. lia.
    + by constructor.
Qed.

Section Buffer.
Variable status : nat -> mac_rlc_status_resp_t.

(** the bytes of a channel that count for the downlink *)
Definition live_bytes (ctrl : NR_UE_sched_ctrl_t) (c : nr_lc_config_t) : Z :=
  if suspended c || interrupted ctrl c then 0 else bytes_in_buffer (status (lcid c)).
Definition backlog (ctrl : NR_UE_sched_ctrl_t) (l : list nr_lc_config_t) : Z :=
  foldr (fun c t => live_bytes ctrl c + t) 0 l.

Hypothesis status_nonneg : forall i, 0 <= bytes_in_buffer (status i).

Lemma live_nonneg ctrl c : 0 <= live_bytes ctrl c.
Proof using status_nonneg. unfold live_bytes. destruct (_ || _); [lia|apply status_nonneg]. Qed.
Lemma backlog_nonneg ctrl l : 0 <= backlog ctrl l.
Proof using status_nonneg.
  induction l as [|c l IH]; cbn [backlog foldr]; [lia|]. pose proof (live_nonneg ctrl c).
  fold (backlog ctrl l). lia.
Qed.

(** the totals agree: every byte counted is in one listed slice *)
Record balanced (ctrl : NR_UE_sched_ctrl_t) (l : list Z) (total : Z) : Prop := mk_balanced {
  bl_ok : ctrl_ok ctrl;
  bl_listed : listed ctrl l;
  bl_pos : Forall (fun e => 0 <= bytes e) (avail_slice_list ctrl);
  bl_total : num_total_bytes ctrl = total;
  bl_sum : sum_bytes (avail_slice_list ctrl) (num_slice_d ctrl) = total
}.

Lemma store_lc_ok ctrl l total c :
  balanced ctrl l total -> c ∈ lc_config ctrl -> 0 <= total ->
  total + live_bytes ctrl c < 4294967296 ->
  exists ctrl', store_lc_buffer status ctrl c = Ok ctrl' /\
    balanced ctrl' l (total + live_bytes ctrl c) /\ same_config ctrl ctrl'.
Proof using status_nonneg.
  intros [Hk Hl Hp Ht Hs] Hc H0 Hb. pose proof Hk as [K1 K2 K3 K4 K5].
  pose proof (proj1 (Forall_forall _ _) K4 c Hc) as Hlt. cbn in Hlt.
  unfold store_lc_buffer. rewrite arr_set_ok by lia. cbn [res_bind].
  set (ctrl1 := ctrl <| rlc_status := _ |>).
  assert (Hk1 : ctrl_ok ctrl1) by (split; try done; cbn; by rewrite length_insert).
  assert (Hl1 : listed ctrl1 l) by (destruct Hl; by split).
  change (interrupted ctrl1 c) with (interrupted ctrl c). unfold live_bytes in *.
  destruct (suspended c); [rewrite Z.add_0_r in *; by exists ctrl1|].
  destruct (interrupted ctrl c); [rewrite Z.add_0_r in *; by exists ctrl1|]. cbn [orb] in *.
  rewrite arr_set_ok by (cbn; rewrite length_insert; lia). cbn [res_bind].
  set (ctrl2 := ctrl1 <| rlc_status := _ |>).
  assert (Hk2 : ctrl_ok ctrl2) by (split; try done; cbn; by rewrite !length_insert).
  assert (Hl2 : listed ctrl2 l) by (destruct Hl; by split).
  destruct (Z.eqb_spec (bytes_in_buffer (status (lcid c))) 0) as [->|Hne].
  { rewrite Z.add_0_r. exists ctrl2. done. }
  destruct (arr_get_lt (dl_sl_info ctrl2) (lcid c)) as (e & He & ->); [cbn; lia|]. cbn [res_bind].
  pose proof (ls_lc _ _ Hl2 c e Hc He) as Hin. rewrite <- (ls_sids _ _ Hl2) in Hin.
  destruct (add_bytes_ok (num_slice_d ctrl2) (avail_slice_list ctrl2) (ms_sid e)
    (bytes_in_buffer (status (lcid c))) (ls_avail _ _ Hl2) Hin (status_nonneg _) Hp)
    as (a & -> & A1 & A2 & A3 & A4); [change (sum_bytes (avail_slice_list ctrl) (num_slice_d ctrl) + bytes_in_buffer (status (lcid c)) < 4294967296); lia|].
  cbn [res_bind].
  eexists. split; [done|]. split; [|done]. split.
  - split; try done; cbn; [by rewrite !length_insert|by rewrite A1].
  - destruct Hl as [L1 L2 L3 L4 L5 L6]. split; try done; cbn in *; [by rewrite A1|by rewrite A2].
  - done.
  - cbn. unfold u32. pose proof (status_nonneg (lcid c)). rewrite Z.mod_small; lia.
  - exact (eq_trans A3 (f_equal (fun x => x + bytes_in_buffer (status (lcid c))) Hs)).
Qed.

Lemma store_fold_ok ctrl l cs : forall s t,
  0 <= t -> same_config ctrl s -> (forall c, c ∈ cs -> c ∈ lc_config s) -> balanced s l t ->
  t + backlog ctrl cs < 4294967296 ->
  exists s', fold_res (store_lc_buffer status) cs s = Ok s' /\
    balanced s' l (t + backlog ctrl cs) /\ same_config ctrl s'.
Proof using status_nonneg.
  induction cs as [|c cs IH]; intros s t Ht Hsc Hsub Hbal Hb; cbn [fold_res].
  { exists s. cbn. by rewrite Z.add_0_r. }
  cbn [backlog foldr] in Hb |- *. fold (backlog ctrl cs) in *.
  pose proof (backlog_nonneg ctrl cs). pose proof (live_nonneg ctrl c).
  assert (Hlive : live_bytes s c = live_bytes ctrl c).
  { unfold live_bytes, interrupted. by rewrite (proj1 (proj2 Hsc)). }
  destruct (store_lc_ok s l t c Hbal) as (s1 & -> & B1 & C1); [apply Hsub, list_elem_of_here|lia|lia|].
  cbn [res_bind]. rewrite Hlive in B1.
  destruct (IH s1 (t + live_bytes ctrl c)) as (s2 & E2 & B2 & C2); try lia; try done.
  - by transitivity s.
  - intros c2 H2. rewrite (proj1 C1). apply Hsub. by apply list_elem_of_further.
  - exists s2. split; [done|]. split; [|done]. by rewrite Z.add_assoc.
Qed.

Lemma store_buffer_ok ctrl l :
  ctrl_ok ctrl -> listed ctrl l -> Forall (fun e => bytes e = 0) (avail_slice_list ctrl) ->
  backlog ctrl (lc_config ctrl) < 4294967296 ->
  exists ctrl', nr_store_dlsch_buffer status ctrl = Ok ctrl' /\
    balanced ctrl' l (backlog ctrl (lc_config ctrl)) /\ same_config ctrl ctrl'.
Proof using status_nonneg.
  intros Hk Hl Hz Hb. unfold nr_store_dlsch_buffer.
  set (ctrl0 := ctrl <| num_total_bytes := 0 |> <| dl_pdus_total := 0 |>).
  assert (H0 : balanced ctrl0 l 0).
  { split; try done.
    - by destruct Hk.
    - by destruct Hl.
    - eapply Forall_impl; [exact Hz|]. cbn. intros; lia.
    - cbn. clear -Hz. unfold sum_bytes. generalize (num_slice_d ctrl) as n.
      induction Hz as [|e av He Hz IH]; intros [|n]; cbn; try done. rewrite IH. lia. }
  destruct (store_fold_ok ctrl l (lc_config ctrl) ctrl0 0) as (s' & H1 & H2 & H3); try done.
  by exists s'.
Qed.
End Buffer.

(** ** Last pass: the selection *)

Lemma bytes_in_entry n : forall avail e,
  NoDup (sids avail n) -> e ∈ take n avail -> bytes_in avail n (ms_sid e) = bytes e.
Proof.
  induction n as [|n IH]; intros [|x avail] e Hnd He; try (by apply elem_of_nil in He).
  cbn [take] in He. unfold sids in Hnd. cbn [take fmap list_fmap] in Hnd.
  apply NoDup_cons in Hnd as [Hni Hnd]. cbn [bytes_in].
  apply elem_of_cons in He as [->|He]; [by rewrite Z.eqb_refl|].
  rewrite (proj2 (Z.eqb_neq _ _)); [by apply IH|]. intros Heq. apply Hni. rewrite Heq.
  by apply (list_elem_of_fmap_2 ms_sid).
Qed.

(** the best entry is one of the list, or the initial one when nothing has bytes *)
Lemma best_slice_ok l : forall best, Forall (fun e => 0 <= ms_sid e) l -> 0 <= snd best ->
  let r := fold_left better_slice l best in
  (r = best \/ exists e, e ∈ l /\ r = (ms_sid e, bytes e)) /\ snd best <= snd r /\
  (forall e, e ∈ l -> bytes e <= snd r).
Proof.
  induction l as [|e l IH]; intros best Hp Hb; cbn [fold_left].
  { split; [by left|]. split; [lia|]. by intros e ?%elem_of_nil. }
  apply Forall_cons in Hp as [He Hp]. cbv zeta.
  assert (better_slice best e = if snd best <? bytes e then (ms_sid e, bytes e) else best) as ->.
  { unfold better_slice. by rewrite (proj2 (Z.ltb_ge (ms_sid e) 0)). }
  destruct (Z.ltb_spec (snd best) (bytes e)) as [Hlt|Hge].
  - destruct (IH (ms_sid e, bytes e) Hp ltac:(cbn; lia)) as ([H1|(x & Hx & H1)] & H2 & H3); cbn [snd] in *.
    + split; [right; exists e; split; [apply list_elem_of_here|done]|]. split; [lia|].
      intros y [->|Hy]%elem_of_cons; [done|by apply H3].
    + split; [right; exists x; split; [by apply list_elem_of_further|done]|]. split; [lia|].
      intros y [->|Hy]%elem_of_cons; [done|by apply H3].
  - destruct (IH best Hp Hb) as ([H1|(x & Hx & H1)] & H2 & H3).
    + split; [by left|]. split; [lia|]. intros y [->|Hy]%elem_of_cons; [lia|by apply H3].
    + split; [right; exists x; split; [by apply list_elem_of_further|done]|]. split; [lia|].
      intros y [->|Hy]%elem_of_cons; [lia|by apply H3].
Qed.

(** what the selection promises about the selected slice [sel] *)
Record good_selection (ctrl : NR_UE_sched_ctrl_t) (sel : Z) : Prop := mk_good {
  gs_listed : sel ∈ sids (avail_slice_list ctrl) (num_slice_d ctrl);
  gs_nonneg : 0 <= sel;
  gs_default : 0 < bytes_for_slice ctrl 0 -> sel = 0;
  gs_most : bytes_for_slice ctrl 0 = 0 ->
    forall id, id ∈ sids (avail_slice_list ctrl) (num_slice_d ctrl) ->
    bytes_for_slice ctrl id <= bytes_for_slice ctrl sel
}.

Lemma select_ok ctrl l slot i :
  listed ctrl l -> Forall (fun e => 0 <= bytes e) (avail_slice_list ctrl) ->
  exists sel, nr_mac_select_slice_for_ue ctrl slot i = Ok sel /\ good_selection ctrl sel.
Proof.
  intros [L1 L2 L3 L4 L5 _] Hp. unfold nr_mac_select_slice_for_ue.
  set (n := num_slice_d ctrl) in *. set (av := avail_slice_list ctrl) in *.
  assert (Hmem : forall k e, (k < n)%nat -> av !! k = Some e -> e ∈ take n av).
  { intros k e Hk He. apply list_elem_of_lookup. exists k. by rewrite lookup_take_lt. }
  assert (Hin : forall e, e ∈ take n av -> ms_sid e ∈ sids av n /\ 0 <= ms_sid e /\
    bytes_for_slice ctrl (ms_sid e) = bytes e /\ 0 <= bytes e).
  { intros e He. assert (Hs : ms_sid e ∈ sids av n) by (by apply list_elem_of_fmap_2).
    split; [done|]. split; [|split].
    - rewrite L3 in Hs. apply elem_of_cons in Hs as [->|Hs]; [lia|].
      pose proof (proj1 (Forall_forall _ _) L5 _ Hs). cbn in *. lia.
    - apply bytes_in_entry; [|done]. change (NoDup (sids av n)). by rewrite L3.
    - apply (proj1 (Forall_forall _ _) Hp). by eapply (subseteq_take n). }
  assert (Hall : forall id, id ∈ sids av n -> exists e, e ∈ take n av /\ id = ms_sid e).
  { intros id (e & -> & He)%list_elem_of_fmap. by exists e. }
  rewrite (proj2 (Nat.eqb_neq n 0)) by lia.
  destruct (arr_get_lt av 0 ltac:(lia)) as (d & Hd & ->). cbn [res_bind].
  assert (Hd0 : ms_sid d = 0).
  { assert (Hx : sids av n !! 0%nat = Some (ms_sid d)).
    { unfold sids. rewrite list_lookup_fmap, lookup_take_lt, Hd by lia. done. }
    rewrite L3 in Hx. by injection Hx. }
  destruct (Hin d ltac:(apply (Hmem 0%nat); [lia|done])) as (Hd1 & _ & Hd3 & Hd4). rewrite Hd0 in Hd1, Hd3.
  rewrite Hd0. change (0 <? 0) with false. cbn match.
  destruct (Z.ltb_spec 0 (bytes d)) as [Hpos|Hz].
  { exists 0. split; [done|]. split; [done|lia|done|]. rewrite Hd3. lia. }
  destruct (Nat.ltb_spec (length av) n); [lia|].
  assert (Htl : forall e, e ∈ drop 1 (take n av) -> e ∈ take n av).
  { intros e He. by eapply (subseteq_drop 1). }
  pose proof (best_slice_ok (drop 1 (take n av)) (0, 0)) as Hbest. cbn zeta in Hbest.
  destruct (fold_left better_slice (drop 1 (take n av)) (0, 0)) as [bs bb].
  destruct Hbest as (Hor & Hge & Hmax).
  { apply Forall_forall. intros e He. apply Hin, Htl, He. }
  { cbn. lia. }
  cbn [snd] in *.
  assert (Hle : forall e, e ∈ take n av -> bytes e <= bb).
  { intros e He. destruct (take n av) as [|d' tl] eqn:E; [by apply elem_of_nil in He|].
    assert (d' = d) as ->.
    { assert (Hx : take n av !! 0%nat = Some d) by (rewrite lookup_take_lt by lia; done).
      rewrite E in Hx. by injection Hx. }
    apply elem_of_cons in He as [->|He]; [lia|]. by apply Hmax. }
  assert (Hmost : forall sel, sel ∈ sids av n -> 0 <= sel ->
    bytes_for_slice ctrl sel = bb -> good_selection ctrl sel).
  { intros sel Hs Hs0 Hb. split; [done|done|rewrite Hd3; lia|]. intros _ id Hid.
    destruct (Hall id Hid) as (e & He & ->). destruct (Hin e He) as (_ & _ & -> & _).
    rewrite Hb. by apply Hle. }
  assert (Hentry : forall e, e ∈ take n av -> bytes e = bb -> good_selection ctrl (ms_sid e)).
  { intros e He Hb. destruct (Hin e He) as (? & ? & Hbb & _). apply Hmost; try done. congruence. }
  destruct (Z.ltb_spec 0 bb) as [Hbb|Hbb].
  { exists bs. split; [done|]. destruct Hor as [Hor|(e & He & Hor)]; [injection Hor; lia|].
    injection Hor as -> Hb. apply Hentry; [by apply Htl|done]. }
  assert (Hk : forall k, (k < n)%nat -> exists e, arr_get av k = Ok e /\ good_selection ctrl (ms_sid e)).
  { intros k Hk. destruct (arr_get_lt av k ltac:(lia)) as (e & He & Hg). exists e. split; [done|].
    pose proof (Hmem k e Hk He) as Hm. apply Hentry; [done|].
    destruct (Hin e Hm) as (_ & _ & _ & ?). specialize (Hle e Hm). lia. }
  destruct (Nat.eqb_spec n 2) as [Hn2|Hn2].
  { destruct (Hk 1%nat ltac:(lia)) as (e & -> & He). by exists (ms_sid e). }
  destruct (Nat.leb_spec 3 n) as [Hn3|Hn3].
  - destruct (Hk 1%nat ltac:(lia)) as (e1 & -> & He1), (Hk 2%nat ltac:(lia)) as (e2 & -> & He2).
    cbn [res_bind]. destruct (Bool.eqb _ _); eexists; split; done.
  - exists 0. split; [done|]. apply Hmost; [done|lia|lia].
Qed.

(** ** The passes *)

Lemma pass_ok (R : nat -> NR_UE_sched_ctrl_t -> NR_UE_sched_ctrl_t -> Prop) f ues : forall i,
  (forall k ue, ues !! k = Some ue -> exists ue', f (i + k)%nat ue = Ok ue' /\ R (i + k)%nat ue ue') ->
  exists ues', pass f i ues = Ok ues' /\ length ues' = length ues /\
    forall k ue', ues' !! k = Some ue' -> exists ue, ues !! k = Some ue /\ R (i + k)%nat ue ue'.
Proof.
  induction ues as [|ue ues IH]; intros i Hf; cbn [pass].
  { exists []. split_and!; done. }
  destruct (Hf 0%nat ue eq_refl) as (ue' & H1 & HR). rewrite Nat.add_0_r in *. rewrite H1. cbn [res_bind].
  destruct (IH (S i)) as (ues' & -> & Hlen & Hall).
  { intros k u Hk. destruct (Hf (S k) u Hk) as (u' & H2 & H3).
    replace (S i + k)%nat with (i + S k)%nat by lia. by exists u'. }
  cbn [res_bind]. exists (ue' :: ues'). split; [done|]. split; [by cbn; rewrite Hlen|].
  intros [|k] u Hk.
  - injection Hk as <-. exists ue. by rewrite Nat.add_0_r.
  - destruct (Hall k u Hk) as (u0 & H2 & H3). exists u0. split; [done|].
    by replace (i + S k)%nat with (S i + k)%nat by lia.
Qed.

(** the backlog and the selection of a UE after the passes *)
Record served (status : nat -> mac_rlc_status_resp_t) (ctrl ctrl' : NR_UE_sched_ctrl_t) : Prop := mk_served {
  sv_total : num_total_bytes ctrl' = backlog status ctrl (lc_config ctrl);
  sv_slices : sum_bytes (avail_slice_list ctrl') (num_slice_d ctrl') = num_total_bytes ctrl';
  sv_nodup : NoDup (sids (avail_slice_list ctrl') (num_slice_d ctrl'));
  sv_sel : ul_failure ctrl = false -> good_selection ctrl' (slice_for_this_sched ctrl');
  sv_data : ul_failure ctrl = false -> 0 < num_total_bytes ctrl' ->
    0 < bytes_for_slice ctrl' (slice_for_this_sched ctrl')
}.

Lemma sum_some_positive avail n : 0 < sum_bytes avail n -> exists e, e ∈ take n avail /\ 0 < bytes e.
Proof.
  unfold sum_bytes. induction (take n avail) as [|e l IH]; cbn; [lia|]. intros H.
  destruct (Z.ltb_spec 0 (bytes e)); [exists e; split; [apply list_elem_of_here|done]|].
  destruct IH as (x & Hx & ?); [lia|]. exists x. split; [by apply list_elem_of_further|done].
Qed.

Lemma select_served status ctrl0 ctrl l slot i :
  same_config ctrl0 ctrl -> balanced ctrl l (backlog status ctrl0 (lc_config ctrl0)) ->
  exists ctrl', select_ue slot i ctrl = Ok ctrl' /\ served status ctrl0 ctrl'.
Proof.
  intros (Hc1 & Hc2 & Hc3) [Hk Hl Hp Ht Hs]. unfold select_ue. rewrite Hc3.
  assert (Hnd : NoDup (sids (avail_slice_list ctrl) (num_slice_d ctrl))).
  { rewrite (ls_sids _ _ Hl). apply Hl. }
  destruct (ul_failure ctrl0) eqn:Ef.
  { exists ctrl. split; [done|]. split; congruence. }
  destruct (select_ok ctrl l slot (Z.of_nat i) Hl Hp) as (sel & -> & Hg). cbn [res_bind].
  rewrite (proj2 (Z.ltb_ge sel 0)) by apply Hg. eexists. split; [done|].
  split; [exact Ht| |exact Hnd| |].
  - change (sum_bytes (avail_slice_list ctrl) (num_slice_d ctrl) = num_total_bytes ctrl). congruence.
  - intros _. destruct Hg. by split.
  - intros _ Hpos. destruct Hg as [G1 G2 G3 G4].
    change (0 < bytes_for_slice ctrl sel). change (0 < num_total_bytes ctrl) in Hpos.
    destruct (sum_some_positive (avail_slice_list ctrl) (num_slice_d ctrl)) as (e & He & Hb); [lia|].
    assert (Hbe : bytes_for_slice ctrl (ms_sid e) = bytes e) by (by apply bytes_in_entry).
    assert (Hz : 0 ∈ sids (avail_slice_list ctrl) (num_slice_d ctrl)).
    { rewrite (ls_sids _ _ Hl). apply list_elem_of_here. }
    destruct (Z.lt_trichotomy (bytes_for_slice ctrl 0) 0) as [Hn|[Hn|Hn]].
    + exfalso. apply list_elem_of_fmap in Hz as (d & Hd & Hdm). rewrite Hd in Hn.
      unfold bytes_for_slice in Hn. rewrite bytes_in_entry in Hn by done.
      apply (subseteq_take (num_slice_d ctrl)) in Hdm. pose proof (proj1 (Forall_forall _ _) Hp _ Hdm). cbn in *. lia.
    + specialize (G4 Hn (ms_sid e) ltac:(by apply list_elem_of_fmap_2)). lia.
    + by rewrite (G3 Hn).
Qed.

(** C12: with a consistent slice table the slice passes over the connected UEs
    return.  Every byte the RLC reports for a channel is assigned to exactly
    one listed slice of its UE, and a UE that can be scheduled and has data is
    given a slice with data: the default slice when that one has data, and
    otherwise one with the most bytes. *)
Theorem slice_passes_serve info l status slot ues :
  table_of info l ->
  (forall i j, 0 <= bytes_in_buffer (status i j)) ->
  (forall i ctrl, ues !! i = Some ctrl -> ctrl_ok ctrl /\
    Z.of_nat (length (lc_config ctrl)) < 65536 /\
    backlog (status i) ctrl (lc_config ctrl) < 4294967296) ->
  exists ues', slice_passes info status slot ues = Ok ues' /\ length ues' = length ues /\
    forall i ctrl', ues' !! i = Some ctrl' ->
      exists ctrl, ues !! i = Some ctrl /\ served (status i) ctrl ctrl'.
Proof.
  intros Ht Hst Hues. unfold slice_passes.
  destruct (pass_ok (fun i u u' => ctrl_ok u' /\ same_config u u')
    (fun _ => nr_store_dl_slice_info info) ues 0) as (u1 & -> & Len1 & P1).
  { intros k u Hu. destruct (Hues k u Hu) as (Hk & _ & _).
    destruct (store_info_ok info l u Ht Hk) as (u' & ? & ? & ?). by exists u'. }
  cbn [res_bind].
  destruct (pass_ok (fun i u u' => ctrl_ok u' /\ same_config u u' /\ exists l, listed u' l /\
    Forall (fun e => bytes e = 0) (avail_slice_list u')) (fun _ => nr_get_ue_active_slice_list) u1 0)
    as (u2 & -> & Len2 & P2).
  { intros k u Hu. destruct (P1 k u Hu) as (u0 & Hu0 & Hk & Hsc). destruct (Hues k u0 Hu0) as (_ & Hlen & _).
    destruct (active_ok u Hk) as (u' & l' & ? & ? & ? & ? & ?); [by rewrite (proj1 Hsc)|].
    exists u'. split; [done|]. split; [done|]. split; [done|]. by exists l'. }
  cbn [res_bind].
  destruct (pass_ok (fun i u u' => same_config u u' /\ exists l,
    balanced u' l (backlog (status i) u (lc_config u))) (fun i => nr_store_dlsch_buffer (status i)) u2 0)
    as (u3 & -> & Len3 & P3).
  { intros k u Hu. destruct (P2 k u Hu) as (u10 & Hu1 & Hk & Hsc1 & l' & Hl & Hz).
    destruct (P1 k u10 Hu1) as (u0 & Hu0 & _ & Hsc0). destruct (Hues k u0 Hu0) as (_ & _ & Hb).
    assert (Hsc : same_config u0 u) by (by transitivity u10).
    destruct (store_buffer_ok (status k) (Hst k) u l' Hk Hl Hz) as (u' & ? & ? & ?).
    { destruct Hsc as (E1 & E2 & _). rewrite E1. unfold backlog, live_bytes, interrupted in *. by rewrite E2. }
    exists u'. split; [done|]. split; [done|]. by exists l'. }
  cbn [res_bind].
  destruct (pass_ok (fun i u u' => exists u0, ues !! i = Some u0 /\ served (status i) u0 u')
    (select_ue slot) u3 0) as (u4 & H4 & Len4 & P4).
  { intros k u Hu. destruct (P3 k u Hu) as (u20 & Hu2 & Hsc2 & l' & Hbal).
    destruct (P2 k u20 Hu2) as (u10 & Hu1 & _ & Hsc1 & _).
    destruct (P1 k u10 Hu1) as (u0 & Hu0 & _ & Hsc0).
    assert (Hsc : same_config u0 u20) by (by transitivity u10).
    destruct (select_served (status k) u0 u l' slot k) as (u' & H1 & H2).
    - by transitivity u20.
    - destruct Hsc as (E1 & E2 & _). rewrite E1 in Hbal.
      unfold backlog, live_bytes, interrupted in *. by rewrite E2 in Hbal.
    - exists u'. split; [done|]. by exists u0. }
  exists u4. split; [done|]. split; [congruence|]. intros i c Hc.
  destruct (P4 i c Hc) as (_ & _ & u0 & Hu0 & Hs). by exists u0.
Qed.

Definition wt_slices : list NR_slice_info_t :=
  [mk_slice 0 (mk_nssai 0 0xffffff) default_slice_policy;
   mk_slice 1 (mk_nssai 1 0x010203) (mk_policy 10 20 60)].
Definition wt_info : NR_Slices_t :=
  mk_slices true 2 ((Some <$> wt_slices) ++ replicate 7 None).
Definition wt_ctrl : NR_UE_sched_ctrl_t :=
  mk_ctrl 0 0 [mk_lc 1 false (mk_nssai 0 0xffffff); mk_lc 4 false (mk_nssai 1 0x010203)] false false
    (replicate 32 (mk_status 0 0)) (replicate 32 (mk_ms 0 (mk_nssai 0 0) 0))
    (replicate 9 (mk_ms 0 (mk_nssai 0 0) 0)) 0 0.
(** the signalling channel is empty and the data channel has 700 bytes *)
Definition wt_status (_ lcid : nat) : mac_rlc_status_resp_t :=
  if Nat.eqb lcid 4 then mk_status 700 2 else mk_status 0 0.

Lemma wt_table : table_of wt_info wt_slices.
Proof.
  split; try done; [cbn; unfold MAX_NUM_SLICE; lia|].
  repeat constructor; cbn; lia.
Qed.

Lemma slice_passes_serve_witness : exists ues',
  slice_passes wt_info wt_status 0 [wt_ctrl] = Ok ues' /\ length ues' = 1%nat /\
  (slice_for_this_sched <$> ues') = [1].
Proof.
  destruct (slice_passes_serve wt_info wt_slices wt_status 0 [wt_ctrl]) as (ues' & H & Hl & _).
  - exact wt_table.
  - intros i j. unfold wt_status. destruct (Nat.eqb j 4); cbn; lia.
  - intros [|i] c; [|done]. intros [= <-]. split.
    + split; try done; repeat constructor; cbn; unfold NR_MAX_NUM_LCID, MAX_NUM_PDU_SESSION; lia.
    + split; cbn; lia.
  - exists ues'. split; [exact H|]. split; [exact Hl|].
    assert (E : slice_passes wt_info wt_status 0 [wt_ctrl] = Ok ues') by exact H.
    vm_compute in E. injection E as <-. reflexivity.
Defined.
