(* ===== verification/Tbs.v ===== *)
(** * Transport block sizes and the search for the number of resource blocks

    openair2/LAYER2/NR_MAC_COMMON/nr_compute_tbs_common.c, the MCS tables of
    nr_mac_common.c and [nr_find_nb_rb] of NR_MAC_gNB/gNB_scheduler_primitives.c.

    [log2] of the C library on an integer below 2^32 rounds down to
    [Z.log2]; [log2(0)] is minus infinity, which [max] replaces. *)
From S2P Require Import Prelude.

(** ** MCS tables *)

Definition Table_51311 : list (Z * Z) :=
  [(2,1200);(2,1570);(2,1930);(2,2510);(2,3080);(2,3790);(2,4490);(2,5260);
   (2,6020);(2,6790);(4,3400);(4,3780);(4,4340);(4,4900);(4,5530);(4,6160);
   (4,6580);(6,4380);(6,4660);(6,5170);(6,5670);(6,6160);(6,6660);(6,7190);
   (6,7720);(6,8220);(6,8730);(6,9100);(6,9480);(2,0);(4,0);(6,0)].

Definition Table_51312 : list (Z * Z) :=
  [(2,1200);(2,1930);(2,3080);(2,4490);(2,6020);(4,3780);(4,4340);
   (4,4900);(4,5530);(4,6160);(4,6580);(6,4660);(6,5170);(6,5670);
   (6,6160);(6,6660);(6,7190);(6,7720);(6,8220);(6,8730);(8,6825);
   (8,7110);(8,7540);(8,7970);(8,8410);(8,8850);(8,9165);(8,9480);
   (2,0);(4,0);(6,0);(8,0)].

Definition Table_51313 : list (Z * Z) :=
  [(2,300);(2,400);(2,500);(2,640);(2,780);(2,990);(2,1200);(2,1570);
   (2,1930);(2,2510);(2,3080);(2,3790);(2,4490);(2,5260);(2,6020);(4,3400);
   (4,3780);(4,4340);(4,4900);(4,5530);(4,6160);(6,4380);(6,4660);(6,5170);
   (6,5670);(6,6160);(6,6660);(6,7190);(6,7720);(2,0);(4,0);(6,0)].

Definition Table_61411 : list (Z * Z) :=
  [(2,1200);(2,1570);(2,1930);(2,2510);(2,3080);(2,3790);(2,4490);
   (2,5260);(2,6020);(2,6790);(4,3400);(4,3780);(4,4340);(4,4900);
   (4,5530);(4,6160);(4,6580);(6,4660);(6,5170);(6,5670);(6,6160);
   (6,6660);(6,7190);(6,7720);(6,8220);(6,8730);(6,9100);(6,9480);
   (2,0);(2,0);(4,0);(6,0)].

Definition Table_61412 : list (Z * Z) :=
  [(2,300);(2,400);(2,500);(2,640);(2,780);(2,990);(2,1200);
   (2,1570);(2,1930);(2,2510);(2,3080);(2,3790);(2,4490);(2,5260);
   (2,6020);(2,6790);(4,3780);(4,4340);(4,4900);(4,5530);(4,6160);
   (4,6580);(4,6990);(4,7720);(6,5670);(6,6160);(6,6660);(6,7720);
   (2,0);(2,0);(4,0);(6,0)].

(** an entry of a table, 0 for an index above 31 *)
Definition mcs_entry (f : Z * Z -> Z) (table : list (Z * Z)) (Imcs : Z) : Z :=
  if 31 <? Imcs then 0 else default 0 (f <$> table !! Z.to_nat Imcs).

Definition dl_table (table_idx : Z) : option (list (Z * Z)) :=
  match table_idx with
  | 0 => Some Table_51311 | 1 => Some Table_51312 | 2 => Some Table_51313
  | _ => None
  end.
Definition ul_table (table_idx : Z) : option (list (Z * Z)) :=
  match table_idx with
  | 0 => Some Table_51311 | 1 => Some Table_51312 | 2 => Some Table_51313
  | 3 => Some Table_61411 | 4 => Some Table_61412
  | _ => None
  end.
Definition nr_get_Qm_dl (Imcs table_idx : Z) : Z :=
  default 0 ((fun t => mcs_entry fst t Imcs) <$> dl_table table_idx).
Definition nr_get_code_rate_dl (Imcs table_idx : Z) : Z :=
  default 0 ((fun t => mcs_entry snd t Imcs) <$> dl_table table_idx).
Definition nr_get_Qm_ul (Imcs table_idx : Z) : Z :=
  default 0 ((fun t => mcs_entry fst t Imcs) <$> ul_table table_idx).
Definition nr_get_code_rate_ul (Imcs table_idx : Z) : Z :=
  default 0 ((fun t => mcs_entry snd t Imcs) <$> ul_table table_idx).

(** ** Transport block size *)

Definition NR_MAX_PDSCH_TBS : Z := 3824.

Definition Tbstable_nr : list Z :=
  [24;   32;   40;   48;   56;   64;   72;   80;   88;   96;   104;  112;  120;  128;  136;  144;  152;  160;  168;
   176;  184;  192;  208;  224;  240;  256;  272;  288;  304;  320;  336;  352;  368;  384;  408;  432;  456;  480;
   504;  528;  552;  576;  608;  640;  672;  704;  736;  768;  808;  848;  888;  928;  984;  1032; 1064; 1128; 1160;
   1192; 1224; 1256; 1288; 1320; 1352; 1416; 1480; 1544; 1608; 1672; 1736; 1800; 1864; 1928; 2024; 2088; 2152; 2216;
   2280; 2408; 2472; 2536; 2600; 2664; 2728; 2792; 2856; 2976; 3104; 3240; 3368; 3496; 3624; 3752; 3824].

Definition NPRB_LBRM : list Z := [32; 66; 107; 135; 162; 217; 273].

Definition CEILIDIV (a b : Z) : Z := (a + b - 1) / b.
Definition ROUNDIDIV (a b : Z) : Z := (Z.shiftl a 1 + b) / Z.shiftl b 1.

(** the first entry of a table that is not below [v], 0 without one *)
Fixpoint first_not_below (table : list Z) (v : Z) : Z :=
  match table with
  | [] => 0
  | t :: table => if v <=? t then t else first_not_below table v
  end.

(** the size for at most [NR_MAX_PDSCH_TBS] information bits *)
Definition tbs_from_table (Ninfo : Z) : Z :=
  let n := Z.max 3 (Z.log2 Ninfo - 6) in
  let Np_info := Z.max 24 (Z.shiftl (Z.shiftr Ninfo n) n) in
  first_not_below Tbstable_nr Np_info.

(** the size for more bits; [low_rate]: segmentation for code rates up to 1/4 *)
Definition quantized_info (Ninfo : Z) : Z :=
  let n := Z.log2 (Ninfo - 24) - 5 in
  Z.max 3840 (Z.shiftl (ROUNDIDIV (Ninfo - 24) (Z.shiftl 1 n)) n).
Definition segments_tbs (C Np_info : Z) : Z :=
  Z.shiftl C 3 * CEILIDIV (Np_info + 24) (Z.shiftl C 3) - 24.
Definition tbs_from_segments (low_rate : bool) (Ninfo : Z) : Z :=
  let Np_info := quantized_info Ninfo in
  if low_rate then
    segments_tbs (CEILIDIV (Np_info + 24) 3816) Np_info
  else if 8424 <? Np_info then
    segments_tbs (CEILIDIV (Np_info + 24) 8424) Np_info
  else Z.shiftl (CEILIDIV (Np_info + 24) 8) 3 - 24.

Definition tbs_of_info (low_rate : bool) (Ninfo : Z) : Z :=
  if Ninfo <=? NR_MAX_PDSCH_TBS then tbs_from_table Ninfo else tbs_from_segments low_rate Ninfo.

Definition nr_compute_tbs (Qm R nb_rb nb_symb_sch nb_dmrs_prb nb_rb_oh tb_scaling Nl : Z) : Z :=
  let nbp_re := u32 (12 * nb_symb_sch - nb_dmrs_prb - nb_rb_oh) in
  let nb_re := u32 (Z.min 156 nbp_re * nb_rb) in
  let R_5 := R / 5 in
  let Ninfo := Z.shiftr (Z.shiftr (u32 (nb_re * R_5 * Qm * Nl)) 11) tb_scaling in
  tbs_of_info (R <=? 2560) Ninfo.

Definition nr_compute_tbslbrm (table nb_rb Nl : Z) : Z :=
  let nb_rb_lbrm := first_not_below NPRB_LBRM nb_rb in
  let Qm := if table =? 1 then 8 else 6 in
  let R := 948 in
  let nb_re := u32 (156 * nb_rb_lbrm) in
  let Ninfo := Z.shiftr (u32 (nb_re * R * Qm * Nl)) 10 in
  tbs_of_info (R <=? 256) Ninfo.

(** ** The number of resource blocks for a number of bytes *)

(** [while (rb % p == 0) rb /= p] *)
Fixpoint strip_factor (fuel : nat) (p rb : Z) : res Z :=
  match fuel with
  | O => Err No_fuel
  | S fuel => if rb `rem` p =? 0 then strip_factor fuel p (rb ÷ p) else Ok rb
  end.

(** the numbers are below 2^16, so each loop has at most 16 rounds *)
Definition multiple_2_3_5 (rb : Z) : res bool :=
  let* rb := strip_factor 17 2 rb in
  let* rb := strip_factor 17 3 rb in
  let* rb := strip_factor 17 5 rb in
  Ok (rb =? 1).

(** the next allowed number, downwards or upwards by [step]; [precoding] is
    the test for [NR_PUSCH_Config__transformPrecoder_enabled] *)
Fixpoint next_allowed (fuel : nat) (precoding : bool) (step rb : Z) : res Z :=
  match fuel with
  | O => Err No_fuel
  | S fuel =>
      if negb precoding then Ok rb else
      let* m := multiple_2_3_5 rb in
      if m then Ok rb else next_allowed fuel precoding step (rb + step)
  end.

(** [tbs] is the size in bytes for a number of blocks *)
Fixpoint search_nb_rb (fuel : nat) (precoding : bool) (tbs : Z -> Z) (bytes lo hi : Z) : res Z :=
  match fuel with
  | O => Err No_fuel
  | S fuel =>
      if negb (lo + 1 <? hi) then Ok hi else
      let* p := next_allowed (Z.to_nat hi) precoding 1 ((hi + lo) ÷ 2) in
      if p =? hi then Ok hi else
      let TBS := tbs p in
      if bytes =? TBS then Ok p
      else if bytes <? TBS then search_nb_rb fuel precoding tbs bytes lo p
      else search_nb_rb fuel precoding tbs bytes p hi
  end.

(** the outcome, the size and the number of blocks, for the sizes [tbs] *)
Definition find_nb_rb (precoding : bool) (tbs : Z -> Z) (bytes nb_rb_min nb_rb_max : Z)
  : res (bool * Z * Z) :=
  let* nb_rb_max := next_allowed (S (Z.to_nat nb_rb_max)) precoding (-1) nb_rb_max in
  if tbs nb_rb_max <? bytes then Ok (false, tbs nb_rb_max, nb_rb_max)
  else if bytes =? tbs nb_rb_max then Ok (true, tbs nb_rb_max, nb_rb_max)
  else if bytes <=? tbs nb_rb_min then Ok (true, tbs nb_rb_min, nb_rb_min)
  else
    let* nb_rb := search_nb_rb (S (Z.to_nat (nb_rb_max - nb_rb_min))) precoding tbs bytes
                    nb_rb_min nb_rb_max in
    Ok ((bytes <=? tbs nb_rb) && (nb_rb <=? nb_rb_max), tbs nb_rb, nb_rb).

Definition nr_find_nb_rb (Qm R : Z) (transform_precoding : Z)
    (nrOfLayers nb_symb_sch nb_dmrs_prb bytes nb_rb_min nb_rb_max : Z) : res (bool * Z * Z) :=
  find_nb_rb (transform_precoding =? 0)
    (fun nb_rb => Z.shiftr (nr_compute_tbs Qm R nb_rb nb_symb_sch nb_dmrs_prb 0 0 nrOfLayers) 3)
    bytes nb_rb_min nb_rb_max.
