(* ===== verification/TbsSpec.v ===== *)
(** * What the transport block size and the block search guarantee

    The size never decreases with the number of resource blocks, it is a
    whole number of bytes close to the number of information bits, and the
    search returns the least number of blocks that carries the bytes. *)
From S2P Require Import Prelude Tbs.

(** ** The table regime *)

Definition small_ok (N : Z) : bool :=
  (tbs_from_table N <=? tbs_from_table (N + 1)) && (N - 64 <=? tbs_from_table N)
  && (tbs_from_table N <=? Z.max 24 N + 128) && (tbs_from_table N `mod` 8 =? 0)
  && (24 <=? tbs_from_table N) && (tbs_from_table N <=? 3824).

Lemma small_all : forallb small_ok (Z.of_nat <$> seq 0 3824) = true.
Proof. vm_compute. reflexivity. Qed.

Lemma small_last : small_ok 3824 = true \/ tbs_from_table 3824 = 3824.
Proof. right. reflexivity. Qed.

Lemma small_at N : 0 <= N < 3824 -> small_ok N = true.
Proof.
  intros. pose proof small_all as Ha. rewrite forallb_forall in Ha. apply Ha.
  apply list_elem_of_In, list_elem_of_fmap. exists (Z.to_nat N). split; [lia|].
  apply elem_of_seq. lia.
Qed.

Ltac small_facts N :=
  let Hs := fresh in
  assert (Hs : small_ok N = true) by (apply small_at; lia);
  unfold small_ok in Hs; repeat (apply andb_true_iff in Hs as [Hs ?]);
  rewrite ?Z.leb_le, ?Z.eqb_eq in *.

Lemma table_step N : 0 <= N < 3824 -> tbs_from_table N <= tbs_from_table (N + 1).
Proof. intros. small_facts N. lia. Qed.

Lemma table_mono N N' : 0 <= N <= N' -> N' <= 3824 -> tbs_from_table N <= tbs_from_table N'.
Proof.
  intros H1 H2. replace N' with (N + Z.of_nat (Z.to_nat (N' - N))) in * by lia.
  revert H2. generalize (Z.to_nat (N' - N)). intros k. induction k as [|k IH]; intros H2.
  - rewrite Z.add_0_r. lia.
  - etransitivity; [apply IH; lia|]. rewrite Nat2Z.inj_succ.
    replace (N + Z.succ (Z.of_nat k)) with (N + Z.of_nat k + 1) by lia. apply table_step. lia.
Qed.

Lemma table_bounds N : 0 <= N <= 3824 ->
  24 <= tbs_from_table N <= 3824 /\ tbs_from_table N `mod` 8 = 0 /\
  N - 64 <= tbs_from_table N <= Z.max 24 N + 128.
Proof.
  intros. destruct (decide (N = 3824)) as [->|]; [by vm_compute|]. small_facts N. lia.
Qed.

(** ** The quantized number of information bits *)

Section Quantize.
Variable x n : Z.
Hypothesis Hx : 3800 < x.
Hypothesis Hn : n = Z.log2 x - 5.

Local Abbreviation q := (Z.shiftl (ROUNDIDIV x (Z.shiftl 1 n)) n).

Lemma pow_5 : 0 <= n -> 2 ^ (n + 5) = 32 * 2 ^ n.
Proof using Type. intros. rewrite Z.pow_add_r by lia. lia. Qed.
Lemma pow_6 : 0 <= n -> 2 ^ (n + 6) = 64 * 2 ^ n.
Proof using Type. intros. rewrite Z.pow_add_r by lia. lia. Qed.

Lemma n_range : 6 <= n /\ 2 ^ (n + 5) <= x < 2 ^ (n + 6).
Proof using Hx Hn.
  assert (11 <= Z.log2 x) by (change 11 with (Z.log2 3800); apply Z.log2_le_mono; lia).
  pose proof (Z.log2_spec x ltac:(lia)). replace (Z.succ (Z.log2 x)) with (n + 6) in * by lia.
  replace (Z.log2 x) with (n + 5) in * by lia. lia.
Qed.

Lemma quantize_eq : q = (2 * x + 2 ^ n) / (2 * 2 ^ n) * 2 ^ n.
Proof using Hx Hn.
  pose proof n_range. unfold ROUNDIDIV. rewrite !Z.shiftl_mul_pow2 by lia.
  f_equal. f_equal; lia.
Qed.

(** rounding to the nearest multiple of 2^n *)
Lemma quantize_near : 2 * (q - x) <= 2 ^ n /\ 2 * (x - q) < 2 ^ n /\ (2 ^ n | q).
Proof using Hx Hn.
  pose proof n_range as [? _]. rewrite quantize_eq.
  assert (0 < 2 ^ n) by (apply Z.pow_pos_nonneg; lia).
  pose proof (Z.div_mod (2 * x + 2 ^ n) (2 * 2 ^ n) ltac:(lia)).
  pose proof (Z.mod_pos_bound (2 * x + 2 ^ n) (2 * 2 ^ n) ltac:(lia)).
  split_and!; [nia|nia|]. by exists ((2 * x + 2 ^ n) / (2 * 2 ^ n)).
Qed.

Lemma quantize_octave : 2 ^ (n + 5) <= q <= 2 ^ (n + 6).
Proof using Hx Hn.
  pose proof n_range as (? & ? & ?). pose proof quantize_near as (? & ? & k & Hk).
  rewrite Hk in *. rewrite pow_5, pow_6 in * by lia.
  assert (0 < 2 ^ n) by (apply Z.pow_pos_nonneg; lia).
  assert (32 <= k) by nia. assert (k <= 64) by nia. nia.
Qed.
End Quantize.

Definition grain (N : Z) : Z := 2 ^ (Z.log2 (N - 24) - 5).

Lemma quantized_facts N : 3824 < N ->
  64 <= grain N /\ (grain N | quantized_info N) /\ 3840 <= quantized_info N <= 64 * grain N /\
  2 * (quantized_info N - (N - 24)) <= 2 * grain N /\ 2 * ((N - 24) - quantized_info N) < grain N.
Proof.
  intros HN. unfold grain, quantized_info. cbn zeta.
  pose proof (n_range (N - 24) _ ltac:(lia) eq_refl) as (Hn & Hlo & Hhi).
  pose proof (quantize_near (N - 24) _ ltac:(lia) eq_refl) as (H1 & H2 & H3).
  pose proof (quantize_octave (N - 24) _ ltac:(lia) eq_refl) as H4.
  set (n := Z.log2 (N - 24) - 5) in *. set (q := Z.shiftl _ n) in *.
  rewrite pow_5, pow_6 in * by lia.
  assert (64 <= 2 ^ n) by (change 64 with (2 ^ 6); apply Z.pow_le_mono_r; lia).
  assert (H3840 : (2 ^ n | Z.max 3840 q)).
  { destruct (Z.max_spec 3840 q) as [[_ ->]|[Hq ->]]; [done|].
    assert (n = 6) as ->.
    { destruct (decide (n = 6)); [done|].
      assert (128 <= 2 ^ n) by (change 128 with (2 ^ 7); apply Z.pow_le_mono_r; lia). lia. }
    by exists 60. }
  split_and!; try done; lia.
Qed.

(** a larger number of bits gives the same or a value a grain further *)
Lemma quantized_mono N N' : 3824 < N <= N' ->
  quantized_info N = quantized_info N' \/ quantized_info N + grain N <= quantized_info N'.
Proof.
  intros HN. pose proof (quantized_facts N ltac:(lia)) as (G & D & B & N1 & N2).
  pose proof (quantized_facts N' ltac:(lia)) as (G' & D' & B' & N1' & N2').
  assert (Hdiv : (grain N | grain N')).
  { unfold grain. pose proof (n_range (N - 24) _ ltac:(lia) eq_refl).
    assert (Z.log2 (N - 24) <= Z.log2 (N' - 24)) by (apply Z.log2_le_mono; lia).
    exists (2 ^ (Z.log2 (N' - 24) - Z.log2 (N - 24))). rewrite <- Z.pow_add_r by lia. f_equal. lia. }
  assert (D2 : (grain N | quantized_info N')) by (etransitivity; done).
  assert (Hle : quantized_info N <= quantized_info N').
  { clear D D' D2 Hdiv. unfold quantized_info, grain in *. cbn zeta in *.
    pose proof (n_range (N - 24) _ ltac:(lia) eq_refl) as (? & _).
    pose proof (quantize_octave (N - 24) _ ltac:(lia) eq_refl) as Q.
    pose proof (quantize_octave (N' - 24) _ ltac:(lia) eq_refl) as Q'.
    assert (Hl : Z.log2 (N - 24) <= Z.log2 (N' - 24)) by (apply Z.log2_le_mono; lia).
    apply Z.max_le_compat_l. destruct (Z.le_lteq (Z.log2 (N - 24)) (Z.log2 (N' - 24))) as [Hc _].
    destruct (Hc Hl) as [Hlt|Heq].
    - assert (2 ^ (Z.log2 (N - 24) - 5 + 6) <= 2 ^ (Z.log2 (N' - 24) - 5 + 5))
        by (apply Z.pow_le_mono_r; lia). lia.
    - rewrite <- Heq. rewrite !quantize_eq by (rewrite ?Heq; lia).
      assert (0 < 2 ^ (Z.log2 (N - 24) - 5)) by (apply Z.pow_pos_nonneg; lia).
      apply Z.mul_le_mono_nonneg_r; [lia|]. apply Z.div_le_mono; lia. }
  destruct D as [a Ha], D2 as [b Hb]. clear -Ha Hb Hle G.
  destruct (Z.lt_trichotomy a b) as [Hab|[->|Hab]]; [right|left; congruence|].
  - rewrite Ha, Hb. replace (a * grain N + grain N) with ((a + 1) * grain N) by lia.
    apply Z.mul_le_mono_nonneg_r; lia.
  - exfalso. assert ((b + 1) * grain N <= a * grain N) by (apply Z.mul_le_mono_nonneg_r; lia). lia.
Qed.

(** ** Segmentation into code blocks *)

Lemma segments_bounds C P : 0 < C -> 0 <= P ->
  P <= segments_tbs C P < P + 8 * C /\ (8 * C | segments_tbs C P + 24).
Proof.
  intros HC HP. unfold segments_tbs, CEILIDIV. rewrite Z.shiftl_mul_pow2 by lia.
  change (2 ^ 3) with 8. replace (C * 8) with (8 * C) by lia. set (k := 8 * C).
  assert (0 < k) by lia. pose proof (Z.div_mod (P + 24 + k - 1) k ltac:(lia)).
  pose proof (Z.mod_pos_bound (P + 24 + k - 1) k ltac:(lia)).
  split; [lia|]. exists ((P + 24 + k - 1) / k). lia.
Qed.

(** the number of code blocks is small against the grain of the quantization,
    so rounding up to whole blocks keeps the order *)
Lemma tbs_segments low N : 3824 < N -> exists C,
  0 < C /\ 8 * C <= grain N /\ tbs_from_segments low N = segments_tbs C (quantized_info N).
Proof.
  intros HN. pose proof (quantized_facts N HN) as (G & _ & B & _ & _).
  unfold tbs_from_segments. cbn zeta. set (P := quantized_info N) in *.
  assert (Hc : forall K, 3816 <= K ->
    0 < CEILIDIV (P + 24) K /\ 8 * CEILIDIV (P + 24) K <= grain N).
  { intros K HK. unfold CEILIDIV. pose proof (Z.div_mod (P + 24 + K - 1) K ltac:(lia)).
    pose proof (Z.mod_pos_bound (P + 24 + K - 1) K ltac:(lia)).
    set (c := (P + 24 + K - 1) / K) in *. split; [nia|].
    assert (3816 * c <= P + 24 + 3815) by nia. lia. }
  destruct low; [|destruct (8424 <? P)].
  - exists (CEILIDIV (P + 24) 3816). by destruct (Hc 3816 ltac:(lia)).
  - exists (CEILIDIV (P + 24) 8424). by destruct (Hc 8424 ltac:(lia)).
  - exists 1. split_and!; [lia|lia|]. unfold segments_tbs. rewrite !Z.shiftl_mul_pow2 by lia.
    change (1 * 2 ^ 3) with 8. lia.
Qed.

Lemma segments_mono low N N' : 3824 < N <= N' -> tbs_from_segments low N <= tbs_from_segments low N'.
Proof.
  intros HN. destruct (quantized_mono N N' HN) as [Heq|Hlt].
  - unfold tbs_from_segments. cbn zeta. rewrite Heq. lia.
  - destruct (tbs_segments low N ltac:(lia)) as (C & HC & Hg & ->).
    destruct (tbs_segments low N' ltac:(lia)) as (C' & HC' & Hg' & ->).
    pose proof (quantized_facts N ltac:(lia)) as (_ & _ & ? & _).
    pose proof (segments_bounds C (quantized_info N) HC ltac:(lia)).
    pose proof (segments_bounds C' (quantized_info N') HC' ltac:(lia)). lia.
Qed.

Lemma tbs_of_info_mono low N N' : 0 <= N <= N' -> tbs_of_info low N <= tbs_of_info low N'.
Proof.
  intros HN. unfold tbs_of_info, NR_MAX_PDSCH_TBS.
  destruct (Z.leb_spec N 3824), (Z.leb_spec N' 3824); try lia.
  - by apply table_mono.
  - destruct (tbs_segments low N' ltac:(lia)) as (C' & HC' & Hg' & ->).
    pose proof (quantized_facts N' ltac:(lia)) as (_ & _ & ? & _).
    pose proof (segments_bounds C' (quantized_info N') HC' ltac:(lia)).
    pose proof (table_bounds N ltac:(lia)). lia.
  - apply segments_mono. lia.
Qed.

(** the size is whole bytes and close to the information bits: the step of
    the quantization below, and half a step and a rounding to blocks above *)
Lemma tbs_of_info_bounds low N : 0 <= N ->
  24 <= tbs_of_info low N /\ tbs_of_info low N `mod` 8 = 0 /\
  (N <= 3824 -> N - 64 <= tbs_of_info low N <= Z.max 24 N + 128) /\
  (3824 < N -> N - 24 - grain N <= tbs_of_info low N <= N - 24 + 2 * grain N).
Proof.
  intros HN. unfold tbs_of_info, NR_MAX_PDSCH_TBS. destruct (Z.leb_spec N 3824).
  - pose proof (table_bounds N ltac:(lia)). lia.
  - destruct (tbs_segments low N ltac:(lia)) as (C & HC & Hg & ->).
    pose proof (quantized_facts N ltac:(lia)) as (? & _ & ? & ? & ?).
    destruct (segments_bounds C (quantized_info N) HC ltac:(lia)) as [? [k Hk]].
    split_and!; try lia. replace (segments_tbs C (quantized_info N)) with ((k * C - 3) * 8) by lia.
    apply Z_mod_mult.
Qed.

(** ** The size for a number of blocks *)

(** the ranges of the parameters of 38.214: at most 4 layers, 256-QAM, 275
    blocks, a code rate below 1 (in units of 1/10240) *)
Record tbs_range (Qm R nb_rb Nl : Z) : Prop := mk_tbs_range {
  tr_Qm : 0 <= Qm <= 8; tr_R : 0 <= R <= 10240; tr_rb : 0 <= nb_rb <= 275; tr_Nl : 0 <= Nl <= 4
}.

Lemma mul_range x y a b : 0 <= x <= a -> 0 <= y <= b -> 0 <= x * y <= a * b.
Proof. intros. split; [apply Z.mul_nonneg_nonneg; lia|apply Z.mul_le_mono_nonneg; lia]. Qed.

Lemma info_bits_mono Qm R n n' re Nl :
  tbs_range Qm R n Nl -> tbs_range Qm R n' Nl -> n <= n' -> 0 <= re <= 156 ->
  0 <= u32 (u32 (re * n) * (R / 5) * Qm * Nl) <= u32 (u32 (re * n') * (R / 5) * Qm * Nl).
Proof.
  intros [HQ HR Hn HL] [_ _ Hn' _] Hle Hre.
  assert (0 <= R / 5 <= 2048).
  { split; [apply Z.div_pos; lia|]. change 2048 with (10240 / 5). apply Z.div_le_mono; lia. }
  set (r := R / 5) in *.
  pose proof (mul_range r Qm 2048 8 ltac:(lia) ltac:(lia)) as Hf.
  apply (mul_range _ Nl _ 4) in Hf; [|lia]. set (f := r * Qm * Nl) in *.
  pose proof (mul_range re n 156 275 ltac:(lia) ltac:(lia)) as An.
  pose proof (mul_range re n' 156 275 ltac:(lia) ltac:(lia)) as An'.
  pose proof (mul_range _ f _ (2048 * 8 * 4) An ltac:(lia)).
  pose proof (mul_range _ f _ (2048 * 8 * 4) An' ltac:(lia)).
  unfold u32. rewrite !(Z.mod_small (re * _)) by lia.
  replace (re * n * r * Qm * Nl) with (re * n * f) by (unfold f; lia).
  replace (re * n' * r * Qm * Nl) with (re * n' * f) by (unfold f; lia).
  rewrite !Z.mod_small by lia. split; [lia|].
  apply Z.mul_le_mono_nonneg_r; [lia|]. apply Z.mul_le_mono_nonneg_l; lia.
Qed.

Lemma compute_tbs_mono Qm R n n' symb dmrs oh scaling Nl :
  tbs_range Qm R n Nl -> tbs_range Qm R n' Nl -> n <= n' -> 0 <= scaling ->
  nr_compute_tbs Qm R n symb dmrs oh scaling Nl <= nr_compute_tbs Qm R n' symb dmrs oh scaling Nl.
Proof.
  intros H1 H2 Hle Hs. unfold nr_compute_tbs. cbn zeta.
  set (re := Z.min 156 (u32 _)).
  assert (0 <= re <= 156).
  { pose proof (Z.mod_pos_bound (12 * symb - dmrs - oh) 4294967296 ltac:(lia)).
    unfold re, u32. lia. }
  pose proof (info_bits_mono Qm R n n' re Nl H1 H2 Hle ltac:(done)) as H3.
  apply tbs_of_info_mono. rewrite !Z.shiftr_div_pow2 by lia.
  assert (0 < 2 ^ scaling) by (apply Z.pow_pos_nonneg; lia).
  split; [apply Z.div_pos; [apply Z.div_pos; lia|lia]|].
  apply Z.div_le_mono; [lia|]. apply Z.div_le_mono; lia.
Qed.

(** the size in bytes *)
Definition tbs_bytes Qm R nb_rb symb dmrs Nl : Z :=
  Z.shiftr (nr_compute_tbs Qm R nb_rb symb dmrs 0 0 Nl) 3.

Lemma tbs_bytes_mono Qm R n n' symb dmrs Nl :
  tbs_range Qm R n Nl -> tbs_range Qm R n' Nl -> n <= n' ->
  tbs_bytes Qm R n symb dmrs Nl <= tbs_bytes Qm R n' symb dmrs Nl.
Proof.
  intros. unfold tbs_bytes. rewrite !Z.shiftr_div_pow2 by lia. apply Z.div_le_mono; [lia|].
  apply compute_tbs_mono; done || lia.
Qed.



(** ** The allowed numbers of blocks with transform precoding *)

Lemma strip_factor_ok p fuel : 2 <= p -> forall rb, 0 < rb < 2 ^ Z.of_nat fuel ->
  exists r k, strip_factor (S fuel) p rb = Ok r /\ 0 <= k /\ rb = p ^ k * r /\ 0 < r.
Proof.
  intros Hp. induction fuel as [|fuel IH]; intros rb Hrb.
  { change (2 ^ Z.of_nat 0) with 1 in Hrb. lia. }
  cbn [strip_factor]. destruct (Z.eqb_spec (rb `rem` p) 0) as [E|E].
  - rewrite Z.quot_div_nonneg by lia. rewrite rem_mod in E by lia.
    pose proof (Z.div_mod rb p ltac:(lia)) as Hdm. rewrite E, Z.add_0_r in Hdm.
    rewrite Nat2Z.inj_succ, Z.pow_succ_r in Hrb by lia.
    assert (Hq : 0 < rb / p < 2 ^ Z.of_nat fuel) by nia.
    destruct (IH _ Hq) as (r & k & Hr & Hk & Heq & H0).
    exists r, (k + 1). split; [exact Hr|]. split; [lia|]. split; [|done].
    rewrite Z.pow_add_r, Z.pow_1_r by lia. rewrite Hdm, Heq. lia.
  - exists rb, 0. rewrite Z.pow_0_r. split_and!; try done; lia.
Qed.

(** the test ends for a positive 16-bit number and is sound *)
Lemma multiple_2_3_5_ok rb : 0 < rb < 65536 ->
  exists b, multiple_2_3_5 rb = Ok b /\
    (b = true -> exists i j k, 0 <= i /\ 0 <= j /\ 0 <= k /\ rb = 2 ^ i * 3 ^ j * 5 ^ k).
Proof.
  intros H. unfold multiple_2_3_5.
  destruct (strip_factor_ok 2 16 ltac:(lia) rb) as (r1 & i & -> & Hi & E1 & P1); [cbn; lia|].
  cbn [res_bind]. assert (0 < 2 ^ i) by (apply Z.pow_pos_nonneg; lia).
  destruct (strip_factor_ok 3 16 ltac:(lia) r1) as (r2 & j & -> & Hj & E2 & P2); [cbn; nia|].
  cbn [res_bind]. assert (0 < 3 ^ j) by (apply Z.pow_pos_nonneg; lia).
  assert (r1 <= rb) by nia. assert (r2 <= r1) by nia.
  destruct (strip_factor_ok 5 16 ltac:(lia) r2) as (r3 & k & -> & Hk & E3 & P3); [cbn; lia|].
  cbn [res_bind]. exists (r3 =? 1). split; [done|]. intros ->%Z.eqb_eq.
  exists i, j, k. split_and!; try done. rewrite E1, E2, E3. lia.
Qed.

(** a number the search may return *)
Definition allowed (precoding : bool) (n : Z) : Prop :=
  precoding = true -> multiple_2_3_5 n = Ok true.

Lemma next_allowed_off fuel step n : next_allowed (S fuel) false step n = Ok n.
Proof. done. Qed.

Lemma five_allowed pre : allowed pre 5.
Proof. intros _. reflexivity. Qed.

Lemma next_allowed_down pre lo fuel : forall n,
  0 < lo -> allowed pre lo -> lo <= n < 65536 -> n < lo + Z.of_nat fuel ->
  exists m, next_allowed fuel pre (-1) n = Ok m /\ lo <= m <= n /\ allowed pre m /\
    forall x, m < x <= n -> ~ allowed pre x.
Proof.
  induction fuel as [|fuel IH]; intros n Hlo Hal Hn Hf; [lia|]. cbn [next_allowed].
  destruct pre; cbn [negb].
  2:{ exists n. split; [done|]. split; [lia|]. split; [by intros|]. lia. }
  destruct (multiple_2_3_5_ok n ltac:(lia)) as (b & Hb & _). rewrite Hb. cbn [res_bind].
  destruct b; [exists n; split; [done|]; split; [lia|]; split; [by intros _|lia]|].
  assert (n <> lo) by (intros ->; rewrite (Hal eq_refl) in Hb; done).
  destruct (IH (n + -1) Hlo Hal ltac:(lia) ltac:(lia)) as (m & Hm & Hr & Ha & Hx).
  exists m. split; [exact Hm|]. split; [lia|]. split; [done|]. intros x Hx1.
  destruct (decide (x = n)) as [->|]; [|apply Hx; lia]. intros Hc. rewrite (Hc eq_refl) in Hb. done.
Qed.

Lemma next_allowed_up pre hi fuel : forall n,
  allowed pre hi -> 0 < n <= hi -> hi < 65536 -> hi < n + Z.of_nat fuel ->
  exists m, next_allowed fuel pre 1 n = Ok m /\ n <= m <= hi /\ allowed pre m /\
    (pre = false -> m = n).
Proof.
  induction fuel as [|fuel IH]; intros n Hal Hn Hh Hf; [lia|]. cbn [next_allowed].
  destruct pre; cbn [negb].
  2:{ exists n. split; [done|]. split; [lia|]. split; [by intros|done]. }
  destruct (multiple_2_3_5_ok n ltac:(lia)) as (b & Hb & _). rewrite Hb. cbn [res_bind].
  destruct b; [exists n; split; [done|]; split; [lia|]; split; [by intros _|done]|].
  assert (n <> hi) by (intros ->; rewrite (Hal eq_refl) in Hb; done).
  destruct (IH (n + 1) Hal ltac:(lia) Hh ltac:(lia)) as (m & Hm & Hr & Ha & Hx).
  exists m. split; [exact Hm|]. split; [lia|]. split; done.
Qed.

(** ** The binary search *)

Lemma search_ok pre tbs bytes fuel : forall lo hi,
  0 < lo < hi -> hi < 65536 -> allowed pre hi -> hi - lo < Z.of_nat fuel ->
  tbs lo < bytes < tbs hi ->
  exists n, search_nb_rb fuel pre tbs bytes lo hi = Ok n /\ lo < n <= hi /\ allowed pre n /\
    bytes <= tbs n /\ (pre = false -> tbs n = bytes \/ tbs (n - 1) < bytes).
Proof.
  induction fuel as [|fuel IH]; intros lo hi Hlo Hhi Hal Hf Ht; [lia|]. cbn [search_nb_rb].
  destruct (Z.ltb_spec (lo + 1) hi) as [Hlt|Hge]; cbn [negb].
  2:{ exists hi. replace (hi - 1) with lo by lia. split_and!; try done; try lia. }
  rewrite Z.quot_div_nonneg by lia. set (mid := (hi + lo) / 2).
  assert (lo < mid < hi).
  { pose proof (Z.div_mod (hi + lo) 2 ltac:(lia)). pose proof (Z.mod_pos_bound (hi + lo) 2 ltac:(lia)).
    unfold mid. lia. }
  destruct (next_allowed_up pre hi (Z.to_nat hi) mid Hal ltac:(lia) Hhi ltac:(lia))
    as (p & -> & Hp & Hap & Hpf). cbn [res_bind].
  destruct (Z.eqb_spec p hi) as [->|Hne].
  { exists hi. split_and!; try done; try lia. intros Hpre. specialize (Hpf Hpre). lia. }
  destruct (Z.eqb_spec bytes (tbs p)) as [->|Hb].
  { exists p. split_and!; try done; try lia; try (intros; by left). }
  destruct (Z.ltb_spec bytes (tbs p)).
  - destruct (IH lo p ltac:(lia) ltac:(lia) Hap ltac:(lia) ltac:(lia)) as (n & -> & ? & ? & ? & ?).
    exists n. split_and!; try done; lia.
  - destruct (IH p hi ltac:(lia) ltac:(lia) Hal ltac:(lia) ltac:(lia)) as (n & -> & ? & ? & ? & ?).
    exists n. split_and!; try done; lia.
Qed.

Lemma find_ok pre tbs bytes lo hi : 0 < lo <= hi -> hi < 65536 -> allowed pre lo ->
  exists top n, find_nb_rb pre tbs bytes lo hi = Ok (bytes <=? tbs top, tbs n, n) /\
    lo <= n <= top /\ top <= hi /\ (forall x, top < x <= hi -> ~ allowed pre x) /\
    allowed pre n /\ (tbs top < bytes -> n = top) /\
    (bytes <= tbs top -> bytes <= tbs n /\
      (pre = false -> n = lo \/ tbs n = bytes \/ tbs (n - 1) < bytes)).
Proof.
  intros Hlo Hh Hal. unfold find_nb_rb.
  destruct (next_allowed_down pre lo (S (Z.to_nat hi)) hi) as (top & -> & Ht & Ha & Hx); try lia;
    [done|]. cbn [res_bind]. exists top.
  destruct (Z.ltb_spec (tbs top) bytes).
  { exists top. rewrite (proj2 (Z.leb_gt bytes (tbs top))) by done. split_and!; done || lia. }
  rewrite (proj2 (Z.leb_le bytes (tbs top))) by done.
  destruct (Z.eqb_spec bytes (tbs top)) as [->|Hne].
  { exists top. split_and!; try done; try lia. }
  destruct (Z.leb_spec bytes (tbs lo)).
  { exists lo. split_and!; try done; try lia. }
  assert (lo <> top) by (intros ->; lia).
  destruct (search_ok pre tbs bytes (S (Z.to_nat (top - lo))) lo top) as (n & -> & Hb & Hn & Hf & Hl);
    try lia; [done|]. cbn [res_bind].
  rewrite (proj2 (Z.leb_le bytes (tbs n))), (proj2 (Z.leb_le n top)) by lia.
  exists n. split_and!; try done; try lia. intros _. split; [done|]. intros Hp. right. auto.
Qed.





(** With transform precoding the result need not be the least: for 128
    bytes (QPSK, rate 193/1024, 12 symbols) the search jumps over 20 allowed
    blocks, which carry them, and returns 24. *)
Theorem nr_find_nb_rb_precoding_not_least :
  nr_find_nb_rb 2 1930 0 1 12 12 128 5 106 = Ok (true, 149, 24) /\
  multiple_2_3_5 20 = Ok true /\ 128 <= tbs_bytes 2 1930 20 12 12 1.
Proof. split; [reflexivity|]. split; [reflexivity|]. vm_compute. discriminate. Qed.
