(* ===== verification/SliceSched.v ===== *)
(** * Downlink scheduling of resource blocks to slices

    nr_mac_slice_sched_utils.c ([nr_mac_prepare_slice_budgets]) and, from
    gNB_scheduler_dlsch.c, the cap of the resource blocks in [dl_sched_unit]
    and the allocation loop of [pf_dl_slice].

    The allocation loop asks other parts of the MAC for a beam, a control
    channel and a feedback resource, and for the transmission parameters of a
    UE; their answers for a UE are the fields of a [dl_candidate], and the
    theorems hold for all of them.  The order of the candidates is the result
    of the sort by the proportional-fair coefficient. *)
From S2P Require Import Prelude Slices SliceUe Tbs.

(** ** Budgets *)

Record SLsched_t := mk_slsched {
  prb_estimate : Z; dedicated_prbs : Z; minimum_prbs : Z; max_prbs : Z; used_prbs : Z;
  slice : option NR_slice_info_t
}.
#[export] Instance eta_slsched : Eta SLsched_t := fun r =>
  mk_slsched (prb_estimate r) (dedicated_prbs r) (minimum_prbs r) (max_prbs r) (used_prbs r) (slice r).

(** the cap of the E2 agent, [None] without an agent; a negative one is off *)
Definition cap_total (max_prb : option Z) (total_prbs : Z) : Z :=
  match max_prb with
  | Some max_prb => if (0 <=? max_prb) && (max_prb <? total_prbs) then max_prb else total_prbs
  | None => total_prbs
  end.

Definition ratio_budget (total_prbs : Z) (s : SLsched_t) : SLsched_t :=
  match slice s with
  | None => s
  | Some sl =>
      s <| dedicated_prbs := (total_prbs * dedicated_ratio (spolicy sl)) ÷ 100 |>
        <| minimum_prbs := (total_prbs * min_ratio (spolicy sl)) ÷ 100 |>
        <| max_prbs := total_prbs |>
        <| used_prbs := 0 |>
  end.

(** [cap] less the minimum of every entry but entry [i]; [j] counts *)
Fixpoint minus_others (cap : Z) (i j : nat) (l : list SLsched_t) : Z :=
  match l with
  | [] => cap
  | s :: l => minus_others (if Nat.eqb i j then cap else cap - minimum_prbs s) i (S j) l
  end.

Definition cap_budget (total_prbs : Z) (l : list SLsched_t) (i : nat) (s : SLsched_t) : SLsched_t :=
  match slice s with
  | None => s
  | Some sl =>
      let cap := minus_others (max_prbs s) i 0 l in
      let cap := if cap <? 0 then 0 else cap in
      let policy_cap := (total_prbs * max_ratio (spolicy sl)) ÷ 100 in
      let cap := if 0 <? policy_cap then Z.min cap policy_cap else cap in
      s <| max_prbs := cap |>
  end.

Definition nr_mac_prepare_slice_budgets (max_prb : option Z) (total_prbs : Z)
    (slice_sched : list SLsched_t) (slice_count : nat) : res (list SLsched_t) :=
  if Nat.eqb slice_count 0 then Ok slice_sched else
  if Nat.ltb (length slice_sched) slice_count then Err Out_of_bounds else
  let total_prbs := cap_total max_prb total_prbs in
  let l := ratio_budget total_prbs <$> take slice_count slice_sched in
  Ok (imap (cap_budget total_prbs l) l ++ drop slice_count slice_sched).

(** ** The resource blocks of the beams under the cap *)

Definition zsum (l : list Z) : Z := foldr Z.add 0 l.

Definition scale_beam (capped_total denom original : Z) : Z :=
  let scaled := (original * capped_total) ÷ denom in
  if original <? scaled then original else scaled.

(** the blocks the rounding lost go to the first beams that have room *)
Fixpoint grant_deficit (original n_rb : list Z) (deficit : Z) : list Z :=
  match original, n_rb with
  | o :: original, n :: n_rb =>
      if deficit <=? 0 then n :: n_rb else
      let available := o - n in
      if available <=? 0 then n :: grant_deficit original n_rb deficit
      else
        let grant := if available <? deficit then available else deficit in
        (n + grant) :: grant_deficit original n_rb (deficit - grant)
  | _, _ => n_rb
  end.

(** the new [n_rb_sched] and total *)
Definition cap_beams (max_prb : option Z) (n_rb_sched : list Z) : list Z * Z :=
  let total_prbs := zsum n_rb_sched in
  let capped_total := cap_total max_prb total_prbs in
  if capped_total <? total_prbs then
    let denom := if 0 <? total_prbs then total_prbs else 1 in
    let scaled := scale_beam capped_total denom <$> n_rb_sched in
    (grant_deficit n_rb_sched scaled (capped_total - zsum scaled), capped_total)
  else (n_rb_sched, total_prbs).

(** ** Free blocks of a beam *)

Definition SL_to_bitmap (startSymbolIndex nrOfSymbols : Z) : Z :=
  Z.shiftl (Z.shiftl 1 nrOfSymbols - 1) startSymbolIndex mod 65536.

(** [mask[i]] of the map of a beam *)
Definition mask_at (mask : list Z) (i : Z) : res Z :=
  if i <? 0 then Err Out_of_bounds else arr_get mask (Z.to_nat i).

Fixpoint find_rb_start (fuel : nat) (mask : list Z) (bits bwp_start rbStop rbStart : Z) : res Z :=
  match fuel with
  | O => Err No_fuel
  | S fuel =>
      if negb (rbStart <? rbStop) then Ok rbStart else
      let* m := mask_at mask (rbStart + bwp_start) in
      if Z.land m bits =? 0 then Ok rbStart
      else find_rb_start fuel mask bits bwp_start rbStop (rbStart + 1)
  end.

Fixpoint grow_rb_size (fuel : nat) (mask : list Z) (bits bwp_start rbStop rbStart hard_limit max_rbSize : Z)
  : res Z :=
  match fuel with
  | O => Err No_fuel
  | S fuel =>
      if negb (rbStart + max_rbSize <=? rbStop) then Ok max_rbSize else
      let* m := mask_at mask (rbStart + max_rbSize + bwp_start) in
      if negb (Z.land m bits =? 0) || negb (max_rbSize <? hard_limit) then Ok max_rbSize
      else grow_rb_size fuel mask bits bwp_start rbStop rbStart hard_limit (max_rbSize + 1)
  end.

(** the loop that marks [size] blocks from [start] on as used by the symbols [bits] *)
Definition mark_range (mask : list Z) (start size bits : Z) : res (list Z) :=
  if (start <? 0) || (Z.of_nat (length mask) <? start + size) then Err Out_of_bounds
  else Ok (imap (fun i m => if (start <=? Z.of_nat i) && (Z.of_nat i <? start + size)
                            then Z.lor m bits else m) mask).

(** ** The allocation loop *)

Record dl_candidate := mk_cand {
  cd_ue : nat;
  cd_slice_bytes : Z;
  cd_beam : Z;                       (** beam.idx, negative without a free beam *)
  cd_tda : option (Z * Z);           (** start symbol and number of symbols *)
  cd_bwp_start : Z; cd_bwp_size : Z;
  cd_cce : Z;                        (** negative without a control channel element *)
  cd_pucch : option Z;               (** [None]: feedback disabled; negative: no resource *)
  cd_pdcch : list (Z * Z * Z);       (** start, size and symbols marked for the PDCCH *)
  cd_Qm : Z; cd_R : Z; cd_layers : Z; cd_dmrs : Z;
  cd_ta : bool                       (** a timing advance command is due *)
}.

Record dl_alloc := mk_alloc {
  al_ue : nat; al_beam : nat; al_start : Z; al_size : Z; al_bits : Z; al_tbs : Z
}.

Record dl_state := mk_dl {
  n_rb_sched : list Z; remain_ues : list Z; rb_masks : list (list Z); allocs : list dl_alloc
}.
#[export] Instance eta_dl : Eta dl_state := fun r =>
  mk_dl (n_rb_sched r) (remain_ues r) (rb_masks r) (allocs r).

Definition min_rbSize : Z := 5.

(** one round of the loop: the candidate is skipped or gets blocks *)
Definition pf_dl_ue (st : dl_state) (s : SLsched_t) (c : dl_candidate) : res (dl_state * SLsched_t) :=
  let slice_remaining := max_prbs s - used_prbs s in
  if cd_beam c <? 0 then Ok (st, s) else
  let b := Z.to_nat (cd_beam c) in
  let* remain := arr_get (remain_ues st) b in
  let* n_rb := arr_get (n_rb_sched st) b in
  if (remain =? 0) || (n_rb <? min_rbSize) then Ok (st, s) else
  let* mask := arr_get (rb_masks st) b in
  let* '(start_symb, nrOfSymbols) := of_option Exit (cd_tda c) in
  let slbitmap := SL_to_bitmap start_symb nrOfSymbols in
  let rbStop := cd_bwp_size c - 1 in
  let* rbStart := find_rb_start (S (Z.to_nat rbStop)) mask slbitmap (cd_bwp_start c) rbStop 0 in
  let hard_limit := Z.min slice_remaining n_rb mod 65536 in
  let* max_rbSize := grow_rb_size (S (Z.to_nat (cd_bwp_size c))) mask slbitmap (cd_bwp_start c)
                       rbStop rbStart hard_limit 1 in
  if max_rbSize <? min_rbSize then Ok (st, s) else
  if cd_cce c <? 0 then Ok (st, s) else
  if match cd_pucch c with Some alloc => alloc <? 0 | None => false end then Ok (st, s) else
  let* mask := fold_res (fun m '(start, size, bits) => mark_range m start size bits) (cd_pdcch c) mask in
  let st := st <| rb_masks := <[b := mask]> (rb_masks st) |> in
  let overhead := 3 * 4 + (if cd_ta c then 2 else 0) in
  let* '(_, TBS, rbSize) := nr_find_nb_rb (cd_Qm c) (cd_R c) 1 (cd_layers c) nrOfSymbols (cd_dmrs c)
                              (u32 (cd_slice_bytes c + overhead)) min_rbSize max_rbSize in
  if rbSize =? 0 then Ok (st, s) else
  let start := rbStart + cd_bwp_start c in
  let* mask := mark_range mask start rbSize slbitmap in
  Ok (st <| n_rb_sched := <[b := n_rb - rbSize]> (n_rb_sched st) |>
         <| remain_ues := <[b := remain - 1]> (remain_ues st) |>
         <| rb_masks := <[b := mask]> (rb_masks st) |>
         <| allocs := allocs st ++ [mk_alloc (cd_ue c) b start rbSize slbitmap TBS] |>,
      s <| used_prbs := used_prbs s + rbSize |>).

Fixpoint pf_dl_loop (st : dl_state) (s : SLsched_t) (cands : list dl_candidate)
  : res (dl_state * SLsched_t) :=
  match cands with
  | [] => Ok (st, s)
  | c :: cands =>
      if max_prbs s - used_prbs s <? min_rbSize then Ok (st, s) else
      let* '(st, s) := pf_dl_ue st s c in pf_dl_loop st s cands
  end.

Definition pf_dl_slice (st : dl_state) (s : SLsched_t) (cands : list dl_candidate)
  : res (dl_state * SLsched_t) :=
  match slice s with
  | None => Ok (st, s)
  | Some _ =>
      let* '(st, s) := pf_dl_loop st s cands in
      Ok (st, s <| minimum_prbs := used_prbs s |>)
  end.

(** the slices in the order of the table of [dl_sched_unit]; [cands i] are the
    sorted candidates of slice [i] *)
Fixpoint pf_dl_slices (st : dl_state) (l : list SLsched_t) (cands : nat -> list dl_candidate) (i : nat)
  : res (dl_state * list SLsched_t) :=
  match l with
  | [] => Ok (st, [])
  | s :: l =>
      let* '(st, s) := pf_dl_slice st s (cands i) in
      let* '(st, l) := pf_dl_slices st l cands (S i) in
      Ok (st, s :: l)
  end.

(** [dl_sched_unit] after the retransmissions *)
Definition dl_sched_new (max_prb : option Z) (st : dl_state) (slice_sched : list SLsched_t)
    (dl_num_slice : nat) (cands : nat -> list dl_candidate) : res (dl_state * list SLsched_t) :=
  let '(n_rb, total_prbs) := cap_beams max_prb (n_rb_sched st) in
  let st := st <| n_rb_sched := n_rb |> in
  let* l := nr_mac_prepare_slice_budgets max_prb total_prbs slice_sched dl_num_slice in
  pf_dl_slices st (take dl_num_slice l) cands 0.

(** ** The order of the slices *)

(** [slice_prb_estimate] fills an entry per slice of the table, with the
    estimates as an argument *)
Fixpoint fill_sched (slots : list (option NR_slice_info_t)) (estimate : NR_slice_info_t -> Z)
  : list SLsched_t :=
  match slots with
  | [] => []
  | Some sl :: slots => mk_slsched (estimate sl) 0 0 0 0 (Some sl) :: fill_sched slots estimate
  | None :: slots => fill_sched slots estimate
  end.

Definition empty_sched : SLsched_t := mk_slsched 0 0 0 0 0 None.
Definition slice_table (info : NR_Slices_t) (estimate : NR_slice_info_t -> Z) : list SLsched_t :=
  let l := fill_sched (take (scount info) (slots info)) estimate in
  l ++ replicate (S MAX_NUM_SLICE - length l) empty_sched.

Definition compare_slice_demand (a b : SLsched_t) : Z :=
  Z.b2z (prb_estimate b <? prb_estimate a) - Z.b2z (prb_estimate a <? prb_estimate b).
