(* ===== verification/SliceBudget.v ===== *)
(** * Budgets of the slices and of the beams

    The budgets never promise more than there is, and the distribution of a
    cap over the beams is exact. *)
From S2P Require Import Prelude Slices SlicesInv SliceUe SliceSched.

Lemma zsum_app l k : zsum (l ++ k) = zsum l + zsum k.
Proof. induction l as [|x l IH]; cbn [zsum foldr app]; [done|]. fold (zsum l) (zsum (l ++ k)). lia. Qed.
Lemma zsum_nonneg l : Forall (fun x => 0 <= x) l -> 0 <= zsum l.
Proof. induction 1 as [|x l Hx Hl IH]; cbn [zsum foldr]; [lia|]. fold (zsum l). lia. Qed.
Lemma zsum_insert l i x y : l !! i = Some x -> zsum (<[i := y]> l) = zsum l - x + y.
Proof.
  intros Hi. rewrite <- (take_drop_middle l i x Hi) at 2.
  rewrite insert_take_drop by by eapply lookup_lt_Some.
  rewrite !zsum_app. cbn [zsum foldr]. fold (zsum (drop (S i) l)). lia.
Qed.
Lemma zsum_le l i x : Forall (fun x => 0 <= x) l -> l !! i = Some x -> x <= zsum l.
Proof.
  intros Hf Hi. rewrite <- (take_drop_middle l i x Hi) in *. rewrite zsum_app. cbn [zsum foldr].
  apply Forall_app in Hf as [H1 H2]. apply Forall_cons in H2 as [H2 H3].
  pose proof (zsum_nonneg _ H1). pose proof (zsum_nonneg _ H3). fold (zsum (drop (S i) l)). lia.
Qed.

(** ** Budgets of the slices *)

(** the entries of the slices of a table, as [slice_prb_estimate] fills them *)
Definition entries_of (ls : list SLsched_t) (l : list NR_slice_info_t) : Prop :=
  slice <$> ls = Some <$> l.

Definition minimum_of (total : Z) (sl : NR_slice_info_t) : Z :=
  (total * min_ratio (spolicy sl)) ÷ 100.
Definition policy_cap_of (total : Z) (sl : NR_slice_info_t) : Z :=
  (total * max_ratio (spolicy sl)) ÷ 100.

Lemma minus_others_past l : forall cap i j, (i < j)%nat ->
  minus_others cap i j l = cap - zsum (minimum_prbs <$> l).
Proof.
  induction l as [|s l IH]; intros cap i j Hij; cbn [minus_others zsum fmap list_fmap foldr]; [lia|].
  rewrite (proj2 (Nat.eqb_neq i j)), IH by lia. fold (zsum (minimum_prbs <$> l)). lia.
Qed.
Lemma minus_others_sum l : forall cap i j s, l !! i = Some s ->
  minus_others cap (j + i) j l = cap - (zsum (minimum_prbs <$> l) - minimum_prbs s).
Proof.
  induction l as [|s0 l IH]; intros cap [|i] j s Hi; try done;
    cbn [minus_others zsum fmap list_fmap foldr]; fold (zsum (minimum_prbs <$> l)).
  - injection Hi as ->. rewrite Nat.add_0_r, Nat.eqb_refl, minus_others_past by lia. lia.
  - rewrite (proj2 (Nat.eqb_neq (j + S i) j)) by lia.
    replace (j + S i)%nat with (S j + i)%nat by lia. rewrite (IH _ _ _ s Hi). lia.
Qed.

Lemma ratio_budget_entries total ls l : entries_of ls l ->
  entries_of (ratio_budget total <$> ls) l /\
  minimum_prbs <$> (ratio_budget total <$> ls) = minimum_of total <$> l /\
  Forall (fun s => max_prbs s = total /\ used_prbs s = 0) (ratio_budget total <$> ls).
Proof.
  revert l. induction ls as [|s ls IH]; intros [|sl l] He; try done. unfold entries_of in *.
  cbn [fmap list_fmap] in He. injection He as Hs He. destruct (IH l He) as (E1 & E2 & E3).
  cbn [fmap list_fmap]. unfold ratio_budget at 1 3 5. rewrite Hs. split_and!.
  - cbn. by rewrite Hs, E1.
  - cbn. by rewrite E2.
  - by constructor.
Qed.

Lemma quot_sum_le total f (l : list NR_slice_info_t) : 0 <= total ->
  Forall (fun s => 0 <= f (spolicy s)) l ->
  0 <= zsum ((fun s => (total * f (spolicy s)) ÷ 100) <$> l) /\
  zsum ((fun s => (total * f (spolicy s)) ÷ 100) <$> l) * 100 <= total * sum_ratio f l.
Proof.
  intros Ht. induction 1 as [|s l Hs Hl IH]; cbn [zsum sum_ratio fmap list_fmap foldr]; [lia|].
  fold (sum_ratio f l). fold (zsum ((fun s => (total * f (spolicy s)) ÷ 100) <$> l)).
  pose proof (Z.mul_nonneg_nonneg total (f (spolicy s)) ltac:(lia) Hs).
  rewrite Z.quot_div_nonneg by lia. pose proof (Z.mul_div_le (total * f (spolicy s)) 100 ltac:(lia)).
  pose proof (Z.div_pos (total * f (spolicy s)) 100 ltac:(lia) ltac:(lia)). lia.
Qed.

Lemma minimum_sum_le total l : 0 <= total ->
  Forall (fun s => policy_ok (spolicy s)) l -> sum_ratio min_ratio l <= 100 ->
  0 <= zsum (minimum_of total <$> l) <= total.
Proof.
  intros Ht Hp Hs. destruct (quot_sum_le total min_ratio l Ht) as [H1 H2].
  { eapply Forall_impl; [exact Hp|]. intros s (? & ? & ?). lia. }
  change (fun s : NR_slice_info_t => _) with (minimum_of total) in H1, H2. nia.
Qed.

(** the budgets of one slot *)
Record budgets (total : Z) (l : list NR_slice_info_t) (ls : list SLsched_t) : Prop := mk_budgets {
  bu_entries : entries_of ls l;
  bu_used : Forall (fun s => used_prbs s = 0) ls;
  bu_min : minimum_prbs <$> ls = minimum_of total <$> l;
  bu_max : forall i s sl, ls !! i = Some s -> l !! i = Some sl ->
    let others := zsum (minimum_of total <$> l) - minimum_of total sl in
    max_prbs s = if 0 <? policy_cap_of total sl
                 then Z.min (total - others) (policy_cap_of total sl) else total - others
}.

Lemma cap_total_range max_prb total : 0 <= total -> 0 <= cap_total max_prb total <= total.
Proof. intros. unfold cap_total. destruct max_prb as [m|]; [|lia]. destruct (_ && _) eqn:E; lia. Qed.
Lemma cap_total_idem max_prb total :
  cap_total max_prb (cap_total max_prb total) = cap_total max_prb total.
Proof.
  unfold cap_total. destruct max_prb as [m|]; [|done].
  destruct (0 <=? m) eqn:E1, (m <? total) eqn:E2; cbn [andb]; try done.
  - by rewrite Z.ltb_irrefl.
  - by rewrite E2.
Qed.

Lemma prepare_ok max_prb total0 ls l count :
  0 <= total0 -> (count <= length ls)%nat -> (0 < count)%nat -> entries_of (take count ls) l ->
  Forall (fun s => policy_ok (spolicy s)) l -> sum_ratio min_ratio l <= 100 ->
  exists out, nr_mac_prepare_slice_budgets max_prb total0 ls count = Ok (out ++ drop count ls) /\
    length out = count /\ budgets (cap_total max_prb total0) l out.
Proof.
  intros H0 Hc Hpos He Hp Hsum. unfold nr_mac_prepare_slice_budgets.
  rewrite (proj2 (Nat.eqb_neq count 0)), (proj2 (Nat.ltb_ge (length ls) count)) by lia. cbv zeta.
  pose proof (cap_total_range max_prb total0 H0) as [Ht _]. set (total := cap_total max_prb total0) in *.
  destruct (ratio_budget_entries total _ _ He) as (E1 & E2 & E3).
  set (bs := ratio_budget total <$> take count ls) in *.
  eexists. split; [done|]. split; [by rewrite length_imap; unfold bs; rewrite length_fmap, length_take, Nat.min_l|].
  assert (Hcap : forall i s, bs !! i = Some s ->
    slice (cap_budget total bs i s) = slice s /\ used_prbs (cap_budget total bs i s) = used_prbs s /\
    minimum_prbs (cap_budget total bs i s) = minimum_prbs s).
  { intros i s _. unfold cap_budget. destruct (slice s) eqn:E; cbn; done. }
  pose proof (minimum_sum_le total l Ht Hp Hsum) as Hms.
  split.
  - unfold entries_of in *. rewrite <- E1. apply list_eq. intros i. rewrite !list_lookup_fmap, list_lookup_imap.
    destruct (bs !! i) as [s|] eqn:E; [|done]. cbn. f_equal. by apply Hcap.
  - apply Forall_lookup. intros i s Hs. rewrite list_lookup_imap in Hs.
    destruct (bs !! i) as [s0|] eqn:E; [|done]. injection Hs as <-.
    destruct (Hcap i s0 E) as (_ & -> & _). exact (proj2 (Forall_lookup_1 _ _ _ _ E3 E)).
  - rewrite <- E2. apply list_eq. intros i. rewrite !list_lookup_fmap, list_lookup_imap.
    destruct (bs !! i) as [s|] eqn:E; [|done]. cbn. f_equal. by apply Hcap.
  - intros i s sl Hs Hl others. rewrite list_lookup_imap in Hs.
    destruct (bs !! i) as [s0|] eqn:E; [|done]. injection Hs as <-.
    assert (Hsl : slice s0 = Some sl).
    { assert (Hx : (slice <$> bs) !! i = Some (slice s0)) by (by rewrite list_lookup_fmap, E).
      rewrite E1, list_lookup_fmap, Hl in Hx. by injection Hx. }
    assert (Hmin : minimum_prbs s0 = minimum_of total sl).
    { assert (Hx : (minimum_prbs <$> bs) !! i = Some (minimum_prbs s0)) by (by rewrite list_lookup_fmap, E).
      rewrite E2, list_lookup_fmap, Hl in Hx. by injection Hx. }
    unfold cap_budget. rewrite Hsl. cbv zeta. cbn [max_prbs update].
    pose proof (minus_others_sum bs (max_prbs s0) i 0 s0 E) as Hmo.
    rewrite E2, Hmin, (proj1 (Forall_lookup_1 _ _ _ _ E3 E)) in Hmo.
    change (0 + i)%nat with i in Hmo. fold others in Hmo.
    rewrite (proj1 (Forall_lookup_1 _ _ _ _ E3 E)), Hmo.
    assert (0 <= total - others).
    { unfold others. assert (0 <= minimum_of total sl); [|lia].
      unfold minimum_of. pose proof (Forall_lookup_1 _ _ _ _ Hp Hl) as (_ & ? & _).
      rewrite Z.quot_div_nonneg by nia. apply Z.div_pos; nia. }
    rewrite (proj2 (Z.ltb_ge (total - others) 0)) by done.
    unfold policy_cap_of. by destruct (0 <? _).
Qed.

Lemma minimum_le_cap total sl : 0 <= total -> policy_ok (spolicy sl) ->
  0 <= minimum_of total sl <= policy_cap_of total sl.
Proof.
  intros Ht (_ & H & _). unfold minimum_of, policy_cap_of. rewrite !Z.quot_div_nonneg by nia.
  split; [apply Z.div_pos; nia|]. apply Z.div_le_mono; nia.
Qed.

(** the budget of a slice reaches its minimum, leaves the minima of the other
    slices, and is at most its maximum ratio when that is not 0 blocks *)
Lemma budget_bounds total l ls i s sl : 0 <= total ->
  Forall (fun s => policy_ok (spolicy s)) l -> sum_ratio min_ratio l <= 100 ->
  budgets total l ls -> ls !! i = Some s -> l !! i = Some sl ->
  minimum_of total sl <= max_prbs s /\
  max_prbs s + (zsum (minimum_of total <$> l) - minimum_of total sl) <= total /\
  (0 < policy_cap_of total sl -> max_prbs s <= policy_cap_of total sl) /\
  minimum_prbs s = minimum_of total sl /\ 0 <= max_prbs s.
Proof.
  intros Ht Hp Hsum [_ _ Bm Bx] Hs Hl. specialize (Bx i s sl Hs Hl). cbv zeta in Bx.
  pose proof (minimum_sum_le total l Ht Hp Hsum) as Hms.
  pose proof (minimum_le_cap total sl Ht (Forall_lookup_1 _ _ _ _ Hp Hl)) as Hmc.
  assert (Hmin : minimum_prbs s = minimum_of total sl).
  { assert (Hx : (minimum_prbs <$> ls) !! i = Some (minimum_prbs s)) by (by rewrite list_lookup_fmap, Hs).
    rewrite Bm, list_lookup_fmap, Hl in Hx. by injection Hx. }
  destruct (Z.ltb_spec 0 (policy_cap_of total sl)); lia.
Qed.

(** ** The cap over the beams *)

Lemma scale_beam_eq cap denom o : 0 <= o -> 0 <= cap < denom ->
  scale_beam cap denom o = o * cap / denom /\ 0 <= o * cap / denom <= o.
Proof.
  intros Ho Hc. unfold scale_beam. cbv zeta. rewrite Z.quot_div_nonneg by nia.
  assert (0 <= o * cap / denom <= o).
  { split; [apply Z.div_pos; nia|]. apply Z.div_le_upper_bound; nia. }
  split; [|done]. destruct (Z.ltb_spec o (o * cap / denom)); lia.
Qed.

Lemma scaled_sum cap denom l : 0 <= cap < denom -> Forall (fun x => 0 <= x) l ->
  0 <= zsum (scale_beam cap denom <$> l) /\
  denom * zsum (scale_beam cap denom <$> l) <= zsum l * cap /\
  Forall2 (fun o n => 0 <= n <= o) l (scale_beam cap denom <$> l).
Proof.
  intros Hc. induction 1 as [|o l Ho Hl IH]; [split; [|split]; cbn; [lia|lia|constructor]|].
  destruct IH as (I1 & I2 & I3). destruct (scale_beam_eq cap denom o Ho Hc) as [E1 E2].
  cbn [zsum foldr fmap list_fmap]. fold (zsum l) (zsum (scale_beam cap denom <$> l)).
  rewrite E1. pose proof (Z.mul_div_le (o * cap) denom ltac:(lia)).
  split; [lia|]. split; [lia|]. constructor; [lia|done].
Qed.

Lemma grant_deficit_ok os : forall ns d,
  Forall2 (fun o n => 0 <= n <= o) os ns -> d <= zsum os - zsum ns ->
  Forall2 (fun o n => 0 <= n <= o) os (grant_deficit os ns d) /\
  zsum (grant_deficit os ns d) = zsum ns + Z.max 0 d.
Proof.
  induction os as [|o os IH]; intros ns d Hf Hd; inversion Hf as [|? n ? ns' Hn Hf']; subst;
    cbn [grant_deficit].
  { cbn in *. split; [constructor|lia]. }
  cbn [zsum foldr] in Hd |- *. fold (zsum os) (zsum ns') in *.
  assert (Hrest : zsum ns' <= zsum os).
  { clear -Hf'. induction Hf' as [|x y xs ys H H2 IH]; cbn [zsum foldr]; [lia|]. fold (zsum xs) (zsum ys). lia. }
  destruct (Z.leb_spec d 0).
  { split; [by constructor|]. cbn [zsum foldr]. fold (zsum ns'). lia. }
  cbv zeta. destruct (Z.leb_spec (o - n) 0).
  { destruct (IH ns' d Hf' ltac:(lia)) as [G1 G2]. split; [constructor; [lia|done]|].
    cbn [zsum foldr]. fold (zsum (grant_deficit os ns' d)). lia. }
  set (g := if o - n <? d then o - n else d).
  assert (Hg : g = Z.min (o - n) d) by (unfold g; destruct (Z.ltb_spec (o - n) d); lia).
  destruct (IH ns' (d - g) Hf' ltac:(lia)) as [G1 G2].
  split; [constructor; [lia|done]|]. cbn [zsum foldr]. fold (zsum (grant_deficit os ns' (d - g))). lia.
Qed.

Lemma cap_beams_ok max_prb l : Forall (fun x => 0 <= x) l ->
  let r := cap_beams max_prb l in
  snd r = cap_total max_prb (zsum l) /\ zsum (fst r) = cap_total max_prb (zsum l) /\
  Forall2 (fun o n => 0 <= n <= o) l (fst r).
Proof.
  intros Hl. pose proof (zsum_nonneg l Hl) as H0. unfold cap_beams. cbv zeta.
  pose proof (cap_total_range max_prb (zsum l) H0) as Hr. set (c := cap_total max_prb (zsum l)) in *.
  destruct (Z.ltb_spec c (zsum l)) as [Hlt|Hge]; cbn [fst snd].
  - rewrite (proj2 (Z.ltb_lt 0 (zsum l))) by lia.
    destruct (scaled_sum c (zsum l) l ltac:(lia) Hl) as (S1 & S2 & S3).
    assert (zsum (scale_beam c (zsum l) <$> l) <= c) by (clear -S2 Hlt Hr; nia).
    clear S2. set (sc := scale_beam c (zsum l) <$> l) in *.
    destruct (grant_deficit_ok l sc (c - zsum sc) S3) as [G1 G2]; [lia|].
    split; [done|]. split; [lia|done].
  - split; [lia|]. split; [lia|]. clear -Hl. induction Hl as [|x l Hx Hl IH]; constructor; [split; [exact Hx|lia]|done].
Qed.

(** The cap on the resource blocks of the cell is distributed over the
    beams exactly: the new counts add up to the cap, and no beam gets more
    blocks than it had. *)
Theorem cap_beams_exact max_prb l : Forall (fun x => 0 <= x) l ->
  let r := cap_beams max_prb l in
  zsum (fst r) = snd r /\ snd r = cap_total max_prb (zsum l) /\
  Forall2 (fun o n => 0 <= n <= o) l (fst r).
Proof. intros Hl r. destruct (cap_beams_ok max_prb l Hl) as (H1 & H2 & H3). unfold r. by rewrite H1, H2. Qed.

Lemma cap_beams_exact_witness :
  zsum (fst (cap_beams (Some 100) [106; 106; 51])) = 100.
Proof.
  destruct (cap_beams_exact (Some 100) [106; 106; 51]) as [H _]; [repeat constructor; lia|].
  rewrite H. reflexivity.
Defined.


Definition wb_slices : list NR_slice_info_t :=
  [mk_slice 0 (mk_nssai 0 0xffffff) (mk_policy 0 10 100);
   mk_slice 1 (mk_nssai 1 1) (mk_policy 0 30 60)].
Definition wb_sched : list SLsched_t :=
  (fun sl => mk_slsched 0 0 0 0 0 (Some sl)) <$> wb_slices.

