(* ===== verification/SliceAlloc.v ===== *)
(** * The allocation of resource blocks to the UEs of the slices

    The loop of [pf_dl_slice] returns for every candidate list, gives out only
    blocks that are free and counted, and never one block twice. *)
From S2P Require Import Prelude Slices SlicesInv SliceUe SliceUeSpec Tbs TbsSpec SliceSched SliceBudget.

(** ** Maps of a beam *)

Definition MASK_LEN : Z := 275.

Definition block (mask : list Z) (i : Z) : Z := default 0 (mask !! Z.to_nat i).

(** block [i] is not used by any symbol of [bits] *)
Definition free (mask : list Z) (bits i : Z) : Prop := Z.land (block mask i) bits = 0.
(** block [i] is marked for the symbols [bits] *)
Definition marked (mask : list Z) (bits i : Z) : Prop := Z.land (block mask i) bits = bits.

Lemma mask_at_ok mask i : 0 <= i < Z.of_nat (length mask) -> mask_at mask i = Ok (block mask i).
Proof.
  intros Hi. unfold mask_at, block. rewrite (proj2 (Z.ltb_ge i 0)) by lia.
  destruct (arr_get_lt mask (Z.to_nat i) ltac:(lia)) as (x & -> & ->). done.
Qed.

Lemma find_rb_start_ok mask bits bwp stop fuel : forall rb,
  0 <= rb -> 0 <= bwp -> bwp + stop < Z.of_nat (length mask) -> Z.max 0 (stop - rb) < Z.of_nat fuel ->
  exists r, find_rb_start fuel mask bits bwp stop rb = Ok r /\ rb <= r <= Z.max rb stop /\
    (r < stop -> free mask bits (r + bwp)).
Proof.
  induction fuel as [|fuel IH]; intros rb H0 Hb Hl Hf; cbn [find_rb_start].
  { lia. }
  destruct (Z.ltb_spec rb stop); cbn [negb]; [|exists rb; split; [done|]; split; lia].
  rewrite mask_at_ok by lia. cbn [res_bind].
  destruct (Z.eqb_spec (Z.land (block mask (rb + bwp)) bits) 0) as [E|E].
  - exists rb. split; [done|]. split; [lia|]. done.
  - destruct (IH (rb + 1) ltac:(lia) Hb Hl ltac:(lia)) as (r & -> & ? & ?).
    exists r. split; [done|]. split; [lia|done].
Qed.

Lemma grow_rb_size_ok mask bits bwp stop rb limit fuel : forall size,
  0 <= rb -> 0 <= bwp -> 0 <= size -> bwp + stop < Z.of_nat (length mask) ->
  Z.max 0 (stop + 1 - rb - size) < Z.of_nat fuel ->
  exists r, grow_rb_size fuel mask bits bwp stop rb limit size = Ok r /\ size <= r /\
    (size < r -> r <= limit /\ rb + r <= stop + 1) /\
    forall k, size <= k < r -> free mask bits (rb + k + bwp).
Proof.
  induction fuel as [|fuel IH]; intros size H0 Hb Hs Hl Hf; cbn [grow_rb_size]; [lia|].
  destruct (Z.leb_spec (rb + size) stop); cbn [negb]; [|exists size; split_and!; done || lia].
  rewrite mask_at_ok by lia. cbn [res_bind].
  destruct (Z.eqb_spec (Z.land (block mask (rb + size + bwp)) bits) 0) as [E|E]; cbn [negb orb];
    [|exists size; split_and!; done || lia].
  destruct (Z.ltb_spec size limit); cbn [negb]; [|exists size; split_and!; done || lia].
  destruct (IH (size + 1) H0 Hb ltac:(lia) Hl ltac:(lia)) as (r & -> & R1 & R2 & R3).
  exists r. split; [done|]. split; [lia|]. split.
  - intros _. destruct (decide (size + 1 < r)); [by apply R2|]. lia.
  - intros k Hk. destruct (decide (k = size)) as [->|]; [done|]. apply R3. lia.
Qed.

Lemma mark_range_ok mask start size bits :
  0 <= start -> 0 <= size -> start + size <= Z.of_nat (length mask) ->
  exists mask', mark_range mask start size bits = Ok mask' /\ length mask' = length mask /\
    forall i, 0 <= i < Z.of_nat (length mask) ->
      block mask' i = if (start <=? i) && (i <? start + size) then Z.lor (block mask i) bits
                      else block mask i.
Proof.
  intros H1 H2 H3. unfold mark_range.
  rewrite (proj2 (Z.ltb_ge start 0)), (proj2 (Z.ltb_ge (Z.of_nat (length mask)) _)) by lia. cbn [orb].
  eexists. split; [done|]. split; [apply length_imap|]. intros i Hi. unfold block.
  rewrite list_lookup_imap. destruct (arr_get_lt mask (Z.to_nat i) ltac:(lia)) as (x & -> & _).
  cbn. by rewrite Z2Nat.id by lia.
Qed.

(** the marks of a map only grow *)
Definition mask_le (m m' : list Z) : Prop :=
  length m' = length m /\
  forall bits i, 0 <= i < Z.of_nat (length m) -> marked m bits i -> marked m' bits i.
#[export] Instance mask_le_pre : PreOrder mask_le.
Proof.
  split; [done|]. intros a b c [L1 H1] [L2 H2]. split; [congruence|].
  intros bits i Hi Hm. apply H2; [lia|]. by apply H1.
Qed.

Lemma marked_lor m bits x : Z.land m bits = bits -> Z.land (Z.lor m x) bits = bits.
Proof. intros H. rewrite Z.land_lor_distr_l, H. apply Z.bits_inj'. intros n _.
  rewrite Z.lor_spec, Z.land_spec. destruct (Z.testbit x n), (Z.testbit bits n); done. Qed.

Lemma mark_range_le mask start size bits mask' :
  0 <= start -> 0 <= size -> start + size <= Z.of_nat (length mask) ->
  mark_range mask start size bits = Ok mask' ->
  mask_le mask mask' /\ forall i, start <= i < start + size -> marked mask' bits i.
Proof.
  intros H1 H2 H3 H4. destruct (mark_range_ok mask start size bits H1 H2 H3) as (m & Hm & Hl & Hb).
  rewrite H4 in Hm. injection Hm as <-. split; [split; [done|]|].
  - intros bs i Hi Hma. unfold marked in *. rewrite Hb by done. destruct (_ && _); [|done].
    by apply marked_lor.
  - intros i Hi. unfold marked. rewrite Hb by lia.
    destruct (Z.leb_spec start i), (Z.ltb_spec i (start + size)); try lia. cbn [andb].
    rewrite Z.land_lor_distr_l, Z.land_diag. apply Z.bits_inj'. intros n _.
    rewrite Z.lor_spec, Z.land_spec. destruct (Z.testbit (block mask i) n), (Z.testbit bits n); done.
Qed.

Lemma mark_pdcch_ok l : forall mask,
  Forall (fun '(start, size, bits) => 0 <= start /\ 0 <= size /\ start + size <= Z.of_nat (length mask)) l ->
  exists mask', fold_res (fun m '(start, size, bits) => mark_range m start size bits) l mask = Ok mask' /\
    mask_le mask mask'.
Proof.
  induction l as [|[[a n] bits] l IH]; intros mask Hl; cbn [fold_res]; [by exists mask|].
  apply Forall_cons in Hl as [(A1 & A2 & A3) Hl].
  destruct (mark_range_ok mask a n bits A1 A2 A3) as (m & Hm & Hlen & _). rewrite Hm. cbn [res_bind].
  destruct (mark_range_le _ _ _ _ _ A1 A2 A3 Hm) as [Hle _].
  destruct (IH m) as (m' & -> & Hle').
  { eapply Forall_impl; [exact Hl|]. intros [[? ?] ?]. by rewrite Hlen. }
  exists m'. split; [done|]. by transitivity m.
Qed.

(** ** The state of the allocation *)

(** two allocations that share a beam and a symbol have no common block *)
Definition apart (a b : dl_alloc) : Prop :=
  al_beam a = al_beam b -> Z.land (al_bits a) (al_bits b) <> 0 ->
  al_start a + al_size a <= al_start b \/ al_start b + al_size b <= al_start a.

Definition alloc_marked (masks : list (list Z)) (a : dl_alloc) : Prop :=
  0 <= al_start a /\ 0 < al_size a /\ al_start a + al_size a <= MASK_LEN /\
  exists mask, masks !! al_beam a = Some mask /\
    forall i, al_start a <= i < al_start a + al_size a -> marked mask (al_bits a) i.

Record dl_ok (beams : nat) (st : dl_state) : Prop := mk_dl_ok {
  dk_rb : length (n_rb_sched st) = beams;
  dk_ues : length (remain_ues st) = beams;
  dk_masks : length (rb_masks st) = beams;
  dk_len : Forall (fun m => Z.of_nat (length m) = MASK_LEN) (rb_masks st);
  dk_nonneg : Forall (fun n => 0 <= n) (n_rb_sched st);
  dk_marked : Forall (alloc_marked (rb_masks st)) (allocs st);
  dk_apart : ForallOrdPairs apart (allocs st)
}.

(** the answers of the MAC for a candidate are within their ranges *)
Record cand_ok (beams : nat) (c : dl_candidate) : Prop := mk_cand_ok {
  cn_beam : cd_beam c < Z.of_nat beams;
  cn_tda : cd_tda c <> None;
  cn_bwp : 0 <= cd_bwp_start c /\ 0 <= cd_bwp_size c /\ cd_bwp_start c + cd_bwp_size c <= MASK_LEN;
  cn_pdcch : Forall (fun '(start, size, bits) =>
    0 <= start /\ 0 <= size /\ start + size <= MASK_LEN) (cd_pdcch c)
}.

Lemma masks_le_marked masks b m m' a :
  masks !! b = Some m -> mask_le m m' -> Z.of_nat (length m) = MASK_LEN ->
  alloc_marked masks a -> alloc_marked (<[b := m']> masks) a.
Proof.
  intros Hb [Hl Hle] Hlen (A1 & A2 & A3 & mask & Hm & Hall).
  split_and!; try done. destruct (decide (al_beam a = b)) as [He|Hne].
  - exists m'. rewrite He, list_lookup_insert_eq by (by eapply lookup_lt_Some). split; [done|].
    rewrite He, Hb in Hm. injection Hm as <-. intros i Hi. apply Hle; [lia|]. by apply Hall.
  - exists mask. by rewrite list_lookup_insert_ne.
Qed.

Lemma marked_free mask a b i : marked mask a i -> free mask b i -> Z.land a b = 0.
Proof.
  unfold marked, free. intros Ha Hb. rewrite <- Ha, <- Z.land_assoc, (Z.land_comm a b), Z.land_assoc, Hb.
  apply Z.land_0_l.
Qed.

Lemma find_nb_rb_size Qm R layers symb dmrs bytes max : 5 <= max < 65536 ->
  exists ok tbs n, nr_find_nb_rb Qm R 1 layers symb dmrs bytes 5 max = Ok (ok, tbs, n) /\ 5 <= n <= max.
Proof.
  intros Hm. unfold nr_find_nb_rb. change (1 =? 0) with false.
  destruct (find_ok false (fun nb_rb => tbs_bytes Qm R nb_rb symb dmrs layers) bytes 5 max) as (top & n & He & Hn & Ht & _);
    [lia|lia|apply five_allowed|].
  eexists _, _, n. split; [exact He|lia].
Qed.

(** what a round may do: take blocks for one more UE, or nothing *)
Record progress (st st' : dl_state) (s s' : SLsched_t) (new : list dl_alloc) : Prop := mk_progress {
  pr_allocs : allocs st' = allocs st ++ new;
  pr_used : used_prbs s' = used_prbs s + zsum (al_size <$> new);
  pr_total : zsum (n_rb_sched st') = zsum (n_rb_sched st) - zsum (al_size <$> new);
  pr_max : max_prbs s' = max_prbs s;
  pr_slice : slice s' = slice s
}.

Lemma progress_none st s : progress st st s s [].
Proof. split; cbn; try done; try lia. by rewrite app_nil_r. Qed.

Lemma progress_trans st1 st2 st3 s1 s2 s3 n1 n2 :
  progress st1 st2 s1 s2 n1 -> progress st2 st3 s2 s3 n2 -> progress st1 st3 s1 s3 (n1 ++ n2).
Proof.
  intros [A1 B1 C1 D1 E1] [A2 B2 C2 D2 E2]. split; try congruence.
  - by rewrite A2, A1, app_assoc.
  - rewrite fmap_app, zsum_app. lia.
  - rewrite fmap_app, zsum_app. lia.
Qed.

Lemma ordpairs_snoc {A} (R : A -> A -> Prop) l x :
  ForallOrdPairs R l -> Forall (fun y => R y x) l -> ForallOrdPairs R (l ++ [x]).
Proof.
  induction 1 as [|y l Hy Hl IH]; intros Hx; cbn; [repeat constructor|].
  apply Forall_cons in Hx as [H1 H2]. constructor; [|by apply IH].
  apply Forall_app. split; [done|]. by constructor.
Qed.

(** the state after giving [size] free blocks of beam [b] to a UE *)
Lemma give_blocks beams st b mask maskp mask' n_rb remain ue start size bits tbs :
  dl_ok beams st -> rb_masks st !! b = Some mask -> n_rb_sched st !! b = Some n_rb ->
  0 <= start -> 0 < size <= n_rb -> start + size <= MASK_LEN ->
  (forall i, start <= i < start + size -> free mask bits i) ->
  mask_le mask maskp -> mark_range maskp start size bits = Ok mask' ->
  let st' := st <| n_rb_sched := <[b := n_rb - size]> (n_rb_sched st) |>
    <| remain_ues := <[b := remain - 1]> (remain_ues st) |>
    <| rb_masks := <[b := mask']> (rb_masks st) |>
    <| allocs := allocs st ++ [mk_alloc ue b start size bits tbs] |> in
  dl_ok beams st'.
Proof.
  intros [K1 K2 K3 K4 K5 K6 K7] Hm Hn Hs Hz Hend Hfree Hle Hmark st'.
  assert (Hlm : Z.of_nat (length mask) = MASK_LEN) by exact (Forall_lookup_1 _ _ _ _ K4 Hm).
  destruct Hle as [Hl1 Hle1].
  destruct (mark_range_le maskp start size bits mask' Hs ltac:(lia) ltac:(lia) Hmark) as [Hle2 Hnew].
  assert (Hle : mask_le mask mask') by (transitivity maskp; [by split|done]).
  assert (Hl : Z.of_nat (length mask') = MASK_LEN) by (rewrite (proj1 Hle); done).
  pose proof (lookup_lt_Some _ _ _ Hm) as Hb.
  split; unfold st'; cbn [n_rb_sched remain_ues rb_masks allocs update].
  - by rewrite length_insert.
  - by rewrite length_insert.
  - by rewrite length_insert.
  - by apply Forall_insert.
  - apply Forall_insert; [done|]. lia.
  - apply Forall_app. split.
    + eapply Forall_impl; [exact K6|]. intros a Ha. by eapply masks_le_marked.
    + constructor; [|done]. split_and!; cbn; try lia. exists mask'. split; [|done].
      by rewrite list_lookup_insert_eq.
  - apply ordpairs_snoc; [done|]. apply Forall_forall. intros a Ha Hbeam Hbits. cbn in *.
    pose proof (proj1 (Forall_forall _ _) K6 a Ha) as (A1 & A2 & A3 & m & Hm' & Hall).
    rewrite Hbeam, Hm in Hm'. injection Hm' as <-.
    destruct (Z.le_gt_cases (al_start a + al_size a) start) as [|H1]; [by left|].
    destruct (Z.le_gt_cases (start + size) (al_start a)) as [|H2]; [by right|].
    exfalso. apply Hbits. set (i := Z.max start (al_start a)).
    apply (marked_free mask _ _ i); [apply Hall; lia|apply Hfree; lia].
Qed.

Lemma mask_step_ok beams st b mask maskp :
  dl_ok beams st -> rb_masks st !! b = Some mask -> mask_le mask maskp ->
  dl_ok beams (st <| rb_masks := <[b := maskp]> (rb_masks st) |>).
Proof.
  intros [K1 K2 K3 K4 K5 K6 K7] Hm Hle.
  assert (Hlm : Z.of_nat (length mask) = MASK_LEN) by exact (Forall_lookup_1 _ _ _ _ K4 Hm).
  split; cbn [n_rb_sched remain_ues rb_masks allocs update]; try done.
  - by rewrite length_insert.
  - apply Forall_insert; [done|]. by rewrite (proj1 Hle).
  - eapply Forall_impl; [exact K6|]. intros a Ha. by eapply masks_le_marked.
Qed.

(** one round of the loop *)
Lemma pf_dl_ue_ok beams st s c :
  dl_ok beams st -> cand_ok beams c -> min_rbSize <= max_prbs s - used_prbs s ->
  exists st' s' new, pf_dl_ue st s c = Ok (st', s') /\ dl_ok beams st' /\
    progress st st' s s' new /\ used_prbs s <= used_prbs s' <= max_prbs s.
Proof.
  intros Hk [C1 C2 [C3 [C4 C5]] C6] Hrem. unfold min_rbSize in *. pose proof Hk as [K1 K2 K3 K4 K5 K6 K7].
  assert (Hskip : exists st' s' new, Ok (st, s) = Ok (st', s') /\ dl_ok beams st' /\
    progress st st' s s' new /\ used_prbs s <= used_prbs s' <= max_prbs s).
  { exists st, s, []. split; [done|]. split; [done|]. split; [apply progress_none|lia]. }
  unfold pf_dl_ue. cbv zeta. destruct (Z.ltb_spec (cd_beam c) 0); [done|].
  set (b := Z.to_nat (cd_beam c)). assert (Hb : (b < beams)%nat) by (unfold b; lia).
  destruct (arr_get_lt (remain_ues st) b ltac:(lia)) as (remain & _ & ->).
  destruct (arr_get_lt (n_rb_sched st) b ltac:(lia)) as (n_rb & Hn & ->). cbn [res_bind].
  unfold min_rbSize. destruct (Z.eqb_spec remain 0) as [|Hremain]; [done|]. cbn [orb].
  destruct (Z.ltb_spec n_rb 5); [done|].
  destruct (arr_get_lt (rb_masks st) b ltac:(lia)) as (mask & Hm & ->). cbn [res_bind].
  assert (Hlm : Z.of_nat (length mask) = MASK_LEN) by exact (Forall_lookup_1 _ _ _ _ K4 Hm).
  destruct (cd_tda c) as [[sym nsym]|]; [|done]. cbn [of_option res_bind].
  set (bits := SL_to_bitmap sym nsym). set (bwp := cd_bwp_start c) in *. set (stop := cd_bwp_size c - 1).
  destruct (find_rb_start_ok mask bits bwp stop (S (Z.to_nat stop)) 0) as (rb & -> & Hrb & Hfree0);
    [lia|lia|unfold stop; lia|lia|]. cbn [res_bind].
  set (limit := Z.min (max_prbs s - used_prbs s) n_rb mod 65536).
  assert (Hlim : limit <= max_prbs s - used_prbs s /\ limit <= n_rb /\ limit < 65536).
  { unfold limit. pose proof (Z.mod_pos_bound (Z.min (max_prbs s - used_prbs s) n_rb) 65536 ltac:(lia)).
    pose proof (Z.mod_le (Z.min (max_prbs s - used_prbs s) n_rb) 65536 ltac:(lia) ltac:(lia)). lia. }
  destruct (grow_rb_size_ok mask bits bwp stop rb limit (S (Z.to_nat (cd_bwp_size c))) 1)
    as (mx & -> & G1 & G2 & G3); [lia|lia|lia|unfold stop; lia|unfold stop in *; lia|]. cbn [res_bind].
  destruct (Z.ltb_spec mx 5); [done|]. destruct (cd_cce c <? 0); [done|].
  destruct (match cd_pucch c with Some alloc => _ | None => _ end); [done|].
  destruct (G2 ltac:(lia)) as [G4 G5].
  destruct (mark_pdcch_ok (cd_pdcch c) mask) as (maskp & -> & Hle); [by rewrite Hlm|]. cbn [res_bind].
  destruct (find_nb_rb_size (cd_Qm c) (cd_R c) (cd_layers c) nsym (cd_dmrs c)
    (u32 (cd_slice_bytes c + (3 * 4 + (if cd_ta c then 2 else 0)))) mx ltac:(lia)) as (ok & tbs & n & -> & Hnn).
  cbn [res_bind]. rewrite (proj2 (Z.eqb_neq n 0)) by lia.
  destruct (mark_range_ok maskp (rb + bwp) n bits) as (mask' & Hmark & _);
    [lia|lia|rewrite (proj1 Hle); unfold stop in *; lia|]. rewrite Hmark. cbn [res_bind].
  eexists _, _, [_]. split; [done|]. split.
  - pose proof (give_blocks beams st b mask maskp mask' n_rb remain (cd_ue c) (rb + bwp) n bits tbs) as Hg.
    cbv zeta in Hg. cbn [n_rb_sched remain_ues rb_masks allocs update] in Hg |- *.
    rewrite list_insert_insert_eq. apply Hg; try done; try lia.
    intros i Hi. destruct (decide (i = rb + bwp)) as [->|Hne].
    + apply Hfree0. lia.
    + replace i with (rb + (i - rb - bwp) + bwp) by lia. apply G3. lia.
  - split.
    + split; cbn [n_rb_sched remain_ues rb_masks allocs update used_prbs max_prbs slice]; try done.
      * cbn. lia.
      * rewrite (zsum_insert _ _ n_rb) by done. cbn. lia.
    + cbn. lia.
Qed.

Lemma pf_dl_loop_ok beams cands : Forall (cand_ok beams) cands -> forall st s,
  dl_ok beams st -> used_prbs s <= max_prbs s ->
  exists st' s' new, pf_dl_loop st s cands = Ok (st', s') /\ dl_ok beams st' /\
    progress st st' s s' new /\ used_prbs s <= used_prbs s' <= max_prbs s.
Proof.
  induction 1 as [|c cands Hc Hcs IH]; intros st s Hk Hu; cbn [pf_dl_loop].
  { exists st, s, []. split; [done|]. split; [done|]. split; [apply progress_none|lia]. }
  destruct (Z.ltb_spec (max_prbs s - used_prbs s) min_rbSize).
  { exists st, s, []. split; [done|]. split; [done|]. split; [apply progress_none|lia]. }
  destruct (pf_dl_ue_ok beams st s c Hk Hc ltac:(lia)) as (st1 & s1 & n1 & -> & Hk1 & Hp1 & Hu1).
  cbn [res_bind]. pose proof (pr_max _ _ _ _ _ Hp1) as Hm.
  destruct (IH st1 s1 Hk1 ltac:(lia)) as (st2 & s2 & n2 & -> & Hk2 & Hp2 & Hu2).
  exists st2, s2, (n1 ++ n2). split; [done|]. split; [done|]. split; [by eapply progress_trans|lia].
Qed.

Lemma pf_dl_slice_ok beams cands st s :
  Forall (cand_ok beams) cands -> dl_ok beams st -> used_prbs s <= max_prbs s ->
  exists st' s' new, pf_dl_slice st s cands = Ok (st', s') /\ dl_ok beams st' /\
    progress st st' s s' new /\ used_prbs s <= used_prbs s' <= max_prbs s.
Proof.
  intros Hc Hk Hu. unfold pf_dl_slice. destruct (slice s) eqn:Es.
  - destruct (pf_dl_loop_ok beams cands Hc st s Hk Hu) as (st' & s' & new & -> & Hk' & Hp & Hu').
    cbn [res_bind]. eexists _, _, new. split; [done|]. split; [done|]. split; [|exact Hu'].
    destruct Hp as [P1 P2 P3 P4 P5]. by split.
  - exists st, s, []. split; [done|]. split; [done|]. split; [apply progress_none|lia].
Qed.

(** ** All slices of a slot *)

Lemma pf_dl_slices_ok beams cands l : (forall i, Forall (cand_ok beams) (cands i)) -> forall st i,
  dl_ok beams st -> Forall (fun s => used_prbs s = 0 /\ 0 <= max_prbs s) l ->
  exists st' l' new, pf_dl_slices st l cands i = Ok (st', l') /\ dl_ok beams st' /\
    allocs st' = allocs st ++ new /\
    zsum (al_size <$> new) = zsum (used_prbs <$> l') /\
    zsum (n_rb_sched st') = zsum (n_rb_sched st) - zsum (used_prbs <$> l') /\
    Forall2 (fun s s' => slice s' = slice s /\ max_prbs s' = max_prbs s /\
      0 <= used_prbs s' <= max_prbs s) l l'.
Proof.
  intros Hc. induction l as [|s l IH]; intros st i Hk Hl; cbn [pf_dl_slices].
  { exists st, [], []. split_and!; try done; cbn; try lia. by rewrite app_nil_r. }
  apply Forall_cons in Hl as [[Hs0 Hs1] Hl].
  destruct (pf_dl_slice_ok beams (cands i) st s (Hc i) Hk ltac:(lia)) as (st1 & s1 & n1 & -> & Hk1 & Hp1 & Hu1).
  cbn [res_bind].
  destruct (IH st1 (S i) Hk1 Hl) as (st2 & l2 & n2 & -> & Hk2 & A2 & B2 & D2 & E2). cbn [res_bind].
  destruct Hp1 as [P1 P2 P3 P4 P5].
  exists st2, (s1 :: l2), (n1 ++ n2). split; [done|]. split; [done|].
  cbn [fmap list_fmap zsum foldr]. fold (zsum (used_prbs <$> l2)). split_and!.
  - by rewrite A2, P1, app_assoc.
  - rewrite fmap_app, zsum_app. lia.
  - lia.
  - constructor; [|done]. split_and!; try done; lia.
Qed.

Lemma schedule_safe max_prb beams st ls l count cands :
  dl_ok beams st -> allocs st = [] -> (count <= length ls)%nat -> (0 < count)%nat ->
  entries_of (take count ls) l -> Forall (fun s => policy_ok (spolicy s)) l ->
  sum_ratio min_ratio l <= 100 -> (forall i, Forall (cand_ok beams) (cands i)) ->
  exists st' l', dl_sched_new max_prb st ls count cands = Ok (st', l') /\
    let total := cap_total max_prb (zsum (n_rb_sched st)) in
    zsum (al_size <$> allocs st') <= total /\
    zsum (al_size <$> allocs st') = zsum (used_prbs <$> l') /\
    ForallOrdPairs apart (allocs st') /\
    Forall (alloc_marked (rb_masks st')) (allocs st') /\
    forall i s sl, l' !! i = Some s -> l !! i = Some sl ->
      slice s = Some sl /\ 0 <= used_prbs s /\
      used_prbs s + (zsum (minimum_of total <$> l) - minimum_of total sl) <= total /\
      (0 < policy_cap_of total sl -> used_prbs s <= policy_cap_of total sl).
Proof.
  intros Hk Ha Hc Hpos He Hp Hsum Hcands. unfold dl_sched_new.
  destruct (cap_beams_ok max_prb (n_rb_sched st) (dk_nonneg _ _ Hk)) as (B1 & B2 & B3).
  destruct (cap_beams max_prb (n_rb_sched st)) as [n_rb total0]. cbn [fst snd] in *. subst total0.
  pose proof (zsum_nonneg _ (dk_nonneg _ _ Hk)) as Hz.
  pose proof (cap_total_range max_prb _ Hz) as [Ht _]. set (total := cap_total max_prb _) in *.
  destruct (prepare_ok max_prb total ls l count Ht Hc Hpos He Hp Hsum) as (out & -> & Hlen & Hb).
  cbn [res_bind]. rewrite <- Hlen, take_app_length.
  unfold total in Hb at 1. rewrite cap_total_idem in Hb. fold total in Hb.
  assert (Hlen2 : length out = length l).
  { pose proof (bu_entries _ _ _ Hb) as Hx. apply (f_equal length) in Hx. by rewrite !length_fmap in Hx. }
  assert (Hk1 : dl_ok beams (st <| n_rb_sched := n_rb |>)).
  { destruct Hk as [K1 K2 K3 K4 K5 K6 K7]. split; cbn; try done.
    - rewrite <- K1. symmetry. by eapply Forall2_length.
    - eapply Forall2_Forall_r; [exact B3|]. apply Forall_true. intros o n [? _]. done. }
  destruct (pf_dl_slices_ok beams cands out Hcands _ 0%nat Hk1)
    as (st' & l' & new & -> & Hk2 & A2 & S2 & T2 & F2).
  { apply Forall_lookup. intros i s Hs. split; [exact (Forall_lookup_1 _ _ _ _ (bu_used _ _ _ Hb) Hs)|].
    destruct (lookup_lt_is_Some_2 l i) as [sl Hsl].
    { rewrite <- Hlen2. by eapply lookup_lt_Some. }
    by destruct (budget_bounds _ _ _ i s sl Ht Hp Hsum Hb Hs Hsl) as (_ & _ & _ & _ & ?). }
  exists st', l'. split; [done|]. cbn [allocs n_rb_sched update] in A2, T2. rewrite Ha in A2. cbn in A2.
  rewrite A2. pose proof (zsum_nonneg _ (dk_nonneg _ _ Hk2)) as Hz2.
  split; [lia|]. split; [done|]. rewrite <- A2. split; [apply Hk2|]. split; [apply Hk2|].
  intros i s sl Hs Hsl. destruct (Forall2_lookup_r _ _ _ _ _ F2 Hs) as (s0 & Hs0 & E1 & E2 & E3).
  destruct (budget_bounds _ _ _ i s0 sl Ht Hp Hsum Hb Hs0 Hsl) as (_ & U1 & U2 & _).
  split; [|split; [lia|split; [lia|]]].
  - rewrite E1. pose proof (bu_entries _ _ _ Hb) as Hx.
    assert (Hy : (slice <$> out) !! i = Some (slice s0)) by (by rewrite list_lookup_fmap, Hs0).
    rewrite Hx, list_lookup_fmap, Hsl in Hy. by injection Hy.
  - intros Hpc. specialize (U2 Hpc). lia.
Qed.


(** a cell with one beam of 106 free blocks, and a UE that takes all it can get *)
Definition wa_state : dl_state := mk_dl [106] [4] [replicate 275 0] [].
Definition wa_cand (ue : nat) : dl_candidate :=
  mk_cand ue 100000 0 (Some (1, 13)) 0 106 0 (Some 0) [(0, 6, 1)] 6 7190 2 12 false.

Lemma wa_state_ok : dl_ok 1 wa_state.
Proof.
  split; cbn; repeat constructor; try done; lia.
Qed.
Lemma wa_cand_ok ue : cand_ok 1 (wa_cand ue).
Proof. split; cbn; try done; unfold MASK_LEN; try lia. repeat constructor; lia. Qed.


(** ** Where the policies are not enforced *)

(** three slices with minima of 10, 10 and 40 percent *)
Definition wc_slice (id mn mx : Z) : NR_slice_info_t :=
  mk_slice id (mk_nssai 1 id) (mk_policy 0 mn mx).
Definition fresh (sl : NR_slice_info_t) : SLsched_t := mk_slsched 0 0 0 0 0 (Some sl).

(** With three slices a minimum ratio is not a guarantee: the budgets only
    bound each slice against the minima of the others, so two slices that use
    theirs fully leave nothing to the third, whose minimum is 40 of 100 blocks. *)
Theorem three_slices_starve_minimum :
  let a := wc_slice 0 10 100 in let b := wc_slice 1 10 100 in let c := wc_slice 2 40 100 in
  exists st', dl_sched_new (Some 100) wa_state [fresh a; fresh b; fresh c] 3 (fun i => [wa_cand i]) =
    Ok (st', [mk_slsched 0 0 50 50 50 (Some a); mk_slsched 0 0 50 50 50 (Some b);
              mk_slsched 0 0 0 80 0 (Some c)]).
Proof. eexists. vm_compute. reflexivity. Qed.

(** A maximum ratio that rounds to 0 blocks is not enforced: a slice whose
    policy allows 0 percent gets all 106 blocks of the cell. *)
Theorem zero_max_ratio_uncapped :
  let a := wc_slice 0 0 0 in let b := wc_slice 1 0 100 in
  exists st', dl_sched_new None wa_state [fresh a; fresh b] 2 (fun i => [wa_cand i]) =
    Ok (st', [mk_slsched 0 0 106 106 106 (Some a); mk_slsched 0 0 0 106 0 (Some b)]).
Proof. eexists. vm_compute. reflexivity. Qed.
