(* ===== verification/DlRetx.v ===== *)
(** * Resource blocks of a downlink retransmission

    [allocate_dl_retransmission] of NR_MAC_gNB/gNB_scheduler_dlsch.c.  What
    other parts of the MAC answer (time domain allocation, control channel
    element, feedback resource) is an argument, as for the new data in
    [SliceSched]. *)
From S2P Require Import Prelude SliceUe Tbs SliceSched.

(** what was saved with the first transmission ([retInfo]) *)
Record ret_info := mk_ret {
  ri_rbSize : Z; ri_tb_size : Z; ri_Qm : Z; ri_R : Z; ri_layers : Z;
  ri_start : Z; ri_symbols : Z       (** tda_info: first symbol and number *)
}.

Record retx_in := mk_retx_in {
  rt_ret : ret_info;
  rt_layers : Z;                     (** layers of the current slot *)
  rt_tda : option (Z * Z);           (** the valid time domain allocation of the slot *)
  rt_dmrs : Z;                       (** DMRS for it *)
  rt_bwp_start : Z; rt_bwp_size : Z;
  rt_cce : Z;
  rt_pucch : option Z;               (** [None]: feedback disabled *)
  rt_pdcch : list (Z * Z * Z)        (** start, size and symbols marked for the PDCCH *)
}.

Record retx_alloc := mk_retx { ra_start : Z; ra_size : Z; ra_bits : Z }.

(** the loop of the first case: [rbSize] free blocks in a row *)
Fixpoint find_run (fuel : nat) (mask : list Z) (bits rbStop ret_size rbStart rbSize : Z)
  : res (option Z) :=
  match fuel with
  | O => Err No_fuel
  | S fuel =>
    if negb (rbSize <? ret_size) then Ok (Some rbStart) else
    let rbStart := rbStart + rbSize in
    let* rbStart := find_rb_start (S (Z.to_nat rbStop)) mask bits 0 rbStop rbStart in
    if rbStop <=? rbStart then Ok None else
    let* rbSize := grow_rb_size (S (S (Z.to_nat rbStop))) mask bits 0 rbStop rbStart ret_size 0 in
    find_run fuel mask bits rbStop ret_size rbStart rbSize
  end.

(** the free blocks in a row from [rbStart] *)
Fixpoint free_run (fuel : nat) (mask : list Z) (bits rbStop rbStart rbSize : Z) : res Z :=
  match fuel with
  | O => Err No_fuel
  | S fuel =>
    if negb (rbStart + rbSize <=? rbStop) then Ok rbSize else
    let* m := mask_at mask (rbStart + rbSize) in
    if negb (Z.land m bits =? 0) then Ok rbSize
    else free_run fuel mask bits rbStop rbStart (rbSize + 1)
  end.

(** the first block, when there are enough, and [retInfo], which is overwritten
    when the symbols or the layers change *)
Definition retx_blocks (mask : list Z) (i : retx_in) (start symbols : Z) : res (option (ret_info * Z)) :=
  let r := rt_ret i in
  let layers := if rt_layers i <? ri_layers r then rt_layers i else ri_layers r in
  let rbStart := rt_bwp_start i in
  let rbStop := rt_bwp_start i + rt_bwp_size i - 1 in
  let reuse_old_tda := (ri_start r =? start) && (ri_symbols r <=? symbols) in
  if reuse_old_tda && (layers =? ri_layers r) then
    let slbitmap := SL_to_bitmap (ri_start r) (ri_symbols r) in
    let* o := find_run (S (S (Z.to_nat rbStop))) mask slbitmap rbStop (ri_rbSize r) rbStart 0 in
    Ok (pair r <$> o)
  else
    let slbitmap := SL_to_bitmap start symbols in
    let* rbStart := find_rb_start (S (Z.to_nat rbStop)) mask slbitmap 0 rbStop rbStart in
    let* rbSize := free_run (S (S (Z.to_nat rbStop))) mask slbitmap rbStop rbStart 0 in
    let* '(success, new_tbs, new_rbSize) :=
      nr_find_nb_rb (ri_Qm r) (ri_R r) 1 layers symbols (rt_dmrs i) (ri_tb_size r) 1 rbSize in
    if negb success || negb (new_tbs =? ri_tb_size r) then Ok None
    else Ok (Some (mk_ret new_rbSize new_tbs (ri_Qm r) (ri_R r) layers start symbols, rbStart)).

(** [for (int rb = rbStart; rb < rbSize; rb++) rballoc_mask[rb] |= bits;] *)
Definition mark_retx (mask : list Z) (rbStart rbSize bits : Z) : res (list Z) :=
  if rbStart <? rbSize then mark_range mask rbStart (rbSize - rbStart) bits else Ok mask.

(** the blocks and the symbols given to [retInfo] from block [rbStart] *)
Definition alloc_of (r : ret_info) (rbStart : Z) : retx_alloc :=
  mk_retx rbStart (ri_rbSize r) (SL_to_bitmap (ri_start r) (ri_symbols r)).

(** [retInfo], which stays overwritten when no control channel element or
    feedback resource is found, and the new map and [n_rb_sched] of the beam
    and the blocks *)
Definition allocate_dl_retransmission (mask : list Z) (n_rb_sched : Z) (i : retx_in)
  : res (ret_info * option (list Z * Z * retx_alloc)) :=
  let retInfo := rt_ret i in
  match rt_tda i with
  | None => Ok (retInfo, None)
  | Some (start, symbols) =>
    let* o := retx_blocks mask i start symbols in
    match o with
    | None => Ok (retInfo, None)
    | Some (retInfo, rbStart) =>
      if rt_cce i <? 0 then Ok (retInfo, None)
      else if match rt_pucch i with Some alloc => alloc <? 0 | None => false end
      then Ok (retInfo, None)
      else
        let a := alloc_of retInfo rbStart in
        let* mask := fold_res (fun m '(start, size, bits) => mark_range m start size bits) (rt_pdcch i) mask in
        let* mask := mark_retx mask (ra_start a) (ra_size a) (ra_bits a) in
        Ok (retInfo, Some (mask, n_rb_sched - ra_size a, a))
    end
  end.
