(* ===== verification/DlRetxSpec.v ===== *)
(** * What the allocation of a retransmission finds and what it forgets

    It finds the first free blocks in a row that repeat the transmission, or as
    many blocks as give the same size with another time domain allocation.  It
    then marks the wrong range: the blocks stay free for the new data of the
    same slot. *)
From S2P Require Import Prelude Slices SlicesInv SliceUe SliceUeSpec Tbs TbsSpec SliceSched.
From S2P Require Import SliceBudget SliceAlloc DlRetx.

(** ** The searches *)

Lemma find_rb_start_skips mask bits bwp stop fuel : forall rb r,
  0 <= rb + bwp -> bwp + stop < Z.of_nat (length mask) ->
  find_rb_start fuel mask bits bwp stop rb = Ok r ->
  forall k, rb <= k < r -> ~ free mask bits (k + bwp).
Proof.
  induction fuel as [|fuel IH]; intros rb r H0 Hl; cbn [find_rb_start]; [done|].
  destruct (Z.ltb_spec rb stop); cbn [negb]; [|intros [= <-]; lia].
  rewrite mask_at_ok by lia. cbn [res_bind].
  destruct (Z.eqb_spec (Z.land (block mask (rb + bwp)) bits) 0) as [E|E]; [intros [= <-]; lia|].
  intros Hr k Hk. destruct (decide (k = rb)) as [->|]; [done|]. eapply IH; [| |exact Hr|]; lia.
Qed.

Lemma grow_rb_size_stops mask bits bwp stop rb limit fuel : forall size r,
  0 <= rb + size + bwp -> bwp + stop < Z.of_nat (length mask) ->
  grow_rb_size fuel mask bits bwp stop rb limit size = Ok r ->
  size <= r /\ (stop < rb + r \/ limit <= r \/ ~ free mask bits (rb + r + bwp)).
Proof.
  induction fuel as [|fuel IH]; intros size r H0 Hl; cbn [grow_rb_size]; [done|].
  destruct (Z.leb_spec (rb + size) stop); cbn [negb]; [|intros [= <-]; lia].
  rewrite mask_at_ok by lia. cbn [res_bind].
  destruct (Z.eqb_spec (Z.land (block mask (rb + size + bwp)) bits) 0) as [E|E]; cbn [negb orb];
    [|intros [= <-]; split; [lia|]; by right; right].
  destruct (Z.ltb_spec size limit); cbn [negb]; [|intros [= <-]; lia].
  intros Hr. destruct (IH (size + 1) r ltac:(lia) Hl Hr). split; [lia|done].
Qed.

Lemma free_run_ok mask bits stop rb fuel : forall size,
  0 <= rb -> 0 <= size -> stop < Z.of_nat (length mask) ->
  Z.max 0 (stop + 1 - rb - size) < Z.of_nat fuel -> rb + size <= Z.max (rb + size) (stop + 1) ->
  exists r, free_run fuel mask bits stop rb size = Ok r /\ size <= r /\
    (size < r -> rb + r <= stop + 1) /\ forall k, size <= k < r -> free mask bits (rb + k).
Proof.
  induction fuel as [|fuel IH]; intros size H0 Hs Hl Hf Hx; cbn [free_run]; [lia|].
  destruct (Z.leb_spec (rb + size) stop); cbn [negb]; [|exists size; split_and!; done || lia].
  rewrite mask_at_ok by lia. cbn [res_bind].
  destruct (Z.eqb_spec (Z.land (block mask (rb + size)) bits) 0) as [E|E]; cbn [negb];
    [|exists size; split_and!; done || lia].
  destruct (IH (size + 1) H0 ltac:(lia) Hl ltac:(lia) ltac:(lia)) as (r & -> & R1 & R2 & R3).
  exists r. split; [done|]. split; [lia|]. split.
  - intros _. destruct (decide (size + 1 < r)); [by apply R2|]. lia.
  - intros k Hk. destruct (decide (k = size)) as [->|]; [done|]. apply R3. lia.
Qed.

(** [size] free blocks in a row from [start] *)
Definition window (mask : list Z) (bits start size : Z) : Prop :=
  forall k, start <= k < start + size -> free mask bits k.

(** The first window of [ret] blocks that begins before the last block. *)
Lemma find_run_ok mask bits stop ret base fuel : forall rb size,
  0 <= base <= rb -> 0 <= size -> 0 < ret -> stop < Z.of_nat (length mask) -> rb + size <= stop + 1 ->
  stop + 1 - rb - size < Z.of_nat fuel -> size <= ret ->
  window mask bits rb size ->
  (0 < size < ret -> stop < rb + size \/ ~ free mask bits (rb + size)) -> (0 < size -> rb < stop) ->
  (forall s, base <= s < rb -> s + ret <= stop + 1 -> ~ window mask bits s ret) ->
  exists o, find_run fuel mask bits stop ret rb size = Ok o /\
    match o with
    | Some s => base <= s < stop /\ s + ret <= stop + 1 /\ window mask bits s ret /\
        forall s', base <= s' < s -> ~ window mask bits s' ret
    | None => forall s, base <= s < stop -> s + ret <= stop + 1 -> ~ window mask bits s ret
    end.
Proof.
  induction fuel as [|fuel IH]; intros rb size Hb Hs Hr Hl Hle Hf Hsr Hw Hstop Hlt Hno; cbn [find_run]; [lia|].
  destruct (Z.ltb_spec size ret) as [Hsz|Hsz]; cbn [negb].
  - assert (Hno' : forall s, base <= s < rb + size -> s + ret <= stop + 1 -> ~ window mask bits s ret).
    { intros s Hs1 Hs2 Hws. destruct (decide (s < rb)) as [|Hge]; [by apply (Hno s); [lia|..]|].
      destruct (Hstop ltac:(lia)) as [|Hnf]; [lia|]. apply Hnf, Hws. lia. }
    destruct (find_rb_start_ok mask bits 0 stop (S (Z.to_nat stop)) (rb + size)) as (r & Hfr & R1 & R2);
      [lia..|]. rewrite Hfr. cbn [res_bind].
    pose proof (find_rb_start_skips mask bits 0 stop _ (rb + size) r ltac:(lia) ltac:(lia) Hfr) as Hsk.
    assert (Hno2 : forall s, base <= s < r -> s + ret <= stop + 1 -> ~ window mask bits s ret).
    { intros s Hs1 Hs2 Hws. destruct (decide (s < rb + size)) as [|Hge]; [by apply (Hno' s); [lia|..]|].
      apply (Hsk s); [lia|]. rewrite Z.add_0_r. apply Hws. lia. }
    destruct (Z.leb_spec stop r) as [Hrs|Hrs].
    { exists None. split; [done|]. intros s Hs1 Hs2. apply Hno2; [lia|done]. }
    destruct (grow_rb_size_ok mask bits 0 stop r ret (S (S (Z.to_nat stop))) 0) as (g & Hg & G1 & G2 & G3);
      [lia..|]. rewrite Hg. cbn [res_bind].
    destruct (grow_rb_size_stops mask bits 0 stop r ret _ 0 g ltac:(lia) ltac:(lia) Hg) as [_ G4].
    rewrite Z.add_0_r in G4. rewrite Z.add_0_r in R2.
    assert (0 < g).
    { destruct (decide (g = 0)) as [->|]; [|lia]. destruct G4 as [|[|Hnf]]; [lia..|].
      rewrite Z.add_0_r in Hnf. exfalso. apply Hnf, R2. lia. }
    apply IH; try lia.
    + intros k Hk. replace k with (r + (k - r) + 0) by lia. apply G3. lia.
    + intros Hg'. destruct G4 as [|[|]]; [by left|lia|by right].
    + done.
  - exists (Some rb). assert (size = ret) as -> by lia. split; [done|]. split; [lia|]. split; [lia|].
    split; [done|]. intros s' Hs'. apply Hno; lia.
Qed.

(** ** Marking *)

Lemma mark_retx_ok mask start size bits : 0 <= start -> 0 <= size -> start + size <= Z.of_nat (length mask) ->
  exists mask', mark_retx mask start size bits = Ok mask' /\ mask_le mask mask'.
Proof.
  intros H1 H2 H3. unfold mark_retx. destruct (Z.ltb_spec start size); [|by exists mask].
  destruct (mark_range_ok mask start (size - start) bits) as (m & Hm & _); [lia..|].
  exists m. split; [done|]. eapply mark_range_le; [..|exact Hm]; lia.
Qed.

(** the answers of the MAC are within their ranges *)
Record retx_ok (mask : list Z) (i : retx_in) : Prop := mk_retx_ok {
  ro_mask : Z.of_nat (length mask) = MASK_LEN;
  ro_bwp : 0 <= rt_bwp_start i /\ 0 < rt_bwp_size i /\ rt_bwp_start i + rt_bwp_size i <= MASK_LEN;
  ro_size : 0 < ri_rbSize (rt_ret i);
  ro_tbs : 3 < ri_tb_size (rt_ret i);
  ro_pdcch : Forall (fun '(start, size, bits) =>
    0 <= start /\ 0 <= size /\ start + size <= MASK_LEN) (rt_pdcch i)
}.

(** the blocks are free, in the bandwidth part, and carry the same bytes: the
    first ones of the same number, or the number for the other symbols *)
Definition retx_fits (mask : list Z) (i : retx_in) (start symbols : Z) (a : retx_alloc) : Prop :=
  let r := rt_ret i in
  let layers := Z.min (rt_layers i) (ri_layers r) in
  0 < ra_size a /\ rt_bwp_start i <= ra_start a /\
  ra_start a + ra_size a <= rt_bwp_start i + rt_bwp_size i /\
  window mask (ra_bits a) (ra_start a) (ra_size a) /\
  (ra_size a = ri_rbSize r /\ ra_bits a = SL_to_bitmap (ri_start r) (ri_symbols r) /\
   ri_start r = start /\ ri_symbols r <= symbols /\ layers = ri_layers r /\
   (forall s, rt_bwp_start i <= s < ra_start a -> ~ window mask (ra_bits a) s (ra_size a)) \/
   ra_bits a = SL_to_bitmap start symbols /\
   tbs_bytes (ri_Qm r) (ri_R r) (ra_size a) symbols (rt_dmrs i) layers = ri_tb_size r).

(** [retInfo] after the allocation: as saved, or for the symbols of the slot
    with the same transport block size *)
Definition same_block (i : retx_in) (start symbols : Z) (r : ret_info) : Prop :=
  let layers := Z.min (rt_layers i) (ri_layers (rt_ret i)) in
  r = rt_ret i \/
  r = mk_ret (ri_rbSize r) (ri_tb_size (rt_ret i)) (ri_Qm (rt_ret i)) (ri_R (rt_ret i)) layers start symbols /\
  tbs_bytes (ri_Qm r) (ri_R r) (ri_rbSize r) symbols (rt_dmrs i) layers = ri_tb_size r.

Lemma tbs_no_blocks Qm R symb dmrs Nl : tbs_bytes Qm R 0 symb dmrs Nl = 3.
Proof.
  unfold tbs_bytes, nr_compute_tbs. cbn zeta. rewrite Z.mul_0_r. change (u32 0) with 0.
  rewrite !Z.mul_0_l. reflexivity.
Qed.

Lemma find_exact Qm R layers symb dmrs bytes max : 0 <= max < 65536 -> 3 < bytes ->
  exists ok n, nr_find_nb_rb Qm R 1 layers symb dmrs bytes 1 max =
      Ok (ok, tbs_bytes Qm R n symb dmrs layers, n) /\
    (ok = true -> 0 < n <= max).
Proof.
  intros Hm Hb. unfold nr_find_nb_rb. change (1 =? 0) with false.
  destruct (decide (max = 0)) as [->|Hne].
  - exists false, 0. split; [|done]. unfold find_nb_rb. cbn [next_allowed Z.to_nat negb res_bind].
    fold (tbs_bytes Qm R 0 symb dmrs layers). rewrite tbs_no_blocks.
    by rewrite (proj2 (Z.ltb_lt 3 bytes)).
  - destruct (find_ok false (fun nb_rb => tbs_bytes Qm R nb_rb symb dmrs layers) bytes 1 max)
      as (top & n & He & Hn & Ht & _); [lia|lia|done|].
    eexists _, n. split; [exact He|]. lia.
Qed.

Lemma retx_blocks_ok mask i start symbols : retx_ok mask i ->
  exists o, retx_blocks mask i start symbols = Ok o /\
    forall r s, o = Some (r, s) -> retx_fits mask i start symbols (alloc_of r s) /\ same_block i start symbols r.
Proof.
  intros [Hmask (B1 & B2 & B3) Hsz Htbs _]. unfold retx_blocks.
  set (r := rt_ret i) in *. set (stop := rt_bwp_start i + rt_bwp_size i - 1).
  assert (Hl : (if rt_layers i <? ri_layers r then rt_layers i else ri_layers r) =
    Z.min (rt_layers i) (ri_layers r)).
  { destruct (Z.ltb_spec (rt_layers i) (ri_layers r)); lia. }
  rewrite Hl. destruct (_ && _) eqn:E.
  - apply andb_prop in E as [[E1%Z.eqb_eq E2%Z.leb_le]%andb_prop E3%Z.eqb_eq].
    destruct (find_run_ok mask (SL_to_bitmap (ri_start r) (ri_symbols r)) stop (ri_rbSize r) (rt_bwp_start i)
      (S (S (Z.to_nat stop))) (rt_bwp_start i) 0) as (o & -> & Ho); try lia.
    { intros k Hk. lia. }
    cbn [res_bind]. eexists. split; [done|]. intros r' s' Ha. destruct o as [s|]; [|done].
    injection Ha as <- <-. split; [|by left]. destruct Ho as (O1 & O2 & O3 & O4). unfold retx_fits, alloc_of. cbv zeta.
    cbn [ra_start ra_size ra_bits]. fold r. split; [done|]. split; [lia|]. split; [lia|].
    split; [done|]. left. by split_and!.
  - destruct (find_rb_start_ok mask (SL_to_bitmap start symbols) 0 stop (S (Z.to_nat stop)) (rt_bwp_start i))
      as (rb & -> & R1 & _); [lia..|]. cbn [res_bind].
    destruct (free_run_ok mask (SL_to_bitmap start symbols) stop rb (S (S (Z.to_nat stop))) 0)
      as (sz & -> & F1 & F2 & F3); [lia..|]. cbn [res_bind].
    destruct (find_exact (ri_Qm r) (ri_R r) (Z.min (rt_layers i) (ri_layers r)) symbols (rt_dmrs i)
      (ri_tb_size r) sz) as (ok & n & -> & Hn); [unfold MASK_LEN in *; lia|done|]. cbn [res_bind].
    destruct ok; cbn [negb orb]; [|by eexists]. specialize (Hn eq_refl).
    destruct (Z.eqb_spec (tbs_bytes (ri_Qm r) (ri_R r) n symbols (rt_dmrs i)
      (Z.min (rt_layers i) (ri_layers r))) (ri_tb_size r)) as [Ht|Ht]; cbn [negb]; [|by eexists].
    eexists. split; [done|]. intros r' s [= <- <-]. split; [|right; cbn; by rewrite Ht].
    unfold retx_fits, alloc_of. cbv zeta.
    cbn [ra_start ra_size ra_bits ri_rbSize ri_start ri_symbols]. fold r.
    split; [lia|]. split; [lia|]. split; [lia|]. split.
    + intros k Hk. replace k with (rb + (k - rb)) by lia. apply F3. lia.
    + right. done.
Qed.

(** C21: whatever the other parts of the MAC answer, the allocation of a
    retransmission returns; the blocks it gives are in the bandwidth part and
    free for its symbols, and they repeat the transmission: the first blocks
    in a row of the saved number when the saved symbols fit, else as many as
    give exactly the saved transport block size.  Also when it fails, what is
    saved of the transmission keeps describing a block of the same size. *)
Theorem dl_retx_finds_free mask n_rb i : retx_ok mask i ->
  exists r o, allocate_dl_retransmission mask n_rb i = Ok (r, o) /\
    (forall start symbols, rt_tda i = Some (start, symbols) -> same_block i start symbols r) /\
    forall mask' n a, o = Some (mask', n, a) ->
      n = n_rb - ra_size a /\ mask_le mask mask' /\
      exists start symbols, rt_tda i = Some (start, symbols) /\ retx_fits mask i start symbols a.
Proof.
  intros H. unfold allocate_dl_retransmission.
  destruct (rt_tda i) as [[start symbols]|]; [|by eexists _, _].
  destruct (retx_blocks_ok mask i start symbols H) as (o & -> & Ho). cbn [res_bind].
  destruct o as [[r s]|]; [|eexists _, _; split; [done|]; split; [|done]; intros; by left].
  specialize (Ho r s eq_refl) as [Ho Hr].
  assert (Hr' : forall start' symbols', Some (start, symbols) = Some (start', symbols') ->
    same_block i start' symbols' r) by (by intros ? ? [= <- <-]).
  destruct (rt_cce i <? 0); [by eexists _, _|]. destruct (match rt_pucch i with Some _ => _ | None => _ end);
    [by eexists _, _|].
  destruct (mark_pdcch_ok (rt_pdcch i) mask) as (m1 & -> & Hle1); [by rewrite (ro_mask _ _ H); apply H|].
  cbn [res_bind]. destruct Hle1 as [Hlen Hle1]. pose proof H as [Hm (B1 & B2 & B3) _ _ _].
  pose proof Ho as (S1 & S2 & S3 & _). cbv zeta. set (a := alloc_of r s) in *.
  destruct (mark_retx_ok m1 (ra_start a) (ra_size a) (ra_bits a)) as (m2 & -> & Hle2); [lia..|].
  cbn [res_bind]. eexists _, _. split; [done|]. split; [done|]. intros mask' n a' [= <- <- <-]. split; [done|].
  split; [by transitivity m1|]. eauto.
Qed.

(** a map whose first 20 blocks are used, and a transmission of 10 blocks to repeat *)
Definition we_mask : list Z := replicate 20 16383 ++ replicate 255 0.
Definition we_retx : retx_in :=
  mk_retx_in (mk_ret 10 1000 6 7190 2 1 13) 2 (Some (1, 13)) 6 0 106 0 (Some 0) [].

Lemma dl_retx_finds_free_witness : exists r o, allocate_dl_retransmission we_mask 106 we_retx = Ok (r, o) /\
  (forall start symbols, rt_tda we_retx = Some (start, symbols) -> same_block we_retx start symbols r) /\
  forall mask' n a, o = Some (mask', n, a) ->
    n = 106 - ra_size a /\ mask_le we_mask mask' /\
    exists start symbols, rt_tda we_retx = Some (start, symbols) /\ retx_fits we_mask we_retx start symbols a.
Proof.
  apply (dl_retx_finds_free we_mask 106 we_retx). split; cbn; unfold MASK_LEN; try lia. constructor.
Defined.

(** C33: the loop that reserves the blocks of a retransmission runs up to their
    number and not to their end: nothing is reserved when they start at or
    behind that number, and the new data of the same slot is given the same
    blocks for the same symbols. *)
Theorem dl_retx_blocks_given_twice :
  (forall mask n i r mask' n' a, rt_pdcch i = [] -> ra_size a <= ra_start a ->
    allocate_dl_retransmission mask n i = Ok (r, Some (mask', n', a)) -> mask' = mask) /\
  exists r mask' a st' l' b,
    allocate_dl_retransmission we_mask 106 we_retx = Ok (r, Some (mask', 96, a)) /\
    dl_sched_new None (mk_dl [96] [3] [mask'] []) [fresh (wc_slice 0 0 100)] 1 (fun _ => [wa_cand 1]) =
      Ok (st', l') /\
    b ∈ allocs st' /\ al_bits b = ra_bits a /\ ra_start a = al_start b /\ ra_size a <= al_size b.
Proof.
  split.
  - intros mask n i r mask' n' a Hp Hs. unfold allocate_dl_retransmission.
    destruct (rt_tda i) as [[? ?]|]; [|done]. rewrite Hp. cbn [fold_res].
    destruct (retx_blocks _ _ _ _) as [[[r' s]|]|]; cbn [res_bind]; try done.
    do 2 (case_match; [done|]). unfold mark_retx. cbv zeta. set (a' := alloc_of r' s) in *.
    destruct (Z.ltb_spec (ra_start a') (ra_size a')) as [Hlt|Hge]; cbn [res_bind]; [|by intros [= _ -> _ _]].
    destruct (mark_range _ _ _ _); cbn [res_bind]; [|done]. intros [= _ _ _ <-]. lia.
  - eexists _, _, _, _, _, _. split; [vm_compute; reflexivity|]. split; [vm_compute; reflexivity|].
    split; [left|]. by vm_compute.
Qed.
