(* ===== verification/E2Agent.v ===== *)
(** * The E2 agent: messages of the controller, reads and writes of the RAN

    openair2/E2_AGENT/e2_message_handlers.c.  [float] and [double] are the
    IEEE formats of [SpecFloat]; an allocation succeeds; the clock is an
    argument, read once per call; the protobuf decoder is an argument. *)
From S2P Require Import Prelude Slices SliceUe.
From stdpp Require Import strings pretty.
From Stdlib Require Import SpecFloat.
Local Open Scope Z_scope.

(** ** Floating point *)

Definition f32_of_Z (z : Z) : spec_float := binary_normalize 24 128 z 0 false.
Definition f64_of_Z (z : Z) : spec_float := binary_normalize 53 1024 z 0 false.
Definition f64_add := SFadd 53 1024.
Definition f64_mul := SFmul 53 1024.
Definition f64_div := SFdiv 53 1024.
Definition f32_of_f64 (x : spec_float) : spec_float :=
  match x with
  | S754_finite s m e => binary_normalize 24 128 (if s then Zneg m else Zpos m) e s
  | _ => x
  end.
Definition f_zero : spec_float := S754_zero false.

(** [(uint32_t)value]: undefined for a NaN and outside the range *)
Definition u32_of_float (x : spec_float) : res Z :=
  match x with
  | S754_zero _ => Ok 0
  | S754_finite s m e =>
      let t := if 0 <=? e then Zpos m * 2 ^ e else Zpos m / 2 ^ (- e) in
      let t := if s then - t else t in
      if (0 <=? t) && (t <? 4294967296) then Ok t else Err Undefined
  | _ => Err Undefined
  end.

(** ** Messages *)

Inductive RANParameter :=
  | GNB_ID | SOMETHING | UE_LIST | SCHED_INFO_ | SCHED_CONTROL | MAX_PRB | USE_TRUE_GBR
  | SLICING_CONTROL | unknown_parameter (n : Z).

Record UeInfoM := mk_ue_info {
  ui_rnti : Z;
  ui_tbs_avg_dl : option spec_float; ui_tbs_avg_ul : option spec_float;
  ui_tbs_dl_toapply : option spec_float; ui_tbs_ul_toapply : option spec_float;
  ui_is_gbr : option bool;
  ui_dl_mac_buffer_occupation : option spec_float;
  ui_avg_prbs_dl : option spec_float; ui_avg_prbs_ul : option spec_float;
  ui_mcs : option Z;
  ui_avg_tbs_per_prb_dl : option spec_float; ui_avg_tbs_per_prb_ul : option spec_float;
  ui_avg_rsrp : option spec_float; ui_ph : option spec_float; ui_pcmax : option spec_float;
  ui_dl_total_bytes : option spec_float; ui_dl_errors : option spec_float;
  ui_dl_bler : option spec_float; ui_dl_mcs : option spec_float;
  ui_ul_total_bytes : option spec_float; ui_ul_errors : option spec_float;
  ui_ul_bler : option spec_float; ui_ul_mcs : option spec_float;
  ui_nssai_sst : option Z; ui_nssai_sd : option Z
}.

Record UeListM := mk_ue_list { connected_ues : Z; ue_info : list UeInfoM }.
Record SchedControlM := mk_sched_control { max_cell_allocable_prbs : option Z }.
Record SlicingControlM := mk_slicing { sc_sst : Z; sc_sd : option Z; sc_min_ratio : Z; sc_max_ratio : Z }.

Inductive ran_value :=
  | NOT_SET
  | INT64_VALUE (v : Z)
  | STRING_VALUE (s : string)
  | BOOL_VALUE (b : bool)
  | UE_LIST_VALUE (l : UeListM)
  | SCHE_CTRL_VALUE (c : SchedControlM)
  | SLICING_CTRL_VALUE (c : SlicingControlM).

Record RANParamMapEntry := mk_entry { key : RANParameter; value : ran_value }.

(** a message with the payload its type uses, if it has one *)
Inductive RANMessage :=
  | SUBSCRIPTION
  | INDICATION_REQUEST (target_params : option (list RANParameter))
  | INDICATION_RESPONSE
  | CONTROL (target_param_map : option (list RANParamMapEntry))
  | unknown_message (n : Z).

(** ** State *)

Record timespec := mk_time { tv_sec : Z; tv_nsec : Z }.

Record NR_mac_dir_stats_t := mk_dir {
  errors : Z; total_bytes : Z;            (** uint64_t *)
  total_rbs : Z; total_rbs_retx : Z       (** uint32_t *)
}.

(** the fields of [NR_UE_info_t] the agent uses *)
Record NR_UE_info_t := mk_ue {
  rnti : Z;
  UE_sched_ctrl : NR_UE_sched_ctrl_t;
  pdsch_mcs : Z; ph : Z; pcmax : Z;
  dl_bler : spec_float; dl_bler_mcs : Z; ul_bler : spec_float; ul_bler_mcs : Z;
  stats_dl : NR_mac_dir_stats_t; stats_ul : NR_mac_dir_stats_t;
  cumul_rsrp : Z; num_rsrp_meas : Z;
  is_GBR : bool; guaranteed_tbs_bytes_dl : Z; guaranteed_tbs_bytes_ul : Z;
  avg_tbs_1s_dl : spec_float; avg_tbs_1s_ul : spec_float;
  avg_prbs_dl : spec_float; avg_prbs_ul : spec_float;
  avg_tbs_per_prb_dl : spec_float; avg_tbs_per_prb_ul : spec_float
}.
#[export] Instance eta_ue : Eta NR_UE_info_t := fun r =>
  mk_ue (rnti r) (UE_sched_ctrl r) (pdsch_mcs r) (ph r) (pcmax r) (dl_bler r) (dl_bler_mcs r)
    (ul_bler r) (ul_bler_mcs r) (stats_dl r) (stats_ul r) (cumul_rsrp r) (num_rsrp_meas r)
    (is_GBR r) (guaranteed_tbs_bytes_dl r) (guaranteed_tbs_bytes_ul r)
    (avg_tbs_1s_dl r) (avg_tbs_1s_ul r) (avg_prbs_dl r) (avg_prbs_ul r)
    (avg_tbs_per_prb_dl r) (avg_tbs_per_prb_ul r).

(** an instance of the MAC: its slices and its connected UEs *)
Record ran_mac := mk_ran_mac {
  mac_inst : gNB_MAC_INST; Mod_id : Z; gnb_id : Z; numb_slots_frame : Z;
  connected_ue_list : list NR_UE_info_t
}.
#[export] Instance eta_ran_mac : Eta ran_mac := fun r =>
  mk_ran_mac (mac_inst r) (Mod_id r) (gnb_id r) (numb_slots_frame r) (connected_ue_list r).

Record e2_agent_databank_t := mk_db { max_prb : Z; true_gbr : Z }.
#[export] Instance eta_db : Eta e2_agent_databank_t := fun r => mk_db (max_prb r) (true_gbr r).

Definition MAX_MOBILES_PER_GNB : nat := 16.

Record ue_prb_history_t := mk_history {
  h_rnti : Z; last_dl_rbs : Z; last_ul_rbs : Z; last_ts : timespec; h_initialized : bool
}.
Record ue_snapshot_t := mk_snapshot {
  s_mod_id : Z; s_rnti : Z; s_dl_bytes : Z; s_ul_bytes : Z; s_dl_rbs : Z; s_ul_rbs : Z;
  s_initialized : bool
}.

(** [RC.nrmac], the databank (absent before [e2_agent_init]) and the static
    tables of the handlers; [tick] counts the reads of the clock *)
Record e2_state := mk_e2 {
  nrmac : list (option ran_mac);
  e2_agent_db : option e2_agent_databank_t;
  prb_history : list ue_prb_history_t;
  entries : list ue_snapshot_t;
  tick : nat
}.
#[export] Instance eta_e2 : Eta e2_state := fun r =>
  mk_e2 (nrmac r) (e2_agent_db r) (prb_history r) (entries r) (tick r).

(** [e2_agent_init]: the databank has no cap and no GBR mode *)
Definition e2_agent_init (st : e2_state) : e2_state := st <| e2_agent_db := Some (mk_db (-1) 0) |>.

(** ** Averages of a UE *)

(** the first entry that satisfies [p], or else the first free one *)
Fixpoint find_index {A} (p : A -> bool) (l : list A) : option nat :=
  match l with
  | [] => None
  | x :: l => if p x then Some 0%nat else S <$> find_index p l
  end.

(** the index of the entry and whether it is new *)
Definition lookup_or_free {A} (p free : A -> bool) (l : list A) : option (nat * bool) :=
  match find_index p l with
  | Some i => Some (i, false)
  | None => (fun i => (i, true)) <$> find_index free l
  end.

Definition lookup_prb_history (rnti_ : Z) (l : list ue_prb_history_t)
  : option nat * list ue_prb_history_t :=
  match lookup_or_free (fun h => h_initialized h && (h_rnti h =? rnti_))
          (fun h => negb (h_initialized h)) l with
  | Some (i, true) => (Some i, <[i := mk_history rnti_ 0 0 (mk_time 0 0) true]> l)
  | Some (i, false) => (Some i, l)
  | None => (None, l)
  end.

Definition seconds_between (now last : timespec) : spec_float :=
  f64_add (f64_of_Z (tv_sec now - tv_sec last))
    (f64_div (f64_of_Z (tv_nsec now - tv_nsec last)) (f64_of_Z 1000000000)).

(** [if (total >= last) avg = (float)((total - last) / slots)] *)
Definition average_prbs (total last : Z) (slots avg : spec_float) : spec_float :=
  if last <=? total then f32_of_f64 (f64_div (f64_of_Z (total - last)) slots) else avg.

Definition all_rbs (s : NR_mac_dir_stats_t) : Z := u64 (total_rbs s + total_rbs_retx s).

Section Clock.
Variable clock : nat -> timespec.

Definition update_avg_prbs (slots_frame : Z) (st : e2_state) (UE : NR_UE_info_t) : e2_state * NR_UE_info_t :=
  let '(slot, history) := lookup_prb_history (rnti UE) (prb_history st) in
  let st := st <| prb_history := history |> in
  match (slot ≫= fun i => pair i <$> history !! i) with
  | None => (st, UE)
  | Some (i, hist) =>
      let now := clock (tick st) in
      let dl_total := all_rbs (stats_dl UE) in
      let ul_total := all_rbs (stats_ul UE) in
      let UE :=
        if tv_sec (last_ts hist) =? 0 then UE else
        let elapsed_s := seconds_between now (last_ts hist) in
        let slots_elapsed := f64_mul elapsed_s (f64_mul (f64_of_Z slots_frame) (f64_of_Z 100)) in
        if SFltb f_zero elapsed_s && SFltb f_zero slots_elapsed then
          UE <| avg_prbs_dl := average_prbs dl_total (last_dl_rbs hist) slots_elapsed (avg_prbs_dl UE) |>
             <| avg_prbs_ul := average_prbs ul_total (last_ul_rbs hist) slots_elapsed (avg_prbs_ul UE) |>
        else UE in
      (st <| prb_history := <[i := mk_history (h_rnti hist) dl_total ul_total now true]> history |>
          <| tick := S (tick st) |>, UE)
  end.

(** the time stamps of the snapshots are written and never used *)
Definition get_snapshot (mod_id rnti_ : Z) (st : e2_state) : option (nat * ue_snapshot_t) * e2_state :=
  match lookup_or_free (fun s => s_initialized s && (s_mod_id s =? mod_id) && (s_rnti s =? rnti_))
          (fun s => negb (s_initialized s)) (entries st) with
  | Some (i, false) => (pair i <$> entries st !! i, st)
  | Some (i, true) =>
      match entries st !! i with
      | Some s =>
          let s := mk_snapshot mod_id rnti_ (s_dl_bytes s) (s_ul_bytes s) (s_dl_rbs s) (s_ul_rbs s) true in
          (Some (i, s), st <| entries := <[i := s]> (entries st) |> <| tick := S (tick st) |>)
      | None => (None, st)
      end
  | None => (None, st)
  end.

(** bytes per block since the last snapshot *)
Definition bytes_per_rb (bytes_ last_bytes rbs last_rbs : Z) : spec_float :=
  let delta_rbs := u32 (rbs - last_rbs) in
  if 0 <? delta_rbs then f32_of_f64 (f64_div (f64_of_Z (u64 (bytes_ - last_bytes))) (f64_of_Z delta_rbs))
  else f_zero.

Definition update_avg_tbs_per_prb (mod_id : Z) (st : e2_state) (UE : NR_UE_info_t)
  : e2_state * (spec_float * spec_float) :=
  let '(found, st) := get_snapshot mod_id (rnti UE) st in
  match found with
  | None => (st, (f_zero, f_zero))
  | Some (i, s) =>
      let dl := stats_dl UE in
      let ul := stats_ul UE in
      let reset := (total_rbs dl <? s_dl_rbs s) || (total_rbs ul <? s_ul_rbs s) in
      let s' := mk_snapshot (s_mod_id s) (s_rnti s) (total_bytes dl) (total_bytes ul)
                  (total_rbs dl) (total_rbs ul) true in
      (st <| entries := <[i := s']> (entries st) |> <| tick := S (tick st) |>,
       if reset then (f_zero, f_zero)
       else (bytes_per_rb (total_bytes dl) (s_dl_bytes s) (total_rbs dl) (s_dl_rbs s),
             bytes_per_rb (total_bytes ul) (s_ul_bytes s) (total_rbs ul) (s_ul_rbs s)))
  end.

(** ** Reading *)

Definition lookup_slice_by_sid (info : NR_Slices_t) (id : Z) : option nat :=
  if negb (initialized info) then None else
  find_slot (fun s => sid s =? id) (slots info) (scount info).

(** the slice of the first listed entry that is not the default slice *)
Fixpoint first_positive_sid (l : list nr_macrlc_slice_info_t) : Z :=
  match l with
  | [] => 0
  | e :: l => if 0 <? ms_sid e then ms_sid e else first_positive_sid l
  end.

(** the S-NSSAI reported for a UE *)
Definition fill_slice_identity (info : NR_Slices_t) (ctrl : NR_UE_sched_ctrl_t) : res (option nssai_t) :=
  let id := first_positive_sid (drop 1 (take (num_slice_d ctrl) (avail_slice_list ctrl))) in
  match lookup_slice_by_sid info id with
  | Some i => let* s := get_slot info i in Ok (Some (nssai s))
  | None =>
      if Nat.ltb 0 (scount info)
      then match slots info !! 0%nat with Some (Some s) => Ok (Some (nssai s)) | _ => Ok None end
      else Ok None
  end.

Definition build_ue_entry (mac : ran_mac) (st : e2_state) (UE : NR_UE_info_t)
  : res (e2_state * NR_UE_info_t * UeInfoM) :=
  let '(st, UE) := update_avg_prbs (numb_slots_frame mac) st UE in
  let '(st, (avg_dl, avg_ul)) := update_avg_tbs_per_prb (Mod_id mac) st UE in
  let ctrl := UE_sched_ctrl UE in
  let* n := fill_slice_identity (SL_info (mac_inst mac)) ctrl in
  Ok (st, UE, mk_ue_info (rnti UE)
    (Some (avg_tbs_1s_dl UE)) (Some (avg_tbs_1s_ul UE))
    (Some (f32_of_Z (guaranteed_tbs_bytes_dl UE))) (Some (f32_of_Z (guaranteed_tbs_bytes_ul UE)))
    (Some (is_GBR UE))
    (Some (f32_of_Z (num_total_bytes ctrl)))
    (Some (avg_prbs_dl UE)) (Some (avg_prbs_ul UE))
    (Some (pdsch_mcs UE))
    (Some avg_dl) (Some avg_ul)
    (Some (if 0 <? num_rsrp_meas UE
           then SFdiv 24 128 (f32_of_Z (cumul_rsrp UE)) (f32_of_Z (num_rsrp_meas UE)) else f_zero))
    (Some (f32_of_Z (ph UE))) (Some (f32_of_Z (pcmax UE)))
    (Some (f32_of_Z (total_bytes (stats_dl UE)))) (Some (f32_of_Z (errors (stats_dl UE))))
    (Some (dl_bler UE)) (Some (f32_of_Z (dl_bler_mcs UE)))
    (Some (f32_of_Z (total_bytes (stats_ul UE)))) (Some (f32_of_Z (errors (stats_ul UE))))
    (Some (ul_bler UE)) (Some (f32_of_Z (ul_bler_mcs UE)))
    (sst <$> n) ((fun n => i32 (sd n)) <$> n)).

(** the UEs of an instance, each with its entry *)
Fixpoint build_ue_entries (mac : ran_mac) (st : e2_state) (ues : list NR_UE_info_t)
  : res (e2_state * list NR_UE_info_t * list UeInfoM) :=
  match ues with
  | [] => Ok (st, [], [])
  | UE :: ues =>
      let* '(st, UE, e) := build_ue_entry mac st UE in
      let* '(st, ues, es) := build_ue_entries mac st ues in
      Ok (st, UE :: ues, e :: es)
  end.

(** the instances from number [mod_] on *)
Fixpoint collect_ues (st : e2_state) (mod_ n : nat) : res (e2_state * list UeInfoM) :=
  match n with
  | O => Ok (st, [])
  | S n =>
      match nrmac st !! mod_ with
      | Some (Some mac) =>
          let* '(st, ues, es) := build_ue_entries mac st (connected_ue_list mac) in
          let st := st <| nrmac := <[mod_ := Some (mac <| connected_ue_list := ues |>)]> (nrmac st) |> in
          let* '(st, rest) := collect_ues st (S mod_) n in
          Ok (st, es ++ rest)
      | _ => collect_ues st (S mod_) n
      end
  end.

Definition get_ue_list (st : e2_state) : res (e2_state * UeListM) :=
  let* '(st, es) := collect_ues st 0 (length (nrmac st)) in
  Ok (st, mk_ue_list (i32 (Z.of_nat (length es))) es).

Definition int_to_charray (v : Z) : string := pretty v.

(** the first instance that exists *)
Definition first_mac (st : e2_state) : option ran_mac := head (omap id (nrmac st)).

Definition read_slicing (st : e2_state) : res SlicingControlM :=
  match first_mac st with
  | None => Ok (mk_slicing 0 None 0 0)
  | Some mac =>
      let info := SL_info (mac_inst mac) in
      match (if Nat.ltb 0 (scount info) then slots info !! 0%nat else Some None) with
      | None => Err Out_of_bounds
      | Some None => Ok (mk_slicing 0 None 0 0)
      | Some (Some s) =>
          Ok (mk_slicing (sst (nssai s)) (Some (i32 (sd (nssai s))))
                (min_ratio (spolicy s)) (max_ratio (spolicy s)))
      end
  end.

Definition ran_read (st : e2_state) (parameter : RANParameter) : res (e2_state * ran_value) :=
  match parameter with
  | GNB_ID =>
      Ok (st, STRING_VALUE (int_to_charray
        (match first_mac st with Some mac => i32 (gnb_id mac) | None => 0 end)))
  | SOMETHING => Ok (st, STRING_VALUE (int_to_charray 0))
  | UE_LIST => let* '(st, l) := get_ue_list st in Ok (st, UE_LIST_VALUE l)
  | SCHED_INFO_ | SCHED_CONTROL =>
      Ok (st, SCHE_CTRL_VALUE (mk_sched_control
        (match e2_agent_db st with
         | Some db => if 0 <=? max_prb db then Some (max_prb db) else None
         | None => None
         end)))
  | MAX_PRB =>
      Ok (st, INT64_VALUE (match e2_agent_db st with Some db => max_prb db | None => -1 end))
  | USE_TRUE_GBR =>
      Ok (st, BOOL_VALUE (match e2_agent_db st with Some db => negb (true_gbr db =? 0) | None => false end))
  | SLICING_CONTROL => let* c := read_slicing st in Ok (st, SLICING_CTRL_VALUE c)
  | unknown_parameter _ => Ok (st, NOT_SET)
  end.

(** ** Writing *)

Definition apply_true_gbr (st : e2_state) (v : Z) : e2_state :=
  st <| e2_agent_db := (fun db => db <| true_gbr := v |>) <$> e2_agent_db st |>.
Definition apply_max_cell_prb (st : e2_state) (v : Z) : e2_state :=
  st <| e2_agent_db := (fun db => db <| max_prb := v |>) <$> e2_agent_db st |>.

(** the guaranteed bytes: negative values count as 0 *)
Definition toapply (v : option spec_float) (old : Z) : res Z :=
  match v with
  | None => Ok old
  | Some v => u32_of_float (if SFltb v f_zero then f_zero else v)
  end.

Definition apply_to_ue (UE : NR_UE_info_t) (info : UeInfoM) : res NR_UE_info_t :=
  let UE := UE <| is_GBR := default (is_GBR UE) (ui_is_gbr info) |> in
  let* dl := toapply (ui_tbs_dl_toapply info) (guaranteed_tbs_bytes_dl UE) in
  let* ul := toapply (ui_tbs_ul_toapply info) (guaranteed_tbs_bytes_ul UE) in
  Ok (UE <| guaranteed_tbs_bytes_dl := dl |> <| guaranteed_tbs_bytes_ul := ul |>
    <| avg_tbs_1s_dl := default (avg_tbs_1s_dl UE) (ui_tbs_avg_dl info) |>
    <| avg_tbs_1s_ul := default (avg_tbs_1s_ul UE) (ui_tbs_avg_ul info) |>
    <| avg_prbs_dl := default (avg_prbs_dl UE) (ui_avg_prbs_dl info) |>
    <| avg_prbs_ul := default (avg_prbs_ul UE) (ui_avg_prbs_ul info) |>
    <| avg_tbs_per_prb_dl := default (avg_tbs_per_prb_dl UE) (ui_avg_tbs_per_prb_dl info) |>
    <| avg_tbs_per_prb_ul := default (avg_tbs_per_prb_ul UE) (ui_avg_tbs_per_prb_ul info) |>).

(** the first UE with the RNTI; [None]: no such UE *)
Fixpoint apply_single_ue_info (ues : list NR_UE_info_t) (info : UeInfoM) : res (option (list NR_UE_info_t)) :=
  match ues with
  | [] => Ok None
  | UE :: ues =>
      if rnti UE =? u16 (ui_rnti info) then
        let* UE := apply_to_ue UE info in Ok (Some (UE :: ues))
      else
        let* r := apply_single_ue_info ues info in
        Ok ((fun ues => UE :: ues) <$> r)
  end.

(** the first instance that knows the UE *)
Fixpoint apply_info_to_macs (macs : list (option ran_mac)) (info : UeInfoM) : res (list (option ran_mac)) :=
  match macs with
  | [] => Ok []
  | None :: macs => let* macs := apply_info_to_macs macs info in Ok (None :: macs)
  | Some mac :: macs =>
      let* r := apply_single_ue_info (connected_ue_list mac) info in
      match r with
      | Some ues => Ok (Some (mac <| connected_ue_list := ues |>) :: macs)
      | None => let* macs := apply_info_to_macs macs info in Ok (Some mac :: macs)
      end
  end.

Definition apply_ue_info (st : e2_state) (l : UeListM) : res e2_state :=
  let* macs := fold_res apply_info_to_macs (ue_info l) (nrmac st) in
  Ok (st <| nrmac := macs |>).

Definition lookup_slice (info : NR_Slices_t) (sst_ sd_ : Z) : option nat :=
  if negb (initialized info) then None else
  find_slot (fun s => (sst (nssai s) =? sst_) && (sd (nssai s) =? sd_)) (slots info) (scount info).

(** the minimum ratios of the slices with another identifier *)
Definition other_minima (info : NR_Slices_t) (id : Z) (total : Z) : Z :=
  fold_left (fun t entry => match entry with
                            | Some s => if sid s =? id then t else u32 (t + min_ratio (spolicy s))
                            | None => t
                            end) (take (scount info) (slots info)) total.

Definition update_slice_policy_locked (info : NR_Slices_t) (i : nat) (min_ max_ : Z)
  : res (NR_Slices_t * bool) :=
  let* slice := get_slot info i in
  let max_ := if max_ <? min_ then min_ else max_ in
  if 100 <? other_minima info (sid slice) min_ then Ok (info, false) else
  Ok (set_slot info i (slice <| spolicy := mk_policy (dedicated_ratio (spolicy slice)) min_ max_ |>), true).

Definition apply_slicing_ctrl_to_mac (info : NR_Slices_t) (c : SlicingControlM) : res (NR_Slices_t * bool) :=
  let sd_ := match sc_sd c with Some v => u32 v | None => 0xffffff end in
  match lookup_slice info (u8 (sc_sst c)) sd_ with
  | None => Ok (info, false)
  | Some i => update_slice_policy_locked info i (u8 (sc_min_ratio c)) (u8 (sc_max_ratio c))
  end.

Fixpoint apply_slicing_ctrl (macs : list (option ran_mac)) (c : SlicingControlM)
  : res (list (option ran_mac)) :=
  match macs with
  | [] => Ok []
  | None :: macs => let* macs := apply_slicing_ctrl macs c in Ok (None :: macs)
  | Some mac :: macs =>
      let* '(info, _) := apply_slicing_ctrl_to_mac (SL_info (mac_inst mac)) c in
      let* macs := apply_slicing_ctrl macs c in
      Ok (Some (mac <| mac_inst := mac_inst mac <| SL_info := info |> |>) :: macs)
  end.

Definition ran_write (st : e2_state) (e : RANParamMapEntry) : res e2_state :=
  match key e, value e with
  | UE_LIST, UE_LIST_VALUE l => apply_ue_info st l
  | MAX_PRB, INT64_VALUE v => Ok (apply_max_cell_prb st (i32 v))
  | MAX_PRB, SCHE_CTRL_VALUE (mk_sched_control (Some v)) => Ok (apply_max_cell_prb st v)
  | USE_TRUE_GBR, INT64_VALUE v => Ok (apply_true_gbr st (i32 v))
  | SLICING_CONTROL, SLICING_CTRL_VALUE c =>
      let* macs := apply_slicing_ctrl (nrmac st) c in Ok (st <| nrmac := macs |>)
  | _, _ => Ok st
  end.

(** ** Messages of the controller *)

Definition handle_control (st : e2_state) (l : list RANParamMapEntry) : res e2_state :=
  fold_res ran_write l st.

(** the response that is sent *)
Fixpoint build_indication_response (st : e2_state) (target_params : list RANParameter)
  : res (e2_state * list RANParamMapEntry) :=
  match target_params with
  | [] => Ok (st, [])
  | p :: ps =>
      let* '(st, v) := ran_read st p in
      let* '(st, es) := build_indication_response st ps in
      Ok (st, mk_entry p v :: es)
  end.

Definition handle_message (st : e2_state) (m : RANMessage) : res (e2_state * option (list RANParamMapEntry)) :=
  match m with
  | SUBSCRIPTION => Ok (st, None)
  | INDICATION_REQUEST (Some ps) =>
      let* '(st, r) := build_indication_response st ps in Ok (st, Some r)
  | INDICATION_REQUEST None => Ok (st, None)
  | CONTROL (Some l) => let* st := handle_control st l in Ok (st, None)
  | CONTROL None => Ok (st, None)
  | INDICATION_RESPONSE => Ok (st, None)
  | unknown_message _ => Ok (st, None)
  end.

(** a datagram; one that the decoder rejects is dropped *)
Definition handle_master_message (unpack : list Z -> option RANMessage) (st : e2_state) (buf : list Z)
  : res (e2_state * option (list RANParamMapEntry)) :=
  match unpack buf with
  | None => Ok (st, None)
  | Some m => handle_message st m
  end.

End Clock.
