(* ===== verification/E2Schedule.v ===== *)
(** * From the controller to the schedule

    The slice policies that configuration, policy files and controller
    messages leave behind drive the scheduler safely, and the parameters of
    the databank reach it as they were written. *)
From S2P Require Import Prelude Slices SlicesInv SliceUe SliceUeSpec SliceSched SliceBudget SliceAlloc E2Agent E2AgentSpec.
From stdpp Require Import strings.
From Stdlib Require Import SpecFloat.
Local Open Scope Z_scope.

(** ** From the policies to the schedule *)

Lemma fill_sched_entries est l : entries_of (fill_sched (Some <$> l) est) l.
Proof. unfold entries_of. induction l as [|s l IH]; [done|]. cbn. by rewrite IH. Qed.

Lemma slice_table_entries info l est : table_of info l ->
  entries_of (take (scount info) (slice_table info est)) l.
Proof.
  intros Ht. unfold slice_table. rewrite (take_table _ _ Ht), (to_count _ _ Ht). cbv zeta.
  pose proof (fill_sched_entries est l) as He. assert (Hlen : length (fill_sched (Some <$> l) est) = length l).
  { apply (f_equal length) in He. by rewrite !length_fmap in He. }
  rewrite <- Hlen, take_app_length. done.
Qed.

Lemma sum_ratio_perm f l k : l ≡ₚ k -> sum_ratio f l = sum_ratio f k.
Proof.
  intros H. induction H as [|x l k H IH|x y l|a b c H1 IH1 H2 IH2]; [done| | |congruence].
  - change (f (spolicy x) + sum_ratio f l = f (spolicy x) + sum_ratio f k). lia.
  - change (f (spolicy y) + (f (spolicy x) + sum_ratio f l) =
      f (spolicy x) + (f (spolicy y) + sum_ratio f l)). lia.
Qed.

(** sorting the entries permutes the slices *)
Lemma sorted_entries ls ls' l : entries_of ls l -> ls' ≡ₚ ls -> exists l', entries_of ls' l' /\ l' ≡ₚ l.
Proof.
  unfold entries_of. intros He Hp. assert (Hp' : slice <$> ls' ≡ₚ Some <$> l) by (by rewrite Hp, He).
  destruct (Permutation_map_inv _ _ Hp') as (l' & H1 & H2).
  exists l'. split; [exact H1|]. by symmetry.
Qed.


(** ** A concrete cell *)

(** a JSON library whose objects are integers and that reads no file *)
#[export] Instance toy_json : Json := {|
  json_object := Z;
  json_object_from_file := fun _ => None;
  json_object_object_get_ex := fun _ _ => None;
  json_object_get_type := fun _ => json_type_other;
  json_object_array := fun _ => [];
  json_object_get_int := fun z => z;
  json_object_get_string := fun _ => None
|}.

Module Toy.
Definition clock (n : nat) : timespec := mk_time (Z.of_nat n) 0.
Definition dir : NR_mac_dir_stats_t := mk_dir 0 0 0 0.
Definition ue (r : Z) : NR_UE_info_t :=
  mk_ue r wt_ctrl 9 10 20 f_zero 9 f_zero 9 dir dir 0 0 false 0 0
    f_zero f_zero f_zero f_zero f_zero f_zero.
Definition history0 : list ue_prb_history_t :=
  replicate 16 (mk_history 0 0 0 (mk_time 0 0) false).
Definition entries0 : list ue_snapshot_t := replicate 16 (mk_snapshot 0 0 0 0 0 0 false).
Definition mac : ran_mac :=
  mk_ran_mac (mk_mac (mk_slices false 0 no_slots) 0 None) 0 3584 20 [ue 0x1234].
Definition st0 : e2_state := e2_agent_init (mk_e2 [Some mac] None history0 entries0 0).
(** two configured slices, a cap of 100 blocks and a policy for slice 1 *)
Definition ops : list policy_op :=
  [op_configure 0 [mk_nssai 1 0x010203] 1 None;
   op_message (CONTROL (Some [mk_entry MAX_PRB (INT64_VALUE 100);
     mk_entry SLICING_CONTROL (SLICING_CTRL_VALUE (mk_slicing 1 (Some 0x010203) 30 60))]))].
Definition slices : list NR_slice_info_t :=
  [mk_slice 0 (mk_nssai 0 0xffffff) (mk_policy 0 0 100);
   mk_slice 1 (mk_nssai 1 0x010203) (mk_policy 0 30 60)].
Definition info : NR_Slices_t := mk_slices true 2 ((Some <$> slices) ++ replicate 7 None).
Definition mac' : ran_mac :=
  mk_ran_mac (mk_mac info 2 None) 0 3584 20 [ue 0x1234].
Definition st' : e2_state := mk_e2 [Some mac'] (Some (mk_db 100 0)) history0 entries0 0.

Lemma ops_ok : Forall policy_op_ok ops.
Proof. repeat constructor. Qed.
Lemma st0_inv : e2_inv st0.
Proof. repeat constructor. Qed.
Lemma ops_run : policy_run clock st0 ops = Ok st'.
Proof. vm_compute. reflexivity. Qed.
Lemma table : table_of info slices.
Proof. split; try done; [cbn; unfold MAX_NUM_SLICE; lia|]. repeat constructor; cbn; lia. Qed.
End Toy.



(** ** The parameters of the databank *)

(** the cap [dl_sched_unit] reads *)
Definition e2_cap (st : e2_state) : option Z := max_prb <$> e2_agent_db st.

(** the two forms of a control of the cap *)
Inductive cap_control (v : Z) : ran_value -> Prop :=
  | cc_int : cap_control v (INT64_VALUE v)
  | cc_sched : cap_control v (SCHE_CTRL_VALUE (mk_sched_control (Some v))).

(** A cap the controller writes as an [int], in either form, is the one
    the scheduler uses and the agent reports, and changes nothing else; a
    negative cap reads back, is not reported as a limit and does not limit. *)
Theorem max_prb_written_is_used clock st db v w :
  e2_agent_db st = Some db -> - 2147483648 <= v < 2147483648 -> cap_control v w ->
  exists st', handle_message clock st (CONTROL (Some [mk_entry MAX_PRB w])) = Ok (st', None) /\
    nrmac st' = nrmac st /\ e2_cap st' = Some v /\
    handle_message clock st' (INDICATION_REQUEST (Some [MAX_PRB; SCHED_CONTROL])) =
      Ok (st', Some [mk_entry MAX_PRB (INT64_VALUE v);
        mk_entry SCHED_CONTROL (SCHE_CTRL_VALUE (mk_sched_control (if 0 <=? v then Some v else None)))]) /\
    (forall total, v < 0 -> cap_total (e2_cap st') total = total) /\
    (forall total, 0 <= v -> cap_total (e2_cap st') total = Z.min v total).
Proof.
  intros Hdb Hv Hw. exists (apply_max_cell_prb st v).
  assert (Hcap : e2_agent_db (apply_max_cell_prb st v) = Some (mk_db v (true_gbr db))).
  { unfold apply_max_cell_prb. cbn. by rewrite Hdb. }
  pose proof (i32_id v Hv) as Hi.
  split; [destruct Hw; cbn [handle_message handle_control fold_res ran_write key value res_bind];
    [rewrite Hi|]; reflexivity|].
  split; [done|]. unfold e2_cap. rewrite Hcap. split; [done|]. split; [|split].
  - cbn [handle_message build_indication_response ran_read res_bind]. by rewrite Hcap.
  - intros total Hn. cbn. destruct (Z.leb_spec 0 v); [lia|done].
  - intros total Hn. cbn. destruct (Z.leb_spec 0 v); [|lia]. cbn [andb].
    destruct (Z.ltb_spec v total); lia.
Qed.

Lemma max_prb_written_is_used_witness : exists st',
  handle_message Toy.clock Toy.st0 (CONTROL (Some [mk_entry MAX_PRB (INT64_VALUE 50)])) = Ok (st', None) /\
  e2_cap st' = Some 50.
Proof.
  destruct (max_prb_written_is_used Toy.clock Toy.st0 (mk_db (-1) 0) 50 (INT64_VALUE 50) eq_refl
    ltac:(lia) (cc_int 50)) as (st' & H & _ & Hc & _).
  exists st'. split; [exact H|exact Hc].
Defined.

(** A 64-bit cap is cut to an [int]: 2^32 blocks become a cap of 0, under
    which nothing is scheduled. *)
Theorem max_prb_truncated clock macs db h s n total : 0 <= total ->
  exists st', handle_message clock (mk_e2 macs (Some db) h s n)
      (CONTROL (Some [mk_entry MAX_PRB (INT64_VALUE 4294967296)])) = Ok (st', None) /\
    cap_total (e2_cap st') total = 0.
Proof.
  intros Ht. exists (mk_e2 macs (Some (mk_db 0 (true_gbr db))) h s n). split; [reflexivity|]. cbn.
  destruct (Z.ltb_spec 0 total); lia.
Qed.

(** The GBR mode is reported as a boolean, and a boolean written back is
    ignored: only an integer changes it. *)
Theorem true_gbr_reads_bool_ignores_bool clock st b :
  (exists b', handle_message clock st (INDICATION_REQUEST (Some [USE_TRUE_GBR])) =
    Ok (st, Some [mk_entry USE_TRUE_GBR (BOOL_VALUE b')])) /\
  handle_message clock st (CONTROL (Some [mk_entry USE_TRUE_GBR (BOOL_VALUE b)])) = Ok (st, None).
Proof. split; [eexists; reflexivity|reflexivity]. Qed.

(** A guaranteed size that is not a number is converted to an integer, which
    C leaves undefined; only negative values are replaced. *)
Theorem guaranteed_nan_undefined : exists l,
  handle_message Toy.clock Toy.st0 (CONTROL (Some [mk_entry UE_LIST (UE_LIST_VALUE l)])) = Err Undefined.
Proof.
  exists (mk_ue_list 1 [mk_ue_info 0x1234 None None (Some S754_nan) None None None None None None None None
    None None None None None None None None None None None None None]).
  vm_compute. reflexivity.
Qed.

(** A control may set a minimum below the dedicated ratio, which a policy file
    cannot. *)
Theorem control_below_dedicated :
  exists info' s, apply_slicing_ctrl_to_mac wt_info (mk_slicing 1 (Some 0x010203) 5 60) = Ok (info', true) /\
    get_slot info' 1 = Ok s /\ min_ratio (spolicy s) < dedicated_ratio (spolicy s).
Proof. eexists _, _. split; [reflexivity|]. split; [reflexivity|]. vm_compute. reflexivity. Qed.

(** ** The table of the averages fills up *)

Lemma find_index_none {A} (p : A -> bool) l : Forall (fun x => p x = false) l -> find_index p l = None.
Proof. induction 1 as [|x l Hx Hl IH]; [done|]. cbn. by rewrite Hx, IH. Qed.

(** Entries are never freed: once the table holds other RNTIs, the averages of
    a new UE are never computed. *)
Theorem history_full_no_averages clock sf st UE :
  Forall (fun h => h_initialized h = true /\ h_rnti h <> rnti UE) (prb_history st) ->
  update_avg_prbs clock sf st UE = (st, UE).
Proof.
  intros Hf. unfold update_avg_prbs, lookup_prb_history, lookup_or_free.
  rewrite !find_index_none.
  - cbn. by destruct st.
  - eapply Forall_impl; [exact Hf|]. intros h [-> _]. done.
  - eapply Forall_impl; [exact Hf|]. intros h [-> Hn]. by apply Z.eqb_neq.
Qed.
